(* ===== verification/_CoqProject ===== *)
-Q . S2P
Prelude.v
GoStrings.v
GoTime.v
Errors.v
Regex.v
Workload.v
Hostname.v
ProviderTypes.v
Matcher.v
GoMaps.v
Effects.v
Instance.v
NetIP.v
SourceRegistry.v
MemProvider.v
Registry.v
Result.v
Cache.v
Comparison.v
Actions.v
Orphan.v
Reconcile.v
Scenarios.v
DnsRecord.v
DnsClient.v
Catalog.v
CatalogSpec.v
DnsConfig.v
Rfc2136.v
DnsScenarios.v
Manager.v
ManagerScenarios.v
IO.v
FilePath.v
Dnsmasq.v
SshUtil.v
DnsmasqSsh.v
DnsmasqScenarios.v
SourceTraefik.v
SourceNative.v
SourceLists.v
SourcePlatforms.v
Http.v
Target.v
ConfigEnv.v
ConfigGlobal.v
ConfigInstance.v
ConfigFile.v
ConfigLoad.v
Setup.v
ConfigScenarios.v
Json.v
HttpProps.v
Url.v
Sha.v
Docker.v
Guests.v
GuestProps.v
Watcher.v
Kubernetes.v
KubeProps.v
PowerDns.v
PowerDnsSpec.v
Cloudflare.v
CloudflareSpec.v
AdGuard.v
AdGuardSpec.v
Webhook.v
WebhookSpec.v
Technitium.v
TechnitiumSpec.v
Ovh.v
OvhSpec.v
Pihole.v
PiholeSpec.v
Opnsense.v
Pfsense.v
FirewallSpec.v
Main.v
PlatformScenarios.v
