(* ===== verification/Prelude.v ===== *)
(** * dnsweaver: a verification library

    dnsweaver watches container platforms, extracts hostnames from workloads
    and keeps DNS records for them on any number of DNS providers.  This
    library models the part of the program that decides what happens to DNS
    data and proves what makes those decisions right.  Paths are those of the
    Go sources under src/.

    ** The program and its model

    Platform listers produce workloads; sources extract hostnames from them;
    the reconciler routes each hostname to provider instances by domain
    patterns, ensures its records there, and cleans up the records of
    hostnames that vanished.

    - Prelude: notations of [go_scope], tactics, list lemmas.
    - GoStrings: Go's strings, strconv and fmt functions that the code uses.
      Texts are byte strings; case mapping is that of ASCII.
    - Errors: pkg/provider/errors.go, with [errors.Is] on wrapping chains.
    - Regex: regular expressions with a derivative-based matcher, and its
      correctness; the label patterns of Hostname are written in it.
    - Workload: pkg/workload/workload.go.
    - Hostname: pkg/source/hostname.go, validation and normalisation.
    - ProviderTypes: pkg/provider/provider.go, mode.go, identity.go: records,
      ownership markers, capabilities, operational modes.
    - Matcher: internal/matcher/matcher.go.  Go's regexp package is the class
      [RegexpEngine]; what is assumed of it on glob patterns is the class
      [RegexpGlobLaws], with [glob_engine] as a concrete instance.
    - GoMaps: Go maps as [gmap]; the class [MapOrder] is the order in which
      [range] visits them, any permutation of the entries.
    - Effects: the monad of the program's effects.  A provider is a record of
      functions on a world [W] ([Provider], the Go interface with its optional
      interfaces), a program threads the world, the sequence of provider calls
      made so far and a local state, and may panic ([None]).  The logic of the
      file has [ensures] (every call satisfies P, a result satisfies Q,
      whatever the providers answer), [triple] (the same from a known local
      state), [returns] (no panic), [silent] (no call at all), [quiet] and
      [keeps] (parts of the state left alone).
    - SourceRegistry: pkg/source/registry.go, source.go, errors.go.
    - Instance: pkg/provider/instance.go: [ProviderInstance] and its
      operations.
    - NetIP: net.ParseIP.
    - MemProvider: an in-memory provider for the concrete runs.
    - Registry: pkg/provider/tls.go, and registry.go on a heap, as a state
      machine ([registry_step]).  The class [ProviderDirectory] is what the
      reconciler relies on; [registry_directory] implements it.
    - Result, Cache, Comparison: internal/reconciler/result.go, cache.go,
      comparison.go.
    - Actions: internal/reconciler/actions.go: [ensureRecord] and its steps.
    - Orphan: internal/reconciler/orphan.go: cleanup under each mode.
    - Reconcile: internal/reconciler/reconciler.go: the cycle, the operations
      on one hostname, recovery at start-up, metrics.
    - Scenarios: the theorems about the reconciler at concrete inputs.
    - DnsRecord: pkg/dnsupdate/record.go.  The records of the DNS library are
      the type [RR]; its table of type names is the class [DnsNames].
    - DnsClient: pkg/dnsupdate/client.go in the monad [Op] (a result, an
      error, a panic or no end, and a new state).  The server is the class
      [DnsServer]; what RFC 1035 and RFC 2136 promise of it is the class
      [DnsServerLaws], over zone data [ZoneData]: an answer that the
      transport cannot carry may be truncated.  [zone_server] is a server
      that keeps the promise, over TCP, and may lose exchanges.
    - Catalog: pkg/dnsupdate/catalog.go: the hostnames kept in chunked TXT
      records.  CatalogSpec: the set of names it stands for.
    - DnsConfig: pkg/dnsupdate/config.go, tsig.go, providers/rfc2136/config.go.
    - Rfc2136: providers/rfc2136/provider.go and factory.go;
      [rfc2136_provider] is an instance of the interface [Provider] that the
      reconciler and the registry call.
    - DnsScenarios: the theorems about these files at concrete inputs.
    - GoTime: durations, their parser and the float arithmetic of the
      manager's intervals (class [FloatConv]).
    - Manager: pkg/provider/manager.go: initialisation, the queue of pending
      providers, retries with growing intervals on the clock of the world
      (class [Clock]), status and metrics.  ManagerScenarios: concrete runs.
    - IO: a monad of results and errors on a world, for code that is not
      about provider calls, and objects with a state of their own in it
      ([OWorld], [run_at]).  FilePath: path/filepath, lines of a file.
    - Dnsmasq: providers/dnsmasq: the client on a file system (class
      [FileSystem], laws [FileSystemLaws], in which several names may stand
      for one file), the file format, configuration
      and the provider.  SshUtil: pkg/sshutil on the SSH and SFTP libraries
      (class [SftpLib]).  DnsmasqSsh: providers/dnsmasq/ssh.go, a file system
      that reconnects.  DnsmasqScenarios: concrete runs.
    - SourceTraefik, SourceNative, SourceLists, SourcePlatforms: the sources
      under sources/ (traefik; dnsweaver; caddy and nginx-proxy; kubernetes,
      proxmox and incus), as instances of the interface [Source] of
      SourceRegistry.  Files and their decoders are the class [ConfigFiles].
      PlatformScenarios: concrete runs.
    - Target: internal/target: where the target of an instance comes from when
      it is not literal.  The network is the class [Network]; the loop of a
      refresher is a step, [tick].
    - ConfigEnv, ConfigGlobal, ConfigInstance, ConfigFile, ConfigLoad:
      internal/config: the environment and its secret files (class [Environ]),
      the global settings, the instances and sources, the file (its decoder is
      the class [YamlConfig]), and [Load], which puts them together and
      validates.  Setup: the sources, instances and refreshers that
      cmd/dnsweaver makes of a configuration.  ConfigScenarios: concrete runs.
    - Json: encoding/json, a parser, a printer and decoders of struct fields
      (the texts of its errors are the class [JsonErrors]).  Http: requests,
      answers and the text of queries; the network is the class [HttpClient].
      HttpProps: the parser of Json inverts the printer, escaped texts are
      told apart, worlds that keep the requests ([Traced]), one request and
      what is taken of its answer ([exchange]).  Url: url.Parse.
    - Docker: internal/docker on a daemon that is the class [DockerAPI], its
      clock and waits under [DockerClockLaws].  Guests: internal/proxmox and
      internal/incus; GuestProps: their theorems.  Watcher:
      internal/watcher and internal/incus/watcher.go, a step machine of
      goroutines, timer and contexts.  Kubernetes: internal/kubernetes on
      client-go (classes [KubeAPI] and [UnstructuredAPI]); KubeProps: its
      theorems.  PlatformScenarios: concrete runs.
    - PowerDns, Cloudflare, AdGuard, Webhook, Technitium, Ovh, Pihole,
      Opnsense, Pfsense: the providers of the same names under providers/,
      each an instance of the interface [Provider].  PowerDnsSpec,
      CloudflareSpec, AdGuardSpec, WebhookSpec, TechnitiumSpec, OvhSpec,
      PiholeSpec and FirewallSpec (OPNsense and pfSense): what they promise.
      What is asked of a server are the classes [PowerDNSServer],
      [CloudflareServer], [AdGuardServer] and [OvhServer], each with a server
      in memory that keeps it.  The last three speak of HTTP requests, whose
      method, URL and document are written out, and let the server rewrite
      what it stores (TTLs, quotes, the case of names); waiting is
      [RetryTimer].  Sha: crypto/sha1, with which requests to OVH are
      signed, and crypto/sha256, with which Pi-hole's password is hashed.
    - Main: cmd/dnsweaver/main.go: the listers of a configuration, and the
      guard that serialises reconciliations, as steps of its goroutines.

    The fields of Go's [Reconciler] are split: [Reconciler] holds what an
    operation only reads (listers, registries, configuration, the run-time
    flags), [RState] what it writes (known hostnames, provider mapping,
    recovered metadata), and is the local state of the monad.

    ** What the theorems show

    - Calls of a cycle, each tied to what the listers, the sources and the
      providers answered in that cycle: [Reconcile_calls_justified], [dry_run_never_writes],
      [cleanup_deletes_justified], [additive_never_deletes],
      [unowned_never_deleted], [circuit_breaker], [ReconcileHostname_spec],
      [RemoveHostname_spec].  They hold for all providers, listers and
      sources.
    - Outcomes and completion: [Reconcile_outcomes], [Reconcile_returns],
      [Reconcile_counts], [RecoverOwnership_spec], [recovered_metadata_once],
      [extraction_first_wins].
    - Ensuring: [ensure_converges] (against [ProviderStore], what a provider
      is expected to do), [ensure_in_sync_silent],
      [ensure_type_conflict_silent], [first_match_wins].
    - Where the program departs from its intent: [cache_only_ignores_dry_run],
      [tripped_breaker_forgets], [in_sync_cycle_drops_mapping],
      [stale_srv_without_data_panics], [CompareRecordSets_target_change],
      [ownership_value_injection].
    - The registries: [registry_consistent], [CreateInstance_atomic],
      [Remove_spec], [MatchingProviders_spec], [Config_Validate_exact],
      [WarnDuplicateIdentities_spec], [ExtractAll_spec], [Register_spec].
    - The data: [hostname_validation_exact], [normalize_canonical],
      [Deduplicate_spec], [NewDomainMatcher_glob], [Matches_case_insensitive],
      [ownership_value_roundtrip], [ownership_isolation],
      [ownership_name_roundtrip], [ParseOperationalMode_spec],
      [CompareRecordSets_spec].

    - The RFC 2136 provider: [catalog_refines_names] (the chunks against a set
      of names, with failing exchanges), [packChunks_spec],
      [Create_then_Query], [Update_atomic], [provider_Create_spec],
      [provider_record_roundtrip], [List_sound], [GetServer_spec],
      [NewClient_of_validated]; and where it departs from its intent:
      [Remove_gap_loses_names], [truncated_catalog_overwritten],
      [Delete_hides_name], [isInZone_text_suffix],
      [factory_instances_one_writer].

    - The provider manager: [providers_conserved], [pending_recovers],
      [backoff_doubles_to_cap], [InitializeProvider_outcomes],
      [Stop_ends_the_loop], [manager_only_pings],
      [unknown_type_retried_forever].
    - dnsmasq and SSH: [client_Create_spec], [client_Delete_spec],
      [WriteRecords_List], [ConfigFilePath_contained] (the client against the
      records that a file holds), [transport_contract] (the reconnecting
      transport keeps the contract of a file system and runs an operation
      once more after opening everything again),
      [mkdirAllInternal_terminates], [RunScript_word]; departures:
      [Create_shadowed], [same_file_two_identities],
      [ssh_missing_file_is_an_error], [reload_not_retried],
      [extractExitCode_lost].
    - The sources: [rule_hosts], [ExtractHostnames_spec] (Traefik),
      [record_labels_roundtrip], [ExtractHostnames_order],
      [extraction_wellformed] (dnsweaver), [caddy_deterministic],
      [proxmox_spec]; departures: [empty_router_panics],
      [two_records_one_name].
    - Configuration and start: [validateConfig_exact], [Load_sound],
      [loaded_instance_accepted], [provider_settings_exact],
      [interpolation_template], [instance_id_checked],
      [registerSources_spec]; departures: [dynamic_target_needs_literal],
      [config_file_hides_platforms], [colliding_names_share_settings],
      [environment_dnsmasq_is_local].
    - Targets: [resolved_target_fits], [refresher_hands_on_changes].
    - Listers and watchers: [docker_lister_spec], [connectWithRetry_ends],
      [guest_record_routable], [nonRoutable_exact], [instance_labels_spec],
      [kubernetes_lister_spec], [matchesFilters_exact], [published_names],
      [event_served], [burst_reconciles_once]; departures: [storm_starves],
      [restart_leaks_loop], [discovery_error_hides_routes],
      [unresolved_guest_left_out].
    - Main: [no_trigger_forgotten], [build_listers_spec]; a departure:
      [late_request_waits].
    - The HTTP providers: [powerdns_refines], [cloudflare_refines],
      [adguard_refines] and [ovh_refines] (a change against what the server
      then holds and serves, failed requests included), [created_is_listed],
      [adguard_created_listed], [decode_recordContent] and
      [ovh_record_roundtrip] (contents of records and back),
      [host_entry_roundtrip], [cname_entry_roundtrip] (entries of Pi-hole),
      [requests_signed] (OVH's signatures and server time),
      [pfsense_requests], [opnsense_Delete_requests], [join_split] and
      [pfsense_listed] (the overrides of the firewalls),
      [doRequest_attempts] and [backoff_doubles] (retries of the webhook),
      [Create_requests] (the requests of a Technitium record); departures:
      [ZoneID_once], [identity_changes], [ttl_zero_omitted],
      [backoff_overflows], [type_is_the_answers],
      [any_other_status_succeeds], [technitium_one_writer],
      [deletion_not_served], [pihole_orphans_kept], [marker_is_not_written],
      [unreachable_is_deleted], [unreadable_is_success],
      [failed_reload_stays], [taken_over].
    - JSON: [parse_print].

    ** Bounds and fuel

    The group loop of [net.ParseIP] (NetIP) has fuel: eight groups of two
    bytes fill an address, and [ParseIP_length] holds.  The loop that loads
    catalog chunks ends when the server has no next chunk: its fuel is a
    parameter, and when it runs out the operation [Diverges]; the theorems
    ask for more fuel than there are chunks, and a transport that carries the
    answers for so many ([carried]), and prove that the operation then
    ends with a result or an error.  [mkdirAllInternal] has the length of the
    path as fuel, which never runs out ([mkdirAllInternal_terminates]); the
    loops of [ParseDuration] and of glob matching take the length of the text,
    of which each round uses a byte.  The JSON parser has twice the length of
    its text, enough for every document the printer makes ([parse_print]); the
    runes of a text take at most its length; the webhook client tries once
    more than it has retries, so the fuel of [attempts] is never used up early
    ([doRequest_attempts]).  The connection to Docker is tried within a time
    limit: its fuel is a parameter, and [connectWithRetry_ends] says how much
    is enough.  Other loops are structural.  Integers
    are [Z] or [nat]; the code compares and copies them but does no arithmetic
    that could overflow, but for durations: [ParseDuration] has Go's overflow
    checks and the manager's intervals wrap as int64 does ([int64_of]).  The
    quotient of the circuit breaker is compared exactly.

    ** What is not modelled

    Logging, metrics registration and timing have no effect on DNS data and
    are left out (the counters a result increments are [recordMetrics]).
    Locks are left out: each operation is a sequential program, the run-time
    flags are constant while it runs, and full cycles are serialised by the
    code; the guard that does so is in Main.  The provider interface has no
    panics: a panic of a provider reads as an error there.  The enrolment of Incus client certificates
    (internal/incus/enroll.go) is cryptography and files; the web socket of
    its event stream, the file watcher of pkg/source (fsnotify), the health
    server, the metrics registry, the transports of pkg/httputil and the
    keep-alives of pkg/sshutil are I/O and library calls.  Of the
    configuration only its accessors and its printing are left out; of
    main.go, flags, the logger, the wiring of what is modelled elsewhere and
    the shutdown. *)
From stdpp Require Export base tactics list gmap sets strings sorting pretty.
From Stdlib Require Export Ascii Lia.

(** ** Notations *)

Declare Scope go_scope.
Delimit Scope go_scope with go.

(** Go's [==] and [!=] on strings. *)
Infix "==" := String.eqb (at level 70, no associativity) : go_scope.
Notation "a != b" := (negb (String.eqb a b)) (at level 70, no associativity) : go_scope.
Notation "s ++s t" := (String.append s t) (at level 60, right associativity) : go_scope.
#[global] Open Scope go_scope.

(** Go's pointer-typed fields: [nil] or a pointer to a value. *)
Abbreviation nilable := option.

(** ** Tactics *)

(** Case analysis on the boolean string comparisons of the goal. *)
Ltac case_eqb :=
  match goal with
  | |- context [String.eqb ?a ?b] => destruct (String.eqb_spec a b); simplify_eq/=
  | H : context [String.eqb ?a ?b] |- _ => destruct (String.eqb_spec a b); simplify_eq/=
  end.

(** Turns boolean facts into propositional ones. *)
Ltac bool_to_prop :=
  repeat match goal with
  | H : (_ && _)%bool = true |- _ => apply andb_true_iff in H as [? ?]
  | H : (_ || _)%bool = false |- _ => apply orb_false_iff in H as [? ?]
  | H : negb _ = true |- _ => apply negb_true_iff in H
  | H : negb _ = false |- _ => apply negb_false_iff in H
  | H : String.eqb _ _ = true |- _ => apply String.eqb_eq in H
  | H : String.eqb _ _ = false |- _ => apply String.eqb_neq in H
  | H : bool_decide _ = true |- _ => apply bool_decide_eq_true in H
  | H : bool_decide _ = false |- _ => apply bool_decide_eq_false in H
  | H : (_ =? _)%nat = true |- _ => apply Nat.eqb_eq in H
  | H : (_ =? _)%nat = false |- _ => apply Nat.eqb_neq in H
  | H : (_ <? _)%nat = true |- _ => apply Nat.ltb_lt in H
  | H : (_ <? _)%nat = false |- _ => apply Nat.ltb_ge in H
  | H : (_ <=? _)%nat = true |- _ => apply Nat.leb_le in H
  | H : (_ <=? _)%nat = false |- _ => apply Nat.leb_gt in H
  end.

#[global] Arguments Ascii.eqb : simpl never.

(** ** Options *)

(** A chain of early returns: none was taken. *)
Lemma early_return_None {A} (b : bool) (e : A) k :
  (if b then Some e else k) = None ↔ b = false ∧ k = None.
Proof. destruct b; naive_solver. Qed.

(** ** Lists *)

Section ListLemmas.
Context {A B : Type}.
Implicit Types (l : list A).

Lemma Forall_filter_mono (P : A → Prop) (f : A → bool) l :
  Forall P l → Forall P (List.filter f l).
Proof. induction 1; simpl; [done|]. destruct (f _); auto. Qed.

Lemma existsb_elem (f : A → bool) l :
  existsb f l = true ↔ ∃ x, x ∈ l ∧ f x = true.
Proof.
  rewrite List.existsb_exists. by setoid_rewrite list_elem_of_In.
Qed.

Lemma existsb_not_elem (f : A → bool) l :
  existsb f l = false ↔ ∀ x, x ∈ l → f x = false.
Proof.
  split.
  - intros H x Hx. destruct (f x) eqn:E; [|done].
    assert (existsb f l = true) as Ht by (apply existsb_elem; eauto).
    by rewrite H in Ht.
  - intros H. destruct (existsb f l) eqn:E; [|done].
    apply existsb_elem in E as (x & Hx & Hf). by rewrite H in Hf.
Qed.

Lemma elem_of_list_filter (f : A → bool) l x :
  x ∈ List.filter f l ↔ x ∈ l ∧ f x = true.
Proof. by rewrite !list_elem_of_In, List.filter_In. Qed.

Lemma filter_idempotent (f : A → bool) l :
  List.filter f (List.filter f l) = List.filter f l.
Proof.
  induction l as [|x l IH]; simpl; [done|].
  destruct (f x) eqn:E; simpl; rewrite ?E, ?IH; done.
Qed.

Lemma filter_nil (f : A → bool) l : (∀ x, x ∈ l → f x = false) → List.filter f l = [].
Proof.
  induction l as [|x l IH]; simpl; intros Hf; [done|].
  rewrite Hf by (by left). apply IH. intros. apply Hf. by right.
Qed.

Lemma filter_all (f : A → bool) l : (∀ x, x ∈ l → f x = true) → List.filter f l = l.
Proof.
  induction l as [|x l IH]; simpl; intros Hf; [done|].
  rewrite Hf by (by left). f_equal. apply IH. intros. apply Hf. by right.
Qed.

Lemma find_app_first (f : A → bool) l l' :
  List.find f (l ++ l') = match List.find f l with Some x => Some x | None => List.find f l' end.
Proof. induction l as [|x l IH]; simpl; [done|]. by destruct (f x). Qed.

Lemma find_filter_head (f : A → bool) l : List.find f l = head (List.filter f l).
Proof. induction l as [|x l IH]; simpl; [done|]. by destruct (f x). Qed.

Lemma filter_sublist (f : A → bool) l : sublist (List.filter f l) l.
Proof. induction l as [|x l IH]; simpl; [constructor|]. destruct (f x); by constructor. Qed.

(** A filter that drops nothing. *)
Lemma filter_length_id (f : A → bool) l : length (List.filter f l) = length l → List.filter f l = l.
Proof.
  induction l as [|x l IH]; simpl; [done|].
  pose proof (sublist_length _ _ (filter_sublist f l)).
  destruct (f x); simpl; intros Hl; [f_equal; apply IH; lia|lia].
Qed.

Lemma last_cons {X} (x d : X) (l : list X) : List.last (x :: l) d = List.last l x.
Proof.
  revert x d. induction l as [|y l IH]; intros x d; [done|].
  change (List.last (y :: l) d = List.last (y :: l) x). by rewrite !IH.
Qed.

Lemma NoDup_filter_bool (f : A → bool) l : NoDup l → NoDup (List.filter f l).
Proof.
  induction 1 as [|x l Hx Hl IH]; simpl; [constructor|].
  destruct (f x); [|done]. constructor; [|done].
  by intros [? _]%elem_of_list_filter.
Qed.
End ListLemmas.

Create HintDb go discriminated.
Create Rewrite HintDb go_str.
#[export] Hint Resolve Forall_filter_mono NoDup_filter_bool : go.
