(* ===== verification/GoStrings.v ===== *)
(** * The parts of Go's [strings], [strconv] and [fmt] packages the program uses

    Go strings are byte strings: [String.string] is the same data.  Case
    mapping and white space are those of ASCII, the alphabet of DNS names,
    label keys and the program's constants. *)
From S2P Require Import Prelude.
From Stdlib Require Import ZArith.

(** ** Bytes *)

Definition byte_in (lo hi c : ascii) : bool :=
  (N_of_ascii lo <=? N_of_ascii c)%N && (N_of_ascii c <=? N_of_ascii hi)%N.

Definition is_upper : ascii → bool := byte_in "A" "Z".
Definition is_lower : ascii → bool := byte_in "a" "z".
Definition is_digit : ascii → bool := byte_in "0" "9".
Definition is_space : ascii → bool := stdpp.strings.Ascii.is_space.

Definition lower_byte (c : ascii) : ascii :=
  if is_upper c then ascii_of_N (N_of_ascii c + 32) else c.
Definition upper_byte (c : ascii) : ascii :=
  if is_lower c then ascii_of_N (N_of_ascii c - 32) else c.

(** ** Basic operations *)

Fixpoint str_map (f : ascii → ascii) (s : string) : string :=
  match s with EmptyString => EmptyString | String c s => String (f c) (str_map f s) end.

Fixpoint str_forallb (f : ascii → bool) (s : string) : bool :=
  match s with EmptyString => true | String c s => f c && str_forallb f s end.

Definition ToLower : string → string := str_map lower_byte.
Definition ToUpper : string → string := str_map upper_byte.

(** [strings.ReplaceAll] of a byte by another. *)
Definition ReplaceByte (old new : ascii) : string → string :=
  str_map (λ c, if Ascii.eqb c old then new else c).

(** [s[n:]] for [n] at most the length, [s[:n]]. *)
Fixpoint str_drop (n : nat) (s : string) : string :=
  match n, s with O, _ => s | _, EmptyString => EmptyString | S n, String _ s => str_drop n s end.
Fixpoint str_take (n : nat) (s : string) : string :=
  match n, s with O, _ => EmptyString | _, EmptyString => EmptyString
  | S n, String c s => String c (str_take n s) end.

Definition HasPrefix (s pre : string) : bool := String.prefix pre s.
Definition HasSuffix (s suf : string) : bool :=
  (String.length suf <=? String.length s)%nat &&
  (str_drop (String.length s - String.length suf) s == suf).
Definition TrimPrefix (s pre : string) : string :=
  if HasPrefix s pre then str_drop (String.length pre) s else s.
Definition TrimSuffix (s suf : string) : string :=
  if HasSuffix s suf then str_take (String.length s - String.length suf) s else s.

Fixpoint str_contains_byte (c : ascii) (s : string) : bool :=
  match s with EmptyString => false | String d s => Ascii.eqb c d || str_contains_byte c s end.

(** [strings.Contains]. *)
Fixpoint Contains (s sub : string) : bool :=
  HasPrefix s sub || match s with EmptyString => false | String _ s' => Contains s' sub end.

(** [strings.Split] with a separator of one byte: never empty. *)
Fixpoint Split (sep : ascii) (s : string) : list string :=
  match s with
  | EmptyString => [""]
  | String c s' =>
      if Ascii.eqb c sep then "" :: Split sep s'
      else match Split sep s' with
           | [] => [String c ""]
           | w :: ws => String c w :: ws
           end
  end.

(** [strings.SplitN(s, sep, 2)] with a separator of one byte: the two parts
    around the first separator, [None] for the one-element result. *)
Fixpoint Cut (sep : ascii) (s : string) : option (string * string) :=
  match s with
  | EmptyString => None
  | String c s' =>
      if Ascii.eqb c sep then Some ("", s')
      else match Cut sep s' with
           | Some (a, b) => Some (String c a, b)
           | None => None
           end
  end.

Fixpoint Join (sep : string) (l : list string) : string :=
  match l with
  | [] => ""
  | [s] => s
  | s :: l => s ++s sep ++s Join sep l
  end.

Fixpoint trim_left (f : ascii → bool) (s : string) : string :=
  match s with
  | EmptyString => EmptyString
  | String c s' => if f c then trim_left f s' else s
  end.
Fixpoint trim_right (f : ascii → bool) (s : string) : string :=
  match s with
  | EmptyString => EmptyString
  | String c s' =>
      match trim_right f s' with
      | EmptyString => if f c then EmptyString else String c EmptyString
      | t => String c t
      end
  end.
Definition TrimSpace (s : string) : string := trim_right is_space (trim_left is_space s).

Definition Fields : string → list string := stdpp.strings.String.words.

Definition EqualFold (a b : string) : bool := ToLower a == ToLower b.

(** [strings.FieldsFunc]: the runs of bytes between the separators. *)
Fixpoint split_where (f : ascii → bool) (s : string) : list string :=
  match s with
  | EmptyString => [""]
  | String c s' =>
      if f c then "" :: split_where f s'
      else match split_where f s' with
           | [] => [String c ""]
           | w :: ws => String c w :: ws
           end
  end.
Definition FieldsFunc (f : ascii → bool) (s : string) : list string :=
  List.filter (λ w, w != "") (split_where f s).

(** [sort.Strings]. *)
Definition sort_Strings : list string → list string := merge_sort String.le.

Lemma sort_perm l : sort_Strings l ≡ₚ l.
Proof. apply merge_sort_Permutation. Qed.

(** Sorting forgets the order. *)
Lemma sort_unique l l' : l ≡ₚ l' → sort_Strings l = sort_Strings l'.
Proof.
  intros Hp. apply (Sorted_unique String.le); [apply (Sorted_merge_sort _ l)|apply (Sorted_merge_sort _ l')|].
  by rewrite !sort_perm.
Qed.

(** ** Numbers *)

Definition digit_val (c : ascii) : Z := (Z.of_N (N_of_ascii c) - 48)%Z.

Fixpoint digits_val (acc : Z) (s : string) : option Z :=
  match s with
  | EmptyString => Some acc
  | String c s => if is_digit c then digits_val (acc * 10 + digit_val c) s else None
  end.

(** [strconv.ParseUint(s, 10, bits)]: [None] is the error. *)
Definition ParseUint (bits : Z) (s : string) : option Z :=
  match s with
  | EmptyString => None
  | _ => match digits_val 0 s with
         | Some v => if (v <? 2 ^ bits)%Z then Some v else None
         | None => None
         end
  end.

(** [strconv.Atoi] on a 64-bit platform: [None] is the error. *)
Definition Atoi (s : string) : option Z :=
  let num (sign : Z) (t : string) :=
    match t with
    | EmptyString => None
    | _ => match digits_val 0 t with
           | Some v => let r := (sign * v)%Z in
                       if (- 2 ^ 63 <=? r)%Z && (r <? 2 ^ 63)%Z then Some r else None
           | None => None
           end
    end in
  match s with
  | String "-" t => num (-1)%Z t
  | String "+" t => num 1%Z t
  | _ => num 1%Z s
  end.

(** [%d]. *)
Definition itoa (z : Z) : string := pretty z.

(** [%q]: [strconv.Quote] on ASCII. *)
Definition dquote : ascii := ascii_of_nat 34.
Definition hex_digit (n : N) : ascii :=
  if (n <? 10)%N then ascii_of_N (48 + n) else ascii_of_N (87 + n).
Definition quote_byte (c : ascii) : string :=
  let n := N_of_ascii c in
  if Ascii.eqb c dquote then String "\" (String dquote "")
  else if Ascii.eqb c "\" then "\\"
  else if (n =? 7)%N then "\a" else if (n =? 8)%N then "\b" else if (n =? 12)%N then "\f"
  else if (n =? 10)%N then "\n" else if (n =? 13)%N then "\r" else if (n =? 9)%N then "\t"
  else if (n =? 11)%N then "\v"
  else if (n <? 32)%N || (n =? 127)%N
       then "\x" ++s String (hex_digit (n / 16)) (String (hex_digit (n mod 16)) "")
  else String c "".
Fixpoint quote_bytes (s : string) : string :=
  match s with EmptyString => "" | String c s => quote_byte c ++s quote_bytes s end.
Definition Quote (s : string) : string :=
  String dquote (quote_bytes s ++s String dquote "").

(** [%v] of a slice of strings. *)
Definition fmt_slice (l : list string) : string := "[" ++s Join " " l ++s "]".

(** ** Lemmas *)

Section Append.
Implicit Types (s t p : string) (c : ascii).

Lemma app_cons c s t : String c s ++s t = String c (s ++s t).
Proof. done. Qed.

Lemma app_empty_l s : "" ++s s = s.
Proof. done. Qed.

Lemma app_empty_r s : s ++s "" = s.
Proof. induction s as [|c s IH]; [done|]. by rewrite app_cons, IH. Qed.

Lemma app_assoc_s s t p : (s ++s t) ++s p = s ++s t ++s p.
Proof. induction s as [|c s IH]; [done|]. by rewrite !app_cons, IH. Qed.

Lemma length_app_s s t : String.length (s ++s t) = String.length s + String.length t.
Proof. induction s as [|c s IH]; [done|]. rewrite app_cons. simpl. by rewrite IH. Qed.

Lemma str_drop_app p s : str_drop (String.length p) (p ++s s) = s.
Proof. induction p as [|c p IH]; [done|]. by rewrite app_cons. Qed.

Lemma str_take_app p s : str_take (String.length p) (p ++s s) = p.
Proof. induction p as [|c p IH]; [done|]. rewrite app_cons. simpl. by rewrite IH. Qed.

Lemma str_take_drop n s : str_take n s ++s str_drop n s = s.
Proof.
  revert s. induction n as [|n IH]; intros [|c s]; simpl; try done.
  by rewrite app_cons, IH.
Qed.

Lemma length_str_take n s :
  n ≤ String.length s → String.length (str_take n s) = n.
Proof.
  revert s. induction n as [|n IH]; intros [|c s]; simpl; intros; try lia.
  rewrite IH; lia.
Qed.

Lemma HasPrefix_app p s : HasPrefix (p ++s s) p = true.
Proof.
  unfold HasPrefix. induction p as [|c p IH]; [by destruct s|].
  rewrite app_cons. simpl. by destruct (Ascii.ascii_dec c c).
Qed.

Lemma HasPrefix_inv s p : HasPrefix s p = true → s = p ++s str_drop (String.length p) s.
Proof.
  unfold HasPrefix. revert s. induction p as [|c p IH]; intros s; [done|].
  destruct s as [|d s]; simpl; [done|].
  destruct (Ascii.ascii_dec c d); [|done]. intros H. subst.
  by rewrite app_cons, <- IH.
Qed.

Lemma HasPrefix_spec s p : HasPrefix s p = true ↔ ∃ t, s = p ++s t.
Proof.
  split; [intros H; eexists; by apply HasPrefix_inv|].
  intros [t ->]. apply HasPrefix_app.
Qed.

Lemma TrimPrefix_app p s : TrimPrefix (p ++s s) p = s.
Proof. unfold TrimPrefix. by rewrite HasPrefix_app, str_drop_app. Qed.

Lemma HasSuffix_app s t : HasSuffix (s ++s t) t = true.
Proof.
  unfold HasSuffix. rewrite length_app_s.
  replace (String.length s + String.length t - String.length t) with (String.length s) by lia.
  rewrite str_drop_app, String.eqb_refl, andb_true_r. apply Nat.leb_le. lia.
Qed.

Lemma HasSuffix_inv s t :
  HasSuffix s t = true →
  s = str_take (String.length s - String.length t) s ++s t.
Proof.
  unfold HasSuffix. intros H. bool_to_prop.
  rewrite <- (str_take_drop (String.length s - String.length t) s) at 1.
  congruence.
Qed.

Lemma HasSuffix_spec s t : HasSuffix s t = true ↔ ∃ p, s = p ++s t.
Proof.
  split; [intros H; eexists; by apply HasSuffix_inv|].
  intros [p ->]. apply HasSuffix_app.
Qed.

Lemma TrimSuffix_app s t : TrimSuffix (s ++s t) t = s.
Proof.
  unfold TrimSuffix. rewrite HasSuffix_app, length_app_s.
  replace (String.length s + String.length t - String.length t) with (String.length s) by lia.
  apply str_take_app.
Qed.

Lemma TrimSuffix_id s t : HasSuffix s t = false → TrimSuffix s t = s.
Proof. unfold TrimSuffix. by intros ->. Qed.

Lemma TrimSuffix_cases s t :
  (∃ p, s = p ++s t ∧ TrimSuffix s t = p) ∨ (HasSuffix s t = false ∧ TrimSuffix s t = s).
Proof.
  destruct (HasSuffix s t) eqn:H.
  - apply HasSuffix_spec in H as [p ->]. left. exists p. by rewrite TrimSuffix_app.
  - right. by rewrite TrimSuffix_id.
Qed.

Lemma app_inj_prefix p s t : p ++s s = p ++s t → s = t.
Proof. by intros ?%(inj _). Qed.
End Append.

#[export] Hint Rewrite app_cons app_empty_r app_assoc_s length_app_s
  str_drop_app str_take_app HasPrefix_app HasSuffix_app TrimPrefix_app TrimSuffix_app : go_str.

(** Case mapping. *)
Section Lower.
Implicit Types (s t : string) (c : ascii).

(** A property of all bytes, decided on the 256 of them. *)
Definition all_bytes (f : ascii → bool) : bool :=
  List.forallb (λ n, f (ascii_of_nat n)) (List.seq 0 256).

Lemma all_bytes_spec (f : ascii → bool) : all_bytes f = true → ∀ c, f c = true.
Proof.
  unfold all_bytes. rewrite List.forallb_forall. intros H c.
  rewrite <- (ascii_nat_embedding c). apply H, List.in_seq.
  pose proof (nat_ascii_bounded c). lia.
Qed.

Lemma lower_byte_idem c : lower_byte (lower_byte c) = lower_byte c.
Proof.
  apply Ascii.eqb_eq.
  by apply (all_bytes_spec (λ c, Ascii.eqb (lower_byte (lower_byte c)) (lower_byte c))).
Qed.

Lemma lower_byte_fixed c d :
  is_lower d = false → lower_byte c = d → c = d.
Proof.
  pose proof (all_bytes_spec (λ c, Ascii.eqb (lower_byte c) c || is_lower (lower_byte c))
    ltac:(vm_compute; reflexivity) c) as H. simpl in H.
  intros Hd <-. rewrite Hd, orb_false_r in H. by apply Ascii.eqb_eq in H.
Qed.

Lemma ToLower_app s t : ToLower (s ++s t) = ToLower s ++s ToLower t.
Proof.
  unfold ToLower. induction s as [|c s IH]; [done|].
  rewrite app_cons. simpl. by rewrite IH, app_cons.
Qed.

Lemma ToLower_idem s : ToLower (ToLower s) = ToLower s.
Proof.
  unfold ToLower. induction s as [|c s IH]; simpl; [done|].
  by rewrite lower_byte_idem, IH.
Qed.

Lemma lower_upper_byte c : lower_byte (upper_byte c) = lower_byte c.
Proof.
  apply Ascii.eqb_eq.
  by apply (all_bytes_spec (λ c, Ascii.eqb (lower_byte (upper_byte c)) (lower_byte c))).
Qed.

Lemma ToLower_ToUpper s : ToLower (ToUpper s) = ToLower s.
Proof.
  unfold ToLower, ToUpper. induction s as [|c s IH]; simpl; [done|].
  by rewrite lower_upper_byte, IH.
Qed.

Lemma length_ToLower s : String.length (ToLower s) = String.length s.
Proof. unfold ToLower. induction s as [|c s IH]; simpl; [done|]. by rewrite IH. Qed.

Lemma ToLower_drop n s : ToLower (str_drop n s) = str_drop n (ToLower s).
Proof. revert s. induction n as [|n IH]; intros [|c s]; simpl; try done. Qed.

Lemma ToLower_dot s : ToLower s = "." ↔ s = ".".
Proof.
  split; [|by intros ->]. destruct s as [|c [|d s]]; simpl; [done| |done].
  intros [= H]. f_equal. by apply lower_byte_fixed in H.
Qed.

Lemma HasSuffix_ToLower_dot s : HasSuffix (ToLower s) "." = HasSuffix s ".".
Proof.
  unfold HasSuffix. rewrite length_ToLower. f_equal. rewrite <- ToLower_drop.
  apply eq_bool_prop_intro. rewrite !Is_true_true, !String.eqb_eq. apply ToLower_dot.
Qed.

Lemma ToLower_TrimSuffix_dot s : ToLower (TrimSuffix s ".") = TrimSuffix (ToLower s) ".".
Proof.
  destruct (TrimSuffix_cases s ".") as [(p & -> & ->)|[H ->]].
  - rewrite ToLower_app. change (ToLower ".") with ".". by rewrite TrimSuffix_app.
  - by rewrite TrimSuffix_id by (by rewrite HasSuffix_ToLower_dot).
Qed.

Lemma EqualFold_refl s : EqualFold s s = true.
Proof. apply String.eqb_refl. Qed.

Lemma EqualFold_spec s t : EqualFold s t = true ↔ ToLower s = ToLower t.
Proof. apply String.eqb_eq. Qed.
End Lower.

(** Splitting and joining. *)
Section Split.
Implicit Types (s t : string) (c sep : ascii) (l : list string).

Lemma Split_nonempty sep s : Split sep s ≠ [].
Proof. destruct s as [|c s]; simpl; [done|]. by repeat case_match. Qed.

Lemma str_contains_byte_app c s t :
  str_contains_byte c (s ++s t) = str_contains_byte c s || str_contains_byte c t.
Proof.
  induction s as [|d s IH]; [done|]. rewrite app_cons. simpl. by rewrite IH, orb_assoc.
Qed.

Lemma Split_app sep s t :
  str_contains_byte sep s = false →
  Split sep (s ++s String sep t) = s :: Split sep t.
Proof.
  induction s as [|c s IH].
  - intros _. rewrite app_empty_l. simpl. by rewrite Ascii.eqb_refl.
  - rewrite app_cons. simpl. intros [Hc Hs]%orb_false_iff.
    rewrite Ascii.eqb_sym, Hc. by rewrite IH.
Qed.

Lemma Split_single sep s : str_contains_byte sep s = false → Split sep s = [s].
Proof.
  induction s as [|c s IH]; simpl; [done|]. intros [Hc Hs]%orb_false_iff.
  rewrite Ascii.eqb_sym, Hc. by rewrite IH.
Qed.

Lemma Split_pieces sep s : Forall (λ w, str_contains_byte sep w = false) (Split sep s).
Proof.
  induction s as [|c s IH]; simpl; [by repeat constructor|].
  destruct (Ascii.eqb c sep) eqn:Hc; [by constructor|].
  destruct (Split sep s) as [|w ws]; inversion IH; subst;
    constructor; simpl; rewrite ?(Ascii.eqb_sym sep c), ?Hc; auto.
Qed.

Lemma Join_cons_ne (sp : string) s l : l ≠ [] → Join sp (s :: l) = s ++s sp ++s Join sp l.
Proof. by destruct l. Qed.

(** [strings.Join] undoes [strings.Split]. *)
Lemma Join_Split sep s : Join (String sep "") (Split sep s) = s.
Proof.
  induction s as [|c s IH]; [done|]. simpl.
  destruct (Ascii.eqb c sep) eqn:Hc.
  - apply Ascii.eqb_eq in Hc as ->.
    rewrite Join_cons_ne by apply Split_nonempty. by rewrite IH.
  - pose proof (Split_nonempty sep s). destruct (Split sep s) as [|w [|w' ws]]; [done| |].
    + simpl in *. by rewrite IH.
    + rewrite Join_cons_ne in * by done. by rewrite app_cons, IH.
Qed.

Lemma Cut_app sep s t :
  str_contains_byte sep s = false → Cut sep (s ++s String sep t) = Some (s, t).
Proof.
  induction s as [|c s IH].
  - intros _. rewrite app_empty_l. simpl. by rewrite Ascii.eqb_refl.
  - rewrite app_cons. simpl. intros [Hc Hs]%orb_false_iff.
    rewrite Ascii.eqb_sym, Hc. by rewrite IH.
Qed.

Lemma Cut_spec sep s a b :
  Cut sep s = Some (a, b) ↔ s = a ++s String sep b ∧ str_contains_byte sep a = false.
Proof.
  split; [|intros [-> ?]; by apply Cut_app].
  revert a. induction s as [|c s IH]; intros a; simpl; [done|].
  destruct (Ascii.eqb c sep) eqn:Hc.
  - apply Ascii.eqb_eq in Hc as ->. by intros [= <- <-].
  - destruct (Cut sep s) as [[a' b']|]; [|done]. intros [= <- <-].
    destruct (IH a' eq_refl) as [-> Ha]. split; [done|].
    simpl. by rewrite Ascii.eqb_sym, Hc.
Qed.

Lemma Cut_None sep s : Cut sep s = None ↔ str_contains_byte sep s = false.
Proof.
  induction s as [|c s IH]; simpl; [done|].
  rewrite (Ascii.eqb_sym sep). destruct (Ascii.eqb c sep); [done|].
  rewrite orb_false_l, <- IH. by destruct (Cut sep s) as [[]|].
Qed.
End Split.

(** Texts without white space, and trimming. *)
Definition plain (s : string) : Prop := str_forallb (λ c, negb (is_space c)) s = true.

#[export] Instance plain_dec s : Decision (plain s).
Proof. unfold plain. apply _. Defined.

Section Trim.
Implicit Types (s t : string) (c : ascii) (f : ascii → bool).

Lemma str_forallb_app f s t : str_forallb f (s ++s t) = str_forallb f s && str_forallb f t.
Proof.
  induction s as [|c s IH]; [done|]. rewrite app_cons. simpl. by rewrite IH, andb_assoc.
Qed.

(** A text of bytes of a class has none outside it. *)
Lemma forallb_excludes f c s : str_forallb f s = true → f c = false → str_contains_byte c s = false.
Proof.
  induction s as [|d s IH]; simpl; [done|]. intros [Hd Hs]%andb_true_iff Hc.
  rewrite IH by done. destruct (Ascii.eqb_spec c d) as [->|]; [by rewrite Hd in Hc|done].
Qed.

Lemma trim_left_plain s : plain s → trim_left is_space s = s.
Proof.
  destruct s as [|c s]; [done|]. unfold plain. simpl. intros [Hc _]%andb_true_iff.
  apply negb_true_iff in Hc. by rewrite Hc.
Qed.

Lemma trim_right_plain s : plain s → trim_right is_space s = s.
Proof.
  unfold plain. induction s as [|c s IH]; [done|]. simpl. intros [Hc Hs]%andb_true_iff.
  rewrite IH by done. apply negb_true_iff in Hc. rewrite Hc. by destruct s.
Qed.

Lemma TrimSpace_plain s : plain s → TrimSpace s = s.
Proof. intros Hs. unfold TrimSpace. by rewrite trim_left_plain, trim_right_plain. Qed.

Lemma plain_app s t : plain (s ++s t) ↔ plain s ∧ plain t.
Proof. unfold plain. by rewrite str_forallb_app, andb_true_iff. Qed.

Lemma trim_right_app f s c : f c = true → trim_right f (s ++s String c "") = trim_right f s.
Proof.
  intros Hc. induction s as [|d s IH]; simpl; [by rewrite Hc|]. by rewrite IH.
Qed.

Lemma trim_left_app f s c : f c = true → s ≠ "" →
  trim_left f (s ++s String c "") = trim_left f s ++s String c "" ∨
  (trim_left f s = "" ∧ trim_left f (s ++s String c "") = "").
Proof.
  intros Hc. induction s as [|d s IH]; [done|]. intros _. rewrite app_cons. simpl.
  destruct (f d) eqn:Ed; [|by left]. destruct s as [|e s]; [right; simpl; by rewrite Hc|].
  by apply IH.
Qed.

(** White space at the end does not matter. *)
Lemma TrimSpace_end s c : is_space c = true → TrimSpace (s ++s String c "") = TrimSpace s.
Proof.
  intros Hc. unfold TrimSpace. destruct (decide (s = "")) as [->|Hne]; [simpl; by rewrite Hc|].
  destruct (trim_left_app is_space s c Hc Hne) as [->|[-> ->]]; [by apply trim_right_app|done].
Qed.

Lemma Contains_app s t : Contains (s ++s t) t = true.
Proof.
  induction s as [|c s IH]; [|by rewrite app_cons; simpl; rewrite IH, orb_true_r].
  rewrite app_empty_l. destruct t as [|c t]; [done|]. apply orb_true_iff. left.
  rewrite <- (app_empty_r (String c t)) at 1. apply HasPrefix_app.
Qed.

Lemma Contains_prefix s t : HasPrefix s t = true → Contains s t = true.
Proof. intros Hp. destruct s; cbn [Contains]; by rewrite Hp. Qed.

Lemma Contains_middle s t p : Contains (s ++s t ++s p) t = true.
Proof.
  induction s as [|c s IH]; [|by rewrite app_cons; simpl; rewrite IH, orb_true_r].
  apply Contains_prefix. rewrite app_empty_l. apply HasPrefix_app.
Qed.

Lemma Contains_spec s t : Contains s t = true ↔ ∃ a b, s = a ++s t ++s b.
Proof.
  split; [|intros (a & b & ->); apply Contains_middle].
  induction s as [|c s IH]; cbn [Contains]; intros [Hp|Hs]%orb_true_iff.
  - apply HasPrefix_spec in Hp as [b ->]. by exists "", b.
  - done.
  - apply HasPrefix_spec in Hp as [b ->]. by exists "", b.
  - destruct (IH Hs) as (a & b & ->). by exists (String c a), b.
Qed.

Lemma Contains_trans s t p : Contains s t = true → Contains t p = true → Contains s p = true.
Proof.
  intros (a & b & ->)%Contains_spec (a' & b' & ->)%Contains_spec. apply Contains_spec.
  exists (a ++s a'), (b' ++s b). by rewrite !app_assoc_s.
Qed.

Lemma trim_left_sub f s : ∃ a, s = a ++s trim_left f s.
Proof.
  induction s as [|c s [a Ha]]; [by exists ""|]. simpl. destruct (f c); [|by exists ""].
  exists (String c a). by rewrite app_cons, <- Ha.
Qed.

Lemma trim_right_sub f s : ∃ b, s = trim_right f s ++s b.
Proof.
  induction s as [|c s [b Hb]]; [by exists ""|]. simpl.
  destruct (trim_right f s) as [|d t].
  - destruct (f c); [by exists (String c s)|]. exists b. simpl. by rewrite Hb at 1.
  - exists b. by rewrite app_cons, <- Hb.
Qed.

Lemma Contains_TrimSpace s : Contains s (TrimSpace s) = true.
Proof.
  apply Contains_spec. unfold TrimSpace. destruct (trim_left_sub is_space s) as [a Ha].
  destruct (trim_right_sub is_space (trim_left is_space s)) as [b Hb].
  exists a, b. by rewrite <- Hb, <- Ha.
Qed.

Lemma Contains_Join sp x l : x ∈ l → Contains (Join sp l) x = true.
Proof.
  intros Hx. apply Contains_spec. induction l as [|y l IH]; [by apply not_elem_of_nil in Hx|].
  destruct l as [|z l].
  - apply list_elem_of_singleton in Hx as ->. exists "", "". simpl. by rewrite app_empty_r.
  - rewrite Join_cons_ne by done. apply elem_of_cons in Hx as [->|Hx].
    + by exists "", (sp ++s Join sp (z :: l)).
    + destruct (IH Hx) as (a & b & ->). exists (y ++s sp ++s a), b. by rewrite !app_assoc_s.
Qed.
End Trim.

(** ** The digits of a number *)

Lemma pretty_N_go_digits x s :
  str_forallb is_digit s = true → str_forallb is_digit (pretty_N_go x s) = true.
Proof.
  revert s. induction (N.lt_wf_0 x) as [x _ IH]. intros s Hs.
  destruct (decide (x = 0)%N) as [->|]; [done|]. rewrite pretty_N_go_step by lia.
  apply IH; [apply N.div_lt; lia|]. simpl. rewrite Hs, andb_true_r.
  unfold pretty_N_char. by repeat case_match.
Qed.

Lemma itoa_nat_digits (i : nat) : str_forallb is_digit (itoa (Z.of_nat i)) = true.
Proof.
  destruct i as [|i]; [done|].
  change (itoa (Z.of_nat (S i))) with (pretty_N_go (N.pos (Pos.of_succ_nat i)) "").
  by apply pretty_N_go_digits.
Qed.

Lemma itoa_bytes z : str_forallb (λ c, is_digit c || Ascii.eqb c "-") (itoa z) = true.
Proof.
  assert (∀ s, str_forallb is_digit s = true →
    str_forallb (λ c, is_digit c || Ascii.eqb c "-") s = true) as Hd.
  { intros s. induction s as [|c s IH]; [done|]. simpl.
    intros [Hc Hs]%andb_true_iff. by rewrite Hc, IH. }
  destruct z as [|p|p]; [done|..]; unfold itoa.
  - apply Hd. by apply (pretty_N_go_digits (N.pos p) "").
  - change (pretty (Z.neg p)) with ("-" ++s pretty_N_go (N.pos p) "").
    rewrite str_forallb_app, (Hd _ (pretty_N_go_digits (N.pos p) "" eq_refl)). done.
Qed.

(** A byte that is not in a text is not in a part of it. *)
Lemma Contains_byte c s t :
  Contains s t = true → str_contains_byte c t = true → str_contains_byte c s = true.
Proof.
  intros (a & b & ->)%Contains_spec Ht. by rewrite !str_contains_byte_app, Ht, orb_true_r.
Qed.

Lemma not_contains_byte f c s :
  str_forallb f s = true → f c = false → str_contains_byte c s = false.
Proof.
  induction s as [|d s IH]; [done|]. simpl. intros [Hd Hs]%andb_true_iff Hc.
  rewrite IH by done. destruct (Ascii.eqb_spec c d) as [->|]; [congruence|done].
Qed.

(** Reading a number that was written. *)
Lemma digits_val_pretty x s : digits_val 0 (pretty_N_go x s) = digits_val (Z.of_N x) s.
Proof.
  revert s. induction (N.lt_wf_0 x) as [x _ IH]. intros s.
  destruct (decide (x = 0)%N) as [->|Hx]; [done|].
  rewrite pretty_N_go_step, IH by (try apply N.div_lt; lia). cbn [digits_val].
  assert (∀ d, (d < 10)%N → is_digit (pretty_N_char d) = true ∧ digit_val (pretty_N_char d) = Z.of_N d) as Hd.
  { intros d Hd. assert (∃ n, d = N.of_nat n ∧ n < 10) as (n & -> & Hn)
      by (exists (N.to_nat d); split; lia).
    do 10 (destruct n as [|n]; [done|]). lia. }
  destruct (Hd (x `mod` 10)%N) as [-> ->]; [apply N.mod_lt; lia|]. f_equal.
  rewrite N2Z.inj_div, N2Z.inj_mod. pose proof (Z_div_mod_eq_full (Z.of_N x) 10). lia.
Qed.

Lemma itoa_nonempty z : itoa z ≠ "".
Proof.
  destruct z as [|p|p]; [done| |done]. unfold itoa. change (pretty (Z.pos p)) with (pretty_N_go (N.pos p) "").
  intros E. pose proof (digits_val_pretty (N.pos p) "") as H. rewrite E in H. done.
Qed.

Lemma digits_val_itoa z : (0 ≤ z)%Z → digits_val 0 (itoa z) = Some z.
Proof.
  intros Hz. destruct z as [|p|p]; [done| |lia]. unfold itoa.
  change (pretty (Z.pos p)) with (pretty_N_go (N.pos p) ""). by rewrite digits_val_pretty.
Qed.

Lemma itoa_head z : (0 ≤ z)%Z → ∃ c s, itoa z = String c s ∧ is_digit c = true.
Proof.
  intros Hz. pose proof (digits_val_itoa z Hz) as H. pose proof (itoa_nonempty z) as Hne.
  destruct (itoa z) as [|c s]; [done|]. exists c, s. split; [done|]. cbn in H.
  by destruct (is_digit c).
Qed.

Lemma Atoi_itoa z : (0 ≤ z < 2 ^ 63)%Z → Atoi (itoa z) = Some z.
Proof.
  intros Hz. pose proof (digits_val_itoa z ltac:(lia)) as H.
  destruct (itoa_head z ltac:(lia)) as (c & s & E & Hc). rewrite E in *. unfold Atoi. rewrite H.
  replace (1 * z)%Z with z by lia.
  assert (((- 2 ^ 63 <=? z) && (z <? 2 ^ 63))%Z = true) as -> by (apply andb_true_iff; lia).
  destruct c as [[] [] [] [] [] [] [] []]; done.
Qed.

Lemma ParseUint_itoa bits z : (0 ≤ z < 2 ^ bits)%Z → ParseUint bits (itoa z) = Some z.
Proof.
  intros Hz. pose proof (digits_val_itoa z ltac:(lia)) as H.
  destruct (itoa_head z ltac:(lia)) as (c & s & E & Hc). rewrite E in *. unfold ParseUint. rewrite H.
  assert ((z <? 2 ^ bits)%Z = true) as -> by lia. done.
Qed.

Lemma itoa_plain z : plain (itoa z).
Proof.
  pose proof (itoa_bytes z) as H. unfold plain. revert H. generalize (itoa z) as s.
  induction s as [|c s IH]; [done|]. simpl. intros [Hc Hs]%andb_true_iff. rewrite IH, andb_true_r by done.
  pose proof (all_bytes_spec (λ c, implb (is_digit c || Ascii.eqb c "-") (negb (is_space c)))
    ltac:(vm_compute; reflexivity) c) as H. cbv beta in H. by rewrite Hc in H.
Qed.

Lemma digits_val_nonneg acc s v : (0 ≤ acc)%Z → digits_val acc s = Some v → (0 ≤ v)%Z.
Proof.
  revert acc. induction s as [|c s IH]; intros acc Ha; cbn [digits_val]; [by intros [= <-]|].
  destruct (is_digit c) eqn:Hc; [|done]. apply IH.
  unfold is_digit, byte_in in Hc. unfold digit_val. apply andb_true_iff in Hc as [Hc _].
  apply N.leb_le in Hc. change (N_of_ascii "0") with 48%N in Hc. lia.
Qed.

Lemma ParseUint_bounds bits s v : ParseUint bits s = Some v → (0 ≤ v < 2 ^ bits)%Z.
Proof.
  unfold ParseUint. destruct s as [|c s]; [done|]. destruct (digits_val 0 _) as [d|] eqn:E; [|done].
  destruct (Z.ltb_spec d (2 ^ bits)); [|done]. intros [= <-]. apply digits_val_nonneg in E; lia.
Qed.

Lemma Atoi_bounds s v : Atoi s = Some v → (- 2 ^ 63 ≤ v < 2 ^ 63)%Z.
Proof.
  assert (∀ sign t, match t with
    | EmptyString => None
    | _ => match digits_val 0 t with
           | Some v => let r := (sign * v)%Z in
                       if (- 2 ^ 63 <=? r)%Z && (r <? 2 ^ 63)%Z then Some r else None
           | None => None
           end
    end = Some v → (- 2 ^ 63 ≤ v < 2 ^ 63)%Z) as Hnum.
  { intros sign [|c t]; [done|]. destruct (digits_val 0 _); [|done]. cbv zeta.
    destruct (_ && _) eqn:E; [|done]. intros [= <-]. apply andb_true_iff in E. lia. }
  unfold Atoi. destruct s as [|[[] [] [] [] [] [] [] []] s]; try done;
    first [apply (Hnum 1%Z (String _ s))|apply (Hnum 1%Z s)|apply (Hnum (-1)%Z s)].
Qed.
