(* ===== verification/GoTime.v ===== *)
(** * Durations

    [time.Duration] and [time.ParseDuration] of Go's standard library: a
    duration is a number of nanoseconds in 64 bits; fractions go through
    float64. *)
From S2P Require Import Prelude GoStrings.
From Stdlib Require Import ZArith Floats.SpecFloat.

(** [time.Now()], a matter of the world. *)
Class Clock (W : Type) := now : W → Z * W.

Definition time_Second : Z := 1000000000.
Definition time_Minute : Z := 60 * time_Second.

(** [float64(d)] and [f * g] *)
Definition float64_of (d : Z) : spec_float := binary_normalize 53 1024 d 0 false.
Definition float64_mul (f g : spec_float) : spec_float := SFmul 53 1024 f g.
Definition float64_div (f g : spec_float) : spec_float := SFdiv 53 1024 f g.

(** ** time.ParseDuration *)

Fixpoint leadingInt (x : Z) (s : string) : option (Z * string) :=
  match s with
  | EmptyString => Some (x, s)
  | String c t =>
      if is_digit c then
        if (2 ^ 63 / 10 <? x)%Z then None
        else
          let x := (x * 10 + digit_val c)%Z in
          if (2 ^ 63 <? x)%Z then None else leadingInt x t
      else Some (x, s)
  end.

(** The digits after the point and the power of ten they are over; digits that
    do not fit are skipped.  At most nineteen digits fit, so the power of ten
    is exact as a float64. *)
Fixpoint leadingFraction (x scale : Z) (overflow : bool) (s : string) : Z * Z * string :=
  match s with
  | EmptyString => (x, scale, s)
  | String c t =>
      if is_digit c then
        if overflow then leadingFraction x scale true t
        else if ((2 ^ 63 - 1) / 10 <? x)%Z then leadingFraction x scale true t
        else
          let y := (x * 10 + digit_val c)%Z in
          if (2 ^ 63 <? y)%Z then leadingFraction x scale true t
          else leadingFraction y (scale * 10) false t
      else (x, scale, s)
  end.

Definition unitMap (u : string) : option Z :=
  if u == "ns" then Some 1%Z
  else if (u == "us") || (u == "µs") || (u == "μs") then Some 1000%Z
  else if u == "ms" then Some 1000000%Z
  else if u == "s" then Some time_Second
  else if u == "m" then Some time_Minute
  else if u == "h" then Some (60 * time_Minute)%Z
  else None.

Definition is_numeric (c : ascii) : bool := Ascii.eqb c "." || is_digit c.

(** A text up to its first byte that satisfies [f], and the rest. *)
Fixpoint span_until (f : ascii → bool) (s : string) : string * string :=
  match s with
  | EmptyString => (s, s)
  | String c t => if f c then ("", s) else let '(a, b) := span_until f t in (String c a, b)
  end.

(** [uint64(float64(f) * (float64(unit) / scale))], of values in range *)
Definition fraction (f unit scale : Z) : Z :=
  match float64_mul (float64_of f) (float64_div (float64_of unit) (float64_of scale)) with
  | S754_finite _ m e => if (0 <=? e)%Z then (Zpos m * 2 ^ e)%Z else (Zpos m / 2 ^ (- e))%Z
  | _ => 0%Z
  end.

(** One number with its unit: the nanoseconds, and what is left of the text. *)
Definition duration_step (s : string) : option (Z * string) :=
  match s with
  | EmptyString => None
  | String c _ =>
      if negb (is_numeric c) then None
      else
        match leadingInt 0 s with
        | None => None
        | Some (v, s1) =>
            let pre := negb (String.length s =? String.length s1)%nat in
            let '(f, scale, s2, post) :=
              match s1 with
              | String "." t =>
                  let '(f, scale, s2) := leadingFraction 0 1 false t in
                  (f, scale, s2, negb (String.length t =? String.length s2)%nat)
              | _ => (0%Z, 1%Z, s1, false)
              end in
            if negb pre && negb post then None
            else
              let '(u, s3) := span_until is_numeric s2 in
              if u == "" then None
              else
                match unitMap u with
                | None => None
                | Some unit =>
                    if (2 ^ 63 / unit <? v)%Z then None
                    else
                      let v := (v * unit)%Z in
                      let v := if (0 <? f)%Z then (v + fraction f unit scale)%Z else v in
                      if (2 ^ 63 <? v)%Z then None else Some (v, s3)
                end
        end
  end.

(** The sum is a uint64. *)
Fixpoint duration_loop (fuel : nat) (d : Z) (s : string) : option Z :=
  if s == "" then Some d
  else
    match fuel with
    | O => None
    | S fuel =>
        match duration_step s with
        | None => None
        | Some (v, s) =>
            let d := ((d + v) mod 2 ^ 64)%Z in
            if (2 ^ 63 <? d)%Z then None else duration_loop fuel d s
        end
    end.

(** [None] is the error.  Each step of the loop reads at least one byte. *)
Definition ParseDuration (s : string) : option Z :=
  let '(neg, s) := match s with
                   | String "-" t => (true, t)
                   | String "+" t => (false, t)
                   | _ => (false, s)
                   end in
  if s == "0" then Some 0%Z
  else if s == "" then None
  else
    match duration_loop (String.length s) 0 s with
    | None => None
    | Some d =>
        if neg then Some (- d)%Z
        else if (2 ^ 63 - 1 <? d)%Z then None else Some d
    end.

(** ** Properties *)

Lemma span_until_app f s c t :
  str_forallb (λ c, negb (f c)) s = true → f c = true →
  span_until f (s ++s String c t) = (s, String c t).
Proof.
  intros Hs Hc. induction s as [|d s IH]; simpl in *; [by rewrite Hc|].
  apply andb_true_iff in Hs as [Hd Hs]. apply negb_true_iff in Hd. by rewrite Hd, IH.
Qed.

Lemma span_until_all f s :
  str_forallb (λ c, negb (f c)) s = true → span_until f s = (s, "").
Proof.
  induction s as [|d s IH]; simpl; [done|]. intros [Hd Hs]%andb_true_iff.
  apply negb_true_iff in Hd. by rewrite Hd, IH.
Qed.

(** A duration fits in 64 bits. *)
Lemma duration_loop_bounds fuel d s r :
  (0 ≤ d ≤ 2 ^ 63)%Z → duration_loop fuel d s = Some r → (0 ≤ r ≤ 2 ^ 63)%Z.
Proof.
  revert d s. induction fuel as [|fuel IH]; simpl; intros d s Hd; case_match; try done;
    [by intros [= <-]..|].
  repeat case_match; try done. apply IH.
  match goal with H : (_ <? _)%Z = false |- _ => apply Z.ltb_ge in H end.
  pose proof (Z.mod_pos_bound (d + z) (2 ^ 64) ltac:(done)). lia.
Qed.

Lemma ParseDuration_bounds s d : ParseDuration s = Some d → (- 2 ^ 63 ≤ d < 2 ^ 63)%Z.
Proof.
  unfold ParseDuration.
  set (p := match s with String "-" t => (true, t) | String "+" t => (false, t) | _ => (false, s) end).
  clearbody p. destruct p as [neg t].
  destruct (t == "0"); [intros [= <-]; lia|]. destruct (t == ""); [done|].
  destruct (duration_loop _ 0 t) as [r|] eqn:E; [|done].
  apply duration_loop_bounds in E; [|lia].
  destruct neg; [intros [= <-]; lia|].
  destruct (2 ^ 63 - 1 <? r)%Z eqn:E2; [done|]. intros [= <-]. apply Z.ltb_ge in E2. lia.
Qed.

Lemma leadingInt_digits s x v c t :
  (0 ≤ x)%Z → digits_val x s = Some v → (v ≤ 2 ^ 63)%Z → is_digit c = false →
  leadingInt x (s ++s String c t) = Some (v, String c t).
Proof.
  intros Hx Hs Hv Hc. revert x Hx Hs. induction s as [|d s IH]; simpl; intros x Hx Hs.
  - simplify_eq. by rewrite Hc.
  - destruct (is_digit d) eqn:Ed; [|done].
    assert (0 ≤ digit_val d)%Z as Hd.
    { unfold is_digit, byte_in in Ed. unfold digit_val. apply andb_true_iff in Ed as [E _].
      apply N.leb_le in E. change (N_of_ascii "0") with 48%N in E. lia. }
    assert (x * 10 + digit_val d ≤ v)%Z as Hle.
    { clear -Hs Hx Hd. remember (x * 10 + digit_val d)%Z as y eqn:Ey.
      assert (0 ≤ y)%Z as Hy by lia. clear Ey Hx Hd. revert y Hs Hy.
      induction s as [|e s IH]; simpl; intros y Hs Hy; [by simplify_eq|].
      destruct (is_digit e) eqn:Ee; [|done].
      assert (0 ≤ digit_val e)%Z.
      { unfold is_digit, byte_in in Ee. unfold digit_val. apply andb_true_iff in Ee as [E _].
        apply N.leb_le in E. change (N_of_ascii "0") with 48%N in E. lia. }
      specialize (IH _ Hs). lia. }
    rewrite (proj2 (Z.ltb_ge _ _)) by (apply Z.div_le_lower_bound; lia).
    rewrite (proj2 (Z.ltb_ge _ _)) by lia. apply IH; [lia|done].
Qed.

(** A whole number of seconds, minutes or hours is read exactly. *)
Lemma ParseDuration_unit n u unit :
  (0 ≤ n)%Z → In (u, unit) [("s", time_Second); ("m", time_Minute); ("h", (60 * time_Minute)%Z)] →
  (n * unit < 2 ^ 63)%Z → ParseDuration (itoa n ++s u) = Some (n * unit)%Z.
Proof.
  intros Hn Hu Hb.
  assert (∃ c, u = String c "" ∧ is_numeric c = false ∧ is_digit c = false
    ∧ unitMap u = Some unit ∧ (0 < unit)%Z) as (c & -> & Hc & Hd & Hm & Hp).
  { destruct Hu as [[= <- <-]|[[= <- <-]|[[= <- <-]|[]]]]; eexists; repeat split; done. }
  clear Hu. unfold ParseDuration.
  destruct (itoa_head n Hn) as (d & s & Es & Ed).
  assert (n ≤ 2 ^ 63)%Z as Hn63 by nia.
  assert (match itoa n ++s String c "" with
          | String "-" t => (true, t) | String "+" t => (false, t) | _ => (false, itoa n ++s String c "")
          end = (false, itoa n ++s String c "")) as ->.
  { rewrite Es. simpl. destruct d as [[] [] [] [] [] [] [] []]; try done; by vm_compute in Ed. }
  assert (((itoa n ++s String c "") == "0") = false) as ->.
  { rewrite Es. apply String.eqb_neq. simpl. intros [= -> E]. destruct s; done. }
  assert (((itoa n ++s String c "") == "") = false) as -> by (by rewrite Es).
  assert (duration_step (itoa n ++s String c "") = Some ((n * unit)%Z, "")) as Estep.
  { pose proof (leadingInt_digits (itoa n) 0 n c "" ltac:(done) (digits_val_itoa n Hn) Hn63 Hd) as El.
    assert (is_numeric d = true) as Ednum by (unfold is_numeric; by rewrite Ed, orb_true_r).
    unfold duration_step. rewrite Es in *.
    change (String d s ++s String c "") with (String d (s ++s String c "")) in *.
    cbv beta iota. rewrite Ednum. cbn [negb]. rewrite El.
    replace (String.length (String d (s ++s String c "")) =? String.length (String c ""))%nat with false.
    2: { symmetry. apply Nat.eqb_neq. simpl. rewrite GoStrings.length_app_s. simpl. lia. }
    assert (match String c "" with
            | String "." t => let '(f, scale, s2) := leadingFraction 0 1 false t in
                (f, scale, s2, negb (String.length t =? String.length s2)%nat)
            | _ => (0%Z, 1%Z, String c "", false) end = (0%Z, 1%Z, String c "", false)) as ->.
    { destruct c as [[] [] [] [] [] [] [] []]; try done; by vm_compute in Hc. }
    cbn [negb andb]. cbn [span_until]. rewrite Hc. cbn iota beta. rewrite Hm.
    rewrite (proj2 (Z.ltb_ge _ _)) by (apply Z.div_le_lower_bound; lia).
    rewrite (proj2 (Z.ltb_ge _ 0)) by lia. rewrite (proj2 (Z.ltb_ge _ _)) by lia. done. }
  assert (∃ k, String.length (itoa n ++s String c "") = S k) as [k ->] by (rewrite Es; by eexists).
  cbn [duration_loop]. replace ((itoa n ++s String c "") == "") with false by (by rewrite Es).
  rewrite Estep. rewrite Z.add_0_l, Z.mod_small by lia.
  rewrite (proj2 (Z.ltb_ge _ _)) by lia.
  replace (duration_loop k (n * unit) "") with (Some (n * unit)%Z) by (by destruct k).
  by rewrite (proj2 (Z.ltb_ge _ _)) by lia.
Qed.

Example durations :
  map ParseDuration ["90s"; "1h30m"; "1.5s"; ".5m"; "-2ms"; "0"; "1"; "s"; "1d"; "9223372036854775808ns";
    "9223372036854775808ns9223372036854775808ns"]
  = [Some 90000000000; Some 5400000000000; Some 1500000000; Some 30000000000; Some (-2000000);
     Some 0; None; None; None; None; Some 0]%Z.
Proof. vm_compute. reflexivity. Qed.
