(* ===== verification/Errors.v ===== *)
(** * Errors (pkg/provider/errors.go)

    Go's [error] values as data: the sentinel variables are constructors (two
    [errors.New] values are never equal, even with the same text), wrapping
    with [%w] keeps the wrapped error, [errors.Is] walks the [Unwrap] chain. *)
From S2P Require Import Prelude GoStrings.

(** The sentinel variables of pkg/provider/errors.go. *)
Inductive Sentinel :=
| ErrNotFound
| ErrConflict
| ErrTypeConflict
| ErrUnauthorized
| ErrProviderUnavailable.

#[export] Instance Sentinel_eq_dec : EqDecision Sentinel.
Proof. solve_decision. Defined.

Definition sentinel_text (e : Sentinel) : string :=
  match e with
  | ErrNotFound => "record not found"
  | ErrConflict => "record already exists"
  | ErrTypeConflict => "record type conflict"
  | ErrUnauthorized => "unauthorized"
  | ErrProviderUnavailable => "provider unavailable"
  end.

Inductive error :=
(** one of the sentinels *)
| ESentinel (e : Sentinel)
(** [errors.New] and [fmt.Errorf] without [%w] *)
| ENew (msg : string)
(** [fmt.Errorf] with one [%w] at the end of the format *)
| EWrapf (prefix : string) (err : error)
(** [fmt.Errorf] with one [%w] at the start of the format *)
| ESuffix (err : error) (suffix : string)
(** [fmt.Errorf("%w: %w", ..)] *)
| EBoth (err1 err2 : error)
(** [&ConfigError{..}] *)
| EConfigError (field value message : string)
(** [&ProviderError{..}] *)
| EProviderError (provider operation : string) (err : error).

(** The [Error] methods. *)
Fixpoint Error (e : error) : string :=
  match e with
  | ESentinel s => sentinel_text s
  | ENew msg => msg
  | EWrapf prefix err => prefix ++s Error err
  | ESuffix err suffix => Error err ++s suffix
  | EBoth err1 err2 => Error err1 ++s ": " ++s Error err2
  | EConfigError field value message =>
      if value != "" then
        "configuration error: " ++s field ++s "=" ++s Quote value ++s ": " ++s message
      else "configuration error: " ++s field ++s ": " ++s message
  | EProviderError provider operation err =>
      "provider " ++s provider ++s ": " ++s operation ++s ": " ++s Error err
  end.

(** The [Unwrap] methods: [None] where the method is missing, returns nil, or
    returns several errors. *)
Definition Unwrap (e : error) : option error :=
  match e with
  | EWrapf _ err | ESuffix err _ | EProviderError _ _ err => Some err
  | _ => None
  end.

(** [errors.Is(err, target)] for a sentinel target. *)
Fixpoint errors_Is (e : error) (target : Sentinel) : bool :=
  match e with
  | ESentinel s => bool_decide (s = target)
  | EWrapf _ err | ESuffix err _ | EProviderError _ _ err => errors_Is err target
  | EBoth err1 err2 => errors_Is err1 target || errors_Is err2 target
  | _ => false
  end.

Definition ErrConfigMissing (field : string) : error :=
  EConfigError field "" "required but not set".

Definition ErrConfigInvalid (field value message : string) : error :=
  EConfigError field value message.

Definition WrapError (provider operation : string) (err : option error) : option error :=
  match err with
  | None => None
  | Some err => Some (EProviderError provider operation err)
  end.

Definition IsNotFound (err : error) : bool := errors_Is err ErrNotFound.
Definition IsConflict (err : error) : bool := errors_Is err ErrConflict.
Definition IsTypeConflict (err : error) : bool := errors_Is err ErrTypeConflict.
Definition IsUnauthorized (err : error) : bool := errors_Is err ErrUnauthorized.
Definition IsProviderUnavailable (err : error) : bool := errors_Is err ErrProviderUnavailable.

(** ** Properties *)

(** The tree of an error: the error and what it wraps. *)
Inductive chain : error → error → Prop :=
| chain_here e : chain e e
| chain_unwrap e e' t : Unwrap e = Some e' → chain e' t → chain e t
| chain_first e1 e2 t : chain e1 t → chain (EBoth e1 e2) t
| chain_second e1 e2 t : chain e2 t → chain (EBoth e1 e2) t.
#[export] Hint Constructors chain : go.

(** [errors.Is] finds exactly the sentinels of the tree. *)
Lemma errors_Is_chain e t : errors_Is e t = true ↔ chain e (ESentinel t).
Proof.
  split.
  - induction e; simpl; intros H; try done; try (eapply chain_unwrap; [done|by auto]).
    + apply bool_decide_eq_true in H as ->. apply chain_here.
    + apply orb_true_iff in H as [?|?]; [apply chain_first|apply chain_second]; auto.
  - intros H. remember (ESentinel t) as x eqn:Hx.
    induction H as [e|e e' x Hu _ IH|e1 e2 x _ IH|e1 e2 x _ IH]; subst; simpl.
    + by apply bool_decide_eq_true.
    + destruct e; simplify_eq/=; auto.
    + by rewrite IH.
    + rewrite IH by done. apply orb_true_r.
Qed.

(** Whether each error of the tree wraps one error at most. *)
Fixpoint single (e : error) : bool :=
  match e with
  | EBoth _ _ => false
  | EWrapf _ e | ESuffix e _ | EProviderError _ _ e => single e
  | _ => true
  end.

(** Such an error is at most one of the sentinels. *)
Lemma errors_Is_unique e t u :
  single e = true → errors_Is e t = true → errors_Is e u = true → t = u.
Proof.
  induction e; simpl; try done; auto.
  intros _ ?%bool_decide_eq_true ?%bool_decide_eq_true. congruence.
Qed.
