(* ===== verification/Regex.v ===== *)
(** * Regular expressions

    The part of the regular-expression language the program's constant
    patterns use, with its language as an inductive relation and a matcher by
    derivatives: [regexp.MatchString] of an anchored pattern [^re$]. *)
From S2P Require Import Prelude GoStrings.

Inductive re :=
| RNone
| REps
| RByte (f : ascii → bool)
| RSeq (r1 r2 : re)
| RAlt (r1 r2 : re)
| RStar (r : re).

Definition RChar (c : ascii) : re := RByte (Ascii.eqb c).
(** [(r)?] and [r+] *)
Definition ROpt (r : re) : re := RAlt REps r.
Definition RPlus (r : re) : re := RSeq r (RStar r).

Inductive matches : re → string → Prop :=
| m_eps : matches REps ""
| m_byte f c : f c = true → matches (RByte f) (String c "")
| m_seq r1 r2 s t : matches r1 s → matches r2 t → matches (RSeq r1 r2) (s ++s t)
| m_alt_l r1 r2 s : matches r1 s → matches (RAlt r1 r2) s
| m_alt_r r1 r2 s : matches r2 s → matches (RAlt r1 r2) s
| m_star_nil r : matches (RStar r) ""
| m_star_app r s t : matches r s → matches (RStar r) t → matches (RStar r) (s ++s t).
#[export] Hint Constructors matches : go.

Fixpoint nullable (r : re) : bool :=
  match r with
  | RNone | RByte _ => false
  | REps | RStar _ => true
  | RSeq r1 r2 => nullable r1 && nullable r2
  | RAlt r1 r2 => nullable r1 || nullable r2
  end.

Fixpoint deriv (c : ascii) (r : re) : re :=
  match r with
  | RNone | REps => RNone
  | RByte f => if f c then REps else RNone
  | RSeq r1 r2 =>
      let d := RSeq (deriv c r1) r2 in
      if nullable r1 then RAlt d (deriv c r2) else d
  | RAlt r1 r2 => RAlt (deriv c r1) (deriv c r2)
  | RStar r => RSeq (deriv c r) (RStar r)
  end.

(** [re.MatchString(s)] for the pattern [^r$]. *)
Fixpoint full_match (r : re) (s : string) : bool :=
  match s with
  | EmptyString => nullable r
  | String c s => full_match (deriv c r) s
  end.

(** ** The matcher decides the language *)

Lemma app_nil_inv s t : s ++s t = "" → s = "" ∧ t = "".
Proof. by destruct s. Qed.

Lemma nullable_spec r : nullable r = true ↔ matches r "".
Proof.
  split.
  - induction r; simpl; intros H; try done; auto with go.
    + bool_to_prop. apply (m_seq r1 r2 "" ""); auto.
    + apply orb_true_iff in H as [H|H]; auto with go.
  - intros H. remember "" as s eqn:Hs.
    induction H; simplify_eq/=; try done.
    + apply app_nil_inv in Hs as [-> ->]. rewrite IHmatches1, IHmatches2; done.
    + by rewrite IHmatches.
    + rewrite IHmatches by done. apply orb_true_r.
Qed.

Lemma star_cons_inv r s :
  matches (RStar r) s → ∀ c s', s = String c s' →
  ∃ a b, s' = a ++s b ∧ matches r (String c a) ∧ matches (RStar r) b.
Proof.
  intros H. remember (RStar r) as q eqn:Hq.
  induction H as [| | | | | |r' s t Hs _ Ht IH]; simplify_eq; [done|].
  intros c s' E. destruct s as [|d s]; [by apply IH|].
  rewrite app_cons in E. injection E as -> <-. by exists s, t.
Qed.

Lemma deriv_spec c r s : matches (deriv c r) s ↔ matches r (String c s).
Proof.
  revert s. induction r as [| |f|r1 IH1 r2 IH2|r1 IH1 r2 IH2|r IH]; intros s; simpl.
  - split; intros H; inversion H.
  - split; intros H; inversion H.
  - destruct (f c) eqn:Hf; split; intros H.
    + inv H. by constructor.
    + inv H. constructor.
    + inversion H.
    + inv H. congruence.
  - assert (matches (RSeq (deriv c r1) r2) s ↔
      ∃ a b, s = a ++s b ∧ matches r1 (String c a) ∧ matches r2 b) as Hd.
    { split.
      - intros H. inv H. eexists _, _. split_and!; [done|by apply IH1|done].
      - intros (a & b & -> & Ha & Hb). constructor; [by apply IH1|done]. }
    assert (matches (RSeq r1 r2) (String c s) ↔
      (∃ a b, s = a ++s b ∧ matches r1 (String c a) ∧ matches r2 b) ∨
      (matches r1 "" ∧ matches r2 (String c s))) as Hs.
    { split.
      - intros H. inversion H as [| |? ? a b Ha Hb Heq E| | | |]. subst.
        destruct a as [|d a]; [right; by rewrite app_empty_l in E; subst|].
        rewrite app_cons in E. injection E as -> <-. left. eauto.
      - intros [(a & b & -> & Ha & Hb)|[Ha Hb]].
        + rewrite <- app_cons. by constructor.
        + by apply (m_seq r1 r2 ""). }
    rewrite Hs. destruct (nullable r1) eqn:Hn.
    + split; [intros H; inv H|intros [H|[_ H]]].
      * left. by apply Hd.
      * right. split; [by apply nullable_spec|by apply IH2].
      * apply m_alt_l. by apply Hd.
      * apply m_alt_r. by apply IH2.
    + rewrite Hd. split; [by left|]. intros [?|[?%nullable_spec _]]; [done|congruence].
  - split; intros H; inv H; try (by apply m_alt_l, IH1); by apply m_alt_r, IH2.
  - split; intros H.
    + inversion H as [| |? ? a b Ha Hb| | | |]; subst.
      rewrite <- app_cons. constructor; [by apply IH|done].
    + eapply star_cons_inv in H as (a & b & -> & Ha & Hb); [|done].
      constructor; [by apply IH|done].
Qed.

Theorem full_match_spec r s : full_match r s = true ↔ matches r s.
Proof.
  revert r. induction s as [|c s IH]; intros r; simpl.
  - apply nullable_spec.
  - rewrite IH. apply deriv_spec.
Qed.

(** ** Inversion lemmas for the derived forms *)

Lemma matches_byte_inv f s : matches (RByte f) s ↔ ∃ c, s = String c "" ∧ f c = true.
Proof.
  split; [intros H; inv H; eauto|]. intros (c & -> & H). by constructor.
Qed.

Lemma matches_seq_inv r1 r2 s :
  matches (RSeq r1 r2) s ↔ ∃ a b, s = a ++s b ∧ matches r1 a ∧ matches r2 b.
Proof.
  split; [intros H; inv H; eauto|]. intros (a & b & -> & ? & ?). by constructor.
Qed.

Lemma matches_star_byte f s : matches (RStar (RByte f)) s ↔ str_forallb f s = true.
Proof.
  split.
  - intros H. remember (RStar (RByte f)) as q eqn:Hq.
    induction H as [| | | | | |r a b Ha _ Hb IH]; simplify_eq; [done|].
    apply matches_byte_inv in Ha as (c & -> & Hc).
    rewrite app_cons, app_empty_l. simpl. rewrite Hc. by apply IH.
  - induction s as [|c s IH]; simpl; [constructor|].
    intros [Hc Hs]%andb_true_iff.
    apply (m_star_app _ (String c "")); [by constructor|auto].
Qed.
