(* ===== verification/Workload.v ===== *)
(** * Workloads (pkg/workload/workload.go)

    The platform-agnostic resource the listers produce and the sources read. *)
From S2P Require Import Prelude GoStrings Errors.

(** [Platform] and [Kind] are string types in the source. *)
Definition Platform := string.
Definition PlatformDocker : Platform := "docker".
Definition PlatformKubernetes : Platform := "kubernetes".
Definition PlatformProxmox : Platform := "proxmox".
Definition PlatformIncus : Platform := "incus".
Definition PlatformStatic : Platform := "static".

Definition Kind := string.

(** A nil map reads like an empty one: both are the empty [gmap]. *)
Record Workload := mkWorkload {
  w_ID : string;
  w_Name : string;
  w_Namespace : string;
  w_Labels : gmap string string;
  w_Annotations : gmap string string;
  w_Platform : Platform;
  w_Kind : Kind;
  w_Hostnames : list string;
  w_Metadata : gmap string string
}.

Definition Workload_String (w : Workload) : string :=
  w_Platform w ++s "/" ++s w_Kind w ++s ":" ++s w_Name w.

Definition HasLabel (w : Workload) (key : string) : bool :=
  match w_Labels w !! key with Some _ => true | None => false end.

Definition GetLabel (w : Workload) (key : string) : string :=
  default "" (w_Labels w !! key).

Definition GetLabelOr (w : Workload) (key defaultValue : string) : string :=
  match w_Labels w !! key with Some v => v | None => defaultValue end.

Definition HasAnnotation (w : Workload) (key : string) : bool :=
  match w_Annotations w !! key with Some _ => true | None => false end.

Definition GetAnnotation (w : Workload) (key : string) : string :=
  default "" (w_Annotations w !! key).

Definition GetAnnotationOr (w : Workload) (key defaultValue : string) : string :=
  match w_Annotations w !! key with Some v => v | None => defaultValue end.

Definition GetLabelOrAnnotation (w : Workload) (key : string) : string :=
  match w_Labels w !! key with
  | Some v => v
  | None => match w_Annotations w !! key with Some v => v | None => "" end
  end.

Definition IsDocker (w : Workload) : bool := w_Platform w == PlatformDocker.
Definition IsKubernetes (w : Workload) : bool := w_Platform w == PlatformKubernetes.
Definition IsProxmox (p : Platform) : bool := p == PlatformProxmox.
Definition IsIncus (p : Platform) : bool := p == PlatformIncus.

(** The [workload.Lister] interface. *)
Record Lister {W : Type} := mkLister {
  lst_Platform : Platform;
  lst_ListWorkloads : W → (list Workload + error) * W
}.
Arguments Lister : clear implicits.
Arguments mkLister {W} _ _ : assert.
