(* ===== verification/Hostname.v ===== *)
(** * Hostnames (pkg/source/hostname.go)

    Normalisation, RFC 1123 and RFC 2782 validation, and the operations on
    lists of hostnames. *)
From S2P Require Import Prelude GoStrings Regex.
From Stdlib Require Import ZArith.

Definition MaxHostnameLength : nat := 253.
Definition MaxLabelLength : nat := 63.
Definition recordTypeSRV : string := "SRV".

(** The error variables of the file and the two errors built in place. *)
Inductive HostErr :=
| ErrHostnameEmpty
| ErrHostnameTooLong
| ErrLabelTooLong
| ErrLabelEmpty
| ErrInvalidCharacters
| ErrInvalidLabelStart
| ErrInvalidLabelEnd
| ErrSRVTooFewLabels
| ErrSRVLabel.

#[export] Instance HostErr_eq_dec : EqDecision HostErr.
Proof. solve_decision. Defined.

Record HostnameValidationError := mkHVE {
  hve_Hostname : string;
  hve_Label : string;
  hve_Err : HostErr
}.

(** ** Label patterns *)

Definition isAlphanumeric (b : ascii) : bool :=
  byte_in "a" "z" b || byte_in "A" "Z" b || byte_in "0" "9" b.

Definition alnum_class : ascii → bool := isAlphanumeric.
Definition alnum_hyphen_class (c : ascii) : bool := alnum_class c || Ascii.eqb c "-".

(** [^[a-zA-Z0-9]([a-zA-Z0-9-]*[a-zA-Z0-9])?$] *)
Definition labelRegex : re :=
  RSeq (RByte alnum_class)
       (ROpt (RSeq (RStar (RByte alnum_hyphen_class)) (RByte alnum_class))).

(** [^[a-zA-Z0-9]$] *)
Definition singleCharLabelRegex : re := RByte alnum_class.

(** [^_[a-zA-Z0-9]([a-zA-Z0-9-]*[a-zA-Z0-9])?$] *)
Definition srvLabelRegex : re := RSeq (RChar "_") labelRegex.

Definition NormalizeHostname (hostname : string) : string :=
  ToLower (TrimSuffix hostname ".").

(** ** Validation *)

Definition first_byte (s : string) : option ascii := String.get 0 s.
Definition last_byte (s : string) : option ascii := String.get (String.length s - 1) s.
Definition starts_alnum (label : string) : bool :=
  match first_byte label with Some c => isAlphanumeric c | None => false end.
Definition ends_alnum (label : string) : bool :=
  match last_byte label with Some c => isAlphanumeric c | None => false end.

(** The RFC 1123 format check of one label, shared text of the two loops. *)
Definition labelFormat (label : string) : option HostErr :=
  if (String.length label =? 1)%nat then
    if full_match singleCharLabelRegex label then None else Some ErrInvalidCharacters
  else if full_match labelRegex label then None
  else if negb (starts_alnum label) then Some ErrInvalidLabelStart
  else if negb (ends_alnum label) then Some ErrInvalidLabelEnd
  else Some ErrInvalidCharacters.

(** The loop of [ValidateHostname]: the first failing label and its error. *)
Fixpoint validateLabels (i : nat) (labels : list string) : option (string * HostErr) :=
  match labels with
  | [] => None
  | label :: rest =>
      if label == "" then Some (label, ErrLabelEmpty)
      else if (MaxLabelLength <? String.length label)%nat then Some (label, ErrLabelTooLong)
      else if (i =? 0)%nat && (label == "*") then validateLabels (S i) rest
      else match labelFormat label with
           | Some e => Some (label, e)
           | None => validateLabels (S i) rest
           end
  end.

Definition ValidateHostname (hostname : string) : option HostnameValidationError :=
  let hostname := TrimSuffix hostname "." in
  if hostname == "" then Some (mkHVE hostname "" ErrHostnameEmpty)
  else if (MaxHostnameLength <? String.length hostname)%nat then
    Some (mkHVE hostname "" ErrHostnameTooLong)
  else match validateLabels 0 (Split "." hostname) with
       | Some (label, e) => Some (mkHVE hostname label e)
       | None => None
       end.

(** The loop of [ValidateSRVHostname]. *)
Fixpoint validateSRVLabels (i : nat) (labels : list string) : option (string * HostErr) :=
  match labels with
  | [] => None
  | label :: rest =>
      if label == "" then Some (label, ErrLabelEmpty)
      else if (MaxLabelLength <? String.length label)%nat then Some (label, ErrLabelTooLong)
      else if (i <? 2)%nat then
        if full_match srvLabelRegex label then validateSRVLabels (S i) rest
        else Some (label, ErrSRVLabel)
      else match labelFormat label with
           | Some e => Some (label, e)
           | None => validateSRVLabels (S i) rest
           end
  end.

Definition ValidateSRVHostname (hostname : string) : option HostnameValidationError :=
  let hostname := TrimSuffix hostname "." in
  if hostname == "" then Some (mkHVE hostname "" ErrHostnameEmpty)
  else if (MaxHostnameLength <? String.length hostname)%nat then
    Some (mkHVE hostname "" ErrHostnameTooLong)
  else
    let labels := Split "." hostname in
    if (length labels <? 3)%nat then Some (mkHVE hostname "" ErrSRVTooFewLabels)
    else match validateSRVLabels 0 labels with
         | Some (label, e) => Some (mkHVE hostname label e)
         | None => None
         end.

(** ** The [Hostname] type *)

(** The [uint16] fields are integers in [0, 65536). *)
Record SRVHints := mkSRVHints {
  hint_Priority : Z;
  hint_Weight : Z;
  hint_Port : Z
}.

Record RecordHints := mkRecordHints {
  hint_Type : string;
  hint_Target : string;
  hint_TTL : Z;
  hint_Provider : string;
  hint_SRV : nilable SRVHints;
  hint_Metadata : gmap string string
}.

Record Hostname := mkHostname {
  h_Name : string;
  h_Source : string;
  h_Router : string;
  h_RecordHints : nilable RecordHints;
  h_Metadata : gmap string string
}.

Definition HasRecordHints (h : Hostname) : bool :=
  match h_RecordHints h with Some _ => true | None => false end.

Definition Hostname_String (h : Hostname) : string :=
  if h_Router h != "" then
    h_Name h ++s " (from " ++s h_Source h ++s ":" ++s h_Router h ++s ")"
  else h_Name h ++s " (from " ++s h_Source h ++s ")".

Definition Validate (h : Hostname) : option HostnameValidationError :=
  match h_RecordHints h with
  | Some hints =>
      if hint_Type hints == recordTypeSRV then ValidateSRVHostname (h_Name h)
      else ValidateHostname (h_Name h)
  | None => ValidateHostname (h_Name h)
  end.

Definition IsValid (h : Hostname) : bool :=
  match h_RecordHints h with
  | Some hints =>
      if hint_Type hints == recordTypeSRV
      then match ValidateSRVHostname (h_Name h) with None => true | Some _ => false end
      else match ValidateHostname (h_Name h) with None => true | Some _ => false end
  | None => match ValidateHostname (h_Name h) with None => true | Some _ => false end
  end.

Definition NormalizedName (h : Hostname) : string := NormalizeHostname (h_Name h).

(** ** Lists of hostnames *)

Definition Names (hs : list Hostname) : list string := map h_Name hs.

(** The loop of [Deduplicate], with its [seen] set. *)
Fixpoint dedup_go (seen : gset string) (hs : list Hostname) : list Hostname :=
  match hs with
  | [] => []
  | h :: hs =>
      if bool_decide (NormalizedName h ∈ seen) then dedup_go seen hs
      else h :: dedup_go ({[NormalizedName h]} ∪ seen) hs
  end.
Definition Deduplicate (hs : list Hostname) : list Hostname := dedup_go ∅ hs.

Definition Filter (predicate : Hostname → bool) (hs : list Hostname) : list Hostname :=
  List.filter predicate hs.

Definition FromSource (sourceName : string) (hs : list Hostname) : list Hostname :=
  Filter (λ h, h_Source h == sourceName) hs.

Definition ValidHostnames (hs : list Hostname) : list Hostname := Filter IsValid hs.

Record ValidationResult := mkValidationResult {
  vr_Valid : list Hostname;
  vr_Invalid : list (Hostname * HostnameValidationError)
}.

Definition ValidateAll (hs : list Hostname) : ValidationResult :=
  fold_left (λ r h,
    match Validate h with
    | Some err => mkValidationResult (vr_Valid r) (vr_Invalid r ++ [(h, err)])
    | None => mkValidationResult (vr_Valid r ++ [h]) (vr_Invalid r)
    end) hs (mkValidationResult [] []).

(** ** The label patterns and the character rules they stand for *)

Lemma last_byte_app s c : last_byte (s ++s String c "") = Some c.
Proof.
  unfold last_byte. rewrite length_app_s. simpl.
  replace (String.length s + 1 - 1) with (String.length s) by lia.
  induction s as [|d s IH]; [done|]. rewrite app_cons. done.
Qed.

Lemma last_byte_cons c d s : last_byte (String c (String d s)) = last_byte (String d s).
Proof. unfold last_byte. simpl. by rewrite Nat.sub_0_r. Qed.

(** A non-empty string is a prefix and its last byte. *)
Lemma last_byte_split s : s ≠ "" → ∃ p c, s = p ++s String c "" ∧ last_byte s = Some c.
Proof.
  induction s as [|c s IH]; [done|]. intros _. destruct s as [|d s].
  - by exists "", c.
  - destruct (IH ltac:(done)) as (p & e & E & Hl). exists (String c p), e.
    by rewrite app_cons, <- E, last_byte_cons.
Qed.

Lemma alnum_alnum_hyphen c : isAlphanumeric c = true → alnum_hyphen_class c = true.
Proof. unfold alnum_hyphen_class, alnum_class. by intros ->. Qed.

(** The shape both RFCs give to a label: letters, digits and hyphens, with an
    alphanumeric byte at both ends. *)
Definition ldh (l : string) : Prop :=
  str_forallb alnum_hyphen_class l = true ∧ starts_alnum l = true ∧ ends_alnum l = true.

Lemma labelRegex_ldh l : full_match labelRegex l = true ↔ ldh l.
Proof.
  rewrite full_match_spec. unfold labelRegex, ROpt, ldh, alnum_class. split.
  - intros (a & b & -> & (c & -> & Hc)%matches_byte_inv & Hb)%matches_seq_inv.
    rewrite app_cons, app_empty_l. unfold starts_alnum, ends_alnum; simpl.
    change (first_byte (String c b)) with (Some c).
    inversion Hb as [| | |? ? ? Heps|? ? ? Hseq| |]; subst.
    + inv Heps. change (last_byte (String c "")) with (Some c).
      by rewrite Hc, alnum_alnum_hyphen.
    + apply matches_seq_inv in Hseq as (s & t & -> & Hs%matches_star_byte & Ht).
      apply matches_byte_inv in Ht as (d & -> & Hd).
      rewrite <- app_cons, last_byte_app, str_forallb_app, Hs. simpl.
      by rewrite Hc, Hd, !alnum_alnum_hyphen.
  - intros (Hf & Hs & He). destruct l as [|c l]; [done|].
    apply (m_seq _ _ (String c "") l); [by constructor|].
    destruct (decide (l = "")) as [->|Hl]; [apply m_alt_l; constructor|].
    apply m_alt_r. destruct (last_byte_split l Hl) as (p & d & -> & Hd).
    constructor.
    + apply matches_star_byte. simpl in Hf. rewrite str_forallb_app in Hf.
      by apply andb_true_iff in Hf as [_ [? _]%andb_true_iff].
    + constructor. unfold ends_alnum in He.
      by rewrite <- app_cons, last_byte_app in He.
Qed.

Lemma singleChar_ldh l :
  String.length l = 1 → full_match singleCharLabelRegex l = true ↔ ldh l.
Proof.
  destruct l as [|c [|d l]]; simpl; try lia. intros _.
  unfold ldh, starts_alnum, ends_alnum, alnum_class.
  change (first_byte (String c "")) with (Some c).
  change (last_byte (String c "")) with (Some c). simpl.
  destruct (isAlphanumeric c) eqn:Hc; simpl; [|naive_solver].
  by rewrite alnum_alnum_hyphen.
Qed.

Lemma labelFormat_None l : labelFormat l = None ↔ ldh l.
Proof.
  unfold labelFormat. destruct (_ =? 1)%nat eqn:Hlen.
  - apply Nat.eqb_eq in Hlen. rewrite <- singleChar_ldh by done. by case_match.
  - rewrite <- labelRegex_ldh. by repeat case_match.
Qed.

Lemma srvLabelRegex_ldh l :
  full_match srvLabelRegex l = true ↔ ∃ l', l = String "_" l' ∧ ldh l'.
Proof.
  rewrite full_match_spec. unfold srvLabelRegex. rewrite matches_seq_inv. split.
  - intros (a & b & -> & (c & -> & ->%Ascii.eqb_eq)%matches_byte_inv & Hb).
    exists b. split; [done|]. by apply labelRegex_ldh, full_match_spec.
  - intros (l' & -> & H). exists "_", l'. split_and!; [done|by constructor|].
    by apply full_match_spec, labelRegex_ldh.
Qed.

(** ** Validation against the RFCs *)

Definition label_ok (l : string) : Prop :=
  l ≠ "" ∧ String.length l ≤ MaxLabelLength ∧ ldh l.

Definition srv_label_ok (l : string) : Prop :=
  String.length l ≤ MaxLabelLength ∧ ∃ l', l = String "_" l' ∧ ldh l'.

(** RFC 1123, with a wildcard allowed as the first label. *)
Definition rfc1123_name (h : string) : Prop :=
  1 ≤ String.length h ≤ MaxHostnameLength ∧
  ∃ l ls, Split "." h = l :: ls ∧ (l = "*" ∨ label_ok l) ∧ Forall label_ok ls.

(** RFC 2782: [_service._proto.name]. *)
Definition rfc2782_name (h : string) : Prop :=
  1 ≤ String.length h ≤ MaxHostnameLength ∧
  ∃ service proto l ls, Split "." h = service :: proto :: l :: ls ∧
    srv_label_ok service ∧ srv_label_ok proto ∧ Forall label_ok (l :: ls).

Lemma validateLabels_rest i ls :
  validateLabels (S i) ls = None ↔ Forall label_ok ls.
Proof.
  revert i. induction ls as [|l ls IH]; intros i; simpl; [by split|].
  rewrite Forall_cons, <- (IH (S i)). unfold label_ok. rewrite <- labelFormat_None.
  case_eqb; [naive_solver|].
  destruct (Nat.ltb_spec MaxLabelLength (String.length l)) as [?|?].
  { split; [done|]. lia. }
  destruct (labelFormat l); naive_solver.
Qed.

Lemma validateLabels_first l ls :
  validateLabels 0 (l :: ls) = None ↔ (l = "*" ∨ label_ok l) ∧ Forall label_ok ls.
Proof.
  rewrite <- (validateLabels_rest 0). simpl. unfold label_ok. rewrite <- labelFormat_None.
  destruct (String.eqb_spec l "*") as [->|Hs]; [simpl; naive_solver|].
  case_eqb; [naive_solver|].
  destruct (Nat.ltb_spec MaxLabelLength (String.length l)) as [?|?].
  { split; [done|]. intros [[|?]]; [done|lia]. }
  destruct (labelFormat l); naive_solver.
Qed.

Lemma validateSRVLabels_rest i ls :
  validateSRVLabels (S (S i)) ls = None ↔ Forall label_ok ls.
Proof.
  revert i. induction ls as [|l ls IH]; intros i; simpl; [by split|].
  rewrite Forall_cons, <- (IH (S i)). unfold label_ok. rewrite <- labelFormat_None.
  case_eqb; [naive_solver|].
  destruct (Nat.ltb_spec MaxLabelLength (String.length l)) as [?|?].
  { split; [done|]. lia. }
  destruct (labelFormat l); naive_solver.
Qed.

Lemma validateSRVLabels_srv i l ls :
  i < 2 →
  validateSRVLabels i (l :: ls) = None ↔
  srv_label_ok l ∧ validateSRVLabels (S i) ls = None.
Proof.
  intros Hi. simpl. unfold srv_label_ok. rewrite <- srvLabelRegex_ldh.
  replace (i <? 2)%nat with true by (symmetry; by apply Nat.ltb_lt).
  case_eqb; [naive_solver|].
  destruct (Nat.ltb_spec MaxLabelLength (String.length l)) as [?|?].
  { split; [done|]. lia. }
  destruct (full_match srvLabelRegex l); naive_solver.
Qed.

Lemma length_pos_ne s : s ≠ "" ↔ 1 ≤ String.length s.
Proof. destruct s; simpl; split; intros; try done; try lia. Qed.

Lemma ValidateHostname_None h :
  ValidateHostname h = None ↔ rfc1123_name (TrimSuffix h ".").
Proof.
  unfold ValidateHostname, rfc1123_name. generalize (TrimSuffix h "."). intros h'.
  rewrite <- length_pos_ne. case_eqb; [naive_solver|].
  destruct (Nat.ltb_spec MaxHostnameLength (String.length h')) as [?|?].
  { split; [done|]. lia. }
  pose proof (Split_nonempty "." h') as Hne.
  destruct (Split "." h') as [|l ls] eqn:E; [done|].
  assert (validateLabels 0 (l :: ls) = None ↔ (l = "*" ∨ label_ok l) ∧ Forall label_ok ls)
    as Hv by apply validateLabels_first.
  destruct (validateLabels 0 (l :: ls)) as [[]|]; naive_solver.
Qed.

Lemma ValidateSRVHostname_None h :
  ValidateSRVHostname h = None ↔ rfc2782_name (TrimSuffix h ".").
Proof.
  unfold ValidateSRVHostname, rfc2782_name. generalize (TrimSuffix h "."). intros h'.
  rewrite <- length_pos_ne. case_eqb; [naive_solver|].
  destruct (Nat.ltb_spec MaxHostnameLength (String.length h')) as [?|?].
  { split; [done|]. lia. }
  destruct (Split "." h') as [|a [|b [|l ls]]] eqn:E;
    [simpl; naive_solver..|].
  change (length (a :: b :: l :: ls) <? 3)%nat with false. cbv iota.
  assert (validateSRVLabels 0 (a :: b :: l :: ls) = None ↔
    srv_label_ok a ∧ srv_label_ok b ∧ Forall label_ok (l :: ls)) as Hv.
  { by rewrite validateSRVLabels_srv, validateSRVLabels_srv, (validateSRVLabels_rest 0) by lia. }
  destruct (validateSRVLabels 0 _) as [[]|]; split; try done.
  - intros (_ & ? & ? & ? & ? & [= <- <- <- <-] & Hok). by apply Hv in Hok.
  - intros _. split; [done|]. exists a, b, l, ls. by rewrite <- Hv.
Qed.

(** C39. [ValidateHostname] accepts exactly the RFC 1123 names: after one
    trailing dot is dropped, 1 to 253 bytes, every label non-empty, at most 63
    bytes, letters, digits and hyphens with alphanumeric ends, the first label
    possibly the wildcard; and [ValidateSRVHostname] exactly the RFC 2782
    names, whose two first labels start with an underscore. *)
Theorem hostname_validation_exact h :
  (ValidateHostname h = None ↔ rfc1123_name (TrimSuffix h ".")) ∧
  (ValidateSRVHostname h = None ↔ rfc2782_name (TrimSuffix h ".")).
Proof. split; [apply ValidateHostname_None|apply ValidateSRVHostname_None]. Qed.

(** *** Normalisation of valid names *)

Lemma Split_app_last sep s :
  List.last (Split sep (s ++s String sep "")) "x" = "".
Proof.
  induction s as [|c s IH].
  - rewrite app_empty_l. simpl. by rewrite Ascii.eqb_refl.
  - rewrite app_cons. simpl.
    pose proof (Split_nonempty sep (s ++s String sep "")) as Hne.
    destruct (Ascii.eqb c sep).
    + by destruct (Split sep _) as [|w [|w' ws]].
    + destruct (Split sep _) as [|w [|w' ws]] eqn:E; [done| |done].
      exfalso. simpl in IH. subst w.
      pose proof (Join_Split sep (s ++s String sep "")) as HJ. rewrite E in HJ. simpl in HJ.
      by destruct s.
Qed.

Lemma rfc1123_no_trailing_dot h : rfc1123_name h → HasSuffix h "." = false.
Proof.
  intros (_ & l & ls & Hs & Hl & Hls). destruct (HasSuffix h ".") eqn:E; [|done].
  apply HasSuffix_spec in E as [p ->].
  pose proof (Split_app_last "." p) as Hlast. rewrite Hs in Hlast.
  assert (Forall (λ l, l ≠ "") (l :: ls)) as Hne.
  { constructor; [destruct Hl as [->|[]]; done|].
    eapply Forall_impl; [done|]. by intros ? []. }
  assert (List.last (l :: ls) "x" ∈ l :: ls) as Hin.
  { clear. revert l. induction ls as [|l' ls IH]; intros l; [by left|].
    right. apply IH. }
  rewrite Forall_forall in Hne. apply Hne in Hin. congruence.
Qed.

Lemma Split_ToLower s : Split "." (ToLower s) = map ToLower (Split "." s).
Proof.
  induction s as [|c s IH]; [done|].
  change (ToLower (String c s)) with (String (lower_byte c) (ToLower s)). simpl. rewrite IH.
  destruct (Ascii.eqb c ".") eqn:Hc.
  - by apply Ascii.eqb_eq in Hc as ->.
  - assert (Ascii.eqb (lower_byte c) "." = false) as ->.
    { apply Ascii.eqb_neq. apply Ascii.eqb_neq in Hc. intros E. apply Hc.
      by apply lower_byte_fixed. }
    by destruct (Split "." s).
Qed.

Lemma lower_byte_alnum c : isAlphanumeric (lower_byte c) = isAlphanumeric c.
Proof.
  apply eqb_prop. revert c.
  apply (all_bytes_spec (λ c, Bool.eqb (isAlphanumeric (lower_byte c)) (isAlphanumeric c))).
  vm_compute. reflexivity.
Qed.

Lemma lower_byte_alnum_hyphen c :
  alnum_hyphen_class (lower_byte c) = alnum_hyphen_class c.
Proof.
  apply eqb_prop. revert c.
  apply (all_bytes_spec
    (λ c, Bool.eqb (alnum_hyphen_class (lower_byte c)) (alnum_hyphen_class c))).
  vm_compute. reflexivity.
Qed.

Lemma str_get_map f n s : String.get n (str_map f s) = f <$> String.get n s.
Proof. revert n. induction s as [|c s IH]; intros [|n]; simpl; try done. Qed.

Lemma label_ok_ToLower l : label_ok (ToLower l) ↔ label_ok l.
Proof.
  unfold label_ok, ldh, starts_alnum, ends_alnum, first_byte, last_byte.
  rewrite length_ToLower. unfold ToLower. rewrite !str_get_map.
  assert (str_map lower_byte l ≠ "" ↔ l ≠ "") as -> by (by destruct l).
  assert (str_forallb alnum_hyphen_class (str_map lower_byte l)
          = str_forallb alnum_hyphen_class l) as ->.
  { induction l as [|c l IH]; simpl; [done|]. by rewrite lower_byte_alnum_hyphen, IH. }
  destruct (String.get 0 l), (String.get _ l); simpl; by rewrite ?lower_byte_alnum.
Qed.

Lemma ToLower_star l : ToLower l = "*" ↔ l = "*".
Proof.
  split; [|by intros ->]. destruct l as [|c [|d l]]; simpl; [done| |done].
  intros [= H]. f_equal. by apply lower_byte_fixed in H.
Qed.

Lemma rfc1123_ToLower h : rfc1123_name (ToLower h) ↔ rfc1123_name h.
Proof.
  unfold rfc1123_name. rewrite length_ToLower, Split_ToLower.
  assert (∀ ls, Forall label_ok (map ToLower ls) ↔ Forall label_ok ls) as Hf.
  { intros ls. rewrite List.Forall_map. by setoid_rewrite label_ok_ToLower. }
  apply and_iff_compat_l. split.
  - intros (l & ls & E & Hl & Hls). destruct (Split "." h) as [|l' ls']; [done|].
    injection E as <- <-. rewrite ToLower_star, label_ok_ToLower in Hl. rewrite Hf in Hls. eauto.
  - intros (l & ls & -> & Hl & Hls). exists (ToLower l), (map ToLower ls).
    by rewrite ToLower_star, label_ok_ToLower, Hf.
Qed.

Lemma NormalizeHostname_valid h :
  ValidateHostname h = None → ValidateHostname (NormalizeHostname h) = None.
Proof.
  rewrite !ValidateHostname_None. unfold NormalizeHostname. intros H.
  rewrite TrimSuffix_id; [by apply rfc1123_ToLower|].
  by apply rfc1123_no_trailing_dot, rfc1123_ToLower.
Qed.

Lemma NormalizeHostname_fixed h :
  HasSuffix (TrimSuffix h ".") "." = false →
  NormalizeHostname (NormalizeHostname h) = NormalizeHostname h.
Proof.
  intros H. unfold NormalizeHostname at 1. rewrite TrimSuffix_id.
  - apply ToLower_idem.
  - unfold NormalizeHostname. by rewrite HasSuffix_ToLower_dot.
Qed.

(** Normalisation is a canonical form on the names that pass validation:
    the normal form is valid too, normalising it again changes nothing, and
    two names that differ only in letter case or one trailing dot have the
    same normal form. *)
Theorem normalize_canonical h :
  (ValidateHostname h = None →
     ValidateHostname (NormalizeHostname h) = None ∧
     NormalizeHostname (NormalizeHostname h) = NormalizeHostname h) ∧
  NormalizeHostname (ToLower h) = NormalizeHostname h ∧
  (HasSuffix h "." = false → NormalizeHostname (h ++s ".") = NormalizeHostname h).
Proof.
  split_and!.
  - intros Hv. split; [by apply NormalizeHostname_valid|].
    apply NormalizeHostname_fixed, rfc1123_no_trailing_dot. by apply ValidateHostname_None.
  - unfold NormalizeHostname. by rewrite <- ToLower_TrimSuffix_dot, ToLower_idem.
  - intros H. unfold NormalizeHostname. by rewrite TrimSuffix_app, TrimSuffix_id.
Qed.

Lemma normalize_canonical_witness :
  ValidateHostname "App.Example.com." = None ∧
  NormalizeHostname (NormalizeHostname "App.Example.com.") = "app.example.com".
Proof.
  split; [vm_compute; reflexivity|].
  destruct (normalize_canonical "App.Example.com.") as [H _].
  destruct H as [_ ->]; vm_compute; reflexivity.
Defined.

(** ** Lists *)

Lemma dedup_go_elem seen hs h :
  h ∈ dedup_go seen hs → h ∈ hs ∧ NormalizedName h ∉ seen.
Proof.
  revert seen. induction hs as [|h' hs IH]; intros seen; simpl; [by intros ?%not_elem_of_nil|].
  case_bool_decide as Hin.
  - intros [??]%IH. split; [by right|done].
  - intros [->|[? Hn]%IH]%elem_of_cons; [split; [by left|done]|].
    split; [by right|]. set_solver.
Qed.

Lemma dedup_go_NoDup seen hs : NoDup (map NormalizedName (dedup_go seen hs)).
Proof.
  revert seen. induction hs as [|h hs IH]; intros seen; simpl; [constructor|].
  case_bool_decide; [apply IH|]. simpl. constructor; [|apply IH].
  intros (h' & E & [_ Hn]%dedup_go_elem)%list_elem_of_fmap. set_solver.
Qed.

Lemma dedup_go_sublist seen hs : sublist (dedup_go seen hs) hs.
Proof.
  revert seen. induction hs as [|h hs IH]; intros seen; simpl; [constructor|].
  case_bool_decide; [by apply sublist_cons|by apply sublist_skip].
Qed.

(** The first hostname of the list with a given normal form. *)
Definition first_named (n : string) (hs : list Hostname) : option Hostname :=
  List.find (λ h, NormalizedName h == n) hs.

Lemma dedup_go_first seen hs n :
  n ∉ seen → first_named n (dedup_go seen hs) = first_named n hs.
Proof.
  unfold first_named. revert seen. induction hs as [|h hs IH]; intros seen Hn; simpl; [done|].
  case_bool_decide as Hin; simpl.
  - destruct (String.eqb_spec (NormalizedName h) n); [congruence|]. by apply IH.
  - destruct (String.eqb_spec (NormalizedName h) n); [done|]. apply IH. set_solver.
Qed.

(** [Deduplicate] keeps, in order, exactly the first hostname of every
    class of names equal up to case and a trailing dot, and nothing else. *)
Theorem Deduplicate_spec hs :
  sublist (Deduplicate hs) hs ∧
  NoDup (map NormalizedName (Deduplicate hs)) ∧
  ∀ n, first_named n (Deduplicate hs) = first_named n hs.
Proof.
  split_and!; [apply dedup_go_sublist|apply dedup_go_NoDup|].
  intros n. apply dedup_go_first. set_solver.
Qed.

Lemma IsValid_Validate h : IsValid h = true ↔ Validate h = None.
Proof. unfold IsValid, Validate. repeat case_match; split; congruence. Qed.

Definition invalid_pair (h : Hostname) : option (Hostname * HostnameValidationError) :=
  pair h <$> Validate h.

Lemma ValidateAll_partition hs :
  ValidateAll hs = mkValidationResult (ValidHostnames hs) (omap invalid_pair hs).
Proof.
  unfold ValidateAll, ValidHostnames, Filter.
  assert (∀ v i, fold_left (λ r h,
    match Validate h with
    | Some err => mkValidationResult (vr_Valid r) (vr_Invalid r ++ [(h, err)])
    | None => mkValidationResult (vr_Valid r ++ [h]) (vr_Invalid r)
    end) hs (mkValidationResult v i)
    = mkValidationResult (v ++ List.filter IsValid hs) (i ++ omap invalid_pair hs)) as H.
  { induction hs as [|h hs IH]; intros v i; [by rewrite !app_nil_r|].
    assert (omap invalid_pair (h :: hs) =
      match Validate h with
      | Some err => (h, err) :: omap invalid_pair hs
      | None => omap invalid_pair hs
      end) as ->.
    { simpl. unfold invalid_pair at 1. by destruct (Validate h). }
    pose proof (IsValid_Validate h) as Hv. simpl.
    destruct (Validate h) as [err|]; rewrite IH; simpl; destruct (IsValid h);
      rewrite <- ?app_assoc; naive_solver. }
  apply H.
Qed.
