(* ===== verification/ProviderTypes.v ===== *)
(** * Records, ownership markers and modes
    (pkg/provider/provider.go, mode.go, identity.go)

    The data every provider exchanges with the reconciler, the text format of
    the ownership TXT records, and the operational modes. *)
From S2P Require Import Prelude GoStrings Errors.
From Stdlib Require Import ZArith.

(** ** Record types *)

(** [RecordType] is a string type: hints may hold any text. *)
Definition RecordType := string.
Definition RecordTypeA : RecordType := "A".
Definition RecordTypeAAAA : RecordType := "AAAA".
Definition RecordTypeCNAME : RecordType := "CNAME".
Definition RecordTypeTXT : RecordType := "TXT".
Definition RecordTypeSRV : RecordType := "SRV".
Definition RecordTypeHTTPS : RecordType := "HTTPS".

Definition OwnershipPrefix : string := "_dnsweaver".
Definition ownershipHeritage : string := "heritage=dnsweaver".
Definition keyHeritage : string := "heritage".
Definition keyInstance : string := "instance".

(** ** Ownership values *)

Definition reserved_key (k : string) : bool := (k == keyHeritage) || (k == keyInstance).

(** The metadata that is written: reserved keys are dropped. *)
Definition unreserved (m : gmap string string) : gmap string string :=
  filter (λ kv, reserved_key kv.1 = false) m.

(** [sort.Strings] of the keys that are not reserved. *)
Definition sorted_keys (m : gmap string string) : list string :=
  merge_sort String.le (map fst (map_to_list (unreserved m))).

Definition MakeOwnershipValue (instanceID : string) (metadata : gmap string string) : string :=
  let b := ownershipHeritage in
  let b := if instanceID != "" then b ++s "," ++s keyInstance ++s "=" ++s instanceID else b in
  fold_left (λ b k, b ++s "," ++s k ++s "=" ++s default "" (metadata !! k))
            (sorted_keys metadata) b.

(** The loop body of [ParseOwnershipValue] on the pair (instanceID, metadata);
    a nil metadata map is [None]. *)
Definition parseOwnershipPart (st : string * option (gmap string string)) (part : string)
  : string * option (gmap string string) :=
  match Cut "=" part with
  | None => st
  | Some (k, v) =>
      if k == keyInstance then (v, st.2)
      else if k == keyHeritage then st
      else (st.1, Some (<[k := v]> (default ∅ st.2)))
  end.

Definition ParseOwnershipValue (value : string) : bool * string * option (gmap string string) :=
  if negb (HasPrefix value ownershipHeritage) then (false, "", None)
  else
    let rest := str_drop (String.length ownershipHeritage) value in
    if rest == "" then (true, "", None)
    else if negb (HasPrefix rest ",") then (false, "", None)
    else
      let '(instanceID, metadata) :=
        fold_left parseOwnershipPart (Split "," (str_drop 1 rest)) ("", None) in
      (true, instanceID, metadata).

Definition MatchesOwnership (value ourInstanceID : string) : bool :=
  let '(isOwned, recordInstanceID, _) := ParseOwnershipValue value in
  if negb isOwned then false else recordInstanceID == ourInstanceID.

Definition IsDnsweaverOwned (value : string) : bool :=
  let '(isOwned, _, _) := ParseOwnershipValue value in isOwned.

(** ** Records *)

(** The [uint16] fields are integers in [0, 65536). *)
Record SRVData := mkSRVData { srv_Priority : Z; srv_Weight : Z; srv_Port : Z }.

Record HTTPSData := mkHTTPSData {
  https_Priority : Z;
  https_TargetName : string;
  https_ALPN : string
}.

#[export] Instance SRVData_eq_dec : EqDecision SRVData.
Proof. solve_decision. Defined.
#[export] Instance HTTPSData_eq_dec : EqDecision HTTPSData.
Proof. solve_decision. Defined.

Record DNSRecord := mkRecord {
  r_Hostname : string;
  r_Type : RecordType;
  r_Target : string;
  r_TTL : Z;
  r_ProviderID : string;
  r_SRV : nilable SRVData;
  r_HTTPS : nilable HTTPSData;
  r_Metadata : gmap string string
}.

#[export] Instance DNSRecord_eq_dec : EqDecision DNSRecord.
Proof. unfold RecordType. solve_decision. Defined.

Record Capabilities := mkCapabilities {
  SupportsOwnershipTXT : bool;
  SupportsNativeUpdate : bool;
  SupportedRecordTypes : list RecordType
}.

Definition SupportsRecordType (c : Capabilities) (rt : RecordType) : bool :=
  existsb (λ t, t == rt) (SupportedRecordTypes c).

Definition RecordEquals (a b : DNSRecord) : bool :=
  if (r_Hostname a != r_Hostname b) || (r_Type a != r_Type b)
     || (r_Target a != r_Target b) || negb (r_TTL a =? r_TTL b)%Z then false
  else if r_Type a == RecordTypeSRV then
    match r_SRV a, r_SRV b with
    | None, None => true
    | Some x, Some y => (srv_Priority x =? srv_Priority y)%Z
                        && (srv_Weight x =? srv_Weight y)%Z && (srv_Port x =? srv_Port y)%Z
    | _, _ => false
    end
  else if r_Type a == RecordTypeHTTPS then
    match r_HTTPS a, r_HTTPS b with
    | None, None => true
    | Some x, Some y => (https_Priority x =? https_Priority y)%Z
                        && (https_TargetName x == https_TargetName y)
                        && (https_ALPN x == https_ALPN y)
    | _, _ => false
    end
  else true.

Definition OwnershipRecordName (hostname : string) : string :=
  OwnershipPrefix ++s "." ++s hostname.

Definition IsOwnershipRecord (hostname : string) : bool :=
  (String.length OwnershipPrefix + 1 <? String.length hostname)%nat
  && (str_take (String.length OwnershipPrefix + 1) hostname == OwnershipPrefix ++s ".").

Definition ExtractHostnameFromOwnership (ownershipName : string) : string :=
  if negb (IsOwnershipRecord ownershipName) then ""
  else str_drop (String.length OwnershipPrefix + 1) ownershipName.

Definition OwnershipRecord (hostname : string) (ttl : Z) (instanceID : string)
    (metadata : gmap string string) : DNSRecord :=
  mkRecord (OwnershipRecordName hostname) RecordTypeTXT
           (MakeOwnershipValue instanceID metadata) ttl "" None None ∅.

(** ** Operational modes (mode.go) *)

Definition OperationalMode := string.
Definition ModeManaged : OperationalMode := "managed".
Definition ModeAuthoritative : OperationalMode := "authoritative".
Definition ModeAdditive : OperationalMode := "additive".

Definition Mode_IsValid (m : OperationalMode) : bool :=
  (m == ModeManaged) || (m == ModeAuthoritative) || (m == ModeAdditive).

Definition ParseOperationalMode (s : string) : OperationalMode * option error :=
  if s == "" then (ModeManaged, None)
  else
    let mode := ToLower (TrimSpace s) in
    if Mode_IsValid mode then (mode, None)
    else ("", Some (ENew ("invalid operational mode " ++s Quote s ++s
                          ": must be one of managed, authoritative, additive"))).

Definition AllowsDelete (m : OperationalMode) : bool := m != ModeAdditive.
Definition RequiresOwnership (m : OperationalMode) : bool := (m == ModeManaged) || (m == "").

(** ** Backend identity (identity.go) *)

Record ProviderIdentity := mkIdentity {
  id_Type : string;
  id_Endpoint : string;
  id_Zone : string
}.

#[export] Instance ProviderIdentity_eq_dec : EqDecision ProviderIdentity.
Proof. solve_decision. Defined.
#[export] Instance ProviderIdentity_countable : Countable ProviderIdentity.
Proof.
  apply (inj_countable' (λ i, (id_Type i, id_Endpoint i, id_Zone i))
                        (λ '(a, b, c), mkIdentity a b c)).
  by intros [].
Defined.

(** ** The ownership value as a list of parts *)

Definition meta_part (m : gmap string string) (k : string) : string :=
  k ++s "=" ++s default "" (m !! k).

Definition ownership_parts (id : string) (m : gmap string string) : list string :=
  (if id != "" then [keyInstance ++s "=" ++s id] else []) ++ map (meta_part m) (sorted_keys m).

Fixpoint comma_tail (parts : list string) : string :=
  match parts with [] => "" | p :: ps => "," ++s p ++s comma_tail ps end.

Lemma Make_parts id m :
  MakeOwnershipValue id m = ownershipHeritage ++s comma_tail (ownership_parts id m).
Proof.
  unfold MakeOwnershipValue, ownership_parts.
  assert (∀ ks b, fold_left (λ b k, b ++s "," ++s k ++s "=" ++s default "" (m !! k)) ks b
          = b ++s comma_tail (map (meta_part m) ks)) as H.
  { induction ks as [|k ks IH]; intros b; [by rewrite app_empty_r|].
    simpl. rewrite IH. unfold meta_part. by rewrite !app_assoc_s. }
  rewrite H. destruct (id != ""); [|done]. rewrite !app_assoc_s. simpl.
  by rewrite !app_assoc_s.
Qed.

Notation no_comma s := (str_contains_byte "," s = false).
Notation no_eq s := (str_contains_byte "=" s = false).

Lemma Split_comma_tail p ps :
  Forall (λ s, no_comma s) (p :: ps) → Split "," (p ++s comma_tail ps) = p :: ps.
Proof.
  revert p. induction ps as [|q ps IH]; intros p Hf; inversion Hf; subst.
  - simpl. rewrite app_empty_r. by apply Split_single.
  - change (comma_tail (q :: ps)) with (String "," (q ++s comma_tail ps)).
    rewrite Split_app by done. f_equal. by apply IH.
Qed.

Lemma Parse_parts ps :
  Forall (λ s, no_comma s) ps →
  ParseOwnershipValue (ownershipHeritage ++s comma_tail ps)
  = (true, (fold_left parseOwnershipPart ps ("", None)).1,
           (fold_left parseOwnershipPart ps ("", None)).2).
Proof.
  intros Hf. unfold ParseOwnershipValue. rewrite HasPrefix_app, str_drop_app.
  destruct ps as [|p ps]; [done|].
  change (comma_tail (p :: ps)) with (String "," (p ++s comma_tail ps)).
  change (str_drop 1 (String "," (p ++s comma_tail ps))) with (p ++s comma_tail ps).
  rewrite Split_comma_tail by done.
  assert (HasPrefix (String "," (p ++s comma_tail ps)) "," = true) as ->
    by (by destruct (p ++s comma_tail ps)).
  cbn [String.eqb negb]. by destruct (fold_left _ _ _).
Qed.

Lemma elem_of_sorted_keys m k :
  k ∈ sorted_keys m ↔ is_Some (m !! k) ∧ reserved_key k = false.
Proof.
  unfold sorted_keys. rewrite (merge_sort_Permutation String.le).
  rewrite list_elem_of_fmap. unfold unreserved. split.
  - intros ([k' v] & -> & H%elem_of_map_to_list). apply map_lookup_filter_Some in H as [H ?].
    simpl in *. by rewrite H.
  - intros [[v Hv] Hr]. exists (k, v). split; [done|]. apply elem_of_map_to_list.
    by apply map_lookup_filter_Some.
Qed.

(** What the ownership format can carry: no comma in the identifier and the
    values, neither comma nor equals sign in the keys. *)
Definition clean_metadata (m : gmap string string) : Prop :=
  ∀ k v, m !! k = Some v → no_comma k ∧ no_eq k ∧ no_comma v.

Lemma no_comma_app s t : no_comma (s ++s t) ↔ no_comma s ∧ no_comma t.
Proof. rewrite str_contains_byte_app. by rewrite orb_false_iff. Qed.

Lemma no_comma_part k v : no_comma k → no_comma v → no_comma (k ++s "=" ++s v).
Proof.
  intros Hk Hv. apply no_comma_app. split; [done|]. apply no_comma_app. by split.
Qed.

Lemma ownership_parts_clean id m :
  no_comma id → clean_metadata m → Forall (λ s, no_comma s) (ownership_parts id m).
Proof.
  intros Hid Hm. unfold ownership_parts. rewrite Forall_app. split.
  - destruct (id != ""); repeat constructor. by apply no_comma_part.
  - apply List.Forall_map, Forall_forall. intros k [[v Hv] _]%elem_of_sorted_keys.
    destruct (Hm k v Hv) as (? & ? & ?). unfold meta_part. rewrite Hv. by apply no_comma_part.
Qed.

Lemma parsePart_meta m k st :
  no_eq k → reserved_key k = false →
  parseOwnershipPart st (meta_part m k) = (st.1, Some (<[k := default "" (m !! k)]> (default ∅ st.2))).
Proof.
  intros Hk Hr. unfold parseOwnershipPart, meta_part.
  change (k ++s "=" ++s ?v) with (k ++s String "=" v).
  rewrite Cut_app by done. unfold reserved_key in Hr.
  apply orb_false_iff in Hr as [-> ->]. done.
Qed.

Lemma fold_meta_lookup m ks st :
  Forall (λ k, no_eq k ∧ reserved_key k = false) ks →
  let r := fold_left parseOwnershipPart (map (meta_part m) ks) st in
  r.1 = st.1 ∧
  (ks = [] → r.2 = st.2) ∧ (ks ≠ [] → is_Some r.2) ∧
  ∀ k, default ∅ r.2 !! k =
       (if decide (k ∈ ks) then Some (default "" (m !! k)) else default ∅ st.2 !! k).
Proof.
  revert st. induction ks as [|k ks IH]; intros st Hf; [by split_and!; intros; [| | |]|].
  inversion Hf as [|? ? [Hk Hr] Hks]; subst. simpl map. cbn [fold_left].
  rewrite parsePart_meta by done.
  destruct (IH (st.1, Some (<[k:=default "" (m !! k)]> (default ∅ st.2))) Hks)
    as (H1 & H2 & H3 & H4). simpl in *. split_and!; [done|done| |].
  - intros _. destruct ks as [|k' ks]; [rewrite H2 by done; eauto|by apply H3].
  - intros j. rewrite H4. destruct (decide (j = k)) as [->|Hj].
    + rewrite lookup_insert_eq. repeat case_decide; try done; set_solver.
    + rewrite lookup_insert_ne by done. repeat case_decide; try done; set_solver.
Qed.

Lemma parsePart_instance st v :
  parseOwnershipPart st (keyInstance ++s "=" ++s v) = (v, st.2).
Proof.
  unfold parseOwnershipPart. change (keyInstance ++s "=" ++s v)
    with (keyInstance ++s String "=" v). by rewrite Cut_app.
Qed.

Lemma parse_id_part id :
  fold_left parseOwnershipPart (if id != "" then [keyInstance ++s "=" ++s id] else []) ("", None)
  = (id, None).
Proof.
  destruct (String.eqb_spec id "") as [->|Hne]; [done|]. apply parsePart_instance.
Qed.

(** The parse of a value that was built from clean parts. *)
Lemma Parse_Make id m :
  no_comma id → clean_metadata m →
  ParseOwnershipValue (MakeOwnershipValue id m)
  = (true, id, if decide (unreserved m = ∅) then None else Some (unreserved m)).
Proof.
  intros Hid Hm. rewrite Make_parts, Parse_parts by (by apply ownership_parts_clean).
  unfold ownership_parts. rewrite fold_left_app.
  rewrite parse_id_part.
  assert (Forall (λ k, no_eq k ∧ reserved_key k = false) (sorted_keys m)) as Hf.
  { apply Forall_forall. intros k [[v Hv] Hr]%elem_of_sorted_keys.
    by destruct (Hm k v Hv) as (? & ? & ?). }
  destruct (fold_meta_lookup m (sorted_keys m) (id, None) Hf) as (H1 & H2 & H3 & H4).
  simpl in *. rewrite H1. f_equal.
  assert (default ∅ (fold_left parseOwnershipPart (map (meta_part m) (sorted_keys m)) (id, None)).2
          = unreserved m) as Heq.
  { apply map_eq. intros k. rewrite H4. unfold unreserved. rewrite map_lookup_filter.
    case_decide as Hk.
    - apply elem_of_sorted_keys in Hk as [[v Hv] Hr]. rewrite Hv. simpl.
      by rewrite option_guard_True.
    - rewrite lookup_empty. destruct (m !! k) as [v|] eqn:Hv; [|done]. simpl.
      rewrite option_guard_False; [done|]. intros Hr. apply Hk, elem_of_sorted_keys.
      simpl in Hr. rewrite Hv. eauto. }
  case_decide as He.
  - apply H2. unfold sorted_keys. by rewrite He, map_to_list_empty.
  - destruct H3 as [x Hx]; [|by rewrite Hx in *; simpl in *; subst].
    intros Hn. apply He, map_eq. intros k. rewrite lookup_empty.
    destruct (unreserved m !! k) as [v|] eqn:Hv; [|done].
    apply map_lookup_filter_Some in Hv as [Hv Hr].
    assert (k ∈ sorted_keys m) as Hin by (apply elem_of_sorted_keys; rewrite Hv; eauto).
    rewrite Hn in Hin. by apply not_elem_of_nil in Hin.
Qed.

(** C40. Round trip of the ownership marker: parsing the value made for an
    instance identifier and metadata gives back the identifier and the
    metadata without the reserved keys, as long as commas (and equals signs
    in keys) do not occur in them. *)
Theorem ownership_value_roundtrip id m :
  no_comma id → clean_metadata m →
  ParseOwnershipValue (MakeOwnershipValue id m)
  = (true, id, if decide (unreserved m = ∅) then None else Some (unreserved m)).
Proof. apply Parse_Make. Qed.

Lemma clean_proxied : clean_metadata {[ "proxied" := "true" ]}.
Proof. by intros k v [<- <-]%lookup_singleton_Some. Qed.

Lemma ownership_value_roundtrip_witness :
  ParseOwnershipValue (MakeOwnershipValue "pi5-dns" {[ "proxied" := "true" ]})
  = (true, "pi5-dns", Some {[ "proxied" := "true" ]}).
Proof.
  rewrite (ownership_value_roundtrip "pi5-dns" {[ "proxied" := "true" ]});
    [vm_compute; reflexivity|reflexivity|apply clean_proxied].
Defined.

Lemma MatchesOwnership_Make id id' m :
  no_comma id → clean_metadata m →
  MatchesOwnership (MakeOwnershipValue id m) id' = (id == id').
Proof. intros ? ?. unfold MatchesOwnership. by rewrite Parse_Make. Qed.

(** Several dnsweaver instances can share a zone: a marker written by
    one instance is recognised by the instances with the same identifier and
    by no other, the empty identifier (single-instance mode) included. *)
Theorem ownership_isolation id id' m :
  no_comma id → clean_metadata m →
  MatchesOwnership (MakeOwnershipValue id m) id' = true ↔ id = id'.
Proof. intros ? ?. rewrite MatchesOwnership_Make by done. apply String.eqb_eq. Qed.

Lemma ownership_isolation_witness :
  ¬ MatchesOwnership (MakeOwnershipValue "a" {[ "proxied" := "true" ]}) "" = true.
Proof.
  intros H. apply (ownership_isolation "a" "" {[ "proxied" := "true" ]}) in H;
    [discriminate H|reflexivity|apply clean_proxied].
Defined.

(** The format has no escaping: a comma in a metadata value (metadata
    values come from workload labels) lets the value overwrite the instance
    identifier, so the writing instance no longer recognises its own marker
    and the named one does. *)
Theorem ownership_value_injection id evil :
  no_comma id → no_comma evil → id ≠ evil →
  let m := {[ "note" := "x,instance=" ++s evil ]} in
  MatchesOwnership (MakeOwnershipValue id m) id = false ∧
  MatchesOwnership (MakeOwnershipValue id m) evil = true.
Proof.
  intros Hid Hev Hne m.
  assert (MakeOwnershipValue id m = ownershipHeritage ++s comma_tail
    ((if id != "" then [keyInstance ++s "=" ++s id] else []) ++
     ["note=x"; keyInstance ++s "=" ++s evil])) as E.
  { rewrite Make_parts. unfold ownership_parts.
    assert (sorted_keys m = ["note"]) as ->.
    { unfold sorted_keys, unreserved, m.
      by rewrite map_filter_singleton_True, map_to_list_singleton. }
    simpl. unfold meta_part, m. rewrite lookup_singleton_eq.
    destruct (id != ""); simpl; rewrite ?app_assoc_s; done. }
  assert (ParseOwnershipValue (MakeOwnershipValue id m) = (true, evil, Some {[ "note" := "x" ]}))
    as HP.
  { rewrite E, Parse_parts.
    - rewrite fold_left_app, parse_id_part. cbn [fold_left].
      by rewrite (parsePart_instance _ evil).
    - apply Forall_app. split; [|by repeat constructor; apply no_comma_part].
      destruct (id != ""); repeat constructor. by apply no_comma_part. }
  unfold MatchesOwnership. rewrite HP. cbn [negb]. split.
  - by apply String.eqb_neq.
  - apply String.eqb_refl.
Qed.

Lemma ownership_value_injection_witness :
  MatchesOwnership (MakeOwnershipValue "home" {[ "note" := "x,instance=work" ]}) "work" = true.
Proof. apply (ownership_value_injection "home" "work"); [reflexivity..|discriminate]. Defined.

(** *** Whose marker a text is, told from the text alone *)

(** The last [instance=] part of a list of parts names the instance; without
    one it is the empty name. *)
Inductive names_instance : list string → string → Prop :=
| ni_nobody parts :
    Forall (λ p, ¬ ∃ v, p = "instance=" ++s v) parts → names_instance parts ""
| ni_last l id r :
    Forall (λ p, ¬ ∃ v, p = "instance=" ++s v) r →
    names_instance (l ++ ("instance=" ++s id) :: r) id.

(** A marker of the instance [id]: the heritage, and comma-separated parts of
    which the last [instance=] one, if any, gives [id]. *)
Definition marker_of (id v : string) : Prop :=
  ∃ parts, Forall (λ p, no_comma p) parts ∧
    v = "heritage=dnsweaver" ++s comma_tail parts ∧ names_instance parts id.

Lemma parsePart_other st p :
  ¬ (∃ v, p = "instance=" ++s v) → (parseOwnershipPart st p).1 = st.1.
Proof.
  intros Hp. unfold parseOwnershipPart. destruct (Cut "=" p) as [[k v]|] eqn:E; [|done].
  apply Cut_spec in E as [-> _].
  destruct (String.eqb_spec k keyInstance) as [->|]; [exfalso; apply Hp; by exists v|].
  by destruct (k == keyHeritage).
Qed.

Lemma parseParts_other ps st :
  Forall (λ p, ¬ ∃ v, p = "instance=" ++s v) ps → (fold_left parseOwnershipPart ps st).1 = st.1.
Proof.
  intros Hf. revert st. induction Hf as [|p ps Hp _ IH]; intros st; simpl; [done|].
  by rewrite IH, parsePart_other.
Qed.

Lemma instance_part_dec p : {∃ v, p = "instance=" ++s v} + {¬ ∃ v, p = "instance=" ++s v}.
Proof.
  destruct (HasPrefix p "instance=") eqn:E; [left|right].
  - apply HasPrefix_spec in E as [v ->]. by exists v.
  - intros [v ->]. by rewrite HasPrefix_app in E.
Qed.

Lemma parseParts_names ps id :
  (fold_left parseOwnershipPart ps ("", None)).1 = id ↔ names_instance ps id.
Proof.
  split.
  - revert id. induction ps as [|p ps IH] using rev_ind; intros id; [intros <-; by constructor|].
    rewrite fold_left_app. cbn [fold_left]. destruct (instance_part_dec p) as [[v ->]|Hp].
    + rewrite (parsePart_instance _ v). simpl. intros <-. by apply ni_last.
    + rewrite parsePart_other by done. intros Hn%IH.
      destruct Hn as [ps Hf|l id r Hf].
      * constructor. by apply Forall_app; split; [|apply Forall_singleton].
      * rewrite <- app_assoc. apply (ni_last l id (r ++ [p])).
        by apply Forall_app; split; [|apply Forall_singleton].
  - destruct 1 as [ps Hf|l id r Hf]; [by rewrite parseParts_other|].
    rewrite fold_left_app. cbn [fold_left].
    rewrite (parsePart_instance _ id), parseParts_other by done. done.
Qed.

Lemma Split_join_tail s p ps : Split "," s = p :: ps → s = p ++s comma_tail ps.
Proof.
  intros E. rewrite <- (Join_Split "," s), E. clear E s. revert p.
  induction ps as [|q ps IH]; intros p; [by rewrite app_empty_r|].
  rewrite Join_cons_ne, IH by done. done.
Qed.

Lemma MatchesOwnership_spec v id : MatchesOwnership v id = true ↔ marker_of id v.
Proof.
  unfold MatchesOwnership, marker_of. split.
  - unfold ParseOwnershipValue. destruct (HasPrefix v ownershipHeritage) eqn:Hh; [|done].
    apply HasPrefix_spec in Hh as [rest ->]. rewrite str_drop_app. cbn [negb].
    destruct (String.eqb_spec rest "") as [->|Hne].
    { cbn [negb]. intros <-%String.eqb_eq. exists []. split_and!; [constructor|done|by constructor]. }
    destruct (HasPrefix rest ",") eqn:Hc; [|done]. apply HasPrefix_spec in Hc as [s ->].
    change (str_drop 1 ("," ++s s)) with s. cbn [negb].
    destruct (fold_left _ _ _) as [i m] eqn:Ef. cbn [negb]. intros ->%String.eqb_eq.
    exists (Split "," s). split_and!; [apply Split_pieces| |apply parseParts_names; by rewrite Ef].
    destruct (Split "," s) as [|p ps] eqn:Es; [by apply Split_nonempty in Es|].
    apply Split_join_tail in Es as ->. done.
  - intros (ps & Hf & -> & Hn). rewrite Parse_parts by done. cbn [negb].
    apply String.eqb_eq. by apply parseParts_names.
Qed.

(** *** Ownership record names *)

Lemma Extract_OwnershipRecordName h : ExtractHostnameFromOwnership (OwnershipRecordName h) = h.
Proof.
  unfold ExtractHostnameFromOwnership, IsOwnershipRecord, OwnershipRecordName.
  change (OwnershipPrefix ++s "." ++s h) with (("_dnsweaver." : string) ++s h).
  change (String.length OwnershipPrefix + 1) with (String.length "_dnsweaver.").
  rewrite str_take_app, str_drop_app, length_app_s.
  destruct h as [|c h]; [done|].
  replace (_ <? _)%nat with true by (symmetry; apply Nat.ltb_lt; simpl; lia). done.
Qed.

Lemma IsOwnershipRecord_spec n :
  IsOwnershipRecord n = true ↔ ∃ h, h ≠ "" ∧ n = OwnershipRecordName h.
Proof.
  unfold IsOwnershipRecord, OwnershipRecordName. split.
  - intros [Hl Hp]%andb_true_iff. apply Nat.ltb_lt in Hl. apply String.eqb_eq in Hp.
    exists (str_drop (String.length OwnershipPrefix + 1) n). split.
    + intros E. pose proof (str_take_drop (String.length OwnershipPrefix + 1) n) as Ht.
      rewrite E, app_empty_r in Ht. rewrite <- Ht, Hp in Hl. simpl in Hl. lia.
    + rewrite <- app_assoc_s, <- Hp. by rewrite str_take_drop.
  - intros (h & Hh & ->).
    change (OwnershipPrefix ++s "." ++s h) with (("_dnsweaver." : string) ++s h).
    change (String.length OwnershipPrefix + 1) with (String.length "_dnsweaver.").
    rewrite str_take_app, length_app_s. destruct h; [done|].
    rewrite String.eqb_refl, andb_true_r. apply Nat.ltb_lt. simpl. lia.
Qed.

(** The ownership record of a hostname has a name of its own: the
    hostname is recovered from it, different hostnames have different
    ownership names, and the names recognised as ownership records are
    exactly those of the non-empty hostnames. *)
Theorem ownership_name_roundtrip :
  (∀ h, ExtractHostnameFromOwnership (OwnershipRecordName h) = h) ∧
  (∀ h h', OwnershipRecordName h = OwnershipRecordName h' → h = h') ∧
  (∀ n, IsOwnershipRecord n = true ↔ ∃ h, h ≠ "" ∧ n = OwnershipRecordName h).
Proof.
  split_and!; [apply Extract_OwnershipRecordName| |apply IsOwnershipRecord_spec].
  intros h h' H. rewrite <- (Extract_OwnershipRecordName h), H.
  apply Extract_OwnershipRecordName.
Qed.

(** *** Modes *)

Lemma Mode_IsValid_spec m :
  Mode_IsValid m = true ↔ m = ModeManaged ∨ m = ModeAuthoritative ∨ m = ModeAdditive.
Proof. unfold Mode_IsValid. rewrite !orb_true_iff, !String.eqb_eq. tauto. Qed.

(** [ParseOperationalMode] returns a valid mode exactly when it reports no
    error; the empty text means managed, letter case and surrounding space are
    ignored, every valid mode parses to itself, and among the valid modes only
    additive forbids deletion and only managed asks for ownership. *)
Theorem ParseOperationalMode_spec :
  (∀ s, Mode_IsValid (ParseOperationalMode s).1 = true ↔ (ParseOperationalMode s).2 = None) ∧
  ParseOperationalMode "" = (ModeManaged, None) ∧
  (∀ s, (ParseOperationalMode s).2 = None → s ≠ "" →
        (ParseOperationalMode s).1 = ToLower (TrimSpace s)) ∧
  (∀ m, Mode_IsValid m = true → ParseOperationalMode m = (m, None)) ∧
  (∀ m, Mode_IsValid m = true →
        (AllowsDelete m = false ↔ m = ModeAdditive) ∧
        (RequiresOwnership m = true ↔ m = ModeManaged)).
Proof.
  split_and!.
  - intros s. unfold ParseOperationalMode. case_eqb; [done|].
    destruct (Mode_IsValid (ToLower (TrimSpace s))) eqn:E; simpl; [by rewrite E|done].
  - done.
  - intros s. unfold ParseOperationalMode. case_eqb; [done|].
    by destruct (Mode_IsValid (ToLower (TrimSpace s))).
  - intros m [-> |[-> | ->]]%Mode_IsValid_spec; reflexivity.
  - intros m [-> |[-> | ->]]%Mode_IsValid_spec; vm_compute; split; split; done.
Qed.
