(* ===== verification/Matcher.v ===== *)
(** * Domain patterns (internal/matcher/matcher.go)

    The matcher routes hostnames to provider instances.  Go's [regexp] is the
    interface [RegexpEngine]; what is used of it is the documented meaning of
    the small fragment that [globToRegex] writes ([RegexpGlobLaws]).  The
    file ends with an engine for that fragment, which satisfies the laws. *)
From S2P Require Import Prelude GoStrings Errors Regex.
From Stdlib Require Import ZArith.

(** ** The interface to package regexp *)

Class RegexpEngine := {
  Regexp : Type;
  Compile : string → Regexp + error;
  MatchString : Regexp → string → bool
}.

Definition regex_meta (c : ascii) : bool := str_contains_byte c "\.+*?()|[]{}^$".

(** [regexp.QuoteMeta]. *)
Fixpoint QuoteMeta (s : string) : string :=
  match s with
  | EmptyString => ""
  | String c s => (if regex_meta c then String "\" (String c "") else String c "") ++s QuoteMeta s
  end.

(** [string(c)] for a byte [c]: the UTF-8 encoding of the code point [c]. *)
Definition string_of_byte (c : ascii) : string :=
  let n := N_of_ascii c in
  if (n <? 128)%N then String c ""
  else String (ascii_of_N (192 + n / 64)) (String (ascii_of_N (128 + n mod 64)) "").

(** ** Data *)

Inductive PatternType := PatternTypeGlob | PatternTypeRegex.

Record DomainMatcherConfig := mkMatcherConfig {
  mc_Includes : list string;
  mc_Excludes : list string;
  mc_UseRegex : bool
}.

Section Matcher.
Context `{RegexpEngine}.

Record compiledPattern := mkCompiled { cp_original : string; cp_regex : Regexp }.

Record DomainMatcher := mkMatcher {
  dm_includes : list compiledPattern;
  dm_excludes : list compiledPattern;
  dm_patternType : PatternType
}.

(** ** Operations *)

(** [strings.IndexByte]. *)
Fixpoint IndexByte (s : string) (c : ascii) : option nat :=
  match s with
  | EmptyString => None
  | String d s => if Ascii.eqb d c then Some 0 else S <$> IndexByte s c
  end.

(** The loop of [globToRegex] at [pattern[i:]]; [skip] bytes belong to a
    character class that has been copied. *)
Fixpoint globLoop (skip : nat) (p : string) : string :=
  match p with
  | EmptyString => ""
  | String c rest =>
      match skip with
      | S k => globLoop k rest
      | O =>
          if Ascii.eqb c "*" then ".*" ++s globLoop 0 rest
          else if Ascii.eqb c "?" then "[^.]" ++s globLoop 0 rest
          else if Ascii.eqb c "[" then
            match IndexByte p "]" with
            | None => QuoteMeta (string_of_byte c) ++s globLoop 0 rest
            | Some e => str_take (e + 1) p ++s globLoop e rest
            end
          else if Ascii.eqb c "." then "\." ++s globLoop 0 rest
          else QuoteMeta (string_of_byte c) ++s globLoop 0 rest
      end
  end.

Definition globToRegex (pattern : string) : string := "^" ++s globLoop 0 pattern ++s "$".

Definition compile (pt : PatternType) (pattern : string) : compiledPattern + error :=
  let regexStr :=
    match pt with
    | PatternTypeRegex => pattern
    | PatternTypeGlob => globToRegex pattern
    end in
  let regexStr := if HasPrefix regexStr "(?i)" then regexStr else "(?i)" ++s regexStr in
  match Compile regexStr with
  | inl re => inl (mkCompiled pattern re)
  | inr err => inr err
  end.

(** The two compile loops of [NewDomainMatcher]. *)
Fixpoint compileAll (kind : string) (pt : PatternType) (ps : list string)
  : list compiledPattern + error :=
  match ps with
  | [] => inl []
  | p :: ps =>
      match compile pt p with
      | inr err => inr (EWrapf ("invalid " ++s kind ++s " pattern " ++s Quote p ++s ": ") err)
      | inl cp =>
          match compileAll kind pt ps with
          | inl cps => inl (cp :: cps)
          | inr err => inr err
          end
      end
  end.

Definition NewDomainMatcher (cfg : DomainMatcherConfig) : DomainMatcher + error :=
  if (length (mc_Includes cfg) =? 0)%nat then
    inr (ENew "at least one include pattern is required")
  else
    let pt := if mc_UseRegex cfg then PatternTypeRegex else PatternTypeGlob in
    match compileAll "include" pt (mc_Includes cfg) with
    | inr err => inr err
    | inl includes =>
        match compileAll "exclude" pt (mc_Excludes cfg) with
        | inr err => inr err
        | inl excludes => inl (mkMatcher includes excludes pt)
        end
    end.

Definition Matches (m : DomainMatcher) (hostname : string) : bool :=
  let hostname := ToLower hostname in
  let hostname := TrimSuffix hostname "." in
  if existsb (λ ex, MatchString (cp_regex ex) hostname) (dm_excludes m) then false
  else existsb (λ inc, MatchString (cp_regex inc) hostname) (dm_includes m).

Definition DomainMatcher_String (m : DomainMatcher) : string :=
  let typeStr := match dm_patternType m with
                 | PatternTypeGlob => "glob" | PatternTypeRegex => "regex" end in
  let part name l :=
    match l with
    | [] => []
    | _ => [name ++s "=[" ++s Join ", " (map cp_original l) ++s "]"]
    end in
  let parts := ["type=" ++s typeStr] ++ part "includes" (dm_includes m)
                                     ++ part "excludes" (dm_excludes m) in
  "DomainMatcher{" ++s Join ", " parts ++s "}".

(** ** Evaluation order and normalisation *)

Lemma Matches_spec m h :
  Matches m h = true ↔
  (∀ ex, ex ∈ dm_excludes m →
     MatchString (cp_regex ex) (TrimSuffix (ToLower h) ".") = false) ∧
  (∃ inc, inc ∈ dm_includes m ∧
     MatchString (cp_regex inc) (TrimSuffix (ToLower h) ".") = true).
Proof.
  unfold Matches. rewrite <- existsb_not_elem, <- existsb_elem.
  destruct (existsb _ (dm_excludes m)); naive_solver.
Qed.

Lemma compileAll_Forall2 kind pt ps cps :
  compileAll kind pt ps = inl cps ↔ Forall2 (λ p cp, compile pt p = inl cp) ps cps.
Proof.
  split.
  - revert cps. induction ps as [|p ps IH]; intros cps; simpl; [intros [= <-]; constructor|].
    destruct (compile pt p) eqn:E; [|done]. destruct (compileAll kind pt ps); [|done].
    intros [= <-]. constructor; [done|by apply IH].
  - induction 1 as [|p cp ps cps Hp _ IH]; simpl; [done|]. by rewrite Hp, IH.
Qed.

Lemma compileAll_total kind pt ps :
  (∀ p, p ∈ ps → ∃ cp, compile pt p = inl cp) → ∃ cps, compileAll kind pt ps = inl cps.
Proof.
  induction ps as [|p ps IH]; intros Hp; simpl; [by eexists|].
  destruct (Hp p) as [cp ->]; [by left|].
  destruct IH as [cps ->]; [|by eexists]. intros q Hq. apply Hp. by right.
Qed.

(** Routing is insensitive to case and one trailing dot: a matcher
    answers alike for a hostname, its lower-case form and its normal form. *)
Theorem Matches_case_insensitive m h :
  Matches m (ToLower h) = Matches m h ∧
  Matches m (ToUpper h) = Matches m h ∧
  (HasSuffix h "." = false → Matches m (h ++s ".") = Matches m h).
Proof.
  split_and!.
  - unfold Matches. by rewrite ToLower_idem.
  - unfold Matches. by rewrite ToLower_ToUpper.
  - intros Hs. unfold Matches. rewrite ToLower_app. change (ToLower ".") with ".".
    by rewrite TrimSuffix_app, TrimSuffix_id by (by rewrite HasSuffix_ToLower_dot).
Qed.
End Matcher.

(** ** The regular expressions of bracket-free globs *)

Inductive glob_item := GStar | GOne | GLit (c : ascii).

Definition item_text (i : glob_item) : string :=
  match i with
  | GStar => ".*"
  | GOne => "[^.]"
  | GLit c => QuoteMeta (String c "")
  end.

Fixpoint items_text (l : list glob_item) : string :=
  match l with [] => "" | i :: l => item_text i ++s items_text l end.

Definition newline : ascii := "010".

(** The meaning RE2 gives to the items under the flag [i]: the dot does not
    match a newline, letters match in either case. *)
Definition item_re (i : glob_item) : re :=
  match i with
  | GStar => RStar (RByte (λ d, negb (Ascii.eqb d newline)))
  | GOne => RByte (λ d, negb (Ascii.eqb d "."))
  | GLit c => RByte (λ d, Ascii.eqb (lower_byte c) (lower_byte d))
  end.
Definition items_re (l : list glob_item) : re := foldr (λ i r, RSeq (item_re i) r) REps l.

Definition ascii_byte (c : ascii) : bool := (N_of_ascii c <? 128)%N.
Definition is_ascii (s : string) : bool := str_forallb ascii_byte s.
Definition ascii_item (i : glob_item) : bool :=
  match i with GLit c => ascii_byte c | _ => true end.

(** What the development uses of package regexp: [Compile] accepts the text
    of a sequence of items between the anchors, and [MatchString] on ASCII
    text follows the meaning above. *)
Class RegexpGlobLaws `{RegexpEngine} := {
  Compile_items : ∀ items, forallb ascii_item items = true →
    ∃ r, Compile ("(?i)^" ++s items_text items ++s "$") = inl r ∧
         ∀ s, is_ascii s = true → MatchString r s = full_match (items_re items) s
}.

(** ** A direct definition of glob matching *)

(** [p] holds no character class. *)
Definition bracket_free (p : string) : bool := negb (str_contains_byte "[" p).

Fixpoint glob_match (p : string) : string → bool :=
  match p with
  | EmptyString => λ s, s == ""
  | String c p' =>
      if Ascii.eqb c "*" then
        fix any (s : string) : bool :=
          glob_match p' s ||
          match s with
          | EmptyString => false
          | String d s' => negb (Ascii.eqb d newline) && any s'
          end
      else λ s,
        match s with
        | EmptyString => false
        | String d s' =>
            (if Ascii.eqb c "?" then negb (Ascii.eqb d ".")
             else Ascii.eqb (lower_byte c) (lower_byte d)) && glob_match p' s'
        end
  end.

Fixpoint glob_items (p : string) : list glob_item :=
  match p with
  | EmptyString => []
  | String c p' =>
      (if Ascii.eqb c "*" then GStar else if Ascii.eqb c "?" then GOne else GLit c)
      :: glob_items p'
  end.

Lemma glob_items_ascii p : is_ascii p = true → forallb ascii_item (glob_items p) = true.
Proof.
  unfold is_ascii. induction p as [|c p IH]; simpl; [done|].
  intros [Hc Hp]%andb_true_iff. rewrite (IH Hp), andb_true_r.
  destruct (Ascii.eqb c "*"); [done|]. by destruct (Ascii.eqb c "?").
Qed.

Lemma globLoop_items p :
  bracket_free p = true → is_ascii p = true → globLoop 0 p = items_text (glob_items p).
Proof.
  unfold bracket_free, is_ascii. rewrite negb_true_iff.
  induction p as [|c p IH]; simpl; [done|].
  intros [Hb Hp]%orb_false_iff [Ha Hpa]%andb_true_iff. rewrite (IH Hp Hpa).
  destruct (Ascii.eqb c "*"); [done|]. destruct (Ascii.eqb c "?"); [done|].
  rewrite Ascii.eqb_sym, Hb. unfold string_of_byte. unfold ascii_byte in Ha. rewrite Ha.
  destruct (Ascii.eqb c ".") eqn:Hd; [|done]. by apply Ascii.eqb_eq in Hd as ->.
Qed.

Lemma globToRegex_items p :
  bracket_free p = true → is_ascii p = true →
  globToRegex p = "^" ++s items_text (glob_items p) ++s "$".
Proof. intros. unfold globToRegex. by rewrite globLoop_items. Qed.

Lemma matches_seq_byte f r s :
  matches (RSeq (RByte f) r) s ↔ ∃ d s', s = String d s' ∧ f d = true ∧ matches r s'.
Proof.
  rewrite matches_seq_inv. split.
  - intros (a & b & -> & (d & -> & Hd)%matches_byte_inv & Hb). by exists d, b.
  - intros (d & s' & -> & Hd & Hs). exists (String d ""), s'. by repeat constructor.
Qed.

Lemma matches_seq_star f r s :
  matches (RSeq (RStar (RByte f)) r) s ↔
  matches r s ∨ ∃ d s', s = String d s' ∧ f d = true ∧ matches (RSeq (RStar (RByte f)) r) s'.
Proof.
  rewrite !matches_seq_inv. split.
  - intros (a & b & -> & Ha%matches_star_byte & Hb). destruct a as [|d a]; [by left|].
    right. simpl in Ha. apply andb_true_iff in Ha as [Hd Ha].
    exists d, (a ++s b). split_and!; [done..|]. apply matches_seq_inv.
    exists a, b. split_and!; [done| |done]. by apply matches_star_byte.
  - intros [Hr|(d & s' & -> & Hd & (a & b & -> & Ha & Hb)%matches_seq_inv)].
    + exists "", s. by repeat constructor.
    + exists (String d a), b. split_and!; [done| |done].
      apply (m_star_app _ (String d "")); [by constructor|done].
Qed.

(** The regular expression of a glob and the direct definition agree. *)
Lemma glob_match_items p s : glob_match p s = full_match (items_re (glob_items p)) s.
Proof.
  apply eq_bool_prop_intro. rewrite !Is_true_true, full_match_spec. revert s.
  induction p as [|c p IH]; intros s; simpl.
  { rewrite String.eqb_eq. split; [intros ->; constructor|by intros H; inv H]. }
  destruct (Ascii.eqb c "*"); [|destruct (Ascii.eqb c "?")]; simpl.
  - induction s as [|d s IHs].
    + rewrite orb_false_r, IH, matches_seq_star. naive_solver.
    + rewrite orb_true_iff, andb_true_iff, IH, IHs, (matches_seq_star _ _ (String d s)).
      naive_solver.
  - rewrite matches_seq_byte. destruct s as [|d s]; [naive_solver|].
    rewrite andb_true_iff, IH. naive_solver.
  - rewrite matches_seq_byte. destruct s as [|d s]; [naive_solver|].
    rewrite andb_true_iff, IH. naive_solver.
Qed.

Lemma ascii_lower_byte c : implb (ascii_byte c) (ascii_byte (lower_byte c)) = true.
Proof.
  revert c. apply (all_bytes_spec (λ c, implb (ascii_byte c) (ascii_byte (lower_byte c)))).
  vm_compute. reflexivity.
Qed.

Lemma is_ascii_ToLower h : is_ascii h = true → is_ascii (ToLower h) = true.
Proof.
  unfold is_ascii, ToLower. induction h as [|c h IH]; simpl; [done|].
  intros [Hc Hh]%andb_true_iff. rewrite (IH Hh), andb_true_r.
  pose proof (ascii_lower_byte c) as Hl. by rewrite Hc in Hl.
Qed.

Section GlobMatcher.
Context `{RegexpGlobLaws}.

Lemma compile_glob p :
  bracket_free p = true → is_ascii p = true →
  ∃ cp, compile PatternTypeGlob p = inl cp ∧ cp_original cp = p ∧
        ∀ s, is_ascii s = true → MatchString (cp_regex cp) s = glob_match p s.
Proof.
  intros Hb Ha. destruct (Compile_items (glob_items p)) as (r & Hr & Hm);
    [by apply glob_items_ascii|].
  exists (mkCompiled p r). unfold compile. rewrite globToRegex_items by done.
  change (HasPrefix ("^" ++s ?x) "(?i)") with false. cbv iota.
  change ("(?i)" ++s "^" ++s ?x) with ("(?i)^" ++s x). rewrite Hr.
  split_and!; [done..|]. intros s Hs. simpl. by rewrite Hm, glob_match_items.
Qed.

Lemma compileAll_glob kind ps :
  Forall (λ p, bracket_free p = true ∧ is_ascii p = true) ps →
  ∃ cps, compileAll kind PatternTypeGlob ps = inl cps ∧
    Forall2 (λ p cp, ∀ s, is_ascii s = true →
      MatchString (cp_regex cp) s = glob_match p s) ps cps.
Proof.
  induction 1 as [|p ps [Hb Ha] _ IH]; simpl; [by exists []; split; [|constructor]|].
  destruct (compile_glob p Hb Ha) as (cp & -> & _ & Hm). destruct IH as (cps & -> & Hms).
  exists (cp :: cps). split; [done|by constructor].
Qed.

Lemma existsb_Forall2 ps cps s :
  is_ascii s = true →
  Forall2 (λ p cp, ∀ s, is_ascii s = true →
    MatchString (cp_regex cp) s = glob_match p s) ps cps →
  existsb (λ cp, MatchString (cp_regex cp) s) cps = existsb (λ p, glob_match p s) ps.
Proof. intros Hs. induction 1 as [|p cp ps cps Hp _ IH]; simpl; [done|]. by rewrite Hp, IH. Qed.

Lemma is_ascii_norm h : is_ascii h = true → is_ascii (TrimSuffix (ToLower h) ".") = true.
Proof.
  intros Hl%is_ascii_ToLower. unfold is_ascii in *.
  destruct (TrimSuffix_cases (ToLower h) ".") as [(p & E & ->)|[_ ->]]; [|done].
  rewrite E in Hl. clear -Hl. revert Hl.
  induction p as [|c p IH]; [done|]. rewrite app_cons. simpl.
  intros [-> Hp]%andb_true_iff. by apply IH.
Qed.

(** C38. Glob routing, for at least one include, ASCII patterns without
    brackets and ASCII hostnames: [NewDomainMatcher] does not fail, and the
    matcher accepts a hostname exactly when its normal form matches no
    exclude and some include ([*] any bytes, dots too, [?] one byte but a
    dot, letters in either case). *)
Theorem NewDomainMatcher_glob includes excludes :
  includes ≠ [] →
  Forall (λ p, bracket_free p = true ∧ is_ascii p = true) (includes ++ excludes) →
  ∃ m, NewDomainMatcher (mkMatcherConfig includes excludes false) = inl m ∧
    ∀ h, is_ascii h = true →
      Matches m h = negb (existsb (λ p, glob_match p (TrimSuffix (ToLower h) ".")) excludes)
                    && existsb (λ p, glob_match p (TrimSuffix (ToLower h) ".")) includes.
Proof.
  intros Hne [Hi He]%Forall_app. unfold NewDomainMatcher; simpl.
  destruct includes as [|i incs]; [done|].
  destruct (compileAll_glob "include" (i :: incs) Hi) as (cis & Hci & Hmi).
  destruct (compileAll_glob "exclude" excludes He) as (ces & Hce & Hme).
  cbn [length Nat.eqb]. rewrite Hci, Hce. eexists; split; [done|].
  intros h Hh. unfold Matches; simpl dm_excludes; simpl dm_includes.
  pose proof (is_ascii_norm h Hh) as Hn.
  rewrite (existsb_Forall2 _ _ _ Hn Hmi), (existsb_Forall2 _ _ _ Hn Hme).
  by destruct (existsb _ excludes).
Qed.
End GlobMatcher.

(** ** An engine for the fragment *)

(** Reads the items back, up to the closing anchor. *)
Fixpoint parse_items (s : string) : option (list glob_item) :=
  match s with
  | EmptyString => None
  | String c r =>
      if Ascii.eqb c "$" then match r with EmptyString => Some [] | _ => None end
      else if Ascii.eqb c "." then
        match r with
        | String d r => if Ascii.eqb d "*" then cons GStar <$> parse_items r else None
        | _ => None
        end
      else if Ascii.eqb c "[" then
        match r with
        | String d (String e (String f r)) =>
            if Ascii.eqb d "^" && Ascii.eqb e "." && Ascii.eqb f "]"
            then cons GOne <$> parse_items r else None
        | _ => None
        end
      else if Ascii.eqb c "\" then
        match r with
        | String d r => cons (GLit d) <$> parse_items r
        | _ => None
        end
      else if regex_meta c then None
      else cons (GLit c) <$> parse_items r
  end.

Definition glob_engine : RegexpEngine := {|
  Regexp := list glob_item;
  Compile s :=
    if HasPrefix s "(?i)^" then
      match parse_items (str_drop (String.length "(?i)^") s) with
      | Some items => inl items
      | None => inr (ENew "unsupported pattern")
      end
    else inr (ENew "unsupported pattern");
  MatchString items s := full_match (items_re items) s
|}.

Lemma parse_items_lit c r :
  parse_items (QuoteMeta (String c "") ++s r) = cons (GLit c) <$> parse_items r.
Proof.
  simpl QuoteMeta. rewrite app_empty_r. destruct (regex_meta c) eqn:Hm; [done|].
  rewrite app_cons, app_empty_l.
  assert (∀ d, regex_meta d = true → Ascii.eqb c d = false) as Hd.
  { intros d Hd. apply Ascii.eqb_neq. intros ->. congruence. }
  cbn [parse_items]. by rewrite !Hd, Hm.
Qed.

Lemma parse_items_text items : parse_items (items_text items ++s "$") = Some items.
Proof.
  induction items as [|i items IH]; [done|].
  change (items_text (i :: items)) with (item_text i ++s items_text items).
  rewrite app_assoc_s. destruct i as [| |c].
  { by transitivity (cons GStar <$> parse_items (items_text items ++s "$")); [|rewrite IH]. }
  { by transitivity (cons GOne <$> parse_items (items_text items ++s "$")); [|rewrite IH]. }
  change (item_text (GLit c)) with (QuoteMeta (String c "")).
  by rewrite parse_items_lit, IH.
Qed.

Lemma glob_engine_laws : @RegexpGlobLaws glob_engine.
Proof.
  constructor. intros items _. exists items. split; [|done].
  change ("(?i)^" ++s items_text items ++s "$")
    with (("(?i)^" : string) ++s (items_text items ++s "$")).
  unfold Compile, glob_engine.
  by rewrite HasPrefix_app, str_drop_app, parse_items_text.
Qed.

Lemma NewDomainMatcher_glob_witness :
  ∃ m : @DomainMatcher glob_engine,
    @NewDomainMatcher glob_engine (mkMatcherConfig ["*.example.com"] ["secret.*"] false) = inl m ∧
    @Matches glob_engine m "App.example.com." = true ∧
    @Matches glob_engine m "secret.example.com" = false.
Proof.
  destruct (@NewDomainMatcher_glob glob_engine glob_engine_laws ["*.example.com"] ["secret.*"])
    as (m & Hm & Hs); [discriminate|repeat constructor|].
  exists m. split; [exact Hm|].
  split; rewrite Hs; vm_compute; reflexivity.
Defined.
