(* ===== verification/GoMaps.v ===== *)
(** * Go maps

    A Go map is a [gmap]; ranging over one visits its entries in an order the
    language leaves open, which is the interface [MapOrder]. *)
From S2P Require Import Prelude GoStrings.

(** An iteration order: a permutation of the entries. *)
Class MapOrder := {
  range : ∀ {A : Type}, gmap string A → list (string * A);
  range_perm : ∀ {A : Type} (m : gmap string A), range m ≡ₚ map_to_list m
}.

(** One order, for computing. *)
Definition key_order : MapOrder.
Proof.
  refine {| range A m := map_to_list m |}. done.
Defined.

Section Range.
Context `{MapOrder} {A : Type}.
Implicit Types (m : gmap string A).

Lemma elem_of_range m k v : (k, v) ∈ range m ↔ m !! k = Some v.
Proof. rewrite range_perm. apply elem_of_map_to_list. Qed.

Lemma NoDup_range_keys m : NoDup (map fst (range m)).
Proof.
  assert (map fst (range m) ≡ₚ map fst (map_to_list m)) as -> by (by rewrite range_perm).
  apply NoDup_fst_map_to_list.
Qed.

Lemma NoDup_range m : NoDup (range m).
Proof. rewrite range_perm. apply NoDup_map_to_list. Qed.

Lemma list_to_map_range m : list_to_map (range m) = m.
Proof.
  rewrite <- (list_to_map_to_list m) at 2. apply list_to_map_proper; [apply NoDup_range_keys|apply range_perm].
Qed.

Lemma length_range m : length (range m) = size m.
Proof. by rewrite range_perm, length_map_to_list. Qed.

(** Ranging over the keys. *)
Definition range_keys m : list string := map fst (range m).

Lemma elem_of_range_keys m k : k ∈ range_keys m ↔ is_Some (m !! k).
Proof.
  unfold range_keys. rewrite list_elem_of_fmap. split.
  - intros ([k' v] & -> & Hv%elem_of_range). by eexists.
  - intros [v Hv]. exists (k, v). by rewrite elem_of_range.
Qed.
End Range.

(** A Go [map[string]struct{}] is a [gmap string unit]; its keys. *)
Abbreviation goset := (gmap string unit).

Definition goset_of (l : list string) : goset := list_to_map (map (λ k, (k, tt)) l).

(** [appendUnique] of internal/reconciler/reconciler.go. *)
Definition appendUnique (slice : list string) (value : string) : list string :=
  if existsb (λ v, v == value) slice then slice else slice ++ [value].

Lemma elem_of_appendUnique l v x : x ∈ appendUnique l v ↔ x ∈ l ∨ x = v.
Proof.
  unfold appendUnique. destruct (existsb _ l) eqn:E.
  - apply existsb_elem in E as (y & Hy & ->%String.eqb_eq). naive_solver.
  - rewrite elem_of_app, list_elem_of_singleton. done.
Qed.

Lemma NoDup_appendUnique l v : NoDup l → NoDup (appendUnique l v).
Proof.
  intros Hl. unfold appendUnique. destruct (existsb _ l) eqn:E; [done|].
  rewrite existsb_not_elem in E. apply NoDup_app. split_and!; [done| |apply NoDup_singleton].
  intros x Hx ->%list_elem_of_singleton. apply E in Hx. by rewrite String.eqb_refl in Hx.
Qed.
#[export] Hint Resolve NoDup_appendUnique : go.

(** ** Loops with a set of seen keys

    [if _, exists := seen[k]; exists { continue }; seen[k] = struct{}{};
    out = append(out, a)] *)
Section Seen.
Context {A K : Type} `{Countable K} (key : A → K).
Implicit Types (l : list A) (st : gset K * list A).

Definition emit st (a : A) : gset K * list A :=
  if bool_decide (key a ∈ st.1) then st else ({[ key a ]} ∪ st.1, st.2 ++ [a]).

Definition emit_all l : list A := (fold_left emit l (∅, [])).2.

Definition seen_keys st : Prop := ∀ k, k ∈ st.1 ↔ k ∈ map key st.2.

Lemma emit_seen st a : seen_keys st → seen_keys (emit st a).
Proof.
  intros Hs k. unfold emit. case_bool_decide; [apply Hs|]. simpl.
  rewrite elem_of_union, elem_of_singleton, map_app, elem_of_app, (Hs k). simpl.
  rewrite list_elem_of_singleton. tauto.
Qed.

(** What the loop gives from any state on. *)
Lemma fold_emit l st :
  seen_keys st → NoDup (map key st.2) →
  let st' := fold_left emit l st in
  NoDup (map key st'.2) ∧
  (∀ k, k ∈ map key st'.2 ↔ k ∈ map key st.2 ∨ k ∈ map key l) ∧
  (∀ a, a ∈ st'.2 → a ∈ st.2 ∨ a ∈ l).
Proof.
  revert st. induction l as [|a l IH]; intros st Hs Hn; simpl.
  { split_and!; [done| |]; set_solver. }
  destruct (IH (emit st a)) as (H1 & H2 & H3); [by apply emit_seen| |].
  - unfold emit. case_bool_decide as Hk; [done|]. simpl. rewrite map_app.
    apply NoDup_app. split_and!; [done| |apply NoDup_singleton].
    intros k Hk' ->%list_elem_of_singleton. apply Hk. by apply Hs.
  - split_and!; [done| |].
    + intros k. rewrite H2, elem_of_cons. unfold emit. case_bool_decide as Hk.
      * apply Hs in Hk. naive_solver.
      * simpl. rewrite map_app, elem_of_app. simpl. rewrite list_elem_of_singleton. naive_solver.
    + intros b Hb%H3. rewrite elem_of_cons. revert Hb. unfold emit. case_bool_decide; [naive_solver|].
      simpl. rewrite elem_of_app, list_elem_of_singleton. naive_solver.
Qed.

Lemma emit_all_spec l :
  NoDup (map key (emit_all l)) ∧
  (∀ k, k ∈ map key (emit_all l) ↔ k ∈ map key l) ∧
  (∀ a, a ∈ emit_all l → a ∈ l).
Proof.
  destruct (fold_emit l (∅, [])) as (H1 & H2 & H3); [intros k; set_solver|constructor|].
  split_and!; [done| |].
  - intros k. unfold emit_all. rewrite H2. set_solver.
  - intros a Ha%H3. set_solver.
Qed.

(** Keys that are all different are all kept. *)
Lemma emit_all_NoDup l : NoDup (map key l) → emit_all l = l.
Proof.
  enough (∀ st, seen_keys st → NoDup (map key st.2 ++ map key l) → (fold_left emit l st).2 = st.2 ++ l) as Hall.
  { intros Hn. unfold emit_all. rewrite Hall; [done|intros k; set_solver|done]. }
  induction l as [|a l IH]; intros st Hs Hn; simpl; [by rewrite app_nil_r|].
  assert (key a ∉ st.1) as Ha.
  { rewrite (Hs (key a)). apply NoDup_app in Hn as (_ & Hn & _). intros Hin. apply (Hn _ Hin).
    simpl. by left. }
  rewrite IH; [|by apply emit_seen|]; unfold emit; rewrite bool_decide_eq_false_2 by done; simpl;
    [by rewrite <- app_assoc|]. rewrite map_app, <- app_assoc. exact Hn.
Qed.
End Seen.
