(* ===== verification/Effects.v ===== *)
(** * Effects: the providers' world, calls and panics

    The program acts on DNS servers through the [Provider] interface of
    pkg/provider/provider.go, whose implementations talk to services outside
    the program.  They are functions on a world [W].  Code that calls them is
    written in the monad [M]: it threads the world, a component-local state
    [L], and the sequence of provider calls made so far, and may panic. *)
From S2P Require Import Prelude GoStrings Errors ProviderTypes.

(** A call made on a provider, by the name of the provider instance. *)
Inductive Call :=
| CallPing (prov : string)
| CallList (prov : string)
| CallCreate (prov : string) (record : DNSRecord)
| CallDelete (prov : string) (record : DNSRecord)
| CallUpdate (prov : string) (existing desired : DNSRecord)
| CallClose (prov : string).

#[export] Instance Call_eq_dec : EqDecision Call.
Proof. solve_decision. Defined.

Definition call_prov (c : Call) : string :=
  match c with
  | CallPing p | CallList p | CallCreate p _ | CallDelete p _ | CallUpdate p _ _
  | CallClose p => p
  end.

(** Calls that change DNS data, and calls that may remove some. *)
Definition mutating (c : Call) : bool :=
  match c with CallCreate _ _ | CallDelete _ _ | CallUpdate _ _ _ => true | _ => false end.
Definition deleting (c : Call) : bool :=
  match c with CallDelete _ _ => true | _ => false end.

(** ** The Provider interface, with its optional interfaces Updater,
    Identifiable and Closer *)
Record Provider {W : Type} := mkProvider {
  prov_Name : string;
  prov_Type : string;
  prov_Ping : W → option error * W;
  prov_Capabilities : Capabilities;
  prov_List : W → (list DNSRecord + error) * W;
  prov_Create : DNSRecord → W → option error * W;
  prov_Delete : DNSRecord → W → option error * W;
  prov_Update : option (DNSRecord → DNSRecord → W → option error * W);
  prov_Identity : option ProviderIdentity;
  prov_Close : option (W → option error * W)
}.
Arguments Provider : clear implicits.

Definition IdentityOf {W} (p : Provider W) : ProviderIdentity :=
  match prov_Identity p with
  | Some i => i
  | None => mkIdentity (prov_Type p) "" ""
  end.

(** ** The monad *)
Section Monad.
Context {W L : Type}.

Record St := mkSt { st_world : W; st_calls : list Call; st_local : L }.

(** [None] is a run-time panic. *)
Definition M (A : Type) : Type := St → option A * St.

Definition ret {A} (a : A) : M A := λ s, (Some a, s).
Definition bind {A B} (m : M A) (k : A → M B) : M B := λ s,
  match m s with
  | (Some a, s') => k a s'
  | (None, s') => (None, s')
  end.
Definition panic {A} : M A := λ s, (None, s).
Definition get_local : M L := λ s, (Some (st_local s), s).
Definition modify_local (f : L → L) : M unit := λ s,
  (Some tt, mkSt (st_world s) (st_calls s) (f (st_local s))).

(** One provider call: the world moves and the call is recorded. *)
Definition call {X} (c : Call) (f : W → X * W) : M X := λ s,
  (Some (f (st_world s)).1,
   mkSt (f (st_world s)).2 (st_calls s ++ [c]) (st_local s)).

(** Other outside code (factories, sources): the world moves, no provider
    call is made. *)
Definition with_world {X} (f : W → X * W) : M X := λ s,
  (Some (f (st_world s)).1, mkSt (f (st_world s)).2 (st_calls s) (st_local s)).

(** [for _, a := range l { b = f(b, a) }] *)
Fixpoint foldM {A B} (f : B → A → M B) (b : B) (l : list A) : M B :=
  match l with
  | [] => ret b
  | a :: l => bind (f b a) (λ b, foldM f b l)
  end.
End Monad.

(** Running a bind. *)
Section Run.
Context {W L : Type}.

Lemma bind_get {B} (k : L → M (W:=W) B) s : bind get_local k s = k (st_local s) s.
Proof. done. Qed.
Lemma bind_ret {A B} (a : A) (k : A → M (W:=W) (L:=L) B) s : bind (ret a) k s = k a s.
Proof. done. Qed.
Lemma bind_modify {B} f (k : unit → M (W:=W) (L:=L) B) s :
  bind (modify_local f) k s = k tt (mkSt (st_world s) (st_calls s) (f (st_local s))).
Proof. done. Qed.
Lemma bind_some {A B} (m : M (W:=W) (L:=L) A) (k : A → M B) s a s' :
  m s = (Some a, s') → bind m k s = k a s'.
Proof. unfold bind. by intros ->. Qed.
End Run.
Arguments St : clear implicits.
Arguments M : clear implicits.

Declare Scope effect_scope.
Delimit Scope effect_scope with effect.
Notation "x <- m ;; k" := (bind m (λ x, k))
  (at level 100, m at next level, right associativity) : effect_scope.
Notation "m ;;; k" := (bind m (λ _, k)) (at level 100, right associativity) : effect_scope.
#[global] Open Scope effect_scope.

(** ** A logic of calls and results

    [ensures P Q m]: whatever the world does, every call made by [m]
    satisfies [P] (also when it panics), and a returned value satisfies [Q]. *)
Section Logic.
Context {W L : Type}.
Implicit Types (P : Call → Prop).

Definition ensures {A} P (Q : A → Prop) (m : M W L A) : Prop :=
  ∀ s, ∃ tr, st_calls (m s).2 = st_calls s ++ tr ∧ Forall P tr ∧
             ∀ a, (m s).1 = Some a → Q a.

Lemma ensures_ret {A} P (Q : A → Prop) a : Q a → ensures P Q (ret a).
Proof.
  intros HQ s. exists []. simpl. rewrite app_nil_r. split_and!; [done|constructor|].
  by intros ? [= <-].
Qed.

Lemma ensures_panic {A} P (Q : A → Prop) : ensures P Q panic.
Proof. intros s. exists []. simpl. by rewrite app_nil_r. Qed.

Lemma ensures_bind {A B} P (Q : A → Prop) (R : B → Prop) m k :
  ensures P Q m → (∀ a, Q a → ensures P R (k a)) → ensures P R (bind m k).
Proof.
  intros Hm Hk s. destruct (Hm s) as (tr & Htr & HP & HQ). unfold bind.
  destruct (m s) as [[a|] s'] eqn:E; simpl in *; [|by exists tr].
  destruct (Hk a (HQ a eq_refl) s') as (tr' & Htr' & HP' & HR).
  exists (tr ++ tr'). rewrite Htr', Htr, app_assoc. split_and!; [done| |done].
  by apply Forall_app.
Qed.

Lemma ensures_weaken {A} P P' (Q Q' : A → Prop) m :
  ensures P' Q' m → (∀ c, P' c → P c) → (∀ a, Q' a → Q a) → ensures P Q m.
Proof.
  intros Hm HP HQ s. destruct (Hm s) as (tr & Htr & HPtr & HQa).
  exists tr. split_and!; [done| |by auto]. by eapply Forall_impl.
Qed.

Lemma ensures_call {X} P (Q : X → Prop) c f :
  P c → (∀ x, Q x) → ensures P Q (call c f).
Proof.
  intros HP HQ s. exists [c]. simpl. split_and!; [done|by constructor|by auto].
Qed.

(** A call whose answers are known to satisfy [Q]. *)
Lemma ensures_call_post {X} P (Q : X → Prop) c f :
  P c → (∀ w, Q (f w).1) → ensures P Q (call c f).
Proof.
  intros HP HQ s. exists [c]. simpl. split_and!; [done|by constructor|].
  intros a [= <-]. apply HQ.
Qed.

Lemma ensures_with_world {X} P (Q : X → Prop) f :
  (∀ x, Q x) → ensures P Q (with_world f).
Proof. intros HQ s. exists []. simpl. rewrite app_nil_r. by split_and!. Qed.

Lemma ensures_get P (Q : L → Prop) : (∀ l, Q l) → ensures P Q get_local.
Proof. intros HQ s. exists []. simpl. rewrite app_nil_r. by split_and!. Qed.

Lemma ensures_modify P (Q : unit → Prop) f : Q tt → ensures P Q (modify_local f).
Proof.
  intros HQ s. exists []. simpl. rewrite app_nil_r. split_and!; [done..|]. by intros [].
Qed.

Lemma ensures_foldM {A B} P (I : B → Prop) (f : B → A → M W L B) b l :
  I b → (∀ b a, a ∈ l → I b → ensures P I (f b a)) → ensures P I (foldM f b l).
Proof.
  revert b. induction l as [|a l IH]; intros b Hb Hf; simpl.
  - by apply ensures_ret.
  - eapply ensures_bind; [apply Hf; [by left|done]|].
    intros b' Hb'. apply IH; [done|]. intros ? ? ?. apply Hf. by right.
Qed.

Lemma ensures_True {A} P (Q : A → Prop) m : ensures P (λ _, True) m → (∀ a, Q a) → ensures P Q m.
Proof. intros. eapply ensures_weaken; eauto. Qed.

(** The calls of a run. *)
Lemma ensures_run {A} P (Q : A → Prop) m s :
  ensures P Q m →
  ∃ tr, st_calls (m s).2 = st_calls s ++ tr ∧ Forall P tr.
Proof. intros H. destruct (H s) as (tr & ? & ? & ?). eauto. Qed.

Lemma ensures_result {A} P (Q : A → Prop) m s a s' :
  ensures P Q m → m s = (Some a, s') → Q a.
Proof. intros H E. destruct (H s) as (_ & _ & _ & HQ). rewrite E in HQ. auto. Qed.

(** Two statements about the same calls. *)
Lemma ensures_and {A} P P' (Q Q' : A → Prop) m :
  ensures P Q m → ensures P' Q' m →
  ensures (λ c, P c ∧ P' c) (λ a, Q a ∧ Q' a) m.
Proof.
  intros H H' s. destruct (H s) as (tr & E & HP & HQ), (H' s) as (tr' & E' & HP' & HQ').
  rewrite E in E'. apply app_inv_head in E' as <-.
  exists tr. split_and!; [done| |naive_solver]. apply Forall_and. done.
Qed.
End Logic.

(** Walks through the binds of a program; the leaves are left to the caller
    or to the hints of [ensures_db]. *)
Create HintDb ensures_db discriminated.
#[export] Hint Resolve ensures_panic : ensures_db.

(** [ensures_go] walks through the binds, with no knowledge of intermediate
    results, and leaves the leaves the hints do not solve. *)
Ltac ensures_go :=
  repeat first
    [ progress intros
    | solve [eauto with ensures_db]
    | match goal with
      | |- ensures _ _ (ret _) => apply ensures_ret
      | |- ensures _ _ (bind _ _) => eapply (ensures_bind _ (λ _, True)); [|intros ? _]
      | |- ensures _ _ (if ?b then _ else _) => destruct b eqn:?
      | |- ensures _ _ (match ?x with _ => _ end) => destruct x eqn:?
      end ].

Ltac ensures_step :=
  match goal with
  | |- ensures _ _ (ret _) => apply ensures_ret
  | |- ensures _ _ panic => apply ensures_panic
  | |- ensures _ _ (call _ _) => apply ensures_call
  | |- ensures _ _ (with_world _) => apply ensures_with_world
  | |- ensures _ _ get_local => apply ensures_get
  | |- ensures _ _ (modify_local _) => apply ensures_modify
  | |- ensures _ _ (if ?b then _ else _) => destruct b eqn:?
  | |- ensures _ _ (match ?x with _ => _ end) => destruct x eqn:?
  end.

(** Programs that never panic: from every state they return. *)
Definition returns {W L A} (m : M W L A) : Prop := ∀ s, is_Some (m s).1.

Section Returns.
Context {W L : Type}.

Lemma returns_ret {A} (a : A) : returns (W:=W) (L:=L) (ret a).
Proof. by eexists. Qed.
Lemma returns_call {X} c (f : W → X * W) : returns (L:=L) (call c f).
Proof. by eexists. Qed.
Lemma returns_with_world {X} (f : W → X * W) : returns (L:=L) (with_world f).
Proof. by eexists. Qed.
Lemma returns_get : returns (W:=W) (L:=L) get_local.
Proof. by eexists. Qed.
Lemma returns_modify f : returns (W:=W) (L:=L) (modify_local f).
Proof. by eexists. Qed.
Lemma returns_bind {A B} (m : M W L A) (k : A → M W L B) :
  returns m → (∀ a, returns (k a)) → returns (bind m k).
Proof.
  intros Hm Hk s. unfold bind. destruct (Hm s) as [a Ha].
  destruct (m s) as [r s']; simpl in *. subst r. apply Hk.
Qed.
(** As [returns_bind], knowing what the first program ensures. *)
Lemma returns_bind_post {A B} P (Q : A → Prop) (m : M W L A) (k : A → M W L B) :
  ensures P Q m → returns m → (∀ a, Q a → returns (k a)) → returns (bind m k).
Proof.
  intros HE Hm Hk s. unfold bind. destruct (Hm s) as [a Ha].
  destruct (HE s) as (_ & _ & _ & HQ).
  destruct (m s) as [r s']; simpl in *. subst r. by apply Hk, HQ.
Qed.
Lemma returns_foldM {A B} (f : B → A → M W L B) b l :
  (∀ b a, a ∈ l → returns (f b a)) → returns (foldM f b l).
Proof.
  revert b. induction l as [|a l IH]; intros b Hf; [by eexists|].
  simpl. apply returns_bind; [apply Hf; by left|].
  intros. apply IH. intros. apply Hf. by right.
Qed.
End Returns.
Create HintDb returns_db discriminated.
#[export] Hint Resolve returns_ret returns_call returns_with_world returns_get returns_modify
  returns_bind returns_foldM : returns_db.

Ltac returns_go :=
  repeat first
    [ progress intros
    | solve [eauto with returns_db]
    | match goal with
      | |- returns (bind _ _) => apply returns_bind
      | |- returns (foldM _ _ _) => apply returns_foldM
      | |- returns (if ?b then _ else _) => destruct b eqn:?
      | |- returns (match ?x with _ => _ end) => destruct x eqn:?
      end ].

(** Programs that return without touching the world: no provider call, no
    other outside effect. *)
Definition silent {W L A} (Q : A → Prop) (m : M W L A) : Prop :=
  ∀ s, ∃ a, (m s).1 = Some a ∧ Q a ∧
    st_calls (m s).2 = st_calls s ∧ st_world (m s).2 = st_world s.

Section Silent.
Context {W L : Type}.

Lemma silent_ret {A} (Q : A → Prop) a : Q a → silent (W:=W) (L:=L) Q (ret a).
Proof. intros HQ s. by exists a. Qed.
Lemma silent_get (Q : L → Prop) : (∀ l, Q l) → silent (W:=W) Q get_local.
Proof. intros HQ s. by eexists. Qed.
Lemma silent_modify (Q : unit → Prop) f : Q tt → silent (W:=W) (L:=L) Q (modify_local f).
Proof. intros HQ s. by exists tt. Qed.
Lemma silent_bind {A B} (Q : A → Prop) (Q' : B → Prop) (m : M W L A) (k : A → M W L B) :
  silent Q m → (∀ a, Q a → silent Q' (k a)) → silent Q' (bind m k).
Proof.
  intros Hm Hk s. destruct (Hm s) as (a & Ha & HQ & Hc & Hw). unfold bind.
  destruct (m s) as [r s']; simpl in *. subst r.
  destruct (Hk a HQ s') as (b & Hb & HQ' & Hc' & Hw'). exists b. by rewrite Hc', Hw'.
Qed.
Lemma silent_foldM {A B} (Q : B → Prop) (f : B → A → M W L B) b l :
  Q b → (∀ b a, a ∈ l → Q b → silent Q (f b a)) → silent Q (foldM f b l).
Proof.
  revert b. induction l as [|a l IH]; intros b Hb Hf; simpl; [by apply silent_ret|].
  eapply silent_bind; [apply Hf; [by left|done]|].
  intros b' Hb'. apply IH; [done|]. intros ? ? ?. apply Hf. by right.
Qed.
End Silent.

(** Programs that return, make no provider call and keep the local state; the
    world may move (workload listing, file discovery). *)
Definition quiet {W L A} (Q : A → Prop) (m : M W L A) : Prop :=
  ∀ s, ∃ a, (m s).1 = Some a ∧ Q a ∧
    st_calls (m s).2 = st_calls s ∧ st_local (m s).2 = st_local s.

Section Quiet.
Context {W L : Type}.

Lemma quiet_ret {A} (Q : A → Prop) a : Q a → quiet (W:=W) (L:=L) Q (ret a).
Proof. intros HQ s. by exists a. Qed.
Lemma quiet_with_world {X} (f : W → X * W) : quiet (L:=L) (λ _, True) (with_world f).
Proof. intros s. by eexists. Qed.
Lemma quiet_bind {A B} (Q : A → Prop) (Q' : B → Prop) (m : M W L A) (k : A → M W L B) :
  quiet Q m → (∀ a, Q a → quiet Q' (k a)) → quiet Q' (bind m k).
Proof.
  intros Hm Hk s. destruct (Hm s) as (a & Ha & HQ & Hc & Hl). unfold bind.
  destruct (m s) as [r s']; simpl in *. subst r.
  destruct (Hk a HQ s') as (b & Hb & HQ' & Hc' & Hl'). exists b. by rewrite Hc', Hl'.
Qed.
Lemma quiet_foldM {A B} (Q : B → Prop) (f : B → A → M W L B) b l :
  Q b → (∀ b a, a ∈ l → Q b → quiet Q (f b a)) → quiet Q (foldM f b l).
Proof.
  revert b. induction l as [|a l IH]; intros b Hb Hf; simpl; [by apply quiet_ret|].
  eapply quiet_bind; [apply Hf; [by left|done]|].
  intros b' Hb'. apply IH; [done|]. intros ? ? ?. apply Hf. by right.
Qed.
End Quiet.

(** Whether a program leaves the component-local state alone. *)
Definition keeps_local {W L A} (m : M W L A) : Prop :=
  ∀ s, st_local (m s).2 = st_local s.

Section KeepsLocal.
Context {W L : Type}.

Lemma keeps_ret {A} (a : A) : keeps_local (W:=W) (L:=L) (ret a).
Proof. done. Qed.
Lemma keeps_panic {A} : keeps_local (W:=W) (L:=L) (A:=A) panic.
Proof. done. Qed.
Lemma keeps_call {X} c (f : W → X * W) : keeps_local (L:=L) (call c f).
Proof. done. Qed.
Lemma keeps_with_world {X} (f : W → X * W) : keeps_local (L:=L) (with_world f).
Proof. done. Qed.
Lemma keeps_get : keeps_local (W:=W) (L:=L) get_local.
Proof. done. Qed.
Lemma keeps_bind {A B} (m : M W L A) (k : A → M W L B) :
  keeps_local m → (∀ a, keeps_local (k a)) → keeps_local (bind m k).
Proof.
  intros Hm Hk s. unfold bind. specialize (Hm s). destruct (m s) as [[a|] s']; simpl in *.
  - by rewrite Hk.
  - done.
Qed.
Lemma keeps_foldM {A B} (f : B → A → M W L B) b l :
  (∀ b a, keeps_local (f b a)) → keeps_local (foldM f b l).
Proof.
  intros Hf. revert b. induction l as [|a l IH]; intros b; [done|].
  simpl. apply keeps_bind; auto.
Qed.
End KeepsLocal.
Create HintDb keeps_db discriminated.
#[export] Hint Resolve keeps_ret keeps_panic keeps_call keeps_with_world keeps_get keeps_bind keeps_foldM : keeps_db.

(** Programs that keep a part [f] of the local state. *)
Definition keeps {W L A B} (f : L → B) (m : M W L A) : Prop :=
  ∀ s, f (st_local (m s).2) = f (st_local s).

Section Keeps.
Context {W L B : Type} (f : L → B).

Lemma keeps_of_local {A} (m : M W L A) : keeps_local m → keeps f m.
Proof. intros Hm s. by rewrite Hm. Qed.
Lemma keepsp_ret {A} (a : A) : keeps (W:=W) f (ret a).
Proof. done. Qed.
Lemma keepsp_panic {A} : keeps (W:=W) (A:=A) f panic.
Proof. done. Qed.
Lemma keepsp_call {X} c (g : W → X * W) : keeps f (call c g).
Proof. done. Qed.
Lemma keepsp_get : keeps (W:=W) f get_local.
Proof. done. Qed.
Lemma keepsp_modify g : (∀ l, f (g l) = f l) → keeps (W:=W) f (modify_local g).
Proof. intros Hg s. apply Hg. Qed.
Lemma keepsp_bind {A C} (m : M W L A) (k : A → M W L C) :
  keeps f m → (∀ a, keeps f (k a)) → keeps f (bind m k).
Proof.
  intros Hm Hk s. unfold bind. specialize (Hm s). destruct (m s) as [[a|] s']; simpl in *.
  - by rewrite Hk.
  - done.
Qed.
Lemma keepsp_foldM {A C} (g : C → A → M W L C) b l :
  (∀ b a, keeps f (g b a)) → keeps f (foldM g b l).
Proof.
  intros Hg. revert b. induction l as [|a l IH]; intros b; [done|].
  simpl. apply keepsp_bind; auto.
Qed.
End Keeps.
#[export] Hint Resolve keepsp_ret keepsp_panic keepsp_call keepsp_get keepsp_modify : keeps_db.

Ltac keeps_go :=
  repeat first
    [ progress intros
    | solve [eauto with keeps_db]
    | match goal with
      | |- keeps _ (bind _ _) => apply keepsp_bind
      | |- keeps _ (foldM _ _ _) => apply keepsp_foldM
      | |- keeps _ (if ?b then _ else _) => destruct b eqn:?
      | |- keeps _ (match ?x with _ => _ end) => destruct x eqn:?
      end ].

(** ** Running with a known local state *)
Section Triples.
Context {W L : Type}.
Implicit Types (P : Call → Prop).

(** From local states satisfying [pre]: the calls satisfy [P], and a
    returned value with the final local state satisfies [post]. *)
Definition triple {A} (pre : L → Prop) P (post : A → L → Prop) (m : M W L A) : Prop :=
  ∀ s, pre (st_local s) → ∃ tr, st_calls (m s).2 = st_calls s ++ tr ∧ Forall P tr ∧
    ∀ a, (m s).1 = Some a → post a (st_local (m s).2).

Lemma triple_ret {A} (pre : L → Prop) P (post : A → L → Prop) a :
  (∀ l, pre l → post a l) → triple pre P post (ret a).
Proof.
  intros Hp s Hs. exists []. simpl. rewrite app_nil_r. split_and!; [done|constructor|].
  intros ? [= <-]. by apply Hp.
Qed.

Lemma triple_get (pre : L → Prop) P (post : L → L → Prop) :
  (∀ l, pre l → post l l) → triple pre P post get_local.
Proof.
  intros Hp s Hs. exists []. simpl. rewrite app_nil_r. split_and!; [done|constructor|].
  intros ? [= <-]. by apply Hp.
Qed.

Lemma triple_modify (pre : L → Prop) P (post : unit → L → Prop) g :
  (∀ l, pre l → post tt (g l)) → triple pre P post (modify_local g).
Proof.
  intros Hp s Hs. exists []. simpl. rewrite app_nil_r. split_and!; [done|constructor|].
  intros ? [= <-]. by apply Hp.
Qed.

Lemma triple_bind {A B} (pre : L → Prop) P (mid : A → L → Prop) (post : B → L → Prop) m k :
  triple pre P mid m → (∀ a, triple (mid a) P post (k a)) → triple pre P post (bind m k).
Proof.
  intros Hm Hk s Hs. destruct (Hm s Hs) as (tr & Htr & HP & HQ). unfold bind.
  destruct (m s) as [[a|] s'] eqn:E; simpl in *; [|by exists tr].
  destruct (Hk a s' (HQ a eq_refl)) as (tr' & Htr' & HP' & HR).
  exists (tr ++ tr'). rewrite Htr', Htr, app_assoc. split_and!; [done| |done].
  by apply Forall_app.
Qed.

(** The pure part of a precondition. *)
Lemma triple_pure {A} (φ : Prop) (pre : L → Prop) P (post : A → L → Prop) m :
  (φ → triple pre P post m) → triple (λ l, φ ∧ pre l) P post m.
Proof. intros Hm s [Hφ Hs]. by apply Hm. Qed.

Lemma triple_of_ensures {A} (φ : Prop) P (Q : A → Prop) m :
  (φ → ensures P Q m) → triple (λ _, φ) P (λ a _, φ ∧ Q a) m.
Proof.
  intros Hm s Hφ. destruct (Hm Hφ s) as (tr & ? & ? & HQ). exists tr.
  split_and!; [done..|]. intros a Ha. by split; [|apply HQ].
Qed.

Lemma triple_ensures {A B} (f : L → B) x P (Q : A → Prop) m :
  ensures P Q m → keeps f m →
  triple (λ l, f l = x) P (λ a l, Q a ∧ f l = x) m.
Proof.
  intros He Hk s Hs. destruct (He s) as (tr & ? & ? & HQ). exists tr. split_and!; [done..|].
  intros a Ha. split; [by apply HQ|]. by rewrite Hk.
Qed.
End Triples.
