(* ===== verification/Instance.v ===== *)
(** * Provider instances (pkg/provider/instance.go)

    A provider with its domain matcher and record configuration.  Timing and
    Prometheus counters are left out: they have no effect on records. *)
From S2P Require Import Prelude GoStrings Errors ProviderTypes Matcher GoMaps Effects.
From Stdlib Require Import ZArith.

Record RecoveredHostname := mkRecovered {
  rh_Hostname : string;
  rh_Metadata : nilable (gmap string string)
}.

(** ** Metadata filters *)

Definition sliceContainsString (haystack : list string) (needle : string) : bool :=
  existsb (λ s, s == needle) haystack.

(** The conjunction over the filters does not depend on the range order. *)
Definition matchesMetadataFilters (metadata : gmap string string)
    (filters : gmap string (list string)) : bool :=
  if (size filters =? 0)%nat then true
  else forallb (λ '(key, allowed),
         match metadata !! key with
         | None => true
         | Some value => sliceContainsString allowed value
         end) (map_to_list filters).

(** The record types of the data records: TXT (and unknown types) excluded. *)
Definition is_data_type (t : RecordType) : bool :=
  (t == RecordTypeA) || (t == RecordTypeAAAA) || (t == RecordTypeCNAME)
  || (t == RecordTypeSRV) || (t == RecordTypeHTTPS).

Section Instance.
Context `{RegexpEngine} {W L : Type}.

Record ProviderInstance := mkInstance {
  pi_Provider : Provider W;
  pi_Matcher : DomainMatcher;
  pi_RecordType : RecordType;
  pi_Target : string;
  pi_dynamicTarget : nilable string;
  pi_TTL : Z;
  pi_Mode : OperationalMode;
  pi_InstanceID : string;
  pi_MetadataFilters : gmap string (list string);
  pi_Identity : ProviderIdentity
}.

Definition pi_Name (pi : ProviderInstance) : string := prov_Name (pi_Provider pi).
Definition pi_Type (pi : ProviderInstance) : string := prov_Type (pi_Provider pi).

Definition EffectiveTarget (pi : ProviderInstance) : string :=
  match pi_dynamicTarget pi with Some v => v | None => pi_Target pi end.

Definition SetDynamicTarget (target : string) (pi : ProviderInstance) : ProviderInstance :=
  mkInstance (pi_Provider pi) (pi_Matcher pi) (pi_RecordType pi) (pi_Target pi)
    (if target == "" then None else Some target)
    (pi_TTL pi) (pi_Mode pi) (pi_InstanceID pi) (pi_MetadataFilters pi) (pi_Identity pi).

Definition pi_Matches (pi : ProviderInstance) (hostname : string) : bool :=
  Matches (pi_Matcher pi) hostname.

Definition MatchesWithMetadata (pi : ProviderInstance) (hostname : string)
    (metadata : gmap string string) : bool :=
  if negb (Matches (pi_Matcher pi) hostname) then false
  else matchesMetadataFilters metadata (pi_MetadataFilters pi).

(** *** Calls on the underlying provider *)

Definition prov_list (p : Provider W) : M W L (list DNSRecord + error) :=
  call (CallList (prov_Name p)) (prov_List p).
Definition prov_create (p : Provider W) (r : DNSRecord) : M W L (option error) :=
  call (CallCreate (prov_Name p) r) (prov_Create p r).
Definition prov_delete (p : Provider W) (r : DNSRecord) : M W L (option error) :=
  call (CallDelete (prov_Name p) r) (prov_Delete p r).

(** *** Operations *)

Definition CreateRecordWithValues (pi : ProviderInstance) (hostname : string)
    (recordType : RecordType) (target : string) (ttl : Z) (srvData : nilable SRVData)
    (metadata : gmap string string) : M W L (option error) :=
  prov_create (pi_Provider pi)
    (mkRecord hostname recordType target ttl "" srvData None metadata).

Definition CreateRecord (pi : ProviderInstance) (hostname : string) : M W L (option error) :=
  CreateRecordWithValues pi hostname (pi_RecordType pi) (EffectiveTarget pi) (pi_TTL pi)
    None ∅.

Definition DeleteRecord (pi : ProviderInstance) (hostname : string) : M W L (option error) :=
  prov_delete (pi_Provider pi)
    (mkRecord hostname (pi_RecordType pi) (EffectiveTarget pi) 0 "" None None ∅).

Definition UpdateRecord (pi : ProviderInstance) (existing desired : DNSRecord)
  : M W L (option error) :=
  match prov_Update (pi_Provider pi) with
  | Some update =>
      call (CallUpdate (pi_Name pi) existing desired) (update existing desired)
  | None =>
      err <- prov_delete (pi_Provider pi) existing ;;
      match err with
      | Some e =>
          if negb (errors_Is e ErrNotFound) then ret (Some e)
          else prov_create (pi_Provider pi) desired
      | None => prov_create (pi_Provider pi) desired
      end
  end.

Definition GetExistingRecords (pi : ProviderInstance) (hostname : string)
  : M W L (list DNSRecord + error) :=
  res <- prov_list (pi_Provider pi) ;;
  ret (match res with
       | inr err => inr err
       | inl allRecords =>
           inl (List.filter (λ r, EqualFold (r_Hostname r) hostname && is_data_type (r_Type r))
                            allRecords)
       end).

Definition DeleteRecordByTarget (pi : ProviderInstance) (hostname : string)
    (recordType : RecordType) (target : string) : M W L (option error) :=
  prov_delete (pi_Provider pi) (mkRecord hostname recordType target 0 "" None None ∅).

Definition DeleteSRVRecord (pi : ProviderInstance) (hostname target : string)
    (srvData : nilable SRVData) : M W L (option error) :=
  prov_delete (pi_Provider pi) (mkRecord hostname RecordTypeSRV target 0 "" srvData None ∅).

Definition CreateOwnershipRecord (pi : ProviderInstance) (hostname : string)
    (metadata : gmap string string) : M W L (option error) :=
  err <- prov_create (pi_Provider pi)
           (OwnershipRecord hostname (pi_TTL pi) (pi_InstanceID pi) metadata) ;;
  ret (match err with
       | Some e => if IsConflict e then None else Some e
       | None => None
       end).

Definition DeleteOwnershipRecord (pi : ProviderInstance) (hostname : string)
  : M W L (option error) :=
  prov_delete (pi_Provider pi) (OwnershipRecord hostname (pi_TTL pi) (pi_InstanceID pi) ∅).

Definition HasOwnershipRecord (pi : ProviderInstance) (hostname : string)
  : M W L (bool + error) :=
  let ownershipName := OwnershipRecordName hostname in
  res <- prov_list (pi_Provider pi) ;;
  ret (match res with
       | inr err => inr err
       | inl records =>
           inl (existsb (λ r, (r_Hostname r == ownershipName) && (r_Type r == RecordTypeTXT)
                              && MatchesOwnership (r_Target r) (pi_InstanceID pi)) records)
       end).

(** The loop body of [RecoverOwnedHostnames]. *)
Definition recoverRecord (instanceID : string) (r : DNSRecord) : option RecoveredHostname :=
  if (r_Type r == RecordTypeTXT) && IsOwnershipRecord (r_Hostname r) then
    let '(isOwned, _, metadata) := ParseOwnershipValue (r_Target r) in
    if negb isOwned then None
    else if negb (MatchesOwnership (r_Target r) instanceID) then None
    else
      let hostname := ExtractHostnameFromOwnership (r_Hostname r) in
      if hostname != "" then Some (mkRecovered hostname metadata) else None
  else None.

Definition RecoverOwnedHostnames (pi : ProviderInstance)
  : M W L (list RecoveredHostname + error) :=
  res <- prov_list (pi_Provider pi) ;;
  ret (match res with
       | inr err => inr err
       | inl records => inl (omap (recoverRecord (pi_InstanceID pi)) records)
       end).

Definition pi_Ping (pi : ProviderInstance) : M W L (option error) :=
  call (CallPing (pi_Name pi)) (prov_Ping (pi_Provider pi)).
End Instance.
Arguments ProviderInstance {_} _ : assert.

(** ** Facts *)

Lemma matchesMetadataFilters_spec metadata filters :
  matchesMetadataFilters metadata filters = true ↔
  ∀ key allowed value, filters !! key = Some allowed → metadata !! key = Some value →
    value ∈ allowed.
Proof.
  unfold matchesMetadataFilters. destruct (size filters =? 0)%nat eqn:Hs.
  { apply Nat.eqb_eq, map_size_empty_iff in Hs as ->. split; [|done].
    intros _ ? ? ?. by rewrite lookup_empty. }
  rewrite List.forallb_forall. setoid_rewrite <- list_elem_of_In. split.
  - intros Hf key allowed value Hk Hv.
    specialize (Hf (key, allowed) ltac:(by apply elem_of_map_to_list)). simpl in Hf.
    rewrite Hv in Hf. unfold sliceContainsString in Hf.
    by apply existsb_elem in Hf as (x & Hx & ->%String.eqb_eq).
  - intros Hf [key allowed] Hk%elem_of_map_to_list.
    destruct (metadata !! key) as [value|] eqn:Hv; [|done].
    unfold sliceContainsString. apply existsb_elem. exists value.
    split; [by eapply Hf|apply String.eqb_refl].
Qed.

(** Which calls each operation makes, and that it leaves the local state alone. *)
Section InstanceCalls.
Context `{RegexpEngine} {W L : Type}.
Implicit Types (pi : ProviderInstance W).

Definition calls_on (n : string) (c : Call) : Prop := call_prov c = n.

Lemma ensures_prov_list (P : Call → Prop) (p : Provider W) :
  P (CallList (prov_Name p)) → ensures (L:=L) P (λ _, True) (prov_list p).
Proof. intros. by apply ensures_call. Qed.

Lemma ensures_prov_create (P : Call → Prop) (p : Provider W) r :
  P (CallCreate (prov_Name p) r) → ensures (L:=L) P (λ _, True) (prov_create p r).
Proof. intros. by apply ensures_call. Qed.

Lemma ensures_prov_delete (P : Call → Prop) (p : Provider W) r :
  P (CallDelete (prov_Name p) r) → ensures (L:=L) P (λ _, True) (prov_delete p r).
Proof. intros. by apply ensures_call. Qed.

(** Updating issues the native update, or a delete of the existing record
    followed, unless that failed, by a create of the desired one. *)
Lemma ensures_UpdateRecord (P : Call → Prop) pi existing desired :
  P (CallUpdate (pi_Name pi) existing desired) →
  P (CallDelete (pi_Name pi) existing) → P (CallCreate (pi_Name pi) desired) →
  ensures (L:=L) P (λ _, True) (UpdateRecord pi existing desired).
Proof.
  intros HU HD HC. unfold UpdateRecord.
  destruct (prov_Update _); [by apply ensures_call|].
  eapply ensures_bind; [by apply ensures_prov_delete|]. intros [e|] _.
  - destruct (negb _); [by apply ensures_ret|by apply ensures_prov_create].
  - by apply ensures_prov_create.
Qed.

Lemma ensures_CreateOwnershipRecord (P : Call → Prop) pi h m :
  P (CallCreate (pi_Name pi) (OwnershipRecord h (pi_TTL pi) (pi_InstanceID pi) m)) →
  ensures (L:=L) P (λ _, True) (CreateOwnershipRecord pi h m).
Proof.
  intros HC. eapply ensures_bind; [by apply ensures_prov_create|].
  intros. by apply ensures_ret.
Qed.

Lemma ensures_GetExistingRecords (P : Call → Prop) pi h :
  P (CallList (pi_Name pi)) → ensures (L:=L) P (λ _, True) (GetExistingRecords pi h).
Proof.
  intros HL. eapply ensures_bind; [by apply ensures_prov_list|].
  intros. by apply ensures_ret.
Qed.

Lemma ensures_HasOwnershipRecord (P : Call → Prop) pi h :
  P (CallList (pi_Name pi)) → ensures (L:=L) P (λ _, True) (HasOwnershipRecord pi h).
Proof.
  intros HL. eapply ensures_bind; [by apply ensures_prov_list|].
  intros. by apply ensures_ret.
Qed.

Lemma ensures_RecoverOwnedHostnames (P : Call → Prop) pi :
  P (CallList (pi_Name pi)) → ensures (L:=L) P (λ _, True) (RecoverOwnedHostnames pi).
Proof.
  intros HL. eapply ensures_bind; [by apply ensures_prov_list|].
  intros. by apply ensures_ret.
Qed.
End InstanceCalls.
#[export] Hint Resolve ensures_prov_list ensures_prov_create ensures_prov_delete
  ensures_UpdateRecord ensures_CreateOwnershipRecord ensures_GetExistingRecords
  ensures_HasOwnershipRecord ensures_RecoverOwnedHostnames : ensures_db.

(** ** Recovering what was created *)

(** The ownership record an instance creates is recovered by instances with
    the same identifier, and by no other. *)
Lemma recoverRecord_OwnershipRecord id id' h ttl m :
  no_comma id → clean_metadata m → h ≠ "" →
  recoverRecord id' (OwnershipRecord h ttl id m)
  = if id == id' then Some (mkRecovered h (if decide (unreserved m = ∅) then None else Some (unreserved m)))
    else None.
Proof.
  intros Hid Hm Hh. unfold recoverRecord, OwnershipRecord; simpl.
  assert (IsOwnershipRecord (OwnershipRecordName h) = true) as ->
    by (apply IsOwnershipRecord_spec; eauto).
  rewrite Parse_Make, Extract_OwnershipRecordName by done. simpl.
  unfold MatchesOwnership. rewrite Parse_Make by done. simpl.
  destruct (String.eqb_spec id id'); simpl; [|done].
  by destruct (String.eqb_spec h "").
Qed.

(** Only dnsweaver's own TXT records are recovered. *)
Lemma recoverRecord_sound id r rh :
  recoverRecord id r = Some rh →
  r_Type r = RecordTypeTXT ∧ r_Hostname r = OwnershipRecordName (rh_Hostname rh) ∧
  rh_Hostname rh ≠ "" ∧ MatchesOwnership (r_Target r) id = true.
Proof.
  unfold recoverRecord.
  destruct ((r_Type r == RecordTypeTXT) && IsOwnershipRecord (r_Hostname r))%bool eqn:E; [|done].
  apply andb_true_iff in E as [Ht%String.eqb_eq Ho].
  destruct (ParseOwnershipValue (r_Target r)) as [[isOwned iid] meta].
  destruct (negb isOwned); [done|]. destruct (MatchesOwnership _ _) eqn:Hm; [|done]. simpl.
  apply IsOwnershipRecord_spec in Ho as (h & Hh & Hn). rewrite Hn, Extract_OwnershipRecordName.
  destruct (String.eqb_spec h ""); [done|]. by intros [= <-].
Qed.

(** The hostnames recovered, told from the record alone: those [n] of a TXT
    record named [_dnsweaver.n] whose text is a marker of the instance. *)
Lemma recoverRecord_spec id r n :
  (∃ rh, recoverRecord id r = Some rh ∧ rh_Hostname rh = n) ↔
  r_Type r = "TXT" ∧ r_Hostname r = "_dnsweaver." ++s n ∧ n ≠ "" ∧ marker_of id (r_Target r).
Proof.
  rewrite <- MatchesOwnership_spec. split.
  - intros (rh & Hr & <-). by apply recoverRecord_sound in Hr as (? & ? & ? & ?).
  - intros (Ht & Hh & Hn & Hm). unfold recoverRecord. rewrite Ht, Hh.
    change ("_dnsweaver." ++s n) with (OwnershipRecordName n).
    assert (IsOwnershipRecord (OwnershipRecordName n) = true) as ->
      by (apply IsOwnershipRecord_spec; eauto).
    rewrite Extract_OwnershipRecordName, Hm. unfold MatchesOwnership in Hm.
    destruct (ParseOwnershipValue (r_Target r)) as [[[|] i] m]; [|done].
    destruct (String.eqb_spec n "") as [|_]; [done|]. by eexists.
Qed.
