(* ===== verification/NetIP.v ===== *)
(** * IP address texts

    [net.ParseIP] of Go's standard library, as a parser from text to the 16
    bytes of an [net.IP], and [To4]. *)
From S2P Require Import Prelude GoStrings.
From Stdlib Require Import ZArith.
Local Open Scope Z_scope.

(** One decimal field of an IPv4 address: 1 to 3 digits, no leading zero, at
    most 255. *)
Definition parseIPv4Field (s : string) : option Z :=
  match s with
  | EmptyString => None
  | String c t =>
      if Ascii.eqb c "0" && negb (t == "") then None
      else if (3 <? String.length s)%nat then None
      else match digits_val 0 s with
           | Some v => if v <=? 255 then Some v else None
           | None => None
           end
  end.

Definition parseIPv4 (s : string) : option (list Z) :=
  match Split "." s with
  | [a; b; c; d] =>
      match parseIPv4Field a, parseIPv4Field b, parseIPv4Field c, parseIPv4Field d with
      | Some a, Some b, Some c, Some d => Some [a; b; c; d]
      | _, _, _, _ => None
      end
  | _ => None
  end.

Definition hex_val (c : ascii) : option Z :=
  let n := Z.of_N (N_of_ascii c) in
  if (48 <=? n) && (n <=? 57) then Some (n - 48)
  else if (97 <=? n) && (n <=? 102) then Some (n - 87)
  else if (65 <=? n) && (n <=? 70) then Some (n - 55)
  else None.

(** The hexadecimal digits at the start of [s]: how many, their value, the rest. *)
Fixpoint hex_group (off : nat) (acc : Z) (s : string) : nat * Z * string :=
  match s with
  | EmptyString => (off, acc, s)
  | String c t =>
      match hex_val c with
      | Some d => hex_group (S off) (acc * 16 + d) t
      | None => (off, acc, s)
      end
  end.

(** The group loop of [parseIPv6]; [ip] holds the bytes read so far and
    [ell] the position of a double colon.  At most eight groups are read. *)
Fixpoint groups6 (fuel : nat) (s : string) (ip : list Z) (ell : option nat)
  : option (list Z * option nat * string) :=
  match fuel with
  | O => Some (ip, ell, s)
  | S fuel =>
      let '(off, acc, rest) := hex_group 0 0 s in
      if (4 <? off)%nat then None
      else if (off =? 0)%nat then None
      else
        let next :=
          let ip := ip ++ [acc / 256; acc mod 256] in
          match rest with
          | EmptyString => Some (ip, ell, "")
          | String c rest =>
              if negb (Ascii.eqb c ":") then None
              else if rest == "" then None
              else match rest with
                   | String d rest' =>
                       if Ascii.eqb d ":" then
                         match ell with
                         | Some _ => None
                         | None =>
                             if rest' == "" then Some (ip, Some (length ip), "")
                             else groups6 fuel rest' ip (Some (length ip))
                         end
                       else groups6 fuel rest ip ell
                   | EmptyString => None
                   end
          end in
        if HasPrefix rest "." then
          if bool_decide (ell = None) && negb (length ip =? 12)%nat then None
          else if (16 <? length ip + 4)%nat then None
          else match parseIPv4 s with
               | Some v4 => Some (ip ++ v4, ell, "")
               | None => None
               end
        else next
  end.

Definition finish6 (r : option (list Z * option nat * string)) : option (list Z) :=
  match r with
  | Some (ip, ell, rest) =>
      if negb (rest == "") then None
      else if (length ip <? 16)%nat then
        match ell with
        | None => None
        | Some e => Some (take e ip ++ replicate (16 - length ip) 0 ++ drop e ip)
        end
      else match ell with Some _ => None | None => Some ip end
  | None => None
  end.

Definition parseIPv6 (s : string) : option (list Z) :=
  if HasPrefix s "::" then
    let s := str_drop 2 s in
    if s == "" then Some (replicate 16 0) else finish6 (groups6 8 s [] (Some 0%nat))
  else finish6 (groups6 8 s [] None).

(** The first of ['.'], [':'] and ['%'] decides the family. *)
Fixpoint ip_kind (s : string) : option ascii :=
  match s with
  | EmptyString => None
  | String c t =>
      if Ascii.eqb c "." || Ascii.eqb c ":" || Ascii.eqb c "%" then Some c else ip_kind t
  end.

Definition v4_prefix : list Z := [0;0;0;0;0;0;0;0;0;0;255;255].

(** [net.ParseIP]: a text with a zone ([%]) is refused. *)
Definition ParseIP (s : string) : option (list Z) :=
  match ip_kind s with
  | Some c =>
      if Ascii.eqb c "." then app v4_prefix <$> parseIPv4 s
      else if Ascii.eqb c ":" then
        if str_contains_byte "%" s then None else parseIPv6 s
      else None
  | None => None
  end.

(** [ip.To4()]. *)
Definition To4 (ip : list Z) : option (list Z) :=
  if bool_decide (take 12 ip = v4_prefix) then Some (drop 12 ip) else None.

Example parse_v4 : ParseIP "192.0.2.10" = Some (v4_prefix ++ [192; 0; 2; 10]).
Proof. reflexivity. Qed.
Example parse_v4_zero : ParseIP "192.0.02.10" = None.
Proof. reflexivity. Qed.
Example parse_v6 : ParseIP "2001:db8::1" = Some [32;1;13;184;0;0;0;0;0;0;0;0;0;0;0;1].
Proof. reflexivity. Qed.
Example parse_v6_v4 : ParseIP "::ffff:10.0.0.1" = Some (v4_prefix ++ [10; 0; 0; 1]).
Proof. reflexivity. Qed.
Example parse_v6_bad : ParseIP "1:2:3:4:5:6:7" = None ∧ ParseIP "1::2::3" = None
  ∧ ParseIP ":1" = None ∧ ParseIP "fe80::1%eth0" = None ∧ ParseIP "1:2:3:4:5:6:7:8:9" = None.
Proof. repeat split. Qed.

(** Every parsed address has 16 bytes. *)
Lemma parseIPv4_length s l : parseIPv4 s = Some l → length l = 4%nat.
Proof. unfold parseIPv4. repeat case_match; intros; simplify_eq; done. Qed.

(** What the group loop keeps: at most 16 bytes, the double colon inside. *)
Definition groups6_ok (ip : list Z) (ell : option nat) : Prop :=
  (length ip ≤ 16)%nat ∧ ∀ e, ell = Some e → (e ≤ length ip)%nat.

Lemma groups6_ok_app ip ell l :
  groups6_ok ip ell → (length ip + length l ≤ 16)%nat → groups6_ok (ip ++ l) ell.
Proof. intros [? He] ?. split; rewrite length_app; [lia|]. intros e ?%He. lia. Qed.

Lemma groups6_ok_here ip : (length ip ≤ 16)%nat → groups6_ok ip (Some (length ip)).
Proof. intros ?. split; [done|]. by intros e [= <-]. Qed.

Lemma groups6_bounds fuel s ip ell ip' ell' rest :
  groups6 fuel s ip ell = Some (ip', ell', rest) →
  (length ip + 2 * fuel ≤ 16)%nat → groups6_ok ip ell → groups6_ok ip' ell'.
Proof.
  revert s ip ell. induction fuel as [|fuel IH]; intros s ip ell; cbn [groups6].
  { by intros [= <- <- <-]. }
  destruct (hex_group 0 0 s) as [[off acc] r]. intros Hg Hlen Hok.
  assert (length (ip ++ [(acc / 256)%Z; (acc mod 256)%Z]) = (length ip + 2)%nat) as Hl
    by (rewrite length_app; done).
  assert (groups6_ok (ip ++ [(acc / 256)%Z; (acc mod 256)%Z]) ell) as Hok'
    by (apply groups6_ok_app; [done|simpl; lia]).
  assert (groups6_ok (ip ++ [(acc / 256)%Z; (acc mod 256)%Z])
            (Some (length (ip ++ [(acc / 256)%Z; (acc mod 256)%Z])))) as Hh
    by (apply groups6_ok_here; lia).
  destruct (4 <? off)%nat; [done|]. destruct (off =? 0)%nat; [done|].
  destruct (HasPrefix r ".").
  - destruct (_ && _); [done|]. destruct (16 <? length ip + 4)%nat eqn:H16; [done|].
    destruct (parseIPv4 s) as [v4|] eqn:Hv4; [|done]. simplify_eq.
    apply Nat.ltb_ge in H16. apply groups6_ok_app; [done|].
    rewrite (parseIPv4_length s _ Hv4). lia.
  - destruct r as [|c r]; [by simplify_eq|]. destruct (negb _); [done|].
    destruct (r == ""); [done|]. destruct r as [|d r']; [done|]. destruct (Ascii.eqb d ":").
    + destruct ell; [done|]. destruct (r' == ""); [by simplify_eq|].
      eapply IH; [done|lia|done].
    + eapply IH; [done|lia|done].
Qed.

Lemma finish6_length r l :
  (∀ ip ell rest, r = Some (ip, ell, rest) → groups6_ok ip ell) →
  finish6 r = Some l → length l = 16%nat.
Proof.
  unfold finish6. destruct r as [[[ip ell] rest]|]; [|done].
  intros Hb. destruct (Hb _ _ _ eq_refl) as [Hl He].
  repeat case_match; intros; simplify_eq; bool_to_prop; [|lia].
  rewrite !length_app, length_take, length_replicate, length_drop.
  specialize (He _ eq_refl). lia.
Qed.

Lemma parseIPv6_length s l : parseIPv6 s = Some l → length l = 16%nat.
Proof.
  unfold parseIPv6. destruct (HasPrefix s "::").
  - destruct (str_drop 2 s == ""); [by intros [= <-]|]. apply finish6_length.
    intros ip ell rest Hg. eapply groups6_bounds; [done|simpl; lia|].
    split; simpl; [lia|]. intros e [= <-]. lia.
  - apply finish6_length. intros ip ell rest Hg.
    eapply groups6_bounds; [done|simpl; lia|]. split; simpl; [lia|done].
Qed.

Lemma ParseIP_length s l : ParseIP s = Some l → length l = 16%nat.
Proof.
  unfold ParseIP. destruct (ip_kind s) as [c|]; [|done].
  destruct (Ascii.eqb c ".").
  - intros (l4 & Hl & ->)%fmap_Some. rewrite length_app, (parseIPv4_length s _ Hl). done.
  - destruct (Ascii.eqb c ":"); [|done]. destruct (str_contains_byte "%" s); [done|].
    apply parseIPv6_length.
Qed.

(** ** [net.IP.String] *)

Section IPText.
Local Open Scope nat_scope.

Definition dotted (ip : list Z) : string := Join "." (map itoa ip).

(** A 16-bit group in hexadecimal, without leading zeros. *)
Definition hex_nibble (n : Z) : string := String (hex_digit (Z.to_N n)) "".
Definition hex16 (g : Z) : string :=
  (if (4096 <=? g)%Z then hex_nibble (g / 4096) else "")
  ++s (if (256 <=? g)%Z then hex_nibble ((g / 256) mod 16) else "")
  ++s (if (16 <=? g)%Z then hex_nibble ((g / 16) mod 16) else "")
  ++s hex_nibble (g mod 16).

Fixpoint groups16 (ip : list Z) : list Z :=
  match ip with
  | hi :: lo :: ip => (hi * 256 + lo)%Z :: groups16 ip
  | _ => []
  end.

(** The zero groups at the start of a list. *)
Fixpoint zero_run (gs : list Z) : nat :=
  match gs with
  | g :: gs => if (g =? 0)%Z then S (zero_run gs) else 0
  | [] => 0
  end.

(** Position and length of the first longest run of zero groups. *)
Fixpoint longest_run (i : nat) (gs : list Z) (best : nat * nat) : nat * nat :=
  match gs with
  | [] => best
  | _ :: gs' =>
      longest_run (S i) gs' (if (best.2 <? zero_run gs)%nat then (i, zero_run gs) else best)
  end.

Definition ipv6_text (ip : list Z) : string :=
  let gs := groups16 ip in
  let '(pos, len) := longest_run 0 gs (0, 0) in
  if (len <? 2)%nat then Join ":" (map hex16 gs)
  else Join ":" (map hex16 (take pos gs)) ++s "::" ++s Join ":" (map hex16 (drop (pos + len) gs)).

Fixpoint hexString (ip : list Z) : string :=
  match ip with
  | [] => ""
  | b :: ip => hex_nibble (b / 16) ++s hex_nibble (b mod 16) ++s hexString ip
  end.

Definition IP_String (ip : list Z) : string :=
  if (length ip =? 0)%nat then "<nil>"
  else if (length ip =? 4)%nat then dotted ip
  else if (length ip =? 16)%nat then
    match To4 ip with Some v4 => dotted v4 | None => ipv6_text ip end
  else "?" ++s hexString ip.

Example ip_string_v4 : IP_String [192; 0; 2; 10]%Z = "192.0.2.10".
Proof. reflexivity. Qed.
Example ip_string_v6 : IP_String <$> ParseIP "2001:DB8:0:0:1::1" = Some "2001:db8::1:0:0:1".
Proof. reflexivity. Qed.
Example ip_string_v6_all : (IP_String <$> ParseIP "::", IP_String <$> ParseIP "1::")
  = (Some "::", Some "1::").
Proof. reflexivity. Qed.
End IPText.

(** ** IPv4 texts and addresses *)

Section Ipv4.
Local Open Scope Z_scope.

Definition is_byte (v : Z) : Prop := 0 ≤ v ≤ 255.

(** A decidable fact about all byte values, by evaluation. *)
Definition all_octets (f : Z → bool) : bool := List.forallb f (map Z.of_nat (List.seq 0 256)).

Lemma all_octets_spec f v : all_octets f = true → is_byte v → f v = true.
Proof.
  unfold all_octets, is_byte. rewrite List.forallb_forall. intros Hf Hv. apply Hf.
  apply List.in_map_iff. exists (Z.to_nat v). split; [lia|]. apply List.in_seq. lia.
Qed.

Lemma all_octets_dec (P : Z → Prop) `{!∀ v, Decision (P v)} v :
  all_octets (λ v, bool_decide (P v)) = true → is_byte v → P v.
Proof. intros Hf Hv. by apply (all_octets_spec _ _ Hf), bool_decide_eq_true in Hv. Qed.

Lemma parseIPv4Field_itoa v : is_byte v → parseIPv4Field (itoa v) = Some v.
Proof. apply (all_octets_dec (λ v, parseIPv4Field (itoa v) = Some v)). by vm_compute. Qed.

(** The text of a byte has no separator in it. *)
Lemma itoa_byte_plain c v :
  Ascii.eqb c "." || Ascii.eqb c ":" || Ascii.eqb c "%" || Ascii.eqb c " " = true →
  is_byte v → str_contains_byte c (itoa v) = false.
Proof.
  intros Hc. apply (all_octets_dec (λ v, str_contains_byte c (itoa v) = false)).
  repeat (apply orb_true_iff in Hc as [Hc|Hc]); apply Ascii.eqb_eq in Hc as ->; by vm_compute.
Qed.

Lemma parseIPv4Field_byte s v : parseIPv4Field s = Some v → is_byte v.
Proof.
  unfold parseIPv4Field. intros H. repeat case_match; simplify_eq.
  split; [by eapply digits_val_nonneg|]. by apply Z.leb_le.
Qed.

Lemma parseIPv4_bytes s l : parseIPv4 s = Some l → Forall is_byte l.
Proof.
  unfold parseIPv4. intros H. repeat case_match; simplify_eq.
  repeat constructor; by eapply parseIPv4Field_byte.
Qed.

Lemma parseIPv4_dotted l : length l = 4%nat → Forall is_byte l → parseIPv4 (dotted l) = Some l.
Proof.
  destruct l as [|a [|b [|c [|d [|]]]]]; try done. intros _ Hl.
  repeat match goal with H : Forall _ (_ :: _) |- _ => inversion H; subst; clear H end.
  unfold parseIPv4, dotted.
  change (Join "." (map itoa [a; b; c; d]))
    with (itoa a ++s String "." (itoa b ++s String "." (itoa c ++s String "." (itoa d)))).
  rewrite !Split_app, Split_single by (by apply itoa_byte_plain).
  by rewrite !parseIPv4Field_itoa.
Qed.

Lemma ip_kind_app s t :
  (∀ c, Ascii.eqb c "." || Ascii.eqb c ":" || Ascii.eqb c "%" = true →
        str_contains_byte c s = false) →
  ip_kind (s ++s String "." t) = Some ("."%char).
Proof.
  induction s as [|c s IH]; intros Hs; [done|]. rewrite app_cons. simpl.
  destruct (Ascii.eqb c "." || Ascii.eqb c ":" || Ascii.eqb c "%") eqn:E.
  - apply Hs in E. simpl in E. by rewrite Ascii.eqb_refl in E.
  - apply IH. intros d Hd. apply Hs in Hd. simpl in Hd. by apply orb_false_iff in Hd as [_ ?].
Qed.

(** The text of an IPv4 address parses to it. *)
Lemma ParseIP_dotted l :
  length l = 4%nat → Forall is_byte l → ParseIP (dotted l) = Some (v4_prefix ++ l).
Proof.
  intros Hlen Hl. unfold ParseIP. destruct l as [|a l]; [done|].
  assert (ip_kind (dotted (a :: l)) = Some "."%char) as ->.
  { inversion Hl; subst. destruct l as [|b l]; [done|]. apply ip_kind_app.
    intros c Hc. apply itoa_byte_plain; [|done]. by rewrite Hc. }
  change (Ascii.eqb "." ".") with true. cbv iota. by rewrite parseIPv4_dotted.
Qed.

Lemma hex_val_bounds c d : hex_val c = Some d → 0 ≤ d ≤ 15.
Proof. unfold hex_val. repeat case_match; intros; simplify_eq; bool_to_prop; lia. Qed.

Lemma hex_group_bounds s off acc off' acc' rest :
  hex_group off acc s = (off', acc', rest) → 0 ≤ acc < 16 ^ Z.of_nat off →
  (off ≤ off')%nat ∧ 0 ≤ acc' < 16 ^ Z.of_nat off'.
Proof.
  revert off acc. induction s as [|c s IH]; simpl; intros off acc.
  { by intros [= <- <- <-]. }
  destruct (hex_val c) as [d|] eqn:E; [|by intros [= <- <- <-]].
  intros Hg Hb. apply hex_val_bounds in E.
  destruct (IH _ _ Hg) as [? ?]; [|split; [lia|done]].
  rewrite Nat2Z.inj_succ, Z.pow_succ_r by lia. lia.
Qed.

Lemma groups6_bytes fuel s ip ell ip' ell' rest :
  groups6 fuel s ip ell = Some (ip', ell', rest) → Forall is_byte ip → Forall is_byte ip'.
Proof.
  revert s ip ell. induction fuel as [|fuel IH]; intros s ip ell; cbn [groups6].
  { by intros [= <- <- <-]. }
  destruct (hex_group 0 0 s) as [[off acc] r] eqn:Eg.
  destruct (4 <? off)%nat eqn:Hoff; [done|]. apply Nat.ltb_ge in Hoff.
  destruct (hex_group_bounds _ _ _ _ _ _ Eg) as [_ Hacc]; [done|].
  assert (acc < 65536) as Hlt.
  { apply Z.lt_le_trans with (16 ^ Z.of_nat off); [lia|].
    change 65536 with (16 ^ 4). apply Z.pow_le_mono_r; lia. }
  intros Hg Hok.
  assert (Forall is_byte (ip ++ [acc / 256; acc mod 256])) as Hok'.
  { apply Forall_app. split; [done|]. unfold is_byte.
    pose proof (Z.mod_pos_bound acc 256 ltac:(lia)).
    repeat constructor; try lia; [by apply Z.div_pos; lia|].
    assert (acc / 256 < 256); [apply Z.div_lt_upper_bound; lia|lia]. }
  destruct (off =? 0)%nat; [done|]. destruct (HasPrefix r ".").
  - destruct (_ && _); [done|]. destruct (16 <? length ip + 4)%nat; [done|].
    destruct (parseIPv4 s) as [v4|] eqn:Hv4; [|done]. simplify_eq.
    apply Forall_app. split; [done|]. by eapply parseIPv4_bytes.
  - destruct r as [|c r]; [by simplify_eq|]. destruct (negb _); [done|].
    destruct (r == ""); [done|]. destruct r as [|d r']; [done|]. destruct (Ascii.eqb d ":").
    + destruct ell; [done|]. destruct (r' == ""); [by simplify_eq|]. by eapply IH.
    + by eapply IH.
Qed.

Lemma finish6_bytes r l :
  (∀ ip ell rest, r = Some (ip, ell, rest) → Forall is_byte ip) →
  finish6 r = Some l → Forall is_byte l.
Proof.
  unfold finish6. destruct r as [[[ip ell] rest]|]; [|done].
  intros Hb. specialize (Hb _ _ _ eq_refl).
  intros H. repeat case_match; simplify_eq; [|done].
  apply Forall_app. split; [by apply Forall_take|].
  apply Forall_app. split; [|by apply Forall_drop].
  apply Forall_replicate. unfold is_byte. lia.
Qed.

Lemma ParseIP_bytes s l : ParseIP s = Some l → Forall is_byte l.
Proof.
  unfold ParseIP. destruct (ip_kind s) as [c|]; [|done]. destruct (Ascii.eqb c ".").
  - intros (l4 & Hl & ->)%fmap_Some. apply Forall_app. split; [|by eapply parseIPv4_bytes].
    unfold v4_prefix, is_byte. repeat constructor; lia.
  - destruct (Ascii.eqb c ":"); [|done]. destruct (str_contains_byte "%" s); [done|].
    unfold parseIPv6. destruct (HasPrefix s "::").
    + destruct (_ == ""); [|by apply finish6_bytes; intros; eapply groups6_bytes].
      intros [= <-]. unfold is_byte. repeat constructor; lia.
    + apply finish6_bytes. intros. by eapply groups6_bytes.
Qed.

(** [To4] of a parsed address. *)
Lemma To4_bytes s v4 :
  ParseIP s ≫= To4 = Some v4 → length v4 = 4%nat ∧ Forall is_byte v4.
Proof.
  intros (ip & Hip & H4)%bind_Some. unfold To4 in H4. case_bool_decide; [|done].
  simplify_eq. split; [|by apply Forall_drop, (ParseIP_bytes s)].
  by rewrite length_drop, (ParseIP_length s).
Qed.

Lemma To4_app l : To4 (v4_prefix ++ l) = Some l.
Proof. unfold To4. by rewrite bool_decide_eq_true_2. Qed.
End Ipv4.

(** ** Classes of addresses *)

Section Classes.
Local Open Scope nat_scope.

(** [ip.To4()] of an address that may be in its short form; the empty list is
    the nil address. *)
Definition ip_To4 (ip : list Z) : option (list Z) :=
  if (length ip =? 4)%nat then Some ip else To4 ip.

(** The classes of addresses of the net package, on the bytes of the long form. *)
Definition IsLinkLocalUnicast (ip : list Z) : bool :=
  match ip_To4 ip with
  | Some (a :: b :: _) => (a =? 169)%Z && (b =? 254)%Z
  | Some _ => false
  | None => match ip with a :: b :: _ => (a =? 254)%Z && (Z.land b 192 =? 128)%Z | _ => false end
  end.
Definition IsLoopback (ip : list Z) : bool :=
  match ip_To4 ip with
  | Some (a :: _) => (a =? 127)%Z
  | Some [] => false
  | None => bool_decide (ip = replicate 15 0%Z ++ [1%Z])
  end.
Definition IsMulticast (ip : list Z) : bool :=
  match ip_To4 ip with
  | Some (a :: _) => (Z.land a 240 =? 224)%Z
  | Some [] => false
  | None => match ip with a :: _ => (a =? 255)%Z | [] => false end
  end.
Definition IsUnspecified (ip : list Z) : bool :=
  bool_decide (ip_To4 ip = Some [0; 0; 0; 0]%Z ∨ ip = replicate 16 0%Z).
Definition IsGlobalUnicast (ip : list Z) : bool :=
  ((length ip =? 4)%nat || (length ip =? 16)%nat)
  && negb (bool_decide (ip_To4 ip = Some [255; 255; 255; 255]%Z))
  && negb (IsUnspecified ip) && negb (IsLoopback ip) && negb (IsMulticast ip)
  && negb (IsLinkLocalUnicast ip).
End Classes.
