(* ===== verification/SourceRegistry.v ===== *)
(** * The source registry (pkg/source/registry.go, source.go, errors.go)

    Sources turn workloads into hostnames.  Extraction is a function of the
    workload (the interface asks for stateless sources); discovery reads
    files, so it is a function on the world. *)
From S2P Require Import Prelude GoStrings Errors Workload Hostname ProviderTypes GoMaps.
From S2P Require Import Effects GoTime.
From Stdlib Require Import ZArith.

Definition ErrDuplicateSource (name : string) : error :=
  ENew ("source " ++s Quote name ++s " already registered").
Definition ErrSourceNotFound (name : string) : error :=
  ENew ("source " ++s Quote name ++s " not found").

(** The [Source] interface. *)
Record Source {W : Type} := mkSource {
  src_Name : string;
  src_Extract : Workload → list Hostname + error;
  src_Discover : W → (list Hostname + error) * W;
  src_SupportsDiscovery : bool;
  src_SupportedPlatforms : list Platform
}.
Arguments Source : clear implicits.
Arguments mkSource {W} _ _ _ _ _ : assert.

Section SourceRegistry.
Context {W L : Type}.

Record SourceRegistry := mkSourceRegistry {
  sr_sources : list (Source W);
  sr_byName : gmap string (Source W)
}.

Definition NewSourceRegistry : SourceRegistry := mkSourceRegistry [] ∅.

Definition Register (source : Source W) (r : SourceRegistry) : option error * SourceRegistry :=
  let name := src_Name source in
  match sr_byName r !! name with
  | Some _ => (Some (ErrDuplicateSource name), r)
  | None => (None, mkSourceRegistry (sr_sources r ++ [source]) (<[name := source]> (sr_byName r)))
  end.

Definition GetSource (r : SourceRegistry) (name : string) : nilable (Source W) :=
  sr_byName r !! name.
Definition AllSources (r : SourceRegistry) : list (Source W) := sr_sources r.
Definition SourceCount (r : SourceRegistry) : nat := length (sr_sources r).

Definition sourceSupports (src : Source W) (platform : Platform) : bool :=
  let platforms := src_SupportedPlatforms src in
  if (length platforms =? 0)%nat then true
  else existsb (λ p, p == platform) platforms.

Definition isWorkloadDisabled (w : Workload) : bool :=
  match w_Labels w !! "dnsweaver.enabled" with
  | Some v => EqualFold (TrimSpace v) "false"
  | None => false
  end
  || match w_Annotations w !! "dnsweaver.dev/enabled" with
     | Some v => EqualFold (TrimSpace v) "false"
     | None => false
     end.

Definition extractStep (w : Workload) (allHostnames : list Hostname) (src : Source W)
  : list Hostname :=
  if negb (sourceSupports src (w_Platform w)) then allHostnames
  else match src_Extract src w with
       | inr _ => allHostnames
       | inl hostnames => allHostnames ++ hostnames
       end.

Definition ExtractAll (r : SourceRegistry) (w : Workload) : list Hostname :=
  if isWorkloadDisabled w then [] else fold_left (extractStep w) (sr_sources r) [].

Definition discoverStep (allHostnames : list Hostname) (src : Source W)
  : M W L (list Hostname) :=
  if negb (src_SupportsDiscovery src) then ret allHostnames
  else
    res <- with_world (src_Discover src) ;;
    ret (match res with
         | inr _ => allHostnames
         | inl hostnames => allHostnames ++ hostnames
         end).

Definition DiscoverAll (r : SourceRegistry) : M W L (list Hostname) :=
  foldM discoverStep [] (sr_sources r).

Definition DiscoverableSources (r : SourceRegistry) : list (Source W) :=
  List.filter src_SupportsDiscovery (sr_sources r).

Definition ExtractFrom (r : SourceRegistry) (sourceName : string) (w : Workload)
  : list Hostname + error :=
  match sr_byName r !! sourceName with
  | None => inr (ErrSourceNotFound sourceName)
  | Some src => src_Extract src w
  end.

Definition DiscoverFrom (r : SourceRegistry) (sourceName : string)
  : M W L (list Hostname + error) :=
  match sr_byName r !! sourceName with
  | None => ret (inr (ErrSourceNotFound sourceName))
  | Some src =>
      if negb (src_SupportsDiscovery src) then ret (inl []) else with_world (src_Discover src)
  end.
End SourceRegistry.
Arguments SourceRegistry : clear implicits.

(** ** File discovery (discovery.go) *)

Record FileDiscoveryConfig := mkDiscovery {
  FilePaths : list string;
  FilePattern : string;
  PollInterval : Z;
  WatchMethod : string
}.

Definition DefaultFileDiscoveryConfig : FileDiscoveryConfig :=
  mkDiscovery [] "" (60 * time_Second) "auto".

Definition IsEnabled (c : FileDiscoveryConfig) : bool := (0 <? length (FilePaths c))%nat.

Definition WatchMethodAuto : string := "auto".
Definition WatchMethodInotify : string := "inotify".
Definition WatchMethodPoll : string := "poll".
Definition ParseWatchMethod (s : string) : string :=
  if s == "inotify" then WatchMethodInotify else if s == "poll" then WatchMethodPoll
  else WatchMethodAuto.

(** ** Facts *)
Section SourceFacts.
Context {W L : Type}.
Implicit Types (r : SourceRegistry W) (src : Source W).

Lemma sourceSupports_spec src p :
  sourceSupports src p = true ↔ src_SupportedPlatforms src = [] ∨ p ∈ src_SupportedPlatforms src.
Proof.
  unfold sourceSupports. destruct (src_SupportedPlatforms src) as [|q l]; simpl length; [naive_solver|].
  cbn [Nat.eqb]. rewrite existsb_elem. setoid_rewrite String.eqb_eq. naive_solver.
Qed.

(** The contribution of one source. *)
Definition extracted (w : Workload) src : list Hostname :=
  if sourceSupports src (w_Platform w) then
    match src_Extract src w with inl hs => hs | inr _ => [] end
  else [].

Lemma extractStep_extracted w acc src : extractStep w acc src = acc ++ extracted w src.
Proof.
  unfold extractStep, extracted. destruct (sourceSupports src _); simpl;
    [destruct (src_Extract src w)|]; by rewrite ?app_nil_r.
Qed.

Lemma fold_extractStep w l acc :
  fold_left (extractStep w) l acc = acc ++ concat (map (extracted w) l).
Proof.
  revert acc. induction l as [|src l IH]; intros acc; simpl; [by rewrite app_nil_r|].
  by rewrite IH, extractStep_extracted, <- app_assoc.
Qed.

Lemma isWorkloadDisabled_spec w :
  isWorkloadDisabled w = true ↔
  (∃ v, w_Labels w !! "dnsweaver.enabled" = Some v ∧ EqualFold (TrimSpace v) "false" = true) ∨
  (∃ v, w_Annotations w !! "dnsweaver.dev/enabled" = Some v ∧
        EqualFold (TrimSpace v) "false" = true).
Proof.
  unfold isWorkloadDisabled. rewrite orb_true_iff.
  destruct (w_Labels w !! _), (w_Annotations w !! _); naive_solver.
Qed.

(** Registration: what the registry of a sequence of [Register] calls holds. *)
Definition registers (l : list (Source W)) : SourceRegistry W :=
  fold_left (λ r src, (Register src r).2) l NewSourceRegistry.

Lemma registers_snoc l src : registers (l ++ [src]) = (Register src (registers l)).2.
Proof. unfold registers. by rewrite fold_left_app. Qed.

Lemma GetSource_list l n src :
  GetSource (registers l) n = Some src ↔ src ∈ AllSources (registers l) ∧ src_Name src = n.
Proof.
  revert n src. induction l as [|s1 l IH] using rev_ind; intros n s0.
  { unfold GetSource; simpl. rewrite lookup_empty. split; [done|].
    by intros [?%not_elem_of_nil _]. }
  rewrite registers_snoc. unfold Register, GetSource, AllSources in *.
  destruct (sr_byName (registers l) !! src_Name s1) as [s2|] eqn:E; simpl; [apply IH|].
  rewrite elem_of_app, list_elem_of_singleton, lookup_insert_Some, IH. split; [naive_solver|].
  intros [[Hs| ->] <-]; [|by left]. right. split; [|done]. intros Heq.
  assert (sr_byName (registers l) !! src_Name s1 = Some s0) by (by apply IH). congruence.
Qed.

Lemma GetSource_first l n : GetSource (registers l) n = List.find (λ src, src_Name src == n) l.
Proof.
  induction l as [|src l IH] using rev_ind; [apply lookup_empty|].
  rewrite registers_snoc, find_app_first, <- IH. unfold Register, GetSource in *.
  destruct (sr_byName (registers l) !! src_Name src) as [s0|] eqn:E; simpl.
  - destruct (String.eqb_spec (src_Name src) n) as [<-|]; [by rewrite E|]. by destruct (_ !! n).
  - destruct (String.eqb_spec (src_Name src) n) as [<-|].
    + by rewrite E, lookup_insert_eq.
    + rewrite lookup_insert_ne by done. by destruct (_ !! n).
Qed.

(** After any sequence of [Register] calls no two sources of the list
    share a name, a source answers to its name exactly when it is in the
    list, and the list keeps, in order, the sources that were the first of
    their name. *)
Theorem Register_spec (l : list (Source W)) :
  let r := registers l in
  NoDup (map src_Name (AllSources r)) ∧ sublist (AllSources r) l ∧
  (∀ n src, GetSource r n = Some src ↔ src ∈ AllSources r ∧ src_Name src = n) ∧
  (∀ n, GetSource r n = List.find (λ src, src_Name src == n) l).
Proof.
  simpl. assert (NoDup (map src_Name (AllSources (registers l))) ∧
                 sublist (AllSources (registers l)) l) as [Hnd Hsub].
  { induction l as [|src l [IH1 IH2]] using rev_ind; [by repeat constructor|].
    rewrite registers_snoc. unfold Register.
    destruct (sr_byName (registers l) !! src_Name src) as [s0|] eqn:E; simpl.
    - split; [done|]. by apply sublist_inserts_r.
    - split; [|by apply sublist_app]. unfold AllSources in *. simpl. rewrite map_app.
      apply NoDup_app. split_and!; [done| |apply NoDup_singleton].
      intros n (s0 & -> & Hs0)%list_elem_of_fmap Hn%list_elem_of_singleton.
      assert (GetSource (registers l) (src_Name src) = Some s0) as Hg by (by apply GetSource_list).
      unfold GetSource in Hg. congruence. }
  split_and!; [done|done|apply GetSource_list|apply GetSource_first].
Qed.

(** [ExtractAll] answers nothing for a workload that opted out (the
    text [false], in any case and surrounded by spaces, under the Docker
    label or the Kubernetes annotation); otherwise it concatenates, in
    registration order, what the sources of the workload's platform
    extract, a failing source contributing nothing. *)
Theorem ExtractAll_spec r w :
  ExtractAll r w =
  if isWorkloadDisabled w then []
  else concat (map (λ src, match src_Extract src w with inl hs => hs | inr _ => [] end)
         (List.filter (λ src, bool_decide (src_SupportedPlatforms src = [] ∨
                                w_Platform w ∈ src_SupportedPlatforms src)) (sr_sources r))).
Proof.
  unfold ExtractAll. destruct (isWorkloadDisabled w); [done|].
  rewrite fold_extractStep. simpl. induction (sr_sources r) as [|src l IH]; simpl; [done|].
  rewrite IH. unfold extracted at 1. pose proof (sourceSupports_spec src (w_Platform w)) as Hs.
  case_bool_decide as Hd.
  - by rewrite (proj2 Hs Hd).
  - destruct (sourceSupports src _); [|done]. exfalso. by apply Hd, Hs.
Qed.

Lemma quiet_DiscoverAll r : quiet (W:=W) (L:=L) (λ _, True) (DiscoverAll r).
Proof.
  apply quiet_foldM; [done|]. intros acc src _ _. unfold discoverStep.
  destruct (negb _); [by apply quiet_ret|].
  eapply quiet_bind; [apply quiet_with_world|]. intros. by apply quiet_ret.
Qed.
End SourceFacts.
