(* ===== verification/MemProvider.v ===== *)
(** * An in-memory provider

    A concrete implementation of the provider interface, on a world that
    holds the records of each DNS server by provider name.  The witnesses of
    the development run the program against it. *)
From S2P Require Import Prelude GoStrings Errors ProviderTypes Matcher GoMaps Effects Instance.
From Stdlib Require Import ZArith.

Abbreviation MemWorld := (gmap string (list DNSRecord)).

Definition same_record (a b : DNSRecord) : bool :=
  (r_Hostname a == r_Hostname b) && (r_Type a == r_Type b) && (r_Target a == r_Target b).

(** Creating refuses a duplicate, deleting refuses a missing record. *)
Definition mem_provider (name : string) (caps : Capabilities) : Provider MemWorld := {|
  prov_Name := name;
  prov_Type := "memory";
  prov_Ping := λ w, (None, w);
  prov_Capabilities := caps;
  prov_List := λ w, (inl (default [] (w !! name)), w);
  prov_Create := λ r w,
    let l := default [] (w !! name) in
    if existsb (same_record r) l then (Some (ESentinel ErrConflict), w)
    else (None, <[name := l ++ [r]]> w);
  prov_Delete := λ r w,
    let l := default [] (w !! name) in
    if existsb (same_record r) l
    then (None, <[name := List.filter (λ x, negb (same_record r x)) l]> w)
    else (Some (ESentinel ErrNotFound), w);
  prov_Update := None;
  prov_Identity := Some (mkIdentity "memory" name "");
  prov_Close := None
|}.

Definition txt_caps : Capabilities :=
  mkCapabilities true false [RecordTypeA; RecordTypeAAAA; RecordTypeCNAME; RecordTypeTXT].

(** A provider that is down: it cannot be listed. *)
Definition down_provider (name : string) : Provider MemWorld := {|
  prov_Name := name; prov_Type := "memory";
  prov_Ping := λ w, (Some (ESentinel ErrProviderUnavailable), w);
  prov_Capabilities := txt_caps;
  prov_List := λ w, (inr (ESentinel ErrProviderUnavailable), w);
  prov_Create := λ _ w, (Some (ESentinel ErrProviderUnavailable), w);
  prov_Delete := λ _ w, (Some (ESentinel ErrProviderUnavailable), w);
  prov_Update := None; prov_Identity := None; prov_Close := None
|}.

Section Instances.
#[local] Existing Instance glob_engine.

Definition mem_matcher (patterns : list string) : DomainMatcher :=
  match NewDomainMatcher (mkMatcherConfig patterns [] false) with
  | inl m => m
  | inr _ => mkMatcher [] [] PatternTypeGlob
  end.

Definition mem_instance (name : string) (mode : OperationalMode) (target : string)
    (patterns : list string) : ProviderInstance MemWorld :=
  let p := mem_provider name txt_caps in
  mkInstance p (mem_matcher patterns) RecordTypeA target None 300 mode "" ∅ (IdentityOf p).

Definition down_instance (name : string) (mode : OperationalMode) (target : string)
    (patterns : list string) : ProviderInstance MemWorld :=
  let p := down_provider name in
  mkInstance p (mem_matcher patterns) RecordTypeA target None 300 mode "" ∅ (IdentityOf p).
End Instances.

Example mem_matches : pi_Matches (mem_instance "a" ModeManaged "192.0.2.1" ["*.example.com"])
  "app.example.com" = true.
Proof. vm_compute. reflexivity. Qed.
