(* ===== verification/Registry.v ===== *)
(** * The provider registry (pkg/provider/registry.go), with the instance
    configuration of pkg/provider/instance.go and its TLS settings

    The registry keeps pointers: the priority list and the index by name hold
    addresses into a heap of instances, so that [Remove]'s pointer comparison
    and the aliasing between list and index are those of the code.  The
    locks are left out: every operation holds them from start to end. *)
From S2P Require Import Prelude GoStrings Errors ProviderTypes Matcher GoMaps Effects Instance.
From S2P Require Import NetIP MemProvider.
From Stdlib Require Import ZArith.

(** ** TLS settings of an instance (pkg/provider/tls.go, and the settings of
    pkg/httputil/client.go it fills) *)

Record TLSConfig := mkTLS {
  tls_CAFile : string;
  tls_CertFile : string;
  tls_KeyFile : string;
  tls_ServerName : string;
  tls_InsecureSkip : bool;
  tls_PinnedSHA256 : string;
  tls_MinVersion : Z
}.

Definition VersionTLS12 : Z := 771.
Definition VersionTLS13 : Z := 772.

Definition TLS_IsZero (t : TLSConfig) : bool :=
  (tls_CAFile t == "") && (tls_CertFile t == "") && (tls_KeyFile t == "")
  && (tls_ServerName t == "") && negb (tls_InsecureSkip t) && (tls_PinnedSHA256 t == "")
  && (tls_MinVersion t =? 0)%Z.

Definition ParseTLSMinVersion (s : string) : Z + error :=
  let s := ToLower (TrimSpace s) in
  let s := TrimPrefix s "tls" in
  let s := TrimPrefix s "v" in
  if s == "" then inl 0%Z
  else if (s == "1.2") || (s == "12") then inl VersionTLS12
  else if (s == "1.3") || (s == "13") then inl VersionTLS13
  else inr (ENew ("unsupported TLS min version " ++s Quote s ++s " (use "
                  ++s Quote "1.2" ++s " or " ++s Quote "1.3" ++s ")")).

Definition parseBoolish (s : string) : bool :=
  let s := ToLower (TrimSpace s) in
  (s == "true") || (s == "1") || (s == "yes") || (s == "on").

(** A value of the configuration map; a missing key reads as the empty text. *)
Definition cfg_get (m : gmap string string) (k : string) : string := default "" (m !! k).

Definition extractTLSConfig (cfgMap : gmap string string) : nilable TLSConfig :=
  if (size cfgMap =? 0)%nat then None
  else
    let skip := cfg_get cfgMap "TLS_SKIP_VERIFY" in
    let minv := cfg_get cfgMap "TLS_MIN_VERSION" in
    let tls := mkTLS (cfg_get cfgMap "TLS_CA_FILE") (cfg_get cfgMap "TLS_CERT_FILE")
                     (cfg_get cfgMap "TLS_KEY_FILE") (cfg_get cfgMap "TLS_SERVER_NAME")
                     (if skip != "" then parseBoolish skip else false) ""
                     (if minv != "" then
                        match ParseTLSMinVersion minv with inl v => v | inr _ => 0%Z end
                      else 0%Z) in
    if TLS_IsZero tls then None else Some tls.

(** Only TLS 1.2 and 1.3 (or the default) come out of a configuration, and a
    returned configuration has some setting. *)
Lemma extractTLSConfig_sound m t :
  extractTLSConfig m = Some t →
  TLS_IsZero t = false ∧
  (tls_MinVersion t = 0 ∨ tls_MinVersion t = VersionTLS12 ∨ tls_MinVersion t = VersionTLS13)%Z.
Proof.
  unfold extractTLSConfig. destruct (size m =? 0)%nat; [done|].
  match goal with |- context [TLS_IsZero ?x] => destruct (TLS_IsZero x) eqn:E end; [done|].
  intros [= <-]. split; [done|]. simpl. clear E.
  destruct (cfg_get m "TLS_MIN_VERSION" != ""); [|by left].
  unfold ParseTLSMinVersion. repeat case_match; simplify_eq; auto.
Qed.

Record ProviderInstanceConfig := mkInstanceConfig {
  ic_Name : string;
  ic_TypeName : string;
  ic_RecordType : RecordType;
  ic_Target : string;
  ic_TTL : Z;
  ic_Mode : OperationalMode;
  ic_Domains : list string;
  ic_ExcludeDomains : list string;
  ic_DomainsRegex : list string;
  ic_ExcludeDomainsRegex : list string;
  ic_MetadataFilters : gmap string (list string);
  ic_ProviderConfig : gmap string string
}.

Definition isIPAddress (s : string) : bool := bool_decide (is_Some (ParseIP s)).

Definition isIPv4Address (s : string) : bool :=
  match ParseIP s with
  | None => false
  | Some ip => bool_decide (is_Some (To4 ip))
  end.

Definition isIPv6Address (s : string) : bool :=
  match ParseIP s with
  | None => false
  | Some ip => bool_decide (To4 ip = None)
  end.

Definition Config_Validate (c : ProviderInstanceConfig) : option error :=
  if ic_Name c == "" then Some (ErrConfigMissing "name")
  else if ic_TypeName c == "" then Some (ErrConfigMissing "type")
  else if (ic_RecordType c != RecordTypeA) && (ic_RecordType c != RecordTypeAAAA)
          && (ic_RecordType c != RecordTypeCNAME) then
    Some (ErrConfigInvalid "record_type" (ic_RecordType c) "must be A, AAAA, or CNAME")
  else if ic_Target c == "" then Some (ErrConfigMissing "target")
  else if (ic_RecordType c == RecordTypeCNAME) && isIPAddress (ic_Target c) then
    Some (ErrConfigInvalid "target" (ic_Target c)
      "CNAME records cannot point to IP addresses; use record_type=A or AAAA for IP targets")
  else if (ic_RecordType c == RecordTypeA) && negb (isIPv4Address (ic_Target c)) then
    Some (ErrConfigInvalid "target" (ic_Target c)
      "A records must point to IPv4 addresses; use record_type=AAAA for IPv6 or CNAME for hostnames")
  else if (ic_RecordType c == RecordTypeAAAA) && negb (isIPv6Address (ic_Target c)) then
    Some (ErrConfigInvalid "target" (ic_Target c)
      "AAAA records must point to IPv6 addresses; use record_type=A for IPv4 or CNAME for hostnames")
  else if (ic_TTL c <? 1)%Z then Some (ErrConfigInvalid "ttl" "" "must be at least 1")
  else
    let hasGlob := (0 <? length (ic_Domains c))%nat in
    let hasRegex := (0 <? length (ic_DomainsRegex c))%nat in
    if negb hasGlob && negb hasRegex then Some (ErrConfigMissing "domains (or domains_regex)")
    else if hasGlob && hasRegex then
      Some (ErrConfigInvalid "domains" "" "cannot specify both DOMAINS and DOMAINS_REGEX")
    else None.

Definition UseRegex (c : ProviderInstanceConfig) : bool := (0 <? length (ic_DomainsRegex c))%nat.
Definition GetIncludes (c : ProviderInstanceConfig) : list string :=
  if UseRegex c then ic_DomainsRegex c else ic_Domains c.
Definition GetExcludes (c : ProviderInstanceConfig) : list string :=
  if UseRegex c then ic_ExcludeDomainsRegex c else ic_ExcludeDomains c.

(** [HTTPConfig], without the logger and the timeout. *)
Record HTTPConfig := mkHTTPConfig {
  hc_TLS : nilable TLSConfig;
  hc_TLSSkipVerify : bool
}.

Record FactoryConfig := mkFactoryConfig {
  fc_Name : string;
  fc_ProviderConfig : gmap string string;
  fc_HTTP : HTTPConfig
}.

Section Registry.
Context `{RegexpEngine} {W : Type}.

Definition Factory : Type := FactoryConfig → W → (Provider W + error) * W.

Record Registry := mkRegistry {
  reg_heap : gmap nat (ProviderInstance W);
  reg_next : nat;
  reg_factories : gmap string Factory;
  reg_instances : list nat;
  reg_byName : gmap string nat;
  reg_instanceID : string
}.

Definition NewRegistry : Registry := mkRegistry ∅ 0 ∅ [] ∅ "".

Definition SetInstanceID (id : string) (r : Registry) : Registry :=
  mkRegistry (reg_heap r) (reg_next r) (reg_factories r) (reg_instances r) (reg_byName r) id.

Definition RegisterFactory (typeName : string) (factory : Factory) (r : Registry) : Registry :=
  mkRegistry (reg_heap r) (reg_next r) (<[typeName := factory]> (reg_factories r))
    (reg_instances r) (reg_byName r) (reg_instanceID r).

(** [&ProviderInstance{..}], [append] and the map assignment. *)
Definition add_instance (name : string) (instance : ProviderInstance W) (r : Registry) : Registry :=
  let a := reg_next r in
  mkRegistry (<[a := instance]> (reg_heap r)) (S a) (reg_factories r)
    (reg_instances r ++ [a]) (<[name := a]> (reg_byName r)) (reg_instanceID r).

Definition factoryConfig (cfg : ProviderInstanceConfig) : FactoryConfig :=
  let tlsCfg := extractTLSConfig (ic_ProviderConfig cfg) in
  mkFactoryConfig (ic_Name cfg) (ic_ProviderConfig cfg)
    (mkHTTPConfig tlsCfg (match tlsCfg with Some t => tls_InsecureSkip t | None => false end)).

Definition newInstance (cfg : ProviderInstanceConfig) (instanceID : string)
    (provider : Provider W) (domainMatcher : DomainMatcher) : ProviderInstance W :=
  mkInstance provider domainMatcher (ic_RecordType cfg) (ic_Target cfg) None (ic_TTL cfg)
    (if ic_Mode cfg == "" then ModeManaged else ic_Mode cfg) instanceID
    (ic_MetadataFilters cfg) (IdentityOf provider).

Definition CreateInstance (cfg : ProviderInstanceConfig) : M W Registry (option error) :=
  match Config_Validate cfg with
  | Some err =>
      ret (Some (EWrapf ("invalid configuration for provider " ++s Quote (ic_Name cfg) ++s ": ") err))
  | None =>
      r <- get_local ;;
      match reg_byName r !! ic_Name cfg with
      | Some _ =>
          ret (Some (ENew ("provider instance " ++s Quote (ic_Name cfg) ++s " already exists")))
      | None =>
          match reg_factories r !! ic_TypeName cfg with
          | None => ret (Some (ENew ("unknown provider type: " ++s ic_TypeName cfg)))
          | Some factory =>
              res <- with_world (factory (factoryConfig cfg)) ;;
              match res with
              | inr err =>
                  ret (Some (EWrapf ("creating provider " ++s ic_Name cfg ++s ": ") err))
              | inl provider =>
                  match NewDomainMatcher (mkMatcherConfig (GetIncludes cfg) (GetExcludes cfg)
                                                          (UseRegex cfg)) with
                  | inr err =>
                      ret (Some (EWrapf ("creating domain matcher for " ++s ic_Name cfg ++s ": ") err))
                  | inl domainMatcher =>
                      modify_local (add_instance (ic_Name cfg)
                        (newInstance cfg (reg_instanceID r) provider domainMatcher)) ;;;
                      ret None
                  end
              end
          end
      end
  end.

(** *** Lookups.  A returned pointer is read at once: what is returned is
    the instance it points to. *)

Definition deref (r : Registry) (l : list nat) : list (ProviderInstance W) :=
  omap (λ a, reg_heap r !! a) l.

Definition Get (r : Registry) (name : string) : option (ProviderInstance W) :=
  a ← reg_byName r !! name; reg_heap r !! a.

Definition All (r : Registry) : list (ProviderInstance W) := deref r (reg_instances r).

Definition MatchingProviders (r : Registry) (hostname : string) : list (ProviderInstance W) :=
  List.filter (λ inst, pi_Matches inst hostname) (All r).

Definition MatchingProvidersForHostname (r : Registry) (hostname : string)
    (metadata : gmap string string) : list (ProviderInstance W) :=
  List.filter (λ inst, MatchesWithMetadata inst hostname metadata) (All r).

Definition FirstMatchingProvider (r : Registry) (hostname : string)
  : nilable (ProviderInstance W) :=
  List.find (λ inst, pi_Matches inst hostname) (All r).

Definition PingAll : M W Registry (gmap string (option error)) :=
  r <- get_local ;;
  foldM (λ results inst,
    err <- pi_Ping inst ;; ret (<[pi_Name inst := err]> results)) ∅ (All r).

(** [append(l[:i], l[i+1:]...)] at the first occurrence. *)
Fixpoint remove_first (a : nat) (l : list nat) : list nat :=
  match l with
  | [] => []
  | b :: l => if (b =? a)%nat then l else b :: remove_first a l
  end.

Definition Remove (name : string) (r : Registry) : bool * Registry :=
  match reg_byName r !! name with
  | None => (false, r)
  | Some inst =>
      (true, mkRegistry (reg_heap r) (reg_next r) (reg_factories r)
               (remove_first inst (reg_instances r)) (delete name (reg_byName r))
               (reg_instanceID r))
  end.

Definition closeInstance (firstErr : option error) (inst : ProviderInstance W)
  : M W Registry (option error) :=
  match prov_Close (pi_Provider inst) with
  | Some close =>
      err <- call (CallClose (pi_Name inst)) close ;;
      ret (match err with
           | Some e => match firstErr with None => Some e | Some _ => firstErr end
           | None => firstErr
           end)
  | None => ret firstErr
  end.

Definition Close : M W Registry (option error) :=
  r <- get_local ;;
  firstErr <- foldM closeInstance None (All r) ;;
  modify_local (λ r, mkRegistry (reg_heap r) (reg_next r) (reg_factories r) [] ∅
                                (reg_instanceID r)) ;;;
  ret firstErr.

Definition Count (r : Registry) : nat := length (reg_instances r).

(** [SetDynamicTarget] through the pointer held under [name]. *)
Definition SetTarget (name target : string) (r : Registry) : Registry :=
  match reg_byName r !! name with
  | Some a =>
      mkRegistry (alter (SetDynamicTarget target) a (reg_heap r)) (reg_next r) (reg_factories r)
        (reg_instances r) (reg_byName r) (reg_instanceID r)
  | None => r
  end.

(** [identityKey] and the groups, in order of first occurrence. *)
Definition identityKey (inst : ProviderInstance W) : ProviderIdentity * RecordType :=
  (pi_Identity inst, pi_RecordType inst).

Definition add_group (groups : list ((ProviderIdentity * RecordType) * list string))
    (inst : ProviderInstance W) : list ((ProviderIdentity * RecordType) * list string) :=
  let k := identityKey inst in
  if existsb (λ g, bool_decide (g.1 = k)) groups
  then map (λ g, if bool_decide (g.1 = k) then (g.1, g.2 ++ [pi_Name inst]) else g) groups
  else groups ++ [(k, [pi_Name inst])].

(** The warnings, one per group of two or more. *)
Definition WarnDuplicateIdentities (r : Registry)
  : list ((ProviderIdentity * RecordType) * list string) :=
  List.filter (λ g, negb (length g.2 <? 2)%nat) (fold_left add_group (All r) []).
End Registry.
Arguments Registry {_} _ : assert.
Arguments Factory : clear implicits.

(** ** What the reconciler relies on

    The directory of provider instances, as its client sees it: a priority
    list, the filters of it, and the lookup by name. *)
Class ProviderDirectory `{RegexpEngine} (W R : Type) := {
  dir_wf : R → Prop;
  dir_All : R → list (ProviderInstance W);
  dir_Get : R → string → option (ProviderInstance W);
  dir_MatchingProviders : R → string → list (ProviderInstance W);
  dir_MatchingProvidersForHostname :
    R → string → gmap string string → list (ProviderInstance W);
  dir_Get_All r n i : dir_wf r → dir_Get r n = Some i → i ∈ dir_All r;
  dir_Matching_eq r h :
    dir_MatchingProviders r h = List.filter (λ i, pi_Matches i h) (dir_All r);
  dir_MatchingMeta_eq r h m :
    dir_MatchingProvidersForHostname r h m
    = List.filter (λ i, MatchesWithMetadata i h m) (dir_All r)
}.

(** ** The invariant of the registry *)
Section RegistryInvariant.
Context `{RegexpEngine} {W : Type}.
Implicit Types (r : Registry W).

(** The list and the index hold the same addresses, once each, and every
    address is allocated. *)
Record registry_wf (r : Registry W) : Prop := mkRegistryWf {
  rw_nodup : NoDup (reg_instances r);
  rw_names : ∀ a, a ∈ reg_instances r ↔ ∃ n, reg_byName r !! n = Some a;
  rw_inj : ∀ n n' a, reg_byName r !! n = Some a → reg_byName r !! n' = Some a → n = n';
  rw_alloc : ∀ a, a ∈ reg_instances r → is_Some (reg_heap r !! a);
  rw_next : ∀ a, is_Some (reg_heap r !! a) → a < reg_next r
}.

Lemma NewRegistry_wf : registry_wf NewRegistry.
Proof.
  split; simpl; intros; try by constructor.
  - split; [by intros ?%not_elem_of_nil|]. intros [n Hn]. by rewrite lookup_empty in Hn.
  - by simplify_map_eq.
  - by apply not_elem_of_nil in H0.
  - destruct H0 as [? ?]. by simplify_map_eq.
Qed.

Lemma add_instance_wf n i r :
  registry_wf r → reg_byName r !! n = None → registry_wf (add_instance n i r).
Proof.
  intros [Hnd Hn Hi Ha Hx] Hfree.
  assert (reg_next r ∉ reg_instances r) as Hfresh.
  { intros Hin%Ha%Hx. lia. }
  split; simpl.
  - apply NoDup_app. split_and!; [done| |apply NoDup_singleton].
    by intros a Hin ->%list_elem_of_singleton.
  - intros a. rewrite elem_of_app, list_elem_of_singleton, Hn. split.
    + intros [[m Hm]| ->].
      * exists m. rewrite lookup_insert_ne; [done|]. by intros ->; rewrite Hfree in Hm.
      * exists n. by rewrite lookup_insert_eq.
    + intros [m [[-> <-]|[? Hm]]%lookup_insert_Some]; [by right|]. left. by exists m.
  - intros m m' a [[-> <-]|[? Hm]]%lookup_insert_Some
      [[-> E]|[? Hm']]%lookup_insert_Some; subst; try done.
    + exfalso. apply Hfresh, Hn. by exists m'.
    + exfalso. apply Hfresh, Hn. by exists m.
    + by eapply Hi.
  - intros a [Hin| ->%list_elem_of_singleton]%elem_of_app.
    + rewrite lookup_insert_ne; [by apply Ha|]. by intros <-.
    + by rewrite lookup_insert_eq.
  - intros a [x [[<- _]|[_ Hax]]%lookup_insert_Some]; [lia|].
    assert (a < reg_next r) by (apply Hx; by exists x). lia.
Qed.

Lemma elem_of_remove_first a b l :
  NoDup l → b ∈ remove_first a l ↔ b ∈ l ∧ b ≠ a.
Proof.
  induction 1 as [|x l Hx Hl IH]; simpl; [set_solver|].
  destruct (Nat.eqb_spec x a) as [->|Hxa]; set_solver.
Qed.

Lemma NoDup_remove_first a l : NoDup l → NoDup (remove_first a l).
Proof.
  induction 1 as [|x l Hx Hl IH]; simpl; [constructor|].
  destruct (Nat.eqb_spec x a); [done|]. constructor; [|done].
  rewrite elem_of_remove_first by done. tauto.
Qed.

Lemma Remove_wf n r : registry_wf r → registry_wf (Remove n r).2.
Proof.
  intros Hwf. unfold Remove. destruct (reg_byName r !! n) as [a|] eqn:E; [|done].
  destruct Hwf as [Hnd Hn Hi Ha Hx]. split; simpl.
  - by apply NoDup_remove_first.
  - intros b. rewrite elem_of_remove_first, Hn by done. split.
    + intros [[m Hm] Hne]. exists m. rewrite lookup_delete_ne; [done|]. congruence.
    + intros [m [Hm1 Hm]%lookup_delete_Some]. split; [by exists m|]. intros ->.
      apply Hm1. by eapply Hi.
  - intros m m' b [_ ?]%lookup_delete_Some [_ ?]%lookup_delete_Some. by eapply Hi.
  - intros b. rewrite elem_of_remove_first by done. intros [? _]. by apply Ha.
  - done.
Qed.

Definition closed_registry r : Registry W :=
  mkRegistry (reg_heap r) (reg_next r) (reg_factories r) [] ∅ (reg_instanceID r).

Lemma Close_run s :
  Close (W:=W) s =
  match foldM closeInstance None (All (st_local s)) s with
  | (Some e, s') => (Some e, mkSt (st_world s') (st_calls s') (closed_registry (st_local s')))
  | (None, s') => (None, s')
  end.
Proof.
  unfold Close, bind at 1. cbn [get_local]. unfold bind at 1.
  by destruct (foldM _ _ _ s) as [[e|] s'].
Qed.

Lemma keeps_closeInstance b a : keeps_local (closeInstance (W:=W) b a).
Proof. unfold closeInstance. destruct (prov_Close _); [|done]. by apply keeps_bind. Qed.

Lemma Close_wf s : registry_wf (st_local s) → registry_wf (st_local (Close (W:=W) s).2).
Proof.
  intros Hwf. rewrite Close_run.
  pose proof (keeps_foldM closeInstance None (All (st_local s)) keeps_closeInstance s) as Hk.
  destruct (foldM _ _ _ s) as [[e|] s']; simpl in *; rewrite Hk; [|done].
  destruct Hwf. split; simpl; intros; try done.
  - constructor.
  - split; [by intros ?%not_elem_of_nil|]. intros [n Hn]. by rewrite lookup_empty in Hn.
  - by apply not_elem_of_nil in H0.
  - auto.
Qed.

Lemma SetTarget_wf n t r : registry_wf r → registry_wf (SetTarget n t r).
Proof.
  intros Hwf. unfold SetTarget. destruct (reg_byName r !! n) as [a|]; [|done].
  destruct Hwf as [Hnd Hn Hi Ha Hx]. split; simpl; try done.
  - intros b Hb%Ha. destruct Hb as [x Hb]. destruct (decide (a = b)) as [->|].
    + rewrite lookup_alter_eq, Hb. by eexists.
    + rewrite lookup_alter_ne by done. by eexists.
  - intros b Hb. apply Hx. destruct (decide (a = b)) as [->|].
    + rewrite lookup_alter_eq in Hb. by apply fmap_is_Some in Hb.
    + by rewrite lookup_alter_ne in Hb.
Qed.
End RegistryInvariant.

(** ** Creating instances *)
Section CreateInstance.
Context `{RegexpEngine} {W : Type}.
Implicit Types (cfg : ProviderInstanceConfig) (s : St W (Registry W)) (r : Registry W).

(** The two outcomes: an error and the registry as it was, or success and
    the new instance at the end of the list. *)
Definition creates cfg (r r' : Registry W) : Prop :=
  ∃ factory provider domainMatcher w w',
    Config_Validate cfg = None ∧ reg_byName r !! ic_Name cfg = None ∧
    reg_factories r !! ic_TypeName cfg = Some factory ∧
    factory (factoryConfig cfg) w = (inl provider, w') ∧
    NewDomainMatcher (mkMatcherConfig (GetIncludes cfg) (GetExcludes cfg) (UseRegex cfg))
      = inl domainMatcher ∧
    r' = add_instance (ic_Name cfg)
           (newInstance cfg (reg_instanceID r) provider domainMatcher) r.

Lemma CreateInstance_cases cfg s :
  (∃ err, (CreateInstance cfg s).1 = Some (Some err) ∧
     st_local (CreateInstance cfg s).2 = st_local s) ∨
  ((CreateInstance cfg s).1 = Some None ∧
   creates cfg (st_local s) (st_local (CreateInstance cfg s).2)).
Proof.
  unfold CreateInstance. destruct (Config_Validate cfg) eqn:HV; [left; by eexists|].
  rewrite !bind_get.
  destruct (reg_byName _ !! _) eqn:HN; [left; by eexists|].
  destruct (reg_factories _ !! _) as [f|] eqn:HF; [|left; by eexists].
  unfold bind, with_world. simpl.
  destruct (f (factoryConfig cfg) (st_world s)) as [[p|e] w'] eqn:Hf; simpl;
    [|left; by eexists].
  destruct (NewDomainMatcher _) as [d|] eqn:HD; [|left; by eexists].
  right. split; [done|]. simpl. do 5 eexists. split_and!; eauto.
Qed.

Lemma CreateInstance_wf cfg s :
  registry_wf (st_local s) → registry_wf (st_local (CreateInstance cfg s).2).
Proof.
  intros Hwf. destruct (CreateInstance_cases cfg s) as [(e & _ & ->)|(_ & f & p & d & w & w' & H')];
    [done|]. destruct H' as (_ & Hn & _ & _ & _ & ->). by apply add_instance_wf.
Qed.

Lemma deref_app (r : Registry W) l l' : deref r (l ++ l') = deref r l ++ deref r l'.
Proof. apply omap_app. Qed.

Lemma deref_insert (r : Registry W) a i l h :
  a ∉ l → h = <[a := i]> (reg_heap r) → omap (λ b, h !! b) l = deref r l.
Proof.
  intros Ha ->. unfold deref. induction l as [|b l IH]; simpl; [done|].
  rewrite lookup_insert_ne by set_solver.
  destruct (reg_heap r !! b); [f_equal|]; apply IH; set_solver.
Qed.

Lemma All_add n i r : registry_wf r → All (add_instance n i r) = All r ++ [i].
Proof.
  intros Hwf. unfold All, deref. simpl. rewrite omap_app. simpl.
  rewrite lookup_insert_eq. f_equal. eapply deref_insert; [|done].
  intros Hin%(rw_alloc _ Hwf)%(rw_next _ Hwf). lia.
Qed.

Lemma Get_add n i r m :
  registry_wf r → Get (add_instance n i r) m = if n == m then Some i else Get r m.
Proof.
  intros Hwf. unfold Get. simpl. destruct (String.eqb_spec n m) as [->|Hne].
  - rewrite lookup_insert_eq. simpl. by rewrite lookup_insert_eq.
  - rewrite lookup_insert_ne by done. destruct (reg_byName r !! m) as [a|] eqn:E; [|done].
    simpl. rewrite lookup_insert_ne; [done|]. intros <-.
    assert (reg_next r ∈ reg_instances r) as Hin by (apply (rw_names _ Hwf); by eexists).
    apply (rw_alloc _ Hwf), (rw_next _ Hwf) in Hin. lia.
Qed.
End CreateInstance.

(** ** The registry as a state machine *)
Section Reachable.
Context `{RegexpEngine} {W : Type}.
Implicit Types (r : Registry W).

Inductive registry_step : Registry W → Registry W → Prop :=
| step_factory n f r : registry_step r (RegisterFactory n f r)
| step_instance_id id r : registry_step r (SetInstanceID id r)
| step_create cfg s : registry_step (st_local s) (st_local (CreateInstance cfg s).2)
| step_remove n r : registry_step r (Remove n r).2
| step_target n t r : registry_step r (SetTarget n t r)
| step_close s : registry_step (st_local s) (st_local (Close s).2).

Definition registry_reachable : Registry W → Prop := rtc registry_step NewRegistry.

Lemma registry_step_wf r r' : registry_step r r' → registry_wf r → registry_wf r'.
Proof.
  destruct 1; intros Hwf.
  - by destruct Hwf; split.
  - by destruct Hwf; split.
  - by apply CreateInstance_wf.
  - by apply Remove_wf.
  - by apply SetTarget_wf.
  - by apply Close_wf.
Qed.

Lemma reachable_wf r : registry_reachable r → registry_wf r.
Proof.
  unfold registry_reachable. intros Hr.
  assert (∀ r0, rtc registry_step r0 r → registry_wf r0 → registry_wf r) as Hall.
  { induction 1; eauto using registry_step_wf. }
  by eapply Hall, NewRegistry_wf.
Qed.

Lemma Get_All r n i : registry_wf r → Get r n = Some i → i ∈ All r.
Proof.
  intros Hwf. unfold Get, All, deref. destruct (reg_byName r !! n) as [a|] eqn:E; [|done].
  simpl. intros Hi. apply list_elem_of_omap. exists a. split; [|done].
  apply (rw_names _ Hwf). by exists n.
Qed.

Lemma length_deref r l :
  (∀ a, a ∈ l → is_Some (reg_heap r !! a)) → length (deref (W:=W) r l) = length l.
Proof.
  unfold deref. induction l as [|a l IH]; intros Ha; simpl; [done|].
  destruct (Ha a ltac:(by left)) as [i ->]. simpl. f_equal. apply IH. set_solver.
Qed.

(** As many names as listed instances. *)
Lemma size_byName r : registry_wf r → size (reg_byName r) = Count r.
Proof.
  intros Hwf. unfold Count. rewrite <- length_map_to_list, <- (length_fmap snd).
  apply Permutation_length, NoDup_Permutation.
  - apply NoDup_fmap_2_strong; [|apply NoDup_map_to_list].
    intros [n a] [n' a'] Hn%elem_of_map_to_list Hn'%elem_of_map_to_list; simpl.
    intros ->. f_equal. by eapply Hwf.
  - apply Hwf.
  - intros a. rewrite list_elem_of_fmap, (rw_names _ Hwf). split.
    + intros ([n a'] & -> & Hn%elem_of_map_to_list). by exists n.
    + intros [n Hn]. exists (n, a). by rewrite elem_of_map_to_list.
Qed.

(** C37. In every registry the program can reach, no instance is listed
    twice, the priority list and the name index hold the same instances
    (an instance found by name is in the list), [Count] is the number of
    instances [All] returns and of registered names. *)
Theorem registry_consistent (r : Registry W) :
  registry_reachable r →
  NoDup (reg_instances r) ∧
  (∀ n i, Get r n = Some i → i ∈ All r) ∧
  (∀ i, i ∈ All r → ∃ n, Get r n = Some i) ∧
  length (All r) = Count r ∧ size (reg_byName r) = Count r.
Proof.
  intros Hwf%reachable_wf. split_and!.
  - apply Hwf.
  - intros n i. by apply Get_All.
  - intros i (a & Ha & Hi)%list_elem_of_omap. apply (rw_names _ Hwf) in Ha as [n Hn].
    exists n. unfold Get. by rewrite Hn.
  - apply length_deref, Hwf.
  - by apply size_byName.
Qed.
End Reachable.

#[export] Instance registry_directory `{RegexpEngine} (W : Type)
  : ProviderDirectory W (Registry W) := {|
  dir_wf := registry_wf;
  dir_All := All;
  dir_Get := Get;
  dir_MatchingProviders := MatchingProviders;
  dir_MatchingProvidersForHostname := MatchingProvidersForHostname;
  dir_Get_All := Get_All;
  dir_Matching_eq r h := eq_refl;
  dir_MatchingMeta_eq r h m := eq_refl
|}.

(** ** Properties of the operations *)
Section RegistryProperties.
Context `{RegexpEngine} {W : Type}.
Implicit Types (r : Registry W) (s : St W (Registry W)).

(** What a configuration accepted by [Validate] says. *)
Definition target_fits (t : RecordType) (target : string) : Prop :=
  (t = RecordTypeA ∧ isIPv4Address target = true) ∨
  (t = RecordTypeAAAA ∧ isIPv6Address target = true) ∨
  (t = RecordTypeCNAME ∧ target ≠ "" ∧ isIPAddress target = false).

Lemma isIP_nonempty t : isIPAddress t = true → t ≠ "".
Proof. by intros Ht ->. Qed.

Lemma isIPv4_isIP t : isIPv4Address t = true → isIPAddress t = true.
Proof. unfold isIPv4Address, isIPAddress. by destruct (ParseIP t). Qed.
Lemma isIPv6_isIP t : isIPv6Address t = true → isIPAddress t = true.
Proof. unfold isIPv6Address, isIPAddress. by destruct (ParseIP t). Qed.

Lemma target_checks rt t :
  ((rt != RecordTypeA) && (rt != RecordTypeAAAA) && (rt != RecordTypeCNAME))%bool = false ∧
  (t == "") = false ∧
  (((rt == RecordTypeCNAME) && isIPAddress t)%bool = false ∧
  ((rt == RecordTypeA) && negb (isIPv4Address t))%bool = false ∧
  ((rt == RecordTypeAAAA) && negb (isIPv6Address t))%bool = false)
  ↔ target_fits rt t.
Proof.
  unfold target_fits.
  pose proof (isIP_nonempty t) as Hne. pose proof (isIPv4_isIP t) as H4.
  pose proof (isIPv6_isIP t) as H6.
  destruct (String.eqb_spec t "") as [->|]; [split; [by intros (_ & ? & _)|naive_solver]|].
  destruct (String.eqb_spec rt RecordTypeA) as [->|]; simpl;
    [|destruct (String.eqb_spec rt RecordTypeAAAA) as [->|]; simpl;
      [|destruct (String.eqb_spec rt RecordTypeCNAME) as [->|]; simpl; [|naive_solver]]].
  - destruct (isIPv4Address t); naive_solver.
  - destruct (isIPv6Address t); naive_solver.
  - split; [naive_solver|]. intros [[? _]|[[? _]|(_ & _ & ->)]]; [done..|]. done.
Qed.

(** [Validate] accepts a configuration exactly when it is named and
    typed, its target fits its record type (an IPv4 address for A, an IPv6
    address for AAAA, a non-empty text that is no address for CNAME), its
    TTL is positive and it uses exactly one of the two pattern styles. *)
Theorem Config_Validate_exact cfg :
  Config_Validate cfg = None ↔
  ic_Name cfg ≠ "" ∧ ic_TypeName cfg ≠ "" ∧
  target_fits (ic_RecordType cfg) (ic_Target cfg) ∧ (1 ≤ ic_TTL cfg)%Z ∧
  (ic_Domains cfg = [] ↔ ic_DomainsRegex cfg ≠ []).
Proof.
  unfold Config_Validate. rewrite !early_return_None, <- target_checks, Z.ltb_ge.
  rewrite !String.eqb_neq.
  destruct (ic_Domains cfg), (ic_DomainsRegex cfg); simpl; naive_solver.
Qed.

Lemma newInstance_mode cfg id p d :
  pi_Mode (newInstance (W:=W) cfg id p d) ≠ "".
Proof. simpl. destruct (String.eqb_spec (ic_Mode cfg) ""); done. Qed.

(** [CreateInstance] always returns, and is atomic: on an error the
    registry is as it was; on success the new instance, built from an
    accepted configuration with a mode set, is last in the priority list
    and found under its name, every other name answers as before. *)
Theorem CreateInstance_atomic cfg s :
  registry_wf (st_local s) →
  let r := st_local s in let r' := st_local (CreateInstance cfg s).2 in
  (∃ err, (CreateInstance cfg s).1 = Some (Some err) ∧ r' = r) ∨
  ((CreateInstance cfg s).1 = Some None ∧ Config_Validate cfg = None ∧
   reg_byName r !! ic_Name cfg = None ∧
   ∃ inst, All r' = All r ++ [inst] ∧
     (∀ n, Get r' n = if ic_Name cfg == n then Some inst else Get r n) ∧
     pi_RecordType inst = ic_RecordType cfg ∧ EffectiveTarget inst = ic_Target cfg ∧
     pi_Mode inst ≠ "" ∧ pi_InstanceID inst = reg_instanceID r).
Proof.
  intros Hwf r r'. destruct (CreateInstance_cases cfg s) as [?|[Hres Hc]]; [by left|right].
  split; [done|]. destruct Hc as (f & p & d & w & w' & HV & HN & _ & _ & _ & Hr').
  split_and!; [done..|]. exists (newInstance cfg (reg_instanceID r) p d). unfold r'.
  rewrite Hr'. split_and!; [by apply All_add| |done|done|by apply newInstance_mode|done].
  intros n. by apply Get_add.
Qed.

Lemma deref_cons r a l :
  deref r (a :: l) = match reg_heap r !! a with Some i => i :: deref r l | None => deref r l end.
Proof. done. Qed.

Lemma deref_remove_first r a l i :
  (∀ b, b ∈ l → is_Some (reg_heap r !! b)) → a ∈ l → reg_heap r !! a = Some i →
  ∃ l1 l2, deref r l = l1 ++ i :: l2 ∧ deref r (remove_first a l) = l1 ++ l2.
Proof.
  intros Hall Ha Hi. induction l as [|b l IH]; [by apply not_elem_of_nil in Ha|].
  simpl remove_first. destruct (Nat.eqb_spec b a) as [->|Hne].
  - rewrite deref_cons, Hi. by exists [], (deref r l).
  - destruct (Hall b ltac:(by left)) as [j Hj].
    destruct IH as (l1 & l2 & E1 & E2); [set_solver|set_solver|].
    exists (j :: l1), l2. by rewrite !deref_cons, Hj, E1, E2.
Qed.

(** [Remove] of a registered name takes exactly that instance out of
    the priority list, keeping the order of the others, and makes the name
    unknown while every other name answers as before; [Remove] of an
    unknown name answers false and changes nothing. *)
Theorem Remove_spec r n :
  registry_wf r →
  let '(found, r') := Remove n r in
  (found = false ∧ r' = r ∧ Get r n = None) ∨
  (found = true ∧ ∃ inst l1 l2, Get r n = Some inst ∧
     All r = l1 ++ inst :: l2 ∧ All r' = l1 ++ l2 ∧ Count r = S (Count r') ∧
     (∀ m, Get r' m = if n == m then None else Get r m)).
Proof.
  intros Hwf. pose proof (Remove_wf n r Hwf) as Hwf'. unfold Remove, Get in *.
  destruct (reg_byName r !! n) as [a|] eqn:E; [right|by left]. split; [done|].
  assert (a ∈ reg_instances r) as Ha by (apply (rw_names _ Hwf); by eexists).
  destruct (rw_alloc _ Hwf a Ha) as [i Hi].
  destruct (deref_remove_first r a (reg_instances r) i (rw_alloc _ Hwf) Ha Hi)
    as (l1 & l2 & E1 & E2).
  exists i, l1, l2. split_and!; [done..| |].
  - unfold Count; simpl. rewrite <- (length_deref _ _ (rw_alloc _ Hwf)), E1.
    rewrite <- (length_deref r (remove_first a (reg_instances r))), E2.
    + rewrite !length_app. simpl. lia.
    + intros b. rewrite elem_of_remove_first by apply Hwf. intros [? _]. by apply Hwf.
  - intros m. simpl. destruct (String.eqb_spec n m) as [->|].
    + by rewrite lookup_delete_eq.
    + by rewrite lookup_delete_ne.
Qed.

(** The providers returned for a hostname are the registered instances
    whose patterns accept it and whose metadata filters every present
    metadata value satisfies, in priority order; [FirstMatchingProvider]
    is the first one by patterns alone. *)
Theorem MatchingProviders_spec r h m :
  sublist (MatchingProvidersForHostname r h m) (MatchingProviders r h) ∧
  sublist (MatchingProviders r h) (All r) ∧
  (∀ i, i ∈ MatchingProvidersForHostname r h m ↔
     i ∈ All r ∧ pi_Matches i h = true ∧
     ∀ key allowed value, pi_MetadataFilters i !! key = Some allowed →
       m !! key = Some value → value ∈ allowed) ∧
  FirstMatchingProvider r h = head (MatchingProviders r h).
Proof.
  split_and!.
  - unfold MatchingProvidersForHostname, MatchingProviders, MatchesWithMetadata, pi_Matches.
    induction (All r) as [|i l IH]; simpl; [constructor|].
    destruct (Matches (pi_Matcher i) h); simpl; [|done].
    destruct (matchesMetadataFilters _ _); by constructor.
  - apply filter_sublist.
  - intros i. unfold MatchingProvidersForHostname. rewrite elem_of_list_filter.
    unfold MatchesWithMetadata, pi_Matches. rewrite <- matchesMetadataFilters_spec.
    destruct (Matches _ _); simpl; naive_solver.
  - apply find_filter_head.
Qed.

Definition same_identity (k : ProviderIdentity * RecordType) (l : list (ProviderInstance W))
  : list string :=
  map pi_Name (List.filter (λ i, bool_decide (identityKey i = k)) l).

Lemma same_identity_app k l i :
  same_identity k (l ++ [i])
  = same_identity k l ++ (if bool_decide (identityKey i = k) then [pi_Name i] else []).
Proof.
  unfold same_identity. rewrite List.filter_app, map_app. simpl. by case_bool_decide.
Qed.

(** The grouping invariant: the groups are the non-empty classes. *)
Definition groups_of (l : list (ProviderInstance W))
    (g : list ((ProviderIdentity * RecordType) * list string)) : Prop :=
  ∀ k names, (k, names) ∈ g ↔ names = same_identity k l ∧ names ≠ [].

Lemma add_group_step l g i : groups_of l g → groups_of (l ++ [i]) (add_group g i).
Proof.
  intros Hg k names. unfold add_group. rewrite same_identity_app.
  destruct (existsb _ g) eqn:E.
  - apply existsb_elem in E as ([k' names'] & Hin & Hk%bool_decide_eq_true).
    simpl in Hk. subst k'. apply Hg in Hin as [-> Hne]. rewrite list_elem_of_fmap. split.
    + intros ([k' n'] & Heq & [-> Hne']%Hg). revert Heq. cbn [fst snd].
      destruct (bool_decide (k' = identityKey i)) eqn:Eb; bool_to_prop;
        intros [= -> ->]; subst.
      * rewrite bool_decide_eq_true_2 by done. split; [done|]. by destruct (same_identity _ _).
      * rewrite bool_decide_eq_false_2 by congruence. by rewrite app_nil_r.
    + intros [-> Hne']. exists (k, same_identity k l). simpl.
      destruct (decide (identityKey i = k)) as [<-|Hk].
      * rewrite !bool_decide_eq_true_2 by done. split; [done|]. by apply Hg.
      * rewrite bool_decide_eq_false_2, bool_decide_eq_false_2 in * by congruence.
        rewrite app_nil_r in *. split; [done|]. by apply Hg.
  - assert (same_identity (identityKey i) l = []) as Hnil.
    { destruct (same_identity (identityKey i) l) eqn:Es; [done|].
      rewrite existsb_not_elem in E.
      specialize (E (identityKey i, same_identity (identityKey i) l)).
      rewrite bool_decide_eq_true_2 in E by done.
      discriminate E. apply Hg. by rewrite Es. }
    rewrite elem_of_app, list_elem_of_singleton. split.
    + intros [[-> Hne]%Hg|[= -> ->]].
      * rewrite bool_decide_eq_false_2; [by rewrite app_nil_r|]. by intros <-.
      * rewrite bool_decide_eq_true_2 by done. by rewrite Hnil.
    + intros [-> Hne]. destruct (decide (identityKey i = k)) as [<-|Hk].
      * right. rewrite bool_decide_eq_true_2 by done. by rewrite Hnil.
      * left. rewrite bool_decide_eq_false_2, app_nil_r in * by done. by apply Hg.
Qed.

Lemma fold_add_group l l0 g : groups_of l0 g → groups_of (l0 ++ l) (fold_left add_group l g).
Proof.
  revert l0 g. induction l as [|i l IH]; intros l0 g Hg; simpl; [by rewrite app_nil_r|].
  rewrite (cons_middle i l0 l), app_assoc. by apply IH, add_group_step.
Qed.

(** [WarnDuplicateIdentities] warns about exactly the pairs of a backend
    identity and a record type that two or more registered instances
    share, and names all of those instances in priority order. *)
Theorem WarnDuplicateIdentities_spec r k names :
  (k, names) ∈ WarnDuplicateIdentities r ↔
  names = map pi_Name (List.filter (λ i, bool_decide (identityKey i = k)) (All r)) ∧
  2 ≤ length names.
Proof.
  unfold WarnDuplicateIdentities. rewrite elem_of_list_filter. simpl.
  assert (groups_of ([] ++ All r) (fold_left add_group (All r) [])) as Hg.
  { apply fold_add_group. intros k' n'. split; [by intros ?%not_elem_of_nil|]. by intros [-> ?]. }
  rewrite (Hg k names). fold (same_identity k (All r)). simpl.
  rewrite negb_true_iff, Nat.ltb_ge. split; [naive_solver|]. intros [-> Hl]. split; [|done].
  split; [done|]. intros Hn. rewrite Hn in Hl. simpl in Hl. lia.
Qed.
End RegistryProperties.

(** ** A registry built step by step *)
Section RegistrySample.
#[local] Existing Instance glob_engine.

Definition sample_config (name : string) : ProviderInstanceConfig :=
  mkInstanceConfig name "memory" RecordTypeA "192.0.2.1" 300 "" ["*.example.com"] [] [] [] ∅ ∅.
Definition sample_factory : Factory MemWorld :=
  λ cfg w, (inl (mem_provider (fc_Name cfg) txt_caps), w).
Definition sample_registry0 : Registry MemWorld :=
  RegisterFactory "memory" sample_factory NewRegistry.
Definition sample_state : St MemWorld (Registry MemWorld) := mkSt ∅ [] sample_registry0.
Definition sample_registry : Registry MemWorld :=
  st_local (CreateInstance (sample_config "dns1") sample_state).2.

Lemma sample_reachable : registry_reachable sample_registry.
Proof.
  eapply rtc_l; [apply (step_factory "memory" sample_factory)|].
  eapply rtc_l; [apply (step_create (sample_config "dns1") sample_state)|]. apply rtc_refl.
Qed.

Lemma registry_consistent_witness :
  registry_reachable sample_registry ∧ Count sample_registry = 1 ∧
  length (All sample_registry) = Count sample_registry.
Proof.
  split; [exact sample_reachable|]. split; [vm_compute; reflexivity|].
  apply (registry_consistent sample_registry sample_reachable).
Defined.

Lemma CreateInstance_atomic_witness :
  registry_wf (st_local sample_state) ∧
  (CreateInstance (sample_config "dns1") sample_state).1 = Some None ∧
  ((∃ err, (CreateInstance (sample_config "dns1") sample_state).1 = Some (Some err)
           ∧ sample_registry = sample_registry0) ∨
   (CreateInstance (sample_config "dns1") sample_state).1 = Some None).
Proof.
  assert (registry_wf (st_local sample_state)) as Hwf.
  { apply (registry_step_wf NewRegistry); [apply step_factory|apply NewRegistry_wf]. }
  split; [exact Hwf|]. split; [vm_compute; reflexivity|].
  destruct (CreateInstance_atomic (sample_config "dns1") sample_state Hwf) as [Hl|Hr];
    [left; exact Hl|right; apply Hr].
Defined.

Lemma Remove_spec_witness :
  registry_wf sample_registry ∧ (Remove "dns1" sample_registry).1 = true ∧
  Get (Remove "dns1" sample_registry).2 "dns1" = None.
Proof.
  pose proof (reachable_wf _ sample_reachable) as Hwf.
  split; [exact Hwf|]. split; [vm_compute; reflexivity|].
  pose proof (Remove_spec sample_registry "dns1" Hwf) as Hs.
  destruct (Remove "dns1" sample_registry) as [found r'].
  destruct Hs as [(_ & -> & Hg)|(_ & i & l1 & l2 & _ & _ & _ & _ & Hg)]; [exact Hg|].
  rewrite Hg. reflexivity.
Defined.
End RegistrySample.
