(* ===== verification/Result.v ===== *)
(** * Reconciliation results (internal/reconciler/result.go)

    Start and end times and the printed duration are left out. *)
From S2P Require Import Prelude GoStrings.

Inductive ActionType := ActionCreate | ActionUpdate | ActionDelete | ActionSkip.

(** [StatusUnset] is the zero value of the string type. *)
Inductive ActionStatus :=
| StatusUnset | StatusPending | StatusSuccess | StatusFailed | StatusSkipped.

#[export] Instance ActionType_eq_dec : EqDecision ActionType.
Proof. solve_decision. Defined.
#[export] Instance ActionStatus_eq_dec : EqDecision ActionStatus.
Proof. solve_decision. Defined.

Definition ActionType_text (t : ActionType) : string :=
  match t with
  | ActionCreate => "create" | ActionUpdate => "update"
  | ActionDelete => "delete" | ActionSkip => "skip"
  end.
Definition ActionStatus_text (s : ActionStatus) : string :=
  match s with
  | StatusUnset => "" | StatusPending => "pending" | StatusSuccess => "success"
  | StatusFailed => "failed" | StatusSkipped => "skipped"
  end.

Record Action := mkAction {
  a_Type : ActionType;
  a_Status : ActionStatus;
  a_Provider : string;
  a_Hostname : string;
  a_RecordType : string;
  a_Target : string;
  a_Error : string;
  a_DryRun : bool
}.

Definition Action_String (a : Action) : string :=
  let status := if a_DryRun a && bool_decide (a_Status a = StatusSuccess)
                then "dry-run" else ActionStatus_text (a_Status a) in
  let body := "[" ++s status ++s "] " ++s ActionType_text (a_Type a) ++s " " ++s a_Hostname a
              ++s " -> " ++s a_Target a ++s " (" ++s a_RecordType a ++s " "
              ++s a_Provider a ++s ")" in
  if a_Error a != "" then body ++s ": " ++s a_Error a else body.

Record Result := mkResult {
  res_WorkloadsScanned : nat;
  res_HostnamesDiscovered : nat;
  res_HostnamesInvalid : nat;
  res_HostnamesDuplicate : nat;
  res_Actions : list Action;
  res_DryRun : bool
}.

Definition NewResult (dryRun : bool) : Result := mkResult 0 0 0 0 [] dryRun.

Definition set_DryRun (d : bool) (a : Action) : Action :=
  mkAction (a_Type a) (a_Status a) (a_Provider a) (a_Hostname a) (a_RecordType a)
           (a_Target a) (a_Error a) d.

Definition AddAction (r : Result) (action : Action) : Result :=
  mkResult (res_WorkloadsScanned r) (res_HostnamesDiscovered r) (res_HostnamesInvalid r)
           (res_HostnamesDuplicate r)
           (res_Actions r ++ [set_DryRun (res_DryRun r) action]) (res_DryRun r).

Definition filterActions (r : Result) (t : ActionType) (s : ActionStatus) : list Action :=
  List.filter (λ a, bool_decide (a_Type a = t) && bool_decide (a_Status a = s)) (res_Actions r).

Definition Created (r : Result) : list Action := filterActions r ActionCreate StatusSuccess.
Definition Updated (r : Result) : list Action := filterActions r ActionUpdate StatusSuccess.
Definition Deleted (r : Result) : list Action := filterActions r ActionDelete StatusSuccess.

Definition Failed (r : Result) : list Action :=
  List.filter (λ a, bool_decide (a_Status a = StatusFailed)) (res_Actions r).

Definition Skipped (r : Result) : list Action :=
  List.filter (λ a, bool_decide (a_Status a = StatusSkipped) || bool_decide (a_Type a = ActionSkip))
              (res_Actions r).

Definition CreatedCount (r : Result) : nat := length (Created r).
Definition UpdatedCount (r : Result) : nat := length (Updated r).
Definition DeletedCount (r : Result) : nat := length (Deleted r).
Definition FailedCount (r : Result) : nat := length (Failed r).
Definition HasErrors (r : Result) : bool := (0 <? FailedCount r)%nat.

(** Actions as the reconciler emits them: the status is set, and a skip is a
    skip in both fields. *)
Definition action_ok (a : Action) : Prop :=
  (a_Type a = ActionSkip ∧ a_Status a = StatusSkipped) ∨
  (a_Type a ≠ ActionSkip ∧ (a_Status a = StatusSuccess ∨ a_Status a = StatusFailed)).

Lemma set_DryRun_ok d a : action_ok (set_DryRun d a) ↔ action_ok a.
Proof. done. Qed.

(** On such actions the five counters partition the list. *)
Lemma counts_partition r :
  Forall action_ok (res_Actions r) →
  CreatedCount r + UpdatedCount r + DeletedCount r + FailedCount r + length (Skipped r)
  = length (res_Actions r).
Proof.
  unfold CreatedCount, UpdatedCount, DeletedCount, FailedCount, Created, Updated, Deleted,
    Failed, Skipped, filterActions.
  destruct r as [? ? ? ? l ?]; simpl. induction 1 as [|a l Ha _ IH]; [done|].
  destruct Ha as [[Ht Hs]|[Ht [Hs|Hs]]]; simpl; rewrite Hs;
    repeat case_bool_decide; simpl; try congruence; try lia;
    destruct (a_Type a); simplify_eq/=; lia.
Qed.
