(* ===== verification/Cache.v ===== *)
(** * The record cache (internal/reconciler/cache.go) *)
From S2P Require Import Prelude GoStrings Errors Hostname ProviderTypes Matcher GoMaps Effects.
From S2P Require Import Instance.
From Stdlib Require Import ZArith.

(** Provider name to normalised hostname to records; [None] is the nil map
    stored for a provider that failed to list. *)
Record recordCache := mkCache {
  cache_records : gmap string (nilable (gmap string (list DNSRecord)))
}.

(** The index of the records of one provider. *)
Definition indexRecord (byHostname : gmap string (list DNSRecord)) (r : DNSRecord)
  : gmap string (list DNSRecord) :=
  let normalized := NormalizeHostname (r_Hostname r) in
  <[normalized := default [] (byHostname !! normalized) ++ [r]]> byHostname.

Definition indexRecords (l : list DNSRecord) : gmap string (list DNSRecord) :=
  fold_left indexRecord l ∅.

Section Cache.
Context `{RegexpEngine} {W L : Type}.

Definition cacheInstance (cache : recordCache) (inst : ProviderInstance W)
  : M W L recordCache :=
  res <- prov_list (pi_Provider inst) ;;
  ret (mkCache (<[pi_Name inst :=
                  match res with
                  | inr _ => None
                  | inl providerRecords => Some (indexRecords providerRecords)
                  end]> (cache_records cache))).

Definition newRecordCache (instances : list (ProviderInstance W)) : M W L recordCache :=
  foldM cacheInstance (mkCache ∅) instances.

Lemma ensures_newRecordCache (P : Call → Prop) instances :
  (∀ inst, inst ∈ instances → P (CallList (pi_Name inst))) →
  ensures P (λ _, True) (newRecordCache instances).
Proof.
  intros HP. apply ensures_foldM; [done|]. intros b a Ha _.
  eapply ensures_bind; [by apply ensures_prov_list, HP|]. intros. by apply ensures_ret.
Qed.
End Cache.
#[export] Hint Resolve ensures_newRecordCache : ensures_db.

(** [byHostname] of a provider: [None] when the provider is missing or nil. *)
Definition providerIndex (c : recordCache) (providerName : string)
  : option (gmap string (list DNSRecord)) :=
  match cache_records c !! providerName with
  | Some (Some byHostname) => Some byHostname
  | _ => None
  end.

Definition getExistingRecords (c : recordCache) (providerName hostname : string)
  : list DNSRecord * bool :=
  match providerIndex c providerName with
  | None => ([], false)
  | Some byHostname =>
      let records := default [] (byHostname !! NormalizeHostname hostname) in
      (List.filter (λ r, is_data_type (r_Type r)) records, true)
  end.

Definition getAllRecordsForHostname (c : recordCache) (providerName hostname : string)
  : list DNSRecord * bool :=
  match providerIndex c providerName with
  | None => ([], false)
  | Some byHostname =>
      let records := default [] (byHostname !! NormalizeHostname hostname) in
      (List.filter (λ r, is_data_type (r_Type r)) records, true)
  end.

Definition hasOwnershipRecord (c : recordCache) (providerName hostname instanceID : string)
  : bool :=
  match providerIndex c providerName with
  | None => false
  | Some byHostname =>
      let ownershipName := OwnershipRecordName hostname in
      let records := default [] (byHostname !! NormalizeHostname ownershipName) in
      existsb (λ r, (r_Type r == RecordTypeTXT) && MatchesOwnership (r_Target r) instanceID) records
  end.

(** ** What the index holds *)

Lemma indexRecords_lookup l n :
  default [] (indexRecords l !! n)
  = List.filter (λ r, NormalizeHostname (r_Hostname r) == n) l.
Proof.
  unfold indexRecords.
  assert (∀ m, default [] (fold_left indexRecord l m !! n)
    = default [] (m !! n) ++ List.filter (λ r, NormalizeHostname (r_Hostname r) == n) l) as ->.
  { induction l as [|r l IH]; intros m; simpl; [by rewrite app_nil_r|].
    rewrite IH. unfold indexRecord. destruct (String.eqb_spec (NormalizeHostname (r_Hostname r)) n)
      as [<-|Hn].
    - rewrite lookup_insert_eq. simpl. by rewrite <- app_assoc.
    - by rewrite lookup_insert_ne. }
  by rewrite lookup_empty.
Qed.

(** The cache entry of a provider describes the listing [l]. *)
Definition caches (c : recordCache) (providerName : string) (l : list DNSRecord) : Prop :=
  providerIndex c providerName = Some (indexRecords l).

Section Lookups.
Context (c : recordCache) (p : string) (l : list DNSRecord) (Hc : caches c p l).

Lemma getExistingRecords_caches h :
  getExistingRecords c p h =
  (List.filter (λ r, is_data_type (r_Type r))
     (List.filter (λ r, NormalizeHostname (r_Hostname r) == NormalizeHostname h) l), true).
Proof. unfold getExistingRecords. by rewrite Hc, indexRecords_lookup. Qed.

Lemma hasOwnershipRecord_caches h id :
  hasOwnershipRecord c p h id = true ↔
  ∃ r, r ∈ l ∧ NormalizeHostname (r_Hostname r) = NormalizeHostname (OwnershipRecordName h) ∧
       r_Type r = RecordTypeTXT ∧ MatchesOwnership (r_Target r) id = true.
Proof.
  unfold hasOwnershipRecord. rewrite Hc, indexRecords_lookup, existsb_elem.
  setoid_rewrite elem_of_list_filter. setoid_rewrite andb_true_iff.
  setoid_rewrite String.eqb_eq. naive_solver.
Qed.
End Lookups.

(** Both lookups return only data records, never TXT markers. *)
Lemma getExistingRecords_data c p h r :
  r ∈ (getExistingRecords c p h).1 → is_data_type (r_Type r) = true.
Proof.
  unfold getExistingRecords. destruct (providerIndex c p); simpl.
  - by intros [_ ?]%elem_of_list_filter.
  - by intros ?%not_elem_of_nil.
Qed.

Lemma getAllRecordsForHostname_eq c p h :
  getAllRecordsForHostname c p h = getExistingRecords c p h.
Proof. done. Qed.

(** ** Well-formed caches: a record is indexed under its normal form *)
Definition cache_wf (c : recordCache) : Prop :=
  ∀ p idx n r, providerIndex c p = Some idx → r ∈ default [] (idx !! n) →
    NormalizeHostname (r_Hostname r) = n.

Lemma indexRecords_wf l n r :
  r ∈ default [] (indexRecords l !! n) → NormalizeHostname (r_Hostname r) = n.
Proof. rewrite indexRecords_lookup. by intros [_ ?%String.eqb_eq]%elem_of_list_filter. Qed.

Lemma cache_wf_insert c n x :
  cache_wf c →
  match x with Some idx => ∃ l, idx = indexRecords l | None => True end →
  cache_wf (mkCache (<[n := x]> (cache_records c))).
Proof.
  intros Hwf Hx p idx m r. unfold providerIndex. simpl.
  destruct (decide (n = p)) as [->|]; [rewrite lookup_insert_eq|by rewrite lookup_insert_ne by done; apply Hwf].
  destruct x as [idx'|]; [|done]. intros [= <-]. destruct Hx as [l ->]. apply indexRecords_wf.
Qed.

Lemma newRecordCache_wf `{RegexpEngine} {W L} (P : Call → Prop) (instances : list (ProviderInstance W)) :
  (∀ inst, inst ∈ instances → P (CallList (pi_Name inst))) →
  ensures (L:=L) P cache_wf (newRecordCache instances).
Proof.
  intros HP. apply ensures_foldM; [by intros ???; unfold providerIndex; simpl; rewrite lookup_empty|].
  intros c inst Hin Hc. eapply ensures_bind; [by apply ensures_prov_list, HP|].
  intros res _. apply ensures_ret, cache_wf_insert; [done|]. destruct res; [by eexists|done].
Qed.

(** The data records a lookup returns carry the looked-up name. *)
Lemma getExistingRecords_named c p h r :
  cache_wf c → r ∈ (getExistingRecords c p h).1 →
  NormalizeHostname (r_Hostname r) = NormalizeHostname h.
Proof.
  intros Hwf. unfold getExistingRecords. destruct (providerIndex c p) eqn:E; simpl.
  - intros [Hr _]%elem_of_list_filter. by eapply Hwf.
  - by intros ?%not_elem_of_nil.
Qed.
