(* ===== verification/Comparison.v ===== *)
(** * Comparing record sets (internal/reconciler/comparison.go) *)
From S2P Require Import Prelude GoStrings Hostname ProviderTypes GoMaps.
From Stdlib Require Import ZArith.

Record RecordPair := mkPair { rp_Existing : DNSRecord; rp_Desired : DNSRecord }.

Record RecordDiff := mkDiff {
  ToCreate : list DNSRecord;
  ToUpdate : list RecordPair;
  ToDelete : list DNSRecord;
  Unchanged : list DNSRecord
}.

Definition HasChanges (d : RecordDiff) : bool :=
  (0 <? length (ToCreate d))%nat || (0 <? length (ToUpdate d))%nat
  || (0 <? length (ToDelete d))%nat.

Definition TotalChanges (d : RecordDiff) : nat :=
  length (ToCreate d) + length (ToUpdate d) + length (ToDelete d).

(** [srvDataEquals] of internal/reconciler/actions.go. *)
Definition srvDataEquals (a b : nilable SRVData) : bool :=
  match a, b with
  | None, None => true
  | Some a, Some b => (srv_Priority a =? srv_Priority b)%Z && (srv_Weight a =? srv_Weight b)%Z
                      && (srv_Port a =? srv_Port b)%Z
  | _, _ => false
  end.

Definition formatSRVKey (srv : nilable SRVData) : string :=
  match srv with
  | None => ""
  | Some srv => itoa (srv_Priority srv) ++s ":" ++s itoa (srv_Weight srv)
                ++s ":" ++s itoa (srv_Port srv)
  end.

Definition recordKey (r : DNSRecord) : string :=
  let normalized := NormalizeHostname (r_Hostname r) in
  let key := normalized ++s "|" ++s r_Type r ++s "|" ++s r_Target r in
  if (r_Type r == RecordTypeSRV) && bool_decide (r_SRV r ≠ None)
  then key ++s "|" ++s formatSRVKey (r_SRV r)
  else key.

Definition recordNeedsUpdate (existing desired : DNSRecord) : bool :=
  if negb (r_TTL existing =? r_TTL desired)%Z then true
  else if (r_Type existing == RecordTypeSRV)
          && negb (srvDataEquals (r_SRV existing) (r_SRV desired)) then true
  else false.

(** The map loops: a later record replaces an earlier one with its key. *)
Definition keyed (l : list DNSRecord) : gmap string DNSRecord :=
  fold_left (λ m r, <[recordKey r := r]> m) l ∅.

(** The first diff loop's body. *)
Definition diffDesired (existingMap : gmap string DNSRecord) (diff : RecordDiff)
    (kv : string * DNSRecord) : RecordDiff :=
  let '(key, desiredRecord) := kv in
  match existingMap !! key with
  | Some existingRecord =>
      if recordNeedsUpdate existingRecord desiredRecord
      then mkDiff (ToCreate diff) (ToUpdate diff ++ [mkPair existingRecord desiredRecord])
                  (ToDelete diff) (Unchanged diff)
      else mkDiff (ToCreate diff) (ToUpdate diff) (ToDelete diff)
                  (Unchanged diff ++ [existingRecord])
  | None => mkDiff (ToCreate diff ++ [desiredRecord]) (ToUpdate diff) (ToDelete diff)
                   (Unchanged diff)
  end.

(** The second diff loop's body. *)
Definition diffExisting (desiredMap : gmap string DNSRecord) (diff : RecordDiff)
    (kv : string * DNSRecord) : RecordDiff :=
  let '(key, existingRecord) := kv in
  match desiredMap !! key with
  | Some _ => diff
  | None => mkDiff (ToCreate diff) (ToUpdate diff) (ToDelete diff ++ [existingRecord])
                   (Unchanged diff)
  end.

Section Compare.
Context `{MapOrder}.

Definition CompareRecordSets (existing desired : list DNSRecord) : RecordDiff :=
  let existingMap := keyed existing in
  let desiredMap := keyed desired in
  let diff := fold_left (diffDesired existingMap) (range desiredMap) (mkDiff [] [] [] []) in
  fold_left (diffExisting desiredMap) (range existingMap) diff.

Definition CompareForHostname (existing desired : list DNSRecord) (hostname : string)
  : RecordDiff :=
  let normalizedHostname := NormalizeHostname hostname in
  let here r := NormalizeHostname (r_Hostname r) == normalizedHostname in
  CompareRecordSets (List.filter here existing) (List.filter here desired).
End Compare.

Definition categorizeSameHostnameRecords (records : list DNSRecord) (desiredType : RecordType)
  : list DNSRecord * list DNSRecord :=
  (List.filter (λ r, r_Type r == desiredType) records,
   List.filter (λ r, r_Type r != desiredType) records).

Definition findExactMatch (records : list DNSRecord) (target : string) (recordType : RecordType)
    (srvData : nilable SRVData) : option DNSRecord :=
  List.find (λ r,
    if r_Type r != recordType then false
    else if r_Target r != target then false
    else if recordType == RecordTypeSRV then srvDataEquals (r_SRV r) srvData
    else true) records.

Definition findStaleSRVRecords (records : list DNSRecord) (target : string)
    (desiredSRV : nilable SRVData) : list DNSRecord :=
  List.filter (λ r,
    if r_Type r != RecordTypeSRV then false
    else if r_Target r != target then false
    else negb (srvDataEquals (r_SRV r) desiredSRV)) records.

(** ** Facts *)

Lemma srvDataEquals_eq a b : srvDataEquals a b = true ↔ a = b.
Proof.
  destruct a as [[p w t]|], b as [[p' w' t']|]; simpl; try done.
  rewrite !andb_true_iff, !Z.eqb_eq. naive_solver.
Qed.

Lemma srvDataEquals_refl a : srvDataEquals a a = true.
Proof. by apply srvDataEquals_eq. Qed.

Lemma keyed_lookup l k r :
  keyed l !! k = Some r → r ∈ l ∧ recordKey r = k.
Proof.
  unfold keyed.
  assert (∀ m : gmap string DNSRecord, fold_left (λ m r, <[recordKey r := r]> m) l m !! k = Some r →
    (r ∈ l ∧ recordKey r = k) ∨ m !! k = Some r) as Hm.
  { induction l as [|r' l IH]; intros m; simpl; [by right|].
    intros [[? ?]|Hk]%IH; [left; split; [by right|done]|].
    apply lookup_insert_Some in Hk as [[<- ->]|[_ ?]]; [left; split; [by left|done]|by right]. }
  intros [?|Hk]%Hm; [done|]. by rewrite lookup_empty in Hk.
Qed.

Lemma keyed_Some l k : is_Some (keyed l !! k) ↔ k ∈ map recordKey l.
Proof.
  unfold keyed.
  assert (∀ m : gmap string DNSRecord, is_Some (fold_left (λ m r, <[recordKey r := r]> m) l m !! k) ↔
    k ∈ map recordKey l ∨ is_Some (m !! k)) as ->.
  { induction l as [|r l IH]; intros m; simpl.
    - split; [by right|]. intros [?%not_elem_of_nil|?]; done.
    - rewrite IH, lookup_insert_is_Some, elem_of_cons. destruct (decide (recordKey r = k)); naive_solver. }
  rewrite lookup_empty, is_Some_alt. naive_solver.
Qed.

Section CompareFacts.
Context `{MapOrder}.

Definition diff_create (em dm : gmap string DNSRecord) (kv : string * DNSRecord) : option DNSRecord :=
  match em !! kv.1 with Some _ => None | None => Some kv.2 end.
Definition diff_update (em : gmap string DNSRecord) (kv : string * DNSRecord) : option RecordPair :=
  match em !! kv.1 with
  | Some e => if recordNeedsUpdate e kv.2 then Some (mkPair e kv.2) else None
  | None => None
  end.
Definition diff_keep (em : gmap string DNSRecord) (kv : string * DNSRecord) : option DNSRecord :=
  match em !! kv.1 with
  | Some e => if recordNeedsUpdate e kv.2 then None else Some e
  | None => None
  end.

Lemma fold_diffDesired em dm l d :
  fold_left (diffDesired em) l d =
  mkDiff (ToCreate d ++ omap (diff_create em dm) l) (ToUpdate d ++ omap (diff_update em) l)
         (ToDelete d) (Unchanged d ++ omap (diff_keep em) l).
Proof.
  revert d. induction l as [|[k r] l IH]; intros d; simpl.
  - rewrite !app_nil_r. by destruct d.
  - rewrite IH. unfold diff_create at 2, diff_update at 2, diff_keep at 2. simpl.
    destruct (em !! k) as [e|]; [destruct (recordNeedsUpdate e r)|]; simpl;
      by rewrite <- ?app_assoc.
Qed.

Lemma fold_diffExisting dm l d :
  fold_left (diffExisting dm) l d =
  mkDiff (ToCreate d) (ToUpdate d) (ToDelete d ++ omap (diff_create dm dm) l) (Unchanged d).
Proof.
  revert d. induction l as [|[k r] l IH]; intros d; simpl.
  - rewrite !app_nil_r. by destruct d.
  - rewrite IH. unfold diff_create at 2. simpl.
    destruct (dm !! k); simpl; by rewrite <- ?app_assoc.
Qed.

Lemma CompareRecordSets_eq existing desired :
  let em := keyed existing in let dm := keyed desired in
  CompareRecordSets existing desired =
  mkDiff (omap (diff_create em dm) (range dm)) (omap (diff_update em) (range dm))
         (omap (diff_create dm dm) (range em)) (omap (diff_keep em) (range dm)).
Proof.
  unfold CompareRecordSets. by rewrite (fold_diffDesired _ (keyed desired)), fold_diffExisting.
Qed.

Lemma elem_of_range_omap {A B} (f : string * A → option B) (m : gmap string A) y :
  y ∈ omap f (range m) ↔ ∃ k x, m !! k = Some x ∧ f (k, x) = Some y.
Proof.
  rewrite list_elem_of_omap. split.
  - intros ([k x] & Hk%elem_of_range & Hf). eauto.
  - intros (k & x & Hk & Hf). exists (k, x). by rewrite elem_of_range.
Qed.

(** [CompareRecordSets] is a correct diff by record key (normalised
    hostname, type, target, and for SRV the service data), whatever order
    the maps are walked in: created are the desired records whose key does
    not exist, updated and unchanged those whose key exists, by
    [recordNeedsUpdate], deleted the existing ones that are not desired. *)
Theorem CompareRecordSets_spec existing desired :
  let d := CompareRecordSets existing desired in
  let em := keyed existing in let dm := keyed desired in
  (∀ r, r ∈ ToCreate d ↔ dm !! recordKey r = Some r ∧ em !! recordKey r = None) ∧
  (∀ r, r ∈ ToDelete d ↔ em !! recordKey r = Some r ∧ dm !! recordKey r = None) ∧
  (∀ p, p ∈ ToUpdate d ↔
     em !! recordKey (rp_Desired p) = Some (rp_Existing p) ∧
     dm !! recordKey (rp_Desired p) = Some (rp_Desired p) ∧
     recordNeedsUpdate (rp_Existing p) (rp_Desired p) = true) ∧
  (∀ e, e ∈ Unchanged d ↔ em !! recordKey e = Some e ∧
     ∃ r, dm !! recordKey e = Some r ∧ recordNeedsUpdate e r = false).
Proof.
  intros d em dm. unfold d. rewrite CompareRecordSets_eq. fold em dm. simpl.
  setoid_rewrite elem_of_range_omap. unfold diff_create, diff_update, diff_keep. simpl.
  assert (∀ k r, em !! k = Some r → recordKey r = k) as He by (intros ? ? []%keyed_lookup; done).
  assert (∀ k r, dm !! k = Some r → recordKey r = k) as Hd by (intros ? ? []%keyed_lookup; done).
  split_and!; intros r; split.
  - intros (k & x & Hk & Hx). destruct (em !! k) eqn:E; simplify_eq.
    by rewrite (Hd _ _ Hk).
  - intros [H1 H2]. exists (recordKey r), r. by rewrite H2.
  - intros (k & x & Hk & Hx). destruct (dm !! k) eqn:E; simplify_eq.
    by rewrite (He _ _ Hk).
  - intros [H1 H2]. exists (recordKey r), r. by rewrite H2.
  - intros (k & x & Hk & Hx). destruct (em !! k) as [e|] eqn:E; [|done].
    destruct (recordNeedsUpdate e x) eqn:En; [|done]. simplify_eq/=.
    by rewrite (Hd _ _ Hk).
  - intros (H1 & H2 & H3). exists (recordKey (rp_Desired r)), (rp_Desired r).
    rewrite H1, H3. split; [done|]. by destruct r.
  - intros (k & x & Hk & Hx). destruct (em !! k) as [e|] eqn:E; [|done].
    destruct (recordNeedsUpdate e x) eqn:En; [done|]. simplify_eq/=.
    rewrite (He _ _ E). eauto.
  - intros (H1 & x & H2 & H3). exists (recordKey r), x. by rewrite H1, H3.
Qed.
End CompareFacts.

Lemma recordNeedsUpdate_refl r : recordNeedsUpdate r r = false.
Proof.
  unfold recordNeedsUpdate. rewrite Z.eqb_refl, srvDataEquals_refl. simpl.
  by rewrite andb_false_r.
Qed.

Section CompareCorollaries.
Context `{MapOrder}.

Lemma omap_nil {A B} (f : A → option B) l : (∀ x, x ∈ l → f x = None) → omap f l = [].
Proof.
  induction l as [|x l IH]; intros Hf; [done|]. simpl.
  rewrite (Hf x) by (by left). apply IH. intros y Hy. apply Hf. by right.
Qed.

(** Nothing changes when the records are already as desired. *)
Lemma CompareRecordSets_refl l : HasChanges (CompareRecordSets l l) = false.
Proof.
  rewrite CompareRecordSets_eq. unfold HasChanges. simpl.
  assert (∀ f : string * DNSRecord → option DNSRecord,
    f = diff_create (keyed l) (keyed l) → omap f (range (keyed l)) = []) as Hc.
  { intros f ->. apply omap_nil. intros [k r] Hk%elem_of_range.
    unfold diff_create; simpl. by rewrite Hk. }
  rewrite !(Hc (diff_create (keyed l) (keyed l))) by done.
  rewrite omap_nil; [done|]. intros [k r] Hk%elem_of_range.
  unfold diff_update; simpl. by rewrite Hk, recordNeedsUpdate_refl.
Qed.

Lemma recordKey_target r r' :
  r_Type r ≠ RecordTypeSRV → NormalizeHostname (r_Hostname r) = NormalizeHostname (r_Hostname r') →
  r_Type r = r_Type r' → recordKey r = recordKey r' → r_Target r = r_Target r'.
Proof.
  intros Hs Hh Ht. unfold recordKey. rewrite <- Hh, <- Ht.
  replace (r_Type r == RecordTypeSRV) with false by (symmetry; by apply String.eqb_neq).
  simpl. by intros ?%app_inj_prefix%app_inj_prefix%app_inj_prefix%app_inj_prefix.
Qed.

(** A changed target is not an update for [CompareRecordSets]: the
    target is part of the key, so for a record of the same hostname and
    type (other than SRV) with another target the diff creates the desired
    record and deletes the existing one. *)
Theorem CompareRecordSets_target_change e d :
  r_Type d ≠ RecordTypeSRV → r_Type e = r_Type d →
  NormalizeHostname (r_Hostname e) = NormalizeHostname (r_Hostname d) →
  r_Target e ≠ r_Target d →
  CompareRecordSets [e] [d] = mkDiff [d] [] [e] [].
Proof.
  intros Hs Ht Hh Hne. rewrite CompareRecordSets_eq.
  assert (recordKey e ≠ recordKey d) as Hk.
  { intros ?%recordKey_target; try done. by rewrite Ht. }
  assert (∀ r : DNSRecord, keyed [r] = {[ recordKey r := r ]}) as Hkd by done.
  rewrite !Hkd.
  assert (∀ r : DNSRecord, range {[ recordKey r := r ]} = [(recordKey r, r)]) as Hr.
  { intros r. apply Permutation_singleton_r. by rewrite range_perm, map_to_list_singleton. }
  rewrite !Hr. simpl. unfold diff_create, diff_update, diff_keep. simpl.
  by rewrite !lookup_singleton_ne.
Qed.
End CompareCorollaries.

Lemma CompareRecordSets_target_change_witness :
  let e := mkRecord "app.example.com" "A" "10.0.0.1" 300 "" None None ∅ in
  let d := mkRecord "APP.example.com" "A" "10.0.0.2" 300 "" None None ∅ in
  @CompareRecordSets key_order [e] [d] = mkDiff [d] [] [e] [].
Proof.
  intros e d.
  apply (@CompareRecordSets_target_change key_order e d);
    [discriminate|reflexivity|vm_compute; reflexivity|discriminate].
Defined.
