(* ===== verification/Actions.v ===== *)
(** * Ensuring records (internal/reconciler/actions.go)

    The reconciler's configuration, its state, and the creation and update
    of the records of one hostname.  The run-time flags [enabled] and
    [dryRun] are fields of [Reconciler]: constant during one operation. *)
From S2P Require Import Prelude GoStrings Errors Workload Hostname ProviderTypes Matcher.
From S2P Require Import GoMaps Effects SourceRegistry Instance MemProvider Registry Result.
From S2P Require Import Cache Comparison.
From Stdlib Require Import ZArith.

Definition errRecordAlreadyExists : string := "record already exists".
Definition errRecordTypeConflict : string := "record type conflict".
Definition errNoMatchingProvider : string := "no matching provider".

(** [ReconcileInterval] only drives the timer of the main program. *)
Record Config := mkConfig {
  cf_DryRun : bool;
  cf_CleanupOrphans : bool;
  cf_OwnershipTracking : bool;
  cf_AdoptExisting : bool;
  cf_Enabled : bool;
  cf_InstanceID : string
}.

Definition DefaultConfig : Config := mkConfig false true true false true "".

(** The fields of [Reconciler] that a cycle only reads. *)
Record Reconciler {W R : Type} := mkReconciler {
  rc_listers : list (Lister W);
  rc_sources : SourceRegistry W;
  rc_providers : R;
  rc_config : Config;
  rc_enabled : bool;
  rc_dryRun : bool
}.
Arguments Reconciler : clear implicits.
Arguments mkReconciler {W R} _ _ _ _ _ _ : assert.

(** The fields it writes. *)
Record RState := mkRState {
  rs_knownHostnames : goset;
  rs_hostnameProviders : gmap string (list string);
  rs_recoveredMetadata : nilable (gmap string (gmap string string))
}.

(** [getRecoveredMetadata]: reading an entry removes it. *)
Definition recovered_for (st : RState) (hostname : string) : gmap string string :=
  match rs_recoveredMetadata st with
  | None => ∅
  | Some m => default ∅ (m !! NormalizeHostname hostname)
  end.
Definition drop_recovered (hostname : string) (st : RState) : RState :=
  mkRState (rs_knownHostnames st) (rs_hostnameProviders st)
    (delete (NormalizeHostname hostname) <$> rs_recoveredMetadata st).

(** The values a hostname wants on an instance: the instance's, overridden by
    the hints. *)
Record Desired := mkDesired {
  de_Type : RecordType;
  de_Target : string;
  de_TTL : Z;
  de_SRV : nilable SRVData;
  de_Metadata : gmap string string
}.

Section Actions.
Context `{RegexpEngine} {W R : Type} `{!ProviderDirectory W R}.
Context (rc : Reconciler W R).

Definition isDryRun : bool := rc_dryRun rc.
Definition isEnabled : bool := rc_enabled rc.

Definition getRecoveredMetadata (hostname : string) : M W RState (gmap string string) :=
  st <- get_local ;;
  modify_local (drop_recovered hostname) ;;;
  ret (recovered_for st hostname).

Definition desiredOf (hostname : Hostname) (inst : ProviderInstance W) : Desired :=
  match h_RecordHints hostname with
  | None => mkDesired (pi_RecordType inst) (EffectiveTarget inst) (pi_TTL inst) None ∅
  | Some hints =>
      mkDesired
        (if hint_Type hints != "" then hint_Type hints else pi_RecordType inst)
        (if hint_Target hints != "" then hint_Target hints else EffectiveTarget inst)
        (if (0 <? hint_TTL hints)%Z then hint_TTL hints else pi_TTL inst)
        (match hint_SRV hints with
         | Some srv => Some (mkSRVData (hint_Priority srv) (hint_Weight srv) (hint_Port srv))
         | None => None
         end)
        (if (0 <? size (hint_Metadata hints))%nat then hint_Metadata hints else ∅)
  end.

Definition metadataFor (hostname : Hostname) (d : Desired) : M W RState (gmap string string) :=
  if (size (de_Metadata d) =? 0)%nat then
    recovered <- getRecoveredMetadata (h_Name hostname) ;;
    ret (if (0 <? size recovered)%nat then recovered else de_Metadata d)
  else ret (de_Metadata d).

(** The action with its type, status and error text filled in. *)
Definition act (t : ActionType) (s : ActionStatus) (err : string) (hostname : Hostname)
    (inst : ProviderInstance W) (d : Desired) : Action :=
  mkAction t s (pi_Name inst) (h_Name hostname) (de_Type d) (de_Target d) err false.

Definition ensureOwnershipRecord (hostname : string) (inst : ProviderInstance W)
    (metadata : gmap string string) (cache : nilable recordCache) : M W RState unit :=
  if negb (cf_OwnershipTracking (rc_config rc)) then ret tt
  else if match cache with
          | Some c => hasOwnershipRecord c (pi_Name inst) hostname (cf_InstanceID (rc_config rc))
          | None => false
          end then ret tt
  else (CreateOwnershipRecord inst hostname metadata ;;; ret tt).

(** Step 1: the existing records, from the cache or the provider. *)
Definition lookupExisting (hostname : Hostname) (inst : ProviderInstance W)
    (cache : nilable recordCache) : M W RState (list DNSRecord) :=
  match cache with
  | None => ret []
  | Some c =>
      let '(existingRecords, cached) := getExistingRecords c (pi_Name inst) (h_Name hostname) in
      if negb cached then
        res <- GetExistingRecords inst (h_Name hostname) ;;
        ret (match res with inl l => l | inr _ => [] end)
      else ret existingRecords
  end.

(** Step 4: exact matches and stale SRV records among those of the type. *)
Definition isExact (d : Desired) (existing : DNSRecord) : bool :=
  (r_Target existing == de_Target d) &&
  (if de_Type d == RecordTypeSRV then srvDataEquals (r_SRV existing) (de_SRV d) else true).

Definition isStaleSRV (d : Desired) (existing : DNSRecord) : bool :=
  (r_Target existing == de_Target d) && (de_Type d == RecordTypeSRV)
  && negb (srvDataEquals (r_SRV existing) (de_SRV d)).

(** Step 4a.  The log line reads [stale.SRV.Priority]: a nil pointer panics. *)
Definition deleteStale (hostname : Hostname) (inst : ProviderInstance W)
    (_ : unit) (stale : DNSRecord) : M W RState unit :=
  match r_SRV stale with
  | None => panic
  | Some srv => DeleteSRVRecord inst (h_Name hostname) (r_Target stale) (Some srv) ;;; ret tt
  end.

(** Step 4b. *)
Definition skipExact (hostname : Hostname) (inst : ProviderInstance W) (d : Desired)
    (metadata : gmap string string) (cache : nilable recordCache) : M W RState Action :=
  let hasOwnership :=
    match cache with
    | Some c => hasOwnershipRecord c (pi_Name inst) (h_Name hostname) (cf_InstanceID (rc_config rc))
    | None => false
    end in
  (if hasOwnership || cf_AdoptExisting (rc_config rc)
   then ensureOwnershipRecord (h_Name hostname) inst metadata cache
   else ret tt) ;;;
  ret (act ActionSkip StatusSkipped errRecordAlreadyExists hostname inst d).

(** Step 5. *)
Definition updateExisting (hostname : Hostname) (inst : ProviderInstance W) (d : Desired)
    (metadata : gmap string string) (cache : nilable recordCache) (existing : DNSRecord)
  : M W RState Action :=
  err <- UpdateRecord inst existing
           (mkRecord (h_Name hostname) (de_Type d) (de_Target d) (de_TTL d) "" (de_SRV d) None ∅) ;;
  match err with
  | Some e => ret (act ActionCreate StatusFailed (Error e) hostname inst d)
  | None =>
      ensureOwnershipRecord (h_Name hostname) inst metadata cache ;;;
      ret (act ActionUpdate StatusSuccess "" hostname inst d)
  end.

(** Step 6. *)
Definition createNew (hostname : Hostname) (inst : ProviderInstance W) (d : Desired)
    (metadata : gmap string string) (cache : nilable recordCache) : M W RState Action :=
  err <- CreateRecordWithValues inst (h_Name hostname) (de_Type d) (de_Target d) (de_TTL d)
           (de_SRV d) metadata ;;
  match err with
  | Some e =>
      if IsConflict e then
        ensureOwnershipRecord (h_Name hostname) inst metadata cache ;;;
        ret (act ActionSkip StatusSkipped errRecordAlreadyExists hostname inst d)
      else if IsTypeConflict e then
        ret (act ActionSkip StatusSkipped errRecordTypeConflict hostname inst d)
      else ret (act ActionCreate StatusFailed (Error e) hostname inst d)
  | None =>
      ensureOwnershipRecord (h_Name hostname) inst metadata cache ;;;
      ret (act ActionCreate StatusSuccess "" hostname inst d)
  end.

(** Steps 2 to 6, on the records that exist. *)
Definition applyDesired (hostname : Hostname) (inst : ProviderInstance W) (d : Desired)
    (metadata : gmap string string) (cache : nilable recordCache)
    (existingRecords : list DNSRecord) : M W RState Action :=
  let sameTypeRecords := List.filter (λ r, r_Type r == de_Type d) existingRecords in
  let conflictingTypeRecords := List.filter (λ r, r_Type r != de_Type d) existingRecords in
  if (0 <? length conflictingTypeRecords)%nat then
    ret (act ActionSkip StatusSkipped
           ("type conflict: existing " ++s fmt_slice (map r_Type conflictingTypeRecords)
            ++s " record(s) conflict with " ++s de_Type d) hostname inst d)
  else
    foldM (deleteStale hostname inst) tt (List.filter (isStaleSRV d) sameTypeRecords) ;;;
    if existsb (isExact d) sameTypeRecords then skipExact hostname inst d metadata cache
    else match sameTypeRecords with
         | existing :: _ => updateExisting hostname inst d metadata cache existing
         | [] => createNew hostname inst d metadata cache
         end.

Definition ensureRecordForProvider (hostname : Hostname) (inst : ProviderInstance W)
    (cache : nilable recordCache) : M W RState Action :=
  let d := desiredOf hostname inst in
  metadata <- metadataFor hostname d ;;
  if isDryRun then ret (act ActionCreate StatusSuccess "" hostname inst d)
  else
    existingRecords <- lookupExisting hostname inst cache ;;
    applyDesired hostname inst d metadata cache existingRecords.

(** The instances that write: the first of each backend identity and type. *)
Definition writeKey (inst : ProviderInstance W) : ProviderIdentity * RecordType :=
  (pi_Identity inst, pi_RecordType inst).

Fixpoint selectWriters (seen : list (ProviderIdentity * RecordType))
    (l : list (ProviderInstance W)) : list (ProviderInstance W) :=
  match l with
  | [] => []
  | inst :: l =>
      let k := writeKey inst in
      if existsb (λ k', bool_decide (k' = k)) seen then selectWriters seen l
      else inst :: selectWriters (k :: seen) l
  end.

Definition skipAction (hostname : Hostname) (err : string) : Action :=
  mkAction ActionSkip StatusSkipped "" (h_Name hostname) "" "" err false.

(** The provider the hints name, if any. *)
Definition explicitProvider (hostname : Hostname) : option string :=
  match h_RecordHints hostname with
  | Some hints => if hint_Provider hints != "" then Some (hint_Provider hints) else None
  | None => None
  end.

Definition ensureRecord (hostname : Hostname) (cache : nilable recordCache)
  : M W RState (list Action) :=
  match explicitProvider hostname with
  | Some targetProvider =>
      match dir_Get (rc_providers rc) targetProvider with
      | None =>
          ret [skipAction hostname ("explicit provider " ++s Quote targetProvider ++s " not found")]
      | Some inst =>
          action <- ensureRecordForProvider hostname inst cache ;; ret [action]
      end
  | None =>
      let matchingProviders :=
        dir_MatchingProvidersForHostname (rc_providers rc) (h_Name hostname) (h_Metadata hostname) in
      if (length matchingProviders =? 0)%nat then
        ret [skipAction hostname errNoMatchingProvider]
      else
        foldM (λ actions inst,
          action <- ensureRecordForProvider hostname inst cache ;; ret (actions ++ [action]))
          [] (selectWriters [] matchingProviders)
  end.
End Actions.

(** ** Which calls ensuring a record makes *)

Lemma EqualFold_NormalizeHostname a b :
  EqualFold a b = true → NormalizeHostname a = NormalizeHostname b.
Proof. intros E%EqualFold_spec. unfold NormalizeHostname. by rewrite !ToLower_TrimSuffix_dot, E. Qed.

(** Two texts for the same DNS name. *)
Definition same_name (a b : string) : Prop := NormalizeHostname a = NormalizeHostname b.

Section ActionsFacts.
Context `{RegexpEngine} {W R : Type} `{!ProviderDirectory W R}.
Context (rc : Reconciler W R).
Implicit Types (inst : ProviderInstance W) (cache : nilable recordCache) (P : Call → Prop).

(** The records written for [d]: a create carries metadata, an update none. *)
Definition desiredRecord (hostname : Hostname) (d : Desired) (m : gmap string string) : DNSRecord :=
  mkRecord (h_Name hostname) (de_Type d) (de_Target d) (de_TTL d) "" (de_SRV d) None m.
Definition ownershipOf (hostname : Hostname) inst (m : gmap string string) : DNSRecord :=
  OwnershipRecord (h_Name hostname) (pi_TTL inst) (pi_InstanceID inst) m.
Definition staleSRVOf (hostname : Hostname) (d : Desired) (srv : SRVData) : DNSRecord :=
  mkRecord (h_Name hostname) RecordTypeSRV (de_Target d) 0 "" (Some srv) None ∅.

(** The changes to [inst] that ensuring [hostname] may make. *)
Record allows_changes P (hostname : Hostname) inst : Prop := {
  ac_create m : P (CallCreate (pi_Name inst) (desiredRecord hostname (desiredOf hostname inst) m));
  ac_own m : cf_OwnershipTracking (rc_config rc) = true →
    P (CallCreate (pi_Name inst) (ownershipOf hostname inst m));
  ac_stale srv :
    de_Type (desiredOf hostname inst) = RecordTypeSRV →
    Some srv ≠ de_SRV (desiredOf hostname inst) →
    P (CallDelete (pi_Name inst) (staleSRVOf hostname (desiredOf hostname inst) srv));
  ac_replace e :
    same_name (r_Hostname e) (h_Name hostname) →
    r_Type e = de_Type (desiredOf hostname inst) →
    P (CallDelete (pi_Name inst) e) ∧
    P (CallUpdate (pi_Name inst) e (desiredRecord hostname (desiredOf hostname inst) ∅))
}.

Lemma ensures_getRecoveredMetadata P h :
  ensures (W:=W) P (λ _, True) (getRecoveredMetadata h).
Proof.
  eapply (ensures_bind _ (λ _, True)); [by apply ensures_get|]. intros st _.
  eapply (ensures_bind _ (λ _, True)); [by apply ensures_modify|]. intros _ _.
  by apply ensures_ret.
Qed.
#[local] Hint Resolve ensures_getRecoveredMetadata : ensures_db.

Lemma ensures_metadataFor P h d : ensures (W:=W) P (λ _, True) (metadataFor h d).
Proof. unfold metadataFor. by ensures_go. Qed.

Lemma ensures_ensureOwnershipRecord P hostname inst m cache :
  (cf_OwnershipTracking (rc_config rc) = true →
   P (CallCreate (pi_Name inst) (ownershipOf hostname inst m))) →
  ensures P (λ _, True) (ensureOwnershipRecord rc (h_Name hostname) inst m cache).
Proof.
  intros HP. unfold ensureOwnershipRecord.
  destruct (cf_OwnershipTracking (rc_config rc)); simpl; [|by apply ensures_ret].
  destruct (match cache with Some _ => _ | None => _ end); [by apply ensures_ret|].
  eapply (ensures_bind _ (λ _, True)); [apply ensures_CreateOwnershipRecord; by apply HP|].
  intros. by apply ensures_ret.
Qed.

(** The existing records carry the hostname and a data type. *)
Definition existing_ok (hostname : Hostname) (l : list DNSRecord) : Prop :=
  Forall (λ e, same_name (r_Hostname e) (h_Name hostname) ∧ is_data_type (r_Type e) = true) l.

Lemma ensures_lookupExisting P hostname inst cache :
  (∀ c, cache = Some c → cache_wf c) → P (CallList (pi_Name inst)) →
  ensures P (existing_ok hostname) (lookupExisting hostname inst cache).
Proof.
  intros Hwf HP. unfold lookupExisting.
  destruct cache as [c|]; [|by apply ensures_ret; constructor].
  destruct (getExistingRecords c (pi_Name inst) (h_Name hostname)) as [l cached] eqn:E.
  destruct (negb cached).
  - eapply (ensures_bind _ (λ res, match res with inl l => existing_ok hostname l | inr _ => True end)).
    + eapply ensures_bind; [by apply ensures_prov_list|]. intros [l'|err] _; apply ensures_ret; [|done].
      apply Forall_forall. intros e [_ [? ?]%andb_true_iff]%elem_of_list_filter.
      split; [by apply EqualFold_NormalizeHostname|done].
    + intros [l'|err] ?; apply ensures_ret; [done|constructor].
  - apply ensures_ret, Forall_forall. intros e He.
    assert (e ∈ (getExistingRecords c (pi_Name inst) (h_Name hostname)).1) as He' by by rewrite E.
    split; [eapply getExistingRecords_named, He'; by apply Hwf|by eapply getExistingRecords_data].
Qed.

(** What the returned action says. *)
Definition action_for (hostname : Hostname) inst (a : Action) : Prop :=
  action_ok a ∧ a_Hostname a = h_Name hostname ∧ a_Provider a = pi_Name inst ∧
  a_RecordType a = de_Type (desiredOf hostname inst) ∧
  a_Target a = de_Target (desiredOf hostname inst) ∧ a_Type a ≠ ActionDelete.

Lemma act_for t s err hostname inst :
  (t = ActionSkip ∧ s = StatusSkipped) ∨
    ((t = ActionCreate ∨ t = ActionUpdate) ∧ (s = StatusSuccess ∨ s = StatusFailed)) →
  action_for hostname inst (act t s err hostname inst (desiredOf hostname inst)).
Proof.
  intros Ht. unfold action_for, action_ok; simpl.
  destruct Ht as [[-> ->]|[[-> | ->] [-> | ->]]]; split_and!; auto; right; auto.
Qed.

Section Apply.
Context P hostname inst cache (Hall : allows_changes P hostname inst).
#[local] Abbreviation d := (desiredOf hostname inst).

Lemma ensures_own m :
  ensures P (λ _, True) (ensureOwnershipRecord rc (h_Name hostname) inst m cache).
Proof using Hall. apply ensures_ensureOwnershipRecord. apply Hall. Qed.
#[local] Hint Resolve ensures_own : ensures_db.

Lemma ensures_skipExact m :
  ensures P (action_for hostname inst) (skipExact rc hostname inst d m cache).
Proof using Hall.
  unfold skipExact. ensures_go; apply act_for; auto.
Qed.

Lemma ensures_updateExisting m e :
  same_name (r_Hostname e) (h_Name hostname) → r_Type e = de_Type d →
  ensures P (action_for hostname inst) (updateExisting rc hostname inst d m cache e).
Proof using Hall.
  intros Hn Ht. unfold updateExisting.
  eapply (ensures_bind _ (λ _, True)).
  - apply ensures_UpdateRecord; [by apply Hall|by apply Hall|]. apply (ac_create _ _ _ Hall ∅).
  - intros [err|] _; ensures_go; apply act_for; auto.
Qed.

Lemma ensures_createNew m :
  ensures P (action_for hostname inst) (createNew rc hostname inst d m cache).
Proof using Hall.
  unfold createNew. eapply (ensures_bind _ (λ _, True)).
  - apply ensures_prov_create. apply (ac_create _ _ _ Hall m).
  - intros err _. ensures_go; apply act_for; auto.
Qed.

Lemma ensures_deleteStale e :
  isStaleSRV d e = true → ensures P (λ _, True) (deleteStale hostname inst tt e).
Proof using Hall.
  unfold isStaleSRV, deleteStale. intros [[Ht%String.eqb_eq HS%String.eqb_eq]%andb_true_iff Hs]%andb_true_iff.
  destruct (r_SRV e) as [srv|]; [|apply ensures_panic].
  eapply (ensures_bind _ (λ _, True)); [|intros; by apply ensures_ret].
  apply ensures_prov_delete. rewrite Ht. apply (ac_stale _ _ _ Hall); [done|].
  intros Heq. rewrite <- Heq, srvDataEquals_refl in Hs. done.
Qed.

Lemma ensures_applyDesired m l :
  existing_ok hostname l → ensures P (action_for hostname inst) (applyDesired rc hostname inst d m cache l).
Proof using Hall.
  intros Hl. unfold applyDesired. destruct (0 <? _)%nat; [apply ensures_ret, act_for; auto|].
  eapply (ensures_bind _ (λ _, True)).
  { apply ensures_foldM; [done|]. intros [] e [_ He]%elem_of_list_filter _. by apply ensures_deleteStale. }
  intros _ _. destruct (existsb _ _); [apply ensures_skipExact|].
  destruct (List.filter _ l) as [|e l'] eqn:E; [apply ensures_createNew|].
  assert (e ∈ List.filter (λ r, r_Type r == de_Type d) l) as He by (rewrite E; by left).
  apply elem_of_list_filter in He as [He Ht%String.eqb_eq].
  eapply Forall_forall in Hl as [Hn _]; [|done]. by apply ensures_updateExisting.
Qed.
End Apply.

Lemma ensures_ensureRecordForProvider P hostname inst cache :
  (∀ c, cache = Some c → cache_wf c) → P (CallList (pi_Name inst)) →
  (isDryRun rc = false → allows_changes P hostname inst) →
  ensures P (action_for hostname inst) (ensureRecordForProvider rc hostname inst cache).
Proof.
  intros Hwf HL Hall. unfold ensureRecordForProvider.
  eapply ensures_bind; [apply ensures_metadataFor|]. intros m _. simpl.
  destruct (isDryRun rc) eqn:E; [apply ensures_ret, act_for; auto|].
  eapply ensures_bind; [by apply ensures_lookupExisting|]. intros l Hl.
  by apply ensures_applyDesired; auto.
Qed.

(** *** The writers *)

Lemma selectWriters_sublist seen (l : list (ProviderInstance W)) : sublist (selectWriters seen l) l.
Proof.
  revert seen. induction l as [|i l IH]; intros seen; simpl; [constructor|].
  destruct (existsb _ _); by constructor.
Qed.

Lemma selectWriters_keys seen (l : list (ProviderInstance W)) :
  NoDup (map writeKey (selectWriters (W:=W) seen l)) ∧
  ∀ k, k ∈ map writeKey (selectWriters seen l) → k ∉ seen.
Proof.
  revert seen. induction l as [|i l IH]; intros seen; simpl.
  { split; [constructor|]. by intros k ?%not_elem_of_nil. }
  destruct (existsb _ seen) eqn:E; [apply IH|]. simpl.
  destruct (IH (writeKey i :: seen)) as [Hnd Hk]. split.
  - constructor; [|done]. intros Hin%Hk. apply Hin. by left.
  - intros k [->|Hin]%elem_of_cons.
    + intros Hs. rewrite existsb_not_elem in E. apply E in Hs.
      by rewrite bool_decide_eq_true_2 in Hs.
    + apply Hk in Hin. set_solver.
Qed.

Lemma selectWriters_cover seen (l : list (ProviderInstance W)) k :
  k ∉ seen → k ∈ map writeKey l →
  ∃ l1 i l2, l = l1 ++ i :: l2 ∧ i ∈ selectWriters (W:=W) seen l ∧ writeKey i = k ∧
    k ∉ map writeKey l1.
Proof.
  revert seen. induction l as [|i l IH]; intros seen Hs; simpl; [by intros ?%not_elem_of_nil|].
  intros Hin. destruct (decide (writeKey i = k)) as [<-|Hne].
  - exists [], i, l. split_and!; [done| |done|by apply not_elem_of_nil].
    destruct (existsb _ seen) eqn:E; [|by left].
    apply existsb_elem in E as (k' & Hk' & ->%bool_decide_eq_true). done.
  - assert (k ∈ map writeKey l) as Hl by (apply elem_of_cons in Hin as [?|?]; congruence).
    destruct (existsb _ seen) eqn:E.
    + destruct (IH seen Hs Hl) as (l1 & j & l2 & -> & ? & ? & ?).
      exists (i :: l1), j, l2. split_and!; [done..|]. apply not_elem_of_cons. by split; [congruence|].
    + destruct (IH (writeKey i :: seen)) as (l1 & j & l2 & -> & ? & ? & ?);
        [apply not_elem_of_cons; by split; [congruence|]|done|].
      exists (i :: l1), j, l2. split_and!; [done|by right|done|].
      apply not_elem_of_cons. by split; [congruence|].
Qed.

(** The instances one hostname is written to. *)
Definition writersOf (hostname : Hostname) : list (ProviderInstance W) :=
  selectWriters [] (dir_MatchingProvidersForHostname (rc_providers rc) (h_Name hostname)
                      (h_Metadata hostname)).

(** The instances [ensureRecord] may act on: the one named by the hint, or
    the writers. *)
Definition routedTo (hostname : Hostname) : list (ProviderInstance W) :=
  match explicitProvider hostname with
  | Some n => match dir_Get (rc_providers rc) n with Some inst => [inst] | None => [] end
  | None => writersOf hostname
  end.

Lemma routedTo_All hostname inst :
  dir_wf (rc_providers rc) → inst ∈ routedTo hostname → inst ∈ dir_All (rc_providers rc).
Proof.
  intros Hwf. unfold routedTo. destruct (explicitProvider hostname) as [n|].
  - destruct (dir_Get _ n) as [i|] eqn:E; [|by intros ?%not_elem_of_nil].
    intros ->%list_elem_of_singleton. by eapply dir_Get_All.
  - unfold writersOf. intros Hin.
    assert (inst ∈ dir_MatchingProvidersForHostname (rc_providers rc) (h_Name hostname)
              (h_Metadata hostname)) as Hm.
    { eapply elem_of_sublist; [done|apply selectWriters_sublist]. }
    rewrite dir_MatchingMeta_eq in Hm. by apply elem_of_list_filter in Hm as [? _].
Qed.

(** Every action of [ensureRecord] is well-formed, is about the hostname and
    does not delete. *)
Definition ensure_action (hostname : Hostname) (a : Action) : Prop :=
  action_ok a ∧ a_Hostname a = h_Name hostname ∧ a_Type a ≠ ActionDelete.

Lemma skipAction_ok hostname e : ensure_action hostname (skipAction hostname e).
Proof. split; [by left|done]. Qed.

Lemma ensures_ensureRecord P hostname cache :
  (∀ c, cache = Some c → cache_wf c) →
  (∀ inst, inst ∈ routedTo hostname → P (CallList (pi_Name inst)) ∧
     (isDryRun rc = false → allows_changes P hostname inst)) →
  ensures P (Forall (ensure_action hostname)) (ensureRecord rc hostname cache).
Proof.
  intros Hwf HP. unfold ensureRecord. unfold routedTo in HP.
  destruct (explicitProvider hostname) as [n|].
  - destruct (dir_Get _ n) as [inst|]; [|by apply ensures_ret, Forall_singleton, skipAction_ok].
    destruct (HP inst) as [HL HA]; [by left|].
    eapply ensures_bind; [by apply ensures_ensureRecordForProvider|].
    intros a (? & ? & ? & ? & ? & ?). by apply ensures_ret, Forall_singleton.
  - simpl. destruct (_ =? 0)%nat; [by apply ensures_ret, Forall_singleton, skipAction_ok|].
    apply ensures_foldM; [constructor|]. intros actions inst Hin Hacts.
    destruct (HP inst Hin) as [HL HA].
    eapply ensures_bind; [by apply ensures_ensureRecordForProvider|].
    intros a (? & ? & ? & ? & ? & ?). apply ensures_ret, Forall_app.
    split; [done|]. by apply Forall_singleton.
Qed.
End ActionsFacts.

(** ** The changes ensuring may make, as a set of calls *)
Section EnsureChanges.
Context `{RegexpEngine} {W R : Type} `{!ProviderDirectory W R}.
Context (rc : Reconciler W R).
Implicit Types (inst : ProviderInstance W).

(** Writing the wanted record or its ownership marker, removing a stale SRV
    record, and replacing a record of the same name and type. *)
Inductive ensure_change (h : Hostname) inst : Call → Prop :=
| ech_create m :
    ensure_change h inst (CallCreate (pi_Name inst) (desiredRecord h (desiredOf h inst) m))
| ech_own m :
    cf_OwnershipTracking (rc_config rc) = true →
    ensure_change h inst (CallCreate (pi_Name inst) (ownershipOf h inst m))
| ech_stale srv :
    de_Type (desiredOf h inst) = RecordTypeSRV → Some srv ≠ de_SRV (desiredOf h inst) →
    ensure_change h inst (CallDelete (pi_Name inst) (staleSRVOf h (desiredOf h inst) srv))
| ech_delete e :
    same_name (r_Hostname e) (h_Name h) → r_Type e = de_Type (desiredOf h inst) →
    ensure_change h inst (CallDelete (pi_Name inst) e)
| ech_update e :
    same_name (r_Hostname e) (h_Name h) → r_Type e = de_Type (desiredOf h inst) →
    ensure_change h inst
      (CallUpdate (pi_Name inst) e (desiredRecord h (desiredOf h inst) ∅)).

Lemma ensure_change_allows (P : Call → Prop) h inst :
  (∀ call, ensure_change h inst call → P call) → allows_changes rc P h inst.
Proof.
  intros HP. split; intros; try split; apply HP; by constructor.
Qed.

(** Nothing in ensuring writes the known hostnames or the mapping. *)
Definition kept (st : RState) : goset * gmap string (list string) :=
  (rs_knownHostnames st, rs_hostnameProviders st).

Lemma keeps_CreateOwnershipRecord inst h m : keeps kept (CreateOwnershipRecord inst h m).
Proof. done. Qed.

Lemma keeps_ensureOwnershipRecord h inst m cache :
  keeps kept (ensureOwnershipRecord rc h inst m cache).
Proof.
  unfold ensureOwnershipRecord. destruct (negb _); [done|].
  destruct (match cache with Some _ => _ | None => _ end); [done|].
  by apply keepsp_bind.
Qed.
#[local] Hint Resolve keeps_ensureOwnershipRecord : keeps_db.

Lemma keeps_UpdateRecord inst e d : keeps kept (UpdateRecord inst e d).
Proof.
  unfold UpdateRecord. destruct (prov_Update _); [done|]. apply keepsp_bind; [done|].
  intros [x|]; [|done]. by destruct (negb _).
Qed.
#[local] Hint Resolve keeps_UpdateRecord : keeps_db.

Lemma keeps_applyDesired h inst d m cache l : keeps kept (applyDesired rc h inst d m cache l).
Proof.
  unfold applyDesired. destruct (0 <? _)%nat; [done|]. apply keepsp_bind.
  - apply keepsp_foldM. intros [] e. unfold deleteStale. destruct (r_SRV e); [|done].
    by apply keepsp_bind.
  - intros _. destruct (existsb _ _); [|destruct (List.filter _ l)].
    + unfold skipExact. apply keepsp_bind; [|done]. case_match; [|done].
      apply keeps_ensureOwnershipRecord.
    + unfold createNew. apply keepsp_bind; [done|]. intros [x|]; keeps_go.
    + unfold updateExisting. apply keepsp_bind; [auto with keeps_db|]. intros [x|]; keeps_go.
Qed.

Lemma keeps_ensureRecordForProvider h inst cache :
  keeps kept (ensureRecordForProvider rc h inst cache).
Proof.
  unfold ensureRecordForProvider. apply keepsp_bind.
  - unfold metadataFor. destruct (_ =? 0)%nat; [|done]. by repeat (apply keepsp_bind; intros).
  - intros m. simpl. destruct (isDryRun rc); [done|]. apply keepsp_bind.
    + unfold lookupExisting. destruct cache as [c|]; [|done].
      destruct (getExistingRecords _ _ _) as [l cached]. destruct (negb cached); [|done].
      by apply keepsp_bind.
    + intros l. apply keeps_applyDesired.
Qed.

Lemma keeps_ensureRecord h cache : keeps kept (ensureRecord rc h cache).
Proof.
  unfold ensureRecord. destruct (explicitProvider h) as [n|].
  - destruct (dir_Get _ n); [|done]. apply keepsp_bind; [|done].
    apply keeps_ensureRecordForProvider.
  - destruct (_ =? 0)%nat; [done|]. apply keepsp_foldM. intros acc inst.
    apply keepsp_bind; [apply keeps_ensureRecordForProvider|done].
Qed.
End EnsureChanges.

(** ** Properties of ensuring *)
Section EnsureProperties.
Context `{RegexpEngine} {W R : Type} `{!ProviderDirectory W R}.
Context (rc : Reconciler W R).
Implicit Types (inst : ProviderInstance W).

(** First match wins, per backend: among the instances that match a
    hostname, those written to are taken in priority order, no two of them
    share a backend identity and record type, and each matching instance
    that is passed over shares both with an earlier one that is written. *)
Theorem first_match_wins hostname :
  let matching := dir_MatchingProvidersForHostname (rc_providers rc) (h_Name hostname)
                    (h_Metadata hostname) in
  sublist (writersOf rc hostname) matching ∧
  NoDup (map writeKey (writersOf rc hostname)) ∧
  ∀ inst, inst ∈ matching → ∃ l1 winner l2,
    matching = l1 ++ winner :: l2 ∧ winner ∈ writersOf rc hostname ∧
    writeKey winner = writeKey inst ∧ writeKey inst ∉ map writeKey l1.
Proof.
  simpl. split_and!; [apply selectWriters_sublist|apply selectWriters_keys|].
  intros inst Hin. apply selectWriters_cover; [by apply not_elem_of_nil|].
  by apply list_elem_of_fmap_2.
Qed.

Lemma silent_metadataFor (h : Hostname) d :
  silent (W:=W) (λ _, True) (metadataFor h d).
Proof.
  unfold metadataFor. destruct (_ =? 0)%nat; [|by apply silent_ret].
  eapply (silent_bind (λ _, True)); [|intros; by apply silent_ret].
  eapply (silent_bind (λ _, True)); [by apply silent_get|]. intros st _.
  eapply (silent_bind (λ _, True)); [by apply silent_modify|]. intros; by apply silent_ret.
Qed.

(** The data records of the cache under a name. *)
Definition existing_of (l : list DNSRecord) (h : string) : list DNSRecord :=
  List.filter (λ r, is_data_type (r_Type r))
    (List.filter (λ r, NormalizeHostname (r_Hostname r) == NormalizeHostname h) l).

Lemma silent_ensureRecordForProvider Q hostname inst c l :
  caches c (pi_Name inst) l → isDryRun rc = false →
  (∀ m, silent Q (applyDesired rc hostname inst (desiredOf hostname inst) m (Some c)
                    (existing_of l (h_Name hostname)))) →
  silent Q (ensureRecordForProvider rc hostname inst (Some c)).
Proof.
  intros Hc Hd HQ. unfold ensureRecordForProvider.
  eapply silent_bind; [apply silent_metadataFor|]. intros m _. simpl. rewrite Hd.
  eapply (silent_bind (λ x, x = existing_of l (h_Name hostname))).
  - unfold lookupExisting. rewrite (getExistingRecords_caches _ _ l) by done. by apply silent_ret.
  - intros ? ->. apply HQ.
Qed.

(** A type conflict changes nothing: when the provider already holds a
    data record of another type under the hostname, ensuring the hostname
    there makes no provider call and reports a skip. *)
Theorem ensure_type_conflict_silent hostname inst c l r :
  caches c (pi_Name inst) l → isDryRun rc = false → r ∈ l →
  same_name (r_Hostname r) (h_Name hostname) → is_data_type (r_Type r) = true →
  r_Type r ≠ de_Type (desiredOf hostname inst) →
  silent (λ a, a_Type a = ActionSkip ∧ a_Status a = StatusSkipped)
    (ensureRecordForProvider rc hostname inst (Some c)).
Proof.
  intros Hc Hd Hr Hn Ht Hne. eapply silent_ensureRecordForProvider; [done..|]. intros m.
  unfold applyDesired.
  assert (r ∈ List.filter (λ r, r_Type r != de_Type (desiredOf hostname inst))
                (existing_of l (h_Name hostname))) as Hin.
  { unfold existing_of. rewrite !elem_of_list_filter. split_and!; [done| |done|].
    - by apply String.eqb_eq.
    - by apply negb_true_iff, String.eqb_neq. }
  destruct (List.filter _ (existing_of _ _)) as [|r' l'] eqn:E; [by apply not_elem_of_nil in Hin|].
  simpl. by apply silent_ret.
Qed.

Lemma silent_in_sync hostname inst c l r :
  caches c (pi_Name inst) l → isDryRun rc = false →
  Forall (λ r, r_Type r = de_Type (desiredOf hostname inst) ∧
               isStaleSRV (desiredOf hostname inst) r = false)
    (existing_of l (h_Name hostname)) →
  r ∈ existing_of l (h_Name hostname) → isExact (desiredOf hostname inst) r = true →
  cf_OwnershipTracking (rc_config rc) = false ∨ cf_AdoptExisting (rc_config rc) = false ∨
    hasOwnershipRecord c (pi_Name inst) (h_Name hostname) (cf_InstanceID (rc_config rc)) = true →
  silent (λ a, a = act ActionSkip StatusSkipped errRecordAlreadyExists hostname inst
                    (desiredOf hostname inst))
    (ensureRecordForProvider rc hostname inst (Some c)).
Proof.
  intros Hc Hd Hall Hr He Ho. eapply silent_ensureRecordForProvider; [done..|]. intros m.
  unfold applyDesired. rewrite Forall_forall in Hall.
  assert (List.filter (λ r, r_Type r != de_Type (desiredOf hostname inst))
            (existing_of l (h_Name hostname)) = []) as ->.
  { apply filter_nil. intros x [-> _]%Hall. by rewrite String.eqb_refl. }
  assert (List.filter (λ r, r_Type r == de_Type (desiredOf hostname inst))
            (existing_of l (h_Name hostname)) = existing_of l (h_Name hostname)) as ->.
  { apply filter_all. intros x [-> _]%Hall. apply String.eqb_refl. }
  assert (List.filter (isStaleSRV (desiredOf hostname inst))
            (existing_of l (h_Name hostname)) = []) as ->.
  { apply filter_nil. intros x Hx. by apply Hall. }
  simpl. eapply (silent_bind (λ _, True)); [by apply silent_ret|]. intros _ _.
  assert (existsb (isExact (desiredOf hostname inst)) (existing_of l (h_Name hostname)) = true)
    as -> by (apply existsb_elem; by exists r).
  unfold skipExact. eapply (silent_bind (λ _, True)); [|intros; by apply silent_ret].
  unfold ensureOwnershipRecord.
  destruct (hasOwnershipRecord c _ _ _), (cf_OwnershipTracking (rc_config rc)),
    (cf_AdoptExisting (rc_config rc)); simpl; try (by apply silent_ret). naive_solver.
Qed.

(** Ensuring a record that is already right is idempotent: when every
    data record the provider holds under the hostname has the wanted type,
    one has the wanted target (and SRV data) and none is a stale SRV
    record, and there is no ownership marker to add, no provider call is
    made and the action is a skip because the record exists. *)
Theorem ensure_in_sync_silent hostname inst c l r :
  caches c (pi_Name inst) l → isDryRun rc = false →
  Forall (λ r, r_Type r = de_Type (desiredOf hostname inst) ∧
               isStaleSRV (desiredOf hostname inst) r = false)
    (existing_of l (h_Name hostname)) →
  r ∈ existing_of l (h_Name hostname) → isExact (desiredOf hostname inst) r = true →
  cf_OwnershipTracking (rc_config rc) = false ∨ cf_AdoptExisting (rc_config rc) = false ∨
    hasOwnershipRecord c (pi_Name inst) (h_Name hostname) (cf_InstanceID (rc_config rc)) = true →
  silent (λ a, a = act ActionSkip StatusSkipped errRecordAlreadyExists hostname inst
                    (desiredOf hostname inst))
    (ensureRecordForProvider rc hostname inst (Some c)).
Proof. apply silent_in_sync. Qed.

(** A stale SRV record without SRV data crashes the cycle: when the
    records found for an SRV hostname all have type SRV and one has the
    wanted target but no data, while data is wanted, applying the wanted
    record panics instead of replacing it. *)
Theorem stale_srv_without_data_panics hostname inst d m cache l r s :
  de_Type d = RecordTypeSRV → is_Some (de_SRV d) →
  Forall (λ r, r_Type r = RecordTypeSRV) l →
  r ∈ l → r_Target r = de_Target d → r_SRV r = None →
  (applyDesired rc hostname inst d m cache l s).1 = None.
Proof.
  intros Hd [srv Hsrv] Hall Hr Ht Hn. rewrite Forall_forall in Hall. unfold applyDesired.
  rewrite filter_nil by (intros x ->%Hall; by rewrite Hd, String.eqb_refl). simpl.
  rewrite (filter_all _ l) by (intros x ->%Hall; by rewrite Hd).
  assert (∃ x, x ∈ List.filter (isStaleSRV d) l ∧ r_SRV x = None) as (x & Hx & Hxn).
  { exists r. split; [|done]. apply elem_of_list_filter. split; [done|].
    unfold isStaleSRV. by rewrite Ht, Hd, Hn, Hsrv, !String.eqb_refl. }
  assert (∀ s, (foldM (deleteStale hostname inst) tt (List.filter (isStaleSRV d) l) s).1 = None) as Hp.
  { induction (List.filter (isStaleSRV d) l) as [|y l' IH]; [by apply not_elem_of_nil in Hx|].
    intros s0. simpl. unfold bind at 1. apply elem_of_cons in Hx as [<-|Hx].
    - unfold deleteStale. by rewrite Hxn.
    - destruct (deleteStale hostname inst tt y s0) as [[[]|] s1]; [|done]. by apply IH. }
  unfold bind at 1. specialize (Hp s). by destruct (foldM _ _ _ s) as [[[]|] s1].
Qed.

(** Conversely, with data on every SRV record nothing panics. *)
Definition srv_ok (r : DNSRecord) : Prop := r_Type r = RecordTypeSRV → is_Some (r_SRV r).

Lemma returns_ensureOwnershipRecord h inst m cache :
  returns (ensureOwnershipRecord rc h inst m cache).
Proof.
  unfold ensureOwnershipRecord. destruct (negb _); [apply returns_ret|].
  destruct (match cache with Some _ => _ | None => _ end); [apply returns_ret|].
  apply returns_bind; [|intros; apply returns_ret].
  unfold CreateOwnershipRecord. apply returns_bind; [apply returns_call|intros; apply returns_ret].
Qed.

Lemma returns_UpdateRecord inst e d : returns (L:=RState) (UpdateRecord inst e d).
Proof.
  unfold UpdateRecord. destruct (prov_Update _); [apply returns_call|].
  apply returns_bind; [apply returns_call|]. intros [x|]; [|apply returns_call].
  destruct (negb _); [apply returns_ret|apply returns_call].
Qed.
#[local] Hint Resolve returns_ensureOwnershipRecord returns_UpdateRecord : returns_db.

Lemma returns_applyDesired hostname inst d m cache l :
  Forall srv_ok l → returns (applyDesired rc hostname inst d m cache l).
Proof.
  intros Hl. rewrite Forall_forall in Hl. unfold applyDesired.
  destruct (0 <? _)%nat; [apply returns_ret|]. apply returns_bind.
  - apply returns_foldM. intros [] e [[He Ht]%elem_of_list_filter Hs]%elem_of_list_filter.
    unfold isStaleSRV in Hs. apply andb_true_iff in Hs as [[_ HS]%andb_true_iff _].
    apply String.eqb_eq in HS, Ht. destruct (Hl e He) as [srv Hsrv]; [congruence|].
    unfold deleteStale. rewrite Hsrv. apply returns_bind; [apply returns_call|].
    intros; apply returns_ret.
  - intros _. destruct (existsb _ _); [|destruct (List.filter _ l)].
    + unfold skipExact. returns_go.
    + unfold createNew. apply returns_bind; [apply returns_call|]. returns_go.
    + unfold updateExisting. returns_go.
Qed.

Definition cache_srv_ok (c : recordCache) : Prop :=
  ∀ p h, Forall srv_ok (getExistingRecords c p h).1.

(** The providers that give data on every SRV record they list. *)
Definition lists_srv_data inst : Prop :=
  ∀ w l, (prov_List (pi_Provider inst) w).1 = inl l → Forall srv_ok l.

Lemma returns_ensureRecordForProvider hostname inst cache :
  (∀ c, cache = Some c → cache_srv_ok c) → lists_srv_data inst →
  returns (ensureRecordForProvider rc hostname inst cache).
Proof.
  intros Hc Hi. unfold ensureRecordForProvider. apply returns_bind.
  { unfold metadataFor. destruct (_ =? 0)%nat; [|apply returns_ret].
    by repeat (apply returns_bind; intros); eexists. }
  intros m. simpl. destruct (isDryRun rc); [apply returns_ret|].
  apply (returns_bind_post (λ _, True) (Forall srv_ok)).
  - unfold lookupExisting. destruct cache as [c|]; [|by apply ensures_ret].
    pose proof (Hc c eq_refl (pi_Name inst) (h_Name hostname)) as Hok.
    destruct (getExistingRecords _ _ _) as [l cached]. destruct (negb cached); [|by apply ensures_ret].
    apply (ensures_bind _ (λ res, match res with inl l => Forall srv_ok l | inr _ => True end)).
    + unfold GetExistingRecords.
      apply (ensures_bind _ (λ res, match res with inl l => Forall srv_ok l | inr _ => True end)).
      * apply ensures_call_post; [done|]. intros w.
        destruct (prov_List (pi_Provider inst) w).1 eqn:E; [by eapply Hi|done].
      * intros [l'|e] Hl'; apply ensures_ret; [|done]. by apply Forall_filter_mono.
    + intros [l'|e] Hl'; by apply ensures_ret.
  - unfold lookupExisting. destruct cache as [c|]; [|apply returns_ret].
    destruct (getExistingRecords _ _ _) as [l cached]. destruct (negb cached); [|apply returns_ret].
    apply returns_bind; [|intros; apply returns_ret]. unfold GetExistingRecords.
    apply returns_bind; [apply returns_call|intros; apply returns_ret].
  - intros l Hl. by apply returns_applyDesired.
Qed.

Lemma returns_ensureRecord hostname cache :
  dir_wf (rc_providers rc) → (∀ c, cache = Some c → cache_srv_ok c) →
  (∀ inst, inst ∈ dir_All (rc_providers rc) → lists_srv_data inst) →
  returns (ensureRecord rc hostname cache).
Proof.
  intros Hwf Hc Hi.
  assert (∀ inst, inst ∈ routedTo rc hostname →
            returns (ensureRecordForProvider rc hostname inst cache)) as Hr.
  { intros inst Hin%routedTo_All; [|done]. apply returns_ensureRecordForProvider; [done|by apply Hi]. }
  unfold ensureRecord. unfold routedTo in Hr. destruct (explicitProvider hostname) as [n|].
  - destruct (dir_Get _ n) as [inst|]; [|apply returns_ret].
    apply returns_bind; [apply Hr; by left|intros; apply returns_ret].
  - simpl. destruct (_ =? 0)%nat; [apply returns_ret|]. apply returns_foldM.
    intros acc inst Hin. apply returns_bind; [by apply Hr|intros; apply returns_ret].
Qed.
End EnsureProperties.

(** ** Convergence

    What a provider is expected to do, as an interface: listing reads a store
    of records, a successful create adds the record to it, a failed one
    leaves it alone. *)
Class ProviderStore {W} (p : Provider W) (view : W → list DNSRecord) := {
  ps_list w : prov_List p w = (inl (view w), w);
  ps_create_ok r w w' : prov_Create p r w = (None, w') → view w' = view w ++ [r];
  ps_create_err r w w' e : prov_Create p r w = (Some e, w') → view w' = view w
}.

#[export] Instance mem_store name caps :
  ProviderStore (mem_provider name caps) (λ w, default [] (w !! name)).
Proof.
  split; [done|..]; simpl; intros r w w'.
  - destruct (existsb _ _); [done|]. intros [= <-]. by rewrite lookup_insert_eq.
  - intros e. destruct (existsb _ _); [|done]. by intros [= _ <-].
Qed.

Section Convergence.
Context `{RegexpEngine} {W R : Type} `{!ProviderDirectory W R}.
Context (rc : Reconciler W R) (hostname : Hostname) (inst : ProviderInstance W).
Context (view : W → list DNSRecord) `{!ProviderStore (pi_Provider inst) view}.
#[local] Abbreviation d := (desiredOf hostname inst).

Lemma existing_of_snoc_other l r h :
  is_data_type (r_Type r) = false → existing_of (l ++ [r]) h = existing_of l h.
Proof.
  intros Hr. unfold existing_of. rewrite !List.filter_app. simpl.
  destruct (_ == _); simpl; by rewrite ?Hr, ?app_nil_r.
Qed.

(** Writing the marker adds at most a record that is no data record. *)
Lemma ensureOwnershipRecord_view m cache s :
  ∃ s', ensureOwnershipRecord rc (h_Name hostname) inst m cache s = (Some tt, s') ∧
    (view (st_world s') = view (st_world s) ∨
     ∃ r, is_data_type (r_Type r) = false ∧ view (st_world s') = view (st_world s) ++ [r]).
Proof using ProviderStore0.
  unfold ensureOwnershipRecord. destruct (negb _); [eexists; by split; [|left]|].
  destruct (match cache with Some _ => _ | None => _ end); [eexists; by split; [|left]|].
  eexists. split; [done|]. simpl.
  destruct (prov_Create (pi_Provider inst) _ (st_world s)) as [[e|] w'] eqn:E; simpl.
  - left. by eapply ps_create_err.
  - right. eexists. split; [|by eapply ps_create_ok]. done.
Qed.

Lemma createNew_view m cache s a s' :
  createNew rc hostname inst d m cache s = (Some a, s') → a_Status a = StatusSuccess →
  view (st_world s') = view (st_world s) ++ [desiredRecord hostname d m] ∨
  ∃ r, is_data_type (r_Type r) = false ∧
    view (st_world s') = (view (st_world s) ++ [desiredRecord hostname d m]) ++ [r].
Proof using ProviderStore0.
  unfold createNew, CreateRecordWithValues, prov_create, bind at 1, call. simpl.
  fold (desiredRecord hostname d m).
  destruct (prov_Create (pi_Provider inst) (desiredRecord hostname d m) (st_world s))
    as [[e|] w'] eqn:E; simpl.
  - destruct (IsConflict e).
    + destruct (ensureOwnershipRecord_view m cache
        (mkSt w' (st_calls s ++ [CallCreate (prov_Name (pi_Provider inst)) (desiredRecord hostname d m)])
           (st_local s))) as (s1 & E1 & _).
      rewrite (bind_some _ _ _ _ _ E1). by intros [= <- _].
    + destruct (IsTypeConflict e); by intros [= <- _].
  - apply ps_create_ok in E.
    destruct (ensureOwnershipRecord_view m cache
        (mkSt w' (st_calls s ++ [CallCreate (prov_Name (pi_Provider inst)) (desiredRecord hostname d m)])
           (st_local s))) as (s1 & E1 & Hv).
    rewrite (bind_some _ _ _ _ _ E1). intros [= _ <-] _. simpl in Hv. rewrite E in Hv. done.
Qed.

(** C4. Ensuring converges.  On a provider that behaves as a store and holds
    no data record of the hostname, a reported success means that the
    wanted record is stored, and from then on, with a cache of what is
    stored, ensuring the hostname again makes no provider call and reports
    that the record exists (existing records not being adopted). *)
Theorem ensure_converges c s a s' :
  caches c (pi_Name inst) (view (st_world s)) → isDryRun rc = false →
  cf_AdoptExisting (rc_config rc) = false → is_data_type (de_Type d) = true →
  existing_of (view (st_world s)) (h_Name hostname) = [] →
  ensureRecordForProvider rc hostname inst (Some c) s = (Some a, s') →
  a_Status a = StatusSuccess →
  (∃ m, desiredRecord hostname d m ∈ view (st_world s')) ∧
  ∀ c', caches c' (pi_Name inst) (view (st_world s')) →
    silent (λ a, a = act ActionSkip StatusSkipped errRecordAlreadyExists hostname inst d)
      (ensureRecordForProvider rc hostname inst (Some c')).
Proof using ProviderStore0.
  intros Hc Hd Ha Ht He Hrun Hok.
  assert (∃ m, existing_of (view (st_world s')) (h_Name hostname) = [desiredRecord hostname d m]
            ∧ desiredRecord hostname d m ∈ view (st_world s')) as (m & Hex & Hin).
  { revert Hrun. unfold ensureRecordForProvider.
    destruct (silent_metadataFor (W:=W) hostname d s) as (m & Hm & _ & _ & Hw).
    destruct (metadataFor hostname d s) as [o s1] eqn:E; simpl in *. subst o.
    rewrite (bind_some _ _ _ _ _ E), Hd. unfold lookupExisting.
    rewrite (getExistingRecords_caches _ _ _ Hc). cbn [negb].
    fold (existing_of (view (st_world s)) (h_Name hostname)). rewrite He, bind_ret.
    unfold applyDesired. simpl. rewrite bind_ret. intros Hn. exists m.
    assert (existing_of (view (st_world s) ++ [desiredRecord hostname d m]) (h_Name hostname)
            = [desiredRecord hostname d m]) as Hone.
    { unfold existing_of in *. rewrite !List.filter_app, He. simpl. rewrite String.eqb_refl. simpl.
      by rewrite Ht. }
    destruct (createNew_view m (Some c) s1 a s' Hn Hok) as [Hv|(r & Hr & Hv)];
      rewrite Hv, Hw.
    - split; [done|]. rewrite elem_of_app. right. by left.
    - split; [by rewrite existing_of_snoc_other|]. rewrite !elem_of_app. left. right. by left. }
  split; [by exists m|]. intros c' Hc'.
  apply (silent_in_sync rc hostname inst c' (view (st_world s'))
           (desiredRecord hostname d m)); try done.
  - rewrite Hex. apply Forall_singleton. split; [done|].
    unfold isStaleSRV. simpl. rewrite srvDataEquals_refl. by rewrite andb_false_r.
  - rewrite Hex. by left.
  - unfold isExact. simpl. rewrite String.eqb_refl, srvDataEquals_refl. by destruct (_ == _).
  - by right; left.
Qed.
End Convergence.

(** ** Recovered metadata *)
Section MetadataFacts.
Context `{RegexpEngine} {W : Type}.

(** Recovered metadata is used once: reading it for a hostname returns
    what recovery stored under its normal form and leaves nothing for a
    second read, by another instance as well; other names are unaffected. *)
Theorem recovered_metadata_once (h : string) (s : St W RState) :
  ∃ s', getRecoveredMetadata h s = (Some (recovered_for (st_local s) h), s') ∧
    st_calls s' = st_calls s ∧ st_world s' = st_world s ∧
    kept (st_local s') = kept (st_local s) ∧
    (∀ h', recovered_for (st_local s') h'
       = if NormalizeHostname h' == NormalizeHostname h then ∅ else recovered_for (st_local s) h').
Proof.
  eexists. split; [done|]. split_and!; [done..|]. intros h'. unfold recovered_for. simpl.
  destruct (rs_recoveredMetadata (st_local s)) as [m|]; simpl; [|by destruct (_ == _)].
  destruct (String.eqb_spec (NormalizeHostname h') (NormalizeHostname h)) as [->|].
  - by rewrite lookup_delete_eq.
  - by rewrite lookup_delete_ne.
Qed.
End MetadataFacts.
