(* ===== verification/Orphan.v ===== *)
(** * Orphan cleanup (internal/reconciler/orphan.go)

    Hostnames known from the last cycle and no longer discovered, and the
    deletion of their records under each operational mode. *)
From S2P Require Import Prelude GoStrings Errors Workload Hostname ProviderTypes Matcher.
From S2P Require Import GoMaps Effects SourceRegistry Instance Registry Result Cache.
From S2P Require Import Comparison Actions.
From Stdlib Require Import ZArith.

Section Orphan.
Context `{RegexpEngine} `{MapOrder} {W R : Type} `{!ProviderDirectory W R}.
Context (rc : Reconciler W R).
Implicit Types (inst : ProviderInstance W) (cache : nilable recordCache).

Abbreviation M := (Effects.M W RState).

(** An action about an instance's configured record. *)
Definition instAction (t : ActionType) (s : ActionStatus) (err hostname : string)
    inst : Action :=
  mkAction t s (pi_Name inst) hostname (pi_RecordType inst) (EffectiveTarget inst) err false.

(** An action about one record. *)
Definition recordAction (s : ActionStatus) (err hostname : string) inst (record : DNSRecord)
  : Action :=
  mkAction ActionDelete s (pi_Name inst) hostname (r_Type record) (r_Target record) err false.

(** The records of the cache, used when there are some. *)
Definition cachedRecords cache inst (hostname : string) : list DNSRecord :=
  match cache with
  | Some c =>
      let '(records, ok) := getAllRecordsForHostname c (pi_Name inst) hostname in
      if ok then records else []
  | None => []
  end.

(** The cached records, or those of the provider that [keep] selects; an
    error is the failed action to return. *)
Definition orphanRecords (keep : DNSRecord → bool) (hostname : string) inst cache
  : M (list DNSRecord + Action) :=
  let cached := cachedRecords cache inst hostname in
  if negb (length cached =? 0)%nat then ret (inl cached)
  else
    res <- prov_list (pi_Provider inst) ;;
    ret (match res with
         | inr err =>
             inr (instAction ActionDelete StatusFailed
                    ("failed to list records: " ++s Error err) hostname inst)
         | inl allRecords =>
             inl (List.filter (λ rec, (NormalizeHostname (r_Hostname rec) == hostname) && keep rec)
                    allRecords)
         end).

Definition keep_all (_ : DNSRecord) : bool := true.
Definition keep_data (rec : DNSRecord) : bool := is_data_type (r_Type rec).

Definition deleteOne (hostname : string) inst (record : DNSRecord) : M (option error) :=
  if r_Type record == RecordTypeSRV
  then DeleteSRVRecord inst hostname (r_Target record) (r_SRV record)
  else DeleteRecordByTarget inst hostname (r_Type record) (r_Target record).

Definition deletedAction (hostname : string) inst (record : DNSRecord) (err : option error)
  : Action :=
  match err with
  | Some e => recordAction StatusFailed (Error e) hostname inst record
  | None => recordAction StatusSuccess "" hostname inst record
  end.

(** *** Authoritative mode *)

Definition authoritativeStep (hostname : string) inst (actions : list Action)
    (record : DNSRecord) : M (list Action) :=
  if negb (SupportsRecordType (prov_Capabilities (pi_Provider inst)) (r_Type record))
  then ret actions
  else if r_Type record == RecordTypeTXT then ret actions
  else if isDryRun rc then ret (actions ++ [recordAction StatusSuccess "" hostname inst record])
  else
    err <- deleteOne hostname inst record ;;
    ret (actions ++ [deletedAction hostname inst record err]).

Definition deleteAuthoritativeForProvider (hostname : string) inst cache : M (list Action) :=
  res <- orphanRecords keep_all hostname inst cache ;;
  match res with
  | inr failed => ret [failed]
  | inl recordsToDelete =>
      actions <- foldM (authoritativeStep hostname inst) [] recordsToDelete ;;
      (if cf_OwnershipTracking (rc_config rc) then
         if isDryRun rc then ret tt
         else (DeleteOwnershipRecord inst hostname ;;; ret tt)
       else ret tt) ;;;
      ret actions
  end.

(** *** Managed mode with TXT ownership *)

Definition checkOwnership (hostname : string) inst cache : M (bool + error) :=
  match cache with
  | Some c =>
      ret (inl (hasOwnershipRecord c (pi_Name inst) hostname (cf_InstanceID (rc_config rc))))
  | None => HasOwnershipRecord inst hostname
  end.

Definition managedStep (hostname : string) inst (actions : list Action) (record : DNSRecord)
  : M (list Action) :=
  if isDryRun rc then ret (actions ++ [recordAction StatusSuccess "" hostname inst record])
  else
    err <- deleteOne hostname inst record ;;
    ret (actions ++ [deletedAction hostname inst record err]).

Definition deleteManagedForProvider (hostname : string) inst cache : M (list Action) :=
  owned <- checkOwnership hostname inst cache ;;
  match owned with
  | inr err =>
      ret [instAction ActionSkip StatusSkipped
             ("failed to check ownership: " ++s Error err) hostname inst]
  | inl false =>
      ret [instAction ActionSkip StatusSkipped
             "no ownership record - may be manually created" hostname inst]
  | inl true =>
      res <- orphanRecords keep_data hostname inst cache ;;
      match res with
      | inr failed => ret [failed]
      | inl recordsToDelete =>
          actions <- foldM (managedStep hostname inst) [] recordsToDelete ;;
          (if isDryRun rc then ret tt
           else (DeleteOwnershipRecord inst hostname ;;; ret tt)) ;;;
          ret actions
      end
  end.

(** *** Managed mode, provider without TXT records *)

Definition targetMatches inst (record : DNSRecord) : bool :=
  (r_Type record == pi_RecordType inst) && (r_Target record == EffectiveTarget inst).

Definition targetMatchStep (hostname : string) inst (actions : list Action)
    (record : DNSRecord) : M (list Action) :=
  if isDryRun rc then ret (actions ++ [recordAction StatusSuccess "" hostname inst record])
  else
    err <- DeleteRecordByTarget inst hostname (r_Type record) (r_Target record) ;;
    ret (actions ++ [deletedAction hostname inst record err]).

Definition deleteTargetMatchForProvider (hostname : string) inst cache : M (list Action) :=
  res <- orphanRecords keep_all hostname inst cache ;;
  match res with
  | inr failed => ret [failed]
  | inl allRecords =>
      let matched := List.filter (targetMatches inst) allRecords in
      if (length matched =? 0)%nat then
        ret [instAction ActionSkip StatusSkipped "no target-matched records found" hostname inst]
      else foldM (targetMatchStep hostname inst) [] matched
  end.

(** *** Managed mode without ownership tracking.  The deletion comes before
    the dry-run check. *)

Definition cacheOnlyStep (hostname : string) inst (actions : list Action) (record : DNSRecord)
  : M (list Action) :=
  err <- deleteOne hostname inst record ;;
  ret (actions ++
       [match err with
        | Some e =>
            if isDryRun rc
            then recordAction StatusSuccess (Error e) hostname inst record
            else recordAction StatusFailed (Error e) hostname inst record
        | None => recordAction StatusSuccess "" hostname inst record
        end]).

Definition deleteCacheOnlyForProvider (hostname : string) inst cache : M (list Action) :=
  res <- orphanRecords keep_data hostname inst cache ;;
  match res with
  | inr failed => ret [failed]
  | inl recordsToDelete => foldM (cacheOnlyStep hostname inst) [] recordsToDelete
  end.

(** *** One orphan on one provider *)

Definition deleteOrphanForProvider (hostname : string) inst cache : M (list Action) :=
  let mode := if pi_Mode inst == "" then ModeManaged else pi_Mode inst in
  if negb (AllowsDelete mode) then
    ret [instAction ActionSkip StatusSkipped "additive mode - deletions disabled" hostname inst]
  else if negb (RequiresOwnership mode) then deleteAuthoritativeForProvider hostname inst cache
  else if cf_OwnershipTracking (rc_config rc) then
    if SupportsOwnershipTXT (prov_Capabilities (pi_Provider inst))
    then deleteManagedForProvider hostname inst cache
    else deleteTargetMatchForProvider hostname inst cache
  else deleteCacheOnlyForProvider hostname inst cache.

Definition getOrphanProviders (st : RState) (hostname : string) : list (ProviderInstance W) :=
  let previousProviders := default [] (rs_hostnameProviders st !! hostname) in
  if (0 <? length previousProviders)%nat
  then omap (dir_Get (rc_providers rc)) previousProviders
  else dir_MatchingProviders (rc_providers rc) hostname.

Definition isOrphan (currentHostnames : gmap string Hostname) (hostname : string) : bool :=
  bool_decide (currentHostnames !! hostname = None).

(** More than one orphan, and more than half of the known hostnames: the
    float quotient exceeds 0.5 exactly when twice the count exceeds the
    total (both are exact below 2^52). *)
Definition circuitBreaker (previousCount orphanCount : nat) : bool :=
  (0 <? previousCount)%nat && (0 <? orphanCount)%nat
  && (previousCount <? 2 * orphanCount)%nat && (1 <? orphanCount)%nat.

Definition cleanupOrphan cache (actions : list Action) (hostname : string) : M (list Action) :=
  st <- get_local ;;
  foldM (λ actions inst,
    deleteActions <- deleteOrphanForProvider hostname inst cache ;;
    ret (actions ++ deleteActions)) actions (getOrphanProviders st hostname).

Definition cleanupOrphans (currentHostnames : gmap string Hostname) cache : M (list Action) :=
  st <- get_local ;;
  let previousHostnames := range_keys (rs_knownHostnames st) in
  let orphans := List.filter (isOrphan currentHostnames) previousHostnames in
  if circuitBreaker (length previousHostnames) (length orphans) then ret []
  else foldM (cleanupOrphan cache) [] orphans.

(** *** [deleteRecord], for [RemoveHostname] *)

Definition deleteRecordStep (hostname : string) (actions : list Action) inst
  : M (list Action) :=
  if isDryRun rc then
    ret (actions ++ [instAction ActionDelete StatusSuccess "" hostname inst])
  else
    err <- DeleteRecord inst hostname ;;
    match err with
    | Some e =>
        ret (actions ++ [instAction ActionDelete StatusFailed (Error e) hostname inst])
    | None =>
        (if cf_OwnershipTracking (rc_config rc)
         then (DeleteOwnershipRecord inst hostname ;;; ret tt) else ret tt) ;;;
        ret (actions ++ [instAction ActionDelete StatusSuccess "" hostname inst])
    end.

Definition deleteRecord (hostname : string) : M (list Action) :=
  foldM (deleteRecordStep hostname) [] (dir_MatchingProviders (rc_providers rc) hostname).
End Orphan.

(** ** What cleanup may delete *)
Section OrphanFacts.
Context `{RegexpEngine} `{MapOrder} {W R : Type} `{!ProviderDirectory W R}.
Context (rc : Reconciler W R).
Implicit Types (inst : ProviderInstance W) (P : Call → Prop).

Definition modeOf inst : OperationalMode :=
  if pi_Mode inst == "" then ModeManaged else pi_Mode inst.
Definition tracking : bool := cf_OwnershipTracking (rc_config rc).
Definition ownsTXT inst : bool := SupportsOwnershipTXT (prov_Capabilities (pi_Provider inst)).
Definition owned (c : recordCache) inst (hostname : string) : bool :=
  hasOwnershipRecord c (pi_Name inst) hostname (cf_InstanceID (rc_config rc)).
Definition marker inst (hostname : string) : DNSRecord :=
  OwnershipRecord hostname (pi_TTL inst) (pi_InstanceID inst) ∅.

(** The deletions of the orphan [hostname] on [inst] that the modes allow,
    given the cache [c]. *)
Inductive deletable (c : recordCache) (hostname : string) inst (r : DNSRecord) : Prop :=
| del_authoritative :
    isDryRun rc = false → AllowsDelete (modeOf inst) = true →
    RequiresOwnership (modeOf inst) = false → r_Hostname r = hostname →
    SupportsRecordType (prov_Capabilities (pi_Provider inst)) (r_Type r) = true →
    r_Type r ≠ RecordTypeTXT → deletable c hostname inst r
| del_authoritative_marker :
    isDryRun rc = false → AllowsDelete (modeOf inst) = true →
    RequiresOwnership (modeOf inst) = false → tracking = true →
    r = marker inst hostname → deletable c hostname inst r
| del_owned :
    isDryRun rc = false → RequiresOwnership (modeOf inst) = true → tracking = true →
    ownsTXT inst = true → owned c inst hostname = true →
    (r_Hostname r = hostname ∧ is_data_type (r_Type r) = true ∨ r = marker inst hostname) →
    deletable c hostname inst r
| del_target :
    isDryRun rc = false → RequiresOwnership (modeOf inst) = true → tracking = true →
    ownsTXT inst = false → r_Hostname r = hostname →
    r_Type r = pi_RecordType inst → r_Target r = EffectiveTarget inst →
    deletable c hostname inst r
| del_untracked :
    RequiresOwnership (modeOf inst) = true → tracking = false →
    r_Hostname r = hostname → is_data_type (r_Type r) = true →
    deletable c hostname inst r.

(** The actions cleanup reports. *)
Definition orphan_action (hostname : string) inst (a : Action) : Prop :=
  action_ok a ∧ a_Hostname a = hostname ∧ a_Provider a = pi_Name inst ∧
  (a_Type a = ActionDelete ∨ a_Type a = ActionSkip).

Lemma recordAction_ok s e hostname inst r :
  s = StatusSuccess ∨ s = StatusFailed → orphan_action hostname inst (recordAction s e hostname inst r).
Proof. intros Hs. split_and!; [right|..]; simpl; auto. Qed.
Lemma instSkip_ok e hostname inst :
  orphan_action hostname inst (instAction ActionSkip StatusSkipped e hostname inst).
Proof. split_and!; [left|..]; simpl; auto. Qed.
Lemma instDelete_ok s e hostname inst :
  s = StatusSuccess ∨ s = StatusFailed →
  orphan_action hostname inst (instAction ActionDelete s e hostname inst).
Proof. intros Hs. split_and!; [right|..]; simpl; auto. Qed.
Lemma deletedAction_ok hostname inst r err :
  orphan_action hostname inst (deletedAction hostname inst r err).
Proof. destruct err; apply recordAction_ok; auto. Qed.

Section One.
Context P (hostname : string) inst (c : recordCache).
Context (HL : P (CallList (pi_Name inst)))
  (HD : ∀ r, deletable c hostname inst r → P (CallDelete (pi_Name inst) r)).
#[local] Abbreviation acts := (Forall (orphan_action hostname inst)).

Lemma acts_snoc l a : acts l → orphan_action hostname inst a → acts (l ++ [a]).
Proof using Type. intros. apply Forall_app. split; [done|by apply Forall_singleton]. Qed.
#[local] Hint Resolve acts_snoc deletedAction_ok : core.

(** The records found are data records, or were selected by [keep]. *)
Lemma ensures_orphanRecords keep :
  ensures P (λ res, match res with
             | inl l => Forall (λ r, is_data_type (r_Type r) = true ∨ keep r = true) l
             | inr a => orphan_action hostname inst a
             end) (orphanRecords keep hostname inst (Some c)).
Proof using HL.
  unfold orphanRecords. destruct (negb _).
  - apply ensures_ret, Forall_forall. intros r. unfold cachedRecords.
    rewrite getAllRecordsForHostname_eq.
    pose proof (getExistingRecords_data c (pi_Name inst) hostname) as Hdata.
    destruct (getExistingRecords _ _ _) as [l ok]. destruct ok; [|by intros ?%not_elem_of_nil].
    intros Hr. left. by apply Hdata.
  - eapply ensures_bind; [by apply ensures_prov_list|]. intros [l|e] _; apply ensures_ret.
    + apply Forall_forall. intros r [_ [_ ?]%andb_true_iff]%elem_of_list_filter. by right.
    + apply instDelete_ok. auto.
Qed.

Lemma ensures_deleteOne record :
  (∀ srv, P (CallDelete (pi_Name inst)
               (mkRecord hostname (r_Type record) (r_Target record) 0 "" srv None ∅))) →
  ensures P (λ _, True) (deleteOne hostname inst record).
Proof using Type.
  intros HP. unfold deleteOne. destruct (String.eqb_spec (r_Type record) RecordTypeSRV) as [E|_].
  - apply ensures_prov_delete. rewrite <- E. apply HP.
  - apply ensures_prov_delete, HP.
Qed.

Lemma ensures_authoritativeStep l record :
  AllowsDelete (modeOf inst) = true → RequiresOwnership (modeOf inst) = false →
  acts l → ensures P acts (authoritativeStep rc hostname inst l record).
Proof using HD.
  intros HA HR Hl. unfold authoritativeStep.
  destruct (SupportsRecordType _ _) eqn:Hs; simpl; [|by apply ensures_ret].
  destruct (String.eqb_spec (r_Type record) RecordTypeTXT); [by apply ensures_ret|].
  destruct (isDryRun rc) eqn:Hd; [apply ensures_ret, acts_snoc; [done|apply recordAction_ok; auto]|].
  eapply ensures_bind; [|intros; apply ensures_ret; auto].
  apply ensures_deleteOne. intros srv. apply HD. by apply del_authoritative.
Qed.

Lemma ensures_deleteAuthoritative :
  AllowsDelete (modeOf inst) = true → RequiresOwnership (modeOf inst) = false →
  ensures P acts (deleteAuthoritativeForProvider rc hostname inst (Some c)).
Proof using HL HD.
  intros HA HR. unfold deleteAuthoritativeForProvider.
  eapply ensures_bind; [apply ensures_orphanRecords|].
  intros [l|a] Hres; [|by apply ensures_ret, Forall_singleton].
  eapply (ensures_bind _ acts).
  { apply ensures_foldM; [constructor|]. intros. by apply ensures_authoritativeStep. }
  intros actions Ha. eapply (ensures_bind _ (λ _, True)); [|intros; by apply ensures_ret].
  destruct (cf_OwnershipTracking (rc_config rc)) eqn:Ht; [|by apply ensures_ret].
  destruct (isDryRun rc) eqn:Hd; [by apply ensures_ret|].
  eapply ensures_bind; [|intros; by apply ensures_ret].
  apply ensures_prov_delete, HD. by apply del_authoritative_marker.
Qed.

Lemma ensures_deleteManaged :
  RequiresOwnership (modeOf inst) = true → tracking = true → ownsTXT inst = true →
  ensures P acts (deleteManagedForProvider rc hostname inst (Some c)).
Proof using HL HD.
  intros HR Ht Htxt. unfold deleteManagedForProvider.
  eapply (ensures_bind _ (λ o, o = inl (owned c inst hostname))); [by apply ensures_ret|].
  intros ? ->. destruct (owned c inst hostname) eqn:Ho;
    [|apply ensures_ret, Forall_singleton, instSkip_ok].
  eapply ensures_bind; [apply ensures_orphanRecords|].
  intros [l|a] Hres; [|by apply ensures_ret, Forall_singleton].
  rewrite Forall_forall in Hres.
  eapply (ensures_bind _ acts).
  { apply ensures_foldM; [constructor|]. intros acc r Hr Hacc. unfold managedStep.
    destruct (isDryRun rc) eqn:Hd; [apply ensures_ret, acts_snoc; [done|apply recordAction_ok; auto]|].
    eapply ensures_bind; [|intros; apply ensures_ret; auto].
    apply ensures_deleteOne. intros srv. apply HD. apply del_owned; try done.
    left. split; [done|]. simpl. by destruct (Hres r Hr). }
  intros actions Ha. eapply (ensures_bind _ (λ _, True)); [|intros; by apply ensures_ret].
  destruct (isDryRun rc) eqn:Hd; [by apply ensures_ret|].
  eapply ensures_bind; [|intros; by apply ensures_ret].
  apply ensures_prov_delete, HD. apply del_owned; auto.
Qed.

Lemma ensures_deleteTargetMatch :
  RequiresOwnership (modeOf inst) = true → tracking = true → ownsTXT inst = false →
  ensures P acts (deleteTargetMatchForProvider rc hostname inst (Some c)).
Proof using HL HD.
  intros HR Ht Htxt. unfold deleteTargetMatchForProvider.
  eapply ensures_bind; [apply ensures_orphanRecords|].
  intros [l|a] Hres; [|by apply ensures_ret, Forall_singleton].
  destruct (_ =? 0)%nat; [apply ensures_ret, Forall_singleton, instSkip_ok|].
  apply ensures_foldM; [constructor|].
  intros acc r [_ [Hrt%String.eqb_eq Hrv%String.eqb_eq]%andb_true_iff]%elem_of_list_filter Hacc.
  unfold targetMatchStep.
  destruct (isDryRun rc) eqn:Hd; [apply ensures_ret, acts_snoc; [done|apply recordAction_ok; auto]|].
  eapply ensures_bind; [|intros; apply ensures_ret; auto].
  apply ensures_prov_delete, HD. by apply del_target.
Qed.

Lemma ensures_deleteCacheOnly :
  RequiresOwnership (modeOf inst) = true → tracking = false →
  ensures P acts (deleteCacheOnlyForProvider rc hostname inst (Some c)).
Proof using HL HD.
  intros HR Ht. unfold deleteCacheOnlyForProvider.
  eapply ensures_bind; [apply ensures_orphanRecords|].
  intros [l|a] Hres; [|by apply ensures_ret, Forall_singleton].
  rewrite Forall_forall in Hres.
  apply ensures_foldM; [constructor|]. intros acc r Hr Hacc. unfold cacheOnlyStep.
  eapply (ensures_bind _ (λ _, True)).
  - apply ensures_deleteOne. intros srv. apply HD. apply del_untracked; try done.
    simpl. by destruct (Hres r Hr).
  - intros err _. apply ensures_ret, acts_snoc; [done|].
    destruct err; [destruct (isDryRun rc)|]; apply recordAction_ok; auto.
Qed.

Lemma ensures_deleteOrphanForProvider :
  ensures P acts (deleteOrphanForProvider rc hostname inst (Some c)).
Proof using HL HD.
  unfold deleteOrphanForProvider. fold (modeOf inst).
  destruct (AllowsDelete (modeOf inst)) eqn:HA; simpl;
    [|apply ensures_ret, Forall_singleton, instSkip_ok].
  destruct (RequiresOwnership (modeOf inst)) eqn:HR; simpl; [|by apply ensures_deleteAuthoritative].
  destruct (cf_OwnershipTracking (rc_config rc)) eqn:Ht; [|by apply ensures_deleteCacheOnly].
  destruct (SupportsOwnershipTXT _) eqn:Htxt;
    [by apply ensures_deleteManaged|by apply ensures_deleteTargetMatch].
Qed.
End One.
End OrphanFacts.

(** ** Cleanup as a whole *)
Section CleanupFacts.
Context `{RegexpEngine} `{MapOrder} {W R : Type} `{!ProviderDirectory W R}.
Context (rc : Reconciler W R).
Implicit Types (inst : ProviderInstance W) (P : Call → Prop).

Lemma getOrphanProviders_All st h inst :
  dir_wf (rc_providers rc) → inst ∈ getOrphanProviders rc st h → inst ∈ dir_All (rc_providers rc).
Proof.
  intros Hwf. unfold getOrphanProviders. destruct (0 <? _)%nat.
  - intros (n & _ & Hn)%list_elem_of_omap. by eapply dir_Get_All.
  - rewrite dir_Matching_eq. by intros [? _]%elem_of_list_filter.
Qed.

(** The orphans of a state that cleanup works on. *)
Definition orphan (st : RState) (current : gmap string Hostname) (h : string) : Prop :=
  is_Some (rs_knownHostnames st !! h) ∧ current !! h = None.

Definition orphansOf (st : RState) (current : gmap string Hostname) : list string :=
  List.filter (isOrphan current) (range_keys (rs_knownHostnames st)).

Lemma elem_of_orphansOf st current h : h ∈ orphansOf st current ↔ orphan st current h.
Proof.
  unfold orphansOf, orphan, isOrphan.
  by rewrite elem_of_list_filter, elem_of_range_keys, bool_decide_eq_true.
Qed.

Definition tripped (st : RState) (current : gmap string Hostname) : bool :=
  circuitBreaker (size (rs_knownHostnames st)) (length (orphansOf st current)).

(** An action on some orphan by some registered instance. *)
Definition cleanup_action (st : RState) (current : gmap string Hostname) (a : Action) : Prop :=
  ∃ h inst, orphan st current h ∧ inst ∈ dir_All (rc_providers rc) ∧ orphan_action h inst a.

(** A call of cleanup: a listing, or a deletion the modes allow. *)
Inductive cleanup_call (st : RState) (current : gmap string Hostname) (c : recordCache)
  : Call → Prop :=
| cc_list inst : inst ∈ dir_All (rc_providers rc) → cleanup_call st current c (CallList (pi_Name inst))
| cc_delete inst h r :
    inst ∈ dir_All (rc_providers rc) → orphan st current h → tripped st current = false →
    deletable rc c h inst r → cleanup_call st current c (CallDelete (pi_Name inst) r).

Lemma cleanupOrphans_at current c s :
  cleanupOrphans rc current (Some c) s =
  (if tripped (st_local s) current then ret []
   else foldM (cleanupOrphan rc (Some c)) [] (orphansOf (st_local s) current)) s.
Proof.
  unfold cleanupOrphans, tripped. rewrite bind_get. unfold range_keys at 1.
  rewrite length_map, length_range. done.
Qed.

Lemma ensures_cleanupOrphan st current c h acc :
  dir_wf (rc_providers rc) → orphan st current h → tripped st current = false →
  Forall (cleanup_action st current) acc →
  ensures (cleanup_call st current c) (Forall (cleanup_action st current))
    (cleanupOrphan rc (Some c) acc h).
Proof.
  intros Hwf Ho Ht Hacc. unfold cleanupOrphan.
  eapply (ensures_bind _ (λ _, True)); [by apply ensures_get|]. intros st' _.
  apply ensures_foldM; [done|]. intros acts inst Hin%getOrphanProviders_All Hacts; [|done].
  eapply ensures_bind.
  - apply ensures_deleteOrphanForProvider; [by apply cc_list|].
    intros r Hr. by eapply cc_delete.
  - intros l Hl. apply ensures_ret, Forall_app. split; [done|].
    eapply Forall_impl; [done|]. intros a Ha. by exists h, inst.
Qed.

Lemma cleanupOrphans_sound current c :
  dir_wf (rc_providers rc) →
  ∀ s, ∃ tr, st_calls (cleanupOrphans rc current (Some c) s).2 = st_calls s ++ tr ∧
    Forall (cleanup_call (st_local s) current c) tr ∧
    ∀ acts, (cleanupOrphans rc current (Some c) s).1 = Some acts →
      Forall (cleanup_action (st_local s) current) acts.
Proof.
  intros Hwf s. rewrite cleanupOrphans_at. destruct (tripped _ _) eqn:Ht.
  - apply (ensures_ret _ (Forall (cleanup_action (st_local s) current))). constructor.
  - apply (ensures_foldM _ (Forall (cleanup_action (st_local s) current))); [constructor|].
    intros acc h Hh Hacc. apply ensures_cleanupOrphan; try done. by apply elem_of_orphansOf.
Qed.

(** *** Nothing in cleanup writes the local state *)
Lemma keeps_deleteOrphanForProvider h inst c :
  keeps_local (deleteOrphanForProvider rc h inst (Some c)).
Proof.
  unfold deleteOrphanForProvider.
  assert (∀ k, keeps_local (orphanRecords k h inst (Some c))) as Ho.
  { intros k. unfold orphanRecords. destruct (negb _); [done|]. by apply keeps_bind. }
  assert (∀ r, keeps_local (deleteOne h inst r)) as Hd.
  { intros r. unfold deleteOne. by destruct (_ == _). }
  destruct (negb _); [done|]. destruct (negb _); [|destruct (cf_OwnershipTracking _); [destruct (SupportsOwnershipTXT _)|]].
  - apply keeps_bind; [done|]. intros [l|a]; [|done]. apply keeps_bind.
    + apply keeps_foldM. intros acc r. unfold authoritativeStep. repeat case_match; try done.
      by apply keeps_bind.
    + intros acts. apply keeps_bind; [|done]. by repeat case_match.
  - apply keeps_bind; [done|]. intros [[]|e]; [|done..]. apply keeps_bind; [done|].
    intros [l|a]; [|done]. apply keeps_bind.
    + apply keeps_foldM. intros acc r. unfold managedStep. case_match; [done|]. by apply keeps_bind.
    + intros acts. apply keeps_bind; [|done]. case_match; [done|]. by apply keeps_bind.
  - apply keeps_bind; [done|]. intros [l|a]; [|done]. cbv beta iota zeta. destruct (_ =? 0)%nat; [done|].
    apply keeps_foldM. intros acc r. unfold targetMatchStep. case_match; [done|]. by apply keeps_bind.
  - apply keeps_bind; [done|]. intros [l|a]; [|done]. apply keeps_foldM. intros acc r.
    unfold cacheOnlyStep. by apply keeps_bind.
Qed.

Lemma keeps_cleanupOrphans current c : keeps_local (cleanupOrphans rc current (Some c)).
Proof.
  unfold cleanupOrphans. apply keeps_bind; [done|]. intros st. case_match; [done|].
  apply keeps_foldM. intros acc h. apply keeps_bind; [done|]. intros st'.
  apply keeps_foldM. intros acc' inst. apply keeps_bind; [apply keeps_deleteOrphanForProvider|].
  done.
Qed.
End CleanupFacts.

(** ** Properties of cleanup *)
Section CleanupProperties.
Context `{RegexpEngine} `{MapOrder} {W R : Type} `{!ProviderDirectory W R}.
Context (rc : Reconciler W R).
Implicit Types (inst : ProviderInstance W).

Lemma deletable_not_additive c h inst r :
  deletable rc c h inst r → AllowsDelete (modeOf inst) = true.
Proof.
  destruct 1; try done;
    unfold AllowsDelete, RequiresOwnership, ModeManaged, ModeAdditive in *;
    by destruct (String.eqb_spec (modeOf inst) "additive") as [E|]; [rewrite E in *|].
Qed.

(** C3. Orphan cleanup deletes only what the modes allow: each provider call
    lists an instance, or deletes a record of a hostname that was known and
    is no longer discovered, on an instance not in additive mode.
    Authoritative mode too deletes no record of a name that was never known.
    In managed mode with ownership tracking a data record of a hostname
    whose marker the cache shows, the marker itself, or, on a provider
    without TXT records, a record with the instance's own type and target;
    only without ownership tracking any data record. *)
Theorem cleanup_deletes_justified current c s :
  dir_wf (rc_providers rc) →
  ∃ tr, st_calls (cleanupOrphans rc current (Some c) s).2 = st_calls s ++ tr ∧
    ∀ call, call ∈ tr →
      (∃ inst, inst ∈ dir_All (rc_providers rc) ∧ call = CallList (pi_Name inst)) ∨
      (∃ inst h r, inst ∈ dir_All (rc_providers rc) ∧ orphan (st_local s) current h ∧
         call = CallDelete (pi_Name inst) r ∧ AllowsDelete (modeOf inst) = true ∧
         deletable rc c h inst r).
Proof.
  intros Hwf. destruct (cleanupOrphans_sound rc current c Hwf s) as (tr & Htr & HP & _).
  exists tr. split; [done|]. rewrite Forall_forall in HP.
  intros call Hc%HP. destruct Hc as [inst Hin|inst h r Hin Ho Ht Hd]; [left; eauto|right].
  exists inst, h, r. split_and!; [done..| |done]. by eapply deletable_not_additive.
Qed.

(** C35. The circuit breaker: when at least two hostnames, and more than half
    of the known ones, would be orphaned, cleanup reports nothing, calls no
    provider and changes nothing; otherwise at most one hostname or at most
    half of the known ones is cleaned up. *)
Theorem circuit_breaker current c s :
  let known := size (rs_knownHostnames (st_local s)) in
  let orphans := length (orphansOf (st_local s) current) in
  (1 < orphans ∧ known < 2 * orphans →
     cleanupOrphans rc current (Some c) s = (Some [], s)) ∧
  (¬ (1 < orphans ∧ known < 2 * orphans) →
     cleanupOrphans rc current (Some c) s
     = foldM (cleanupOrphan rc (Some c)) [] (orphansOf (st_local s) current) s).
Proof.
  simpl. rewrite cleanupOrphans_at. unfold tripped, circuitBreaker.
  assert (length (orphansOf (st_local s) current) ≤ size (rs_knownHostnames (st_local s))).
  { unfold orphansOf. etransitivity; [apply List.filter_length_le|].
    unfold range_keys. by rewrite length_map, length_range. }
  destruct (Nat.ltb_spec 1 (length (orphansOf (st_local s) current))),
    (Nat.ltb_spec (size (rs_knownHostnames (st_local s)))
                  (2 * length (orphansOf (st_local s) current)));
  destruct (Nat.ltb_spec 0 (size (rs_knownHostnames (st_local s)))),
    (Nat.ltb_spec 0 (length (orphansOf (st_local s) current))); simpl; split; try done; lia.
Qed.

(** In additive mode nothing is deleted: an orphan on an additive
    instance gives one skip action and no effect at all. *)
Theorem additive_never_deletes h inst cache s :
  pi_Mode inst = ModeAdditive →
  deleteOrphanForProvider rc h inst cache s
  = (Some [instAction ActionSkip StatusSkipped "additive mode - deletions disabled" h inst], s).
Proof. intros Hm. unfold deleteOrphanForProvider. by rewrite Hm. Qed.

(** Without an ownership marker nothing is deleted: in managed mode with
    ownership tracking, on a provider that stores TXT records, an orphan
    whose marker the cache does not show gives one skip and no effect. *)
Theorem unowned_never_deleted h inst c s :
  pi_Mode inst = ModeManaged → cf_OwnershipTracking (rc_config rc) = true →
  SupportsOwnershipTXT (prov_Capabilities (pi_Provider inst)) = true →
  hasOwnershipRecord c (pi_Name inst) h (cf_InstanceID (rc_config rc)) = false →
  deleteOrphanForProvider rc h inst (Some c) s
  = (Some [instAction ActionSkip StatusSkipped
             "no ownership record - may be manually created" h inst], s).
Proof.
  intros Hm Ht Htxt Ho. unfold deleteOrphanForProvider. rewrite Hm, Ht, Htxt. simpl.
  unfold deleteManagedForProvider, checkOwnership. rewrite Ho. done.
Qed.

(** The record sent to the provider to delete [r]. *)
Definition deletionOf (h : string) (r : DNSRecord) : DNSRecord :=
  mkRecord h (r_Type r) (r_Target r) 0 ""
    (if r_Type r == RecordTypeSRV then r_SRV r else None) None ∅.

Lemma cacheOnlyStep_calls h inst acc r s :
  st_calls (cacheOnlyStep rc h inst acc r s).2
    = st_calls s ++ [CallDelete (pi_Name inst) (deletionOf h r)] ∧
  is_Some (cacheOnlyStep rc h inst acc r s).1.
Proof.
  unfold cacheOnlyStep, deleteOne, deletionOf.
  destruct (String.eqb_spec (r_Type r) RecordTypeSRV) as [->|]; split; try done; by eexists.
Qed.

Lemma cacheOnly_calls h inst acc l s :
  st_calls (foldM (cacheOnlyStep rc h inst) acc l s).2
  = st_calls s ++ map (λ r, CallDelete (pi_Name inst) (deletionOf h r)) l.
Proof.
  revert acc s. induction l as [|r l IH]; intros acc s; simpl; [by rewrite app_nil_r|].
  unfold bind. destruct (cacheOnlyStep_calls h inst acc r s) as [Hc [x Hx]].
  destruct (cacheOnlyStep rc h inst acc r s) as [o s']; simpl in *. subst o.
  by rewrite IH, Hc, <- app_assoc.
Qed.

(** Dry-run does not protect managed instances without ownership
    tracking: the records the cache shows for an orphan are deleted at the
    provider, one call each, whatever the dry-run flag is. *)
Theorem cache_only_ignores_dry_run h inst c s :
  pi_Mode inst = ModeManaged → cf_OwnershipTracking (rc_config rc) = false →
  cachedRecords (Some c) inst h ≠ [] →
  st_calls (deleteOrphanForProvider rc h inst (Some c) s).2
  = st_calls s ++
    map (λ r, CallDelete (pi_Name inst) (deletionOf h r)) (cachedRecords (Some c) inst h).
Proof.
  intros Hm Ht Hne.
  assert (deleteOrphanForProvider rc h inst (Some c)
          = deleteCacheOnlyForProvider rc h inst (Some c)) as ->
    by (unfold deleteOrphanForProvider; by rewrite Hm, Ht).
  unfold deleteCacheOnlyForProvider, orphanRecords.
  destruct (cachedRecords (Some c) inst h) as [|r l] eqn:E; [done|].
  simpl length. cbn [Nat.eqb negb]. rewrite bind_ret. apply cacheOnly_calls.
Qed.
End CleanupProperties.
