(* ===== verification/Reconcile.v ===== *)
(** * The reconciliation cycle (internal/reconciler/reconciler.go)

    Listing, extraction, the cache, ensuring, orphan cleanup, and the state
    kept for the next cycle. *)
From S2P Require Import Prelude GoStrings Errors Workload Hostname ProviderTypes Matcher.
From S2P Require Import GoMaps Effects SourceRegistry Instance Registry Result Cache.
From S2P Require Import Comparison Actions Orphan.
From Stdlib Require Import ZArith.

(** [New] with [WithConfig], after [syncAtomics]. *)
Definition New {W R} (listers : list (Lister W)) (sources : SourceRegistry W) (providers : R)
    (cfg : Config) : Reconciler W R :=
  mkReconciler listers sources providers cfg (cf_Enabled cfg) (cf_DryRun cfg).
Definition NewState : RState := mkRState ∅ ∅ None.

Definition SetEnabled {W R} (enabled : bool) (rc : Reconciler W R) : Reconciler W R :=
  mkReconciler (rc_listers rc) (rc_sources rc) (rc_providers rc) (rc_config rc) enabled (rc_dryRun rc).
Definition SetDryRun {W R} (dryRun : bool) (rc : Reconciler W R) : Reconciler W R :=
  mkReconciler (rc_listers rc) (rc_sources rc) (rc_providers rc) (rc_config rc) (rc_enabled rc) dryRun.

Section StateOps.
Context `{MapOrder}.

Definition KnownHostnames (st : RState) : list string := range_keys (rs_knownHostnames st).
Definition RecoveredMetadata (st : RState) : nilable (gmap string (gmap string string)) :=
  rs_recoveredMetadata st.
End StateOps.

Definition add_known (h : string) (st : RState) : RState :=
  mkRState (<[h := tt]> (rs_knownHostnames st)) (rs_hostnameProviders st) (rs_recoveredMetadata st).
Definition remove_known (h : string) (st : RState) : RState :=
  mkRState (delete h (rs_knownHostnames st)) (rs_hostnameProviders st) (rs_recoveredMetadata st).

(** ** Extraction *)

(** The maps of [extractHostnames] and its counters on the result. *)
Record Extraction := mkExtraction {
  ex_discovered : gmap string Hostname;
  ex_origins : gmap string string;
  ex_invalid : nat;
  ex_duplicate : nat
}.

Definition extractHostname (workload : string) (ex : Extraction) (hostname : Hostname)
  : Extraction :=
  let normalizedName := NormalizedName hostname in
  match ex_origins ex !! normalizedName with
  | Some _ => mkExtraction (ex_discovered ex) (ex_origins ex) (ex_invalid ex) (S (ex_duplicate ex))
  | None =>
      mkExtraction (<[normalizedName := hostname]> (ex_discovered ex))
        (<[normalizedName := workload]> (ex_origins ex)) (ex_invalid ex) (ex_duplicate ex)
  end.

Definition add_invalid (n : nat) (ex : Extraction) : Extraction :=
  mkExtraction (ex_discovered ex) (ex_origins ex) (ex_invalid ex + n) (ex_duplicate ex).

Definition extractWorkload {W} (sources : SourceRegistry W) (ex : Extraction) (w : Workload)
  : Extraction :=
  let validation := ValidateAll (ExtractAll sources w) in
  fold_left (extractHostname (w_Name w)) (vr_Valid validation)
    (add_invalid (length (vr_Invalid validation)) ex).

(** A hostname of a file: added when no hostname of that name is known. *)
Definition extractFile (ex : Extraction) (hostname : Hostname) : Extraction :=
  let normalizedName := NormalizedName hostname in
  match ex_discovered ex !! normalizedName with
  | Some _ => ex
  | None =>
      mkExtraction (<[normalizedName := hostname]> (ex_discovered ex)) (ex_origins ex)
        (ex_invalid ex) (ex_duplicate ex)
  end.

Definition extractFiles (ex : Extraction) (fileHostnames : list Hostname) : Extraction :=
  let validation := ValidateAll fileHostnames in
  fold_left extractFile (vr_Valid validation)
    (add_invalid (length (vr_Invalid validation)) ex).

Section Reconcile.
Context `{RegexpEngine} `{MapOrder} {W R : Type} `{!ProviderDirectory W R}.
Context (rc : Reconciler W R).

Abbreviation M := (Effects.M W RState).

(** The workloads of all listers, or the first listing error. *)
Fixpoint listWorkloads (listers : list (Lister W)) (acc : list Workload)
  : M (list Workload + error) :=
  match listers with
  | [] => ret (inl acc)
  | lister :: listers =>
      res <- with_world (lst_ListWorkloads lister) ;;
      match res with
      | inr err =>
          ret (inr (EWrapf ("listing workloads from " ++s lst_Platform lister ++s ": ") err))
      | inl workloads => listWorkloads listers (acc ++ workloads)
      end
  end.

Definition extractHostnames (workloads : list Workload) : M Extraction :=
  let ex := fold_left (extractWorkload (rc_sources rc)) workloads (mkExtraction ∅ ∅ 0 0) in
  fileHostnames <- DiscoverAll (rc_sources rc) ;;
  ret (extractFiles ex fileHostnames).

(** The bookkeeping of one action: the result and the provider mapping. *)
Definition trackAction (hostname : Hostname) (acc : Result * gmap string (list string))
    (action : Action) : Result * gmap string (list string) :=
  let '(result, mapping) := acc in
  (AddAction result action,
   if (a_Provider action != "") && negb (bool_decide (a_Type action = ActionSkip))
   then <[h_Name hostname :=
           appendUnique (default [] (mapping !! h_Name hostname)) (a_Provider action)]> mapping
   else mapping).

Definition ensureStep (cache : recordCache) (acc : Result * gmap string (list string))
    (entry : string * Hostname) : M (Result * gmap string (list string)) :=
  actions <- ensureRecord rc entry.2 (Some cache) ;;
  ret (fold_left (trackAction entry.2) actions acc).

Definition set_counts (scanned discovered : nat) (ex : Extraction) (r : Result) : Result :=
  mkResult scanned discovered (res_HostnamesInvalid r + ex_invalid ex)
    (res_HostnamesDuplicate r + ex_duplicate ex) (res_Actions r) (res_DryRun r).

(** The writes at the end of a cycle. *)
Definition commitState (discovered : gmap string Hostname)
    (mapping : gmap string (list string)) (st : RState) : RState :=
  mkRState (const tt <$> discovered) mapping (rs_recoveredMetadata st).

(** Steps 3 to 5 and the state update, on the hostnames discovered. *)
Definition reconcileDiscovered (discovered : gmap string Hostname) (result : Result) : M Result :=
  cache <- newRecordCache (dir_All (rc_providers rc)) ;;
  acc <- foldM (ensureStep cache) (result, ∅) (range discovered) ;;
  result <- (if cf_CleanupOrphans (rc_config rc) then
               orphanActions <- cleanupOrphans rc discovered (Some cache) ;;
               ret (fold_left AddAction orphanActions acc.1)
             else ret acc.1) ;;
  modify_local (commitState discovered acc.2) ;;;
  ret result.

Definition Reconcile : M (Result + error) :=
  if negb (rc_enabled rc) then ret (inl (NewResult (rc_dryRun rc)))
  else
    listed <- listWorkloads (rc_listers rc) [] ;;
    match listed with
    | inr err => ret (inr err)
    | inl allWorkloads =>
        ex <- extractHostnames allWorkloads ;;
        result <- reconcileDiscovered (ex_discovered ex)
                    (set_counts (length allWorkloads) (size (ex_discovered ex)) ex
                       (NewResult (rc_dryRun rc))) ;;
        ret (inl result)
    end.

Definition api_hostname (hostnameStr : string) : Hostname := mkHostname hostnameStr "api" "" None ∅.

Definition ReconcileHostname (hostnameStr : string) : M Result :=
  if negb (rc_enabled rc) then ret (NewResult (rc_dryRun rc))
  else
    actions <- ensureRecord rc (api_hostname hostnameStr) None ;;
    modify_local (add_known (NormalizeHostname hostnameStr)) ;;;
    ret (fold_left AddAction actions (mkResult 0 1 0 0 [] (rc_dryRun rc))).

Definition RemoveHostname (hostname : string) : M Result :=
  if negb (rc_enabled rc) then ret (NewResult (rc_dryRun rc))
  else
    let hostname := NormalizeHostname hostname in
    actions <- deleteRecord rc hostname ;;
    modify_local (remove_known hostname) ;;;
    ret (fold_left AddAction actions (NewResult (rc_dryRun rc))).

(** ** Recovery at start-up *)

Definition recoverHostname (prov : string)
    (acc : RState * gmap string (gmap string string)) (rh : RecoveredHostname)
  : RState * gmap string (gmap string string) :=
  let '(st, recoveredMeta) := acc in
  let normalized := NormalizeHostname (rh_Hostname rh) in
  (mkRState (<[normalized := tt]> (rs_knownHostnames st))
     (<[normalized := appendUnique (default [] (rs_hostnameProviders st !! normalized)) prov]>
        (rs_hostnameProviders st))
     (rs_recoveredMetadata st),
   match rh_Metadata rh with
   | Some m => if (0 <? size m)%nat then <[normalized := m]> recoveredMeta else recoveredMeta
   | None => recoveredMeta
   end).

Definition recoverProvider
    (acc : gmap string (gmap string string) * list string) (inst : ProviderInstance W)
  : M (gmap string (gmap string string) * list string) :=
  let '(recoveredMeta, failedProviders) := acc in
  res <- RecoverOwnedHostnames inst ;;
  match res with
  | inr _ => ret (recoveredMeta, failedProviders ++ [pi_Name inst])
  | inl recovered =>
      st <- get_local ;;
      let '(st', meta') := fold_left (recoverHostname (pi_Name inst)) recovered (st, recoveredMeta) in
      modify_local (const st') ;;;
      ret (meta', failedProviders)
  end.

Definition set_recovered (m : gmap string (gmap string string)) (st : RState) : RState :=
  mkRState (rs_knownHostnames st) (rs_hostnameProviders st) (Some m).

Definition RecoverOwnership : M (option error) :=
  if negb (cf_CleanupOrphans (rc_config rc)) || negb (cf_OwnershipTracking (rc_config rc))
  then ret None
  else
    acc <- foldM recoverProvider (∅, []) (dir_All (rc_providers rc)) ;;
    modify_local (set_recovered acc.1) ;;;
    ret (if (0 <? length acc.2)%nat then
           Some (ENew ("ownership recovery failed for " ++s itoa (Z.of_nat (length acc.2))
                       ++s " provider(s): " ++s fmt_slice acc.2))
         else None).
End Reconcile.

(** ** Metrics: the counters a result increments, with their labels *)

Inductive Metric :=
| ReconciliationsTotal (status : string)
| RecordsCreatedTotal (provider : string)
| RecordsDeletedTotal (provider : string)
| RecordsFailedTotal (provider operation : string)
| RecordsSkippedTotal (reason : string).

Definition actionMetric (action : Action) : option Metric :=
  match a_Type action with
  | ActionCreate =>
      match a_Status action with
      | StatusSuccess => Some (RecordsCreatedTotal (a_Provider action))
      | StatusFailed => Some (RecordsFailedTotal (a_Provider action) "create")
      | _ => None
      end
  | ActionDelete =>
      match a_Status action with
      | StatusSuccess => Some (RecordsDeletedTotal (a_Provider action))
      | StatusFailed => Some (RecordsFailedTotal (a_Provider action) "delete")
      | _ => None
      end
  | ActionUpdate =>
      match a_Status action with
      | StatusFailed => Some (RecordsFailedTotal (a_Provider action) "update")
      | _ => None
      end
  | ActionSkip =>
      let reason := if a_Error action != "" then a_Error action else "unknown" in
      Some (RecordsSkippedTotal (if reason == errNoMatchingProvider then "no_provider" else reason))
  end.

Definition recordMetrics (result : Result) : list Metric :=
  ReconciliationsTotal (if HasErrors result then "error" else "success")
  :: omap actionMetric (res_Actions result).

(** ** What extraction finds *)
Section ExtractionFacts.
Context {W : Type}.
Implicit Types (sources : SourceRegistry W) (ex : Extraction) (hs : list Hostname).

Definition validOf hs : list Hostname := vr_Valid (ValidateAll hs).
Definition invalidCount hs : nat := length (vr_Invalid (ValidateAll hs)).

(** [ex] describes the valid hostnames [hs] of workloads seen so far. *)
Record extracts ex hs : Prop := {
  exs_first n : ex_discovered ex !! n = first_named n hs;
  exs_origins n : is_Some (ex_origins ex !! n) ↔ is_Some (ex_discovered ex !! n);
  exs_count : ex_duplicate ex + size (ex_discovered ex) = length hs
}.

Lemma first_named_app n hs hs' :
  first_named n (hs ++ hs') = match first_named n hs with Some h => Some h | None => first_named n hs' end.
Proof. apply find_app_first. Qed.

Lemma extracts_step wl ex hs h :
  extracts ex hs → extracts (extractHostname wl ex h) (hs ++ [h]).
Proof.
  intros [Hf Ho Hc]. unfold extractHostname.
  destruct (ex_origins ex !! NormalizedName h) as [o|] eqn:E.
  - assert (is_Some (ex_discovered ex !! NormalizedName h)) as [h' Hh'] by (apply Ho; by eexists).
    split; simpl; [|done|rewrite length_app; simpl; lia]. intros n. rewrite first_named_app, <- Hf.
    destruct (ex_discovered ex !! n) eqn:En; [done|]. simpl. unfold first_named. simpl.
    destruct (String.eqb_spec (NormalizedName h) n); [congruence|done].
  - assert (ex_discovered ex !! NormalizedName h = None) as Hn.
    { apply eq_None_not_Some. intros Hs%Ho. rewrite E in Hs. by destruct Hs. }
    split; simpl.
    + intros n. rewrite first_named_app, <- Hf. unfold first_named. simpl.
      destruct (String.eqb_spec (NormalizedName h) n) as [<-|].
      * by rewrite lookup_insert_eq, Hn.
      * rewrite lookup_insert_ne by done. by destruct (ex_discovered ex !! n).
    + intros n. destruct (decide (NormalizedName h = n)) as [<-|].
      * rewrite !lookup_insert_eq. split; by eexists.
      * rewrite !lookup_insert_ne by done. apply Ho.
    + rewrite map_size_insert_None, length_app by done. simpl. lia.
Qed.

Lemma extracts_fold wl ex hs hs' :
  extracts ex hs → extracts (fold_left (extractHostname wl) hs' ex) (hs ++ hs').
Proof.
  revert ex hs. induction hs' as [|h hs' IH]; intros ex hs He; simpl; [by rewrite app_nil_r|].
  rewrite (cons_middle h hs hs'), app_assoc. by apply IH, extracts_step.
Qed.

Lemma extractHostname_invalid wl hs ex :
  ex_invalid (fold_left (extractHostname wl) hs ex) = ex_invalid ex.
Proof.
  revert ex. induction hs as [|h hs IH]; intros ex; simpl; [done|]. rewrite IH.
  unfold extractHostname. by destruct (ex_origins ex !! _).
Qed.

Lemma extractFile_rest hs ex :
  ex_invalid (fold_left extractFile hs ex) = ex_invalid ex ∧
  ex_duplicate (fold_left extractFile hs ex) = ex_duplicate ex.
Proof.
  revert ex. induction hs as [|h hs IH]; intros ex; simpl; [done|].
  destruct (IH (extractFile ex h)) as [-> ->]. unfold extractFile. by destruct (_ !! _).
Qed.

Lemma extractFile_first hs ex hs0 :
  (∀ n, ex_discovered ex !! n = first_named n hs0) →
  ∀ n, ex_discovered (fold_left extractFile hs ex) !! n = first_named n (hs0 ++ hs).
Proof.
  revert ex hs0. induction hs as [|h hs IH]; intros ex hs0 Hf n; simpl; [by rewrite app_nil_r|].
  rewrite (cons_middle h hs0 hs), app_assoc. apply IH. clear n. intros n.
  rewrite first_named_app, <- Hf. unfold extractFile, first_named. simpl.
  destruct (ex_discovered ex !! NormalizedName h) eqn:E; simpl.
  - destruct (ex_discovered ex !! n) eqn:En; [done|].
    destruct (String.eqb_spec (NormalizedName h) n); [congruence|done].
  - destruct (String.eqb_spec (NormalizedName h) n) as [<-|].
    + by rewrite lookup_insert_eq, E.
    + rewrite lookup_insert_ne by done. by destruct (ex_discovered ex !! n).
Qed.

Lemma extractWorkloads_inv sources ws :
  let ex := fold_left (extractWorkload sources) ws (mkExtraction ∅ ∅ 0 0) in
  extracts ex (concat (map (λ w, validOf (ExtractAll sources w)) ws)) ∧
  ex_invalid ex = sum_list_with (λ w, invalidCount (ExtractAll sources w)) ws.
Proof.
  simpl. induction ws as [|w ws IH] using rev_ind.
  { split; [|done]. split; simpl; [intros n; apply lookup_empty| |done].
    intros n. rewrite !lookup_empty. by split; intros [? ?]. }
  rewrite fold_left_app, !map_app, concat_app.
  simpl. rewrite app_nil_r. destruct IH as [[Hf Ho Hc] Hi]. unfold extractWorkload at 1 3.
  split.
  - apply extracts_fold. by split.
  - rewrite extractHostname_invalid. simpl. rewrite Hi, sum_list_with_app. simpl. unfold invalidCount. lia.
Qed.

(** C34. Extraction: the first claim on a name wins, workloads before files.
    A hostname is found under a name exactly when it is the first valid
    hostname with that normal form, reading the workloads in listing order
    and then the discovered files; every invalid hostname is counted, and
    the duplicates counted are the valid workload hostnames beyond the
    first of each name. *)
Theorem extraction_first_wins sources ws fileHostnames :
  let claimed := concat (map (λ w, validOf (ExtractAll sources w)) ws) in
  let ex0 := fold_left (extractWorkload sources) ws (mkExtraction ∅ ∅ 0 0) in
  let ex := extractFiles ex0 fileHostnames in
  (∀ n, ex_discovered ex !! n = first_named n (claimed ++ validOf fileHostnames)) ∧
  ex_invalid ex = sum_list_with (λ w, invalidCount (ExtractAll sources w)) ws
                  + invalidCount fileHostnames ∧
  ex_duplicate ex + size (ex_discovered ex0) = length claimed.
Proof.
  simpl. destruct (extractWorkloads_inv sources ws) as [[Hf Ho Hc] Hi].
  unfold extractFiles.
  set (ex1 := add_invalid _ _).
  destruct (extractFile_rest (vr_Valid (ValidateAll fileHostnames)) ex1) as [-> ->].
  split_and!; [|simpl; by rewrite Hi|done].
  intros n. by apply extractFile_first.
Qed.
End ExtractionFacts.

(** ** What outside code answers during a cycle

    Relations between a world, the answers listers, sources and providers
    give one after the other, and the world they leave. *)
Section Observations.
Context `{RegexpEngine} {W : Type}.
Implicit Types (inst : ProviderInstance W).

(** Every lister answers; the workloads of all of them. *)
Inductive listed : list (Lister W) → W → list Workload → W → Prop :=
| listed_nil w : listed [] w [] w
| listed_cons lister l w ws w1 ws' w2 :
    lst_ListWorkloads lister w = (inl ws, w1) → listed l w1 ws' w2 →
    listed (lister :: l) w (ws ++ ws') w2.

(** Some lister fails, those before it having answered. *)
Inductive listing_fails : list (Lister W) → W → Lister W → error → Prop :=
| lf_here lister l w e w1 :
    lst_ListWorkloads lister w = (inr e, w1) → listing_fails (lister :: l) w lister e
| lf_later lister l w ws w1 failing e :
    lst_ListWorkloads lister w = (inl ws, w1) → listing_fails l w1 failing e →
    listing_fails (lister :: l) w failing e.

(** The hostnames that the sources with file discovery find. *)
Inductive files_found : list (Source W) → W → list Hostname → W → Prop :=
| ff_nil w : files_found [] w [] w
| ff_other src l w hs w1 :
    src_SupportsDiscovery src = false → files_found l w hs w1 → files_found (src :: l) w hs w1
| ff_error src l w e w1 hs w2 :
    src_SupportsDiscovery src = true → src_Discover src w = (inr e, w1) →
    files_found l w1 hs w2 → files_found (src :: l) w hs w2
| ff_found src l w hs w1 hs' w2 :
    src_SupportsDiscovery src = true → src_Discover src w = (inl hs, w1) →
    files_found l w1 hs' w2 → files_found (src :: l) w (hs ++ hs') w2.

(** What the instances answer when they are listed, by name. *)
Inductive answered : list (ProviderInstance W) → W → list (string * (list DNSRecord + error))
    → W → Prop :=
| ans_nil w : answered [] w [] w
| ans_cons inst l w a w1 answers w2 :
    prov_List (pi_Provider inst) w = (a, w1) → answered l w1 answers w2 →
    answered (inst :: l) w ((pi_Name inst, a) :: answers) w2.

(** The valid hostnames claimed, workloads before files. *)
Definition claims (sources : SourceRegistry W) (ws : list Workload) (files : list Hostname)
  : list Hostname :=
  List.filter (λ h, bool_decide (Validate h = None))
    (concat (map (ExtractAll sources) ws) ++ files).

Lemma validOf_filter hs : validOf hs = List.filter (λ h, bool_decide (Validate h = None)) hs.
Proof.
  unfold validOf. rewrite ValidateAll_partition. simpl. unfold ValidHostnames, Filter.
  apply List.filter_ext. intros h. pose proof (IsValid_Validate h) as Hv.
  case_bool_decide as Hd; [by apply Hv|]. destruct (IsValid h); [|done]. by exfalso; apply Hd, Hv.
Qed.

Lemma claims_app sources ws files :
  concat (map (λ w, validOf (ExtractAll sources w)) ws) ++ validOf files = claims sources ws files.
Proof.
  unfold claims. rewrite List.filter_app, validOf_filter. f_equal.
  induction ws as [|w ws IH]; simpl; [done|].
  by rewrite List.filter_app, IH, validOf_filter.
Qed.

Lemma elem_of_claims_valid sources ws files h : h ∈ claims sources ws files → Validate h = None.
Proof. unfold claims. by intros [_ ?%bool_decide_eq_true]%elem_of_list_filter. Qed.

(** The cache holds what the instances answered. *)
Definition cache_shows (c : recordCache) (answers : list (string * (list DNSRecord + error))) : Prop :=
  ∀ p idx, providerIndex c p = Some idx →
    ∃ records, (p, inl records) ∈ answers ∧ idx = indexRecords records.

Lemma cacheInstances_answers {L} l c0 answers0 (s : St W L) :
  cache_shows c0 answers0 →
  ∃ c s' answers, foldM cacheInstance c0 l s = (Some c, s') ∧ st_local s' = st_local s ∧
    st_calls s' = st_calls s ++ map (λ inst, CallList (pi_Name inst)) l ∧
    answered l (st_world s) answers (st_world s') ∧ cache_shows c (answers0 ++ answers).
Proof.
  revert c0 answers0 s. induction l as [|inst l IH]; intros c0 answers0 s Hc.
  { exists c0, s, []. rewrite !app_nil_r. by repeat split; [constructor|]. }
  destruct (prov_List (pi_Provider inst) (st_world s)) as [a w1] eqn:E.
  set (c1 := mkCache (<[pi_Name inst := match a with inr _ => None | inl l => Some (indexRecords l) end]>
                        (cache_records c0))).
  destruct (IH c1 (answers0 ++ [(pi_Name inst, a)])
              (mkSt w1 (st_calls s ++ [CallList (pi_Name inst)]) (st_local s)))
    as (c & s' & answers & Hrun & Hl & Hcalls & Hans & Hshow).
  { intros p idx. unfold providerIndex, c1. simpl. destruct (decide (pi_Name inst = p)) as [<-|Hne].
    - rewrite lookup_insert_eq. destruct a as [records|]; [|done]. intros [= <-].
      exists records. split; [|done]. apply elem_of_app. right. by left.
    - rewrite lookup_insert_ne by done. intros Hi. destruct (Hc p idx Hi) as (records & Hr & ->).
      exists records. split; [|done]. apply elem_of_app. by left. }
  exists c, s', ((pi_Name inst, a) :: answers). split_and!; [|done| | |].
  - simpl. unfold cacheInstance at 1, bind at 1 2, prov_list, call. simpl. rewrite E. exact Hrun.
  - rewrite Hcalls. simpl. by rewrite <- app_assoc.
  - econstructor; [done|exact Hans].
  - by rewrite (cons_middle _ answers0 answers), app_assoc.
Qed.

(** A marker the cache shows is in the listing of the instance. *)
Lemma hasOwnershipRecord_shows c answers p h id :
  cache_shows c answers → hasOwnershipRecord c p h id = true →
  ∃ records m, (p, inl records) ∈ answers ∧ m ∈ records ∧ r_Type m = "TXT" ∧
    NormalizeHostname (r_Hostname m) = NormalizeHostname ("_dnsweaver." ++s h) ∧
    marker_of id (r_Target m).
Proof.
  intros Hc Ho. assert (is_Some (providerIndex c p)) as [idx Hi].
  { unfold hasOwnershipRecord in Ho. destruct (providerIndex c p); [by eexists|done]. }
  destruct (Hc p idx Hi) as (records & Hin & ->).
  pose proof (proj1 (hasOwnershipRecord_caches c p records Hi h id) Ho) as (m & Hm & Hn & Ht & Hm2).
  exists records, m. split_and!; [done..|]. by apply MatchesOwnership_spec.
Qed.
End Observations.

(** ** The calls of a cycle *)
Section CycleFacts.
Context `{RegexpEngine} `{MapOrder} {W R : Type} `{!ProviderDirectory W R}.
Context (rc : Reconciler W R) (Hwf : dir_wf (rc_providers rc)).
Implicit Types (inst : ProviderInstance W) (st : RState) (discovered : gmap string Hostname).

(** A listing of a registered instance; a change for a discovered hostname
    on an instance it is routed to; a cleanup deletion. *)
Inductive cycle_call st discovered (c : recordCache) : Call → Prop :=
| cy_list inst : inst ∈ dir_All (rc_providers rc) →
    cycle_call st discovered c (CallList (pi_Name inst))
| cy_ensure k h inst call :
    discovered !! k = Some h → inst ∈ routedTo rc h → inst ∈ dir_All (rc_providers rc) →
    isDryRun rc = false → ensure_change rc h inst call → cycle_call st discovered c call
| cy_cleanup inst k r :
    cf_CleanupOrphans (rc_config rc) = true → inst ∈ dir_All (rc_providers rc) →
    orphan st discovered k → tripped st discovered = false → deletable rc c k inst r →
    cycle_call st discovered c (CallDelete (pi_Name inst) r).

Lemma cleanup_cycle_call st st' discovered c call :
  rs_knownHostnames st' = rs_knownHostnames st →
  cf_CleanupOrphans (rc_config rc) = true →
  cleanup_call rc st' discovered c call → cycle_call st discovered c call.
Proof.
  intros Hk Hc Hcall. destruct Hcall as [inst Hin|inst h r Hin Ho Ht Hd].
  - by apply cy_list.
  - eapply cy_cleanup; try done.
    + unfold orphan in *. by rewrite <- Hk.
    + unfold tripped, orphansOf in *. by rewrite <- Hk.
Qed.

(** The actions of a result are well-formed and carry its dry-run flag. *)
Definition result_ok (r : Result) : Prop :=
  Forall action_ok (res_Actions r) ∧ res_DryRun r = rc_dryRun rc.

Lemma AddAction_ok r a : result_ok r → action_ok a → result_ok (AddAction r a).
Proof.
  intros [Hr Hd] Ha. split; [|done]. simpl. apply Forall_app.
  split; [done|]. by apply Forall_singleton, set_DryRun_ok.
Qed.

Lemma AddActions_ok l r : result_ok r → Forall action_ok l → result_ok (fold_left AddAction l r).
Proof.
  intros Hr Hl. revert r Hr. induction Hl as [|a l Ha _ IH]; intros r Hr; [done|].
  simpl. by apply IH, AddAction_ok.
Qed.

Lemma trackActions_ok h l acc :
  result_ok acc.1 → Forall action_ok l → result_ok (fold_left (trackAction h) l acc).1.
Proof.
  intros Hr Hl. revert acc Hr. induction Hl as [|a l Ha _ IH]; intros [r m] Hr; [done|].
  simpl. apply IH. by apply AddAction_ok.
Qed.

Lemma ensures_ensureStep st discovered c acc entry :
  cache_wf c → entry ∈ range discovered → result_ok acc.1 →
  ensures (cycle_call st discovered c) (λ acc, result_ok acc.1) (ensureStep rc c acc entry).
Proof using Hwf.
  destruct entry as [k h]. intros Hc Hin%elem_of_range Hacc. unfold ensureStep.
  eapply ensures_bind.
  - apply (ensures_ensureRecord rc (cycle_call st discovered c)); [by intros ? [= <-]|].
    intros inst Hr. pose proof (routedTo_All rc h inst Hwf Hr) as Hall.
    split; [by apply cy_list|]. intros Hd. apply ensure_change_allows.
    intros call Hcall. by eapply cy_ensure.
  - intros l Hl. apply ensures_ret, trackActions_ok; [done|].
    eapply Forall_impl; [done|]. by intros a (? & ? & ?).
Qed.

Lemma triple_cleanup st discovered c :
  cf_CleanupOrphans (rc_config rc) = true →
  triple (λ l, rs_knownHostnames l = rs_knownHostnames st) (cycle_call st discovered c)
    (λ acts _, Forall action_ok acts) (cleanupOrphans rc discovered (Some c)).
Proof using Hwf.
  intros Hc s Hs. destruct (cleanupOrphans_sound rc discovered c Hwf s) as (tr & Htr & HP & HQ).
  exists tr. split_and!; [done| |].
  - eapply Forall_impl; [done|]. intros call. by apply cleanup_cycle_call.
  - intros acts Ha. eapply Forall_impl; [by apply HQ|].
    intros a (h & inst & _ & _ & ? & _). done.
Qed.

(** The part of a cycle after the cache is built. *)
Definition cycleBody discovered (result : Result) (cache : recordCache) : Effects.M W RState Result :=
  acc <- foldM (ensureStep rc cache) (result, ∅) (range discovered) ;;
  result <- (if cf_CleanupOrphans (rc_config rc) then
               orphanActions <- cleanupOrphans rc discovered (Some cache) ;;
               ret (fold_left AddAction orphanActions acc.1)
             else ret acc.1) ;;
  modify_local (commitState discovered acc.2) ;;;
  ret result.

Lemma triple_cycleBody st discovered result c :
  cache_wf c → result_ok result →
  triple (λ l, rs_knownHostnames l = rs_knownHostnames st) (cycle_call st discovered c)
    (λ r l, result_ok r ∧ rs_knownHostnames l = const tt <$> discovered)
    (cycleBody discovered result c).
Proof using Hwf.
  intros Hc Hr. unfold cycleBody.
  eapply triple_bind.
  { apply (triple_ensures _ _ _ (λ acc, result_ok acc.1)).
    - apply ensures_foldM; [done|]. intros. by apply ensures_ensureStep.
    - apply keepsp_foldM. intros acc e s. unfold ensureStep.
      pose proof (keepsp_bind kept _ (λ actions, ret (fold_left (trackAction e.2) actions acc))
        (keeps_ensureRecord rc e.2 (Some c)) ltac:(done) s) as Hk.
      unfold kept in Hk. by injection Hk. }
  intros acc. eapply triple_bind with (mid := λ r _, result_ok r).
  - destruct (cf_CleanupOrphans (rc_config rc)) eqn:Hco; [|apply triple_ret; by intros l [? _]].
    apply triple_pure. intros Hacc.
    apply (triple_bind _ _ (λ acts _, Forall action_ok acts)); [by apply triple_cleanup|].
    intros acts. apply triple_ret. intros l Hl. by apply AddActions_ok.
  - intros r. eapply triple_bind with (mid := λ _ l, result_ok r ∧ rs_knownHostnames l = const tt <$> discovered).
    + apply triple_modify. done.
    + intros _. by apply triple_ret.
Qed.

Lemma reconcileDiscovered_sound discovered result s :
  result_ok result →
  ∃ c answers w tr, answered (dir_All (rc_providers rc)) (st_world s) answers w ∧
    cache_shows c answers ∧
    st_calls (reconcileDiscovered rc discovered result s).2 = st_calls s ++ tr ∧
    Forall (cycle_call (st_local s) discovered c) tr ∧
    ∀ r, (reconcileDiscovered rc discovered result s).1 = Some r →
      result_ok r ∧
      rs_knownHostnames (st_local (reconcileDiscovered rc discovered result s).2)
      = const tt <$> discovered.
Proof using Hwf.
  intros Hr.
  change (reconcileDiscovered rc discovered result)
    with (bind (newRecordCache (dir_All (rc_providers rc))) (cycleBody discovered result)).
  destruct (cacheInstances_answers (dir_All (rc_providers rc)) (mkCache ∅) [] s)
    as (c & s' & answers & Hrun & Hl & Hcalls & Hans & Hshow).
  { intros p idx. unfold providerIndex. simpl. by rewrite lookup_empty. }
  assert (cache_wf c) as Hc.
  { eapply ensures_result; [|exact Hrun]. apply (newRecordCache_wf (λ _, True)). done. }
  destruct (triple_cycleBody (st_local s) discovered result c Hc Hr s') as (tr & Htr & HP & HQ).
  { by rewrite Hl. }
  rewrite !(bind_some _ _ _ _ _ Hrun).
  exists c, answers, (st_world s'), (map (λ inst, CallList (pi_Name inst)) (dir_All (rc_providers rc)) ++ tr).
  split_and!; [done|done| | |exact HQ].
  - by rewrite Htr, Hcalls, app_assoc.
  - apply Forall_app. split; [|done]. apply List.Forall_map, Forall_forall.
    intros inst Hin. by apply cy_list.
Qed.
End CycleFacts.

(** ** Properties of a cycle *)
Section ReconcileProperties.
Context `{RegexpEngine} `{MapOrder} {W R : Type} `{!ProviderDirectory W R}.
Context (rc : Reconciler W R).
Implicit Types (inst : ProviderInstance W) (st : RState) (discovered : gmap string Hostname).

Lemma listWorkloads_run l acc s :
  (∃ ws w, listed l (st_world s) ws w ∧
     listWorkloads (W:=W) l acc s = (Some (inl (acc ++ ws)), mkSt w (st_calls s) (st_local s))) ∨
  (∃ lister e w, listing_fails l (st_world s) lister e ∧
     listWorkloads (W:=W) l acc s
     = (Some (inr (EWrapf ("listing workloads from " ++s lst_Platform lister ++s ": ") e)),
        mkSt w (st_calls s) (st_local s))).
Proof.
  revert acc s. induction l as [|lister l IH]; intros acc s; cbn [listWorkloads].
  { left. exists [], (st_world s). rewrite app_nil_r. split; [constructor|by destruct s]. }
  unfold bind, with_world. destruct (lst_ListWorkloads lister (st_world s)) as [[ws|e] w1] eqn:E; simpl.
  - destruct (IH (acc ++ ws) (mkSt w1 (st_calls s) (st_local s)))
      as [(ws' & w2 & Hl & ->)|(failed & e & w2 & Hl & ->)]; [left|right].
    + exists (ws ++ ws'), w2. rewrite app_assoc. split; [by econstructor|done].
    + exists failed, e, w2. split; [by econstructor|done].
  - right. exists lister, e, w1. split; [by econstructor|done].
Qed.

Lemma discoverSteps_run l acc (s : St W RState) :
  ∃ hs w, files_found l (st_world s) hs w ∧
    foldM discoverStep acc l s = (Some (acc ++ hs), mkSt w (st_calls s) (st_local s)).
Proof.
  revert acc s. induction l as [|src l IH]; intros acc s; simpl.
  { exists [], (st_world s). rewrite app_nil_r. split; [constructor|by destruct s]. }
  unfold discoverStep at 1, bind. destruct (src_SupportsDiscovery src) eqn:Hd; simpl.
  - destruct (src_Discover src (st_world s)) as [[hs|e] w1] eqn:E; simpl.
    + destruct (IH (acc ++ hs) (mkSt w1 (st_calls s) (st_local s))) as (hs' & w2 & Hf & ->).
      exists (hs ++ hs'), w2. rewrite app_assoc. split; [by eapply ff_found|done].
    + destruct (IH acc (mkSt w1 (st_calls s) (st_local s))) as (hs' & w2 & Hf & ->).
      exists hs', w2. split; [by eapply ff_error|done].
  - destruct (IH acc s) as (hs' & w2 & Hf & ->). exists hs', w2. split; [by apply ff_other|done].
Qed.

(** The hostnames a cycle discovers. *)
Lemma extractHostnames_run ws s :
  ∃ files w ex, files_found (sr_sources (rc_sources rc)) (st_world s) files w ∧
    extractHostnames rc ws s = (Some ex, mkSt w (st_calls s) (st_local s)) ∧
    ∀ n, ex_discovered ex !! n = first_named n (claims (rc_sources rc) ws files).
Proof.
  destruct (discoverSteps_run (sr_sources (rc_sources rc)) [] s) as (files & w & Hf & Hrun).
  exists files, w. eexists. split; [done|]. split.
  { unfold extractHostnames, DiscoverAll. by rewrite (bind_some _ _ _ _ _ Hrun). }
  intros n. rewrite <- claims_app. unfold extractFiles.
  destruct (extractWorkloads_inv (rc_sources rc) ws) as [[Hn _ _] _].
  by rewrite (extractFile_first _ (add_invalid _ _) _ Hn).
Qed.

Lemma first_named_ok n hs h :
  first_named n hs = Some h → NormalizedName h = n ∧ h ∈ hs.
Proof.
  unfold first_named. intros [Hin Hn%String.eqb_eq]%List.find_some.
  split; [done|]. by apply list_elem_of_In.
Qed.

Lemma first_named_is_Some n hs :
  is_Some (first_named n hs) ↔ ∃ h, h ∈ hs ∧ NormalizedName h = n.
Proof.
  split; [intros [h [Hn Hh]%first_named_ok]; by exists h|]. intros (h & Hh & Hn).
  destruct (first_named n hs) eqn:E; [by eexists|]. unfold first_named in E.
  apply list_elem_of_In in Hh. apply (List.find_none _ _ E) in Hh.
  by rewrite Hn, String.eqb_refl in Hh.
Qed.

(** What a cycle reads: the workloads of all listers and the files of all
    sources; [hs] are the valid hostnames claimed. *)
Definition reads (w : W) (hs : list Hostname) (w' : W) : Prop :=
  ∃ ws w1 files, listed (rc_listers rc) w ws w1 ∧
    files_found (sr_sources (rc_sources rc)) w1 files w' ∧ hs = claims (rc_sources rc) ws files.

(** The three ways a cycle goes. *)
Lemma Reconcile_cases s :
  (rc_enabled rc = false ∧ Reconcile rc s = (Some (inl (NewResult (rc_dryRun rc))), s)) ∨
  (rc_enabled rc = true ∧ ∃ lister e w, listing_fails (rc_listers rc) (st_world s) lister e ∧
     Reconcile rc s
     = (Some (inr (EWrapf ("listing workloads from " ++s lst_Platform lister ++s ": ") e)),
        mkSt w (st_calls s) (st_local s))) ∨
  (rc_enabled rc = true ∧ ∃ hs w discovered result,
     reads (st_world s) hs w ∧ (∀ n, discovered !! n = first_named n hs) ∧ result_ok rc result ∧
     Reconcile rc s = bind (reconcileDiscovered rc discovered result) (λ r, ret (inl r))
                        (mkSt w (st_calls s) (st_local s))).
Proof.
  unfold Reconcile. destruct (rc_enabled rc); simpl; [right|by left].
  destruct (listWorkloads_run (rc_listers rc) [] s)
    as [(ws & w1 & Hl & Hrun)|(lister & e & w1 & Hl & Hrun)]; rewrite (bind_some _ _ _ _ _ Hrun).
  - right. split; [done|].
    destruct (extractHostnames_run ws (mkSt w1 (st_calls s) (st_local s)))
      as (files & w2 & ex & Hf & Hrun2 & Hex).
    simpl app. rewrite (bind_some _ _ _ _ _ Hrun2).
    exists (claims (rc_sources rc) ws files), w2, (ex_discovered ex). eexists.
    split_and!; [by exists ws, w1, files|done| |done]. split; [constructor|done].
  - left. split; [done|]. by exists lister, e, w1.
Qed.

Lemma Reconcile_calls s :
  dir_wf (rc_providers rc) →
  ∃ tr, st_calls (Reconcile rc s).2 = st_calls s ++ tr ∧
    (tr = [] ∨ ∃ hs w discovered answers w' c,
       rc_enabled rc = true ∧ reads (st_world s) hs w ∧ (∀ n, discovered !! n = first_named n hs) ∧
       answered (dir_All (rc_providers rc)) w answers w' ∧ cache_shows c answers ∧
       Forall (cycle_call rc (st_local s) discovered c) tr).
Proof.
  intros Hwf.
  destruct (Reconcile_cases s) as [[_ ->]|[(_ & l & e & w & _ & ->)|Hr]];
    [by exists []; rewrite app_nil_r; split; [|left]..|].
  destruct Hr as (Hen & hs & w & d & result & Hreads & Hd & Hres & ->).
  destruct (reconcileDiscovered_sound rc Hwf d result (mkSt w (st_calls s) (st_local s)) Hres)
    as (c & answers & w' & tr & Hans & Hc & Htr & HP & _).
  exists tr. split; [|right; by exists hs, w, d, answers, w', c].
  simpl in Htr. rewrite <- Htr. unfold bind. by destruct (reconcileDiscovered _ _ _ _) as [[r|] s2].
Qed.

(** *** What may be deleted, told from the listings of the cycle *)

(** The deletion of [r], for the hostname [k], on an instance. *)
Inductive may_delete (answers : list (string * (list DNSRecord + error))) (k : string) inst
    (r : DNSRecord) : Prop :=
| md_authoritative :
    rc_dryRun rc = false → pi_Mode inst ∉ [""; "managed"; "additive"] → r_Hostname r = k →
    r_Type r ≠ "TXT" →
    SupportsRecordType (prov_Capabilities (pi_Provider inst)) (r_Type r) = true →
    may_delete answers k inst r
| md_authoritative_marker :
    rc_dryRun rc = false → pi_Mode inst ∉ [""; "managed"; "additive"] →
    cf_OwnershipTracking (rc_config rc) = true → r = marker inst k → may_delete answers k inst r
| md_owned records m :
    rc_dryRun rc = false → pi_Mode inst ∈ [""; "managed"] →
    cf_OwnershipTracking (rc_config rc) = true →
    (pi_Name inst, inl records) ∈ answers → m ∈ records → r_Type m = "TXT" →
    NormalizeHostname (r_Hostname m) = NormalizeHostname ("_dnsweaver." ++s k) →
    marker_of (cf_InstanceID (rc_config rc)) (r_Target m) →
    (r_Hostname r = k ∧ r_Type r ∈ ["A"; "AAAA"; "CNAME"; "SRV"; "HTTPS"] ∨ r = marker inst k) →
    may_delete answers k inst r
| md_target :
    rc_dryRun rc = false → pi_Mode inst ∈ [""; "managed"] →
    cf_OwnershipTracking (rc_config rc) = true →
    SupportsOwnershipTXT (prov_Capabilities (pi_Provider inst)) = false →
    r_Hostname r = k → r_Type r = pi_RecordType inst → r_Target r = EffectiveTarget inst →
    may_delete answers k inst r
| md_untracked :
    pi_Mode inst ∈ [""; "managed"] → cf_OwnershipTracking (rc_config rc) = false →
    r_Hostname r = k → r_Type r ∈ ["A"; "AAAA"; "CNAME"; "SRV"; "HTTPS"] →
    may_delete answers k inst r.

Lemma modeOf_managed inst :
  RequiresOwnership (modeOf inst) = true ↔ pi_Mode inst ∈ [""; "managed"].
Proof.
  unfold modeOf, RequiresOwnership, ModeManaged. rewrite !elem_of_cons, elem_of_nil.
  destruct (String.eqb_spec (pi_Mode inst) "") as [->|]; [split; auto|].
  rewrite orb_true_iff, !String.eqb_eq. split; [intros [?|?]; auto|]. intros [?|[?|[]]]; auto.
Qed.

Lemma modeOf_authoritative inst :
  AllowsDelete (modeOf inst) = true → RequiresOwnership (modeOf inst) = false →
  pi_Mode inst ∉ [""; "managed"; "additive"].
Proof.
  unfold modeOf, RequiresOwnership, AllowsDelete, ModeManaged, ModeAdditive.
  rewrite !elem_of_cons, elem_of_nil.
  destruct (String.eqb_spec (pi_Mode inst) "") as [->|]; [done|].
  intros Ha [Hr%String.eqb_neq _]%orb_false_iff [?|[?|[Hm|[]]]]; [done..|]. by rewrite Hm in Ha.
Qed.

Lemma is_data_type_elem t : is_data_type t = true ↔ t ∈ ["A"; "AAAA"; "CNAME"; "SRV"; "HTTPS"].
Proof.
  unfold is_data_type. rewrite !orb_true_iff, !String.eqb_eq, !elem_of_cons, elem_of_nil.
  unfold RecordTypeA, RecordTypeAAAA, RecordTypeCNAME, RecordTypeSRV, RecordTypeHTTPS. tauto.
Qed.

Lemma deletable_may_delete c answers k inst r :
  cache_shows c answers → deletable rc c k inst r → may_delete answers k inst r.
Proof.
  intros Hc. destruct 1 as [? Ha Hr|? Ha Hr|? Hr%modeOf_managed ?? Ho Hrec|? Hr%modeOf_managed|Hr%modeOf_managed].
  - by apply md_authoritative; [|apply modeOf_authoritative| | |].
  - by apply md_authoritative_marker; [|apply modeOf_authoritative| |].
  - destruct (hasOwnershipRecord_shows _ _ _ _ _ Hc Ho) as (records & m & ? & ? & ? & ? & ?).
    apply (md_owned _ _ _ _ records m); try done. by rewrite <- is_data_type_elem.
  - by apply md_target.
  - apply md_untracked; try done. by apply is_data_type_elem.
Qed.

(** The known hostnames that nothing claims any more. *)
Definition vanished st (hs : list Hostname) (gone : list string) : Prop :=
  NoDup gone ∧ ∀ k, k ∈ gone ↔ is_Some (rs_knownHostnames st !! k) ∧
                                ¬ ∃ h, h ∈ hs ∧ NormalizedName h = k.

Lemma orphan_vanished st hs discovered k :
  (∀ n, discovered !! n = first_named n hs) →
  orphan st discovered k ↔
  is_Some (rs_knownHostnames st !! k) ∧ ¬ ∃ h, h ∈ hs ∧ NormalizedName h = k.
Proof. intros Hd. unfold orphan. by rewrite Hd, <- first_named_is_Some, eq_None_not_Some. Qed.

Lemma untripped_few st hs discovered gone :
  (∀ n, discovered !! n = first_named n hs) → tripped st discovered = false →
  vanished st hs gone → length gone ≤ 1 ∨ 2 * length gone ≤ size (rs_knownHostnames st).
Proof.
  intros Hd Ht [Hnd Hg].
  assert (length gone = length (orphansOf st discovered)) as ->.
  { apply Permutation_length, NoDup_Permutation; [done| |].
    - apply NoDup_filter_bool, NoDup_range_keys.
    - intros k. by rewrite Hg, elem_of_orphansOf, (orphan_vanished st hs discovered). }
  assert (length (orphansOf st discovered) ≤ size (rs_knownHostnames st)).
  { unfold orphansOf. etransitivity; [apply List.filter_length_le|].
    unfold range_keys. by rewrite length_map, length_range. }
  revert Ht. unfold tripped, circuitBreaker.
  destruct (Nat.ltb_spec 0 (size (rs_knownHostnames st))),
    (Nat.ltb_spec 0 (length (orphansOf st discovered))),
    (Nat.ltb_spec (size (rs_knownHostnames st)) (2 * length (orphansOf st discovered))),
    (Nat.ltb_spec 1 (length (orphansOf st discovered))); simpl; intros Ht; try done; lia.
Qed.

(** The calls a cycle may make, given the hostnames [hs] it read and the
    answers of the instances it listed. *)
Inductive justified st (hs : list Hostname) (answers : list (string * (list DNSRecord + error)))
  : Call → Prop :=
| just_list inst :
    inst ∈ dir_All (rc_providers rc) → justified st hs answers (CallList (pi_Name inst))
| just_ensure h inst call :
    rc_dryRun rc = false → first_named (NormalizedName h) hs = Some h →
    inst ∈ routedTo rc h → inst ∈ dir_All (rc_providers rc) → ensure_change rc h inst call →
    justified st hs answers call
| just_cleanup inst k r :
    cf_CleanupOrphans (rc_config rc) = true → inst ∈ dir_All (rc_providers rc) →
    is_Some (rs_knownHostnames st !! k) → (¬ ∃ h, h ∈ hs ∧ NormalizedName h = k) →
    (∀ gone, vanished st hs gone →
       length gone ≤ 1 ∨ 2 * length gone ≤ size (rs_knownHostnames st)) →
    may_delete answers k inst r → justified st hs answers (CallDelete (pi_Name inst) r).

Lemma cycle_call_justified st hs discovered c answers call :
  (∀ n, discovered !! n = first_named n hs) → cache_shows c answers →
  cycle_call rc st discovered c call → justified st hs answers call.
Proof.
  intros Hd Hc. destruct 1 as [inst Hin|k h inst call Hk Hr Hin Hdry He|inst k r Hco Hin Ho Ht Hdel].
  - by apply just_list.
  - rewrite Hd in Hk. destruct (first_named_ok _ _ _ Hk) as [<- _]. by eapply just_ensure.
  - apply (orphan_vanished st hs discovered k Hd) in Ho as [Hknown Hno].
    apply (just_cleanup _ _ _ _ k); [done..| |by eapply deletable_may_delete].
    intros gone. by apply (untripped_few st hs discovered).
Qed.

(** C1. A cycle changes DNS data only where it should.  Each provider call
    lists an instance; or, outside dry-run, ensures a hostname that the
    listers and sources gave in this cycle, where it is routed; or deletes,
    the breaker not tripped, a known name no longer given, where the mode or
    a marker listed in this cycle allows it. *)
Theorem Reconcile_calls_justified s :
  dir_wf (rc_providers rc) →
  ∃ tr, st_calls (Reconcile rc s).2 = st_calls s ++ tr ∧
    (tr = [] ∨ ∃ hs w answers w',
       rc_enabled rc = true ∧ reads (st_world s) hs w ∧
       answered (dir_All (rc_providers rc)) w answers w' ∧
       Forall (justified (st_local s) hs answers) tr).
Proof.
  intros Hwf. destruct (Reconcile_calls s Hwf) as (tr & Htr & Hcase). exists tr. split; [done|].
  destruct Hcase as [->|(hs & w & d & answers & w' & c & Hen & Hr & Hd & Hans & Hc & HP)]; [by left|].
  right. exists hs, w, answers, w'. split_and!; [done..|].
  eapply Forall_impl; [done|]. intros call. by apply cycle_call_justified.
Qed.

(** C5. The outcomes of a cycle.  A disabled reconciler does nothing; when a
    lister fails the cycle ends with its error, no provider is called and
    the state is kept; a cycle that completes leaves as known hostnames
    exactly the normal forms of the valid hostnames that the listers and
    sources gave in this cycle. *)
Theorem Reconcile_outcomes s :
  dir_wf (rc_providers rc) →
  (rc_enabled rc = false → Reconcile rc s = (Some (inl (NewResult (rc_dryRun rc))), s)) ∧
  (rc_enabled rc = true →
     (∃ lister e, listing_fails (rc_listers rc) (st_world s) lister e ∧
        (Reconcile rc s).1
        = Some (inr (EWrapf ("listing workloads from " ++s lst_Platform lister ++s ": ") e)) ∧
        st_calls (Reconcile rc s).2 = st_calls s ∧ st_local (Reconcile rc s).2 = st_local s) ∨
     (∃ hs w, reads (st_world s) hs w ∧
        (∀ err, (Reconcile rc s).1 ≠ Some (inr err)) ∧
        ∀ r, (Reconcile rc s).1 = Some (inl r) →
          ∀ k, is_Some (rs_knownHostnames (st_local (Reconcile rc s).2) !! k) ↔
               ∃ h, h ∈ hs ∧ NormalizedName h = k)).
Proof.
  intros Hwf. destruct (Reconcile_cases s) as [[Hen ->]|[(Hen & l & e & w & Hl & ->)|Hr]].
  - split; [done|]. by rewrite Hen.
  - split; [by rewrite Hen|]. intros _. left. by exists l, e.
  - destruct Hr as (Hen & hs & w & d & result & Hreads & Hd & Hres & ->).
    split; [by rewrite Hen|]. intros _. right. exists hs, w. split; [done|].
    destruct (reconcileDiscovered_sound rc Hwf d result (mkSt w (st_calls s) (st_local s)) Hres)
      as (c & answers & w' & tr & _ & _ & _ & _ & HQ).
    unfold bind. destruct (reconcileDiscovered _ _ _ _) as [[r|] s2]; simpl in *; [|done].
    split; [done|]. intros r' [= <-] k. destruct (HQ r eq_refl) as [_ ->].
    by rewrite lookup_fmap, fmap_is_Some, Hd, first_named_is_Some.
Qed.

(** The counts of a cycle add up: its actions are split by the
    created, updated, deleted, failed and skipped counters with none
    counted twice or missed, and each carries the cycle's dry-run flag. *)
Theorem Reconcile_counts s r :
  dir_wf (rc_providers rc) → (Reconcile rc s).1 = Some (inl r) →
  CreatedCount r + UpdatedCount r + DeletedCount r + FailedCount r + length (Skipped r)
  = length (res_Actions r) ∧ res_DryRun r = rc_dryRun rc.
Proof.
  intros Hwf Hres. assert (result_ok rc r) as [Hr Hd]; [|by split; [apply counts_partition|]].
  revert Hres. destruct (Reconcile_cases s) as [[_ ->]|[(_ & l & e & w & _ & ->)|Hr]]; [|done|].
  - intros [= <-]. split; [constructor|done].
  - destruct Hr as (_ & hs & w & d & result & _ & _ & Hres & ->).
    destruct (reconcileDiscovered_sound rc Hwf d result (mkSt w (st_calls s) (st_local s)) Hres)
      as (c & answers & w' & tr & _ & _ & _ & _ & HQ).
    unfold bind. destruct (reconcileDiscovered _ _ _ _) as [[r0|] s2]; simpl in *; [|done].
    intros [= <-]. by apply HQ.
Qed.

(** Only dry-run without ownership tracking can reach a deletion. *)
Lemma deletable_dry_run c h inst r :
  isDryRun rc = true → deletable rc c h inst r →
  RequiresOwnership (modeOf inst) = true ∧ cf_OwnershipTracking (rc_config rc) = false.
Proof. intros Hd. destruct 1; try congruence. done. Qed.

Lemma ensures_ensureRecord_dry h cache P :
  isDryRun rc = true → (∀ inst, P (CallList (pi_Name inst))) →
  (∀ c, cache = Some c → cache_wf c) →
  ensures P (Forall (ensure_action h)) (ensureRecord rc h cache).
Proof.
  intros Hd HL Hc. apply ensures_ensureRecord; [done|]. intros inst _. split; [apply HL|].
  by rewrite Hd.
Qed.

(** The record [DeleteRecord] asks to delete. *)
Definition ownRecord inst (h : string) : DNSRecord :=
  mkRecord h (pi_RecordType inst) (EffectiveTarget inst) 0 "" None None ∅.

Lemma ensures_deleteRecord (P : Call → Prop) h :
  (∀ inst, inst ∈ dir_MatchingProviders (rc_providers rc) h → isDryRun rc = false →
     P (CallDelete (pi_Name inst) (ownRecord inst h)) ∧
     (cf_OwnershipTracking (rc_config rc) = true → P (CallDelete (pi_Name inst) (marker inst h)))) →
  ensures P (λ _, True) (deleteRecord rc h).
Proof.
  intros HP. apply ensures_foldM; [done|]. intros acc inst Hin _. unfold deleteRecordStep.
  destruct (isDryRun rc) eqn:Hd; [by apply ensures_ret|].
  destruct (HP inst Hin eq_refl) as [HD HM].
  eapply (ensures_bind _ (λ _, True)); [by apply ensures_prov_delete|].
  intros [e|] _; [by apply ensures_ret|].
  eapply (ensures_bind _ (λ _, True)); [|intros; by apply ensures_ret].
  destruct (cf_OwnershipTracking _); [|by apply ensures_ret].
  eapply (ensures_bind _ (λ _, True)); [|intros; by apply ensures_ret].
  by apply ensures_prov_delete, HM.
Qed.

Lemma keeps_deleteRecord h : keeps_local (deleteRecord rc h).
Proof.
  unfold deleteRecord. apply keeps_foldM. intros acc inst. unfold deleteRecordStep.
  destruct (isDryRun rc); [done|]. apply keeps_bind; [done|]. intros [e|]; [done|].
  apply keeps_bind; [|done]. by destruct (cf_OwnershipTracking _).
Qed.

(** An operation followed by one write of the state. *)
Lemma triple_then_modify {A B} (m : Effects.M W RState A) (g : RState → RState) (k : A → B)
    (P : Call → Prop) (Q : A → Prop) known' s :
  ensures P Q m → keeps rs_knownHostnames m →
  (∀ l, rs_knownHostnames l = rs_knownHostnames (st_local s) → rs_knownHostnames (g l) = known') →
  let prog := bind m (λ a, bind (modify_local g) (λ _, ret (k a))) in
  ∃ tr, st_calls (prog s).2 = st_calls s ++ tr ∧ Forall P tr ∧
    ∀ r, (prog s).1 = Some r → rs_knownHostnames (st_local (prog s).2) = known'.
Proof.
  intros Hm Hk Hg prog.
  apply (triple_bind (λ l, rs_knownHostnames l = rs_knownHostnames (st_local s)) _
           (λ a l, Q a ∧ rs_knownHostnames l = rs_knownHostnames (st_local s))
           (λ _ l, rs_knownHostnames l = known')); [by apply triple_ensures| |done].
  intros a. apply triple_pure. intros _.
  apply (triple_bind _ _ (λ _ l, rs_knownHostnames l = known'));
    [by apply triple_modify|intros []; by apply triple_ret].
Qed.

(** C2. Dry-run never writes: in dry-run mode no operation creates, updates
    or deletes a record at any provider, provided cleanup is off, or
    ownership tracking is on, or no instance is in managed mode (see
    [cache_only_ignores_dry_run] for the remaining case). *)
Theorem dry_run_never_writes s h :
  dir_wf (rc_providers rc) → rc_dryRun rc = true →
  cf_CleanupOrphans (rc_config rc) = false ∨ cf_OwnershipTracking (rc_config rc) = true ∨
    (∀ inst, inst ∈ dir_All (rc_providers rc) → RequiresOwnership (modeOf inst) = false) →
  (∃ tr, st_calls (Reconcile rc s).2 = st_calls s ++ tr ∧ Forall (λ c, mutating c = false) tr) ∧
  (∃ tr, st_calls (ReconcileHostname rc h s).2 = st_calls s ++ tr ∧
         Forall (λ c, mutating c = false) tr) ∧
  st_calls (RemoveHostname rc h s).2 = st_calls s.
Proof.
  intros Hwf Hd Hsafe. split_and!.
  - destruct (Reconcile_calls s Hwf) as (tr & Htr & Hcase). exists tr. split; [done|].
    destruct Hcase as [->|(hs & w & d & answers & w' & c & _ & _ & _ & _ & _ & HP)]; [done|].
    eapply Forall_impl; [done|]. intros call Hc.
    destruct Hc as [| ? ? ? ? _ _ _ Hnd _|inst k r Hco Hin _ _ Hdel]; [done| |].
    + unfold isDryRun in Hnd. congruence.
    + apply deletable_dry_run in Hdel as [Hro Ht]; [|done].
      destruct Hsafe as [?|[?|Hm]]; [congruence..|]. rewrite Hm in Hro by done. done.
  - assert (ensures (λ c, mutating c = false) (λ _, True) (ReconcileHostname rc h)) as He.
    { unfold ReconcileHostname. destruct (negb _); [by apply ensures_ret|].
      eapply ensures_bind; [by apply ensures_ensureRecord_dry|]. intros acts _.
      eapply (ensures_bind _ (λ _, True)); [by apply ensures_modify|].
      intros. by apply ensures_ret. }
    by eapply ensures_run.
  - assert (ensures (λ _, False) (λ _, True) (RemoveHostname rc h)) as He.
    { unfold RemoveHostname. destruct (negb _); [by apply ensures_ret|].
      eapply (ensures_bind _ (λ _, True)).
      - apply ensures_deleteRecord. intros inst _ Hnd. unfold isDryRun in Hnd. congruence.
      - intros acts _. eapply (ensures_bind _ (λ _, True)); [by apply ensures_modify|].
        intros. by apply ensures_ret. }
    destruct (ensures_run _ _ _ s He) as (tr & -> & Htr).
    destruct Htr as [|? ? []]. by rewrite app_nil_r.
Qed.

(** [ReconcileHostname] only lists, or changes what ensuring the hostname
    allows, on the instances it is routed to, and adds the normal form of
    the name to the known hostnames. *)
Theorem ReconcileHostname_spec s h :
  rc_enabled rc = true →
  ∃ tr, st_calls (ReconcileHostname rc h s).2 = st_calls s ++ tr ∧
    Forall (λ c, ∃ inst, inst ∈ routedTo rc (api_hostname h) ∧
      (c = CallList (pi_Name inst) ∨
       isDryRun rc = false ∧ ensure_change rc (api_hostname h) inst c)) tr ∧
    ∀ r, (ReconcileHostname rc h s).1 = Some r →
      rs_knownHostnames (st_local (ReconcileHostname rc h s).2)
      = <[NormalizeHostname h := tt]> (rs_knownHostnames (st_local s)).
Proof.
  intros Hen. unfold ReconcileHostname. rewrite Hen. cbn [negb].
  apply (triple_then_modify _ _ _ _ (Forall (ensure_action (api_hostname h)))).
  - apply ensures_ensureRecord; [done|]. intros inst Hin. split; [exists inst; auto|].
    intros Hd. apply ensure_change_allows. intros call Hcall. exists inst. auto.
  - intros s0. pose proof (keeps_ensureRecord rc (api_hostname h) None s0) as Hk.
    unfold kept in Hk. by injection Hk.
  - intros l Hl. simpl. by rewrite Hl.
Qed.

(** [RemoveHostname] only deletes, outside dry-run and on the instances
    whose patterns match the name, the instance's own record of the name
    and, with ownership tracking, its ownership marker; and it forgets the
    name. *)
Theorem RemoveHostname_spec s h :
  rc_enabled rc = true →
  let n := NormalizeHostname h in
  ∃ tr, st_calls (RemoveHostname rc h s).2 = st_calls s ++ tr ∧
    Forall (λ c, isDryRun rc = false ∧ ∃ inst, inst ∈ dir_All (rc_providers rc) ∧
      pi_Matches inst n = true ∧
      (c = CallDelete (pi_Name inst) (ownRecord inst n) ∨
       cf_OwnershipTracking (rc_config rc) = true ∧ c = CallDelete (pi_Name inst) (marker inst n))) tr ∧
    ∀ r, (RemoveHostname rc h s).1 = Some r →
      rs_knownHostnames (st_local (RemoveHostname rc h s).2)
      = delete n (rs_knownHostnames (st_local s)).
Proof.
  intros Hen. unfold RemoveHostname. rewrite Hen. cbn [negb].
  apply (triple_then_modify _ _ _ _ (λ _, True)).
  - apply ensures_deleteRecord. intros inst Hin Hd.
    rewrite dir_Matching_eq in Hin. apply elem_of_list_filter in Hin as [Hin Hm].
    split; [|intros Ht]; (split; [done|]); exists inst; auto.
  - apply keeps_of_local, keeps_deleteRecord.
  - intros l Hl. simpl. by rewrite Hl.
Qed.

(** *** Completion *)

Lemma returns_deleteOne h inst r : returns (L:=RState) (deleteOne h inst r).
Proof. unfold deleteOne. destruct (_ == _); apply returns_call. Qed.
#[local] Hint Resolve returns_deleteOne : returns_db.

Lemma returns_orphanRecords keep h inst c : returns (orphanRecords keep h inst (Some c)).
Proof.
  unfold orphanRecords. destruct (negb _); [apply returns_ret|].
  apply returns_bind; [apply returns_call|intros; apply returns_ret].
Qed.
#[local] Hint Resolve returns_orphanRecords : returns_db.

Lemma returns_deleteOrphanForProvider h inst c :
  returns (deleteOrphanForProvider rc h inst (Some c)).
Proof.
  assert (returns (L:=RState) (DeleteOwnershipRecord inst h)) as Hdel by apply returns_call.
  assert (∀ a b c, returns (L:=RState) (DeleteRecordByTarget inst a b c)) as Htgt.
  { intros. apply returns_call. }
  unfold deleteOrphanForProvider.
  destruct (negb _); [apply returns_ret|]. destruct (negb _).
  { unfold deleteAuthoritativeForProvider, authoritativeStep. returns_go. }
  destruct (cf_OwnershipTracking _); [destruct (SupportsOwnershipTXT _)|].
  - unfold deleteManagedForProvider, checkOwnership, managedStep. returns_go.
  - unfold deleteTargetMatchForProvider, targetMatchStep. returns_go.
  - unfold deleteCacheOnlyForProvider, cacheOnlyStep. returns_go.
Qed.

Lemma returns_cleanupOrphans current c : returns (cleanupOrphans rc current (Some c)).
Proof.
  unfold cleanupOrphans. apply returns_bind; [apply returns_get|]. intros st.
  destruct (circuitBreaker _ _); [apply returns_ret|]. apply returns_foldM. intros acc h _.
  unfold cleanupOrphan. apply returns_bind; [apply returns_get|]. intros st'.
  apply returns_foldM. intros acc' inst _.
  apply returns_bind; [apply returns_deleteOrphanForProvider|intros; apply returns_ret].
Qed.

Lemma newRecordCache_srv_ok (l : list (ProviderInstance W)) :
  (∀ inst, inst ∈ l → lists_srv_data inst) →
  ensures (L:=RState) (λ _, True) cache_srv_ok (newRecordCache l).
Proof.
  intros Hl. apply ensures_foldM.
  { intros p h. unfold getExistingRecords, providerIndex. simpl. rewrite lookup_empty. constructor. }
  intros c inst Hin Hc. unfold cacheInstance.
  apply (ensures_bind _ (λ res, match res with inl l => Forall srv_ok l | inr _ => True end)).
  - apply ensures_call_post; [done|]. intros w.
    destruct (prov_List (pi_Provider inst) w).1 eqn:E; [by eapply Hl|done].
  - intros res Hres. apply ensures_ret. intros p h. specialize (Hc p h).
    unfold getExistingRecords, providerIndex in *. simpl.
    destruct (decide (pi_Name inst = p)) as [<-|]; [rewrite lookup_insert_eq|by rewrite lookup_insert_ne].
    destruct res as [records|e]; [|constructor]. simpl.
    apply Forall_filter_mono. rewrite indexRecords_lookup. by apply Forall_filter_mono.
Qed.

(** C6. A cycle completes: as long as the providers give SRV data with every
    SRV record they list, [Reconcile] returns, with a result or with a
    listing error, whatever errors the providers answer. *)
Theorem Reconcile_returns s :
  dir_wf (rc_providers rc) →
  (∀ inst, inst ∈ dir_All (rc_providers rc) → lists_srv_data inst) →
  is_Some (Reconcile rc s).1.
Proof.
  intros Hwf Hsrv.
  destruct (Reconcile_cases s) as [[_ ->]|[(_ & l & e & w & _ & ->)|Hr]]; [by eexists..|].
  destruct Hr as (_ & hs & w & d & result & _ & _ & _ & ->). generalize (mkSt w (st_calls s) (st_local s)).
  apply returns_bind; [|intros; apply returns_ret]. unfold reconcileDiscovered.
  apply (returns_bind_post (λ _, True) cache_srv_ok).
  { by apply newRecordCache_srv_ok. }
  { apply returns_foldM. intros. apply returns_bind; [apply returns_call|intros; apply returns_ret]. }
  intros c Hc. apply returns_bind.
  - apply returns_foldM. intros acc e _. apply returns_bind; [|intros; apply returns_ret].
    apply returns_ensureRecord; [done|by intros ? [= <-]|done].
  - intros acc. apply returns_bind.
    + destruct (cf_CleanupOrphans _); [|apply returns_ret].
      apply returns_bind; [apply returns_cleanupOrphans|intros; apply returns_ret].
    + intros r. apply returns_bind; [apply returns_modify|intros; apply returns_ret].
Qed.

(** *** What a cycle forgets *)

(** A tripped circuit breaker forgets: when cleanup is skipped because
    too many hostnames vanished at once, nothing is deleted for them in
    that cycle, and the cycle also drops all of them from the known
    hostnames, so no later cycle takes them for orphans. *)
Theorem tripped_breaker_forgets discovered result s r :
  dir_wf (rc_providers rc) → result_ok rc result →
  tripped (st_local s) discovered = true →
  (reconcileDiscovered rc discovered result s).1 = Some r →
  (∃ tr, st_calls (reconcileDiscovered rc discovered result s).2 = st_calls s ++ tr ∧
     Forall (λ call, (∃ inst, call = CallList (pi_Name inst)) ∨
       ∃ k h inst, discovered !! k = Some h ∧ inst ∈ routedTo rc h ∧ ensure_change rc h inst call) tr) ∧
  ∀ h, orphan (st_local s) discovered h →
    rs_knownHostnames (st_local (reconcileDiscovered rc discovered result s).2) !! h = None.
Proof.
  intros Hwf Hok Ht Hres.
  destruct (reconcileDiscovered_sound rc Hwf discovered result s Hok)
    as (c & answers & w & tr & _ & _ & Htr & HP & HQ).
  destruct (HQ r Hres) as [_ Hk]. rewrite Hk. split.
  - exists tr. split; [done|]. eapply Forall_impl; [done|]. intros call Hc.
    destruct Hc as [inst|k h inst call Hd Hr _ _ He|]; [left; by exists inst| |congruence].
    right. by exists k, h, inst.
  - intros h [_ Hn]. by rewrite lookup_fmap, Hn.
Qed.

Definition all_skips (r : Result) : Prop := Forall (λ a, a_Type a = ActionSkip) (res_Actions r).

(** The mapping is empty as long as only skips were recorded. *)
Definition mapping_inv (acc : Result * gmap string (list string)) : Prop :=
  all_skips acc.1 → acc.2 = ∅.

Lemma trackAction_mapping h acc a : mapping_inv acc → mapping_inv (trackAction h acc a).
Proof.
  destruct acc as [r m]. unfold mapping_inv, all_skips. simpl. intros Hm.
  rewrite Forall_app, Forall_singleton. simpl. intros [Hr Ha].
  rewrite Ha, bool_decide_eq_true_2, andb_false_r by done. auto.
Qed.

Lemma AddActions_actions l r :
  ∃ l', res_Actions (fold_left AddAction l r) = res_Actions r ++ l'.
Proof.
  revert r. induction l as [|a l IH]; intros r; simpl; [exists []; by rewrite app_nil_r|].
  destruct (IH (AddAction r a)) as [l' ->]. simpl. rewrite <- app_assoc. by eexists.
Qed.

Lemma ensures_mapping discovered result c :
  cache_wf c →
  ensures (λ _, True) mapping_inv (foldM (ensureStep rc c) (result, ∅) (range discovered)).
Proof.
  intros Hc. apply ensures_foldM; [done|]. intros acc e _ Hacc. unfold ensureStep.
  eapply (ensures_bind _ (Forall (ensure_action e.2))).
  - apply ensures_ensureRecord; [by intros ? [= <-]|]. intros inst _. split; [done|].
    intros _. by apply ensure_change_allows.
  - intros l _. apply ensures_ret. revert acc Hacc.
    induction l as [|a l IH]; intros acc Hacc; simpl; [done|]. by apply IH, trackAction_mapping.
Qed.

(** A cycle in which everything is in sync loses the provider mapping:
    when every action of a completed cycle is a skip, as when all records
    already exist, no hostname is mapped to a provider afterwards, although
    the mapping is what lets the next cleanup find the right provider. *)
Theorem in_sync_cycle_drops_mapping discovered result s r :
  dir_wf (rc_providers rc) →
  (reconcileDiscovered rc discovered result s).1 = Some r → all_skips r →
  rs_hostnameProviders (st_local (reconcileDiscovered rc discovered result s).2) = ∅.
Proof.
  intros Hwf Hres Hs. revert Hres.
  assert (triple (λ _, True) (λ _, True) (λ r st, all_skips r → rs_hostnameProviders st = ∅)
            (reconcileDiscovered rc discovered result)) as Ht.
  { unfold reconcileDiscovered. apply (triple_bind _ _ (λ c _, True ∧ cache_wf c)).
    { apply triple_of_ensures. intros _. by apply newRecordCache_wf. }
    intros c. apply (triple_bind _ _ (λ acc _, (True ∧ cache_wf c) ∧ mapping_inv acc)).
    { apply triple_of_ensures. intros [_ Hc]. by apply ensures_mapping. }
    intros acc. apply (triple_bind _ _ (λ r _, all_skips r → acc.2 = ∅)).
    { destruct (cf_CleanupOrphans _); [|by apply triple_ret; intros _ [_ ?]].
      apply (triple_bind _ _ (λ _ _, mapping_inv acc)).
      - intros s0 [_ Hm].
        destruct (cleanupOrphans_sound rc discovered c Hwf s0) as (tr & ? & ? & _).
        exists tr. split_and!; [done|by eapply Forall_impl|done].
      - intros acts. apply triple_ret. intros _ Hm Hall. apply Hm.
        destruct (AddActions_actions acts acc.1) as [l' Hl']. unfold all_skips in *.
        rewrite Hl' in Hall. by apply Forall_app in Hall as [? _]. }
    intros r'. apply (triple_bind _ _ (λ _ st, all_skips r' → rs_hostnameProviders st = ∅)).
    - apply triple_modify. intros l Hl. exact Hl.
    - intros _. by apply triple_ret. }
  intros Hres. destruct (Ht s I) as (_ & _ & _ & HQ). by apply (HQ r).
Qed.
End ReconcileProperties.

(** ** Recovery at start-up *)
Section RecoveryFacts.
Context `{RegexpEngine} `{MapOrder} {W R : Type} `{!ProviderDirectory W R}.
Context (rc : Reconciler W R).
(** What each instance lists during the recovery. *)
Context (answer : ProviderInstance W → list DNSRecord + error).
Context (Hanswer : ∀ inst, inst ∈ dir_All (rc_providers rc) →
           ∀ w, (prov_List (pi_Provider inst) w).1 = answer inst).
Implicit Types (inst : ProviderInstance W).

Definition recovered_on inst : list RecoveredHostname :=
  match answer inst with
  | inl records => omap (recoverRecord (pi_InstanceID inst)) records
  | inr _ => []
  end.
Definition failing inst : bool := match answer inst with inl _ => false | inr _ => true end.

(** The effect of recovery as a function. *)
Definition recoverStep (acc : RState * gmap string (gmap string string)) inst :=
  fold_left (recoverHostname (pi_Name inst)) (recovered_on inst) acc.

Lemma recoverProvider_run meta failed inst s :
  inst ∈ dir_All (rc_providers rc) →
  ∃ s', recoverProvider (meta, failed) inst s
    = (Some ((recoverStep (st_local s, meta) inst).2,
             if failing inst then failed ++ [pi_Name inst] else failed), s') ∧
    st_local s' = (recoverStep (st_local s, meta) inst).1 ∧
    st_calls s' = st_calls s ++ [CallList (pi_Name inst)].
Proof using Hanswer.
  intros Hin. unfold recoverProvider, RecoverOwnedHostnames, recoverStep, recovered_on, failing.
  pose proof (Hanswer inst Hin (st_world s)) as Ha.
  unfold bind, prov_list, call. simpl. rewrite Ha.
  destruct (answer inst) as [records|e]; simpl; [|by eexists].
  destruct (fold_left _ _ _) as [st' meta']. by eexists.
Qed.

Lemma recoverProviders_run l meta failed s :
  (∀ inst, inst ∈ l → inst ∈ dir_All (rc_providers rc)) →
  ∃ s', foldM recoverProvider (meta, failed) l s
    = (Some ((fold_left recoverStep l (st_local s, meta)).2,
             failed ++ map pi_Name (List.filter failing l)), s') ∧
    st_local s' = (fold_left recoverStep l (st_local s, meta)).1 ∧
    st_calls s' = st_calls s ++ map (λ inst, CallList (pi_Name inst)) l.
Proof using Hanswer.
  revert meta failed s. induction l as [|inst l IH]; intros meta failed s Hl; simpl.
  { eexists. split_and!; [by rewrite app_nil_r|done|by rewrite app_nil_r]. }
  destruct (recoverProvider_run meta failed inst s) as (s1 & E1 & Hs1 & Hc1);
    [apply Hl; by left|].
  rewrite (bind_some _ _ _ _ _ E1).
  destruct (IH (recoverStep (st_local s, meta) inst).2
              (if failing inst then failed ++ [pi_Name inst] else failed) s1) as (s2 & E2 & Hs2 & Hc2).
  { intros i Hi. apply Hl. by right. }
  exists s2. rewrite E2, Hs2, Hc2, Hs1, Hc1. rewrite <- surjective_pairing.
  split_and!; [|done|by rewrite <- app_assoc].
  destruct (failing inst); simpl; by rewrite <- ?app_assoc.
Qed.

(** What the hostnames [rhs] of provider [prov] add. *)
Lemma recoverHostname_fold prov rhs st meta :
  let acc := fold_left (recoverHostname prov) rhs (st, meta) in
  (∀ h, is_Some (rs_knownHostnames acc.1 !! h) ↔
     is_Some (rs_knownHostnames st !! h) ∨ ∃ rh, rh ∈ rhs ∧ NormalizeHostname (rh_Hostname rh) = h) ∧
  (∀ h p, p ∈ default [] (rs_hostnameProviders acc.1 !! h) ↔
     p ∈ default [] (rs_hostnameProviders st !! h) ∨
     p = prov ∧ ∃ rh, rh ∈ rhs ∧ NormalizeHostname (rh_Hostname rh) = h).
Proof.
  revert st meta. induction rhs as [|rh rhs IH]; intros st meta; simpl.
  { split; intros; (split; [by left|]).
    - intros [?|(rh & Hrh & _)]; [done|by apply not_elem_of_nil in Hrh].
    - intros [?|(_ & rh & Hrh & _)]; [done|by apply not_elem_of_nil in Hrh]. }
  destruct (IH (mkRState (<[NormalizeHostname (rh_Hostname rh) := tt]> (rs_knownHostnames st))
     (<[NormalizeHostname (rh_Hostname rh) :=
          appendUnique (default [] (rs_hostnameProviders st !! NormalizeHostname (rh_Hostname rh))) prov]>
        (rs_hostnameProviders st)) (rs_recoveredMetadata st))
    (match rh_Metadata rh with
     | Some m => if (0 <? size m)%nat then <[NormalizeHostname (rh_Hostname rh) := m]> meta else meta
     | None => meta end)) as [IH1 IH2].
  split.
  - intros h. rewrite IH1. simpl. setoid_rewrite elem_of_cons.
    destruct (decide (NormalizeHostname (rh_Hostname rh) = h)) as [<-|Hne].
    + rewrite lookup_insert_eq. split; [|by left; eexists]. intros _. right. eauto.
    + rewrite lookup_insert_ne by done. naive_solver.
  - intros h p. rewrite IH2. simpl. setoid_rewrite elem_of_cons.
    destruct (decide (NormalizeHostname (rh_Hostname rh) = h)) as [<-|Hne].
    + rewrite lookup_insert_eq. simpl. rewrite elem_of_appendUnique. naive_solver.
    + rewrite lookup_insert_ne by done. naive_solver.
Qed.

(** The names recovered on an instance: [n] is recovered when the instance
    lists a TXT record [_dnsweaver.n] that holds its marker. *)
Definition recovered_name inst (h : string) : Prop :=
  ∃ records r n, answer inst = inl records ∧ r ∈ records ∧ r_Type r = "TXT" ∧
    r_Hostname r = "_dnsweaver." ++s n ∧ n ≠ "" ∧ marker_of (pi_InstanceID inst) (r_Target r) ∧
    NormalizeHostname n = h.

Lemma recovered_name_on inst h :
  (∃ rh, rh ∈ recovered_on inst ∧ NormalizeHostname (rh_Hostname rh) = h) ↔ recovered_name inst h.
Proof.
  unfold recovered_on, recovered_name. destruct (answer inst) as [records|e].
  - setoid_rewrite list_elem_of_omap. split.
    + intros (rh & (r & Hr & Hrh) & Hn).
      destruct (proj1 (recoverRecord_spec (pi_InstanceID inst) r (rh_Hostname rh)))
        as (? & ? & ? & ?); [by exists rh|]. by exists records, r, (rh_Hostname rh).
    + intros (l & r & n & [= <-] & Hr & Ht & Hh & Hn & Hm & <-).
      destruct (proj2 (recoverRecord_spec (pi_InstanceID inst) r n)) as (rh & Hrh & <-); [done|].
      exists rh. split; [by exists r|done].
  - split; [intros (rh & Hrh & _); by apply not_elem_of_nil in Hrh|by intros (? & ? & ? & ? & _)].
Qed.

Lemma recoverStep_fold l st meta :
  let acc := fold_left recoverStep l (st, meta) in
  (∀ h, is_Some (rs_knownHostnames acc.1 !! h) ↔
     is_Some (rs_knownHostnames st !! h) ∨ ∃ inst, inst ∈ l ∧ recovered_name inst h) ∧
  (∀ h p, p ∈ default [] (rs_hostnameProviders acc.1 !! h) ↔
     p ∈ default [] (rs_hostnameProviders st !! h) ∨
     ∃ inst, inst ∈ l ∧ p = pi_Name inst ∧ recovered_name inst h).
Proof.
  revert st meta. induction l as [|inst l IH]; intros st meta; simpl.
  { split; intros; (split; [by left|]).
    - intros [?|(rh & Hrh & _)]; [done|by apply not_elem_of_nil in Hrh].
    - intros [?|(rh & Hrh & _)]; [done|by apply not_elem_of_nil in Hrh]. }
  destruct (recoverHostname_fold (pi_Name inst) (recovered_on inst) st meta) as [H1 H2].
  unfold recoverStep at 2 4. destruct (fold_left _ (recovered_on inst) _) as [st' meta'].
  destruct (IH st' meta') as [IH1 IH2]. simpl in *.
  setoid_rewrite elem_of_cons. split.
  - intros h. rewrite IH1, H1, recovered_name_on. naive_solver.
  - intros h p. rewrite IH2, H2, recovered_name_on. naive_solver.
Qed.

(** C36. Recovery at start-up, with cleanup and ownership tracking on and
    answers that do not change meanwhile: every instance is listed once, in
    order, and nothing else is called; known afterwards are the hostnames
    known before and the [n] of the listed TXT records [_dnsweaver.n] that
    hold a marker of the instance; each is mapped to the providers it was
    found on; an error is returned exactly when some listing failed. *)
Theorem RecoverOwnership_spec s :
  cf_CleanupOrphans (rc_config rc) = true → cf_OwnershipTracking (rc_config rc) = true →
  ∃ res s', RecoverOwnership rc s = (Some res, s') ∧
    st_calls s' = st_calls s ++ map (λ inst, CallList (pi_Name inst)) (dir_All (rc_providers rc)) ∧
    (∀ h, is_Some (rs_knownHostnames (st_local s') !! h) ↔
       is_Some (rs_knownHostnames (st_local s) !! h) ∨
       ∃ inst, inst ∈ dir_All (rc_providers rc) ∧ recovered_name inst h) ∧
    (∀ h p, p ∈ default [] (rs_hostnameProviders (st_local s') !! h) ↔
       p ∈ default [] (rs_hostnameProviders (st_local s) !! h) ∨
       ∃ inst, inst ∈ dir_All (rc_providers rc) ∧ p = pi_Name inst ∧ recovered_name inst h) ∧
    (res = None ↔ ∀ inst, inst ∈ dir_All (rc_providers rc) → failing inst = false).
Proof using Hanswer.
  intros Hc Ht. unfold RecoverOwnership. rewrite Hc, Ht. cbn [negb orb].
  destruct (recoverProviders_run (dir_All (rc_providers rc)) ∅ [] s) as (s1 & E & Hs1 & Hc1); [done|].
  rewrite (bind_some _ _ _ _ _ E). unfold bind, modify_local, ret. simpl.
  do 2 eexists. split; [done|]. simpl. rewrite Hs1.
  destruct (recoverStep_fold (dir_All (rc_providers rc)) (st_local s) ∅) as [H1 H2].
  split_and!; [done|apply H1|apply H2|].
  rewrite length_map. destruct (List.filter failing _) as [|i l] eqn:Ef; simpl.
  - split; [|done]. intros _ inst Hin. destruct (failing inst) eqn:Hf; [|done].
    assert (inst ∈ List.filter failing (dir_All (rc_providers rc))) as Hx
      by (by apply elem_of_list_filter).
    rewrite Ef in Hx. by apply not_elem_of_nil in Hx.
  - split; [done|]. intros Hf.
    assert (i ∈ List.filter failing (dir_All (rc_providers rc))) as Hx by (rewrite Ef; by left).
    apply elem_of_list_filter in Hx as [Hi Hfi]. by rewrite Hf in Hfi.
Qed.
End RecoveryFacts.
