(* ===== verification/Scenarios.v ===== *)
(** * Scenarios

    The theorems about the reconciler at concrete inputs: one registered
    in-memory provider, one workload source, and worlds with a few records. *)
From S2P Require Import Prelude GoStrings Errors Workload Hostname ProviderTypes Matcher.
From S2P Require Import GoMaps Effects SourceRegistry Instance MemProvider Registry Result.
From S2P Require Import Cache Comparison Actions Orphan Reconcile.
From Stdlib Require Import ZArith.

#[local] Existing Instance glob_engine.
#[local] Existing Instance key_order.

Definition host (n : string) : Hostname := mkHostname n "labels" "" None ∅.
Definition srv_host (n : string) : Hostname :=
  mkHostname n "labels" ""
    (Some (mkRecordHints "SRV" "app.example.com" 0 "" (Some (mkSRVHints 1 1 443)) ∅)) ∅.

(** A source that reads one label. *)
Definition label_source : Source MemWorld :=
  mkSource "labels" (λ w, inl [host (GetLabel w "host")]) (λ w, (inl [], w)) false [].
Definition web (n : string) : Workload :=
  mkWorkload "1" "web" "" {[ "host" := n ]} ∅ PlatformDocker "container" [] ∅.
Definition one_workload (n : string) : Lister MemWorld :=
  mkLister PlatformDocker (λ w, (inl [web n], w)).

Definition recA (n t : string) : DNSRecord := mkRecord n RecordTypeA t 300 "" None None ∅.
Definition recSRV (n t : string) : DNSRecord := mkRecord n RecordTypeSRV t 300 "" None None ∅.

Definition scenario (cfg : Config) (dryRun : bool) (n : string)
  : Reconciler MemWorld (Registry MemWorld) :=
  mkReconciler [one_workload n] (registers [label_source]) sample_registry cfg true dryRun.
Definition world (l : list DNSRecord) : MemWorld := {[ "dns1" := l ]}.
Definition start (l : list DNSRecord) (known : list string) : St MemWorld RState :=
  mkSt (world l) [] (mkRState (goset_of known) ∅ None).
Definition untracked : Config := mkConfig false true false false true "".
Definition dns1 : ProviderInstance MemWorld :=
  mem_instance "dns1" ModeManaged "192.0.2.1" ["*.example.com"].
Definition cache_of (l : list DNSRecord) : recordCache :=
  mkCache {[ "dns1" := Some (indexRecords l) ]}.

Lemma cache_of_caches l : caches (cache_of l) "dns1" l.
Proof. unfold caches, providerIndex, cache_of. simpl. by rewrite lookup_singleton_eq. Qed.

Lemma sample_wf : dir_wf sample_registry.
Proof. exact (reachable_wf _ sample_reachable). Qed.

(** The first cycle on an empty provider. *)
Lemma Reconcile_calls_justified_witness :
  dir_wf sample_registry ∧
  st_calls (Reconcile (scenario DefaultConfig false "App.example.com") (start [] [])).2
  = [CallList "dns1"; CallCreate "dns1" (recA "App.example.com" "192.0.2.1");
     CallCreate "dns1" (OwnershipRecord "App.example.com" 300 "" ∅)] ∧
  ∃ tr,
    st_calls (Reconcile (scenario DefaultConfig false "App.example.com") (start [] [])).2 = [] ++ tr ∧
    (tr = [] ∨ ∃ hs w answers w',
       rc_enabled (scenario DefaultConfig false "App.example.com") = true ∧
       reads (scenario DefaultConfig false "App.example.com") (world []) hs w ∧
       answered (dir_All (rc_providers (scenario DefaultConfig false "App.example.com"))) w answers w' ∧
       Forall (justified (scenario DefaultConfig false "App.example.com")
                 (mkRState (goset_of []) ∅ None) hs answers) tr).
Proof.
  split; [exact sample_wf|]. split; [vm_compute; reflexivity|].
  exact (Reconcile_calls_justified (scenario DefaultConfig false "App.example.com") (start [] [])
           sample_wf).
Defined.

Definition second_cycle : option (Result + error) * St MemWorld RState :=
  Reconcile (scenario DefaultConfig false "App.example.com") (start [] ["old.example.com"]).

Lemma Reconcile_outcomes_witness :
  dir_wf sample_registry ∧
  KnownHostnames (st_local second_cycle.2) = ["app.example.com"] ∧
  ∃ hs w h, reads (scenario DefaultConfig false "App.example.com") (world []) hs w ∧
    h ∈ hs ∧ NormalizedName h = "app.example.com".
Proof.
  split; [exact sample_wf|]. split; [vm_compute; reflexivity|].
  destruct (Reconcile_outcomes (scenario DefaultConfig false "App.example.com")
           (start [] ["old.example.com"]) sample_wf) as [_ Hrun].
  assert (∃ r, second_cycle.1 = Some (inl r)) as [r Hr] by (vm_compute; by eexists).
  destruct (Hrun eq_refl) as [(l & e & _ & He & _)|(hs & w & Hreads & _ & Hk)].
  - unfold second_cycle in Hr. rewrite He in Hr. discriminate Hr.
  - destruct (proj1 (Hk r Hr "app.example.com")) as (h & Hh & Hn).
    + vm_compute. by eexists.
    + exists hs, w, h. split; [exact Hreads|by split].
Defined.

Definition first_result : Result :=
  match (Reconcile (scenario DefaultConfig false "App.example.com") (start [] [])).1 with
  | Some (inl r) => r
  | _ => NewResult false
  end.

Lemma Reconcile_counts_witness :
  dir_wf sample_registry ∧
  (Reconcile (scenario DefaultConfig false "App.example.com") (start [] [])).1
    = Some (inl first_result) ∧
  CreatedCount first_result + UpdatedCount first_result + DeletedCount first_result
    + FailedCount first_result + length (Skipped first_result) = length (res_Actions first_result).
Proof.
  split; [exact sample_wf|]. split; [vm_compute; reflexivity|].
  refine (proj1 (Reconcile_counts (scenario DefaultConfig false "App.example.com") (start [] [])
             first_result sample_wf _)). vm_compute. reflexivity.
Defined.

Lemma dry_run_never_writes_witness :
  dir_wf sample_registry ∧ rc_dryRun (scenario DefaultConfig true "app.example.com") = true ∧
  st_calls (RemoveHostname (scenario DefaultConfig true "app.example.com") "app.example.com"
              (start [recA "app.example.com" "192.0.2.1"] [])).2 = [].
Proof.
  split; [exact sample_wf|]. split; [reflexivity|].
  refine (proj2 (proj2 (dry_run_never_writes (scenario DefaultConfig true "app.example.com")
    (start [recA "app.example.com" "192.0.2.1"] []) "app.example.com" sample_wf eq_refl _))).
  right. left. reflexivity.
Defined.

Lemma ReconcileHostname_spec_witness :
  rc_enabled (scenario DefaultConfig false "a.example.com") = true ∧
  st_calls (ReconcileHostname (scenario DefaultConfig false "a.example.com") "New.example.com"
              (start [] [])).2
  = [CallCreate "dns1" (recA "New.example.com" "192.0.2.1");
     CallCreate "dns1" (OwnershipRecord "New.example.com" 300 "" ∅)] ∧
  ∃ tr, st_calls (ReconcileHostname (scenario DefaultConfig false "a.example.com") "New.example.com"
                    (start [] [])).2 = [] ++ tr.
Proof.
  split; [reflexivity|]. split; [vm_compute; reflexivity|].
  destruct (ReconcileHostname_spec (scenario DefaultConfig false "a.example.com") (start [] [])
              "New.example.com" eq_refl) as (tr & Htr & _). exists tr. exact Htr.
Defined.

Lemma RemoveHostname_spec_witness :
  rc_enabled (scenario DefaultConfig false "a.example.com") = true ∧
  st_calls (RemoveHostname (scenario DefaultConfig false "a.example.com") "Old.example.com."
              (start [recA "old.example.com" "192.0.2.1"] ["old.example.com"])).2
  = [CallDelete "dns1" (mkRecord "old.example.com" RecordTypeA "192.0.2.1" 0 "" None None ∅);
     CallDelete "dns1" (OwnershipRecord "old.example.com" 300 "" ∅)] ∧
  ∃ tr, st_calls (RemoveHostname (scenario DefaultConfig false "a.example.com") "Old.example.com."
              (start [recA "old.example.com" "192.0.2.1"] ["old.example.com"])).2 = [] ++ tr.
Proof.
  split; [reflexivity|]. split; [vm_compute; reflexivity|].
  destruct (RemoveHostname_spec (scenario DefaultConfig false "a.example.com")
              (start [recA "old.example.com" "192.0.2.1"] ["old.example.com"])
              "Old.example.com." eq_refl) as (tr & Htr & _). exists tr. exact Htr.
Defined.

(** *** Registries with another provider *)
Definition registry_with (p : Provider MemWorld) : Registry MemWorld :=
  st_local (CreateInstance (sample_config "dns1")
    (mkSt ∅ [] (RegisterFactory "memory" (λ _ w, (inl p, w)) NewRegistry))).2.

Lemma registry_with_wf p : dir_wf (registry_with p).
Proof.
  apply reachable_wf. eapply rtc_l; [apply (step_factory "memory" (λ _ w, (inl p, w)))|].
  eapply rtc_l; [|apply rtc_refl].
  exact (step_create (sample_config "dns1")
           (mkSt ∅ [] (RegisterFactory "memory" (λ _ w, (inl p, w)) NewRegistry))).
Qed.

Definition with_registry (r : Registry MemWorld) (rc : Reconciler MemWorld (Registry MemWorld))
  : Reconciler MemWorld (Registry MemWorld) :=
  mkReconciler (rc_listers rc) (rc_sources rc) r (rc_config rc) (rc_enabled rc) (rc_dryRun rc).

Lemma registry_with_All p inst : inst ∈ dir_All (registry_with p) → pi_Provider inst = p.
Proof.
  assert (pi_Provider <$> dir_All (registry_with p) = [p]) as Hp by (vm_compute; reflexivity).
  intros Hin%(list_elem_of_fmap_2 pi_Provider). rewrite Hp in Hin.
  by apply list_elem_of_singleton in Hin.
Qed.

(** It never lists an SRV record without data. *)
Definition srv_safe (r : DNSRecord) : bool :=
  negb ((r_Type r == RecordTypeSRV) && bool_decide (r_SRV r = None)).
Definition strict_provider : Provider MemWorld := {|
  prov_Name := "dns1"; prov_Type := "strict";
  prov_Ping := λ w, (None, w);
  prov_Capabilities := txt_caps;
  prov_List := λ w, (inl (List.filter srv_safe (default [] (w !! "dns1"))), w);
  prov_Create := prov_Create (mem_provider "dns1" txt_caps);
  prov_Delete := prov_Delete (mem_provider "dns1" txt_caps);
  prov_Update := None; prov_Identity := None; prov_Close := None
|}.

Lemma strict_lists inst : pi_Provider inst = strict_provider → lists_srv_data inst.
Proof.
  intros Hp w l. rewrite Hp. simpl. intros [= <-]. apply Forall_forall.
  intros r [_ Hs]%elem_of_list_filter Ht. unfold srv_safe in Hs. rewrite Ht in Hs.
  destruct (r_SRV r); [by eexists|done].
Qed.

Lemma Reconcile_returns_witness :
  dir_wf (registry_with strict_provider) ∧
  is_Some (Reconcile (with_registry (registry_with strict_provider)
             (scenario DefaultConfig false "app.example.com"))
             (start [recSRV "app.example.com" "x.example.com"] [])).1.
Proof.
  split; [apply registry_with_wf|].
  apply (Reconcile_returns (with_registry (registry_with strict_provider)
             (scenario DefaultConfig false "app.example.com"))).
  - apply registry_with_wf.
  - intros inst Hin. apply strict_lists. exact (registry_with_All _ _ Hin).
Defined.

(** Its records never change. *)
Definition frozen_provider : Provider MemWorld := {|
  prov_Name := "dns1"; prov_Type := "frozen";
  prov_Ping := λ w, (None, w);
  prov_Capabilities := txt_caps;
  prov_List := λ w, (inl [recA "old.example.com" "192.0.2.1";
                          OwnershipRecord "Old.example.com" 300 "" ∅;
                          OwnershipRecord "other.example.com" 300 "pi5" ∅], w);
  prov_Create := λ _ w, (Some (ESentinel ErrUnauthorized), w);
  prov_Delete := λ _ w, (Some (ESentinel ErrUnauthorized), w);
  prov_Update := None; prov_Identity := None; prov_Close := None
|}.
Definition frozen_scenario : Reconciler MemWorld (Registry MemWorld) :=
  with_registry (registry_with frozen_provider) (scenario DefaultConfig false "app.example.com").
Definition frozen_answer (inst : ProviderInstance MemWorld) : list DNSRecord + error :=
  (prov_List (pi_Provider inst) ∅).1.

Lemma RecoverOwnership_spec_witness :
  KnownHostnames (st_local (RecoverOwnership frozen_scenario (start [] [])).2) = ["old.example.com"] ∧
  (∀ inst, inst ∈ dir_All (rc_providers frozen_scenario) →
     ∀ w, (prov_List (pi_Provider inst) w).1 = frozen_answer inst) ∧
  ∃ res s', RecoverOwnership frozen_scenario (start [] []) = (Some res, s') ∧
    (is_Some (rs_knownHostnames (st_local s') !! "old.example.com") ↔
       is_Some (rs_knownHostnames (mkRState (goset_of []) ∅ None) !! "old.example.com") ∨
       ∃ inst, inst ∈ dir_All (rc_providers frozen_scenario) ∧
         recovered_name frozen_answer inst "old.example.com").
Proof.
  split; [vm_compute; reflexivity|].
  assert (∀ inst, inst ∈ dir_All (rc_providers frozen_scenario) →
     ∀ w, (prov_List (pi_Provider inst) w).1 = frozen_answer inst) as Ha.
  { intros inst Hin w. unfold frozen_answer. rewrite (registry_with_All _ _ Hin). reflexivity. }
  split; [exact Ha|].
  destruct (RecoverOwnership_spec frozen_scenario frozen_answer Ha (start [] []) eq_refl eq_refl)
    as (res & s' & Hrun & _ & Hk & _).
  exists res, s'. split; [exact Hrun|apply Hk].
Defined.

(** *** Cleanup *)
Definition current1 : gmap string Hostname := {[ "a.example.com" := host "a.example.com" ]}.
Definition owned_records : list DNSRecord :=
  [recA "a.example.com" "192.0.2.1"; recA "old.example.com" "192.0.2.9";
   OwnershipRecord "old.example.com" 300 "" ∅].

Lemma cleanup_deletes_justified_witness :
  dir_wf sample_registry ∧
  st_calls (cleanupOrphans (scenario DefaultConfig false "a.example.com") current1
              (Some (cache_of owned_records))
              (start owned_records ["a.example.com"; "old.example.com"])).2
  = [CallDelete "dns1" (mkRecord "old.example.com" RecordTypeA "192.0.2.9" 0 "" None None ∅);
     CallDelete "dns1" (OwnershipRecord "old.example.com" 300 "" ∅)] ∧
  ∃ tr, st_calls (cleanupOrphans (scenario DefaultConfig false "a.example.com") current1
              (Some (cache_of owned_records))
              (start owned_records ["a.example.com"; "old.example.com"])).2 = [] ++ tr.
Proof.
  split; [exact sample_wf|]. split; [vm_compute; reflexivity|].
  destruct (cleanup_deletes_justified (scenario DefaultConfig false "a.example.com") current1
              (cache_of owned_records) (start owned_records ["a.example.com"; "old.example.com"])
              sample_wf) as (tr & Htr & _). exists tr. exact Htr.
Defined.

Lemma additive_never_deletes_witness :
  pi_Mode (mem_instance "dns1" ModeAdditive "192.0.2.1" ["*"]) = ModeAdditive ∧
  st_calls (deleteOrphanForProvider (scenario DefaultConfig false "a.example.com") "old.example.com"
    (mem_instance "dns1" ModeAdditive "192.0.2.1" ["*"]) None (start owned_records [])).2 = [].
Proof.
  split; [reflexivity|].
  rewrite (additive_never_deletes (scenario DefaultConfig false "a.example.com") "old.example.com"
    (mem_instance "dns1" ModeAdditive "192.0.2.1" ["*"]) None (start owned_records []) eq_refl).
  reflexivity.
Defined.

Lemma unowned_never_deleted_witness :
  hasOwnershipRecord (cache_of owned_records) "dns1" "a.example.com" "" = false ∧
  st_calls (deleteOrphanForProvider (scenario DefaultConfig false "x.example.com") "a.example.com"
    dns1 (Some (cache_of owned_records)) (start owned_records [])).2 = [].
Proof.
  assert (hasOwnershipRecord (cache_of owned_records) "dns1" "a.example.com" "" = false) as Ho
    by (vm_compute; reflexivity).
  split; [exact Ho|].
  rewrite (unowned_never_deleted (scenario DefaultConfig false "x.example.com") "a.example.com"
    dns1 (cache_of owned_records) (start owned_records []) eq_refl eq_refl eq_refl Ho).
  reflexivity.
Defined.

(** Dry-run, managed mode, no ownership tracking: the record is deleted. *)
Lemma cache_only_ignores_dry_run_witness :
  rc_dryRun (scenario untracked true "x.example.com") = true ∧
  st_calls (deleteOrphanForProvider (scenario untracked true "x.example.com") "old.example.com"
    dns1 (Some (cache_of owned_records)) (start owned_records [])).2
  = [CallDelete "dns1" (mkRecord "old.example.com" RecordTypeA "192.0.2.9" 0 "" None None ∅)].
Proof.
  split; [reflexivity|].
  rewrite (cache_only_ignores_dry_run (scenario untracked true "x.example.com") "old.example.com"
    dns1 (cache_of owned_records) (start owned_records []) eq_refl eq_refl);
    [vm_compute; reflexivity|].
  vm_compute. discriminate.
Defined.

Lemma tripped_breaker_forgets_witness :
  tripped (st_local (start [] ["b.example.com"; "c.example.com"; "d.example.com"])) current1 = true ∧
  rs_knownHostnames (st_local (reconcileDiscovered (scenario DefaultConfig false "a.example.com")
    current1 (NewResult false) (start [] ["b.example.com"; "c.example.com"; "d.example.com"])).2)
    !! "b.example.com" = None.
Proof.
  set (s := start [] ["b.example.com"; "c.example.com"; "d.example.com"]).
  assert (tripped (st_local s) current1 = true) as Ht by (vm_compute; reflexivity).
  split; [exact Ht|].
  assert (result_ok (scenario DefaultConfig false "a.example.com") (NewResult false)) as Hok
    by (split; [constructor|reflexivity]).
  destruct (reconcileDiscovered (scenario DefaultConfig false "a.example.com")
              current1 (NewResult false) s).1 as [r|] eqn:E; [|vm_compute in E; discriminate].
  refine (proj2 (tripped_breaker_forgets (scenario DefaultConfig false "a.example.com") current1
    (NewResult false) s r sample_wf Hok Ht E) "b.example.com" _).
  split; [vm_compute; eexists; reflexivity|vm_compute; reflexivity].
Defined.

(** The record exists and is owned: the second cycle. *)
Definition in_sync_records : list DNSRecord :=
  [recA "a.example.com" "192.0.2.1"; OwnershipRecord "a.example.com" 300 "" ∅].
Definition in_sync_result : Result :=
  match (reconcileDiscovered (scenario DefaultConfig false "a.example.com") current1
           (NewResult false) (start in_sync_records ["a.example.com"])).1 with
  | Some r => r
  | None => NewResult true
  end.

Lemma in_sync_cycle_drops_mapping_witness :
  map a_Type (res_Actions in_sync_result) = [ActionSkip] ∧
  rs_hostnameProviders (st_local (reconcileDiscovered (scenario DefaultConfig false "a.example.com")
    current1 (NewResult false) (start in_sync_records ["a.example.com"])).2) = ∅.
Proof.
  split; [vm_compute; reflexivity|].
  refine (in_sync_cycle_drops_mapping (scenario DefaultConfig false "a.example.com") current1
    (NewResult false) (start in_sync_records ["a.example.com"]) in_sync_result sample_wf _ _).
  - vm_compute. reflexivity.
  - assert (res_Actions in_sync_result
      = [mkAction ActionSkip StatusSkipped "dns1" "a.example.com" "A" "192.0.2.1"
           errRecordAlreadyExists false]) as Hr by (vm_compute; reflexivity).
    unfold all_skips. rewrite Hr. repeat constructor.
Defined.

(** *** Ensuring *)
Lemma ensure_type_conflict_silent_witness :
  caches (cache_of [mkRecord "a.example.com" RecordTypeCNAME "x.example.com" 60 "" None None ∅])
    "dns1" [mkRecord "a.example.com" RecordTypeCNAME "x.example.com" 60 "" None None ∅] ∧
  silent (λ a, a_Type a = ActionSkip ∧ a_Status a = StatusSkipped)
    (ensureRecordForProvider (scenario DefaultConfig false "a.example.com") (host "A.example.com")
       dns1 (Some (cache_of [mkRecord "a.example.com" RecordTypeCNAME "x.example.com" 60 "" None None ∅]))).
Proof.
  split; [apply cache_of_caches|].
  apply (ensure_type_conflict_silent (scenario DefaultConfig false "a.example.com")
    (host "A.example.com") dns1 _ _
    (mkRecord "a.example.com" RecordTypeCNAME "x.example.com" 60 "" None None ∅)
    (cache_of_caches _)).
  - reflexivity.
  - left.
  - vm_compute. reflexivity.
  - reflexivity.
  - vm_compute. discriminate.
Defined.

Lemma ensure_in_sync_silent_witness :
  existing_of in_sync_records "A.example.com" = [recA "a.example.com" "192.0.2.1"] ∧
  silent (λ a, a = act ActionSkip StatusSkipped errRecordAlreadyExists (host "A.example.com") dns1
                    (desiredOf (host "A.example.com") dns1))
    (ensureRecordForProvider (scenario DefaultConfig false "a.example.com") (host "A.example.com")
       dns1 (Some (cache_of in_sync_records))).
Proof.
  assert (existing_of in_sync_records "A.example.com" = [recA "a.example.com" "192.0.2.1"]) as He
    by (vm_compute; reflexivity).
  split; [exact He|].
  apply (ensure_in_sync_silent (scenario DefaultConfig false "a.example.com")
    (host "A.example.com") dns1 (cache_of in_sync_records) in_sync_records
    (recA "a.example.com" "192.0.2.1") (cache_of_caches _)).
  - reflexivity.
  - simpl h_Name. rewrite He. repeat constructor.
  - simpl h_Name. rewrite He. left.
  - reflexivity.
  - right. left. reflexivity.
Defined.

Lemma stale_srv_without_data_panics_witness :
  is_Some (de_SRV (desiredOf (srv_host "_https._tcp.example.com") dns1)) ∧
  (applyDesired (scenario DefaultConfig false "a.example.com") (srv_host "_https._tcp.example.com")
     dns1 (desiredOf (srv_host "_https._tcp.example.com") dns1) ∅ None
     [recSRV "_https._tcp.example.com" "app.example.com"] (start [] [])).1 = None.
Proof.
  assert (is_Some (de_SRV (desiredOf (srv_host "_https._tcp.example.com") dns1))) as Hs
    by (eexists; reflexivity).
  split; [exact Hs|].
  apply (stale_srv_without_data_panics (scenario DefaultConfig false "a.example.com")
    (srv_host "_https._tcp.example.com") dns1
    (desiredOf (srv_host "_https._tcp.example.com") dns1) ∅ None
    [recSRV "_https._tcp.example.com" "app.example.com"]
    (recSRV "_https._tcp.example.com" "app.example.com") (start [] []));
    [reflexivity|exact Hs|repeat constructor|left|reflexivity|reflexivity].
Defined.

(** Creating a record in an empty store, then finding it in place. *)
Definition created_run :=
  ensureRecordForProvider (scenario DefaultConfig false "a.example.com") (host "a.example.com")
    dns1 (Some (cache_of [])) (start [] []).

Lemma ensure_converges_witness :
  default [] (st_world created_run.2 !! "dns1") = in_sync_records ∧
  ∀ c', caches c' "dns1" (default [] (st_world created_run.2 !! "dns1")) →
    silent (λ a, a = act ActionSkip StatusSkipped errRecordAlreadyExists (host "a.example.com") dns1
                      (desiredOf (host "a.example.com") dns1))
      (ensureRecordForProvider (scenario DefaultConfig false "a.example.com")
         (host "a.example.com") dns1 (Some c')).
Proof.
  split; [vm_compute; reflexivity|].
  set (a := act ActionCreate StatusSuccess "" (host "a.example.com") dns1
              (desiredOf (host "a.example.com") dns1)).
  refine (proj2 (ensure_converges (scenario DefaultConfig false "a.example.com")
    (host "a.example.com") dns1 (λ w, default [] (w !! "dns1")) (cache_of []) (start [] [])
    a created_run.2 _ _ _ _ _ _ _)).
  - apply cache_of_caches.
  - reflexivity.
  - reflexivity.
  - reflexivity.
  - vm_compute. reflexivity.
  - vm_compute. reflexivity.
  - reflexivity.
Defined.

(** A Traefik router on two entrypoints gives one hostname per entrypoint;
    both have the same name, and the second one is dropped. *)
Definition on_entrypoint (e : string) : Hostname :=
  mkHostname "web.example.com" "traefik" "myapp" None {[ "traefik.entrypoint" := e ]}.
Definition two_entrypoints : Source MemWorld :=
  mkSource "traefik" (λ _, inl [on_entrypoint "webA"; on_entrypoint "webB"]) (λ w, (inl [], w)) false [].

Example second_entrypoint_dropped :
  let ex := extractWorkload (registers [two_entrypoints]) (mkExtraction ∅ ∅ 0 0) (web "") in
  ex_discovered ex = {[ "web.example.com" := on_entrypoint "webA" ]} ∧ ex_duplicate ex = 1.
Proof. split; vm_compute; reflexivity. Qed.
