(* ===== verification/DnsRecord.v ===== *)
(** * DNS records on the wire (pkg/dnsupdate/record.go)

    The records that RFC 2136 operations exchange with a DNS server, and
    their conversion to and from the resource records of the DNS library.
    The library's types are the data [RR]; its name tables are the class
    [DnsNames]. *)
From S2P Require Import Prelude GoStrings NetIP.
From Stdlib Require Import ZArith.

(** ** Types of the DNS library *)

(** Record types and classes: IANA numbers. *)
Definition TypeA : Z := 1.
Definition TypeNS : Z := 2.
Definition TypeCNAME : Z := 5.
Definition TypeSOA : Z := 6.
Definition TypePTR : Z := 12.
Definition TypeMX : Z := 15.
Definition TypeTXT : Z := 16.
Definition TypeAAAA : Z := 28.
Definition TypeSRV : Z := 33.
Definition TypeCAA : Z := 257.
Definition ClassINET : Z := 1.
Definition ClassANY : Z := 255.

Record RR_Header := mkHdr { hdr_Name : string; hdr_Rrtype : Z; hdr_Class : Z; hdr_Ttl : Z }.

(** The record bodies the program names; [RDOther] is any other body. *)
Inductive RRData :=
| RDA (A : list Z)
| RDAAAA (AAAA : list Z)
| RDCNAME (Target : string)
| RDTXT (Txt : list string)
| RDMX (Preference : Z) (Mx : string)
| RDSRV (Priority Weight Port : Z) (Target : string)
| RDPTR (Ptr : string)
| RDNS (Ns : string)
| RDCAA (Flag : Z) (Tag Value : string)
| RDOther (text : string).

Record RR := mkRR { rr_Hdr : RR_Header; rr_Data : RRData }.

#[export] Instance RR_Header_eq_dec : EqDecision RR_Header.
Proof. solve_decision. Defined.
#[export] Instance RRData_eq_dec : EqDecision RRData.
Proof. solve_decision. Defined.
#[export] Instance RR_eq_dec : EqDecision RR.
Proof. solve_decision. Defined.

(** The library's tables [TypeToString], [StringToType] and [RcodeToString];
    a missing key reads as [None] and as the empty text. *)
Class DnsNames := {
  TypeToString : Z → option string;
  StringToTypeTable : string → option Z;
  RcodeToString : Z → string
}.

(** ** Errors of the package *)

(** The sentinel variables of client.go and catalog.go. *)
Inductive DnsSentinel :=
| ErrNotConfigured
| ErrUpdateFailed
| ErrRecordNotFound
| ErrRecordExists
| ErrAuthenticationFailed
| ErrConnectionFailed
| ErrZoneMismatch
| ErrAXFRFailed
| ErrHostnameTooLong.

#[export] Instance DnsSentinel_eq_dec : EqDecision DnsSentinel.
Proof. solve_decision. Defined.

Definition dns_sentinel_text (s : DnsSentinel) : string :=
  match s with
  | ErrNotConfigured => "dnsupdate client is not configured"
  | ErrUpdateFailed => "dns update failed"
  | ErrRecordNotFound => "record not found"
  | ErrRecordExists => "record already exists"
  | ErrAuthenticationFailed => "tsig authentication failed"
  | ErrConnectionFailed => "connection to dns server failed"
  | ErrZoneMismatch => "record name does not match configured zone"
  | ErrAXFRFailed => "zone transfer (AXFR) failed"
  | ErrHostnameTooLong => "hostname exceeds maximum length of 253 bytes"
  end.

Inductive derror :=
(** a sentinel *)
| DSentinel (s : DnsSentinel)
(** [errors.New], [fmt.Errorf] without [%w], and errors of outside code *)
| DNew (msg : string)
(** [fmt.Errorf(prefix + "%w", err)] *)
| DWrapf (prefix : string) (err : derror)
(** [fmt.Errorf("%w: text", sentinel)] *)
| DMark (s : DnsSentinel) (text : string)
(** [fmt.Errorf("%w: %w", sentinel, err)] *)
| DWrap2 (s : DnsSentinel) (err : derror).

#[export] Instance derror_eq_dec : EqDecision derror.
Proof. solve_decision. Defined.

Fixpoint derror_text (e : derror) : string :=
  match e with
  | DSentinel s => dns_sentinel_text s
  | DNew msg => msg
  | DWrapf prefix err => prefix ++s derror_text err
  | DMark s text => dns_sentinel_text s ++s ": " ++s text
  | DWrap2 s err => dns_sentinel_text s ++s ": " ++s derror_text err
  end.

(** [errors.Is] on the package's sentinels. *)
Fixpoint derror_Is (e : derror) (t : DnsSentinel) : bool :=
  match e with
  | DSentinel s | DMark s _ => bool_decide (s = t)
  | DNew _ => false
  | DWrapf _ err => derror_Is err t
  | DWrap2 s err => bool_decide (s = t) || derror_Is err t
  end.

(** ** Records *)

(** Go's [dnsupdate.Record]; the [uint16] and [uint32] fields are integers. *)
Record ZRecord := mkZRecord {
  zr_Name : string;
  zr_Type : Z;
  zr_TTL : Z;
  zr_RData : string;
  zr_Priority : Z;
  zr_Weight : Z;
  zr_Port : Z
}.

#[export] Instance ZRecord_eq_dec : EqDecision ZRecord.
Proof. solve_decision. Defined.

(** [if !strings.HasSuffix(s, ".") { s += "." }] *)
Definition with_dot (s : string) : string := if negb (HasSuffix s ".") then s ++s "." else s.

(** [strconv.ParseUint(s, 10, 8)]. *)
Fixpoint parseUint8_go (acc : Z) (whole s : string) : Z + derror :=
  match s with
  | EmptyString => inl acc
  | String c s =>
      if is_digit c then
        let n := (acc * 10 + digit_val c)%Z in
        if (255 <? n)%Z
        then inr (DNew ("strconv.ParseUint: parsing " ++s Quote whole ++s ": value out of range"))
        else parseUint8_go n whole s
      else inr (DNew ("strconv.ParseUint: parsing " ++s Quote whole ++s ": invalid syntax"))
  end.

Definition parseUint8 (s : string) : Z + derror :=
  if s == "" then inr (DNew ("strconv.ParseUint: parsing " ++s Quote s ++s ": invalid syntax"))
  else parseUint8_go 0 s s.

(** [strings.SplitN(s, " ", 3)], when it has three parts. *)
Definition split3 (s : string) : option (string * string * string) :=
  match Cut " " s with
  | None => None
  | Some (a, rest) =>
      match Cut " " rest with
      | None => None
      | Some (b, c) => Some (a, b, c)
      end
  end.

Section Records.
Context `{DnsNames}.

Definition TypeString (r : ZRecord) : string :=
  match TypeToString (zr_Type r) with
  | Some name => name
  | None => "TYPE" ++s itoa (zr_Type r)
  end.

Definition ToRR (r : ZRecord) : RR + derror :=
  let name := with_dot (zr_Name r) in
  let header := mkHdr name (zr_Type r) ClassINET (zr_TTL r) in
  let t := zr_Type r in
  if (t =? TypeA)%Z then
    match ParseIP (zr_RData r) ≫= To4 with
    | None => inr (DNew ("invalid IPv4 address: " ++s zr_RData r))
    | Some v4 => inl (mkRR header (RDA v4))
    end
  else if (t =? TypeAAAA)%Z then
    match ParseIP (zr_RData r) with
    | None => inr (DNew ("invalid IPv6 address: " ++s zr_RData r))
    | Some ip =>
        match To4 ip with
        | Some _ => inr (DNew ("invalid IPv6 address: " ++s zr_RData r))
        | None => inl (mkRR header (RDAAAA ip))
        end
    end
  else if (t =? TypeCNAME)%Z then inl (mkRR header (RDCNAME (with_dot (zr_RData r))))
  else if (t =? TypeTXT)%Z then inl (mkRR header (RDTXT [zr_RData r]))
  else if (t =? TypeMX)%Z then
    inl (mkRR header (RDMX (zr_Priority r) (with_dot (zr_RData r))))
  else if (t =? TypeSRV)%Z then
    inl (mkRR header (RDSRV (zr_Priority r) (zr_Weight r) (zr_Port r) (with_dot (zr_RData r))))
  else if (t =? TypePTR)%Z then inl (mkRR header (RDPTR (with_dot (zr_RData r))))
  else if (t =? TypeNS)%Z then inl (mkRR header (RDNS (with_dot (zr_RData r))))
  else if (t =? TypeCAA)%Z then
    match split3 (zr_RData r) with
    | None => inr (DNew ("invalid CAA format: expected 'flag tag value', got: " ++s zr_RData r))
    | Some (flag, tag, value) =>
        match parseUint8 flag with
        | inr err => inr (DWrapf "invalid CAA flag: " err)
        | inl f => inl (mkRR header (RDCAA f tag value))
        end
    end
  else inr (DNew ("unsupported record type: " ++s TypeString r)).

(** The record that is returned beside an error is never used. *)
Definition RecordFromRR (rr : RR) : ZRecord + derror :=
  let h := rr_Hdr rr in
  let record rdata := mkZRecord (hdr_Name h) (hdr_Rrtype h) (hdr_Ttl h) rdata in
  match rr_Data rr with
  | RDA a => inl (record (IP_String a) 0%Z 0%Z 0%Z)
  | RDAAAA a => inl (record (IP_String a) 0%Z 0%Z 0%Z)
  | RDCNAME t => inl (record t 0%Z 0%Z 0%Z)
  | RDTXT txt => inl (record (Join " " txt) 0%Z 0%Z 0%Z)
  | RDMX p mx => inl (record mx p 0%Z 0%Z)
  | RDSRV p w port t => inl (record t p w port)
  | RDPTR p => inl (record p 0%Z 0%Z 0%Z)
  | RDNS n => inl (record n 0%Z 0%Z 0%Z)
  | RDCAA f tag v => inl (record (itoa f ++s " " ++s tag ++s " " ++s v) 0%Z 0%Z 0%Z)
  | RDOther _ =>
      inr (DNew ("unsupported record type: " ++s default "" (TypeToString (hdr_Rrtype h))))
  end.

Definition StringToType (s : string) : Z + derror :=
  let s := ToUpper (TrimSpace s) in
  match StringToTypeTable s with
  | Some t => inl t
  | None => inr (DNew ("unknown record type: " ++s s))
  end.

Definition SupportedTypes : list Z :=
  [TypeA; TypeAAAA; TypeCNAME; TypeTXT; TypeMX; TypeSRV; TypePTR; TypeNS; TypeCAA].

Definition SupportedTypeStrings : list string :=
  map (λ t, default "" (TypeToString t)) SupportedTypes.

Definition IsTypeSupported (recordType : Z) : bool :=
  existsb (λ t, (t =? recordType)%Z) SupportedTypes.
End Records.

Definition NewARecord (name ip : string) (ttl : Z) : ZRecord :=
  mkZRecord name TypeA ttl ip 0 0 0.
Definition NewAAAARecord (name ip : string) (ttl : Z) : ZRecord :=
  mkZRecord name TypeAAAA ttl ip 0 0 0.
Definition NewCNAMERecord (name target : string) (ttl : Z) : ZRecord :=
  mkZRecord name TypeCNAME ttl target 0 0 0.
Definition NewTXTRecord (name text : string) (ttl : Z) : ZRecord :=
  mkZRecord name TypeTXT ttl text 0 0 0.
Definition NewMXRecord (name mailserver : string) (priority ttl : Z) : ZRecord :=
  mkZRecord name TypeMX ttl mailserver priority 0 0.
Definition NewSRVRecord (name target : string) (priority weight port ttl : Z) : ZRecord :=
  mkZRecord name TypeSRV ttl target priority weight port.
Definition NewPTRRecord (name target : string) (ttl : Z) : ZRecord :=
  mkZRecord name TypePTR ttl target 0 0 0.
Definition NewNSRecord (name nameserver : string) (ttl : Z) : ZRecord :=
  mkZRecord name TypeNS ttl nameserver 0 0 0.

Lemma parseUint8_itoa v : is_byte v → parseUint8 (itoa v) = inl v.
Proof. apply (all_octets_dec (λ v, parseUint8 (itoa v) = inl v)). by vm_compute. Qed.

(** ** The text of an IPv4 address is unique *)

Section Ipv4Texts.
Local Open Scope Z_scope.

Definition digits10 : list ascii := map ascii_of_nat (List.seq 48 10).

Lemma is_digit_elem c : is_digit c = true → c ∈ digits10.
Proof.
  intros Hc.
  pose proof (all_bytes_spec (λ c, implb (is_digit c) (existsb (Ascii.eqb c) digits10))
    ltac:(vm_compute; reflexivity) c) as H.
  cbv beta in H. rewrite Hc in H. apply existsb_elem in H as (d & Hd & ->%Ascii.eqb_eq). done.
Qed.

Lemma digits_val_digits acc s v :
  digits_val acc s = Some v → str_forallb is_digit s = true.
Proof.
  revert acc. induction s as [|c s IH]; simpl; intros acc; [done|].
  destruct (is_digit c); [|done]. apply IH.
Qed.

(** A decidable fact about the digit strings of at most three bytes. *)
Definition all_fields (f : string → bool) : bool :=
  f "" && List.forallb (λ a, f (String a "") &&
    List.forallb (λ b, f (String a (String b "")) &&
      List.forallb (λ c, f (String a (String b (String c "")))) digits10) digits10) digits10.

Lemma all_fields_spec f s :
  all_fields f = true → (String.length s ≤ 3)%nat → str_forallb is_digit s = true → f s = true.
Proof.
  unfold all_fields. intros [H0 H]%andb_true_iff Hl Hd.
  assert (∀ g c, List.forallb g digits10 = true → is_digit c = true → g c = true) as Hg.
  { intros g c Hg Hc. rewrite List.forallb_forall in Hg.
    apply Hg. by apply list_elem_of_In, is_digit_elem. }
  destruct s as [|a [|b [|c [|]]]]; simpl in Hd; bool_to_prop; [done| | | |simpl in Hl; lia].
  all: pose proof (Hg _ a H ltac:(assumption)) as [Ha Hb]%andb_true_iff.
  1: done.
  all: pose proof (Hg _ b Hb ltac:(assumption)) as [Hb' Hc]%andb_true_iff.
  1: done.
  by apply (Hg _ c Hc).
Qed.

Lemma parseIPv4Field_text s v : parseIPv4Field s = Some v → itoa v = s.
Proof.
  intros H. assert (String.length s ≤ 3)%nat as Hl.
  { unfold parseIPv4Field in H. repeat case_match; simplify_eq. by apply Nat.ltb_ge. }
  assert (str_forallb is_digit s = true) as Hd.
  { unfold parseIPv4Field in H. repeat case_match; simplify_eq. by eapply digits_val_digits. }
  pose proof (all_fields_spec
    (λ s, match parseIPv4Field s with Some v => itoa v == s | None => true end) s
    ltac:(vm_compute; reflexivity) Hl Hd) as E. simpl in E.
  rewrite H in E. by apply String.eqb_eq.
Qed.

Lemma parseIPv4_text s l : parseIPv4 s = Some l → dotted l = s.
Proof.
  unfold parseIPv4. intros H. rewrite <- (Join_Split "." s).
  repeat case_match; simplify_eq.
  repeat match goal with E : parseIPv4Field _ = Some _ |- _ => apply parseIPv4Field_text in E end.
  by subst.
Qed.
End Ipv4Texts.

(** ** Writing records and reading them back *)

Lemma with_dot_id s : HasSuffix s "." = true → with_dot s = s.
Proof. unfold with_dot. by intros ->. Qed.

Lemma HasSuffix_with_dot s : HasSuffix (with_dot s) "." = true.
Proof. unfold with_dot. destruct (HasSuffix s ".") eqn:E; simpl; [done|]. apply HasSuffix_app. Qed.

Lemma with_dot_idem s : with_dot (with_dot s) = with_dot s.
Proof. apply with_dot_id, HasSuffix_with_dot. Qed.
#[export] Hint Rewrite HasSuffix_with_dot with_dot_idem : go_str.

(** The records that are written exactly as they are: names and targets end
    with a dot, addresses are in canonical form, and fields the type does not
    use are zero.  (CAA records are left out.) *)
Definition wire_form (r : ZRecord) : Prop :=
  HasSuffix (zr_Name r) "." = true ∧ zr_Type r ≠ TypeCAA ∧
  (zr_Type r = TypeA → is_Some (parseIPv4 (zr_RData r)) ∧ ip_kind (zr_RData r) = Some "."%char) ∧
  (zr_Type r = TypeAAAA → IP_String <$> ParseIP (zr_RData r) = Some (zr_RData r)) ∧
  (zr_Type r ∉ [TypeA; TypeAAAA; TypeTXT] → HasSuffix (zr_RData r) "." = true) ∧
  (zr_Type r ∉ [TypeMX; TypeSRV] → zr_Priority r = 0%Z) ∧
  (zr_Type r ≠ TypeSRV → zr_Weight r = 0%Z ∧ zr_Port r = 0%Z).

Section RoundTrip.
Context `{DnsNames}.

Lemma split3_app a b c :
  str_contains_byte " " a = false → str_contains_byte " " b = false →
  split3 (a ++s " " ++s b ++s " " ++s c) = Some (a, b, c).
Proof.
  intros Ha Hb. unfold split3.
  change (" " ++s b ++s " " ++s c) with (String " " (b ++s String " " c)).
  by rewrite !Cut_app.
Qed.

Lemma split3_inv s a b c :
  split3 s = Some (a, b, c) → str_contains_byte " " a = false ∧ str_contains_byte " " b = false.
Proof.
  unfold split3. destruct (Cut " " s) as [[x rest]|] eqn:E1; [|done].
  destruct (Cut " " rest) as [[y z]|] eqn:E2; [|done]. intros [= <- <- <-].
  by apply Cut_spec in E1 as [_ ?], E2 as [_ ?].
Qed.

Lemma parseUint8_byte s v : parseUint8 s = inl v → is_byte v.
Proof.
  unfold parseUint8. destruct (s == ""); [done|].
  assert (∀ w t acc, (0 ≤ acc)%Z → (acc ≤ 255)%Z → parseUint8_go acc w t = inl v → is_byte v) as Hgo.
  { intros w t. induction t as [|c t IH]; simpl; intros acc H0 H1; [by intros [= <-]; split|].
    destruct (is_digit c) eqn:Hc; [|done]. destruct (_ <? _)%Z eqn:Hn; [done|].
    apply Z.ltb_ge in Hn. apply IH; [|done].
    unfold is_digit, byte_in in Hc. apply andb_true_iff in Hc as [Hc _].
    apply N.leb_le in Hc. change (N_of_ascii "0") with 48%N in Hc. unfold digit_val. lia. }
  apply Hgo; lia.
Qed.

(** The text of the address of an A record. *)
Lemma A_text s v4 :
  ParseIP s ≫= To4 = Some v4 → IP_String v4 = dotted v4 ∧ ParseIP (dotted v4) ≫= To4 = Some v4.
Proof.
  intros [Hl Hb]%To4_bytes. split; [unfold IP_String; by rewrite Hl|].
  rewrite ParseIP_dotted by done. simpl. apply To4_app.
Qed.

Lemma A_text_canonical s v4 :
  ParseIP s ≫= To4 = Some v4 → is_Some (parseIPv4 s) → ip_kind s = Some "."%char →
  dotted v4 = s.
Proof.
  intros H4 [l Hl] Hk. unfold ParseIP in H4. rewrite Hk in H4. simpl in H4.
  rewrite Hl in H4. change (To4 (v4_prefix ++ l) = Some v4) in H4.
  rewrite To4_app in H4. simplify_eq. by apply parseIPv4_text.
Qed.

(** The records of each supported type, and the rest. *)
Lemma ToRR_types r rr :
  ToRR r = inl rr → zr_Type r ∈ SupportedTypes.
Proof.
  unfold ToRR, SupportedTypes.
  repeat match goal with
  | |- context [(zr_Type r =? ?t)%Z] => destruct (Z.eqb_spec (zr_Type r) t) as [->|?]
  end; intros ?; try done; set_solver.
Qed.

(** What wire form says about the fields of a record of a known type. *)
Lemma wire_form_fields n t ttl d p w po :
  wire_form (mkZRecord n t ttl d p w po) →
  with_dot n = n ∧ (t ∉ [TypeA; TypeAAAA; TypeTXT] → with_dot d = d) ∧
  (t ∉ [TypeMX; TypeSRV] → p = 0%Z) ∧ (t ≠ TypeSRV → w = 0%Z ∧ po = 0%Z).
Proof.
  intros (Hn & _ & _ & _ & Hd & Hp & Hw). simpl in *.
  split_and!; [by apply with_dot_id|intros; by apply with_dot_id, Hd|done|done].
Qed.

(** A record whose fields are those of a wire form. *)
Ltac wire_fields :=
  let H := fresh in
  intros H; pose proof (wire_form_fields _ _ _ _ _ _ _ H) as (? & Hd & Hp & Hw);
  try specialize (Hd ltac:(by apply (bool_decide_unpack _))); 
  try specialize (Hp ltac:(by apply (bool_decide_unpack _)));
  try (destruct (Hw ltac:(done)));
  simplify_eq/=; congruence.

(** Writing a record and reading it back.  What is read has the name as a
    fully qualified name, the same type and TTL; writing it again gives the
    same resource record (IPv6 addresses apart, whose text is not parsed back
    here); and a record in wire form is read back as it was. *)
Theorem ToRR_roundtrip r rr :
  ToRR r = inl rr →
  ∃ r', RecordFromRR rr = inl r' ∧
    zr_Name r' = with_dot (zr_Name r) ∧ zr_Type r' = zr_Type r ∧ zr_TTL r' = zr_TTL r ∧
    (zr_Type r ≠ TypeAAAA → ToRR r' = inl rr) ∧ (wire_form r → r' = r).
Proof.
  intros HR. pose proof (ToRR_types _ _ HR) as Ht. revert HR.
  destruct r as [n t ttl d p w po]. simpl in Ht. unfold SupportedTypes in Ht.
  rewrite !elem_of_cons, elem_of_nil in Ht.
  destruct_or! Ht; subst; intros HR; cbn -[IP_String To4 ParseIP] in HR.
  all: try (injection HR as <-; eexists; split; [reflexivity|]; split_and!; [done..| |];
    [intros _; unfold ToRR; cbn; by rewrite ?with_dot_idem|wire_fields]).
  - destruct (ParseIP d ≫= To4) as [v4|] eqn:E; [|done]. injection HR as <-.
    destruct (A_text _ _ E) as [Htext Hback].
    eexists; split; [reflexivity|]; split_and!; [done..| |].
    + intros _. unfold ToRR. cbn -[IP_String To4 ParseIP]. by rewrite Htext, Hback, with_dot_idem.
    + intros Hw. pose proof Hw as (_ & _ & HA & _). destruct (HA eq_refl) as [Hs Hk]. revert Hw.
      rewrite Htext, (A_text_canonical _ _ E Hs Hk). wire_fields.
  - destruct (ParseIP d) as [ip|] eqn:E; [|done]. destruct (To4 ip); [done|]. injection HR as <-.
    eexists; split; [reflexivity|]; split_and!; [done..|].
    intros Hw. pose proof Hw as (_ & _ & _ & HA & _). specialize (HA eq_refl). revert Hw.
    simpl in HA. rewrite E in HA. injection HA as ->. wire_fields.
  - destruct (split3 d) as [[[flag tag] value]|] eqn:E; [|done].
    destruct (parseUint8 flag) as [f|] eqn:Ef; [|done]. injection HR as <-.
    destruct (split3_inv _ _ _ _ E) as [_ Htag]. pose proof (parseUint8_byte _ _ Ef) as Hf.
    eexists; split; [reflexivity|]; split_and!; [done..| |by intros (_ & ? & _)].
    intros _. unfold ToRR. cbn -[split3].
    rewrite split3_app, parseUint8_itoa, with_dot_idem by (done || by apply itoa_byte_plain). done.
Qed.
End RoundTrip.
