(* ===== verification/DnsClient.v ===== *)
(** * The RFC 2136 client (pkg/dnsupdate/client.go)

    The client sends queries and update messages to a DNS server.  The server
    and the transport are outside the program: the class [DnsServer] is a
    function on a world [W].  [DnsServerLaws] states what RFC 1035 and
    RFC 2136 say a server does with these messages; [zone_server] is a server
    that satisfies it.

    Operations are in a monad [Op] over a state, with Go's error results, run
    time panics, and [Diverges] for loops that exceed their budget. *)
From S2P Require Import Prelude GoStrings NetIP DnsRecord.
From Stdlib Require Import ZArith.

(** ** The monad *)

Inductive outcome (A : Type) :=
| Ok (a : A)
| Err (e : derror)
| Panics
| Diverges.
Arguments Ok {A} a.
Arguments Err {A} e.
Arguments Panics {A}.
Arguments Diverges {A}.

Definition Op (S A : Type) : Type := S → outcome A * S.

#[export] Instance Op_ret {S} : MRet (Op S) := λ A a s, (Ok a, s).
#[export] Instance Op_bind {S} : MBind (Op S) := λ A B k m s,
  match m s with
  | (Ok a, s') => k a s'
  | (Err e, s') => (Err e, s')
  | (Panics, s') => (Panics, s')
  | (Diverges, s') => (Diverges, s')
  end.

Section Ops.
Context {S : Type}.

Definition op_fail {A} (e : derror) : Op S A := λ s, (Err e, s).
Definition op_panic {A} : Op S A := λ s, (Panics, s).
Definition op_diverge {A} : Op S A := λ s, (Diverges, s).
Definition op_get : Op S S := λ s, (Ok s, s).
Definition op_modify (f : S → S) : Op S unit := λ s, (Ok tt, f s).

(** [x, err := m; if err != nil { h(err) }] *)
Definition op_catch {A} (m : Op S A) (h : derror → Op S A) : Op S A := λ s,
  match m s with
  | (Err e, s') => h e s'
  | r => r
  end.

(** [if err != nil { return fmt.Errorf("...: %w", err) }] *)
Definition op_wrap {A} (f : derror → derror) (m : Op S A) : Op S A :=
  op_catch m (λ e, op_fail (f e)).

Definition op_lift {A} (r : A + derror) : Op S A :=
  match r with inl a => mret a | inr e => op_fail e end.

Fixpoint op_iter {A} (f : A → Op S unit) (l : list A) : Op S unit :=
  match l with
  | [] => mret tt
  | a :: l => f a ≫= λ _, op_iter f l
  end.
End Ops.

(** An operation on the first component of a pair of states. *)
Definition op_fst {S T A} (m : Op S A) : Op (S * T) A := λ s,
  let '(r, s1) := m s.1 in (r, (s1, s.2)).

(** ** Messages *)

Definition RcodeSuccess : Z := 0.
Definition RcodeNameError : Z := 3.
Definition RcodeRefused : Z := 5.
Definition RcodeYXRrset : Z := 7.
Definition RcodeNXRrset : Z := 8.
Definition RcodeNotAuth : Z := 9.
Definition RcodeNotZone : Z := 10.

Record TSIG := mkTSIG { tsig_Name : string; tsig_Secret : string; tsig_Algorithm : string }.

(** One record of the update section: [msg.Insert], [msg.Remove], and the ANY
    record that deletes an RRset. *)
Inductive UpdateRR :=
| UInsert (rr : RR)
| URemove (rr : RR)
| UDeleteRRset (name : string) (rrtype : Z).

(** Standard queries (no recursion desired) and dynamic updates. *)
Inductive Msg :=
| QueryMsg (name : string) (qtype : Z)
| UpdateMsg (zone : string) (ns : list UpdateRR) (tsig : nilable TSIG).

Record Resp := mkResp { Rcode : Z; Answer : list RR; resp_IsTsig : bool }.

(** The server, as seen through [dns.Client.Exchange] and [dns.Transfer.In];
    a transfer delivers envelopes of records or errors. *)
Class DnsServer (W : Type) := {
  exchange : Msg → W → (Resp + derror) * W;
  transfer_In : string → nilable TSIG → W → (list (list RR + derror) + derror) * W
}.

(** ** The client *)

(** [config.Zone] and [tsig]; the rest of the configuration is the server's. *)
Record Client := mkClient { cl_Zone : string; cl_tsig : nilable TSIG }.

Section Client.
Context `{DnsNames} {W : Type} `{DnsServer W}.
Context (c : Client).

Definition exchangeWithContext (msg : Msg) : Op W Resp := λ w,
  match exchange msg w with
  | (inl resp, w') => (Ok resp, w')
  | (inr e, w') => (Err e, w')
  end.

(** [resp] is nil where the argument is [None]. *)
Definition checkResponse (resp : nilable Resp) : Op W unit :=
  match resp with
  | None => op_fail (DMark ErrUpdateFailed "no response from server")
  | Some resp =>
      let rc := Rcode resp in
      if (rc =? RcodeSuccess)%Z then mret tt
      else if (rc =? RcodeYXRrset)%Z then op_fail (DSentinel ErrRecordExists)
      else if (rc =? RcodeNXRrset)%Z then op_fail (DSentinel ErrRecordNotFound)
      else if (rc =? RcodeNotAuth)%Z then
        if resp_IsTsig resp
        then op_fail (DMark ErrAuthenticationFailed (RcodeToString rc))
        else op_fail (DMark ErrUpdateFailed "server not authoritative for zone")
      else if (rc =? RcodeRefused)%Z then
        op_fail (DMark ErrUpdateFailed
                   "update refused (check server policy or TSIG configuration)")
      else if (rc =? RcodeNotZone)%Z then op_fail (DSentinel ErrZoneMismatch)
      else op_fail (DMark ErrUpdateFailed (RcodeToString rc))
  end.

Definition ensureFQDN (name : string) : string :=
  if HasSuffix name "." then name else name ++s ".".

Definition isInZone (fqdn : string) : bool :=
  HasSuffix (ToLower fqdn) (ToLower (with_dot (cl_Zone c))).

Definition zoneMismatch (fqdn : string) : derror :=
  DMark ErrZoneMismatch (fqdn ++s " not in zone " ++s cl_Zone c).

Definition validateRecord (record : ZRecord) : Op W unit :=
  if zr_Name record == "" then op_fail (DNew "record name is required")
  else
    let fqdn := ensureFQDN (zr_Name record) in
    if negb (isInZone fqdn) then op_fail (zoneMismatch fqdn) else mret tt.

(** The common end of the update operations: send, check. *)
Definition sendUpdate (ns : list UpdateRR) : Op W unit :=
  resp ← op_wrap (DWrap2 ErrUpdateFailed)
           (exchangeWithContext (UpdateMsg (cl_Zone c) ns (cl_tsig c)));
  checkResponse (Some resp).

Definition Ping : Op W unit :=
  resp ← op_wrap (DWrap2 ErrConnectionFailed)
           (exchangeWithContext (QueryMsg (cl_Zone c) TypeSOA));
  if (Rcode resp =? RcodeSuccess)%Z then mret tt
  else op_fail (DMark ErrConnectionFailed ("server returned " ++s RcodeToString (Rcode resp))).

Definition Create (record : ZRecord) : Op W unit :=
  _ ← validateRecord record;
  rr ← op_wrap (DWrapf "invalid record: ") (op_lift (ToRR record));
  sendUpdate [UInsert rr].

Definition Update (oldRecord newRecord : ZRecord) : Op W unit :=
  _ ← op_wrap (DWrapf "invalid old record: ") (validateRecord oldRecord);
  _ ← op_wrap (DWrapf "invalid new record: ") (validateRecord newRecord);
  oldRR ← op_wrap (DWrapf "invalid old record: ") (op_lift (ToRR oldRecord));
  newRR ← op_wrap (DWrapf "invalid new record: ") (op_lift (ToRR newRecord));
  sendUpdate [URemove oldRR; UInsert newRR].

Definition Delete (record : ZRecord) : Op W unit :=
  _ ← validateRecord record;
  rr ← op_wrap (DWrapf "invalid record: ") (op_lift (ToRR record));
  sendUpdate [URemove rr].

Definition DeleteAll (name : string) (recordType : Z) : Op W unit :=
  let fqdn := ensureFQDN name in
  if negb (isInZone fqdn) then op_fail (zoneMismatch fqdn)
  else sendUpdate [UDeleteRRset fqdn recordType].

(** The records that can be read; the others are logged and skipped. *)
Fixpoint readRecords (l : list RR) : list ZRecord :=
  match l with
  | [] => []
  | rr :: l =>
      match RecordFromRR rr with
      | inl r => r :: readRecords l
      | inr _ => readRecords l
      end
  end.

Definition Query (name : string) (recordType : Z) : Op W (list ZRecord) :=
  resp ← op_wrap (DWrapf "dns query failed: ")
           (exchangeWithContext (QueryMsg (ensureFQDN name) recordType));
  if (Rcode resp =? RcodeNameError)%Z then mret []
  else if negb (Rcode resp =? RcodeSuccess)%Z
  then op_fail (DNew ("dns query returned " ++s RcodeToString (Rcode resp)))
  else mret (readRecords (Answer resp)).

(** The records of one envelope, without the zone's own SOA and NS records. *)
Definition is_infrastructure (rr : RR) : bool :=
  (hdr_Rrtype (rr_Hdr rr) =? TypeSOA)%Z || (hdr_Rrtype (rr_Hdr rr) =? TypeNS)%Z.

Definition readEnvelope (e : list RR + derror) : list ZRecord :=
  match e with
  | inr _ => []
  | inl rrs => readRecords (List.filter (λ rr, negb (is_infrastructure rr)) rrs)
  end.

Definition ListByAXFR : Op W (list ZRecord) := λ w,
  match transfer_In (cl_Zone c) (cl_tsig c) w with
  | (inr err, w') => (Err (DWrap2 ErrAXFRFailed err), w')
  | (inl env, w') => (Ok (List.flat_map readEnvelope env), w')
  end.

Definition Zone : string := cl_Zone c.
End Client.

Section Rcodes.
Context `{DnsNames}.

Definition RcodeToError (rcode : Z) : nilable derror :=
  if (rcode =? RcodeSuccess)%Z then None
  else if (rcode =? RcodeYXRrset)%Z then Some (DSentinel ErrRecordExists)
  else if (rcode =? RcodeNXRrset)%Z then Some (DSentinel ErrRecordNotFound)
  else if (rcode =? RcodeNotAuth)%Z then Some (DSentinel ErrAuthenticationFailed)
  else Some (DMark ErrUpdateFailed (RcodeToString rcode)).

Definition IsAuthError (err : derror) : bool := derror_Is err ErrAuthenticationFailed.
End Rcodes.

(** ** What a DNS server does *)

(** Zone data: for each owner name (in lower case: names are compared without
    case) and type, TTLs and record data. *)
Abbreviation ZoneData := (gmap (string * Z) (list (Z * RRData))).

Definition rrset (z : ZoneData) (name : string) (t : Z) : list (Z * RRData) :=
  default [] (z !! (ToLower name, t)).

(** Whether a name has data of other types than [t]. *)
Definition other_data (z : ZoneData) (name : string) (t : Z) : bool :=
  existsb (λ kv, (kv.1.1 == ToLower name) && negb (kv.1.2 =? t)%Z && negb (bool_decide (kv.2 = [])))
          (map_to_list z).

(** RFC 2136, section 3.4.2: adding a record (a CNAME does not coexist with
    other data, and there is one per name), removing one, removing an RRset. *)
Definition zone_update (z : ZoneData) (u : UpdateRR) : ZoneData :=
  match u with
  | UInsert rr =>
      let n := ToLower (hdr_Name (rr_Hdr rr)) in
      let t := hdr_Rrtype (rr_Hdr rr) in
      let e := (hdr_Ttl (rr_Hdr rr), rr_Data rr) in
      if (t =? TypeCNAME)%Z then
        if other_data z n t then z else <[(n, t) := [e]]> z
      else if negb (bool_decide (rrset z n TypeCNAME = [])) then z
      else <[(n, t) := List.filter (λ x, negb (bool_decide (x.2 = rr_Data rr))) (rrset z n t) ++ [e]]> z
  | URemove rr =>
      let n := ToLower (hdr_Name (rr_Hdr rr)) in
      let t := hdr_Rrtype (rr_Hdr rr) in
      <[(n, t) := List.filter (λ x, negb (bool_decide (x.2 = rr_Data rr))) (rrset z n t)]> z
  | UDeleteRRset n t => delete (ToLower n, t) z
  end.

(** The answer to a query: the records of the RRset under the name asked for. *)
Definition answer_rrs (z : ZoneData) (name : string) (t : Z) : list RR :=
  map (λ e, mkRR (mkHdr name t ClassINET e.1) e.2) (rrset z name t).

(** How large an answer can be, in bytes of a message: a header of 12, the
    question, and the records, each with its name in full, ten bytes, and its
    data.  Data whose size is not known count as too large. *)
Definition name_size (n : string) : Z := Z.of_nat (String.length n) + 2.
Definition rdata_size (d : RRData) : Z :=
  match d with
  | RDA _ => 4
  | RDAAAA _ => 16
  | RDCNAME n | RDPTR n | RDNS n => name_size n
  | RDTXT txt => fold_right (λ t acc, Z.of_nat (String.length t) + 1 + acc)%Z 0%Z txt
  | RDMX _ n => 2 + name_size n
  | RDSRV _ _ _ n => 6 + name_size n
  | RDCAA _ tag value => 2 + Z.of_nat (String.length tag) + Z.of_nat (String.length value)
  | RDOther _ => 65536
  end.
Definition answer_size (z : ZoneData) (name : string) (t : Z) : Z :=
  12 + (name_size name + 4) +
  fold_right (λ e acc, name_size name + 10 + rdata_size e.2 + acc)%Z 0%Z (rrset z name t).

(** A server's promise.  Queries change nothing; an answer without error holds
    records of the RRset asked for (where the name is not an alias), and a
    name error means that there is none.  The RRset is whole, in any order,
    when the transport can carry it; otherwise the answer may be truncated, to
    nothing even (RFC 1035, section 4.2.1: 512 bytes over UDP; a query has no
    EDNS0 option, and the client does not look at the truncation bit).  An
    update takes effect as a whole when it is acknowledged, not at all when it
    is refused, and one or the other when no response arrives. *)
Class DnsServerLaws (W : Type) `{DnsServer W} := {
  zone_of : W → ZoneData;
  answer_limit : Z;
  query_law n t w r w' :
    exchange (QueryMsg n t) w = (r, w') →
    zone_of w' = zone_of w ∧
    ∀ resp, r = inl resp →
      (Rcode resp = RcodeNameError → rrset (zone_of w) n t = []) ∧
      (Rcode resp = RcodeSuccess → t = TypeCNAME ∨ rrset (zone_of w) n TypeCNAME = [] →
       Answer resp ⊆+ answer_rrs (zone_of w) n t ∧
       ((answer_size (zone_of w) n t <= answer_limit)%Z → Answer resp ≡ₚ answer_rrs (zone_of w) n t));
  update_law z ns ts w r w' :
    exchange (UpdateMsg z ns ts) w = (r, w') →
    match r with
    | inl resp =>
        zone_of w' = (if (Rcode resp =? RcodeSuccess)%Z
                      then fold_left zone_update ns (zone_of w) else zone_of w)
    | inr _ => zone_of w' = zone_of w ∨ zone_of w' = fold_left zone_update ns (zone_of w)
    end
}.

(** The answer fits the transport of the server. *)
Definition answer_fits {W} `{DnsServerLaws W} (z : ZoneData) (name : string) (t : Z) : Prop :=
  (answer_size z name t <= answer_limit (W:=W))%Z.

(** A server on zone data, reached over TCP, with a script of failing exchanges: at [true] no
    response arrives and nothing is done; at the end of the script all
    exchanges succeed. *)
Record ZoneWorld := mkZW { zw_zone : ZoneData; zw_down : list bool }.

#[export] Instance zone_server : DnsServer ZoneWorld := {|
  exchange msg w :=
    match zw_down w with
    | true :: down => (inr (DNew "i/o timeout"), mkZW (zw_zone w) down)
    | _ =>
        let down := List.tl (zw_down w) in
        match msg with
        | QueryMsg n t => (inl (mkResp RcodeSuccess (answer_rrs (zw_zone w) n t) false),
                           mkZW (zw_zone w) down)
        | UpdateMsg _ ns _ => (inl (mkResp RcodeSuccess [] false),
                               mkZW (fold_left zone_update ns (zw_zone w)) down)
        end
    end;
  transfer_In _ _ w := (inr (DNew "transfer refused"), w)
|}.

#[export] Instance zone_server_laws : DnsServerLaws ZoneWorld.
Proof.
  refine {| zone_of := zw_zone; answer_limit := 65535 |}; simpl.
  - intros n t w r w'. destruct (zw_down w) as [|[] down]; intros [= <- <-]; (split; [done|]).
    all: intros resp [= <-]; simpl; (split; [done|]; intros _ _; by split).
  - intros z ns ts w r w'. destruct (zw_down w) as [|[] down]; intros [= <- <-]; simpl; [done|by left|done].
Defined.

(** The tables of the DNS library for the types of the program. *)
Definition some_names : DnsNames := {|
  TypeToString t :=
    if (t =? TypeA)%Z then Some "A" else if (t =? TypeAAAA)%Z then Some "AAAA"
    else if (t =? TypeCNAME)%Z then Some "CNAME" else if (t =? TypeTXT)%Z then Some "TXT"
    else if (t =? TypeSRV)%Z then Some "SRV" else None;
  StringToTypeTable s :=
    if s == "A" then Some TypeA else if s == "AAAA" then Some TypeAAAA
    else if s == "CNAME" then Some TypeCNAME else if s == "TXT" then Some TypeTXT
    else if s == "SRV" then Some TypeSRV else None;
  RcodeToString _ := "ERROR"
|}.

(** ** Running operations *)

Section Running.
Context {S : Type}.

Lemma op_bind_ok {A B} (m : Op S A) (k : A → Op S B) s b s' :
  (m ≫= k) s = (Ok b, s') ↔ ∃ a s1, m s = (Ok a, s1) ∧ k a s1 = (Ok b, s').
Proof.
  unfold mbind, Op_bind. split.
  - destruct (m s) as [[a|e| |] s1]; intros; simplify_eq; eauto.
  - intros (a & s1 & -> & ?). done.
Qed.

Lemma op_wrap_ok {A} f (m : Op S A) s a s' : op_wrap f m s = (Ok a, s') ↔ m s = (Ok a, s').
Proof. unfold op_wrap, op_catch, op_fail. destruct (m s) as [[x|e| |] s1]; naive_solver. Qed.

Lemma op_lift_ok {A} (r : A + derror) (s : S) (a : A) (s' : S) :
  op_lift r s = (Ok a, s') ↔ r = inl a ∧ s' = s.
Proof. destruct r; unfold op_lift, mret, Op_ret, op_fail; naive_solver. Qed.

Lemma op_bind_run {A B} (m : Op S A) (k : A → Op S B) s a s1 :
  m s = (Ok a, s1) → (m ≫= k) s = k a s1.
Proof. unfold mbind, Op_bind. by intros ->. Qed.

Lemma op_bind_err {A B} (m : Op S A) (k : A → Op S B) s e s1 :
  m s = (Err e, s1) → (m ≫= k) s = (Err e, s1).
Proof. unfold mbind, Op_bind. by intros ->. Qed.

Lemma op_wrap_run {A} f (m : Op S A) s a s1 : m s = (Ok a, s1) → op_wrap f m s = (Ok a, s1).
Proof. unfold op_wrap, op_catch. by intros ->. Qed.

Lemma op_wrap_err {A} f (m : Op S A) s e s1 : m s = (Err e, s1) → op_wrap f m s = (Err (f e), s1).
Proof. unfold op_wrap, op_catch. by intros ->. Qed.

(** Every run ends with a result or an error. *)
Definition completes {A} (r : outcome A) : Prop :=
  match r with Ok _ | Err _ => True | _ => False end.
End Running.

(** ** What the client's operations do *)

Section ClientFacts.
Context `{DnsNames} {W : Type} `{DnsServer W} `{!DnsServerLaws W}.
Context (c : Client).
Implicit Types (w : W) (r : ZRecord).

Lemma checkResponse_ok resp w u w' :
  checkResponse (Some resp) w = (Ok u, w') → Rcode resp = RcodeSuccess ∧ w' = w.
Proof.
  unfold checkResponse. destruct (Z.eqb_spec (Rcode resp) RcodeSuccess); [by intros [= _ <-]|].
  repeat case_match; done.
Qed.

Lemma checkResponse_state resp w : (checkResponse resp w).2 = w.
Proof. unfold checkResponse. repeat case_match; done. Qed.

(** An update that is acknowledged has been applied; one that fails has been
    applied or not. *)
Lemma send_law f z ts ns w o w' :
  (op_wrap f (exchangeWithContext (UpdateMsg z ns ts)) ≫= λ resp, checkResponse (Some resp)) w
    = (o, w') →
  match o with
  | Ok _ => zone_of w' = fold_left zone_update ns (zone_of w)
  | Err _ => zone_of w' = zone_of w ∨ zone_of w' = fold_left zone_update ns (zone_of w)
  | _ => False
  end.
Proof.
  unfold mbind, Op_bind, op_wrap, op_catch, exchangeWithContext.
  destruct (exchange _ w) as [[resp|e] w1] eqn:E; apply update_law in E.
  2: { unfold op_fail. by intros [= <- <-]. }
  intros Hc. pose proof (checkResponse_state (Some resp) w1) as Hs. rewrite Hc in Hs. simpl in Hs.
  subst w1. destruct o as [u|e| |].
  - apply checkResponse_ok in Hc as [Hr _]. by rewrite Hr in E.
  - rewrite E. destruct (_ =? _)%Z; [by right|by left].
  - exfalso. revert Hc. unfold checkResponse. repeat case_match; done.
  - exfalso. revert Hc. unfold checkResponse. repeat case_match; done.
Qed.

Lemma sendUpdate_law ns w o w' :
  sendUpdate c ns w = (o, w') →
  match o with
  | Ok _ => zone_of w' = fold_left zone_update ns (zone_of w)
  | Err _ => zone_of w' = zone_of w ∨ zone_of w' = fold_left zone_update ns (zone_of w)
  | _ => False
  end.
Proof. apply send_law. Qed.

Lemma ensureFQDN_id n : HasSuffix n "." = true → ensureFQDN n = n.
Proof. unfold ensureFQDN. by intros ->. Qed.

Lemma readRecords_perm l l' : l ≡ₚ l' → readRecords l ≡ₚ readRecords l'.
Proof.
  induction 1; simpl; [done| | |by etrans].
  - destruct (RecordFromRR x); [by constructor|done].
  - destruct (RecordFromRR x), (RecordFromRR y); first [apply perm_swap|reflexivity].
Qed.

Lemma elem_of_readRecords l r : r ∈ readRecords l ↔ ∃ rr, rr ∈ l ∧ RecordFromRR rr = inl r.
Proof.
  induction l as [|x l IH]; simpl; [split; [by intros ?%not_elem_of_nil|by intros (? & ?%not_elem_of_nil & _)]|].
  destruct (RecordFromRR x) eqn:E; rewrite ?elem_of_cons, IH; split.
  - intros [->|(y & ? & ?)]; [exists x|exists y]; rewrite elem_of_cons; auto.
  - intros (y & [->|?]%elem_of_cons & ?); [left; congruence|eauto].
  - intros (y & ? & ?). exists y. rewrite elem_of_cons. auto.
  - intros (y & [->|?]%elem_of_cons & ?); [congruence|eauto].
Qed.

(** A query changes nothing, and returns records of the RRset, all of them if
    they fit. *)
Lemma Query_law n t w o w' :
  Query n t w = (o, w') →
  t = TypeCNAME ∨ rrset (zone_of w) (ensureFQDN n) TypeCNAME = [] →
  zone_of w' = zone_of w ∧ completes o ∧
  ∀ l, o = Ok l →
    (∃ part, part ⊆+ answer_rrs (zone_of w) (ensureFQDN n) t ∧ l = readRecords part) ∧
    (answer_fits (W:=W) (zone_of w) (ensureFQDN n) t → l ≡ₚ readRecords (answer_rrs (zone_of w) (ensureFQDN n) t)).
Proof.
  unfold Query, mbind, Op_bind, op_wrap, op_catch, exchangeWithContext. intros Hq Ha. revert Hq.
  destruct (exchange _ w) as [[resp|e] w1] eqn:E; apply query_law in E as [Hz Hr].
  2: { unfold op_fail. by intros [= <- <-]. }
  destruct (Hr _ eq_refl) as [Hnx Hok].
  destruct (Z.eqb_spec (Rcode resp) RcodeNameError) as [Hn|].
  { intros [= <- <-]. split_and!; [done..|]. intros l [= <-]. specialize (Hnx Hn).
    unfold answer_rrs. rewrite Hnx. split; [|done]. exists []. by split. }
  destruct (Z.eqb_spec (Rcode resp) RcodeSuccess) as [Hs|]; simpl.
  - intros [= <- <-]. split_and!; [done..|]. intros l [= <-]. destruct (Hok Hs Ha) as [Hsub Hall].
    split; [by exists (Answer resp)|]. intros Hfit. by apply readRecords_perm, Hall.
  - unfold op_fail. by intros [= <- <-].
Qed.
End ClientFacts.

(** ** Zone data after an update *)

Section ZoneFacts.
Implicit Types (z : ZoneData) (n m : string).

Lemma rrset_lower z n t : rrset z (ToLower n) t = rrset z n t.
Proof. unfold rrset. by rewrite ToLower_idem. Qed.

Lemma rrset_delete z n t m t' :
  rrset (zone_update z (UDeleteRRset n t)) m t' =
  if bool_decide (ToLower m = ToLower n ∧ t' = t) then [] else rrset z m t'.
Proof.
  unfold rrset. simpl. case_bool_decide as Hd.
  - destruct Hd as [-> ->]. by rewrite lookup_delete_eq.
  - rewrite lookup_delete_ne; [done|]. intros [= ? ?]. by apply Hd.
Qed.

Lemma rrset_put z n t l m t' :
  rrset (<[(ToLower n, t) := l]> z) m t' =
  if bool_decide (ToLower m = ToLower n ∧ t' = t) then l else rrset z m t'.
Proof.
  unfold rrset. case_bool_decide as Hd.
  - destruct Hd as [-> ->]. by rewrite lookup_insert_eq.
  - rewrite lookup_insert_ne; [done|]. intros [= ? ?]. by apply Hd.
Qed.

(** The name an update is about; the others keep their data. *)
Definition update_name (u : UpdateRR) : string :=
  match u with
  | UInsert rr | URemove rr => hdr_Name (rr_Hdr rr)
  | UDeleteRRset n _ => n
  end.

Lemma rrset_update_other z u m t :
  ToLower m ≠ ToLower (update_name u) → rrset (zone_update z u) m t = rrset z m t.
Proof.
  intros Hne. destruct u as [rr|rr|n t']; simpl in *.
  - destruct (_ =? _)%Z.
    + destruct (other_data _ _ _); [done|]. rewrite rrset_put, bool_decide_false; naive_solver.
    + destruct (negb _); [done|]. rewrite rrset_put, bool_decide_false; naive_solver.
  - rewrite rrset_put, bool_decide_false; naive_solver.
  - change (delete (ToLower n, t') z) with (zone_update z (UDeleteRRset n t')).
    rewrite rrset_delete, bool_decide_false; naive_solver.
Qed.

(** Whether a server accepts a record beside what a name holds. *)
Definition insertable z (rr : RR) : Prop :=
  if (hdr_Rrtype (rr_Hdr rr) =? TypeCNAME)%Z
  then other_data z (hdr_Name (rr_Hdr rr)) TypeCNAME = false
  else rrset z (hdr_Name (rr_Hdr rr)) TypeCNAME = [].

Lemma other_data_lower z n t : other_data z (ToLower n) t = other_data z n t.
Proof. unfold other_data. by rewrite ToLower_idem. Qed.

Lemma zone_insert z rr :
  insertable z rr →
  ∃ l, zone_update z (UInsert rr) =
         <[(ToLower (hdr_Name (rr_Hdr rr)), hdr_Rrtype (rr_Hdr rr)) :=
             l ++ [(hdr_Ttl (rr_Hdr rr), rr_Data rr)]]> z ∧
       (hdr_Rrtype (rr_Hdr rr) ≠ TypeCNAME →
        l = List.filter (λ x, negb (bool_decide (x.2 = rr_Data rr)))
              (rrset z (hdr_Name (rr_Hdr rr)) (hdr_Rrtype (rr_Hdr rr)))).
Proof.
  unfold insertable, zone_update. rewrite other_data_lower, !rrset_lower.
  destruct (Z.eqb_spec (hdr_Rrtype (rr_Hdr rr)) TypeCNAME) as [->|].
  - intros ->. by exists [].
  - intros ->. rewrite bool_decide_true by done. simpl. eauto.
Qed.

Lemma rrset_insert z rr m t :
  insertable z rr →
  ¬ (ToLower m = ToLower (hdr_Name (rr_Hdr rr)) ∧ t = hdr_Rrtype (rr_Hdr rr)) →
  rrset (zone_update z (UInsert rr)) m t = rrset z m t.
Proof.
  intros Hi Hne. destruct (zone_insert z rr Hi) as (l & -> & _).
  by rewrite rrset_put, bool_decide_false.
Qed.

Lemma rrset_insert_here z rr :
  insertable z rr →
  (hdr_Ttl (rr_Hdr rr), rr_Data rr)
    ∈ rrset (zone_update z (UInsert rr)) (hdr_Name (rr_Hdr rr)) (hdr_Rrtype (rr_Hdr rr)).
Proof.
  intros Hi. destruct (zone_insert z rr Hi) as (l & -> & _).
  rewrite rrset_put, bool_decide_true by done. rewrite elem_of_app. right. by left.
Qed.
End ZoneFacts.

Section ClientTheorems.
Context `{DnsNames} {W : Type} `{DnsServer W} `{!DnsServerLaws W}.
Context (c : Client).
Implicit Types (w : W) (r : ZRecord).

Lemma ToRR_header r rr :
  ToRR r = inl rr → rr_Hdr rr = mkHdr (with_dot (zr_Name r)) (zr_Type r) ClassINET (zr_TTL r).
Proof. unfold ToRR. intros H1. repeat case_match; simplify_eq; done. Qed.

Lemma ensureFQDN_with_dot n : ensureFQDN n = with_dot n.
Proof. unfold ensureFQDN, with_dot. by destruct (HasSuffix n "."). Qed.

Lemma validateRecord_ok r w u w' :
  validateRecord c r w = (Ok u, w') → zr_Name r ≠ "" ∧ isInZone c (with_dot (zr_Name r)) = true ∧ w' = w.
Proof.
  unfold validateRecord. rewrite ensureFQDN_with_dot.
  destruct (String.eqb_spec (zr_Name r) ""); [done|].
  destruct (isInZone c (with_dot (zr_Name r))); [|done]. by intros [= _ <-].
Qed.

Lemma validateRecord_cases r w :
  (validateRecord c r w = (Ok tt, w) ∧ isInZone c (with_dot (zr_Name r)) = true)
  ∨ ∃ e, validateRecord c r w = (Err e, w).
Proof.
  unfold validateRecord. rewrite ensureFQDN_with_dot. destruct (_ == ""); [by right; eexists|].
  destruct (isInZone c _); [by left|by right; eexists].
Qed.

Lemma Create_ok r w u w' :
  Create c r w = (Ok u, w') →
  isInZone c (with_dot (zr_Name r)) = true ∧
  ∃ rr, ToRR r = inl rr ∧ zone_of w' = zone_update (zone_of w) (UInsert rr).
Proof.
  unfold Create. rewrite op_bind_ok. intros (u1 & w1 & Hv%validateRecord_ok & Hr).
  destruct Hv as (_ & Hz & ->). split; [done|]. revert Hr. rewrite op_bind_ok.
  intros (rr & w2 & Hrr & Hs). apply op_wrap_ok, op_lift_ok in Hrr as [Hrr ->].
  apply sendUpdate_law in Hs. by exists rr.
Qed.

(** What an operation with one record does: the update it sends. *)
Definition one_update (mk : RR → UpdateRR) r w {A} (o : outcome A) w' : Prop :=
  let applied := ∃ rr, ToRR r = inl rr ∧ isInZone c (with_dot (zr_Name r)) = true ∧
                       zone_of w' = zone_update (zone_of w) (mk rr) in
  match o with
  | Ok _ => applied
  | Err _ => zone_of w' = zone_of w ∨ applied
  | _ => False
  end.

Lemma one_update_law mk r w o w' :
  (validateRecord c r ≫= λ _, op_wrap (DWrapf "invalid record: ") (op_lift (ToRR r)) ≫= λ rr,
     sendUpdate c [mk rr]) w = (o, w') →
  one_update mk r w o w'.
Proof.
  unfold mbind, Op_bind at 1 2, op_wrap, op_catch, one_update.
  destruct (validateRecord_cases r w) as [[-> Ho]|[e ->]]; [|intros [= <- <-]; by left].
  destruct (ToRR r) as [rr|e]; [|intros [= <- <-]; by left].
  simpl. intros Hs%sendUpdate_law. destruct o; [naive_solver| |done..].
  destruct Hs as [?|?]; [by left|right; eauto].
Qed.

Lemma Create_law r w o w' : Create c r w = (o, w') → one_update UInsert r w o w'.
Proof. apply one_update_law. Qed.

Lemma Delete_law r w o w' : Delete c r w = (o, w') → one_update URemove r w o w'.
Proof. apply one_update_law. Qed.

(** What is created can be read back.  After a successful [Create] on a
    server that keeps its promise, where the name can hold the record and the
    answer fits, a
    successful [Query] of the name and type returns the record, in the form
    [ToRR_roundtrip] describes; a record in wire form is returned as it is. *)
Theorem Create_then_Query r w u w1 l w2 :
  Create c r w = (Ok u, w1) →
  (∀ rr, ToRR r = inl rr → insertable (zone_of w) rr) →
  Query (zr_Name r) (zr_Type r) w1 = (Ok l, w2) →
  answer_fits (W:=W) (zone_of w1) (ensureFQDN (zr_Name r)) (zr_Type r) →
  (∃ rr r', ToRR r = inl rr ∧ RecordFromRR rr = inl r' ∧ r' ∈ l) ∧ (wire_form r → r ∈ l).
Proof.
  intros (_ & rr & Hrr & Hz)%Create_ok Hi Hq Hfit. specialize (Hi _ Hrr).
  pose proof (ToRR_header _ _ Hrr) as Hh.
  destruct (Query_law _ _ _ _ _ Hq) as (_ & _ & Hl).
  { destruct (decide (zr_Type r = TypeCNAME)) as [|Hne]; [by left|right].
    rewrite Hz, ensureFQDN_with_dot, rrset_insert by (done || rewrite Hh; simpl; naive_solver).
    unfold insertable in Hi. rewrite Hh in Hi. simpl in Hi.
    by rewrite (proj2 (Z.eqb_neq _ _) Hne) in Hi. }
  destruct (ToRR_roundtrip _ _ Hrr) as (r' & Hr' & _ & _ & _ & _ & Hw).
  assert (r' ∈ l) as Hin; [|split; [by exists rr, r'|by intros <-%Hw]].
  rewrite (proj2 (Hl _ eq_refl) Hfit), elem_of_readRecords. exists rr. split; [|done].
  unfold answer_rrs. apply list_elem_of_fmap. exists (hdr_Ttl (rr_Hdr rr), rr_Data rr).
  pose proof (rrset_insert_here (zone_of w) rr Hi) as Hin.
  rewrite Hh in Hin. simpl in Hin. rewrite Hz, ensureFQDN_with_dot, Hh. simpl. split; [|done].
  destruct rr as [h d]. simpl in *. by rewrite Hh.
Qed.

End ClientTheorems.
