(* ===== verification/Catalog.v ===== *)
(** * The RFC 2136 catalog (pkg/dnsupdate/catalog.go)

    A zone has no way to list the names that dnsweaver manages, so they are
    kept in TXT records, the chunks _dnsweaver-catalog-0, -1, ... of the
    zone, with a cache of their contents in the process.  Operations act on
    the server and the cache. *)
From S2P Require Import Prelude GoStrings GoMaps DnsRecord DnsClient.
From Stdlib Require Import ZArith.

Definition CatalogPrefix : string := "_dnsweaver-catalog-".
Definition CatalogMaxChunkBytes : Z := 3500.
Definition CatalogMaxHostnameLen : Z := 253.
Definition CatalogChunkSize : Z := 100.
Definition CatalogTTL : Z := 300.

Definition zlen (s : string) : Z := Z.of_nat (String.length s).

(** ** Names and sizes *)

Fixpoint chunkBytes (chunk : list string) : Z :=
  match chunk with
  | [] => 0
  | h :: chunk => (zlen h + 1 + chunkBytes chunk)%Z
  end.

Definition chunkByteSize (chunk : list string) : Z :=
  if (length chunk =? 0)%nat then 0%Z else chunkBytes chunk.

Definition canFitInChunk (chunk : list string) (hostname : string) : bool :=
  if (CatalogChunkSize <=? Z.of_nat (length chunk))%Z then false
  else (chunkByteSize chunk + (zlen hostname + 1) <=? CatalogMaxChunkBytes)%Z.

Definition parseTXTHostnames (rdata : string) : list string :=
  if rdata == "" then []
  else List.filter (λ p, p != "") (map TrimSpace (Fields rdata)).

Definition normalizeHostname (hostname : string) : string :=
  ToLower (TrimSuffix hostname ".").

(** ** The cache *)

Record Catalog := mkCatalog {
  cat_chunks : list (list string);
  cat_hostnames : gmap string nat;
  cat_loaded : bool
}.

Definition NewCatalog : Catalog := mkCatalog [] ∅ false.

Definition set_chunks (l : list (list string)) (c : Catalog) : Catalog :=
  mkCatalog l (cat_hostnames c) (cat_loaded c).
Definition set_hostnames (m : gmap string nat) (c : Catalog) : Catalog :=
  mkCatalog (cat_chunks c) m (cat_loaded c).
Definition set_loaded (b : bool) (c : Catalog) : Catalog :=
  mkCatalog (cat_chunks c) (cat_hostnames c) b.

(** [for _, hostname := range chunk { hostnames[hostname] = i }] *)
Definition index_chunk (i : nat) (chunk : list string) (m : gmap string nat) : gmap string nat :=
  fold_left (λ m h, <[h := i]> m) chunk m.

(** The index of a list of chunks, from position [i] on. *)
Fixpoint index_from (i : nat) (chunks : list (list string)) (m : gmap string nat)
  : gmap string nat :=
  match chunks with
  | [] => m
  | chunk :: chunks => index_from (S i) chunks (index_chunk i chunk m)
  end.
Definition index_chunks (chunks : list (list string)) : gmap string nat := index_from 0 chunks ∅.

Definition reindexAfterDelete (deletedIndex : nat) (c : Catalog) : Catalog :=
  let chunks := take deletedIndex (cat_chunks c) ++ drop (S deletedIndex) (cat_chunks c) in
  mkCatalog chunks (index_chunks chunks) (cat_loaded c).

(** The names of the index, sorted. *)
Definition sorted_names (c : Catalog) : list string :=
  sort_Strings (map fst (map_to_list (cat_hostnames c))).

(** The first chunk with room. *)
Fixpoint firstFit (i : nat) (chunks : list (list string)) (hostname : string) : option nat :=
  match chunks with
  | [] => None
  | chunk :: chunks =>
      if canFitInChunk chunk hostname then Some i else firstFit (S i) chunks hostname
  end.

(** One step of the packing loop of [Compact], on the finished chunks and the
    current one, and its end. *)
Definition packStep (st : list (list string) * list string) (hostname : string)
  : list (list string) * list string :=
  let '(newChunks, currentChunk) := st in
  if negb (length currentChunk =? 0)%nat && negb (canFitInChunk currentChunk hostname)
  then (newChunks ++ [currentChunk], [hostname])
  else (newChunks, currentChunk ++ [hostname]).

Definition packChunks (allHostnames : list string) : list (list string) :=
  let '(newChunks, currentChunk) := fold_left packStep allHostnames ([], []) in
  let newChunks := if negb (length currentChunk =? 0)%nat
                   then newChunks ++ [currentChunk] else newChunks in
  if (length newChunks =? 0)%nat then [[]] else newChunks.

Record CatalogStats := mkStats {
  st_Loaded : bool;
  st_ChunkCount : nat;
  st_TotalHostnames : nat;
  st_TotalBytesUsed : Z;
  st_MaxChunkBytes : Z;
  st_MaxChunkCount : Z;
  st_MaxHostnameLen : Z;
  st_ChunkBytesUsed : list Z;
  st_ChunkHostnameCount : list nat
}.

Definition Stats (c : Catalog) : CatalogStats :=
  mkStats (cat_loaded c) (length (cat_chunks c)) (size (cat_hostnames c))
          (foldr Z.add 0%Z (map chunkByteSize (cat_chunks c)))
          CatalogMaxChunkBytes CatalogChunkSize CatalogMaxHostnameLen
          (map chunkByteSize (cat_chunks c)) (map length (cat_chunks c)).

(** ** Operations *)

Section Operations.
Context `{DnsNames} {W : Type} `{DnsServer W}.
(** The client, the zone, and the budget of the loading loop. *)
Context (client : Client) (zone : string) (fuel : nat).
Abbreviation COp := (Op (W * Catalog)).

Definition on_client {A} (m : Op W A) : COp A := op_fst m.
Definition cat_get : COp Catalog := λ s, (Ok s.2, s).
Definition cat_modify (f : Catalog → Catalog) : COp unit := λ s, (Ok tt, (s.1, f s.2)).

Definition chunkRecordName (chunkIndex : nat) : string :=
  CatalogPrefix ++s itoa (Z.of_nat chunkIndex) ++s "." ++s zone.

(** The names in the TXT records of a chunk. *)
Definition chunkHostnames (records : list ZRecord) : list string :=
  List.flat_map (λ r, if (zr_Type r =? TypeTXT)%Z then parseTXTHostnames (zr_RData r) else [])
                records.

Fixpoint loadChunks (fuel chunkIndex : nat) : COp unit :=
  match fuel with
  | O => op_diverge
  | S fuel =>
      records ← op_wrap (DWrapf ("querying catalog chunk " ++s itoa (Z.of_nat chunkIndex) ++s ": "))
                  (on_client (Query (chunkRecordName chunkIndex) TypeTXT));
      if (length records =? 0)%nat then mret tt
      else
        let names := chunkHostnames records in
        _ ← cat_modify (λ c, mkCatalog (cat_chunks c ++ [names])
                                       (index_chunk chunkIndex names (cat_hostnames c))
                                       (cat_loaded c));
        loadChunks fuel (S chunkIndex)
  end.

Definition loadLocked : COp unit :=
  _ ← cat_modify (λ _, mkCatalog [] ∅ false);
  _ ← loadChunks fuel 0;
  cat_modify (set_loaded true).

(** [if !c.loaded { c.loadLocked(ctx) }] *)
Definition ensureLoaded (wrap : derror → derror) : COp unit :=
  c ← cat_get;
  if cat_loaded c then mret tt else op_wrap wrap loadLocked.

Definition Hostnames : COp (list string) :=
  _ ← ensureLoaded id;
  c ← cat_get;
  mret (sorted_names c).

Definition Contains (hostname : string) : COp bool :=
  _ ← ensureLoaded id;
  c ← cat_get;
  mret (bool_decide (is_Some (cat_hostnames c !! normalizeHostname hostname))).

(** The update messages of a chunk. *)
Definition sendChunk (ns : list UpdateRR) : Op W unit :=
  resp ← op_wrap (DWrapf "dns update failed: ")
           (exchangeWithContext (UpdateMsg zone ns (cl_tsig client)));
  checkResponse (Some resp).

Definition chunkRR (chunkIndex : nat) (txtStrings : list string) : RR :=
  mkRR (mkHdr (chunkRecordName chunkIndex) TypeTXT ClassINET CatalogTTL) (RDTXT txtStrings).

Definition writeChunk (chunkIndex : nat) : COp unit :=
  c ← cat_get;
  match cat_chunks c !! chunkIndex with
  | None => op_panic
  | Some chunk =>
      let txtStrings := sort_Strings chunk in
      on_client (sendChunk
        (UDeleteRRset (chunkRecordName chunkIndex) TypeTXT ::
         if (0 <? length txtStrings)%nat then [UInsert (chunkRR chunkIndex txtStrings)] else []))
  end.

Definition deleteChunk (chunkIndex : nat) : COp unit :=
  on_client (sendChunk [UDeleteRRset (chunkRecordName chunkIndex) TypeTXT]).

Definition Add (hostname : string) : COp unit :=
  let hostname := normalizeHostname hostname in
  if (CatalogMaxHostnameLen <? zlen hostname)%Z then op_fail (DSentinel ErrHostnameTooLong)
  else
    _ ← op_wrap (DWrapf "loading catalog: ") loadLocked;
    c ← cat_get;
    match cat_hostnames c !! hostname with
    | Some _ => mret tt
    | None =>
        let '(targetChunk, chunks) :=
          match firstFit 0 (cat_chunks c) hostname with
          | Some i => (i, cat_chunks c)
          | None => (length (cat_chunks c), cat_chunks c ++ [[]])
          end in
        match chunks !! targetChunk with
        | None => op_panic
        | Some chunk =>
            _ ← cat_modify (λ c, mkCatalog (<[targetChunk := chunk ++ [hostname]]> chunks)
                                           (<[hostname := targetChunk]> (cat_hostnames c))
                                           (cat_loaded c));
            op_catch (writeChunk targetChunk) (λ e,
              _ ← cat_modify (λ c, mkCatalog (<[targetChunk := chunk]> (cat_chunks c))
                                             (delete hostname (cat_hostnames c))
                                             (cat_loaded c));
              op_fail (DWrapf ("writing catalog chunk " ++s itoa (Z.of_nat targetChunk) ++s ": ") e))
        end
    end.

(** The rollback of [Remove]. *)
Definition restoreChunk (hostname : string) (chunkIndex : nat) (chunk : list string) : COp unit :=
  cat_modify (λ c, mkCatalog (<[chunkIndex := chunk]> (cat_chunks c))
                             (<[hostname := chunkIndex]> (cat_hostnames c)) (cat_loaded c)).

Definition Remove (hostname : string) : COp unit :=
  let hostname := normalizeHostname hostname in
  _ ← op_wrap (DWrapf "loading catalog: ") loadLocked;
  c ← cat_get;
  match cat_hostnames c !! hostname with
  | None => mret tt
  | Some chunkIndex =>
      match cat_chunks c !! chunkIndex with
      | None | Some [] => op_panic
      | Some chunk =>
          let newChunk := List.filter (λ h, h != hostname) chunk in
          _ ← cat_modify (λ c, mkCatalog (<[chunkIndex := newChunk]> (cat_chunks c))
                                         (delete hostname (cat_hostnames c)) (cat_loaded c));
          if (length newChunk =? 0)%nat && (0 <? chunkIndex)%nat then
            _ ← op_catch (deleteChunk chunkIndex) (λ e,
                  _ ← restoreChunk hostname chunkIndex chunk;
                  op_fail (DWrapf ("deleting empty catalog chunk "
                                   ++s itoa (Z.of_nat chunkIndex) ++s ": ") e));
            cat_modify (reindexAfterDelete chunkIndex)
          else
            op_catch (writeChunk chunkIndex) (λ e,
              _ ← restoreChunk hostname chunkIndex chunk;
              op_fail (DWrapf ("writing catalog chunk "
                               ++s itoa (Z.of_nat chunkIndex) ++s ": ") e))
      end
  end.

Definition Compact : COp unit :=
  _ ← ensureLoaded (DWrapf "loading catalog: ");
  c ← cat_get;
  let oldChunkCount := length (cat_chunks c) in
  let newChunks := packChunks (sorted_names c) in
  _ ← op_iter (λ i,
        _ ← cat_modify (set_chunks newChunks);
        op_wrap (DWrapf ("writing compacted chunk " ++s itoa (Z.of_nat i) ++s ": ")) (writeChunk i))
      (seq 0 (length newChunks));
  _ ← op_iter (λ i, op_catch (deleteChunk i) (λ _, mret tt))
      (seq (length newChunks) (oldChunkCount - length newChunks));
  cat_modify (λ c, mkCatalog newChunks (index_chunks newChunks) (cat_loaded c)).

Definition Clear : COp unit :=
  _ ← ensureLoaded (DWrapf "loading catalog: ");
  c ← cat_get;
  _ ← op_iter (λ i, op_wrap (DWrapf ("deleting chunk " ++s itoa (Z.of_nat i) ++s ": ")) (deleteChunk i))
      (seq 0 (length (cat_chunks c)));
  cat_modify (λ _, NewCatalog).
End Operations.

(** Running the steps on the cache. *)
Section CacheSteps.
Context {W A : Type}.
Lemma bind_cat_get (k : Catalog → Op (W * Catalog) A) w c : (cat_get ≫= k) (w, c) = k c (w, c).
Proof. done. Qed.
Lemma bind_cat_modify f (k : unit → Op (W * Catalog) A) w c :
  (cat_modify f ≫= k) (w, c) = k tt (w, f c).
Proof. done. Qed.
End CacheSteps.

#[global] Arguments sendChunk : simpl never.
#[global] Arguments writeChunk : simpl never.
#[global] Arguments deleteChunk : simpl never.
#[global] Arguments loadLocked : simpl never.

(** ** Texts of names *)

(** Names that survive the trip through a TXT record: not empty, no white
    space. *)
Definition clean_name (h : string) : Prop := h ≠ "" ∧ plain h.

#[export] Instance clean_name_dec h : Decision (clean_name h).
Proof. unfold clean_name, plain. apply _. Defined.

Section Texts.
Implicit Types (s t h : string).

Lemma rev_app_rev_app s a b :
  String.rev_app (String.rev_app s a) b = String.rev_app a (s ++s b).
Proof. revert a. induction s as [|c s IH]; intros a; [done|]. simpl. by rewrite IH, app_cons. Qed.

Lemma words_go_plain cur s t :
  plain s → s ≠ "" →
  String.words_go cur (s ++s t) = String.words_go (Some (String.rev_app s (default "" cur))) t.
Proof.
  unfold plain. revert cur. induction s as [|c s IH]; [done|]. intros cur Hs _.
  rewrite app_cons. simpl in *. apply andb_true_iff in Hs as [Hc Hs].
  apply negb_true_iff in Hc. unfold is_space in Hc. rewrite Hc.
  assert (from_option (String c) (String c "") cur = String c (default "" cur)) as -> by (by destruct cur).
  destruct s as [|d s]; [done|]. by rewrite IH.
Qed.

Lemma Fields_Join l : Forall clean_name l → Fields (Join " " l) = l.
Proof.
  unfold Fields, String.words. induction 1 as [|h l [Hne Hp] Hl IH]; [done|].
  assert (String.rev (String.rev_app h "") = h) as Hrev
    by (unfold String.rev; rewrite rev_app_rev_app; apply app_empty_r).
  destruct l as [|h' l].
  - change (Join " " [h]) with h. rewrite <- (app_empty_r h) at 1.
    rewrite words_go_plain by done. simpl. by rewrite Hrev.
  - rewrite Join_cons_ne by done. rewrite words_go_plain by done.
    change (" " ++s Join " " (h' :: l)) with (String " " (Join " " (h' :: l))).
    cbn [String.words_go default]. change (Ascii.is_space " ") with true. cbv iota.
    rewrite IH. simpl. by rewrite Hrev.
Qed.

(** Reading the names of a TXT record gives back what was written. *)
Lemma parseTXT_Join l : Forall clean_name l → parseTXTHostnames (Join " " l) = l.
Proof.
  intros Hl. unfold parseTXTHostnames. destruct (String.eqb_spec (Join " " l) "") as [He|].
  - rewrite <- (Fields_Join l Hl), He. done.
  - rewrite Fields_Join by done. clear n. induction Hl as [|h l [Hne Hp] _ IH]; simpl; [done|].
    rewrite TrimSpace_plain, IH by done. by destruct (String.eqb_spec h "").
Qed.

Lemma ToLower_digits s : str_forallb is_digit s = true → ToLower s = s.
Proof.
  unfold ToLower. induction s as [|c s IH]; [done|]. simpl. intros [Hc Hs]%andb_true_iff.
  rewrite IH by done. f_equal.
  pose proof (all_bytes_spec (λ c, implb (is_digit c) (Ascii.eqb (lower_byte c) c))
    ltac:(vm_compute; reflexivity) c) as H. cbv beta in H. rewrite Hc in H.
  by apply Ascii.eqb_eq in H.
Qed.

Lemma app_inj_suffix a b t : a ++s t = b ++s t → a = b.
Proof.
  intros H. assert (String.length a = String.length b) as Hl.
  { pose proof (f_equal String.length H) as Hl. rewrite !length_app_s in Hl. lia. }
  rewrite <- (str_take_app a t), <- (str_take_app b t). by rewrite Hl, H.
Qed.

Lemma HasSuffix_app_r a s suf : HasSuffix s suf = true → HasSuffix (a ++s s) suf = true.
Proof.
  intros [p ->]%HasSuffix_spec. apply HasSuffix_spec. exists (a ++s p). by rewrite app_assoc_s.
Qed.

(** Chunks have different names, also to a server that ignores case. *)
Lemma chunkRecordName_inj zone i j :
  ToLower (chunkRecordName zone i) = ToLower (chunkRecordName zone j) → i = j.
Proof.
  unfold chunkRecordName. rewrite !ToLower_app. intros H%app_inj_prefix.
  apply app_inj_suffix in H. rewrite !ToLower_digits in H by apply itoa_nat_digits.
  apply (inj pretty) in H. lia.
Qed.
End Texts.

(** ** Sizes, packing and the index *)

Section Chunks.
Implicit Types (chunk l : list string) (chunks : list (list string)).

Lemma chunkByteSize_bytes chunk : chunkByteSize chunk = chunkBytes chunk.
Proof. by destruct chunk. Qed.

Lemma chunkBytes_app l l' : chunkBytes (l ++ l') = (chunkBytes l + chunkBytes l')%Z.
Proof. induction l as [|h l IH]; simpl; [done|]. rewrite IH. lia. Qed.

Lemma chunkBytes_perm l l' : l ≡ₚ l' → chunkBytes l = chunkBytes l'.
Proof. induction 1; simpl; lia. Qed.

Lemma chunkBytes_nonneg l : (0 ≤ chunkBytes l)%Z.
Proof. induction l as [|h l IH]; simpl; [done|]. unfold zlen. lia. Qed.

Lemma sort_nil l : sort_Strings l = [] ↔ l = [].
Proof.
  split; [|by intros ->]. intros H. pose proof (sort_perm l) as Hp. rewrite H in Hp.
  by apply Permutation_nil_l in Hp.
Qed.

(** What the limits of [canFitInChunk] protect. *)
Definition within_limits chunk : Prop :=
  (Z.of_nat (length chunk) ≤ CatalogChunkSize ∧ chunkBytes chunk ≤ CatalogMaxChunkBytes)%Z.

Lemma within_limits_perm l l' : l ≡ₚ l' → within_limits l → within_limits l'.
Proof. intros Hp. unfold within_limits. by rewrite (chunkBytes_perm _ _ Hp), Hp. Qed.

Lemma canFit_limits chunk h : canFitInChunk chunk h = true ↔ within_limits (chunk ++ [h]).
Proof.
  unfold canFitInChunk, within_limits. rewrite chunkByteSize_bytes, chunkBytes_app, length_app.
  simpl. destruct (_ <=? Z.of_nat _)%Z eqn:E; [apply Z.leb_le in E|apply Z.leb_gt in E];
    rewrite ?Z.leb_le; [split; [done|lia]|lia].
Qed.

Lemma single_limits h : (zlen h ≤ CatalogMaxHostnameLen)%Z → within_limits [h].
Proof. unfold within_limits, CatalogMaxHostnameLen, CatalogMaxChunkBytes, CatalogChunkSize. simpl. lia. Qed.

Lemma firstFit_Some k chunks h i :
  firstFit k chunks h = Some i →
  ∃ j chunk, i = k + j ∧ chunks !! j = Some chunk ∧ within_limits (chunk ++ [h]).
Proof.
  revert k. induction chunks as [|chunk chunks IH]; intros k; simpl; [done|].
  destruct (canFitInChunk chunk h) eqn:E.
  - intros [= <-]. exists 0, chunk. split_and!; [lia|done|by apply canFit_limits].
  - intros (j & c & -> & ? & ?)%IH. exists (S j), c. split_and!; [lia|done..].
Qed.

Lemma firstFit_None k chunks h :
  firstFit k chunks h = None → Forall (λ chunk, ¬ within_limits (chunk ++ [h])) chunks.
Proof.
  revert k. induction chunks as [|chunk chunks IH]; intros k; simpl; [by constructor|].
  destruct (canFitInChunk chunk h) eqn:E; [done|]. intros ?%IH. constructor; [|done].
  rewrite <- canFit_limits. by rewrite E.
Qed.

(** The index. *)
Lemma index_chunk_lookup i chunk m h :
  index_chunk i chunk m !! h = if bool_decide (h ∈ chunk) then Some i else m !! h.
Proof.
  unfold index_chunk. revert m. induction chunk as [|x chunk IH]; intros m; cbn [fold_left].
  - by rewrite bool_decide_false by (apply not_elem_of_nil).
  - rewrite IH. destruct (decide (h ∈ chunk)).
    + rewrite !bool_decide_true; [done|by right|done].
    + rewrite bool_decide_false by done. destruct (decide (h = x)) as [->|].
      * rewrite bool_decide_true by left. by rewrite lookup_insert_eq.
      * rewrite bool_decide_false by (rewrite elem_of_cons; naive_solver).
        by rewrite lookup_insert_ne.
Qed.

Lemma index_from_app k chunks chunk m :
  index_from k (chunks ++ [chunk]) m = index_chunk (k + length chunks) chunk (index_from k chunks m).
Proof.
  revert k m. induction chunks as [|c chunks IH]; intros k m; simpl; [by rewrite Nat.add_0_r|].
  rewrite IH. f_equal. lia.
Qed.

Lemma index_chunks_app chunks chunk :
  index_chunks (chunks ++ [chunk]) = index_chunk (length chunks) chunk (index_chunks chunks).
Proof. apply index_from_app. Qed.

(** The index knows exactly the names of the chunks, each with a chunk that
    holds it. *)
Lemma index_chunks_sound chunks h i :
  index_chunks chunks !! h = Some i → ∃ chunk, chunks !! i = Some chunk ∧ h ∈ chunk.
Proof.
  induction chunks as [|chunk chunks IH] using rev_ind; [done|].
  rewrite index_chunks_app, index_chunk_lookup. case_bool_decide.
  - intros [= <-]. exists chunk. by rewrite list_lookup_middle.
  - intros (c & Hc & ?)%IH. exists c. split; [|done]. by apply lookup_app_l_Some.
Qed.

Lemma index_chunks_dom chunks h : is_Some (index_chunks chunks !! h) ↔ h ∈ concat chunks.
Proof.
  induction chunks as [|chunk chunks IH] using rev_ind.
  - simpl. rewrite elem_of_nil. split; [|done]. by intros [].
  - rewrite index_chunks_app, index_chunk_lookup, concat_app, elem_of_app. simpl.
    rewrite app_nil_r, <- IH. case_bool_decide; [|naive_solver]. split; [by right|by eexists].
Qed.
End Chunks.

(** The packing loop of [Compact]: everything is kept in order, no chunk is
    empty, and every chunk is within the limits when the names are. *)
Section Packing.
Implicit Types (l : list string).

Definition pack_ok (st : list (list string) * list string) : Prop :=
  Forall (λ chunk, chunk ≠ [] ∧ within_limits chunk) st.1 ∧ within_limits st.2.

Lemma packStep_ok st h :
  (zlen h ≤ CatalogMaxHostnameLen)%Z → pack_ok st →
  pack_ok (packStep st h) ∧ (packStep st h).2 ≠ [] ∧
  concat (packStep st h).1 ++ (packStep st h).2 = (concat st.1 ++ st.2) ++ [h].
Proof.
  intros Hh [Hf Hc]. destruct st as [done_ cur]. unfold packStep, pack_ok in *. simpl in *.
  destruct (length cur =? 0)%nat eqn:E; simpl.
  - apply Nat.eqb_eq, nil_length_inv in E as ->. simpl.
    rewrite app_nil_r. split_and!; [done|by apply single_limits|done..].
  - apply Nat.eqb_neq in E. destruct (canFitInChunk cur h) eqn:Ef; simpl.
    + apply canFit_limits in Ef. rewrite <- app_assoc. split_and!; [done|done|by destruct cur|done].
    + rewrite concat_app. simpl. rewrite app_nil_r. split_and!; [|by apply single_limits|done|done].
      apply Forall_app. split; [done|]. apply Forall_singleton. split; [|done].
      by destruct cur.
Qed.

Lemma packFold_ok l st :
  Forall (λ h, zlen h ≤ CatalogMaxHostnameLen)%Z l → pack_ok st →
  pack_ok (fold_left packStep l st) ∧
  concat (fold_left packStep l st).1 ++ (fold_left packStep l st).2 = (concat st.1 ++ st.2) ++ l.
Proof.
  revert st. induction l as [|h l IH]; intros st Hl Hst; simpl; [by rewrite app_nil_r|].
  inversion Hl; subst. destruct (packStep_ok st h) as (Hok & _ & Hc); [done..|].
  destruct (IH (packStep st h)) as [Hok' Hc']; [done..|]. split; [done|].
  rewrite Hc', Hc. by rewrite <- app_assoc.
Qed.

(** Packing. *)
Theorem packChunks_spec l :
  Forall (λ h, zlen h ≤ CatalogMaxHostnameLen)%Z l →
  concat (packChunks l) = l ∧ Forall within_limits (packChunks l) ∧ packChunks l ≠ [] ∧
  (l ≠ [] → Forall (λ chunk, chunk ≠ []) (packChunks l)) ∧ (l = [] → packChunks l = [[]]).
Proof.
  intros Hl. destruct (packFold_ok l ([], []) Hl) as [[Hf Hc] Hcat].
  { split; [constructor|]. unfold within_limits. simpl. by split. }
  unfold packChunks. destruct (fold_left packStep l ([], [])) as [full cur] eqn:E.
  simpl in *. destruct (length cur =? 0)%nat eqn:Ecur; simpl.
  - apply Nat.eqb_eq, nil_length_inv in Ecur as ->. rewrite app_nil_r in Hcat.
    destruct full as [|c full]; simpl.
    + simpl in Hcat. subst l. split_and!; try done. by repeat constructor.
    + apply Forall_and in Hf as [Hne ?]. split_and!; try done. intros ->. exfalso.
      inversion Hne; subst. by destruct c.
  - rewrite length_app, Nat.add_1_r. simpl. rewrite concat_app. simpl. rewrite app_nil_r.
    apply Nat.eqb_neq in Ecur. apply Forall_and in Hf as [? ?]. split_and!; [done| | | |].
    + apply Forall_app. by split; [|apply Forall_singleton].
    + by destruct full.
    + intros _. apply Forall_app. split; [done|]. apply Forall_singleton. by destruct cur.
    + intros ->. by destruct full, cur.
Qed.
End Packing.

(** ** The catalog of a zone *)

(** The TXT data of a chunk, by the names in it; no record when empty. *)
Definition wire (chunk : list string) : list RRData :=
  match chunk with [] => [] | _ => [RDTXT chunk] end.

(** [zone_chunks zone z f]: the chunk records in the zone data [z] hold the
    names [f 0], [f 1], ...; a hole is an empty list. *)
Definition zone_chunks (zone : string) (z : ZoneData) (f : nat → list string) : Prop :=
  ∀ i, map snd (rrset z (chunkRecordName zone i) TypeTXT) = wire (f i) ∧
       rrset z (chunkRecordName zone i) TypeCNAME = [].

(** The chunks that are found by asking for one after the other. *)
Definition visible (f : nat → list string) (chunks : list (list string)) : Prop :=
  (∀ i chunk, chunks !! i = Some chunk → f i = chunk ∧ chunk ≠ []) ∧ f (length chunks) = [].

(** Zone data that differ at most in the chunk [i]. *)
Definition same_but_chunk (zone : string) (i : nat) (z z' : ZoneData) : Prop :=
  ∀ m t, ¬ (ToLower m = ToLower (chunkRecordName zone i) ∧ t = TypeTXT) → rrset z' m t = rrset z m t.

(** Zone data that differ at most in the chunks. *)
Definition same_but_chunks (zone : string) (z z' : ZoneData) : Prop :=
  ∀ m t, (∀ i, ¬ (ToLower m = ToLower (chunkRecordName zone i) ∧ t = TypeTXT)) →
         rrset z' m t = rrset z m t.

Definition put (f : nat → list string) (i : nat) (chunk : list string) : nat → list string :=
  λ j, if decide (j = i) then chunk else f j.

(** The cache of a catalog that has been loaded. *)
Definition loaded (chunks : list (list string)) : Catalog :=
  mkCatalog chunks (index_chunks chunks) true.

Section Representation.
Context (zone : string) (Hzone : HasSuffix zone "." = true).
Implicit Types (z : ZoneData) (f : nat → list string) (chunks : list (list string)).

Lemma chunk_fqdn i : ensureFQDN (chunkRecordName zone i) = chunkRecordName zone i.
Proof using Hzone.
  apply ensureFQDN_id. unfold chunkRecordName. by repeat apply HasSuffix_app_r.
Qed.

Lemma same_but_chunk_all i z z' : same_but_chunk zone i z z' → same_but_chunks zone z z'.
Proof using. intros Hs m t Ht. apply Hs, Ht. Qed.

Lemma zone_chunks_ext z z' f :
  (∀ i, rrset z' (chunkRecordName zone i) TypeTXT = rrset z (chunkRecordName zone i) TypeTXT) →
  (∀ i, rrset z' (chunkRecordName zone i) TypeCNAME = rrset z (chunkRecordName zone i) TypeCNAME) →
  zone_chunks zone z f → zone_chunks zone z' f.
Proof using. intros H1 H2 Hf i. rewrite H1, H2. apply Hf. Qed.

(** Replacing a chunk in the zone data. *)
Lemma put_chunk z f i l :
  zone_chunks zone z f →
  let z' := fold_left zone_update
    (UDeleteRRset (chunkRecordName zone i) TypeTXT ::
     if (0 <? length l)%nat then [UInsert (chunkRR zone i l)] else []) z in
  zone_chunks zone z' (put f i l) ∧ same_but_chunk zone i z z'.
Proof using.
  intros Hf. set (n := chunkRecordName zone i). simpl fold_left.
  set (z1 := delete (ToLower n, TypeTXT) z).
  assert (∀ m t, rrset z1 m t = if bool_decide (ToLower m = ToLower n ∧ t = TypeTXT)
                                then [] else rrset z m t) as H1 by apply (rrset_delete z n TypeTXT).
  set (z2 := fold_left zone_update _ z1).
  assert (∀ m t, rrset z2 m t = if bool_decide (ToLower m = ToLower n ∧ t = TypeTXT)
      then (if (0 <? length l)%nat then [(CatalogTTL, RDTXT l)] else []) else rrset z m t) as H2.
  { intros m t. unfold z2. destruct (0 <? length l)%nat; [|by simpl; rewrite H1].
    cbn [fold_left]. destruct (zone_insert z1 (chunkRR zone i l)) as (l' & -> & Hl').
    { unfold insertable. simpl. rewrite H1, bool_decide_false by (by intros [_ ?]). apply Hf. }
    simpl. rewrite rrset_put. fold n. case_bool_decide as Hm; [|rewrite H1; by rewrite bool_decide_false].
    rewrite Hl' by done. simpl. fold n. by rewrite H1, bool_decide_true. }
  split.
  - intros j. rewrite !H2. unfold put. destruct (decide (j = i)) as [->|Hji].
    + rewrite bool_decide_true, bool_decide_false by (done || by intros [_ ?]).
      split; [by destruct l|apply Hf].
    + rewrite !bool_decide_false by (intros [?%chunkRecordName_inj ?]; done). apply Hf.
  - intros m t Hm. by rewrite H2, bool_decide_false.
Qed.
End Representation.

Section Loading.
Context `{DnsNames} {W : Type} `{DnsServer W} `{!DnsServerLaws W}.
Context (zone : string) (Hzone : HasSuffix zone "." = true).
Implicit Types (w : W) (f : nat → list string) (chunks : list (list string)) (c : Catalog).

(** What a query for a chunk returns, when its answer fits. *)
Definition chunk_fits (z : ZoneData) (i : nat) : Prop :=
  answer_fits (W:=W) z (chunkRecordName zone i) TypeTXT.

Lemma chunk_query w f i o w' :
  zone_chunks zone (zone_of w) f → (f i ≠ [] → chunk_fits (zone_of w) i) →
  Query (chunkRecordName zone i) TypeTXT w = (o, w') →
  zone_of w' = zone_of w ∧ completes o ∧
  ∀ l, o = Ok l → (f i = [] → l = []) ∧
    (f i ≠ [] → ∃ r, l = [r] ∧ zr_Type r = TypeTXT ∧ zr_RData r = Join " " (f i)).
Proof using Hzone DnsServerLaws0.
  intros Hf Hfit Hq. destruct (Hf i) as [Htxt Hcname].
  destruct (Query_law _ _ _ _ _ Hq) as (Hz & Ho & Hl).
  { right. by rewrite chunk_fqdn. }
  split_and!; [done..|]. intros l Hol. destruct (Hl l Hol) as [(part & Hpart & ->) Hall]. clear Hl.
  rewrite chunk_fqdn in Hpart, Hall by done. unfold chunk_fits in Hfit.
  assert (f i ≠ [] → readRecords part ≡ₚ readRecords (answer_rrs (zone_of w) (chunkRecordName zone i) TypeTXT)) as Hl
    by auto. clear Hall Hfit. unfold answer_rrs in Hpart, Hl.
  destruct (rrset (zone_of w) (chunkRecordName zone i) TypeTXT) as [|[ttl d] [|]] eqn:E;
    destruct (f i) as [|h names]; simplify_eq/=; (split; [try done|try done]).
  - intros _. simpl in Hpart. by apply submseteq_nil_r in Hpart as ->.
  - intros Hne. apply Hl, Permutation_singleton_r in Hne as ->. eexists. split_and!; [done..|]. done.
Qed.

Lemma chunkHostnames_one r chunk :
  Forall clean_name chunk → zr_Type r = TypeTXT → zr_RData r = Join " " chunk →
  chunkHostnames [r] = chunk.
Proof using.
  intros Hc Ht Hd. unfold chunkHostnames. simpl. rewrite Ht, Hd. simpl.
  by rewrite app_nil_r, parseTXT_Join.
Qed.

Lemma visible_lookup f chunks i : visible f chunks → i < length chunks → chunks !! i = Some (f i) ∧ f i ≠ [].
Proof using.
  intros [Hv _] [chunk Hc]%lookup_lt_is_Some. destruct (Hv _ _ Hc) as [-> ?]. done.
Qed.

(** The loading loop, from chunk [i] on. *)
Lemma loadChunks_spec fuel i w c f chunks o w' c' :
  zone_chunks zone (zone_of w) f → visible f chunks → Forall (Forall clean_name) chunks →
  (∀ j, j < length chunks → chunk_fits (zone_of w) j) →
  i ≤ length chunks → length chunks - i < fuel →
  cat_chunks c = take i chunks → cat_hostnames c = index_chunks (take i chunks) →
  loadChunks zone fuel i (w, c) = (o, (w', c')) →
  zone_of w' = zone_of w ∧ completes o ∧ cat_loaded c' = cat_loaded c ∧
  (∀ u, o = Ok u → cat_chunks c' = chunks ∧ cat_hostnames c' = index_chunks chunks).
Proof using Hzone DnsServerLaws0.
  intros Hf Hv Hclean. revert i w c Hf. induction fuel as [|fuel IH]; intros i w c Hf Hfit Hi Hfuel Hch Hm; [lia|].
  cbn [loadChunks]. unfold op_wrap, op_catch, on_client, op_fst. unfold mbind, Op_bind at 1. simpl.
  destruct (Query (chunkRecordName zone i) TypeTXT w) as [r w1] eqn:Eq.
  assert (f i ≠ [] → chunk_fits (zone_of w) i) as Hfi.
  { intros Hfi. apply Hfit. destruct (decide (i = length chunks)) as [->|]; [|lia]. by destruct Hv. }
  destruct (chunk_query _ _ _ _ _ Hf Hfi Eq) as (Hz & Ho & Hl).
  destruct r as [l|e| |]; [|by intros [= <- <- <-]|done..].
  destruct (Hl l eq_refl) as [Hempty Hfull].
  destruct (decide (i = length chunks)) as [->|Hne].
  - destruct Hv as [_ Hend]. rewrite (Hempty Hend). simpl. intros [= <- <- <-].
    rewrite take_ge in Hch, Hm by done. done.
  - destruct (visible_lookup f chunks i Hv ltac:(lia)) as [Hlook Hne'].
    destruct (Hfull Hne') as (rec & -> & Ht & Hd). cbn -[chunkHostnames loadChunks].
    rewrite (chunkHostnames_one rec (f i)) by
      (done || by eapply (Forall_lookup_1 _ chunks i)).
    intros Hrun. apply IH in Hrun; [|by rewrite Hz|by rewrite Hz|lia|lia|..].
    + rewrite Hz in Hrun. done.
    + simpl. by rewrite Hch, (take_S_r _ _ (f i)).
    + simpl. rewrite (take_S_r _ _ (f i)), index_chunks_app, Hm by done.
      by rewrite length_take_le by lia.
Qed.

(** Loading: the visible chunks are read, in order; it always ends when the
    budget exceeds their number. *)
Lemma loadLocked_spec fuel w c f chunks o w' c' :
  zone_chunks zone (zone_of w) f → visible f chunks → Forall (Forall clean_name) chunks →
  (∀ j, j < length chunks → chunk_fits (zone_of w) j) → length chunks < fuel →
  loadLocked zone fuel (w, c) = (o, (w', c')) →
  zone_of w' = zone_of w ∧ completes o ∧
  (∀ u, o = Ok u → c' = loaded chunks) ∧ (∀ e, o = Err e → cat_loaded c' = false).
Proof using Hzone DnsServerLaws0.
  intros Hf Hv Hclean Hfit Hfuel. unfold loadLocked, mbind, Op_bind, cat_modify. simpl.
  destruct (loadChunks zone fuel 0 (w, mkCatalog [] ∅ false)) as [r [w1 c1]] eqn:E.
  apply (loadChunks_spec fuel 0 w _ f chunks) in E as (Hz & Ho & Hl & Hok); try done; [|lia..].
  destruct r as [u|e| |]; [| |done..]; simpl in *.
  - destruct (Hok u eq_refl) as [Hc Hm]. intros [= <- <- <-]. split_and!; [done..| |done].
    intros _ _. unfold set_loaded, loaded. by rewrite Hc, Hm.
  - intros [= <- <- <-]. done.
Qed.
End Loading.

(** ** A catalog in order *)

(** The names a chunk can hold. *)
Definition good_name (h : string) : Prop := clean_name h ∧ (zlen h ≤ CatalogMaxHostnameLen)%Z.

Definition chunk_ok (chunk : list string) : Prop :=
  chunk ≠ [] ∧ Forall good_name chunk ∧ within_limits chunk.

Definition at_index (chunks : list (list string)) (i : nat) : list string := default [] (chunks !! i).

(** The zone holds exactly these chunks, one after the other; every name is
    in one place. *)
Definition catalog_at (zone : string) (z : ZoneData) (chunks : list (list string)) : Prop :=
  zone_chunks zone z (at_index chunks) ∧ Forall chunk_ok chunks ∧ NoDup (concat chunks).

Lemma catalog_name_nonempty zone z chunks n : catalog_at zone z chunks → n ∈ concat chunks → n ≠ "".
Proof.
  intros (_ & Hok & _) Hn. apply list_elem_of_In, List.in_concat in Hn as (chunk & Hc & Hn).
  apply list_elem_of_In in Hc, Hn. rewrite Forall_forall in Hok.
  destruct (Hok chunk Hc) as (_ & Hg & _). rewrite Forall_forall in Hg. by destruct (Hg n Hn) as [[? _] _].
Qed.

Section ListsOfChunks.
Implicit Types (chunks : list (list string)) (chunk : list string).

Lemma visible_at chunks : Forall chunk_ok chunks → visible (at_index chunks) chunks.
Proof.
  intros Hok. split.
  - intros i chunk Hc. unfold at_index. rewrite Hc. split; [done|].
    by apply (Forall_lookup_1 _ _ _ _ Hok Hc).
  - unfold at_index. by rewrite lookup_ge_None_2.
Qed.

Lemma chunk_ok_clean chunks : Forall chunk_ok chunks → Forall (Forall clean_name) chunks.
Proof.
  intros Hok. eapply Forall_impl; [done|]. intros chunk (_ & Hg & _).
  eapply Forall_impl; [done|]. by intros h [? _].
Qed.

Lemma chunk_ok_perm chunk chunk' : chunk ≡ₚ chunk' → chunk_ok chunk → chunk_ok chunk'.
Proof.
  intros Hp (Hne & Hg & Hl). split_and!.
  - intros ->. by apply Permutation_nil_r in Hp.
  - by rewrite <- Hp.
  - by eapply within_limits_perm.
Qed.

Lemma insert_split {A} (l : list A) i x :
  l !! i = Some x → ∃ l1 l2, l = l1 ++ x :: l2 ∧ length l1 = i ∧ ∀ y, <[i := y]> l = l1 ++ y :: l2.
Proof.
  intros Hx. exists (take i l), (drop (S i) l). pose proof (lookup_lt_Some _ _ _ Hx).
  assert (length (take i l) = i) as Hlen by (rewrite length_take_le; lia).
  split_and!; [by rewrite take_drop_middle|done|]. intros y.
  rewrite <- (take_drop_middle l i x Hx) at 1.
  rewrite insert_app_r_alt by lia. by rewrite Hlen, Nat.sub_diag.
Qed.

Lemma put_at_insert chunks i chunk chunk' j :
  chunks !! i = Some chunk → put (at_index chunks) i chunk' j = at_index (<[i := chunk']> chunks) j.
Proof.
  intros Hi. unfold put, at_index. destruct (decide (j = i)) as [->|].
  - by rewrite list_lookup_insert_eq by (by eapply lookup_lt_Some).
  - by rewrite list_lookup_insert_ne.
Qed.

Lemma put_at_end chunks chunk j :
  put (at_index chunks) (length chunks) chunk j = at_index (chunks ++ [chunk]) j.
Proof.
  unfold put, at_index. destruct (decide (j = length chunks)) as [->|Hj].
  - by rewrite list_lookup_middle.
  - destruct (decide (j < length chunks)) as [?|?].
    + by rewrite lookup_app_l.
    + rewrite !lookup_ge_None_2; [done|rewrite length_app; simpl; lia|lia].
Qed.

Lemma zone_chunks_eq zone z f g : (∀ i, f i = g i) → zone_chunks zone z f → zone_chunks zone z g.
Proof. intros He Hf i. rewrite <- He. apply Hf. Qed.

Lemma drop_middle {A} (l1 l2 : list A) x i : length l1 = i → drop (S i) (l1 ++ x :: l2) = l2.
Proof. intros <-. by rewrite drop_app_ge, Nat.sub_succ_l, Nat.sub_diag by lia. Qed.

Lemma take_middle {A} (l1 l2 : list A) i : length l1 = i → take i (l1 ++ l2) = l1.
Proof. intros <-. by rewrite take_app_length. Qed.

(** A chunk without a name. *)
Definition without (h : string) (chunk : list string) : list string :=
  List.filter (λ x, x != h) chunk.

Lemma elem_of_without h chunk x : x ∈ without h chunk ↔ x ∈ chunk ∧ x ≠ h.
Proof.
  unfold without. rewrite elem_of_list_filter, negb_true_iff, String.eqb_neq. done.
Qed.

Lemma without_perm h chunk : NoDup chunk → h ∈ chunk → chunk ≡ₚ h :: without h chunk.
Proof.
  intros Hnd Hin. apply NoDup_Permutation; [done| |].
  - constructor; [rewrite elem_of_without; naive_solver|]. by apply NoDup_filter_bool.
  - intros x. rewrite elem_of_cons, elem_of_without. destruct (decide (x = h)); naive_solver.
Qed.

(** The chunks after a name is added, and the chunk that is written. *)
Definition addTarget chunks (h : string) : nat * list (list string) :=
  match firstFit 0 chunks h with
  | Some i => (i, chunks)
  | None => (length chunks, chunks ++ [[]])
  end.

Definition addChunks chunks (h : string) : list (list string) :=
  let '(t, chunks) := addTarget chunks h in
  <[t := sort_Strings (default [] (chunks !! t) ++ [h])]> chunks.

Lemma length_addChunks chunks h : length (addChunks chunks h) ≤ S (length chunks).
Proof.
  unfold addChunks, addTarget. destruct (firstFit 0 chunks h); rewrite length_insert; [lia|].
  rewrite length_app. simpl. lia.
Qed.

Lemma concat_insert chunks i chunk chunk' h :
  chunks !! i = Some chunk → chunk' ≡ₚ h :: chunk →
  concat (<[i := chunk']> chunks) ≡ₚ h :: concat chunks.
Proof.
  intros Hi Hp. destruct (insert_split _ _ _ Hi) as (l1 & l2 & -> & _ & ->).
  rewrite !concat_app. simpl. rewrite Hp. simpl. apply Permutation_sym, Permutation_middle.
Qed.

Lemma addChunks_spec chunks h :
  Forall chunk_ok chunks → good_name h →
  let '(t, base) := addTarget chunks h in
  ∃ chunk, base !! t = Some chunk ∧
    (∀ j, put (at_index chunks) t (sort_Strings (chunk ++ [h])) j = at_index (addChunks chunks h) j) ∧
    Forall chunk_ok (addChunks chunks h) ∧ concat (addChunks chunks h) ≡ₚ h :: concat chunks.
Proof.
  intros Hok Hh. unfold addChunks, addTarget.
  destruct (firstFit 0 chunks h) as [t|] eqn:E.
  - apply firstFit_Some in E as (j & chunk & -> & Hc & Hl). simpl. exists chunk. rewrite Hc. simpl.
    assert (sort_Strings (chunk ++ [h]) ≡ₚ h :: chunk) as Hp
      by (rewrite sort_perm; by rewrite Permutation_app_comm).
    split_and!; [done|by intros; eapply put_at_insert| |by eapply concat_insert].
    apply Forall_insert; [done|]. apply (chunk_ok_perm (chunk ++ [h])); [by rewrite sort_perm|].
    destruct (Forall_lookup_1 _ _ _ _ Hok Hc) as (_ & Hg & _).
    split_and!; [by destruct chunk|apply Forall_app; by split; [|apply Forall_singleton]|done].
  - exists []. rewrite list_lookup_middle by done. simpl.
    assert (<[length chunks := sort_Strings [h]]> (chunks ++ [[]]) = chunks ++ [sort_Strings [h]]) as ->.
    { rewrite insert_app_r_alt by lia. by rewrite Nat.sub_diag. }
    assert (sort_Strings [h] = [h]) as -> by (symmetry; by apply Permutation_singleton_l; rewrite sort_perm).
    split_and!; [done|apply put_at_end| |].
    + apply Forall_app. split; [done|]. apply Forall_singleton. split_and!; [done| |].
      * by apply Forall_singleton.
      * apply single_limits, Hh.
    + rewrite concat_app. simpl. by rewrite Permutation_app_comm.
Qed.
End ListsOfChunks.

(** The answer that holds a chunk; the transport carries that of every chunk
    within the limits, up to a number of chunks. *)
Definition chunk_answer_size (zone : string) (i : nat) (chunk : list string) : Z :=
  let name := chunkRecordName zone i in 12 + (name_size name + 4) + (name_size name + 10 + rdata_size (RDTXT chunk)).
Definition carried {W} `{DnsServerLaws W} (zone : string) (fuel : nat) : Prop :=
  ∀ i chunk, i < fuel → chunk_ok chunk → (chunk_answer_size zone i chunk <= answer_limit (W:=W))%Z.

Section Writing.
Context `{DnsNames} {W : Type} `{DnsServer W} `{!DnsServerLaws W}.
Context (client : Client) (zone : string) (Hzone : HasSuffix zone "." = true) (fuel : nat).
Context (Hcarried : carried (W:=W) zone fuel).
Implicit Types (w : W) (f : nat → list string) (chunks : list (list string)) (c : Catalog).

Lemma chunks_fit z f i : zone_chunks zone z f → chunk_ok (f i) → i < fuel → chunk_fits (W:=W) zone z i.
Proof using Hcarried.
  intros Hz Hok Hi. destruct (Hz i) as [Htxt _]. unfold chunk_fits, answer_fits, answer_size.
  destruct (rrset z (chunkRecordName zone i) TypeTXT) as [|[ttl d] [|]]; destruct (f i) as [|h names] eqn:E; try discriminate Htxt;
    try (by destruct Hok).
  injection Htxt as ->. pose proof (Hcarried i (h :: names) Hi Hok) as Hc. unfold chunk_answer_size in Hc.
  cbn [fold_right snd]. cbn [fold_right] in Hc. lia.
Qed.

Lemma catalog_fits z chunks :
  catalog_at zone z chunks → length chunks < fuel → ∀ i, i < length chunks → chunk_fits (W:=W) zone z i.
Proof using Hcarried.
  intros (Hz & Hok & _) Hfuel i Hi. apply (chunks_fit z (at_index chunks)); [done| |lia].
  destruct (lookup_lt_is_Some_2 chunks i Hi) as [chunk Hc]. unfold at_index. rewrite Hc.
  by apply (Forall_lookup_1 _ _ _ _ Hok Hc).
Qed.

(** A chunk is written or deleted as a whole, or nothing happens. *)
Definition put_or_not {A : Type} (i : nat) (l : list string) f (z z' : ZoneData) (o : outcome A) : Prop :=
  completes o ∧
  ((zone_chunks zone z' (put f i l) ∧ same_but_chunk zone i z z') ∨ (∃ e, o = Err e) ∧ z' = z).

Lemma put_or_not_err {A B : Type} i l f z z' e e' :
  put_or_not (A:=A) i l f z z' (Err e) → put_or_not (A:=B) i l f z z' (Err e').
Proof using. intros [_ [?|[_ ?]]]; (split; [done|]); [by left|right]. by split; [exists e'|]. Qed.

Lemma sendChunk_put i l f w o w' :
  zone_chunks zone (zone_of w) f →
  sendChunk client zone (UDeleteRRset (chunkRecordName zone i) TypeTXT ::
      if (0 <? length l)%nat then [UInsert (chunkRR zone i l)] else []) w = (o, w') →
  put_or_not i l f (zone_of w) (zone_of w') o.
Proof using DnsServerLaws0.
  intros Hf Hs%send_law. pose proof (put_chunk zone _ _ i l Hf) as Hput. cbv zeta in Hput.
  destruct o as [u|e| |]; [|destruct Hs as [Hs|Hs]|done..].
  - split; [done|left]. by rewrite Hs.
  - split; [done|right]. by split; [exists e|].
  - split; [done|left]. by rewrite Hs.
Qed.

Lemma writeChunk_put i chunk f w c o w' c' :
  zone_chunks zone (zone_of w) f → cat_chunks c !! i = Some chunk →
  writeChunk client zone i (w, c) = (o, (w', c')) →
  c' = c ∧ put_or_not i (sort_Strings chunk) f (zone_of w) (zone_of w') o.
Proof using DnsServerLaws0.
  intros Hf Hi. unfold writeChunk, cat_get, on_client, op_fst, mbind, Op_bind. simpl. rewrite Hi.
  cbn [fst snd]. destruct (sendChunk _ _ _ w) as [r w1] eqn:E. intros [= <- <- <-].
  split; [done|]. by eapply sendChunk_put.
Qed.

Lemma deleteChunk_put i f w c o w' c' :
  zone_chunks zone (zone_of w) f →
  deleteChunk client zone i (w, c) = (o, (w', c')) →
  c' = c ∧ put_or_not i [] f (zone_of w) (zone_of w') o.
Proof using DnsServerLaws0.
  intros Hf. unfold deleteChunk, on_client, op_fst. simpl.
  destruct (sendChunk _ _ _ w) as [r w1] eqn:E. intros [= <- <- <-].
  split; [done|]. by apply (sendChunk_put i []).
Qed.

(** The load at the start of [Add] and [Remove]. *)
Lemma load_cases w c chunks :
  catalog_at zone (zone_of w) chunks → length chunks < fuel →
  ∃ w1 c1, zone_of w1 = zone_of w ∧
    ((loadLocked zone fuel (w, c) = (Ok tt, (w1, c1)) ∧ c1 = loaded chunks) ∨
     (∃ e, loadLocked zone fuel (w, c) = (Err e, (w1, c1)) ∧ cat_loaded c1 = false)).
Proof using Hzone Hcarried DnsServerLaws0.
  intros Hcat Hfuel. pose proof Hcat as (Hz & Hok & _). destruct (loadLocked zone fuel (w, c)) as [o [w1 c1]] eqn:E.
  apply (loadLocked_spec zone Hzone fuel w c (at_index chunks) chunks) in E
    as (Hw & Ho & Hl & He); [|done|by apply visible_at|by apply chunk_ok_clean|by apply catalog_fits|done].
  exists w1, c1. split; [done|]. destruct o as [[]|e| |]; [left|right|done..]; eauto.
Qed.

Lemma catalog_at_eq z z' chunks : z' = z → catalog_at zone z chunks → catalog_at zone z' chunks.
Proof using. by intros ->. Qed.

(** Adding a name.  On a catalog in order (chunks one after the other within
    the limits, each name once), for a name that is not too long and has no
    white space, [Add] always ends; the catalog is in order afterwards and
    nothing but its records has changed; on success the normalised name is in
    it beside exactly the names that were, and the cache agrees; on an error
    the catalog holds what it held, or that and the name. *)
Theorem catalog_Add_spec hostname w c chunks o w' c' :
  catalog_at zone (zone_of w) chunks → length chunks < fuel →
  good_name (normalizeHostname hostname) →
  Add client zone fuel hostname (w, c) = (o, (w', c')) →
  completes o ∧ ∃ chunks',
    catalog_at zone (zone_of w') chunks' ∧ same_but_chunks zone (zone_of w) (zone_of w') ∧
    length chunks' ≤ S (length chunks) ∧
    (concat chunks' ≡ₚ concat chunks ∨
     ((normalizeHostname hostname ∉ concat chunks) ∧
      concat chunks' ≡ₚ (normalizeHostname hostname :: concat chunks))) ∧
    (∀ u, o = Ok u → normalizeHostname hostname ∈ concat chunks' ∧ cat_loaded c' = true ∧
      ∀ x, is_Some (cat_hostnames c' !! x) ↔ x ∈ concat chunks').
Proof using Hzone Hcarried DnsServerLaws0.
  intros Hcat Hfuel Hh. set (h := normalizeHostname hostname) in *. unfold Add. fold h.
  pose proof Hh as [_ Hlen]. rewrite (proj2 (Z.ltb_ge _ _) Hlen).
  destruct (load_cases w c chunks Hcat Hfuel) as (w1 & c1 & Hw1 & [(Hload & ->)|(e & Hload & _)]).
  2: { rewrite (op_bind_err _ _ _ _ _ (op_wrap_err _ _ _ _ _ Hload)). intros [= <- <- <-].
       split; [done|]. exists chunks. rewrite Hw1. split_and!; [done|done|lia|by left|done]. }
  rewrite (op_bind_run _ _ _ _ _ (op_wrap_run _ _ _ _ _ Hload)), bind_cat_get.
  cbn [loaded cat_hostnames cat_chunks].
  destruct (index_chunks chunks !! h) as [i|] eqn:Ei.
  { intros [= <- <- <-]. split; [done|]. exists chunks. rewrite Hw1.
    assert (h ∈ concat chunks) by (apply index_chunks_dom; eauto).
    split_and!; [done|done|lia|by left|]. intros _ _. split_and!; [done|done|].
    intros x. apply index_chunks_dom. }
  assert (h ∉ concat chunks) as Hnew by (rewrite <- index_chunks_dom, Ei; by intros []).
  destruct Hcat as (Hz & Hok & Hnd). pose proof (addChunks_spec chunks h Hok Hh) as Hadd.
  fold (addTarget chunks h). destruct (addTarget chunks h) as [t base] eqn:Et.
  destruct Hadd as (chunk & Hchunk & Hput & Hok' & Hperm). rewrite Hchunk, bind_cat_modify.
  unfold op_catch. destruct (writeChunk client zone t _) as [r [w2 c2]] eqn:Ew.
  apply (writeChunk_put t (chunk ++ [h]) (at_index chunks)) in Ew as [-> [Hr Hpn]].
  2: by rewrite Hw1. 2: { simpl. by apply list_lookup_insert_eq, (lookup_lt_Some _ _ _ Hchunk). }
  rewrite Hw1 in Hpn.
  assert (zone_chunks zone (zone_of w2) (put (at_index chunks) t (sort_Strings (chunk ++ [h])))
          → catalog_at zone (zone_of w2) (addChunks chunks h)) as Hnew'.
  { intros Hzc. split_and!; [by eapply zone_chunks_eq|done|]. rewrite Hperm. by constructor. }
  destruct r as [[]|e| |]; [| |done..].
  - intros [= <- <- <-]. split; [done|]. destruct Hpn as [[Hzc Hsame]|[[? ?] _]]; [|done].
    exists (addChunks chunks h). split_and!; [by apply Hnew'|by eapply same_but_chunk_all|apply length_addChunks|by right|].
    intros _ _. split_and!; [rewrite Hperm; by left|done|]. intros x. simpl.
    rewrite Hperm, elem_of_cons, <- (index_chunks_dom chunks). destruct (decide (x = h)) as [->|].
    + rewrite lookup_insert_eq. split; [by left|by eexists].
    + rewrite lookup_insert_ne by done. naive_solver.
  - rewrite bind_cat_modify. intros [= <- <- <-]. split; [done|]. destruct Hpn as [[Hzc Hsame]|[_ ->]].
    + exists (addChunks chunks h).
      split_and!; [by apply Hnew'|by eapply same_but_chunk_all|apply length_addChunks|by right|done].
    + exists chunks. split_and!; [done..|lia|by left|done].
Qed.

(** [Remove] on a catalog in order, of a name in it: the chunk of the name is
    written without it, or nothing happens. *)
Lemma Remove_run hostname w c chunks o w' c' :
  catalog_at zone (zone_of w) chunks → length chunks < fuel →
  normalizeHostname hostname ∈ concat chunks →
  Remove client zone fuel hostname (w, c) = (o, (w', c')) →
  ∃ i l1 chunk l2, chunks = l1 ++ chunk :: l2 ∧ length l1 = i ∧
    normalizeHostname hostname ∈ chunk ∧
    put_or_not i (sort_Strings (without (normalizeHostname hostname) chunk)) (at_index chunks)
      (zone_of w) (zone_of w') o ∧
    ∀ u, o = Ok u → cat_loaded c' = true ∧
      ∀ x, is_Some (cat_hostnames c' !! x) ↔ x ∈ concat chunks ∧ x ≠ normalizeHostname hostname.
Proof using Hzone Hcarried DnsServerLaws0.
  intros Hcat Hfuel Hin. set (h := normalizeHostname hostname) in *. unfold Remove. fold h.
  destruct (load_cases w c chunks Hcat Hfuel) as (w1 & c1 & Hw1 & Hload).
  pose proof Hcat as (Hz & Hok & Hnd).
  pose proof (proj2 (index_chunks_dom chunks h) Hin) as [i Hi].
  destruct (index_chunks_sound _ _ _ Hi) as (chunk & Hchunk & Hhc).
  destruct (insert_split _ _ _ Hchunk) as (l1 & l2 & Hsplit & Hl1 & Hins).
  destruct Hload as [(Hload & ->)|(e & Hload & _)].
  2: { rewrite (op_bind_err _ _ _ _ _ (op_wrap_err _ _ _ _ _ Hload)). intros [= <- <- <-].
       exists i, l1, chunk, l2. split_and!; try done. split; [done|right]. by split; [eexists|]. }
  rewrite (op_bind_run _ _ _ _ _ (op_wrap_run _ _ _ _ _ Hload)), bind_cat_get.
  cbn [loaded cat_hostnames cat_chunks]. rewrite Hi, Hchunk.
  destruct chunk as [|h0 chunk0] eqn:Echunk; [by apply not_elem_of_nil in Hhc|].
  rewrite <- Echunk in *. clear Echunk h0 chunk0.
  rewrite bind_cat_modify. fold (without h chunk). cbn [cat_chunks cat_hostnames cat_loaded loaded].
  assert (∀ x, is_Some (delete h (index_chunks chunks) !! x) ↔ x ∈ concat chunks ∧ x ≠ h) as Hdel.
  { intros x. rewrite <- index_chunks_dom. destruct (decide (x = h)) as [->|].
    - rewrite lookup_delete_eq. split; [by intros []|by intros [_ ?]].
    - rewrite lookup_delete_ne by done. naive_solver. }
  destruct ((length (without h chunk) =? 0)%nat && (0 <? i)%nat) eqn:Eb.
  - apply andb_true_iff in Eb as [El%Nat.eqb_eq%nil_length_inv _]. rewrite El.
    unfold mbind at 1, Op_bind at 1, op_catch.
    destruct (deleteChunk client zone i _) as [r [w2 c2]] eqn:Ed.
    apply (deleteChunk_put i (at_index chunks)) in Ed as [-> Hp]; [|by rewrite Hw1].
    rewrite Hw1 in Hp. destruct r as [[]|e| |]; [| |by destruct Hp..].
    + intros [= <- <- <-].
      exists i, l1, chunk, l2. rewrite El. split_and!; try done. intros _ _. split; [done|].
      intros x. cbn [reindexAfterDelete cat_hostnames cat_chunks cat_loaded].
      rewrite index_chunks_dom, Hins, take_middle, drop_middle, Hsplit, !concat_app by done.
      simpl. assert (chunk ≡ₚ [h]) as Hone.
      { rewrite <- El. apply without_perm; [|done]. rewrite Hsplit, concat_app in Hnd.
        apply NoDup_app in Hnd as (_ & _ & Hnd). simpl in Hnd. by apply NoDup_app in Hnd as (? & _). }
      assert (h ∉ concat l1 ++ concat l2) as Hout.
      { rewrite Hsplit, concat_app in Hnd. simpl in Hnd. rewrite Hone in Hnd. simpl in Hnd.
        rewrite <- Permutation_middle in Hnd. by apply NoDup_cons in Hnd as [? _]. }
      rewrite elem_of_app in Hout. rewrite !elem_of_app, Hone, list_elem_of_singleton.
      destruct (decide (x = h)); naive_solver.
    + intros [= <- <- <-]. exists i, l1, chunk, l2. rewrite El.
      split_and!; try done. by eapply put_or_not_err.
  - unfold op_catch. destruct (writeChunk client zone i _) as [r [w2 c2]] eqn:Ed.
    apply (writeChunk_put i (without h chunk) (at_index chunks)) in Ed as [-> Hp].
    2: by rewrite Hw1. 2: { simpl. by apply list_lookup_insert_eq, (lookup_lt_Some _ _ _ Hchunk). }
    rewrite Hw1 in Hp. destruct r as [[]|e| |]; [| |by destruct Hp..].
    + intros [= <- <- <-]. exists i, l1, chunk, l2. split_and!; done.
    + unfold restoreChunk. rewrite bind_cat_modify. intros [= <- <- <-].
      exists i, l1, chunk, l2. split_and!; try done. by eapply put_or_not_err.
Qed.

(** The chunk of a name, in a catalog in order. *)
Lemma chunk_without h l1 chunk l2 :
  NoDup (concat (l1 ++ chunk :: l2)) → h ∈ chunk →
  concat (l1 ++ chunk :: l2) ≡ₚ h :: concat (l1 ++ without h chunk :: l2) ∧
  (without h chunk = [] → chunk = [h]).
Proof using.
  intros Hnd Hh. rewrite !concat_app in *. simpl in *.
  assert (NoDup chunk) as Hc by (by apply NoDup_app in Hnd as (_ & _ & [? _]%NoDup_app)).
  pose proof (without_perm h chunk Hc Hh) as Hp. split.
  - rewrite Hp at 1. simpl. apply Permutation_sym, Permutation_middle.
  - intros He. rewrite He in Hp. by apply Permutation_singleton_r in Hp.
Qed.

Lemma put_last l1 chunk j : put (at_index (l1 ++ [chunk])) (length l1) [] j = at_index l1 j.
Proof using.
  unfold put, at_index. destruct (decide (j = length l1)) as [->|Hj].
  - by rewrite lookup_ge_None_2.
  - destruct (decide (j < length l1)) as [?|?]; [by rewrite lookup_app_l|].
    rewrite !lookup_ge_None_2; [done|lia|rewrite length_app; simpl; lia].
Qed.

(** A name is in one chunk. *)
Lemma one_chunk chunks i j (c d : list string) (x : string) :
  NoDup (concat chunks) → chunks !! i = Some c → chunks !! j = Some d → x ∈ c → x ∈ d → i = j.
Proof using.
  revert i j. induction chunks as [|a chunks IH]; intros i j; [done|].
  simpl. intros (_ & Hd & Hnd)%NoDup_app Hi Hj Hc Hdx.
  assert (∀ k e, chunks !! k = Some e → x ∈ e → x ∈ concat chunks) as Hin.
  { intros k e Hk He. apply list_elem_of_In, List.in_concat. exists e.
    split; apply list_elem_of_In; [by eapply list_elem_of_lookup_2|done]. }
  destruct i as [|i], j as [|j]; simplify_eq/=; [done| | |f_equal; by eapply IH].
  - exfalso. by apply (Hd x), (Hin j d).
  - exfalso. by apply (Hd x), (Hin i c).
Qed.

(** What a removal leaves, unless it makes a hole. *)
Lemma removed_catalog h z z' l1 chunk l2 :
  catalog_at zone z (l1 ++ chunk :: l2) → h ∈ chunk → (chunk = [h] → l2 = []) →
  zone_chunks zone z'
    (put (at_index (l1 ++ chunk :: l2)) (length l1) (sort_Strings (without h chunk))) →
  ∃ chunks', catalog_at zone z' chunks' ∧ length chunks' ≤ length (l1 ++ chunk :: l2) ∧
    concat (l1 ++ chunk :: l2) ≡ₚ (h :: concat chunks').
Proof using.
  intros (Hz & Hok & Hnd) Hh Hlast Hput. destruct (chunk_without h l1 chunk l2 Hnd Hh) as [Hp Hone].
  assert (NoDup (concat (l1 ++ without h chunk :: l2))) as Hnd'
    by (rewrite Hp in Hnd; by apply NoDup_cons in Hnd as [_ ?]).
  apply Forall_app in Hok as [Hok1 [Hokc Hok2]%Forall_cons]. destruct (without h chunk) as [|x rest] eqn:Ew.
  - rewrite (Hlast (Hone eq_refl)) in *. exists l1. rewrite Hp, concat_app. simpl.
    rewrite app_nil_r. split; [|split; [rewrite length_app; lia|done]]. split_and!; [|done|].
    + eapply zone_chunks_eq; [|exact Hput]. intros j. apply (put_last l1 chunk).
    + rewrite concat_app in Hnd'. simpl in Hnd'. by rewrite app_nil_r in Hnd'.
  - rewrite <- Ew in *. exists (l1 ++ sort_Strings (without h chunk) :: l2).
    assert (concat (l1 ++ sort_Strings (without h chunk) :: l2)
            ≡ₚ concat (l1 ++ without h chunk :: l2)) as Hs
      by (rewrite !concat_app; simpl; by rewrite sort_perm).
    split; [|split; [by rewrite !length_app|by rewrite Hs]]. split_and!; [| |by rewrite Hs].
    + eapply zone_chunks_eq; [|exact Hput]. intros j.
      rewrite (put_at_insert _ _ chunk) by (by apply list_lookup_middle).
      by rewrite insert_app_r_alt, Nat.sub_diag by lia.
    + apply Forall_app. split; [done|]. apply Forall_cons. split; [|done].
      apply (chunk_ok_perm (without h chunk)); [by rewrite sort_perm|].
      destruct Hokc as (_ & Hg & [Hl1 Hl2]). split_and!; [by rewrite Ew|by apply Forall_filter_mono|].
      rewrite concat_app in Hnd. simpl in Hnd.
      assert (NoDup chunk) as Hc by (by apply NoDup_app in Hnd as (_ & _ & [? _]%NoDup_app)).
      pose proof (without_perm h chunk Hc Hh) as Hpc. rewrite (chunkBytes_perm _ _ Hpc) in Hl2.
      rewrite Hpc in Hl1. simpl in *. unfold zlen in *. split; lia.
Qed.

(** Removing a name.  On a catalog in order, unless the name is alone in a
    chunk other than the last, [Remove] always ends, the catalog is in order
    afterwards and nothing but its records has changed; on success it holds
    exactly the other names, and the cache agrees; on an error it holds what
    it held, or that without the name. *)
Theorem catalog_Remove_spec hostname w c chunks o w' c' :
  catalog_at zone (zone_of w) chunks → length chunks < fuel →
  (∀ i, chunks !! i = Some [normalizeHostname hostname] → S i = length chunks) →
  Remove client zone fuel hostname (w, c) = (o, (w', c')) →
  completes o ∧ ∃ chunks',
    catalog_at zone (zone_of w') chunks' ∧ same_but_chunks zone (zone_of w) (zone_of w') ∧
    length chunks' ≤ length chunks ∧
    (concat chunks' ≡ₚ concat chunks ∨
     concat chunks ≡ₚ (normalizeHostname hostname :: concat chunks')) ∧
    (∀ u, o = Ok u → (normalizeHostname hostname ∉ concat chunks') ∧ cat_loaded c' = true ∧
      ∀ x, is_Some (cat_hostnames c' !! x) ↔ x ∈ concat chunks').
Proof using Hzone Hcarried DnsServerLaws0.
  intros Hcat Hfuel Hlast Hrun. set (h := normalizeHostname hostname) in *.
  destruct (decide (h ∈ concat chunks)) as [Hin|Hout].
  - apply (Remove_run hostname w c chunks) in Hrun as (i & l1 & chunk & l2 & -> & <- & Hh & [Ho Hp] & Hcache);
      [|done..]. fold h in Hh, Hp, Hcache. split; [done|]. pose proof Hcat as (_ & _ & Hnd).
    destruct Hp as [[Hz Hsame]|[[e ->] Hz]].
    + destruct (removed_catalog h (zone_of w) (zone_of w') l1 chunk l2)
        as (chunks' & Hc' & Hlen & Hp'); [done..| |done|].
      { intros ->. specialize (Hlast (length l1)). rewrite list_lookup_middle in Hlast by done.
        specialize (Hlast eq_refl). rewrite length_app in Hlast. simpl in Hlast.
        destruct l2; [done|simpl in Hlast; lia]. }
      exists chunks'. split_and!; [done|by eapply same_but_chunk_all|done|by right|].
      intros u Hu. destruct (Hcache u Hu) as [Hl Hx]. rewrite Hp' in Hnd.
      apply NoDup_cons in Hnd as [Hnot _]. split_and!; [done..|]. intros x.
      rewrite Hx, Hp', elem_of_cons. destruct (decide (x = h)); naive_solver.
    + exists (l1 ++ chunk :: l2). rewrite Hz. split_and!; [done|done|done|by left|done].
  - revert Hrun. unfold Remove. fold h.
    destruct (load_cases w c chunks Hcat Hfuel) as (w1 & c1 & Hw1 & [(Hload & ->)|(e & Hload & _)]).
    + rewrite (op_bind_run _ _ _ _ _ (op_wrap_run _ _ _ _ _ Hload)), bind_cat_get.
      cbn [loaded cat_hostnames cat_chunks].
      destruct (index_chunks chunks !! h) eqn:Ei; [exfalso; apply Hout, index_chunks_dom; eauto|].
      intros [= <- <- <-]. split; [done|]. exists chunks. rewrite Hw1.
      split_and!; [done|done|done|by left|]. intros _ _. split_and!; [done..|].
      intros x. apply index_chunks_dom.
    + rewrite (op_bind_err _ _ _ _ _ (op_wrap_err _ _ _ _ _ Hload)). intros [= <- <- <-].
      split; [done|]. exists chunks. rewrite Hw1. split_and!; [done|done|done|by left|done].
Qed.

(** A removal that makes a hole.  When the name is alone in a chunk that is
    not the last, a successful [Remove] deletes that record, and a later load
    stops there: the names of all the chunks behind it are no longer in the
    catalog, though nobody removed them. *)
Theorem Remove_gap_loses_names hostname w c l1 l2 u w' c' u2 c2 w'' c'' :
  catalog_at zone (zone_of w) (l1 ++ [normalizeHostname hostname] :: l2) →
  length (l1 ++ [normalizeHostname hostname] :: l2) < fuel →
  Remove client zone fuel hostname (w, c) = (Ok u, (w', c')) →
  loadLocked zone fuel (w', c2) = (Ok u2, (w'', c'')) →
  (∀ x, is_Some (cat_hostnames c'' !! x) ↔ x ∈ concat l1) ∧
  (∀ x, x ∈ concat l2 → is_Some (cat_hostnames c' !! x) ∧ cat_hostnames c'' !! x = None).
Proof using Hzone Hcarried DnsServerLaws0.
  intros Hcat Hfuel Hrun Hload. set (h := normalizeHostname hostname) in *.
  pose proof Hcat as (_ & Hok & Hnd).
  assert (h ∈ concat (l1 ++ [h] :: l2)) as Hin.
  { rewrite concat_app, elem_of_app. right. by left. }
  apply (Remove_run hostname w c _ _ _ _ Hcat Hfuel Hin) in Hrun
    as (i & k1 & chunk & k2 & Hsplit & Hi & Hh & [_ Hp] & Hcache). fold h in Hh, Hp, Hcache.
  assert (i = length l1) as ->.
  { apply (one_chunk _ i (length l1) chunk [h] h Hnd); [|by apply list_lookup_middle|done|by left].
    rewrite Hsplit. by apply list_lookup_middle. }
  apply app_inj_1 in Hsplit as [<- [= <- <-]]; [|done].
  destruct Hp as [[Hz _]|[[e ?] _]]; [|done].
  assert (without h [h] = []) as Hw by (unfold without; simpl; by rewrite String.eqb_refl).
  rewrite Hw in Hz. change (sort_Strings []) with (@nil string) in Hz.
  apply Forall_app in Hok as [Hok1 _].
  apply (loadLocked_spec zone Hzone fuel w' c2 (put (at_index (l1 ++ [h] :: l2)) (length l1) []) l1)
    in Hload as (_ & _ & Hl & _); [|exact Hz|..].
  2: { split.
       - intros j d Hj. pose proof (visible_at l1 Hok1) as [Hv _]. destruct (Hv j d Hj) as [<- ?].
         split; [|done]. unfold put, at_index. apply lookup_lt_Some in Hj.
         rewrite decide_False by lia. by rewrite lookup_app_l.
       - unfold put. by rewrite decide_True. }
  2: by apply chunk_ok_clean.
  2: { intros j Hj. eapply chunks_fit; [exact Hz| |rewrite length_app in Hfuel; lia].
       destruct (lookup_lt_is_Some_2 l1 j Hj) as [d Hd]. pose proof (Forall_lookup_1 _ _ _ _ Hok1 Hd) as Hdk.
       unfold put, at_index. rewrite decide_False by lia. by rewrite lookup_app_l, Hd by done. }
  2: { rewrite length_app in Hfuel. lia. }
  rewrite (Hl u2 eq_refl). simpl. split; [intros x; apply index_chunks_dom|].
  intros x Hx. destruct (Hcache u eq_refl) as [_ Hcx]. rewrite concat_app in Hnd, Hcx.
  simpl in Hnd, Hcx. apply NoDup_app in Hnd as (_ & Hd1 & [Hhn _]%NoDup_cons). split.
  - apply Hcx. rewrite elem_of_app, elem_of_cons. split; [by right; right|]. intros ->. done.
  - apply eq_None_not_Some. rewrite index_chunks_dom. intros Hx1. apply (Hd1 x Hx1). by right.
Qed.

(** The cache knows the names of the catalog, or has not been loaded. *)
Definition cache_agrees c chunks : Prop :=
  cat_loaded c = true → ∀ x, is_Some (cat_hostnames c !! x) ↔ x ∈ concat chunks.

Lemma ensureLoaded_spec wrap w c chunks o w' c' :
  catalog_at zone (zone_of w) chunks → length chunks < fuel → cache_agrees c chunks →
  ensureLoaded zone fuel wrap (w, c) = (o, (w', c')) →
  zone_of w' = zone_of w ∧ completes o ∧
  ∀ u, o = Ok u → ∀ x, is_Some (cat_hostnames c' !! x) ↔ x ∈ concat chunks.
Proof using Hzone Hcarried DnsServerLaws0.
  intros Hcat Hfuel Hc. unfold ensureLoaded. rewrite bind_cat_get.
  destruct (cat_loaded c) eqn:El; [intros [= <- <- <-]; split_and!; [done..|]; intros _ _; by apply Hc|].
  destruct (load_cases w c chunks Hcat Hfuel) as (w1 & c1 & Hw1 & [(Hload & ->)|(e & Hload & _)]).
  - rewrite (op_wrap_run _ _ _ _ _ Hload). intros [= <- <- <-]. split_and!; [done..|].
    intros _ _ x. apply index_chunks_dom.
  - rewrite (op_wrap_err _ _ _ _ _ Hload). by intros [= <- <- <-].
Qed.

(** Listing the names.  On a catalog in order, with a cache that agrees with
    it, [Hostnames] changes nothing on the server, always ends, and returns
    each name of the catalog once, in order. *)
Theorem catalog_Hostnames_spec w c chunks o w' c' :
  catalog_at zone (zone_of w) chunks → length chunks < fuel → cache_agrees c chunks →
  Hostnames zone fuel (w, c) = (o, (w', c')) →
  zone_of w' = zone_of w ∧ completes o ∧
  ∀ l, o = Ok l → l ≡ₚ concat chunks ∧ StronglySorted String.le l.
Proof using Hzone Hcarried DnsServerLaws0.
  intros Hcat Hfuel Hc. unfold Hostnames.
  destruct (ensureLoaded zone fuel id (w, c)) as [r [w1 c1]] eqn:E.
  pose proof (ensureLoaded_spec _ _ _ _ _ _ _ Hcat Hfuel Hc E) as (Hw & Hr & Hl).
  destruct r as [u|e| |]; [| |done..].
  - rewrite (op_bind_run _ _ _ _ _ E). intros [= <- <- <-]. split_and!; [done..|].
    intros l [= <-]. split; [|apply (StronglySorted_merge_sort String.le)].
    unfold sorted_names. rewrite sort_perm. destruct Hcat as (_ & _ & Hnd).
    apply NoDup_Permutation; [apply NoDup_fst_map_to_list|done|]. intros x.
    rewrite <- (Hl u eq_refl x), list_elem_of_fmap. split.
    + intros ([k v] & -> & Hkv%elem_of_map_to_list). by exists v.
    + intros [v Hv]. exists (x, v). by rewrite elem_of_map_to_list.
  - rewrite (op_bind_err _ _ _ _ _ E). by intros [= <- <- <-].
Qed.
End Writing.
