(* ===== verification/CatalogSpec.v ===== *)
(** * The catalog as a set of names

    What the catalog promises to the provider, apart from chunks and caches:
    a set of names, to which names are added and from which they are removed,
    an operation that fails having been done or not.  The operations of
    Catalog refine it, as long as no removal makes a hole. *)
From S2P Require Import Prelude GoStrings GoMaps DnsRecord DnsClient Catalog.
From Stdlib Require Import ZArith.

(** The operations that change the catalog. *)
Inductive NameOp := OpAdd (hostname : string) | OpRemove (hostname : string).

Definition op_name (op : NameOp) : string :=
  match op with OpAdd h | OpRemove h => normalizeHostname h end.

(** *** The abstract specification *)

Definition name_apply (op : NameOp) (names : gset string) : gset string :=
  match op with
  | OpAdd _ => {[ op_name op ]} ∪ names
  | OpRemove _ => names ∖ {[ op_name op ]}
  end.

(** One operation, with whether it succeeded. *)
Definition name_step (op : NameOp) (succeeded : bool) (names names' : gset string) : Prop :=
  names' = name_apply op names ∨ (succeeded = false ∧ names' = names).

Inductive name_run : list (NameOp * bool) → gset string → gset string → Prop :=
| name_run_nil names : name_run [] names names
| name_run_cons op b ops names names' names'' :
    name_step op b names names' → name_run ops names' names'' →
    name_run ((op, b) :: ops) names names''.

(** *** Sets of names and lists of chunks *)

Abbreviation names_of chunks := (list_to_set (concat chunks) : gset string).

(** What the chunks before and after an operation say about the sets. *)
Lemma add_step h (chunks chunks' : list (list string)) b :
  (concat chunks' ≡ₚ concat chunks ∨
   concat chunks' ≡ₚ (normalizeHostname h :: concat chunks)) →
  (b = true → normalizeHostname h ∈ concat chunks') →
  name_step (OpAdd h) b (names_of chunks) (names_of chunks').
Proof.
  intros Hp Hin. unfold name_step, name_apply. simpl. destruct Hp as [Hp|Hp]; [destruct b|].
  - left. rewrite Hp in Hin. apply set_eq. intros x. rewrite Hp. set_solver.
  - right. split; [done|]. by rewrite Hp.
  - left. by rewrite Hp.
Qed.

Lemma remove_step h (chunks chunks' : list (list string)) b :
  NoDup (concat chunks) →
  (concat chunks' ≡ₚ concat chunks ∨
   concat chunks ≡ₚ (normalizeHostname h :: concat chunks')) →
  (b = true → normalizeHostname h ∉ concat chunks') →
  name_step (OpRemove h) b (names_of chunks) (names_of chunks').
Proof.
  intros Hnd Hp Hin. unfold name_step, name_apply. simpl. destruct Hp as [Hp|Hp]; [destruct b|].
  - left. rewrite Hp in Hin. apply set_eq. intros x. rewrite Hp. set_solver.
  - right. split; [done|]. by rewrite Hp.
  - left. rewrite Hp in Hnd. apply NoDup_cons in Hnd as [Hnot _]. rewrite Hp.
    apply set_eq. set_solver.
Qed.

Lemma name_step_size op b names names' : name_step op b names names' → size names' ≤ S (size names).
Proof.
  intros [->|[_ ->]]; [|lia]. destruct op; simpl.
  - pose proof (size_union_alt {[ normalizeHostname hostname ]} names) as Hs. rewrite Hs, size_singleton.
    assert (size (names ∖ {[normalizeHostname hostname]}) ≤ size names) by (apply subseteq_size; set_solver).
    lia.
  - assert (size (names ∖ {[normalizeHostname hostname]}) ≤ size names) by (apply subseteq_size; set_solver).
    lia.
Qed.

(** *** The implementation *)

Section Refinement.
Context `{DnsNames} {W : Type} `{DnsServer W} `{!DnsServerLaws W}.
Context (client : Client) (zone : string) (Hzone : HasSuffix zone "." = true) (fuel : nat).
Context (Hcarried : carried (W:=W) zone fuel).

Definition exec (op : NameOp) : Op (W * Catalog) unit :=
  match op with
  | OpAdd h => Add client zone fuel h
  | OpRemove h => Remove client zone fuel h
  end.

(** The zone data represent a set of names. *)
Definition represents (z : ZoneData) (names : gset string) : Prop :=
  ∃ chunks, catalog_at zone z chunks ∧ names = list_to_set (concat chunks).

(** A removal leaves no hole when the name is not alone in a chunk that has
    another one behind it. *)
Definition no_hole (z : ZoneData) (h : string) : Prop :=
  ∀ i, map snd (rrset z (chunkRecordName zone i) TypeTXT) = [RDTXT [h]] →
       rrset z (chunkRecordName zone (S i)) TypeTXT = [].

(** What an operation asks for. *)
Definition allowed (op : NameOp) (z : ZoneData) : Prop :=
  match op with
  | OpAdd _ => good_name (op_name op)
  | OpRemove _ => no_hole z (op_name op)
  end.

Definition ok {A} (o : outcome A) : bool := match o with Ok _ => true | _ => false end.

(** Operations one after the other, whatever their outcome. *)
Inductive exec_run : list (NameOp * bool) → W * Catalog → W * Catalog → Prop :=
| exec_run_nil s : exec_run [] s s
| exec_run_cons op ops s o s' s'' :
    allowed op (zone_of s.1) → exec op s = (o, s') → exec_run ops s' s'' →
    exec_run ((op, ok o) :: ops) s s''.

Lemma chunk_count (chunks : list (list string)) :
  Forall chunk_ok chunks → length chunks ≤ length (concat chunks).
Proof using.
  induction 1 as [|c l (Hne & _) _ IH]; [done|]. simpl. rewrite length_app.
  destruct c; [done|simpl; lia].
Qed.

Lemma represents_size z (names : gset string) chunks :
  catalog_at zone z chunks → names = list_to_set (concat chunks) → length chunks ≤ size names.
Proof using.
  intros (_ & Hok & Hnd) ->. rewrite size_list_to_set by done. by apply chunk_count.
Qed.

Lemma no_hole_last z chunks h :
  catalog_at zone z chunks → no_hole z h → ∀ i, chunks !! i = Some [h] → S i = length chunks.
Proof using.
  intros (Hz & Hok & _) Hh i Hi. destruct (Hz i) as [Htxt _].
  unfold at_index in Htxt. rewrite Hi in Htxt. simpl in Htxt. specialize (Hh i Htxt).
  destruct (Hz (S i)) as [Htxt' _]. rewrite Hh in Htxt'. simpl in Htxt'.
  pose proof (lookup_lt_Some _ _ _ Hi). destruct (decide (S i = length chunks)); [done|exfalso].
  destruct (lookup_lt_is_Some_2 chunks (S i)) as [c Hc]; [lia|]. unfold at_index in Htxt'.
  rewrite Hc in Htxt'. destruct (Forall_lookup_1 _ _ _ _ Hok Hc) as (Hne & _). by destruct c.
Qed.

(** One operation simulates one abstract step. *)
Lemma exec_simulates op w c names o w' c' :
  represents (zone_of w) names → size names < fuel → allowed op (zone_of w) →
  exec op (w, c) = (o, (w', c')) →
  completes o ∧ same_but_chunks zone (zone_of w) (zone_of w') ∧
  ∃ names', represents (zone_of w') names' ∧ name_step op (ok o) names names' ∧
    (ok o = true → cat_loaded c' = true ∧ ∀ x, is_Some (cat_hostnames c' !! x) ↔ x ∈ names').
Proof using Hzone Hcarried DnsServerLaws0.
  intros (chunks & Hcat & ->) Hfuel Hop Hrun.
  pose proof (represents_size _ _ _ Hcat eq_refl) as Hlen.
  assert (∃ chunks', completes o ∧ catalog_at zone (zone_of w') chunks' ∧
    same_but_chunks zone (zone_of w) (zone_of w') ∧
    name_step op (ok o) (names_of chunks) (names_of chunks') ∧
    (∀ u, o = Ok u → cat_loaded c' = true ∧ ∀ x, is_Some (cat_hostnames c' !! x) ↔ x ∈ concat chunks'))
    as (chunks' & Ho & Hcat' & Hs & Hstep & Hok).
  { destruct op as [h|h]; simpl in *.
    - apply (catalog_Add_spec client zone Hzone fuel Hcarried h _ _ chunks) in Hrun
        as (Ho & chunks' & Hcat' & Hs & _ & Hp & Hok); [|done|lia|done].
      exists chunks'. split_and!; [done..| |by intros u (_ & ? & ?)%Hok].
      apply add_step; [naive_solver|]. destruct o as [u| | |]; [|done..].
      intros _. by destruct (Hok u eq_refl).
    - pose proof Hcat as (_ & _ & Hnd).
      apply (catalog_Remove_spec client zone Hzone fuel Hcarried h _ _ chunks) in Hrun
        as (Ho & chunks' & Hcat' & Hs & _ & Hp & Hok); [|done|lia|by eapply no_hole_last].
      exists chunks'. split_and!; [done..| |by intros u (_ & ? & ?)%Hok].
      apply remove_step; [done..|]. destruct o as [u| | |]; [|done..].
      intros _. by destruct (Hok u eq_refl). }
  split_and!; [done..|]. exists (names_of chunks'). split_and!; [by exists chunks'|done|].
  destruct o as [u| | |]; try done. intros _. destruct (Hok u eq_refl) as (? & Hx).
  split; [done|]. intros x. by rewrite Hx, elem_of_list_to_set.
Qed.

End Refinement.
