(* ===== verification/DnsConfig.v ===== *)
(** * Configuration of the RFC 2136 client and provider
    (pkg/dnsupdate/config.go, tsig.go; providers/rfc2136/config.go)

    Loading from a map of settings, validation, the server address and the
    TSIG key.  [net.SplitHostPort] and the test for base64 texts are those of
    Go's standard library. *)
From S2P Require Import Prelude GoStrings DnsRecord DnsClient.
From Stdlib Require Import ZArith.

(** ** Standard library *)

Fixpoint IndexByte (c : ascii) (s : string) : option nat :=
  match s with
  | EmptyString => None
  | String d s => if Ascii.eqb c d then Some 0 else S <$> IndexByte c s
  end.

Fixpoint LastIndexByte (c : ascii) (s : string) : option nat :=
  match s with
  | EmptyString => None
  | String d s =>
      match LastIndexByte c s with
      | Some i => Some (S i)
      | None => if Ascii.eqb c d then Some 0 else None
      end
  end.

(** Whether [net.SplitHostPort] succeeds. *)
Definition splitHostPort_ok (hostport : string) : bool :=
  match LastIndexByte ":" hostport with
  | None => false
  | Some i =>
      let no_brackets (j k : nat) :=
        negb (str_contains_byte "[" (str_drop j hostport))
        && negb (str_contains_byte "]" (str_drop k hostport)) in
      if HasPrefix hostport "[" then
        match IndexByte "]" hostport with
        | None => false
        | Some fin =>
            if (fin + 1 =? String.length hostport)%nat then false
            else if (fin + 1 =? i)%nat then no_brackets 1 (fin + 1)
            else false
        end
      else if str_contains_byte ":" (str_take i hostport) then false
      else no_brackets 0 0
  end.

(** The text of the error of [strconv.Atoi]: a number that grows beyond 64
    bits is out of range whatever follows. *)
Fixpoint uint64_overflow (acc : Z) (s : string) : bool :=
  match s with
  | EmptyString => false
  | String c s =>
      if is_digit c then
        let n := (acc * 10 + digit_val c)%Z in
        if (2 ^ 64 - 1 <? n)%Z then true else uint64_overflow n s
      else false
  end.

Definition unsigned_part (s : string) : string :=
  match s with
  | String c t => if Ascii.eqb c "-" || Ascii.eqb c "+" then t else s
  | EmptyString => s
  end.

Definition atoi_error (s : string) : derror :=
  let t := unsigned_part s in
  let range := negb (t == "") && (str_forallb is_digit t || uint64_overflow 0 t) in
  DNew ("strconv.Atoi: parsing " ++s Quote s ++s ": " ++s
        (if range then "value out of range" else "invalid syntax")).

Definition atoi (s : string) : Z + derror :=
  match Atoi s with Some n => inl n | None => inr (atoi_error s) end.

(** 64-bit wrap-around of [int64] arithmetic. *)
Definition wrap64 (n : Z) : Z := ((n + 2 ^ 63) mod 2 ^ 64 - 2 ^ 63)%Z.

(** [base64.StdEncoding.DecodeString] without error: line breaks are
    dropped, then groups of four, padding at the end only. *)
Definition is_base64 (c : ascii) : bool :=
  is_upper c || is_lower c || is_digit c || Ascii.eqb c "+" || Ascii.eqb c "/".

Fixpoint drop_newlines (s : string) : string :=
  match s with
  | EmptyString => EmptyString
  | String c s =>
      if (N_of_ascii c =? 10)%N || (N_of_ascii c =? 13)%N then drop_newlines s
      else String c (drop_newlines s)
  end.

Fixpoint base64_groups (s : string) : bool :=
  match s with
  | EmptyString => true
  | String a (String b (String c (String d rest))) =>
      is_base64 a && is_base64 b &&
      (if is_base64 c && is_base64 d then base64_groups rest
       else (is_base64 c || Ascii.eqb c "=") && Ascii.eqb d "=" && (rest == ""))
  | _ => false
  end.

Definition base64_ok (s : string) : bool := base64_groups (drop_newlines s).

Example base64_examples :
  (base64_ok "c2VjcmV0", base64_ok "c2VjcmU=", base64_ok "c2Vjcg==", base64_ok "c2V=cmV0",
   base64_ok "not base64!", base64_ok "abc") = (true, true, true, false, false, false).
Proof. reflexivity. Qed.

(** ** TSIG (tsig.go) *)

(** The algorithm names of the DNS library. *)
Definition HmacMD5 : string := "hmac-md5.sig-alg.reg.int.".
Definition HmacSHA256 : string := "hmac-sha256.".
Definition HmacSHA512 : string := "hmac-sha512.".

Definition AlgNameSHA256 : string := "hmac-sha256".
Definition AlgNameSHA512 : string := "hmac-sha512".
Definition AlgNameMD5 : string := "hmac-md5".
Definition algNameShortSHA256 : string := "sha256".
Definition DefaultTSIGAlgorithm : string := HmacSHA256.

Definition normalizeAlgorithm (alg : string) : string :=
  if alg == "" then DefaultTSIGAlgorithm
  else
    let normalized := ToLower (TrimSpace alg) in
    if (normalized == AlgNameMD5) || (normalized == "md5") then HmacMD5
    else if (normalized == AlgNameSHA256) || (normalized == algNameShortSHA256) then HmacSHA256
    else if (normalized == AlgNameSHA512) || (normalized == "sha512") then HmacSHA512
    else alg.

Definition isValidAlgorithm (alg : string) : bool :=
  (alg == HmacMD5) || (alg == HmacSHA256) || (alg == HmacSHA512).

(** [errText] is the text of the base64 error, which depends on the place of
    the first bad byte. *)
Definition NewTSIG (errText name secret algorithm : string) : TSIG + derror :=
  let name := with_dot name in
  if negb (base64_ok secret) then inr (DNew ("tsig secret is not valid base64: " ++s errText))
  else
    let alg := normalizeAlgorithm algorithm in
    if negb (isValidAlgorithm alg) then inr (DNew ("unsupported tsig algorithm: " ++s algorithm))
    else inl (mkTSIG name secret alg).

Definition AlgorithmName (alg : string) : string :=
  if alg == HmacMD5 then "HMAC-MD5"
  else if alg == HmacSHA256 then "HMAC-SHA256"
  else if alg == HmacSHA512 then "HMAC-SHA512"
  else alg.

(** ** The configuration of the client (pkg/dnsupdate/config.go) *)

(** Times are in nanoseconds. *)
Record Config := mkConfig {
  cfg_Server : string;
  cfg_Zone : string;
  cfg_TSIGKeyName : string;
  cfg_TSIGSecret : string;
  cfg_TSIGAlgorithm : string;
  cfg_Timeout : Z;
  cfg_UseTCP : bool
}.

Definition Second : Z := 1000000000.
Definition DefaultTimeout : Z := 10 * Second.

Definition GetTSIGAlgorithm (c : Config) : string :=
  if cfg_TSIGAlgorithm c == "" then DefaultTSIGAlgorithm
  else
    let alg := ToLower (TrimSpace (cfg_TSIGAlgorithm c)) in
    if (alg == AlgNameMD5) || (alg == "md5") || (alg == "hmac-md5.sig-alg.reg.int.") then HmacMD5
    else if (alg == AlgNameSHA256) || (alg == algNameShortSHA256) then HmacSHA256
    else if (alg == AlgNameSHA512) || (alg == "sha512") then HmacSHA512
    else alg.

Definition HasTSIG (c : Config) : bool :=
  (cfg_TSIGKeyName c != "") && (cfg_TSIGSecret c != "").

Definition GetTimeout (c : Config) : Z :=
  if (0 <? cfg_Timeout c)%Z then cfg_Timeout c else DefaultTimeout.

Definition GetServer (c : Config) : string :=
  let server := cfg_Server c in
  if server == "" then ""
  else if splitHostPort_ok server then server
  else if str_contains_byte ":" server then "[" ++s server ++s "]:53"
  else server ++s ":53".

Definition zone_errors (zone : string) (missing nodot : string) : list string :=
  if zone == "" then [missing] else if negb (HasSuffix zone ".") then [nodot] else [].

Definition tsig_given (key secret alg : string) : bool :=
  (key != "") || (secret != "") || (alg != "").

Definition Config_errors (c : Config) : list string :=
  (if cfg_Server c == "" then ["server is required"] else [])
  ++ zone_errors (cfg_Zone c) "zone is required"
       "zone must end with a dot (e.g., 'example.com.')"
  ++ (if tsig_given (cfg_TSIGKeyName c) (cfg_TSIGSecret c) (cfg_TSIGAlgorithm c) then
        zone_errors (cfg_TSIGKeyName c) "tsig_key_name is required when using TSIG authentication"
          "tsig_key_name must end with a dot (e.g., 'dnsweaver.')"
        ++ (if cfg_TSIGSecret c == ""
            then ["tsig_secret is required when using TSIG authentication"] else [])
        ++ (if cfg_TSIGAlgorithm c != "" then
              if negb (isValidAlgorithm (GetTSIGAlgorithm c))
              then ["unsupported tsig_algorithm: " ++s cfg_TSIGAlgorithm c ++s
                    " (supported: hmac-md5, hmac-sha256, hmac-sha512)"]
              else []
            else [])
      else [])
  ++ (if (cfg_Timeout c <? 0)%Z then ["timeout must be non-negative"] else []).

Definition Config_Validate (c : Config) : option derror :=
  let errs := Config_errors c in
  if (0 <? length errs)%nat
  then Some (DNew ("dnsupdate config validation failed: " ++s Join "; " errs))
  else None.

(** Settings of a map; a missing key reads as the empty text. *)
Definition setting (m : gmap string string) (key : string) : string := default "" (m !! key).

Definition parse_use_tcp (s : string) : bool :=
  (s != "") && (EqualFold s "true" || (s == "1")).

Definition LoadConfigFromMap (m : gmap string string) : Config + derror :=
  let timeoutStr := setting m "TIMEOUT" in
  match (if timeoutStr != "" then atoi timeoutStr else inl 0%Z) with
  | inr err => inr (DWrapf ("invalid TIMEOUT value " ++s Quote timeoutStr ++s ": ") err)
  | inl timeout =>
      let config := mkConfig (setting m "SERVER") (setting m "ZONE") (setting m "TSIG_KEY_NAME")
                      (setting m "TSIG_SECRET") (setting m "TSIG_ALGORITHM")
                      (wrap64 (timeout * Second)) (parse_use_tcp (setting m "USE_TCP")) in
      match Config_Validate config with
      | Some err => inr err
      | None => inl config
      end
  end.

Definition TSIGFromConfig (errText : string) (c : Config) : nilable TSIG + derror :=
  if negb (HasTSIG c) then inl None
  else match NewTSIG errText (cfg_TSIGKeyName c) (cfg_TSIGSecret c) (GetTSIGAlgorithm c) with
       | inl t => inl (Some t)
       | inr e => inr e
       end.

(** [NewClient] of client.go, without the connection it prepares. *)
Definition NewClient (errText : string) (config : nilable Config) : Client + derror :=
  match config with
  | None => inr (DNew "config is required")
  | Some config =>
      match Config_Validate config with
      | Some err => inr (DWrapf "invalid config: " err)
      | None =>
          match TSIGFromConfig errText config with
          | inr err => inr (DWrapf "invalid TSIG configuration: " err)
          | inl tsig => inl (mkClient (cfg_Zone config) tsig)
          end
      end
  end.

(** ** The configuration of the provider (providers/rfc2136/config.go) *)

Record PConfig := mkPConfig {
  pc_Server : string;
  pc_Zone : string;
  pc_TSIGKeyName : string;
  pc_TSIGSecret : string;
  pc_TSIGAlgorithm : string;
  pc_Timeout : Z;
  pc_UseTCP : bool;
  pc_TTL : Z
}.

Definition DefaultTTL : Z := 300.
Definition DefaultTimeoutSeconds : Z := 10.

Definition PConfig_errors (c : PConfig) : list string :=
  (if pc_Server c == "" then ["SERVER is required"] else [])
  ++ zone_errors (pc_Zone c) "ZONE is required" "ZONE must end with a dot (e.g., 'example.com.')"
  ++ (if tsig_given (pc_TSIGKeyName c) (pc_TSIGSecret c) (pc_TSIGAlgorithm c) then
        zone_errors (pc_TSIGKeyName c) "TSIG_KEY_NAME is required when using TSIG authentication"
          "TSIG_KEY_NAME must end with a dot (e.g., 'dnsweaver.')"
        ++ (if pc_TSIGSecret c == ""
            then ["TSIG_SECRET is required when using TSIG authentication"] else [])
      else [])
  ++ (if (pc_TTL c <? 0)%Z then ["TTL must be non-negative"] else [])
  ++ (if (pc_Timeout c <? 0)%Z then ["TIMEOUT must be non-negative"] else []).

Definition PConfig_Validate (c : PConfig) : option derror :=
  let errs := PConfig_errors c in
  if (0 <? length errs)%nat
  then Some (DNew ("rfc2136 config validation failed: " ++s Join "; " errs))
  else None.

Definition ToDNSUpdateConfig (c : PConfig) : Config :=
  mkConfig (pc_Server c) (pc_Zone c) (pc_TSIGKeyName c) (pc_TSIGSecret c) (pc_TSIGAlgorithm c)
           (wrap64 (pc_Timeout c * Second)) (pc_UseTCP c).

(** A numeric setting with its default. *)
Definition int_setting (m : gmap string string) (key : string) (dflt : Z) : Z + derror :=
  let s := setting m key in
  if s != "" then
    match atoi s with
    | inl n => inl n
    | inr err => inr (DWrapf ("invalid " ++s key ++s " value " ++s Quote s ++s ": ") err)
    end
  else inl dflt.

Definition LoadProviderConfigFromMap (instanceName : string) (m : gmap string string)
  : PConfig + derror :=
  match int_setting m "TIMEOUT" DefaultTimeoutSeconds with
  | inr err => inr err
  | inl timeout =>
      match int_setting m "TTL" DefaultTTL with
      | inr err => inr err
      | inl ttl =>
          let config := mkPConfig (setting m "SERVER") (setting m "ZONE") (setting m "TSIG_KEY_NAME")
                          (setting m "TSIG_SECRET") (setting m "TSIG_ALGORITHM")
                          timeout (parse_use_tcp (setting m "USE_TCP")) ttl in
          match PConfig_Validate config with
          | Some err => inr (DWrapf ("configuration for " ++s instanceName ++s ": ") err)
          | None => inl config
          end
      end
  end.

(** ** Properties *)

Lemma IndexByte_app c s t :
  str_contains_byte c s = false → IndexByte c (s ++s String c t) = Some (String.length s).
Proof.
  induction s as [|d s IH].
  - intros _. rewrite app_empty_l. simpl. by rewrite Ascii.eqb_refl.
  - rewrite app_cons. simpl. intros [Hc Hs]%orb_false_iff. by rewrite Hc, IH.
Qed.

Lemma LastIndexByte_None c s : LastIndexByte c s = None ↔ str_contains_byte c s = false.
Proof.
  induction s as [|d s IH]; simpl; [done|]. rewrite orb_false_iff, <- IH.
  destruct (LastIndexByte c s), (Ascii.eqb c d); naive_solver.
Qed.

(** The number of colons. *)
Fixpoint count_byte (c : ascii) (s : string) : nat :=
  match s with
  | EmptyString => 0
  | String d s => (if Ascii.eqb c d then 1 else 0) + count_byte c s
  end.

Lemma count_byte_0 c s : str_contains_byte c s = false ↔ count_byte c s = 0.
Proof.
  induction s as [|d s IH]; simpl; [done|]. rewrite orb_false_iff, IH.
  destruct (Ascii.eqb c d); naive_solver lia.
Qed.

(** What precedes the last occurrence holds all the others. *)
Lemma count_before_last c s i :
  LastIndexByte c s = Some i → count_byte c s = S (count_byte c (str_take i s)).
Proof.
  revert i. induction s as [|d s IH]; intros i; simpl; [done|].
  destruct (LastIndexByte c s) as [j|] eqn:E.
  - intros [= <-]. simpl. rewrite (IH j eq_refl). lia.
  - destruct (Ascii.eqb c d) eqn:Ed; [|done]. intros [= <-]. simpl.
    apply LastIndexByte_None, count_byte_0 in E. by rewrite E.
Qed.

Lemma splitHostPort_many server :
  HasPrefix server "[" = false → 2 ≤ count_byte ":" server → splitHostPort_ok server = false.
Proof.
  intros Hp Hc. unfold splitHostPort_ok. destruct (LastIndexByte ":" server) as [i|] eqn:E; [|done].
  rewrite Hp. apply count_before_last in E.
  destruct (str_contains_byte ":" (str_take i server)) eqn:Et; [done|].
  apply count_byte_0 in Et. lia.
Qed.

Lemma splitHostPort_bracketed h :
  str_contains_byte "]" h = false → splitHostPort_ok ("[" ++s h ++s "]") = false.
Proof.
  intros Hh. unfold splitHostPort_ok. destruct (LastIndexByte _ _); [|done].
  change ("[" ++s h ++s "]") with (String "[" (h ++s String "]" "")).
  replace (HasPrefix (String "[" (h ++s String "]" "")) "[") with true
    by (symmetry; apply (HasPrefix_app "[" (h ++s String "]" ""))).
  cbn [IndexByte]. change (Ascii.eqb "]" "[") with false. cbv iota.
  rewrite IndexByte_app by done. simpl. rewrite length_app_s. simpl.
  by rewrite Nat.eqb_refl.
Qed.

(** [GetServer] adds the default port to an address without one, and puts
    brackets around an IPv6 address; but an IPv6 address that is already in
    brackets and has no port gets a second pair of brackets. *)
Theorem GetServer_spec c :
  (cfg_Server c ≠ "" → str_contains_byte ":" (cfg_Server c) = false →
   GetServer c = cfg_Server c ++s ":53") ∧
  (HasPrefix (cfg_Server c) "[" = false → 2 ≤ count_byte ":" (cfg_Server c) →
   GetServer c = "[" ++s cfg_Server c ++s "]:53") ∧
  (∀ h, cfg_Server c = "[" ++s h ++s "]" → str_contains_byte ":" h = true →
   str_contains_byte "]" h = false → GetServer c = "[[" ++s h ++s "]]:53").
Proof.
  unfold GetServer. split_and!.
  - intros Hne Hc. destruct (String.eqb_spec (cfg_Server c) ""); [done|].
    assert (splitHostPort_ok (cfg_Server c) = false) as ->.
    { unfold splitHostPort_ok. by apply LastIndexByte_None in Hc as ->. }
    by rewrite Hc.
  - intros Hp Hc. rewrite splitHostPort_many by done.
    destruct (String.eqb_spec (cfg_Server c) "") as [E|]; [rewrite E in Hc; simpl in Hc; lia|].
    destruct (str_contains_byte ":" (cfg_Server c)) eqn:E; [done|]. apply count_byte_0 in E. lia.
  - intros h -> Hc Hb. rewrite splitHostPort_bracketed by done.
    assert (str_contains_byte ":" ("[" ++s h ++s "]") = true) as ->
      by (rewrite !str_contains_byte_app, Hc; by rewrite orb_true_r).
    change (("[" ++s h ++s "]") == "") with false. cbv iota.
    by rewrite !app_assoc_s.
Qed.

Lemma zone_errors_nil z a b : zone_errors z a b = [] → z ≠ "" ∧ HasSuffix z "." = true.
Proof.
  unfold zone_errors. destruct (String.eqb_spec z ""); [done|].
  by destruct (HasSuffix z ".").
Qed.

Lemma valid_algorithm_cases alg :
  isValidAlgorithm alg = true ↔ alg = HmacMD5 ∨ alg = HmacSHA256 ∨ alg = HmacSHA512.
Proof. unfold isValidAlgorithm. rewrite !orb_true_iff, !String.eqb_eq. tauto. Qed.

Lemma normalizeAlgorithm_valid alg :
  isValidAlgorithm alg = true → normalizeAlgorithm alg = alg.
Proof. by intros [-> | [-> | ->]]%valid_algorithm_cases. Qed.

(** What validation says about a configuration with a key. *)
Lemma validated_tsig c :
  Config_errors c = [] → HasTSIG c = true →
  HasSuffix (cfg_TSIGKeyName c) "." = true ∧ isValidAlgorithm (GetTSIGAlgorithm c) = true.
Proof.
  intros E Ht. unfold HasTSIG in Ht. apply andb_true_iff in Ht as [Hk Hs].
  unfold Config_errors, tsig_given in E. rewrite Hk in E. cbn [orb] in E.
  apply app_eq_nil in E as [_ E]. apply app_eq_nil in E as [_ E]. apply app_eq_nil in E as [E _].
  apply app_eq_nil in E as [Hkey%zone_errors_nil E]. apply app_eq_nil in E as [_ E].
  split; [apply Hkey|]. destruct (String.eqb_spec (cfg_TSIGAlgorithm c) "") as [Ha|]; simpl in E.
  - unfold GetTSIGAlgorithm. by rewrite Ha.
  - by destruct (isValidAlgorithm (GetTSIGAlgorithm c)).
Qed.

(** What validation accepts can be used: when the secret is a base64 text,
    a validated configuration gives a client, of the configured zone, with a
    TSIG key exactly when key name and secret are given. *)
Theorem NewClient_of_validated errText c :
  Config_Validate c = None → base64_ok (cfg_TSIGSecret c) = true →
  ∃ cl, NewClient errText (Some c) = inl cl ∧ cl_Zone cl = cfg_Zone c ∧
    HasSuffix (cl_Zone cl) "." = true ∧
    (is_Some (cl_tsig cl) ↔ HasTSIG c = true) ∧
    (∀ t, cl_tsig cl = Some t →
       tsig_Name t = cfg_TSIGKeyName c ∧ tsig_Secret t = cfg_TSIGSecret c ∧
       isValidAlgorithm (tsig_Algorithm t) = true).
Proof.
  intros Hv Hb. unfold NewClient. rewrite Hv. revert Hv.
  unfold Config_Validate. destruct (Config_errors c) as [|e es] eqn:E; [intros _|done].
  assert (HasSuffix (cfg_Zone c) "." = true) as Hz.
  { pose proof E as E'. unfold Config_errors in E'. apply app_eq_nil in E' as [_ E'].
    by apply app_eq_nil in E' as [[_ ?]%zone_errors_nil _]. }
  unfold TSIGFromConfig. destruct (HasTSIG c) eqn:Ht; simpl.
  - destruct (validated_tsig c E Ht) as [Hk Ha]. unfold NewTSIG.
    rewrite Hb, (normalizeAlgorithm_valid _ Ha), Ha, with_dot_id by done. simpl.
    eexists. split; [done|]. split_and!; [done|done|by split|]. by intros t [= <-].
  - eexists. split; [done|]. split_and!; [done|done|by split; [intros []|]|done].
Qed.
