(* ===== verification/Rfc2136.v ===== *)
(** * The RFC 2136 provider (providers/rfc2136/provider.go, factory.go)

    The provider keeps records on a DNS server through the client of
    DnsClient and enumerates them through the catalog of Catalog.  It is an
    implementation of the interface [Provider] of Effects, on a world with
    the server and the catalog objects that were allocated. *)
From S2P Require Import Prelude GoStrings Errors ProviderTypes Matcher GoMaps Effects NetIP.
From S2P Require Import DnsRecord DnsClient Catalog DnsConfig.
From S2P Require Import Instance Registry Actions.
From Stdlib Require Import ZArith.

Definition MaxUint32 : Z := 4294967295.

Definition clampTTL (v : Z) : Z :=
  if (v <? 0)%Z then 0%Z else if (MaxUint32 <? v)%Z then MaxUint32 else v.

Definition recordTypeToUint16 (rt : RecordType) : Z :=
  if rt == RecordTypeA then TypeA
  else if rt == RecordTypeAAAA then TypeAAAA
  else if rt == RecordTypeCNAME then TypeCNAME
  else if rt == RecordTypeTXT then TypeTXT
  else if rt == RecordTypeSRV then TypeSRV
  else TypeA.

Definition uint16ToRecordType (t : Z) : option RecordType :=
  if (t =? TypeA)%Z then Some RecordTypeA
  else if (t =? TypeAAAA)%Z then Some RecordTypeAAAA
  else if (t =? TypeCNAME)%Z then Some RecordTypeCNAME
  else if (t =? TypeTXT)%Z then Some RecordTypeTXT
  else if (t =? TypeSRV)%Z then Some RecordTypeSRV
  else None.

(** Go's [rfc2136.Provider]; client and catalog are pointers. *)
Record RProvider := mkRProvider {
  rp_name : string;
  rp_server : string;
  rp_zone : string;
  rp_ttl : Z;
  rp_client : nilable Client;
  rp_has_catalog : bool
}.

(** [record, err := m] *)
Definition op_try {S A} (m : Op S A) : Op S (A + derror) :=
  op_catch (a ← m; mret (inl a)) (λ e, mret (inr e)).

Section Provider.
Context `{DnsNames} {W : Type} `{DnsServer W}.
Context (fuel : nat) (p : RProvider).

Definition zoneWithoutDot : string := TrimSuffix (rp_zone p) ".".

(** [p.ensureFQDN]; [toRFC2136Record] builds its name the same way. *)
Definition p_ensureFQDN (hostname : string) : string :=
  let name := hostname in
  if HasSuffix name "." then name
  else if HasSuffix name zoneWithoutDot || HasSuffix name ("." ++s zoneWithoutDot)
  then name ++s "."
  else name ++s "." ++s zoneWithoutDot ++s ".".

Definition toRFC2136Record (record : DNSRecord) : ZRecord + derror :=
  let name := p_ensureFQDN (r_Hostname record) in
  let ttl := if (0 <? r_TTL record)%Z then clampTTL (r_TTL record) else clampTTL (rp_ttl p) in
  let rt := r_Type record in
  let r := mkZRecord name (recordTypeToUint16 rt) ttl in
  if (rt == RecordTypeA) || (rt == RecordTypeAAAA) then inl (r (r_Target record) 0%Z 0%Z 0%Z)
  else if rt == RecordTypeCNAME then inl (r (with_dot (r_Target record)) 0%Z 0%Z 0%Z)
  else if rt == RecordTypeTXT then inl (r (r_Target record) 0%Z 0%Z 0%Z)
  else if rt == RecordTypeSRV then
    inl (match r_SRV record with
         | Some s => r (with_dot (r_Target record)) (srv_Priority s) (srv_Weight s) (srv_Port s)
         | None => r (with_dot (r_Target record)) 0%Z 0%Z 0%Z
         end)
  else inr (DNew ("unsupported record type: " ++s rt)).

Definition fromRFC2136Record (r : ZRecord) : DNSRecord + derror :=
  match uint16ToRecordType (zr_Type r) with
  | None => inr (DNew ("unsupported record type: " ++s TypeString r))
  | Some recordType =>
      inl (mkRecord (TrimSuffix (zr_Name r) ".") recordType (TrimSuffix (zr_RData r) ".") (zr_TTL r)
             (zr_Name r ++s ":" ++s TypeString r ++s ":" ++s zr_RData r)
             (if recordType == RecordTypeSRV
              then Some (mkSRVData (zr_Priority r) (zr_Weight r) (zr_Port r)) else None)
             None ∅)
  end.

Abbreviation POp := (Op (W * Catalog)).

(** A method call on the client, which panics on a nil client. *)
Definition with_client {A} (k : Client → POp A) : POp A :=
  match rp_client p with Some c => k c | None => op_panic end.

Definition p_Ping : POp unit := with_client (λ c, on_client (DnsClient.Ping c)).

(** The ownership marker of a hostname, if its TXT records hold one. *)
Fixpoint ownershipOfHost (ownershipName ownershipFQDN : string) (records : list ZRecord)
  : list DNSRecord :=
  match records with
  | [] => []
  | r :: records =>
      if (zr_Type r =? TypeTXT)%Z && IsDnsweaverOwned (zr_RData r)
      then [mkRecord ownershipName RecordTypeTXT (zr_RData r) (zr_TTL r)
                     (ownershipFQDN ++s ":TXT:" ++s zr_RData r) None None ∅]
      else ownershipOfHost ownershipName ownershipFQDN records
  end.

(** The records that convert; the others are skipped. *)
Fixpoint convertRecords (l : list ZRecord) : list DNSRecord :=
  match l with
  | [] => []
  | r :: l =>
      match fromRFC2136Record r with
      | inl record => record :: convertRecords l
      | inr _ => convertRecords l
      end
  end.

Definition dataTypes : list Z := [TypeA; TypeAAAA; TypeCNAME; TypeSRV].

(** The data records of a name, type by type; failed queries are skipped. *)
Fixpoint listTypes (hostnameFQDN : string) (qtypes : list Z) : Op W (list DNSRecord) :=
  match qtypes with
  | [] => mret []
  | qtype :: qtypes =>
      r ← op_try (DnsClient.Query hostnameFQDN qtype);
      rest ← listTypes hostnameFQDN qtypes;
      mret (match r with inl l => convertRecords l ++ rest | inr _ => rest end)
  end.

(** The body of the loop of [List] on one hostname. *)
Definition listHostname (hostname : string) : Op W (list DNSRecord) :=
  let ownershipName := OwnershipRecordName hostname in
  let ownershipFQDN := p_ensureFQDN ownershipName in
  r ← op_try (DnsClient.Query ownershipFQDN TypeTXT);
  match r with
  | inr _ => mret []
  | inl ownershipRecords =>
      data ← listTypes (p_ensureFQDN hostname) dataTypes;
      mret (ownershipOfHost ownershipName ownershipFQDN ownershipRecords ++ data)
  end.

Fixpoint listHostnames (hostnames : list string) : Op W (list DNSRecord) :=
  match hostnames with
  | [] => mret []
  | hostname :: hostnames =>
      a ← listHostname hostname;
      b ← listHostnames hostnames;
      mret (a ++ b)
  end.

Definition p_List : POp (list DNSRecord) :=
  match rp_client p with
  | None => mret []
  | Some c =>
      if negb (rp_has_catalog p) then mret []
      else
        hostnames ← op_wrap (DWrapf "loading catalog: ") (Catalog.Hostnames (rp_zone p) fuel);
        on_client (listHostnames hostnames)
  end.

(** [if err := p.catalog.Add(..); err != nil { log }] *)
Definition ignore_error (m : POp unit) : POp unit := op_catch m (λ _, mret tt).

Definition cataloged (record : DNSRecord) : bool :=
  rp_has_catalog p && negb (IsOwnershipRecord (r_Hostname record)).

Definition p_Create (record : DNSRecord) : POp unit :=
  dnsRecord ← op_wrap (DWrapf "converting record: ") (op_lift (toRFC2136Record record));
  with_client (λ c,
    _ ← op_wrap (DWrapf ("creating record " ++s r_Hostname record ++s ": "))
          (on_client (DnsClient.Create c dnsRecord));
    if cataloged record then ignore_error (Catalog.Add c (rp_zone p) fuel (r_Hostname record))
    else mret tt).

Definition p_Delete (record : DNSRecord) : POp unit :=
  dnsRecord ← op_wrap (DWrapf "converting record: ") (op_lift (toRFC2136Record record));
  with_client (λ c,
    _ ← op_wrap (DWrapf ("deleting record " ++s r_Hostname record ++s ": "))
          (on_client (DnsClient.Delete c dnsRecord));
    if cataloged record then ignore_error (Catalog.Remove c (rp_zone p) fuel (r_Hostname record))
    else mret tt).

Definition p_Update (existing desired : DNSRecord) : POp unit :=
  oldRecord ← op_wrap (DWrapf "converting existing record: ") (op_lift (toRFC2136Record existing));
  newRecord ← op_wrap (DWrapf "converting desired record: ") (op_lift (toRFC2136Record desired));
  with_client (λ c,
    op_wrap (DWrapf ("updating record " ++s r_Hostname existing ++s ": "))
      (on_client (DnsClient.Update c oldRecord newRecord))).

Definition p_Identity : ProviderIdentity := mkIdentity "rfc2136" (rp_server p) (rp_zone p).

Definition p_Capabilities : Capabilities :=
  mkCapabilities true true
    [RecordTypeA; RecordTypeAAAA; RecordTypeCNAME; RecordTypeTXT; RecordTypeSRV].
End Provider.

(** ** The provider interface *)

(** The server, and the catalog objects allocated so far. *)
Record RWorld (W : Type) := mkRW { rw_net : W; rw_catalogs : list Catalog }.
Arguments mkRW {W} _ _.
Arguments rw_net {W} _.
Arguments rw_catalogs {W} _.

(** A [dnsupdate] error as an error of the provider interface: no sentinel of
    pkg/provider is in its chain. *)
Definition of_derror (e : derror) : error := ENew (derror_text e).

Section Interface.
Context `{DnsNames} {W : Type} `{DnsServer W}.
Context (fuel : nat).

(** Running an operation of the provider whose catalog is object [id].  The
    interface has no panics: they read as errors here. *)
Definition run_at {A} (id : nat) (m : Op (W * Catalog) A) (w : RWorld W) : outcome A * RWorld W :=
  match rw_catalogs w !! id with
  | None => (Panics, w)
  | Some c => let '(o, (w', c')) := m (rw_net w, c) in (o, mkRW w' (<[id := c']> (rw_catalogs w)))
  end.

Definition error_result (r : outcome unit * RWorld W) : option error * RWorld W :=
  (match r.1 with
   | Ok _ => None
   | Err e => Some (of_derror e)
   | Panics => Some (ENew "panic")
   | Diverges => Some (ENew "no termination")
   end, r.2).

Definition list_result (r : outcome (list DNSRecord) * RWorld W)
  : (list DNSRecord + error) * RWorld W :=
  (match r.1 with
   | Ok l => inl l
   | Err e => inr (of_derror e)
   | Panics => inr (ENew "panic")
   | Diverges => inr (ENew "no termination")
   end, r.2).

Definition rfc2136_provider (id : nat) (p : RProvider) : Provider (RWorld W) := {|
  prov_Name := rp_name p;
  prov_Type := "rfc2136";
  prov_Ping := λ w, error_result (run_at id (p_Ping p) w);
  prov_Capabilities := p_Capabilities;
  prov_List := λ w, list_result (run_at id (p_List fuel p) w);
  prov_Create := λ r w, error_result (run_at id (p_Create fuel p r) w);
  prov_Delete := λ r w, error_result (run_at id (p_Delete fuel p r) w);
  prov_Update := Some (λ e d w, error_result (run_at id (p_Update p e d) w));
  prov_Identity := Some (p_Identity p);
  prov_Close := None
|}.

(** [NewCatalog] allocates an object. *)
Definition alloc_catalog (w : RWorld W) : nat * RWorld W :=
  (length (rw_catalogs w), mkRW (rw_net w) (rw_catalogs w ++ [NewCatalog])).

(** [New]: the constructor for direct use. *)
Definition New (errText name : string) (config : nilable PConfig) (w : RWorld W)
  : (Provider (RWorld W) + error) * RWorld W :=
  match config with
  | None => (inr (ENew "config is required"), w)
  | Some config =>
      match PConfig_Validate config with
      | Some err => (inr (of_derror err), w)
      | None =>
          match NewClient errText (Some (ToDNSUpdateConfig config)) with
          | inr err => (inr (of_derror (DWrapf "creating dnsupdate client: " err)), w)
          | inl client =>
              let '(id, w) := alloc_catalog w in
              (inl (rfc2136_provider id
                      (mkRProvider name (pc_Server config) (pc_Zone config) (pc_TTL config)
                                   (Some client) true)), w)
          end
      end
  end.

(** [Factory]: what the provider registry calls. *)
Definition Factory (errText : string) : Registry.Factory (RWorld W) := λ cfg w,
  match LoadProviderConfigFromMap (fc_Name cfg) (fc_ProviderConfig cfg) with
  | inr err => (inr (of_derror err), w)
  | inl providerCfg =>
      match NewClient errText (Some (ToDNSUpdateConfig providerCfg)) with
      | inr err => (inr (of_derror err), w)
      | inl client =>
          let '(id, w) := alloc_catalog w in
          (inl (rfc2136_provider id
                  (mkRProvider (fc_Name cfg) "" (pc_Zone providerCfg) (pc_TTL providerCfg)
                               (Some client) true)), w)
      end
  end.
End Interface.

(** ** Identity *)

Section Identity.
Context `{RegexpEngine} `{DnsNames} {W : Type} `{DnsServer W}.
Context (fuel : nat) (errText : string).

Lemma Factory_identity cfg w (pr : Provider (RWorld W)) w' :
  Factory fuel errText cfg w = (inl pr, w') →
  IdentityOf pr = mkIdentity "rfc2136" "" (setting (fc_ProviderConfig cfg) "ZONE").
Proof.
  unfold Factory. destruct (LoadProviderConfigFromMap _ _) as [pc|] eqn:E; [|done].
  assert (pc_Zone pc = setting (fc_ProviderConfig cfg) "ZONE") as Hz.
  { unfold LoadProviderConfigFromMap in E. repeat case_match; by simplify_eq/=. }
  destruct (NewClient _ _); [|done]. intros [= <- _]. by rewrite <- Hz.
Qed.

(** Instances made by the factory are taken for one backend when their zones
    agree, whatever their servers: of two such instances with one record
    type, only the first is ever written to. *)
Theorem factory_instances_one_writer cfg1 cfg2 w1 w2 w1' w2' (p1 p2 : Provider (RWorld W))
    iid1 iid2 m1 m2 :
  Factory fuel errText (factoryConfig cfg1) w1 = (inl p1, w1') →
  Factory fuel errText (factoryConfig cfg2) w2 = (inl p2, w2') →
  setting (ic_ProviderConfig cfg1) "ZONE" = setting (ic_ProviderConfig cfg2) "ZONE" →
  ic_RecordType cfg1 = ic_RecordType cfg2 →
  selectWriters [] [newInstance cfg1 iid1 p1 m1; newInstance cfg2 iid2 p2 m2]
    = [newInstance cfg1 iid1 p1 m1].
Proof.
  intros E1%Factory_identity E2%Factory_identity Hz Ht. simpl in E1, E2.
  assert (writeKey (newInstance cfg1 iid1 p1 m1) = writeKey (newInstance cfg2 iid2 p2 m2)) as Hk.
  { unfold writeKey. simpl. by rewrite E1, E2, Hz, Ht. }
  simpl. rewrite Hk. by rewrite bool_decide_true.
Qed.
End Identity.

(** ** Names and zones *)

(** The client takes every name for one of the zone whose text ends with that
    of the zone: those of the zone, and those of any domain whose last label
    ends with the first label of the zone. *)
Theorem isInZone_text_suffix (c : Client) (prefix : string) :
  HasSuffix (cl_Zone c) "." = true →
  isInZone c (prefix ++s cl_Zone c) = true ∧
  ∀ name, isInZone c name = true ↔ ∃ a, ToLower name = a ++s ToLower (cl_Zone c).
Proof.
  intros Hz. unfold isInZone. rewrite with_dot_id by done. split.
  - rewrite ToLower_app. apply HasSuffix_app.
  - intros name. apply HasSuffix_spec.
Qed.

(** ** Records through the provider *)

Section RecordTrip.
Context `{DnsNames}.
Implicit Types (p : RProvider) (r : DNSRecord).

Lemma zone_dot p : HasSuffix (rp_zone p) "." = true → zoneWithoutDot p ++s "." = rp_zone p.
Proof.
  intros [z Hz]%HasSuffix_spec. unfold zoneWithoutDot. by rewrite Hz, TrimSuffix_app.
Qed.

Lemma p_ensureFQDN_dot p n : HasSuffix (p_ensureFQDN p n) "." = true.
Proof.
  unfold p_ensureFQDN. destruct (HasSuffix n ".") eqn:E; [done|].
  destruct (_ || _); [apply HasSuffix_app|]. by repeat apply HasSuffix_app_r.
Qed.

(** A name that the program uses for the zone: it ends with the zone's text,
    without the final dot. *)
Definition zone_name p (n : string) : Prop :=
  HasSuffix n "." = false ∧ HasSuffix n (zoneWithoutDot p) = true.

Lemma p_ensureFQDN_zone p n : zone_name p n → p_ensureFQDN p n = n ++s ".".
Proof. intros [Hd Hz]. unfold p_ensureFQDN. by rewrite Hd, Hz. Qed.

(** The data records that a list returns as they were created. *)
Definition listed_form p r : Prop :=
  zone_name p (r_Hostname r) ∧ HasSuffix (r_Target r) "." = false ∧
  ((r_Type r = RecordTypeA ∧ is_Some (parseIPv4 (r_Target r)) ∧ ip_kind (r_Target r) = Some "."%char) ∨
   (r_Type r = RecordTypeAAAA ∧ (ParseIP (r_Target r) ≫= To4) = None ∧
      IP_String <$> ParseIP (r_Target r) = Some (r_Target r)) ∨
   r_Type r = RecordTypeCNAME ∨ r_Type r = RecordTypeSRV).

(** What [List] must report for a record that was created. *)
Definition reported p r (r' : DNSRecord) : Prop :=
  r_Hostname r' = r_Hostname r ∧ r_Type r' = r_Type r ∧ r_Target r' = r_Target r ∧
  r_TTL r' = (if (0 <? r_TTL r)%Z then clampTTL (r_TTL r) else clampTTL (rp_ttl p)) ∧
  (r_Type r = RecordTypeSRV → r_SRV r' = Some (default (mkSRVData 0 0 0) (r_SRV r))).

Lemma TrimSuffix_dot s : TrimSuffix (s ++s ".") "." = s.
Proof. apply TrimSuffix_app. Qed.

Lemma with_dot_no s : HasSuffix s "." = false → with_dot s = s ++s ".".
Proof. unfold with_dot. by intros ->. Qed.

Lemma clampTTL_bounds v : (0 ≤ clampTTL v ≤ MaxUint32)%Z.
Proof. unfold clampTTL, MaxUint32. repeat case_match; bool_to_prop; lia. Qed.

(** A record in wire form that can be written is read back as it is. *)
Lemma wire_form_trip z rr : wire_form z → ToRR z = inl rr → RecordFromRR rr = inl z.
Proof. intros Hw (z' & Hz & _ & _ & _ & _ & Heq)%ToRR_roundtrip. by rewrite Hz, (Heq Hw). Qed.

Ltac prove_wire_form :=
  unfold wire_form; cbn; split_and!;
    solve [done | let Hx := fresh in intros Hx; exfalso; apply Hx; set_solver].
Ltac prove_reported :=
  eexists; split; [reflexivity|]; cbn; rewrite ?TrimSuffix_dot, ?TrimSuffix_id by done;
  split_and!; first [done | lia].

(** Records survive the trip to the server and back: a record in listed form
    is converted, written, read and converted back to a record with the same
    name, type, target and SRV data, and the TTL that was asked for (the
    provider's default when none was), in the range of the wire format. *)
Theorem provider_record_roundtrip p r :
  listed_form p r →
  ∃ z rr, toRFC2136Record p r = inl z ∧ ToRR z = inl rr ∧ RecordFromRR rr = inl z ∧
    ∃ r', fromRFC2136Record z = inl r' ∧ reported p r r' ∧ (0 ≤ r_TTL r' ≤ MaxUint32)%Z.
Proof.
  destruct r as [h t tg ttl pid srv https md]. intros (Hn & Hd & Hform). simpl in Hn, Hd, Hform.
  assert (∃ z rr, toRFC2136Record p (mkRecord h t tg ttl pid srv https md) = inl z ∧
    wire_form z ∧ ToRR z = inl rr ∧
    ∃ r', fromRFC2136Record z = inl r' ∧
      reported p (mkRecord h t tg ttl pid srv https md) r' ∧ (0 ≤ r_TTL r' ≤ MaxUint32)%Z)
    as (z & rr & ? & Hw & Hrr & ?); [|exists z, rr; split_and!; [done|done|by apply wire_form_trip|done]].
  unfold toRFC2136Record. cbn [r_Hostname r_TTL r_Type r_Target r_SRV].
  rewrite (p_ensureFQDN_zone p h Hn).
  assert (0 ≤ (if (0 <? ttl)%Z then clampTTL ttl else clampTTL (rp_ttl p)) ≤ MaxUint32)%Z as Httl
    by (destruct (0 <? ttl)%Z; apply clampTTL_bounds).
  unfold reported. cbn [r_Hostname r_TTL r_Type r_Target r_SRV].
  set (ttl' := if (0 <? ttl)%Z then _ else _) in *.
  pose proof (HasSuffix_app h ".") as Hdot.
  destruct Hform as [(-> & [l Hl] & Hk)|[(-> & H4 & H6)|[->| ->]]].
  - assert (ParseIP tg ≫= To4 = Some l) as Hp.
    { unfold ParseIP. rewrite Hk. simpl. rewrite Hl. apply (To4_app l). }
    cbn. do 2 eexists. split; [reflexivity|]. split; [prove_wire_form|].
    unfold ToRR. cbn. rewrite Hp. split; [done|]. prove_reported.
  - assert (∃ ip, ParseIP tg = Some ip ∧ To4 ip = None) as (ip & Hp & Hip).
    { destruct (ParseIP tg) as [ip|]; [|done]. by exists ip. }
    cbn. do 2 eexists. split; [reflexivity|]. split; [prove_wire_form|].
    unfold ToRR. cbn. rewrite Hp, Hip. split; [done|]. prove_reported.
  - cbn. do 2 eexists. split; [reflexivity|]. rewrite with_dot_no by done.
    pose proof (HasSuffix_app tg "."). split; [prove_wire_form|]. split; [done|]. prove_reported.
  - cbn. destruct srv as [[pr we po]|]; do 2 eexists; (split; [reflexivity|]);
      rewrite with_dot_no by done; pose proof (HasSuffix_app tg ".");
      (split; [prove_wire_form|]); (split; [done|]); prove_reported.
Qed.
End RecordTrip.

(** ** Creating, deleting and listing *)

Section Behaviour.
Context `{DnsNames} {W : Type} `{DnsServer W} `{!DnsServerLaws W}.
Context (fuel : nat) (p : RProvider) (c : Client).
Context (Hclient : rp_client p = Some c) (Hcatalog : rp_has_catalog p = true).
Context (Hzone : HasSuffix (rp_zone p) "." = true).
Context (Hcarried : carried (W:=W) (rp_zone p) fuel).
Implicit Types (w : W) (cat : Catalog) (r : DNSRecord) (chunks : list (list string)).

(** The names of the catalog's own records are not used for hostnames. *)
Definition not_chunk (name : string) : Prop :=
  ∀ i, ToLower (chunkRecordName (rp_zone p) i) ≠ ToLower (p_ensureFQDN p name).

Lemma catalog_at_update z u chunks :
  (∀ i, ToLower (chunkRecordName (rp_zone p) i) ≠ ToLower (update_name u)) →
  catalog_at (rp_zone p) z chunks → catalog_at (rp_zone p) (zone_update z u) chunks.
Proof using.
  intros Hn (Hz & Hok & Hnd). split_and!; [|done..].
  eapply zone_chunks_ext; [..|done]; intros i; by apply rrset_update_other.
Qed.

Lemma toRFC2136Record_name r z :
  toRFC2136Record p r = inl z → zr_Name z = p_ensureFQDN p (r_Hostname r).
Proof using. unfold toRFC2136Record. intros Hz. repeat case_match; by simplify_eq/=. Qed.

Lemma written_name r z rr :
  toRFC2136Record p r = inl z → ToRR z = inl rr →
  hdr_Name (rr_Hdr rr) = p_ensureFQDN p (r_Hostname r).
Proof using.
  intros Hz ->%ToRR_header. simpl. rewrite (toRFC2136Record_name _ _ Hz).
  apply with_dot_id, p_ensureFQDN_dot.
Qed.

(** The record operation at the start of [Create] and [Delete]. *)
Definition record_sent (mk : RR → UpdateRR) r (z z' : ZoneData) : Prop :=
  ∃ zr rr, toRFC2136Record p r = inl zr ∧ ToRR zr = inl rr ∧
    isInZone c (p_ensureFQDN p (r_Hostname r)) = true ∧ z' = zone_update z (mk rr).

Lemma one_update_sent {A} (mk : RR → UpdateRR) r zr w (o : outcome A) w' :
  toRFC2136Record p r = inl zr → one_update c mk zr w o w' →
  completes o ∧ (record_sent mk r (zone_of w) (zone_of w') ∨ (∃ e, o = Err e) ∧ zone_of w' = zone_of w).
Proof using.
  intros Hz. pose proof (toRFC2136Record_name _ _ Hz) as Hn. unfold one_update, record_sent.
  rewrite Hn, (with_dot_id _ (p_ensureFQDN_dot p _)).
  destruct o as [a|e| |]; [|intros [?|?]|done..]; (split; [done|]).
  - naive_solver.
  - right. eauto.
  - left. naive_solver.
Qed.

(** The record operation has been made, and the program goes on, or it has
    failed; the catalog is as it was. *)
Lemma record_step (mk : RR → UpdateRR) (m : Op W unit) f (k : unit → Op (W * Catalog) unit)
    r zr w cat chunks :
  (∀ rr, update_name (mk rr) = hdr_Name (rr_Hdr rr)) →
  toRFC2136Record p r = inl zr → (∀ o w', m w = (o, w') → one_update c mk zr w o w') →
  not_chunk (r_Hostname r) → catalog_at (rp_zone p) (zone_of w) chunks →
  ∃ w1, catalog_at (rp_zone p) (zone_of w1) chunks ∧
    ((record_sent mk r (zone_of w) (zone_of w1) ∧
      (op_wrap f (on_client m) ≫= k) (w, cat) = k tt (w1, cat)) ∨
     (∃ e, (op_wrap f (on_client m) ≫= k) (w, cat) = (Err e, (w1, cat)) ∧
       (zone_of w1 = zone_of w ∨ record_sent mk r (zone_of w) (zone_of w1)))).
Proof using.
  intros Hmk Ez Hlaw Hnc Hcat. destruct (m w) as [o1 w1] eqn:E1.
  assert (on_client m (w, cat) = (o1, (w1, cat))) as E1'
    by (unfold on_client, op_fst; simpl; by rewrite E1).
  destruct (one_update_sent _ _ _ _ _ _ Ez (Hlaw _ _ eq_refl)) as [Ho1 Hsent].
  exists w1. split.
  - destruct Hsent as [(zr' & rr & Hz & Hrr & _ & ->)|[_ ->]]; [|done].
    apply catalog_at_update; [|done]. by rewrite Hmk, (written_name _ _ _ Hz Hrr).
  - destruct o1 as [[]|e| |]; [left|right|done..].
    + rewrite (op_bind_run _ _ _ _ _ (op_wrap_run _ _ _ _ _ E1')).
      by destruct Hsent as [?|[[? ?] _]].
    + exists (f e). rewrite (op_bind_err _ _ _ _ _ (op_wrap_err _ _ _ _ _ E1')).
      split; [done|]. destruct Hsent as [?|[_ ?]]; [by right|by left].
Qed.

(** How far an operation got: the record's part [z], then the catalog's. *)
Definition record_then_catalog (mk : RR → UpdateRR) r w (o : outcome unit) w' : Prop :=
  completes o ∧
  ∃ z, same_but_chunks (rp_zone p) z (zone_of w') ∧
    match o with
    | Ok _ => record_sent mk r (zone_of w) z
    | _ => z = zone_of w ∨ record_sent mk r (zone_of w) z
    end.


(** *** Listing *)

Definition no_alias (z : ZoneData) (fqdn : string) : Prop := rrset z fqdn TypeCNAME = [].

Lemma op_try_run {T A : Type} (m : Op T A) st o st' :
  m st = (o, st') → completes o →
  ∃ res, op_try m st = (Ok res, st') ∧ ∀ a, res = inl a → o = Ok a.
Proof using.
  intros Hm Ho. unfold op_try, op_catch, mbind, Op_bind. rewrite Hm.
  destruct o as [a|e| |]; [| |done..]; eexists; (split; [done|]); naive_solver.
Qed.

Lemma RecordFromRR_name rr z : RecordFromRR rr = inl z → zr_Name z = hdr_Name (rr_Hdr rr).
Proof using. unfold RecordFromRR. intros Hz. by destruct (rr_Data rr); simplify_eq/=. Qed.

(** A query with errors caught: it ends, changes nothing, and what it returns
    is about the name asked for. *)
Lemma query_names fqdn t w :
  HasSuffix fqdn "." = true → no_alias (zone_of w) fqdn →
  ∃ res w1, op_try (DnsClient.Query fqdn t) w = (Ok res, w1) ∧ zone_of w1 = zone_of w ∧
    ∀ l, res = inl l → ∀ z, z ∈ l → zr_Name z = fqdn.
Proof using DnsServerLaws0.
  intros Hd Hna. destruct (DnsClient.Query fqdn t w) as [o w1] eqn:E.
  destruct (Query_law _ _ _ _ _ E) as (Hz & Ho & Hl); [right; by rewrite ensureFQDN_id|].
  destruct (op_try_run _ _ _ _ E Ho) as (r & Hr & Hrl). exists r, w1. split_and!; [done..|].
  intros l Hl' z. destruct (Hl l (Hrl l Hl')) as [(part & Hpart & ->) _].
  rewrite elem_of_readRecords. rewrite ensureFQDN_id in Hpart by done.
  intros (rr & Hin & ->%RecordFromRR_name). eapply elem_of_submseteq in Hin; [|exact Hpart].
  unfold answer_rrs in Hin.
  by apply list_elem_of_fmap in Hin as (e & -> & _).
Qed.

Lemma convertRecords_names fqdn l x :
  (∀ z, z ∈ l → zr_Name z = fqdn) → x ∈ convertRecords l → r_Hostname x = TrimSuffix fqdn ".".
Proof using.
  induction l as [|z l IH]; simpl; intros Hl; [by intros ?%not_elem_of_nil|].
  assert (∀ z, z ∈ l → zr_Name z = fqdn) as Hl' by (intros; apply Hl; by right).
  destruct (fromRFC2136Record z) as [y|] eqn:E; [|by apply IH].
  intros [->|?]%elem_of_cons; [|by apply IH].
  unfold fromRFC2136Record in E. destruct (uint16ToRecordType (zr_Type z)); [|done].
  simplify_eq/=. by rewrite (Hl z) by left.
Qed.

Lemma listTypes_sound fqdn ts w :
  HasSuffix fqdn "." = true → no_alias (zone_of w) fqdn →
  ∃ l w1, listTypes fqdn ts w = (Ok l, w1) ∧ zone_of w1 = zone_of w ∧
    ∀ x, x ∈ l → r_Hostname x = TrimSuffix fqdn ".".
Proof using DnsServerLaws0.
  intros Hd. revert w. induction ts as [|t ts IH]; intros w Hna; simpl.
  { exists [], w. split_and!; [done..|]. by intros x ?%not_elem_of_nil. }
  destruct (query_names fqdn t w Hd Hna) as (r & w1 & Hr & Hw1 & Hl).
  rewrite (op_bind_run _ _ _ _ _ Hr).
  destruct (IH w1) as (l & w2 & Hlt & Hw2 & Hnames); [by rewrite Hw1|].
  rewrite (op_bind_run _ _ _ _ _ Hlt). eexists _, w2. split; [done|]. split; [congruence|].
  destruct r as [l0|e]; [|done]. intros x [Hx|Hx]%elem_of_app; [|by apply Hnames].
  eapply convertRecords_names; [|done]. by apply Hl.
Qed.

Lemma ownershipOfHost_names a b l x : x ∈ ownershipOfHost a b l → r_Hostname x = a.
Proof using.
  induction l as [|z l IH]; simpl; [by intros ?%not_elem_of_nil|].
  destruct (_ && _); [|done]. by intros ->%list_elem_of_singleton.
Qed.

(** The names of the records that are listed for a hostname. *)
Definition listed_name (n x : string) : Prop :=
  x = OwnershipRecordName n ∨ x = TrimSuffix (p_ensureFQDN p n) ".".

Lemma listHostname_sound n w :
  no_alias (zone_of w) (p_ensureFQDN p n) →
  no_alias (zone_of w) (p_ensureFQDN p (OwnershipRecordName n)) →
  ∃ l w1, listHostname p n w = (Ok l, w1) ∧ zone_of w1 = zone_of w ∧
    ∀ x, x ∈ l → listed_name n (r_Hostname x).
Proof using DnsServerLaws0.
  intros Hna Hno. unfold listHostname.
  destruct (query_names (p_ensureFQDN p (OwnershipRecordName n)) TypeTXT w) as (r & w1 & Hr & Hw1 & _);
    [apply p_ensureFQDN_dot|done|].
  rewrite (op_bind_run _ _ _ _ _ Hr). destruct r as [own|e].
  - destruct (listTypes_sound (p_ensureFQDN p n) dataTypes w1) as (l & w2 & Hl & Hw2 & Hnames);
      [apply p_ensureFQDN_dot|by rewrite Hw1|].
    rewrite (op_bind_run _ _ _ _ _ Hl). eexists _, w2. split; [done|]. split; [congruence|].
    intros x [Hx|Hx]%elem_of_app; [left|right].
    + by eapply ownershipOfHost_names.
    + by apply Hnames.
  - eexists _, w1. split_and!; [done..|]. by intros x ?%not_elem_of_nil.
Qed.

Lemma listHostnames_sound ns w :
  (∀ n, n ∈ ns → no_alias (zone_of w) (p_ensureFQDN p n) ∧
                 no_alias (zone_of w) (p_ensureFQDN p (OwnershipRecordName n))) →
  ∃ l w1, listHostnames p ns w = (Ok l, w1) ∧ zone_of w1 = zone_of w ∧
    ∀ x, x ∈ l → ∃ n, n ∈ ns ∧ listed_name n (r_Hostname x).
Proof using DnsServerLaws0.
  revert w. induction ns as [|n ns IH]; intros w Hna; simpl.
  { exists [], w. split_and!; [done..|]. by intros x ?%not_elem_of_nil. }
  destruct (Hna n) as [Hn Ho]; [by left|].
  destruct (listHostname_sound n w Hn Ho) as (l & w1 & Hl & Hw1 & Hx).
  rewrite (op_bind_run _ _ _ _ _ Hl).
  destruct (IH w1) as (l' & w2 & Hl' & Hw2 & Hx'); [rewrite Hw1; intros m Hm; apply Hna; by right|].
  rewrite (op_bind_run _ _ _ _ _ Hl'). eexists _, w2. split; [done|]. split; [congruence|].
  intros x [?|?]%elem_of_app; [exists n; split; [by left|by apply Hx]|].
  destruct (Hx' x) as (m & ? & ?); [done|]. exists m. split; [by right|done].
Qed.

(** Names without an alias, for the queries of [List]. *)
Definition plain_names (z : ZoneData) (ns : list string) : Prop :=
  ∀ n, n ∈ ns → zone_name p n ∧ no_alias z (p_ensureFQDN p n) ∧
                no_alias z (p_ensureFQDN p (OwnershipRecordName n)).

(** Listing.  On a catalog in order, whose names are names of the zone and no
    aliases, with a cache that agrees, [List] changes nothing on the server,
    always ends, and every record it returns is of a name in the catalog: its
    ownership marker or a data record of it. *)
Theorem List_sound w cat chunks o w' cat' :
  catalog_at (rp_zone p) (zone_of w) chunks → length chunks < fuel → cache_agrees cat chunks →
  plain_names (zone_of w) (concat chunks) →
  p_List fuel p (w, cat) = (o, (w', cat')) →
  zone_of w' = zone_of w ∧ completes o ∧
  ∀ l, o = Ok l → ∀ x, x ∈ l →
    ∃ n, n ∈ concat chunks ∧ (r_Hostname x = OwnershipRecordName n ∨ r_Hostname x = n).
Proof using All.
  intros Hcat Hfuel Hc Hplain. unfold p_List. rewrite Hclient, Hcatalog. simpl.
  destruct (Catalog.Hostnames (rp_zone p) fuel (w, cat)) as [r1 [w1 cat1]] eqn:E1.
  pose proof (catalog_Hostnames_spec _ Hzone _ Hcarried _ _ _ _ _ _ Hcat Hfuel Hc E1) as (Hw1 & Hr1 & Hl1).
  destruct r1 as [ns|e| |]; [| |done..].
  2: { rewrite (op_bind_err _ _ _ _ _ (op_wrap_err _ _ _ _ _ E1)). by intros [= <- <- <-]. }
  rewrite (op_bind_run _ _ _ _ _ (op_wrap_run _ _ _ _ _ E1)).
  destruct (Hl1 ns eq_refl) as [Hns _].
  destruct (listHostnames_sound ns w1) as (l & w2 & Hl & Hw2 & Hx).
  { intros n Hn. rewrite Hns in Hn. rewrite Hw1. by destruct (Hplain n Hn) as (_ & ? & ?). }
  unfold on_client, op_fst. simpl. rewrite Hl. intros [= <- <- <-]. split; [congruence|].
  split; [done|]. intros l' [= <-] x Hin. destruct (Hx x Hin) as (n & Hn & Hname).
  rewrite Hns in Hn. exists n. split; [done|]. destruct (Hplain n Hn) as (Hzn & _).
  destruct Hname as [?|Hname]; [by left|right].
  by rewrite Hname, (p_ensureFQDN_zone p n Hzn), TrimSuffix_dot.
Qed.

(** Deleting one record of a name hides the others.  On a catalog in order,
    when [Delete] of a data record succeeds and the entry of its name could
    be removed from the catalog, the server keeps the name's records of other
    types, but no later [List] with that cache returns any record of the
    name: those records are out of the program's sight. *)
Theorem Delete_hides_name r w cat chunks w' cat' l st u :
  catalog_at (rp_zone p) (zone_of w) chunks → length chunks < fuel →
  normalizeHostname (r_Hostname r) = r_Hostname r → IsOwnershipRecord (r_Hostname r) = false →
  (∀ i, chunks !! i = Some [r_Hostname r] → S i = length chunks) →
  not_chunk (r_Hostname r) → plain_names (zone_of w') (concat chunks) →
  p_Delete fuel p r (w, cat) = (Ok u, (w', cat')) →
  p_List fuel p (w', cat') = (Ok l, st) →
  (∃ e w1, Catalog.Remove c (rp_zone p) fuel (r_Hostname r) (w1, cat) = (Err e, (w', cat'))) ∨
  ((∀ x, x ∈ l → r_Hostname x ≠ r_Hostname r) ∧
   ∀ t, t ≠ recordTypeToUint16 (r_Type r) →
     rrset (zone_of w') (p_ensureFQDN p (r_Hostname r)) t
     = rrset (zone_of w) (p_ensureFQDN p (r_Hostname r)) t).
Proof using All.
  intros Hcat Hfuel Hnorm Hown Hhole Hnc Hplain. unfold p_Delete, with_client. rewrite Hclient.
  destruct (toRFC2136Record p r) as [zr|e] eqn:Ez; [|done].
  rewrite (op_bind_run _ _ _ zr (w, cat)) by done.
  edestruct (record_step URemove (DnsClient.Delete c zr)) as
    (w1 & Hcat1 & [[Hsent ->]|(e & -> & Hsent)]); [done|done|apply Delete_law|done|done| |done].
  unfold cataloged. rewrite Hcatalog, Hown. simpl. unfold ignore_error, op_catch.
  destruct (Catalog.Remove c (rp_zone p) fuel (r_Hostname r) (w1, cat)) as [o2 [w2 cat2]] eqn:E2.
  pose proof E2 as E2'.
  apply (catalog_Remove_spec c (rp_zone p) Hzone fuel Hcarried _ _ _ chunks) in E2
    as (Ho2 & chunks' & Hc' & Hsame & Hlen & Hp & Hok); [|done|done|by rewrite Hnorm].
  destruct o2 as [[]|e| |]; [| |done..].
  2: { intros [= <- <- <-] _. left. eauto. }
  intros [= <- <- <-] Hlist. right. destruct (Hok tt eq_refl) as (Hgone & Hl & Hcache).
  rewrite Hnorm in Hp, Hgone. split.
  - assert (∀ x, x ∈ concat chunks' → x ∈ concat chunks) as Hsub.
    { intros x Hx. destruct Hp as [<-| ->]; [done|by right]. }
    destruct st as [w3 cat3].
    pose proof (List_sound w2 cat2 chunks' _ _ _ Hc' ltac:(lia) ltac:(intros _; apply Hcache)
      ltac:(intros n Hn; by apply Hplain, Hsub) Hlist) as (_ & _ & Hls).
    intros x Hx. destruct (Hls l eq_refl x Hx) as (n & Hn & [-> | ->]); [|by intros ->].
    intros He. assert (IsOwnershipRecord (r_Hostname r) = true) as Ht; [|congruence].
    apply IsOwnershipRecord_spec. exists n. split; [|done].
    by apply (catalog_name_nonempty _ _ _ _ Hc' Hn).
  - intros t Ht. rewrite Hsame by (intros i [Hi _]; by apply (Hnc i)).
    destruct Hsent as (zr' & rr & Hz & Hrr & _ & ->).
    assert (hdr_Rrtype (rr_Hdr rr) = recordTypeToUint16 (r_Type r)) as Hrt.
    { rewrite (ToRR_header _ _ Hrr). simpl. revert Hz. unfold toRFC2136Record.
      intros Hz. repeat case_match; by simplify_eq/=. }
    simpl. rewrite rrset_put, bool_decide_false; [done|]. intros [_ ?]. congruence.
Qed.
End Behaviour.
