(* ===== verification/DnsScenarios.v ===== *)
(** * DNS scenarios

    The theorems about the RFC 2136 provider at concrete inputs: the server
    [zone_server] on the zone example.com., with and without a catalog. *)
From S2P Require Import Prelude GoStrings Errors ProviderTypes Matcher GoMaps Effects NetIP.
From S2P Require Import DnsRecord DnsClient Catalog CatalogSpec DnsConfig.
From S2P Require Import Instance MemProvider Registry Actions Rfc2136.
From Stdlib Require Import ZArith.

#[local] Existing Instance some_names.
#[local] Existing Instance glob_engine.

Definition example : string := "example.com.".
Definition example_client : Client := mkClient example None.
Definition example_provider : RProvider :=
  mkRProvider "ns1" "192.0.2.53:53" example 300 (Some example_client) true.

Lemma example_dot : HasSuffix example "." = true.
Proof. reflexivity. Qed.

(** ** Zones with a catalog *)

(** The chunks written one after the other. *)
Definition put_chunks (z : ZoneData) (chunks : list (list string)) : ZoneData :=
  fold_left (λ z ic, fold_left zone_update
      (UDeleteRRset (chunkRecordName example ic.1) TypeTXT ::
       if (0 <? length ic.2)%nat then [UInsert (chunkRR example ic.1 ic.2)] else []) z)
    (imap pair chunks) z.

Lemma put_chunks_spec z chunks :
  zone_chunks example z (λ _, []) →
  zone_chunks example (put_chunks z chunks) (at_index chunks).
Proof.
  intros Hz. induction chunks as [|chunk chunks IH] using rev_ind; [done|].
  unfold put_chunks in *. rewrite imap_app, fold_left_app. simpl.
  eapply zone_chunks_eq; [|apply put_chunk, IH]. intros i. rewrite Nat.add_0_r. apply put_at_end.
Qed.

Lemma put_chunks_catalog z chunks :
  zone_chunks example z (λ _, []) → Forall chunk_ok chunks → NoDup (concat chunks) →
  catalog_at example (put_chunks z chunks) chunks.
Proof. intros. split_and!; [by apply put_chunks_spec|done|done]. Qed.

Lemma empty_chunks : zone_chunks example ∅ (λ _, []).
Proof. by intros i. Qed.

(** Chunk records start with an underscore. *)
Lemma chunk_underscore i n :
  HasPrefix (ToLower n) "_" = false → ToLower (chunkRecordName example i) ≠ ToLower n.
Proof. intros Hn E. rewrite <- E in Hn. by change (true = false) in Hn. Qed.

#[export] Instance chunk_ok_dec chunk : Decision (chunk_ok chunk).
Proof. unfold chunk_ok, good_name, within_limits. apply _. Defined.

Definition three_names : list (list string) := [["a.example.com"]; ["b.example.com"]; ["c.example.com"]].
Definition three_zone : ZoneData := put_chunks ∅ three_names.

Lemma three_catalog : catalog_at example three_zone three_names.
Proof.
  apply put_chunks_catalog; [apply empty_chunks|by apply (bool_decide_unpack _)..].
Qed.

Definition up (z : ZoneData) : ZoneWorld := mkZW z [].

Lemma no_hole_intro z chunks h :
  catalog_at example z chunks → (∀ i, chunks !! i = Some [h] → S i = length chunks) →
  no_hole example z h.
Proof.
  intros (Hz & _) Hh i Hi. destruct (Hz i) as [Htxt _], (Hz (S i)) as [Htxt' _].
  rewrite Hi in Htxt. unfold at_index in *. destruct (chunks !! i) as [chunk|] eqn:E; [|done].
  assert (chunk = [h]) as -> by (by destruct chunk; simplify_eq/=).
  rewrite (lookup_ge_None_2 chunks (S i)) in Htxt' by (specialize (Hh i E); lia).
  by apply map_eq_nil in Htxt'.
Qed.

(** A message over TCP holds the answer for every chunk within the limits. *)
Lemma example_carried : carried (W:=ZoneWorld) example 10.
Proof.
  intros i chunk Hi (_ & _ & [_ Hb]).
  assert (rdata_size (RDTXT chunk) = chunkBytes chunk) as Hr.
  { clear. induction chunk as [|h chunk IH]; [done|]. simpl in *. by rewrite IH. }
  unfold chunk_answer_size. rewrite Hr. unfold CatalogMaxChunkBytes in Hb.
  assert (name_size (chunkRecordName example i) <= 300)%Z as Hn
    by (do 10 (destruct i as [|i]; [by vm_compute|]); lia).
  change (answer_limit (W:=ZoneWorld)) with 65535%Z. lia.
Qed.

(** *** The same server over UDP

    An answer of more than 512 bytes comes back truncated, with nothing in it;
    the client takes that for an empty RRset. *)
Record UdpWorld := mkUdp { udp_zone : ZoneData }.
#[local] Instance udp_server : DnsServer UdpWorld := {|
  exchange msg w :=
    match msg with
    | QueryMsg n t =>
        (inl (mkResp RcodeSuccess
                (if (answer_size (udp_zone w) n t <=? 512)%Z then answer_rrs (udp_zone w) n t else []) false), w)
    | UpdateMsg _ ns _ => (inl (mkResp RcodeSuccess [] false), mkUdp (fold_left zone_update ns (udp_zone w)))
    end;
  transfer_In _ _ w := (inr (DNew "transfer refused"), w)
|}.
#[local] Instance udp_laws : DnsServerLaws UdpWorld.
Proof.
  refine {| zone_of := udp_zone; answer_limit := 512 |}; simpl.
  - intros n t w r w' [= <- <-]. split; [done|]. intros resp [= <-]. simpl. split; [done|]. intros _ _.
    destruct (Z.leb_spec (answer_size (udp_zone w) n t) 512); split; [done|done|apply submseteq_nil_l|lia].
  - by intros z ns ts w r w' [= <- <-].
Defined.

(** Thirty names are in one chunk, as they should be; the next name that is
    added replaces them all, and the addition succeeds. *)
Definition thirty_names : list string :=
  map (λ i, "host-" ++s itoa (Z.of_nat i) ++s ".example.com") (seq 10 30).
Example truncated_catalog_overwritten :
  let z := put_chunks ∅ [thirty_names] in
  let r := Catalog.Add example_client example 10 "new.example.com" (mkUdp z, NewCatalog) in
  chunk_ok thirty_names ∧ r.1 = Ok tt ∧
  map snd (rrset (udp_zone r.2.1) (chunkRecordName example 0) TypeTXT) = [RDTXT ["new.example.com"]].
Proof. split; [by apply (bool_decide_unpack _)|]. split; vm_compute; reflexivity. Qed.

(** A removal at the end of the catalog and two additions, with a server that
    loses the last update. *)
Definition op1 : NameOp := OpRemove "C.example.com.".
Definition op2 : NameOp := OpAdd "d.example.com".
Definition op3 : NameOp := OpAdd "e.example.com".
Abbreviation example_exec := (exec example_client example 10).
Definition state0 : ZoneWorld * Catalog := (mkZW three_zone (replicate 12 false ++ [true]), NewCatalog).
Definition state1 : ZoneWorld * Catalog := (example_exec op1 state0).2.
Definition state2 : ZoneWorld * Catalog := (example_exec op2 state1).2.
Definition state3 : ZoneWorld * Catalog := (example_exec op3 state2).2.
Definition write_error : derror :=
  DWrapf "writing catalog chunk 0: " (DWrapf "dns update failed: " (DNew "i/o timeout")).

Lemma scenario_run :
  exec_run example_client example 10 [(op1, true); (op2, true); (op3, false)] state0 state3.
Proof.
  apply (exec_run_cons _ _ _ op1 _ _ (Ok tt) state1); [|vm_compute; reflexivity|].
  { apply (no_hole_intro _ three_names); [apply three_catalog|].
    intros [|[|[|i]]] Hi; vm_compute in Hi; simplify_eq. done. }
  apply (exec_run_cons _ _ _ op2 _ _ (Ok tt) state2); [|vm_compute; reflexivity|].
  { by apply (bool_decide_unpack _). }
  apply (exec_run_cons _ _ _ op3 _ _ (Err write_error) state3); [|vm_compute; reflexivity|].
  { by apply (bool_decide_unpack _). }
  constructor.
Qed.


(** Removing the middle name of three chunks. *)
Definition hole_state : ZoneWorld * Catalog :=
  (Catalog.Remove example_client example 10 "b.example.com" (up three_zone, NewCatalog)).2.

Lemma Remove_gap_loses_names_witness :
  ∃ c'', loadLocked example 10 hole_state = (Ok tt, (hole_state.1, c'')) ∧
    ∀ x, x ∈ concat [["c.example.com"]] →
      is_Some (cat_hostnames hole_state.2 !! x) ∧ cat_hostnames c'' !! x = None.
Proof.
  exists (loadLocked example 10 hole_state).2.2. split; [vm_compute; reflexivity|].
  apply (Remove_gap_loses_names example_client example example_dot 10 example_carried "b.example.com"
           (up three_zone) NewCatalog [["a.example.com"]] [["c.example.com"]] tt
           hole_state.1 hole_state.2 tt hole_state.2 hole_state.1).
  - apply three_catalog.
  - simpl. lia.
  - vm_compute. reflexivity.
  - vm_compute. reflexivity.
Defined.

Lemma packChunks_spec_witness :
  concat (packChunks ["a.example.com"; "b.example.com"]) = ["a.example.com"; "b.example.com"].
Proof.
  apply (packChunks_spec ["a.example.com"; "b.example.com"]).
  by apply (bool_decide_unpack _).
Defined.

(** ** The client *)

Definition a_record : ZRecord := NewARecord "app.example.com." "192.0.2.10" 300.
Definition cname_record : ZRecord := NewCNAMERecord "app.example.com." "lb.example.com." 300.
Definition created : ZoneWorld := (DnsClient.Create example_client a_record (up ∅)).2.
Definition updated : ZoneWorld := (DnsClient.Update example_client a_record cname_record created).2.

Lemma Create_then_Query_witness :
  (DnsClient.Query "app.example.com." TypeA created).1 = Ok [a_record] ∧ a_record ∈ [a_record].
Proof.
  split; [vm_compute; reflexivity|].
  apply (Create_then_Query example_client a_record (up ∅) tt created [a_record] created).
  - vm_compute. reflexivity.
  - intros rr Hrr. vm_compute in Hrr. injection Hrr as <-. vm_compute. reflexivity.
  - vm_compute. reflexivity.
  - by vm_compute.
  - unfold wire_form. cbn. split_and!; try done.
    intros Hx. exfalso. apply Hx. set_solver.
Defined.


(** A name outside the zone that the client accepts. *)
Lemma isInZone_text_suffix_witness : isInZone example_client "notexample.com." = true.
Proof. exact (proj1 (isInZone_text_suffix example_client "not" eq_refl)). Defined.

(** ** Configuration *)

Definition server_config (server : string) : DnsConfig.Config :=
  DnsConfig.mkConfig server example "dnsweaver." "c2VjcmV0" "" 0 false.

Lemma GetServer_spec_witness : GetServer (server_config "[2001:db8::1]") = "[[2001:db8::1]]:53".
Proof.
  destruct (GetServer_spec (server_config "[2001:db8::1]")) as (_ & _ & H).
  exact (H "2001:db8::1" eq_refl eq_refl eq_refl).
Defined.

Lemma NewClient_of_validated_witness :
  ∃ cl, NewClient "" (Some (server_config "192.0.2.53")) = inl cl ∧
    cl_tsig cl = Some (mkTSIG "dnsweaver." "c2VjcmV0" HmacSHA256).
Proof.
  destruct (NewClient_of_validated "" (server_config "192.0.2.53")) as (cl & Hcl & _);
    [reflexivity|reflexivity|]. exists cl. split; [exact Hcl|].
  by vm_compute in Hcl; injection Hcl as <-.
Defined.

(** ** The provider *)

Definition rfc_config (name server target : string) : ProviderInstanceConfig :=
  mkInstanceConfig name "rfc2136" RecordTypeA target 300 ModeManaged ["*.example.com"] [] [] [] ∅
    {[ "SERVER" := server; "ZONE" := example ]}.
Definition internal_dns : ProviderInstanceConfig := rfc_config "internal" "10.0.0.53" "10.0.0.80".
Definition external_dns : ProviderInstanceConfig := rfc_config "external" "203.0.113.53" "203.0.113.80".
Definition rfc_made (cfg : ProviderInstanceConfig) : Provider (RWorld ZoneWorld) :=
  rfc2136_provider 10 0
    (mkRProvider (ic_Name cfg) "" example 300 (Some (mkClient example None)) true).
Definition rfc_world : RWorld ZoneWorld := mkRW (up ∅) [].
Definition rfc_instance (cfg : ProviderInstanceConfig) : ProviderInstance (RWorld ZoneWorld) :=
  newInstance cfg "" (rfc_made cfg) (mem_matcher ["*.example.com"]).

(** One zone on an internal and an external server: the external one is
    never written to. *)
Lemma factory_instances_one_writer_witness :
  selectWriters [] [rfc_instance internal_dns; rfc_instance external_dns]
  = [rfc_instance internal_dns].
Proof.
  exact (factory_instances_one_writer 10 "" internal_dns external_dns rfc_world rfc_world
           (mkRW (up ∅) [NewCatalog]) (mkRW (up ∅) [NewCatalog])
           (rfc_made internal_dns) (rfc_made external_dns) "" ""
           (mem_matcher ["*.example.com"]) (mem_matcher ["*.example.com"])
           eq_refl eq_refl eq_refl eq_refl).
Defined.

Definition data_record (t : RecordType) (target : string) : DNSRecord :=
  mkRecord "app.example.com" t target 0 "" None None ∅.

Lemma provider_record_roundtrip_witness :
  ∃ z rr, toRFC2136Record example_provider (data_record RecordTypeAAAA "2001:db8::1") = inl z ∧
    ToRR z = inl rr ∧ RecordFromRR rr = inl z ∧
    ∃ r', fromRFC2136Record z = inl r' ∧
      reported example_provider (data_record RecordTypeAAAA "2001:db8::1") r' ∧
      (0 ≤ r_TTL r' ≤ MaxUint32)%Z.
Proof.
  apply (provider_record_roundtrip example_provider (data_record RecordTypeAAAA "2001:db8::1")).
  split; [done|]. split; [done|]. right. left. done.
Defined.

(** A name with an IPv4 and an IPv6 address, in the catalog. *)
Definition dual_base : ZoneData :=
  fold_left zone_update
    [UInsert (mkRR (mkHdr "app.example.com." TypeA ClassINET 300) (RDA [192; 0; 2; 10]%Z));
     UInsert (mkRR (mkHdr "app.example.com." TypeAAAA ClassINET 300)
                (RDAAAA [32;1;13;184;0;0;0;0;0;0;0;0;0;0;0;1]%Z))] ∅.
Definition dual_names : list (list string) := [["app.example.com"; "web.example.com"]].
Definition dual_zone : ZoneData := put_chunks dual_base dual_names.

Lemma app_not_chunk : not_chunk example_provider "app.example.com".
Proof. intros i. apply chunk_underscore. reflexivity. Qed.

Lemma dual_catalog : catalog_at example dual_zone dual_names.
Proof.
  apply put_chunks_catalog; [|by apply (bool_decide_unpack _)..].
  eapply zone_chunks_ext; [| |apply empty_chunks]; intros i; unfold dual_base; cbn [fold_left];
    by rewrite !rrset_update_other by apply (app_not_chunk i).
Qed.

Definition dual_deleted : ZoneWorld * Catalog :=
  (p_Delete 10 example_provider (data_record RecordTypeA "192.0.2.10") (up dual_zone, NewCatalog)).2.
Definition dual_listed : outcome (list DNSRecord) * (ZoneWorld * Catalog) :=
  p_List 10 example_provider dual_deleted.


(** After the IPv4 address is deleted, the IPv6 address is not listed. *)
Lemma Delete_hides_name_witness :
  dual_listed.1 = Ok [] ∧
  rrset (zw_zone dual_deleted.1) "app.example.com." TypeAAAA ≠ [] ∧
  ((∃ e w1, Catalog.Remove example_client example 10 "app.example.com" (w1, NewCatalog)
            = (Err e, (dual_deleted.1, dual_deleted.2))) ∨
   ((∀ x, x ∈ [] → r_Hostname x ≠ "app.example.com") ∧
    ∀ t, t ≠ TypeA → rrset (zone_of dual_deleted.1) "app.example.com." t
                     = rrset (zone_of (up dual_zone)) "app.example.com." t)).
Proof.
  split; [vm_compute; reflexivity|]. split; [by vm_compute|].
  apply (Delete_hides_name 10 example_provider example_client eq_refl eq_refl example_dot example_carried
           (data_record RecordTypeA "192.0.2.10") (up dual_zone) NewCatalog dual_names
           dual_deleted.1 dual_deleted.2 [] dual_listed.2 tt).
  - apply dual_catalog.
  - simpl. lia.
  - reflexivity.
  - reflexivity.
  - intros [|i] Hi; vm_compute in Hi; simplify_eq.
  - apply app_not_chunk.
  - intros n Hn. simpl in Hn. rewrite !elem_of_cons, elem_of_nil in Hn.
    destruct Hn as [->|[->|[]]]; vm_compute; done.
  - vm_compute. reflexivity.
  - vm_compute. reflexivity.
Defined.
