(* ===== verification/Manager.v ===== *)
(** * The provider manager (pkg/provider/manager.go)

    The manager makes provider instances and keeps those that cannot be
    reached in a list of pending providers, which it tries again with growing
    intervals.  The pending entries are objects: the map holds their
    addresses, and the retry loop works on the addresses it collected.  Times
    and durations are in nanoseconds; the clock belongs to the world.  Locks
    and logging are left out. *)
From S2P Require Import Prelude GoStrings Errors ProviderTypes Matcher GoMaps Effects Instance.
From S2P Require Import NetIP MemProvider Registry GoTime.
From Stdlib Require Import ZArith Floats.SpecFloat.

(** Go leaves open what converting a float outside the range gives. *)
Class FloatConv := {
  out_of_range : spec_float → Z;
  out_of_range_int64 f : (- 2 ^ 63 ≤ out_of_range f < 2 ^ 63)%Z
}.

(** ** Conversion of float64 *)

(** [time.Duration(f)]: truncation towards zero. *)
Definition int64_of `{FloatConv} (f : spec_float) : Z :=
  match f with
  | S754_zero _ => 0
  | S754_finite s m e =>
      let abs := if (0 <=? e)%Z then (Zpos m * 2 ^ e)%Z else (Zpos m / 2 ^ (- e))%Z in
      let v := if s then (- abs)%Z else abs in
      if (- 2 ^ 63 <=? v)%Z && (v <? 2 ^ 63)%Z then v else out_of_range f
  | S754_infinity _ | S754_nan => out_of_range f
  end.

(** ** Data *)

Record PendingProvider := mkPending {
  pp_Config : ProviderInstanceConfig;
  pp_LastError : option error;
  pp_LastAttempt : Z;
  pp_AttemptCount : Z;
  pp_NextRetryAt : Z;
  pp_RetryInterval : Z
}.

Record PendingProviderStatus := mkPendingStatus {
  ps_Name : string;
  ps_Type : string;
  ps_LastError : string;
  ps_LastAttempt : Z;
  ps_AttemptCount : Z;
  ps_NextRetryAt : Z
}.

Record ProviderStatus := mkStatus {
  st_Name : string;
  st_Type : string;
  st_Available : bool;
  st_Error : string
}.

(** The gauges and counters of internal/metrics that the manager sets, by
    provider name and type, and by name and result. *)
Record Metrics := mkMetrics {
  ProviderAvailable : gmap (string * string) Z;
  ProviderInitRetries : gmap (string * string) nat;
  ProvidersReady : nat;
  ProvidersPending : nat
}.

Section Manager.
Context `{RegexpEngine} `{MapOrder} `{FloatConv} {W : Type} `{Clock W}.

Record ManagerConfig := mkManagerConfig {
  mc_InitialRetryInterval : Z;
  mc_MaxRetryInterval : Z;
  mc_RetryBackoffMultiplier : spec_float;
  mc_OnProviderReady : nilable (string → ProviderInstance W → W → W)
}.

Definition DefaultManagerConfig : ManagerConfig :=
  mkManagerConfig (5 * time_Second) (5 * time_Minute) (float64_of 2) None.

Record Manager := mkManager {
  mg_registry : Registry W;
  mg_config : ManagerConfig;
  mg_heap : gmap nat PendingProvider;
  mg_next : nat;
  mg_pending : gmap string nat;
  mg_metrics : Metrics
}.

(** Without options. *)
Definition NewManager (registry : Registry W) : Manager :=
  mkManager registry DefaultManagerConfig ∅ 0 ∅ (mkMetrics ∅ ∅ 0 0).

Definition WithManagerConfig (cfg : ManagerConfig) (m : Manager) : Manager :=
  mkManager (mg_registry m) cfg (mg_heap m) (mg_next m) (mg_pending m) (mg_metrics m).

Definition SetOnProviderReady (fn : nilable (string → ProviderInstance W → W → W)) (m : Manager)
  : Manager :=
  WithManagerConfig
    (mkManagerConfig (mc_InitialRetryInterval (mg_config m)) (mc_MaxRetryInterval (mg_config m))
                     (mc_RetryBackoffMultiplier (mg_config m)) fn) m.

(** *** Field updates *)

Definition set_registry (r : Registry W) (m : Manager) : Manager :=
  mkManager r (mg_config m) (mg_heap m) (mg_next m) (mg_pending m) (mg_metrics m).

Definition set_metrics (f : Metrics → Metrics) (m : Manager) : Manager :=
  mkManager (mg_registry m) (mg_config m) (mg_heap m) (mg_next m) (mg_pending m)
            (f (mg_metrics m)).

(** [m.pending[name] = &PendingProvider{..}] *)
Definition add_pending (name : string) (p : PendingProvider) (m : Manager) : Manager :=
  mkManager (mg_registry m) (mg_config m) (<[mg_next m := p]> (mg_heap m)) (S (mg_next m))
            (<[name := mg_next m]> (mg_pending m)) (mg_metrics m).

Definition delete_pending (name : string) (m : Manager) : Manager :=
  mkManager (mg_registry m) (mg_config m) (mg_heap m) (mg_next m)
            (delete name (mg_pending m)) (mg_metrics m).

(** Assignments through a pointer. *)
Definition update_pending (a : nat) (f : PendingProvider → PendingProvider) (m : Manager)
  : Manager :=
  mkManager (mg_registry m) (mg_config m) (alter f a (mg_heap m)) (mg_next m)
            (mg_pending m) (mg_metrics m).

(** *** Metrics *)

Definition set_available (name type : string) (v : Z) (m : Manager) : Manager :=
  set_metrics (λ t, mkMetrics (<[(name, type) := v]> (ProviderAvailable t))
                      (ProviderInitRetries t) (ProvidersReady t) (ProvidersPending t)) m.

Definition inc_retries (name result : string) (m : Manager) : Manager :=
  set_metrics (λ t, mkMetrics (ProviderAvailable t)
                      (<[(name, result) := S (default 0 (ProviderInitRetries t !! (name, result)))]>
                         (ProviderInitRetries t))
                      (ProvidersReady t) (ProvidersPending t)) m.

Definition updateCountMetricsLocked (m : Manager) : Manager :=
  set_metrics (λ t, mkMetrics (ProviderAvailable t) (ProviderInitRetries t)
                      (Count (mg_registry m)) (size (mg_pending m))) m.

(** *** Status *)

Definition PendingCount (m : Manager) : nat := size (mg_pending m).
Definition ReadyCount (m : Manager) : nat := Count (mg_registry m).
Definition TotalCount (m : Manager) : nat := ReadyCount m + PendingCount m.
Definition IsFullyReady (m : Manager) : bool := (PendingCount m =? 0)%nat.

(** The pending entries, in the order of a range over the map. *)
Definition pending_entries (m : Manager) : list PendingProvider :=
  omap (λ '(_, a), mg_heap m !! a) (range (mg_pending m)).

(** [p.LastError.Error()] panics on nil. *)
Definition PendingProviders (m : Manager) : option (list PendingProviderStatus) :=
  mapM (λ p,
    e ← pp_LastError p;
    Some (mkPendingStatus (ic_Name (pp_Config p)) (ic_TypeName (pp_Config p)) (Error e)
            (pp_LastAttempt p) (pp_AttemptCount p) (pp_NextRetryAt p)))
    (pending_entries m).

Definition AllProviderStatuses (m : Manager) : option (list ProviderStatus) :=
  pending ← mapM (λ p,
    e ← pp_LastError p;
    Some (mkStatus (ic_Name (pp_Config p)) (ic_TypeName (pp_Config p)) false (Error e)))
    (pending_entries m);
  Some (map (λ inst, mkStatus (pi_Name inst) (pi_Type inst) true "") (All (mg_registry m))
        ++ pending).

(** *** Operations *)

(** An operation of the registry. *)
Definition on_registry {A} (p : M W (Registry W) A) : M W Manager A := λ s,
  let '(o, s') := p (mkSt (st_world s) (st_calls s) (mg_registry (st_local s))) in
  (o, mkSt (st_world s') (st_calls s') (set_registry (st_local s') (st_local s))).

Definition on_registry_state (f : Registry W → Registry W) : M W Manager unit :=
  modify_local (λ m, set_registry (f (mg_registry m)) m).

Definition time_Now : M W Manager Z := with_world now.

(** Creating an instance and the connectivity check, the common part of
    [InitializeProvider] and [retryProvider]: the error, and whether the
    instance was found and answered. *)
Definition connect (cfg : ProviderInstanceConfig) : M W Manager (option error * bool) :=
  err <- on_registry (CreateInstance cfg) ;;
  match err with
  | Some e => ret (Some e, false)
  | None =>
      m <- get_local ;;
      match Get (mg_registry m) (ic_Name cfg) with
      | None => ret (None, false)
      | Some inst =>
          pingErr <- call (CallPing (pi_Name inst)) (prov_Ping (pi_Provider inst)) ;;
          match pingErr with
          | Some e =>
              on_registry_state (λ r, (Remove (ic_Name cfg) r).2) ;;;
              ret (Some (EWrapf "connectivity check failed: " e), false)
          | None => ret (None, true)
          end
      end
  end.

Definition InitializeProvider (cfg : ProviderInstanceConfig) : M W Manager (option error) :=
  match Config_Validate cfg with
  | Some err =>
      ret (Some (EWrapf ("invalid provider config " ++s Quote (ic_Name cfg) ++s ": ") err))
  | None =>
      res <- connect cfg ;;
      if res.2 : bool then
        modify_local (set_available (ic_Name cfg) (ic_TypeName cfg) 1) ;;;
        modify_local updateCountMetricsLocked ;;;
        ret None
      else
        attempt <- time_Now ;;
        t <- time_Now ;;
        modify_local (λ m,
          let interval := mc_InitialRetryInterval (mg_config m) in
          add_pending (ic_Name cfg)
            (mkPending cfg res.1 attempt 1 (t + interval)%Z interval) m) ;;;
        modify_local (set_available (ic_Name cfg) (ic_TypeName cfg) 0) ;;;
        modify_local (inc_retries (ic_Name cfg) "failed") ;;;
        modify_local updateCountMetricsLocked ;;;
        match res.1 with
        | None => panic
        | Some _ => ret None
        end
  end.

(** The new interval after a failure. *)
Definition nextInterval (c : ManagerConfig) (interval : Z) : Z :=
  let newInterval := int64_of (float64_mul (float64_of interval) (mc_RetryBackoffMultiplier c)) in
  if (mc_MaxRetryInterval c <? newInterval)%Z then mc_MaxRetryInterval c else newInterval.

Definition retryProvider (a : nat) : M W Manager unit :=
  m <- get_local ;;
  match mg_heap m !! a with
  | None => panic
  | Some pending =>
      let cfg := pp_Config pending in
      res <- connect cfg ;;
      match res.1 with
      | None =>
          modify_local (delete_pending (ic_Name cfg)) ;;;
          modify_local (set_available (ic_Name cfg) (ic_TypeName cfg) 1) ;;;
          modify_local (inc_retries (ic_Name cfg) "success") ;;;
          modify_local updateCountMetricsLocked ;;;
          m <- get_local ;;
          match mc_OnProviderReady (mg_config m) with
          | None => ret tt
          | Some onReady =>
              match Get (mg_registry m) (ic_Name cfg) with
              | Some inst => with_world (λ w, (tt, onReady (ic_Name cfg) inst w))
              | None => ret tt
              end
          end
      | Some e =>
          attempt <- time_Now ;;
          t <- time_Now ;;
          modify_local (λ m,
            update_pending a (λ p,
              let newInterval := nextInterval (mg_config m) (pp_RetryInterval p) in
              mkPending (pp_Config p) (Some e) attempt (pp_AttemptCount p + 1)
                        (t + newInterval)%Z newInterval) m) ;;;
          modify_local (inc_retries (ic_Name cfg) "failed")
      end
  end.

(** [now.After(t) || now.Equal(t)] *)
Definition due (m : Manager) (t : Z) (e : string * nat) : bool :=
  match mg_heap m !! e.2 with
  | Some p => (pp_NextRetryAt p <? t)%Z || (pp_NextRetryAt p =? t)%Z
  | None => false
  end.

(** The body of one tick of the retry loop. *)
Definition retryPendingProviders : M W Manager unit :=
  t <- time_Now ;;
  m <- get_local ;;
  let toRetry := map snd (List.filter (due m t) (range (mg_pending m))) in
  foldM (λ _ a, retryProvider a) tt toRetry.

(** [initializeProviders] of cmd/dnsweaver/setup.go, on the configurations
    that [ToProviderConfig] gives. *)
Fixpoint initializeProviders (cfgs : list ProviderInstanceConfig) : M W Manager (option error) :=
  match cfgs with
  | [] => ret None
  | cfg :: cfgs =>
      err <- InitializeProvider cfg ;;
      match err with
      | Some e => ret (Some (EWrapf ("invalid provider config " ++s ic_Name cfg ++s ": ") e))
      | None => initializeProviders cfgs
      end
  end.
End Manager.
Arguments ManagerConfig : clear implicits.
Arguments ManagerConfig {_} W.
Arguments Manager : clear implicits.
Arguments Manager {_} W.

(** ** The connectivity check *)
Section Connect.
Context `{RegexpEngine} {W : Type}.
Implicit Types (cfg : ProviderInstanceConfig) (r : Registry W) (m : Manager W).
Implicit Types (s : St W (Manager W)).

(** Registries that answer alike: a heap with more garbage. *)
Record same_registry r r' : Prop := mkSameRegistry {
  sr_instances : reg_instances r' = reg_instances r;
  sr_byName : reg_byName r' = reg_byName r;
  sr_factories : reg_factories r' = reg_factories r;
  sr_instanceID : reg_instanceID r' = reg_instanceID r;
  sr_heap : ∀ a, a ∈ reg_instances r → reg_heap r' !! a = reg_heap r !! a
}.

#[global] Instance same_registry_refl : Reflexive same_registry.
Proof. by split. Qed.

Lemma same_registry_All r r' : same_registry r r' → All r' = All r.
Proof.
  intros [Hi _ _ _ Hh]. unfold All. rewrite Hi. clear Hi.
  induction (reg_instances r) as [|a l IH]; [done|].
  rewrite !deref_cons, (Hh a ltac:(by left)). rewrite IH; [done|]. intros b Hb. apply Hh. by right.
Qed.

Lemma same_registry_Get r r' n : registry_wf r → same_registry r r' → Get r' n = Get r n.
Proof.
  intros Hwf [_ Hn _ _ Hh]. unfold Get. rewrite Hn.
  destruct (reg_byName r !! n) as [a|] eqn:E; [|done]. simpl. apply Hh.
  apply (rw_names _ Hwf). by exists n.
Qed.

(** Adding an instance and taking it out again. *)
Lemma remove_first_end a l : a ∉ l → remove_first a (l ++ [a]) = l.
Proof.
  induction l as [|b l IH]; simpl; intros Ha; [by rewrite Nat.eqb_refl|].
  destruct (Nat.eqb_spec b a); [set_solver|]. rewrite IH by set_solver. done.
Qed.

Lemma Remove_added n i r :
  registry_wf r → reg_byName r !! n = None →
  same_registry r (Remove n (add_instance n i r)).2.
Proof.
  intros Hwf Hn. unfold Remove. simpl. rewrite lookup_insert_eq.
  assert (reg_next r ∉ reg_instances r) as Hfresh by (intros Hin%(rw_alloc _ Hwf)%(rw_next _ Hwf); lia).
  split; simpl; [by rewrite remove_first_end|by rewrite delete_insert_id|done..|].
  intros a Ha. rewrite lookup_insert_ne; [done|]. by intros <-.
Qed.

Lemma creates_wf cfg r r' : creates cfg r r' → registry_wf r → registry_wf r'.
Proof. intros (f & p & d & w & w' & _ & Hn & _ & _ & _ & ->) ?. by apply add_instance_wf. Qed.

Lemma creates_Get cfg r r' :
  creates cfg r r' → registry_wf r → is_Some (Get r' (ic_Name cfg)) ∧
  ∀ n, n ≠ ic_Name cfg → Get r' n = Get r n.
Proof.
  intros (f & p & d & w & w' & _ & Hn & _ & _ & _ & ->) Hwf. split.
  - rewrite Get_add, String.eqb_refl by done. by eexists.
  - intros n Hne. rewrite Get_add by done. by destruct (String.eqb_spec (ic_Name cfg) n).
Qed.

Lemma creates_names cfg r r' :
  creates cfg r r' → dom (reg_byName r') = {[ic_Name cfg]} ∪ dom (reg_byName r) ∧
  reg_factories r' = reg_factories r ∧ reg_instanceID r' = reg_instanceID r ∧
  Count r' = S (Count r).
Proof.
  intros (f & p & d & w & w' & _ & Hn & _ & _ & _ & ->). simpl. split_and!; [|done..|].
  - by rewrite dom_insert_L.
  - unfold Count. simpl. rewrite length_app. simpl. lia.
Qed.

Lemma creates_factory cfg r r' :
  creates cfg r r' → is_Some (reg_factories r !! ic_TypeName cfg).
Proof. intros (f & _ & _ & _ & _ & _ & _ & Hf & _). exists f. exact Hf. Qed.

Lemma on_registry_run {A} (p : M W (Registry W) A) s :
  on_registry p s =
  let '(o, s') := p (mkSt (st_world s) (st_calls s) (mg_registry (st_local s))) in
  (o, mkSt (st_world s') (st_calls s') (set_registry (st_local s') (st_local s))).
Proof. done. Qed.

Lemma set_registry_id m : set_registry (mg_registry m) m = m.
Proof. by destruct m. Qed.

Lemma set_registry_twice r r' m : set_registry r (set_registry r' m) = set_registry r m.
Proof. done. Qed.

(** The outcomes of [connect]: an error and a registry that answers as before,
    or the new instance in the registry. *)
Definition connect_outcome cfg m (res : option (option error * bool)) m' : Prop :=
  ∃ r', m' = set_registry r' m ∧ registry_wf r' ∧
    ((∃ e, res = Some (Some e, false) ∧ same_registry (mg_registry m) r') ∨
     (res = Some (None, true) ∧ creates cfg (mg_registry m) r')).

Lemma connect_cases cfg s :
  registry_wf (mg_registry (st_local s)) →
  connect_outcome cfg (st_local s) (connect cfg s).1 (st_local (connect cfg s).2).
Proof.
  intros Hwf. destruct (connect cfg s) as [res s'] eqn:Ec; simpl. unfold connect, bind at 1 in Ec.
  rewrite on_registry_run in Ec.
  set (s0 := mkSt (st_world s) (st_calls s) (mg_registry (st_local s))) in Ec.
  pose proof (CreateInstance_cases cfg s0) as Hc. destruct (CreateInstance cfg s0) as [o s1] eqn:E.
  simpl in Hc, Ec. destruct Hc as [(e & -> & Hl)|[-> Hc]]; simpl in Ec.
  { injection Ec as <- <-. exists (st_local s1). rewrite Hl. split_and!; [done..|]. left. by exists e. }
  rewrite bind_get in Ec. simpl in Ec. pose proof (creates_wf _ _ _ Hc Hwf) as Hwf1.
  destruct (creates_Get _ _ _ Hc Hwf) as [[inst Hinst] _]. rewrite Hinst in Ec.
  unfold bind at 1, call in Ec. simpl in Ec.
  destruct (prov_Ping (pi_Provider inst) (st_world s1)) as [[e|] w]; simpl in Ec;
    injection Ec as <- <-.
  - exists (Remove (ic_Name cfg) (st_local s1)).2. split_and!; [done|by apply Remove_wf|].
    left. eexists. split; [done|].
    destruct Hc as (f & p & d & w1 & w' & _ & Hn & _ & _ & _ & ->).
    apply Remove_added; [exact Hwf|exact Hn].
  - exists (st_local s1). split_and!; [done..|]. by right.
Qed.

Lemma connect_result cfg m res m' :
  connect_outcome cfg m res m' →
  (∃ e, res = Some (Some e, false)) ∨ res = Some (None, true).
Proof. intros (r' & _ & _ & [(e & -> & _)|[-> _]]); eauto. Qed.
End Connect.

(** ** The invariant *)
Section Invariant.
Context `{RegexpEngine} `{MapOrder} `{FloatConv} {W : Type} `{Clock W}.
Implicit Types (cfg : ProviderInstanceConfig) (m : Manager W) (s : St W (Manager W)).

(** Pending entries are allocated, filed under the name of their accepted
    configuration and hold an error; no pending name is registered; the
    gauges show the counts. *)
Record manager_wf m : Prop := mkManagerWf {
  mw_registry : registry_wf (mg_registry m);
  mw_entry n a : mg_pending m !! n = Some a →
    ∃ p, mg_heap m !! a = Some p ∧ ic_Name (pp_Config p) = n ∧
      Config_Validate (pp_Config p) = None ∧ is_Some (pp_LastError p);
  mw_next a : is_Some (mg_heap m !! a) → a < mg_next m;
  mw_disjoint n : is_Some (mg_pending m !! n) → reg_byName (mg_registry m) !! n = None;
  mw_ready : ProvidersReady (mg_metrics m) = Count (mg_registry m);
  mw_pending : ProvidersPending (mg_metrics m) = size (mg_pending m)
}.

Lemma NewManager_wf r : registry_wf r → Count r = 0 → manager_wf (NewManager r).
Proof.
  intros Hwf Hc. split; simpl; try done.
  - intros a [p Hp]. by rewrite lookup_empty in Hp.
  - intros n [a Hn]. by rewrite lookup_empty in Hn.
Qed.

(** What an operation leaves in the manager. *)
Definition now_ready cfg (r' : Registry W) m : Manager W :=
  updateCountMetricsLocked (set_available (ic_Name cfg) (ic_TypeName cfg) 1 (set_registry r' m)).

Definition now_pending cfg (r' : Registry W) (e : error) (attempt t : Z) m : Manager W :=
  let interval := mc_InitialRetryInterval (mg_config m) in
  updateCountMetricsLocked (inc_retries (ic_Name cfg) "failed"
    (set_available (ic_Name cfg) (ic_TypeName cfg) 0
      (add_pending (ic_Name cfg) (mkPending cfg (Some e) attempt 1 (t + interval)%Z interval)
        (set_registry r' m)))).

Definition recovered cfg (r' : Registry W) m : Manager W :=
  updateCountMetricsLocked (inc_retries (ic_Name cfg) "success"
    (set_available (ic_Name cfg) (ic_TypeName cfg) 1
      (delete_pending (ic_Name cfg) (set_registry r' m)))).

(** The entry after a failed retry. *)
Definition retried (c : ManagerConfig W) (e : error) (attempt t : Z) (p : PendingProvider)
  : PendingProvider :=
  let newInterval := nextInterval c (pp_RetryInterval p) in
  mkPending (pp_Config p) (Some e) attempt (pp_AttemptCount p + 1) (t + newInterval) newInterval.

Definition still_pending (a : nat) cfg (r' : Registry W) (e : error) (attempt t : Z) m : Manager W :=
  inc_retries (ic_Name cfg) "failed"
    (update_pending a (retried (mg_config m) e attempt t) (set_registry r' m)).

(** *** Initialisation *)

Lemma InitializeProvider_invalid cfg err s :
  Config_Validate cfg = Some err →
  InitializeProvider cfg s
  = (Some (Some (EWrapf ("invalid provider config " ++s Quote (ic_Name cfg) ++s ": ") err)), s).
Proof. intros E. unfold InitializeProvider. by rewrite E. Qed.

Definition initialized cfg m m' : Prop :=
  ∃ r', registry_wf r' ∧
    ((creates cfg (mg_registry m) r' ∧ m' = now_ready cfg r' m) ∨
     (same_registry (mg_registry m) r' ∧ ∃ e attempt t, m' = now_pending cfg r' e attempt t m)).

Lemma InitializeProvider_valid cfg s :
  registry_wf (mg_registry (st_local s)) → Config_Validate cfg = None →
  (InitializeProvider cfg s).1 = Some None ∧
  initialized cfg (st_local s) (st_local (InitializeProvider cfg s).2).
Proof.
  intros Hwf HV. destruct (InitializeProvider cfg s) as [res s'] eqn:E; simpl.
  unfold InitializeProvider in E. rewrite HV in E. unfold bind at 1 in E.
  pose proof (connect_cases cfg s Hwf) as Hc. unfold connect_outcome in Hc.
  destruct (connect cfg s) as [o s1]; simpl in *.
  destruct Hc as (r' & Hl & Hwf' & [(e & -> & Hs)|[-> Hc]]); simpl in E; injection E as <- <-;
    (split; [done|]); exists r'; rewrite ?Hl; (split; [done|]).
  - right. split; [done|]. by eexists _, _, _.
  - by left.
Qed.

(** The names the manager knows. *)
Definition known m : gset string := dom (reg_byName (mg_registry m)) ∪ dom (mg_pending m).

Lemma not_known n m :
  n ∉ known m ↔ reg_byName (mg_registry m) !! n = None ∧ mg_pending m !! n = None.
Proof. unfold known. rewrite not_elem_of_union, !not_elem_of_dom. done. Qed.

Lemma now_ready_wf cfg r' m :
  manager_wf m → registry_wf r' → creates cfg (mg_registry m) r' → ic_Name cfg ∉ known m →
  manager_wf (now_ready cfg r' m) ∧ known (now_ready cfg r' m) = {[ic_Name cfg]} ∪ known m.
Proof.
  intros [Hr He Hn Hd _ _] Hwf' Hc [_ Hk]%not_known.
  destruct (creates_names _ _ _ Hc) as (Hdom & _). split.
  - split; simpl; try done. intros n Hp. apply not_elem_of_dom. rewrite Hdom.
    apply not_elem_of_union. split; [|by apply not_elem_of_dom, Hd].
    intros ->%elem_of_singleton. rewrite Hk in Hp. by destruct Hp.
  - unfold known. simpl. rewrite Hdom. set_solver.
Qed.

Lemma lookup_fresh m a : manager_wf m → is_Some (mg_heap m !! a) → a ≠ mg_next m.
Proof. intros Hwf Ha%(mw_next _ Hwf). lia. Qed.

Lemma now_pending_wf cfg r' e attempt t m :
  manager_wf m → registry_wf r' → same_registry (mg_registry m) r' → ic_Name cfg ∉ known m →
  Config_Validate cfg = None →
  manager_wf (now_pending cfg r' e attempt t m) ∧
  known (now_pending cfg r' e attempt t m) = {[ic_Name cfg]} ∪ known m.
Proof.
  intros Hwf Hwf' Hs [Hb Hk]%not_known HV. pose proof Hwf as [Hr He Hn Hd _ _].
  pose proof (sr_byName _ _ Hs) as Hbn. split.
  - split; simpl; try done.
    + intros n a [[<- <-]|[Hne Ha]]%lookup_insert_Some.
      * eexists. split_and!; [apply lookup_insert_eq|done|done|by eexists].
      * destruct (He n a Ha) as (p & Hp & Hname & HVp & Herr). exists p.
        rewrite lookup_insert_ne; [done|]. symmetry. apply (lookup_fresh m a Hwf). by eexists.
    + intros a [x [[<- _]|[_ Ha]]%lookup_insert_Some]; [lia|].
      pose proof (Hn a ltac:(by eexists)). lia.
    + intros n [a [[<- _]|[_ Ha]]%lookup_insert_Some]; rewrite Hbn; [done|].
      apply Hd. by eexists.
  - unfold known. simpl. rewrite Hbn, dom_insert_L. set_solver.
Qed.

Lemma InitializeProvider_wf cfg s :
  manager_wf (st_local s) → Config_Validate cfg = None → ic_Name cfg ∉ known (st_local s) →
  manager_wf (st_local (InitializeProvider cfg s).2) ∧
  known (st_local (InitializeProvider cfg s).2) = {[ic_Name cfg]} ∪ known (st_local s).
Proof.
  intros Hwf HV Hk.
  destruct (InitializeProvider_valid cfg s (mw_registry _ Hwf) HV)
    as (_ & r' & Hwf' & [[Hc ->]|(Hs & e & attempt & t & ->)]).
  - by apply now_ready_wf.
  - by apply now_pending_wf.
Qed.

(** *** Retries *)

Definition retry_outcome (a : nat) cfg (res : option (option error * bool)) m m' : Prop :=
  ∃ r', registry_wf r' ∧
    ((res = Some (None, true) ∧ creates cfg (mg_registry m) r' ∧ m' = recovered cfg r' m) ∨
     (∃ e attempt t, res = Some (Some e, false) ∧ same_registry (mg_registry m) r' ∧
        m' = still_pending a cfg r' e attempt t m)).

Lemma retryProvider_cases a p s :
  registry_wf (mg_registry (st_local s)) → mg_heap (st_local s) !! a = Some p →
  (retryProvider a s).1 = Some tt ∧
  retry_outcome a (pp_Config p) (connect (pp_Config p) s).1
    (st_local s) (st_local (retryProvider a s).2).
Proof.
  intros Hwf Ha. destruct (retryProvider a s) as [res s'] eqn:E; simpl.
  unfold retryProvider in E. rewrite bind_get, Ha in E. unfold bind at 1 in E.
  pose proof (connect_cases (pp_Config p) s Hwf) as Hc. unfold connect_outcome in Hc.
  destruct (connect (pp_Config p) s) as [o s1]; simpl in *.
  destruct Hc as (r' & Hl & Hwf' & [(e & -> & Hs)|[-> Hc]]); simpl in E.
  - injection E as <- <-. split; [done|]. exists r'. split; [done|]. right.
    simpl. rewrite Hl. by eexists e, _, _.
  - rewrite !bind_modify, bind_get in E. simpl in E. rewrite Hl in E.
    assert (res = Some tt ∧ st_local s' = recovered (pp_Config p) r' (st_local s)) as [-> ->].
    { destruct (mc_OnProviderReady _); [destruct (Get _ _)|]; by injection E as <- <-. }
    split; [done|]. exists r'. split; [done|]. by left.
Qed.

Lemma recovered_wf cfg r' m :
  manager_wf m → registry_wf r' → creates cfg (mg_registry m) r' →
  is_Some (mg_pending m !! ic_Name cfg) →
  manager_wf (recovered cfg r' m) ∧ known (recovered cfg r' m) = known m.
Proof.
  intros [Hr He Hn Hd _ _] Hwf' Hc Hp. destruct (creates_names _ _ _ Hc) as (Hdom & _). split.
  - split; simpl; try done.
    + intros n a [_ Ha]%lookup_delete_Some. by apply He.
    + intros n [a [Hne Ha]%lookup_delete_Some]. apply not_elem_of_dom. rewrite Hdom.
      apply not_elem_of_union. split; [set_solver|]. apply not_elem_of_dom, Hd. by eexists.
  - unfold known. simpl. rewrite Hdom, dom_delete_L.
    apply elem_of_dom in Hp. apply set_eq. intros n.
    destruct (decide (n = ic_Name cfg)) as [->|]; set_solver.
Qed.

Lemma still_pending_wf a p r' e attempt t m :
  manager_wf m → registry_wf r' → same_registry (mg_registry m) r' →
  mg_heap m !! a = Some p →
  manager_wf (still_pending a (pp_Config p) r' e attempt t m) ∧
  known (still_pending a (pp_Config p) r' e attempt t m) = known m.
Proof.
  intros [Hr He Hn Hd Hre Hpe] Hwf' Hs Ha. pose proof (sr_byName _ _ Hs) as Hbn. split.
  - split; simpl; try done.
    + intros n b Hb. destruct (He n b Hb) as (q & Hq & Hname & HVq & Herr).
      destruct (decide (a = b)) as [<-|].
      * rewrite lookup_alter_eq, Hq. eexists. split_and!; [done..|by eexists].
      * rewrite lookup_alter_ne by done. eauto.
    + intros b Hb. apply Hn. destruct (decide (a = b)) as [<-|].
      * by eexists.
      * by rewrite lookup_alter_ne in Hb.
    + intros n Hp. rewrite Hbn. by apply Hd.
    + rewrite Hre. unfold Count. by rewrite (sr_instances _ _ Hs).
  - unfold known. simpl. by rewrite Hbn.
Qed.

(** A retry of a pending entry: the entry leaves the pending list, or stays
    with its new state; the others are as they were. *)
Lemma retryProvider_wf a n s :
  manager_wf (st_local s) → mg_pending (st_local s) !! n = Some a →
  let m' := st_local (retryProvider a s).2 in
  (retryProvider a s).1 = Some tt ∧ manager_wf m' ∧ known m' = known (st_local s) ∧
  (mg_pending m' = mg_pending (st_local s) ∨
   mg_pending m' = delete n (mg_pending (st_local s))) ∧
  mg_config m' = mg_config (st_local s) ∧
  reg_factories (mg_registry m') = reg_factories (mg_registry (st_local s)) ∧
  (∀ b, b ≠ a → mg_heap m' !! b = mg_heap (st_local s) !! b).
Proof.
  intros Hwf Hn. destruct (mw_entry _ Hwf n a Hn) as (p & Hp & Hname & _ & _).
  destruct (retryProvider_cases a p s (mw_registry _ Hwf) Hp)
    as (Hres & r' & Hwf' & [(_ & Hc & ->)|(e & attempt & t & _ & Hs & ->)]).
  - destruct (recovered_wf _ _ _ Hwf Hwf' Hc) as [Hw Hk]; [rewrite Hname; by eexists|].
    destruct (creates_names _ _ _ Hc) as (_ & Hf & _).
    split_and!; simpl; auto. right. by rewrite Hname.
  - destruct (still_pending_wf a p r' e attempt t _ Hwf Hwf' Hs Hp) as [Hw Hk].
    split_and!; simpl; auto using sr_factories. intros b Hne. by rewrite lookup_alter_ne.
Qed.

(** *** Rounds of the retry loop *)

Lemma pending_inj m n n' a :
  manager_wf m → mg_pending m !! n = Some a → mg_pending m !! n' = Some a → n = n'.
Proof.
  intros Hwf Hn Hn'. destruct (mw_entry _ Hwf n a Hn) as (p & Hp & <- & _).
  destruct (mw_entry _ Hwf n' a Hn') as (p' & Hp' & <- & _). by simplify_eq.
Qed.

(** The rest of a round: distinct addresses of pending entries. *)
Definition to_retry (l : list nat) m : Prop :=
  NoDup l ∧ ∀ a, a ∈ l → ∃ n, mg_pending m !! n = Some a.

Lemma to_retry_step a l s :
  manager_wf (st_local s) → to_retry (a :: l) (st_local s) →
  to_retry l (st_local (retryProvider a s).2).
Proof.
  intros Hwf [[Ha Hnd]%NoDup_cons Hl]. split; [done|]. intros b Hb.
  destruct (Hl a ltac:(by left)) as [n Hn]. destruct (Hl b ltac:(by right)) as [n' Hn'].
  exists n'. destruct (retryProvider_wf a n s Hwf Hn) as (_ & _ & _ & [->| ->] & _); [done|].
  rewrite lookup_delete_ne; [done|]. intros ->. by simplify_eq.
Qed.

(** Induction over a round. *)
Lemma retry_round (P : Manager W → Prop) l s :
  (∀ a s, a ∈ l → manager_wf (st_local s) → (∃ n, mg_pending (st_local s) !! n = Some a) →
     P (st_local s) → P (st_local (retryProvider a s).2)) →
  manager_wf (st_local s) → to_retry l (st_local s) → P (st_local s) →
  let res := foldM (λ _ a, retryProvider a) tt l s in
  res.1 = Some tt ∧ manager_wf (st_local res.2) ∧ P (st_local res.2).
Proof.
  revert s. induction l as [|a l IH]; intros s HP Hwf Hl HPs; [done|]. simpl.
  destruct (proj2 Hl a ltac:(by left)) as [n Hn].
  pose proof (retryProvider_wf a n s Hwf Hn) as (Hres & Hwf' & _).
  pose proof (to_retry_step a l s Hwf Hl) as Hl'.
  pose proof (HP a s ltac:(by left) Hwf ltac:(eauto) HPs) as HP'.
  destruct (retryProvider a s) as [[[]|] s'] eqn:E; [|done]. rewrite (bind_some _ _ _ _ _ E).
  simpl in *. apply IH; [|done..]. intros b s1 Hb. exact (HP b s1 ltac:(by right)).
Qed.

Lemma due_to_retry m t :
  manager_wf m → to_retry (map snd (List.filter (due m t) (range (mg_pending m)))) m.
Proof.
  intros Hwf. split.
  - apply NoDup_fmap_2_strong.
    + intros [n a] [n' a'] [Hn%elem_of_range _]%elem_of_list_filter
        [Hn'%elem_of_range _]%elem_of_list_filter; simpl. intros ->.
      f_equal. by eapply pending_inj.
    + apply NoDup_filter_bool, NoDup_range.
  - intros a ([n b] & -> & [Hn%elem_of_range _]%elem_of_list_filter)%list_elem_of_fmap.
    by exists n.
Qed.

(** The world and the addresses of a round. *)
Definition round_start s : St W (Manager W) :=
  mkSt (now (st_world s)).2 (st_calls s) (st_local s).
Definition round_addresses s : list nat :=
  map snd (List.filter (due (st_local s) (now (st_world s)).1) (range (mg_pending (st_local s)))).

Lemma retryPendingProviders_run s :
  retryPendingProviders s
  = foldM (λ _ a, retryProvider a) tt (round_addresses s) (round_start s).
Proof. done. Qed.

Lemma retryPendingProviders_wf s :
  manager_wf (st_local s) →
  (retryPendingProviders s).1 = Some tt ∧
  manager_wf (st_local (retryPendingProviders s).2) ∧
  known (st_local (retryPendingProviders s).2) = known (st_local s).
Proof.
  intros Hwf. rewrite retryPendingProviders_run. apply (retry_round (λ m, known m = known (st_local s))).
  - intros a s' _ Hwf' [n Hn] Hk.
    by destruct (retryProvider_wf a n s' Hwf' Hn) as (_ & _ & -> & _).
  - done.
  - by apply due_to_retry.
  - done.
Qed.
End Invariant.

(** ** Runs of the manager *)
Section Runs.
Context `{RegexpEngine} `{MapOrder} `{FloatConv} {W : Type} `{Clock W}.
Implicit Types (cfg : ProviderInstanceConfig) (m : Manager W) (s : St W (Manager W)).

(** Initialisations, with the configurations that were accepted, rounds of
    the retry loop, new dynamic targets and callbacks, in any order and in
    any world. *)
Inductive manager_run : list ProviderInstanceConfig → Manager W → Manager W → Prop :=
| run_done m : manager_run [] m m
| run_init cfg cfgs s m' :
    Config_Validate cfg = None →
    manager_run cfgs (st_local (InitializeProvider cfg s).2) m' →
    manager_run (cfg :: cfgs) (st_local s) m'
| run_invalid cfg cfgs s m' :
    Config_Validate cfg ≠ None →
    manager_run cfgs (st_local (InitializeProvider cfg s).2) m' →
    manager_run cfgs (st_local s) m'
| run_tick cfgs s m' :
    manager_run cfgs (st_local (retryPendingProviders s).2) m' →
    manager_run cfgs (st_local s) m'
| run_target cfgs n target m m' :
    manager_run cfgs (set_registry (SetTarget n target (mg_registry m)) m) m' →
    manager_run cfgs m m'
| run_callback cfgs fn m m' :
    manager_run cfgs (SetOnProviderReady fn m) m' → manager_run cfgs m m'.

Lemma SetTarget_names n target (r : Registry W) :
  reg_byName (SetTarget n target r) = reg_byName r ∧
  reg_instances (SetTarget n target r) = reg_instances r ∧
  reg_factories (SetTarget n target r) = reg_factories r.
Proof. unfold SetTarget. by destruct (reg_byName r !! n). Qed.

Lemma SetTarget_manager_wf n target m :
  manager_wf m → manager_wf (set_registry (SetTarget n target (mg_registry m)) m).
Proof.
  intros [Hr He Hn Hd Hre Hpe]. destruct (SetTarget_names n target (mg_registry m)) as (Hb & Hi & _).
  split; simpl; try done.
  - by apply SetTarget_wf.
  - intros k Hk. rewrite Hb. by apply Hd.
  - unfold Count. by rewrite Hi.
Qed.

Lemma set_callback_wf fn m : manager_wf m → manager_wf (SetOnProviderReady fn m).
Proof. by intros [Hr He Hn Hd Hre Hpe]; split. Qed.

Abbreviation names cfgs := (list_to_set (map ic_Name cfgs) : gset string).

(** Properties that every operation keeps. *)
Record kept (P : Manager W → Prop) : Prop := mkKept {
  kept_init cfg s : manager_wf (st_local s) → Config_Validate cfg = None →
    ic_Name cfg ∉ known (st_local s) → P (st_local s) → P (st_local (InitializeProvider cfg s).2);
  kept_retry a s : manager_wf (st_local s) → (∃ k, mg_pending (st_local s) !! k = Some a) →
    P (st_local s) → P (st_local (retryProvider a s).2);
  kept_target n target m : P m → P (set_registry (SetTarget n target (mg_registry m)) m);
  kept_callback fn m : P m → P (SetOnProviderReady fn m)
}.

Lemma manager_run_keeps P cfgs m m' :
  kept P → manager_run cfgs m m' → manager_wf m → NoDup (map ic_Name cfgs) →
  names cfgs ## known m → P m → manager_wf m' ∧ known m' = names cfgs ∪ known m ∧ P m'.
Proof.
  intros HP.
  induction 1 as [m|cfg cfgs s m' HV _ IH|cfg cfgs s m' HV _ IH|cfgs s m' _ IH
                 |cfgs n target m m' _ IH|cfgs fn m m' _ IH]; simpl; intros Hwf Hnd Hk HPm.
  - split_and!; [done|set_solver|done].
  - apply NoDup_cons in Hnd as [Hn Hnd].
    destruct (InitializeProvider_wf cfg s Hwf HV ltac:(set_solver)) as [Hwf' Hk'].
    destruct IH as (IHwf & IHk & IHP); [done..| |apply (kept_init _ HP); [done..|set_solver|done]|].
    + rewrite Hk'. apply disjoint_union_r. split; [|set_solver].
      apply disjoint_singleton_r. by rewrite elem_of_list_to_set.
    + split_and!; [done| |done]. rewrite IHk, Hk'. set_solver.
  - destruct (Config_Validate cfg) as [err|] eqn:E; [|done].
    rewrite (InitializeProvider_invalid cfg err s E) in IH. by apply IH.
  - destruct (retryPendingProviders_wf s Hwf) as (_ & Hwf' & Hk'). rewrite <- Hk'.
    apply IH; [done..|by rewrite Hk'|]. rewrite retryPendingProviders_run.
    apply (retry_round P); [|done|by apply due_to_retry|done].
    intros a s' _. apply (kept_retry _ HP).
  - assert (known (set_registry (SetTarget n target (mg_registry m)) m) = known m) as Hk'.
    { unfold known. simpl. by rewrite (proj1 (SetTarget_names _ _ _)). }
    rewrite <- Hk'. apply IH; [by apply SetTarget_manager_wf|done|by rewrite Hk'|].
    by apply (kept_target _ HP).
  - apply IH; [by apply set_callback_wf|done..|by apply (kept_callback _ HP)].
Qed.

Lemma known_NewManager (r : Registry W) : registry_wf r → Count r = 0 → known (NewManager r) = ∅.
Proof.
  intros Hr Hc. unfold known. simpl. rewrite dom_empty_L, (union_empty_r_L (dom _)).
  apply dom_empty_iff_L, map_size_empty_iff. by rewrite size_byName.
Qed.

(** The same from a new manager. *)
Lemma new_manager_keeps P (r : Registry W) cfgs m :
  kept P → registry_wf r → Count r = 0 → manager_run cfgs (NewManager r) m →
  NoDup (map ic_Name cfgs) → P (NewManager r) →
  manager_wf m ∧ known m = names cfgs ∧ P m.
Proof.
  intros HP Hr Hc Hrun Hnd HP0. pose proof (known_NewManager r Hr Hc) as Hk.
  rewrite <- (union_empty_r_L (names cfgs)), <- Hk.
  apply (manager_run_keeps P cfgs (NewManager r) m); auto using NewManager_wf.
  rewrite Hk. apply disjoint_empty_r.
Qed.

Lemma size_known m : manager_wf m → size (known m) = TotalCount m.
Proof.
  intros Hwf. unfold known, TotalCount, ReadyCount, PendingCount.
  rewrite size_union; [by rewrite !size_dom, size_byName by apply Hwf|].
  intros n Hb%elem_of_dom Hp%elem_of_dom. rewrite (mw_disjoint _ Hwf n Hp) in Hb. by destruct Hb.
Qed.

Lemma pending_entries_spec m p :
  manager_wf m → p ∈ pending_entries m ↔
  ∃ a, mg_pending m !! ic_Name (pp_Config p) = Some a ∧ mg_heap m !! a = Some p.
Proof.
  intros Hwf. unfold pending_entries. rewrite list_elem_of_omap. split.
  - intros ([n a] & Hn%elem_of_range & Ha). exists a.
    destruct (mw_entry _ Hwf n a Hn) as (q & Hq & Hname & _). by simplify_eq.
  - intros (a & Hn & Ha). exists (ic_Name (pp_Config p), a). by rewrite elem_of_range.
Qed.

Lemma length_pending_entries m : manager_wf m → length (pending_entries m) = PendingCount m.
Proof.
  intros Hwf. unfold pending_entries, PendingCount. rewrite <- length_range.
  assert (∀ n a, (n, a) ∈ range (mg_pending m) → is_Some (mg_heap m !! a)) as Hall.
  { intros n a Hn%elem_of_range. destruct (mw_entry _ Hwf n a Hn) as (p & -> & _). by eexists. }
  induction (range (mg_pending m)) as [|[n a] l IH]; [done|]. simpl.
  destruct (Hall n a ltac:(by left)) as [p ->]. simpl. f_equal. apply IH.
  intros. eapply Hall. by right.
Qed.

(** Entries hold an error, so their texts can be read. *)
Lemma mapM_entries {A} (f : PendingProvider → error → A) (l : list PendingProvider) :
  (∀ p, p ∈ l → is_Some (pp_LastError p)) →
  ∃ l', mapM (λ p, e ← pp_LastError p; Some (f p e)) l = Some l' ∧ length l' = length l.
Proof.
  induction l as [|p l IH]; intros Hl; [by exists []|]. simpl.
  destruct (Hl p ltac:(by left)) as [e ->]. simpl.
  destruct IH as (l' & -> & Hlen); [intros q Hq; apply Hl; by right|].
  simpl. eexists. split; [done|]. simpl. by rewrite Hlen.
Qed.

Lemma entries_have_errors m p :
  manager_wf m → p ∈ pending_entries m → is_Some (pp_LastError p).
Proof.
  intros Hwf (a & Hn & Ha)%(pending_entries_spec m p Hwf).
  destruct (mw_entry _ Hwf _ a Hn) as (q & Hq & _ & _ & He). by simplify_eq.
Qed.

Lemma AllProviderStatuses_total m :
  manager_wf m → ∃ l, AllProviderStatuses m = Some l ∧ length l = TotalCount m.
Proof.
  intros Hwf. unfold AllProviderStatuses.
  destruct (mapM_entries (λ p e, mkStatus (ic_Name (pp_Config p)) (ic_TypeName (pp_Config p)) false (Error e))
              (pending_entries m)) as (l & El & Hl); [intros p; by apply entries_have_errors|].
  unfold mbind, option_bind in El |- *. rewrite El. eexists. split; [done|].
  rewrite length_app, length_map, Hl, length_pending_entries by done.
  unfold TotalCount, ReadyCount. f_equal. unfold All.
  by apply length_deref, Hwf.
Qed.

(** C9. No provider is lost.  From a manager on an empty registry, after any
    initialisations of differently named configurations and any rounds of
    retries, in any world: every accepted configuration is either registered
    or pending, never both, and nothing else is; the counts and the gauges
    agree with that, and the status list has an entry for each. *)
Theorem providers_conserved r cfgs m :
  registry_wf r → Count r = 0 → manager_run cfgs (NewManager r) m → NoDup (map ic_Name cfgs) →
  (∀ n, n ∈ map ic_Name cfgs ↔
     is_Some (Get (mg_registry m) n) ∨ is_Some (mg_pending m !! n)) ∧
  (∀ n, is_Some (Get (mg_registry m) n) → mg_pending m !! n = None) ∧
  TotalCount m = length cfgs ∧
  ProvidersReady (mg_metrics m) = ReadyCount m ∧ ProvidersPending (mg_metrics m) = PendingCount m ∧
  ∃ l, AllProviderStatuses m = Some l ∧ length l = length cfgs.
Proof.
  intros Hr Hc Hrun Hnd.
  destruct (new_manager_keeps (λ _, True) r cfgs m) as (Hwf & Hk & _); [by split|done..|].
  assert (∀ n, is_Some (Get (mg_registry m) n) ↔ n ∈ dom (reg_byName (mg_registry m))) as HGet.
  { intros n. rewrite elem_of_dom. unfold Get. destruct (reg_byName _ !! n) as [a|] eqn:E; simpl;
      [|split; intros [? ?]; done]. split; [by eexists|]. intros _.
    apply (rw_alloc _ (mw_registry _ Hwf)), (rw_names _ (mw_registry _ Hwf)). by exists n. }
  assert (TotalCount m = length cfgs) as Ht.
  { rewrite <- size_known, Hk, size_list_to_set, length_map by done. done. }
  split_and!; [| |done|by apply Hwf|by apply Hwf|].
  - intros n. rewrite HGet, <- elem_of_dom, <- elem_of_union, <- (elem_of_list_to_set (C:=gset string)).
    by rewrite <- Hk.
  - intros n [a Ha]%HGet%elem_of_dom. destruct (mg_pending m !! n) eqn:E; [|done].
    by rewrite (mw_disjoint _ Hwf n ltac:(by eexists)) in Ha.
  - rewrite <- Ht. by apply AllProviderStatuses_total.
Qed.
End Runs.

(** ** Recovery *)
Section Recovery.
Context `{RegexpEngine} `{MapOrder} `{FloatConv} {W : Type} `{Clock W}.
Implicit Types (cfg : ProviderInstanceConfig) (m : Manager W) (s : St W (Manager W)).

(** The provider of a configuration can be made and reached, in any world. *)
Definition reachable_now cfg (factories : gmap string (Registry.Factory W)) : Prop :=
  ∃ factory domainMatcher,
    factories !! ic_TypeName cfg = Some factory ∧
    NewDomainMatcher (mkMatcherConfig (GetIncludes cfg) (GetExcludes cfg) (UseRegex cfg))
      = inl domainMatcher ∧
    ∀ w, ∃ provider w', factory (factoryConfig cfg) w = (inl provider, w') ∧
      ∀ w, (prov_Ping provider w).1 = None.

Lemma connect_reachable cfg s :
  registry_wf (mg_registry (st_local s)) → Config_Validate cfg = None →
  reg_byName (mg_registry (st_local s)) !! ic_Name cfg = None →
  reachable_now cfg (reg_factories (mg_registry (st_local s))) →
  (connect cfg s).1 = Some (None, true).
Proof.
  intros Hwf HV Hn (factory & d & Hf & Hd & Hp). unfold connect, bind at 1. rewrite on_registry_run.
  unfold CreateInstance. rewrite HV, bind_get. simpl. rewrite Hn, Hf. unfold bind at 1, with_world.
  simpl. destruct (Hp (st_world s)) as (p & w' & -> & Hping). simpl. rewrite Hd.
  rewrite bind_modify. simpl. rewrite bind_get. simpl.
  rewrite Get_add, String.eqb_refl by done. unfold bind at 1, call. simpl.
  specialize (Hping w'). destruct (prov_Ping p w') as [o w2]; simpl in *. by subst o.
Qed.

(** The name is registered and no longer pending. *)
Definition is_ready (n : string) m : Prop :=
  is_Some (Get (mg_registry m) n) ∧ mg_pending m !! n = None.

Lemma retryProvider_reachable a p s :
  manager_wf (st_local s) →
  mg_pending (st_local s) !! ic_Name (pp_Config p) = Some a → mg_heap (st_local s) !! a = Some p →
  reachable_now (pp_Config p) (reg_factories (mg_registry (st_local s))) →
  is_ready (ic_Name (pp_Config p)) (st_local (retryProvider a s).2).
Proof.
  intros Hwf Hn Ha Hc. destruct (mw_entry _ Hwf _ a Hn) as (q & Hq & _ & HV & _).
  assert (q = p) as -> by congruence. pose proof (connect_reachable (pp_Config p) s (mw_registry _ Hwf) HV
                (mw_disjoint _ Hwf _ ltac:(by eexists)) Hc) as Hok.
  destruct (retryProvider_cases a p s (mw_registry _ Hwf) Ha)
    as (_ & r' & Hwf' & [(_ & Hcr & ->)|(e & attempt & t & E & _)]).
  - split; simpl; [|by rewrite lookup_delete_eq]. by apply (creates_Get _ _ _ Hcr), Hwf.
  - by rewrite Hok in E.
Qed.

(** A ready provider stays ready while others are retried. *)
Lemma retryProvider_stays_ready n a s :
  manager_wf (st_local s) → (∃ k, mg_pending (st_local s) !! k = Some a) →
  is_ready n (st_local s) → is_ready n (st_local (retryProvider a s).2).
Proof.
  intros Hwf [k Hk] [Hg Hp]. destruct (mw_entry _ Hwf k a Hk) as (p & Ha & <- & _).
  assert (n ≠ ic_Name (pp_Config p)) as Hne by (intros ->; by rewrite Hp in Hk).
  destruct (retryProvider_cases a p s (mw_registry _ Hwf) Ha)
    as (_ & r' & Hwf' & [(_ & Hc & ->)|(e & attempt & t & _ & Hs & ->)]); split; simpl; try done.
  - by rewrite (proj2 (creates_Get _ _ _ Hc (mw_registry _ Hwf))).
  - by rewrite lookup_delete_ne.
  - by rewrite (same_registry_Get _ _ _ (mw_registry _ Hwf) Hs).
Qed.

(** Waiting for its turn in a round. *)
Definition waits (a : nat) (p : PendingProvider) factories m : Prop :=
  mg_pending m !! ic_Name (pp_Config p) = Some a ∧ mg_heap m !! a = Some p ∧
  reg_factories (mg_registry m) = factories.

Lemma retryProvider_waits a p factories b s :
  b ≠ a → manager_wf (st_local s) → (∃ k, mg_pending (st_local s) !! k = Some b) →
  waits a p factories (st_local s) → waits a p factories (st_local (retryProvider b s).2).
Proof.
  intros Hne Hwf [k Hk] (Hn & Ha & Hf).
  destruct (retryProvider_wf b k s Hwf Hk) as (_ & _ & _ & Hp & _ & Hf' & Hh).
  split_and!; [|by rewrite Hh|by rewrite Hf'].
  destruct Hp as [->| ->]; [done|]. rewrite lookup_delete_ne; [done|]. intros ->. by simplify_eq.
Qed.

(** One turn of a round, between those before and those after it. *)
Lemma round_reaches (P Q : Manager W → Prop) a l1 l2 s :
  (∀ b s, b ∈ l1 → manager_wf (st_local s) → (∃ n, mg_pending (st_local s) !! n = Some b) →
     P (st_local s) → P (st_local (retryProvider b s).2)) →
  (∀ s, manager_wf (st_local s) → P (st_local s) → Q (st_local (retryProvider a s).2)) →
  (∀ b s, b ∈ l2 → manager_wf (st_local s) → (∃ n, mg_pending (st_local s) !! n = Some b) →
     Q (st_local s) → Q (st_local (retryProvider b s).2)) →
  manager_wf (st_local s) → to_retry (l1 ++ a :: l2) (st_local s) → P (st_local s) →
  let res := foldM (λ _ a, retryProvider a) tt (l1 ++ a :: l2) s in
  res.1 = Some tt ∧ manager_wf (st_local res.2) ∧ Q (st_local res.2).
Proof.
  intros HP HPQ HQ. revert s. induction l1 as [|b l1 IH]; intros s Hwf Hl HPs; simpl in *.
  - destruct (proj2 Hl a ltac:(by left)) as [n Hn].
    pose proof (retryProvider_wf a n s Hwf Hn) as (Hres & Hwf' & _).
    pose proof (to_retry_step a l2 s Hwf Hl) as Hl'. pose proof (HPQ s Hwf HPs) as HQs.
    destruct (retryProvider a s) as [[[]|] s'] eqn:E; [|done]. rewrite (bind_some _ _ _ _ _ E).
    simpl in *. by apply (retry_round Q).
  - destruct (proj2 Hl b ltac:(by left)) as [n Hn].
    pose proof (retryProvider_wf b n s Hwf Hn) as (Hres & Hwf' & _).
    pose proof (to_retry_step b _ s Hwf Hl) as Hl'.
    pose proof (HP b s ltac:(by left) Hwf ltac:(eauto) HPs) as HPs'.
    destruct (retryProvider b s) as [[[]|] s'] eqn:E; [|done]. rewrite (bind_some _ _ _ _ _ E).
    simpl in *. apply IH; [|done..]. intros c s1 Hc. exact (HP c s1 ltac:(by right)).
Qed.

(** C10. Pending providers recover.  In a well-formed manager, once a pending
    entry is due and its provider can be made and answers, the next tick of
    the retry loop registers it and takes it off the pending list, whatever
    happens to the other entries of the round. *)
Theorem pending_recovers n a p s :
  manager_wf (st_local s) →
  mg_pending (st_local s) !! n = Some a → mg_heap (st_local s) !! a = Some p →
  (pp_NextRetryAt p ≤ (now (st_world s)).1)%Z →
  reachable_now (pp_Config p) (reg_factories (mg_registry (st_local s))) →
  let res := retryPendingProviders s in
  res.1 = Some tt ∧ manager_wf (st_local res.2) ∧
  is_Some (Get (mg_registry (st_local res.2)) n) ∧ mg_pending (st_local res.2) !! n = None.
Proof.
  intros Hwf Hn Ha Hdue Hc. destruct (mw_entry _ Hwf n a Hn) as (p' & Hp' & <- & _). simplify_eq.
  rewrite retryPendingProviders_run. cbv zeta.
  assert (a ∈ round_addresses s) as Hin.
  { unfold round_addresses. apply list_elem_of_fmap. eexists (_, a). split; [done|].
    apply elem_of_list_filter. split; [by apply elem_of_range|]. unfold due. simpl. rewrite Ha.
    apply orb_true_iff. rewrite Z.ltb_lt, Z.eqb_eq. lia. }
  pose proof (due_to_retry (st_local s) (now (st_world s)).1 Hwf) as Hl. fold (round_addresses s) in Hl.
  apply list_elem_of_split in Hin as (l1 & l2 & El). rewrite El in *.
  apply (round_reaches (waits a p (reg_factories (mg_registry (st_local s))))
           (is_ready (ic_Name (pp_Config p)))); [| | |done..].
  - intros b s' Hb. apply retryProvider_waits. intros ->.
    destruct Hl as [Hnd _]. apply NoDup_app in Hnd as (_ & Hdis & _). apply (Hdis a Hb). by left.
  - intros s' Hwf' (Hn' & Ha' & Hf'). apply retryProvider_reachable; [done..|]. by rewrite Hf'.
  - intros b s' _. apply retryProvider_stays_ready.
Qed.
End Recovery.

(** ** Initialisation, backoff and what the manager calls *)
Section Properties.
Context `{RegexpEngine} `{MapOrder} `{FloatConv} {W : Type} `{Clock W}.
Implicit Types (cfg : ProviderInstanceConfig) (m : Manager W) (s : St W (Manager W)).

(** Initialising a provider with a new name.  A rejected configuration is
    reported and nothing happens; otherwise no error is returned, and the
    provider is last in the registry, or it is pending after one attempt, to
    be tried after the initial interval, and the registry answers as before. *)
Theorem InitializeProvider_outcomes cfg s :
  manager_wf (st_local s) → ic_Name cfg ∉ known (st_local s) →
  let res := InitializeProvider cfg s in let m := st_local s in let m' := st_local res.2 in
  match Config_Validate cfg with
  | Some err =>
      res = (Some (Some (EWrapf ("invalid provider config " ++s Quote (ic_Name cfg) ++s ": ") err)), s)
  | None =>
      res.1 = Some None ∧
      ((∃ inst, Get (mg_registry m') (ic_Name cfg) = Some inst ∧
          All (mg_registry m') = All (mg_registry m) ++ [inst] ∧ mg_pending m' = mg_pending m ∧
          ProviderAvailable (mg_metrics m') !! (ic_Name cfg, ic_TypeName cfg) = Some 1%Z) ∨
       (All (mg_registry m') = All (mg_registry m) ∧ Get (mg_registry m') (ic_Name cfg) = None ∧
        (∃ a t attempt e, mg_pending m' !! ic_Name cfg = Some a ∧
          mg_heap m' !! a = Some (mkPending cfg (Some e) attempt 1
            (t + mc_InitialRetryInterval (mg_config m))%Z (mc_InitialRetryInterval (mg_config m)))) ∧
        ProviderAvailable (mg_metrics m') !! (ic_Name cfg, ic_TypeName cfg) = Some 0%Z))
  end.
Proof.
  intros Hwf [Hb Hk]%not_known. cbv zeta. destruct (Config_Validate cfg) as [err|] eqn:HV.
  { by apply InitializeProvider_invalid. }
  destruct (InitializeProvider_valid cfg s (mw_registry _ Hwf) HV)
    as (Hres & r' & Hwf' & [[Hc ->]|(Hs & e & attempt & t & ->)]); (split; [done|]).
  - left. destruct Hc as (f & p & d & w & w' & _ & Hn & _ & _ & _ & ->). simpl.
    eexists. split_and!; [rewrite Get_add, String.eqb_refl by apply Hwf; done| |done|
      by rewrite lookup_insert_eq]. apply All_add, Hwf.
  - right. simpl. split_and!.
    + by apply same_registry_All.
    + rewrite (same_registry_Get _ _ _ (mw_registry _ Hwf) Hs). unfold Get. by rewrite Hb.
    + eexists _, t, attempt, e. by rewrite !lookup_insert_eq.
    + by rewrite lookup_insert_eq.
Qed.

(** *** Backoff *)

(** The interval after a number of failures, with the default settings. *)
Definition interval_after (failures : nat) : Z :=
  Z.min (5 * time_Second * 2 ^ Z.of_nat (failures - 1)) (5 * time_Minute).

Definition default_intervals (c : ManagerConfig W) : Prop :=
  mc_InitialRetryInterval c = (5 * time_Second)%Z ∧ mc_MaxRetryInterval c = (5 * time_Minute)%Z ∧
  mc_RetryBackoffMultiplier c = float64_of 2.

Lemma interval_after_late k : 7 ≤ k → interval_after k = (5 * time_Minute)%Z.
Proof.
  intros Hk. unfold interval_after. apply Z.min_r.
  assert (2 ^ 6 ≤ 2 ^ Z.of_nat (k - 1))%Z by (apply Z.pow_le_mono_r; lia).
  unfold time_Minute, time_Second. lia.
Qed.

Lemma nextInterval_doubles c k :
  default_intervals c → 1 ≤ k → nextInterval c (interval_after k) = interval_after (S k).
Proof.
  destruct c as [i mx mult cb]. intros (Hi & Hm & Hf) Hk. simpl in *. subst.
  destruct (decide (7 ≤ k)) as [Hlate|Hearly].
  - rewrite !interval_after_late by lia. vm_compute. reflexivity.
  - do 7 (destruct k as [|k]; [first [lia|vm_compute; reflexivity]|]). lia.
Qed.

Definition backoff_wf m : Prop :=
  default_intervals (mg_config m) ∧
  ∀ n a p, mg_pending m !! n = Some a → mg_heap m !! a = Some p →
    (1 ≤ pp_AttemptCount p)%Z ∧ pp_RetryInterval p = interval_after (Z.to_nat (pp_AttemptCount p)).

Lemma InitializeProvider_backoff cfg s :
  manager_wf (st_local s) → Config_Validate cfg = None → backoff_wf (st_local s) →
  backoff_wf (st_local (InitializeProvider cfg s).2).
Proof.
  intros Hwf HV [Hd Hb].
  destruct (InitializeProvider_valid cfg s (mw_registry _ Hwf) HV)
    as (_ & r' & _ & [[_ ->]|(_ & e & attempt & t & ->)]); (split; [done|]); simpl; [done|].
  intros n a p [[<- <-]|[_ Hn]]%lookup_insert_Some.
  - rewrite lookup_insert_eq. intros [= <-]. simpl. split; [done|]. by rewrite (proj1 Hd).
  - rewrite lookup_insert_ne; [exact (Hb n a p Hn)|]. symmetry. apply (lookup_fresh _ _ Hwf).
    destruct (mw_entry _ Hwf n a Hn) as (q & -> & _). by eexists.
Qed.

Lemma retryProvider_backoff a s :
  manager_wf (st_local s) → (∃ k, mg_pending (st_local s) !! k = Some a) →
  backoff_wf (st_local s) → backoff_wf (st_local (retryProvider a s).2).
Proof.
  intros Hwf [k Hk] [Hd Hb]. destruct (mw_entry _ Hwf k a Hk) as (p & Ha & <- & _).
  destruct (retryProvider_cases a p s (mw_registry _ Hwf) Ha)
    as (_ & r' & _ & [(_ & _ & ->)|(e & attempt & t & _ & _ & ->)]); (split; [done|]); simpl.
  - intros n b q [_ Hn]%lookup_delete_Some. exact (Hb n b q Hn).
  - intros n b q Hn. destruct (decide (a = b)) as [<-|Hne].
    + rewrite lookup_alter_eq, Ha. intros [= <-]. destruct (Hb _ a p Hn Ha) as [Hc Hi]. simpl.
      split; [lia|]. rewrite Hi, nextInterval_doubles by (done || lia). f_equal. lia.
    + rewrite lookup_alter_ne by done. exact (Hb n b q Hn).
Qed.

Lemma backoff_kept : kept backoff_wf.
Proof.
  split; [intros cfg s ? ? _; by apply InitializeProvider_backoff|apply retryProvider_backoff|done..].
Qed.

(** Exponential backoff with the default settings: in every run of the
    manager, a pending provider that failed [k] times waits 5 seconds doubled
    [k - 1] times, but at most 5 minutes; the rounding of the
    floating-point product and the integer width never show. *)
Theorem backoff_doubles_to_cap r cfgs m n a p :
  registry_wf r → Count r = 0 → manager_run cfgs (NewManager r) m → NoDup (map ic_Name cfgs) →
  mg_pending m !! n = Some a → mg_heap m !! a = Some p →
  (1 ≤ pp_AttemptCount p)%Z ∧
  pp_RetryInterval p = Z.min (5 * time_Second * 2 ^ (pp_AttemptCount p - 1)) (5 * time_Minute) ∧
  (5 * time_Second ≤ pp_RetryInterval p ≤ 5 * time_Minute)%Z.
Proof.
  intros Hr Hc Hrun Hnd Hn Ha.
  destruct (new_manager_keeps backoff_wf r cfgs m backoff_kept) as (_ & _ & _ & Hb); [done..| |].
  { split; [done|]. simpl. intros k b q Hq. by rewrite lookup_empty in Hq. }
  destruct (Hb n a p Hn Ha) as [H1' ->]. split; [done|]. unfold interval_after.
  replace (Z.of_nat (Z.to_nat (pp_AttemptCount p) - 1)) with (pp_AttemptCount p - 1)%Z by lia.
  split; [done|]. pose proof (Z.pow_pos_nonneg 2 (pp_AttemptCount p - 1)).
  unfold time_Minute, time_Second in *. lia.
Qed.

(** *** Calls *)

Definition is_ping (c : Call) : Prop := ∃ n, c = CallPing n.

Lemma ensures_on_registry {A} P (Q : A → Prop) (p : M W (Registry W) A) :
  ensures P Q p → ensures P Q (on_registry p).
Proof.
  intros Hp s. rewrite on_registry_run.
  destruct (Hp (mkSt (st_world s) (st_calls s) (mg_registry (st_local s)))) as (tr & Htr & HP & HQ).
  exists tr. destruct (p _) as [o s']. simpl in *. done.
Qed.

Lemma ensures_CreateInstance cfg : ensures is_ping (λ _, True) (CreateInstance (W:=W) cfg).
Proof. unfold CreateInstance. ensures_go; by repeat ensures_step. Qed.

Lemma ensures_connect cfg : ensures is_ping (λ _, True) (connect (W:=W) cfg).
Proof.
  unfold connect, on_registry_state. eapply ensures_bind; [apply ensures_on_registry, ensures_CreateInstance|].
  ensures_go; repeat ensures_step; try done. by eexists.
Qed.

Lemma ensures_retryProvider a : ensures is_ping (λ _, True) (retryProvider (W:=W) a).
Proof.
  unfold retryProvider, time_Now. eapply (ensures_bind _ (λ _, True)); [by apply ensures_get|].
  intros m _. destruct (mg_heap m !! a); [|apply ensures_panic].
  eapply ensures_bind; [apply ensures_connect|]. ensures_go; by repeat ensures_step.
Qed.

(** The manager reads only: whatever the providers and factories do,
    initialising a provider and a round of retries call nothing but [Ping].
    In particular no DNS data changes, and a provider that was made but did
    not answer is dropped without a call to its [Close]. *)
Theorem manager_only_pings :
  (∀ cfg, ensures (λ c, ∃ n, c = CallPing n) (λ _, True) (InitializeProvider (W:=W) cfg)) ∧
  ensures (λ c, ∃ n, c = CallPing n) (λ _, True) (retryPendingProviders (W:=W)).
Proof.
  split.
  - intros cfg. unfold InitializeProvider, time_Now. destruct (Config_Validate cfg); [by apply ensures_ret|].
    eapply ensures_bind; [apply ensures_connect|]. ensures_go; by repeat ensures_step.
  - unfold retryPendingProviders, time_Now.
    eapply (ensures_bind _ (λ _, True)); [by apply ensures_with_world|]. intros t _.
    eapply (ensures_bind _ (λ _, True)); [by apply ensures_get|]. intros m _.
    apply (ensures_foldM _ (λ _, True)); [done|]. intros _ a _ _. apply ensures_retryProvider.
Qed.

(** *** Configurations that cannot work *)

(** Pending, of a type that no factory was registered for. *)
Definition stuck cfg m : Prop :=
  reg_factories (mg_registry m) !! ic_TypeName cfg = None ∧
  ∃ a p, mg_pending m !! ic_Name cfg = Some a ∧ mg_heap m !! a = Some p ∧ pp_Config p = cfg.

Lemma stuck_kept cfg : kept (stuck cfg).
Proof.
  split; [| |intros n target m; unfold stuck; simpl; by rewrite (proj2 (proj2 (SetTarget_names _ _ _)))|done].
  - intros cfg' s Hwf HV [_ Hk]%not_known (Hf & b & q & Hb & Hq & Hcfg).
    destruct (InitializeProvider_valid cfg' s (mw_registry _ Hwf) HV)
      as (_ & r' & _ & [[Hc ->]|(Hs & e & attempt & t & ->)]); unfold stuck; simpl.
    + destruct (creates_names _ _ _ Hc) as (_ & -> & _). split; [done|]. by exists b, q.
    + rewrite (sr_factories _ _ Hs). split; [done|]. exists b, q.
      split_and!; [rewrite lookup_insert_ne; congruence| |done].
      rewrite lookup_insert_ne; [done|]. symmetry. apply (lookup_fresh _ _ Hwf). by eexists.
  - intros a s Hwf [k Hk] (Hf & b & q & Hb & Hq & Hcfg).
    destruct (mw_entry _ Hwf k a Hk) as (p & Ha & <- & _).
    destruct (retryProvider_cases a p s (mw_registry _ Hwf) Ha)
      as (_ & r' & _ & [(_ & Hc & ->)|(e & attempt & t & _ & Hs & ->)]); unfold stuck; simpl.
    + destruct (creates_names _ _ _ Hc) as (_ & -> & _). split; [done|].
      exists b, q. split_and!; [|done..]. rewrite lookup_delete_ne; [done|]. intros E.
      rewrite E in Hk. assert (a = b) as <- by congruence. assert (p = q) as <- by congruence.
      apply creates_factory in Hc as [f Hc]. by rewrite Hcfg, Hf in Hc.
    + rewrite (sr_factories _ _ Hs). split; [done|]. exists b.
      destruct (decide (a = b)) as [<-|Hne].
      * rewrite lookup_alter_eq, Hq. eexists. by split_and!.
      * exists q. by rewrite lookup_alter_ne.
Qed.

(** A provider type that does not exist is not reported.  Initialising a
    provider of an unregistered type returns no error, although its
    configuration can never work, and the provider is pending after any
    number of retries. *)
Theorem unknown_type_retried_forever cfg s m :
  manager_wf (st_local s) → ic_Name cfg ∉ known (st_local s) → Config_Validate cfg = None →
  reg_factories (mg_registry (st_local s)) !! ic_TypeName cfg = None →
  (InitializeProvider cfg s).1 = Some None ∧
  (manager_run [] (st_local (InitializeProvider cfg s).2) m →
   is_Some (mg_pending m !! ic_Name cfg) ∧ Get (mg_registry m) (ic_Name cfg) = None).
Proof.
  intros Hwf Hk HV Hf. destruct (InitializeProvider_wf cfg s Hwf HV Hk) as [Hwf' _].
  pose proof Hk as [_ Hk0]%not_known.
  destruct (InitializeProvider_valid cfg s (mw_registry _ Hwf) HV) as (-> & r' & Hr' & Hout).
  split; [done|]. intros Hrun. set (m1 := st_local _) in Hwf', Hrun, Hout.
  assert (stuck cfg m1) as Hstuck.
  { destruct Hout as [[Hc _]|(Hs & e & attempt & t & ->)].
    - apply creates_factory in Hc as [f Hc]. by rewrite Hf in Hc.
    - split; simpl; [by rewrite (sr_factories _ _ Hs)|]. eexists _, _.
      split_and!; [apply lookup_insert_eq..|done]. }
  destruct (manager_run_keeps _ _ _ _ (stuck_kept cfg) Hrun) as (Hm & _ & _ & a & p & Hp & _);
    [done|constructor|apply disjoint_empty_l|done|].
  split; [by eexists|]. unfold Get. by rewrite (mw_disjoint _ Hm _ ltac:(by eexists)).
Qed.
End Properties.

(** ** Starting and stopping the retry loop

    One goroutine owns the manager and calls [Start] and [Stop], as the main
    program does; each [Start] makes a goroutine that runs [retryLoop].  The
    two channels of the current start are either open or closed. *)
Section Lifecycle.

Record Lifecycle := mkLifecycle {
  lc_running : bool;
  lc_stopCh : bool;     (** closed *)
  lc_doneCh : bool;     (** closed *)
  lc_loops : nat;       (** goroutines in [retryLoop] *)
  lc_stopping : bool    (** the owner waits for [doneCh] *)
}.

Definition new_lifecycle : Lifecycle := mkLifecycle false false false 0 false.

(** [Start]: the error, and new channels and a new loop without one. *)
Definition Start (l : Lifecycle) : option error * Lifecycle :=
  if lc_running l then (Some (ENew "provider manager already running"), l)
  else (None, mkLifecycle true false false (S (lc_loops l)) (lc_stopping l)).

(** [Stop] up to the wait for [doneCh]. *)
Definition Stop (l : Lifecycle) : Lifecycle :=
  if negb (lc_running l) then l
  else mkLifecycle false true (lc_doneCh l) (lc_loops l) true.

(** A loop that returns closes [doneCh]. *)
Definition loop_returns (l : Lifecycle) : Lifecycle :=
  mkLifecycle (lc_running l) (lc_stopCh l) true (pred (lc_loops l)) (lc_stopping l).

Inductive lifecycle_step : Lifecycle → Lifecycle → Prop :=
| step_start l : lc_stopping l = false → lifecycle_step l (Start l).2
| step_stop l : lc_stopping l = false → lifecycle_step l (Stop l)
| step_stopped l : lc_stopping l = true → lc_doneCh l = true →
    lifecycle_step l (mkLifecycle (lc_running l) (lc_stopCh l) (lc_doneCh l) (lc_loops l) false)
| step_loop_tick l : 0 < lc_loops l → lifecycle_step l l
| step_loop_cancelled l : 0 < lc_loops l → lifecycle_step l (loop_returns l)
| step_loop_stopped l : 0 < lc_loops l → lc_stopCh l = true → lifecycle_step l (loop_returns l).

(** A loop lives until it returns or its stop has been waited for. *)
Record lifecycle_wf (l : Lifecycle) : Prop := mkLifecycleWf {
  lw_loops : lc_loops l ≤ 1;
  lw_done : lc_doneCh l = true → lc_loops l = 0;
  lw_live : lc_stopping l = true → lc_loops l = 0 → lc_doneCh l = true;
  lw_idle : lc_running l = false → lc_stopping l = false → lc_loops l = 0;
  lw_stop : lc_stopping l = true → lc_running l = false ∧ lc_stopCh l = true;
  lw_run : lc_running l = true → lc_loops l = 0 → lc_doneCh l = true
}.

Lemma lifecycle_step_wf l l' : lifecycle_step l l' → lifecycle_wf l → lifecycle_wf l'.
Proof.
  destruct 1; intros [H1 H2 H3 H4 H5 H6]; unfold Start, Stop in *;
    destruct l as [[] [] [] n []]; simpl in *; split; simpl; naive_solver lia.
Qed.

(** Stopping is safe.  At most one retry loop runs at any time; when [Stop]
    has returned, none runs, so no provider is retried any more; [Start] is
    refused exactly while the manager counts as running; and a [Stop] that
    waits can always go on to return. *)
Theorem Stop_ends_the_loop l :
  rtc lifecycle_step new_lifecycle l →
  lc_loops l ≤ 1 ∧
  (lc_running l = false → lc_stopping l = false → lc_loops l = 0) ∧
  (is_Some (Start l).1 ↔ lc_running l = true) ∧
  (lc_stopping l = true →
   ∃ l', rtc lifecycle_step l l' ∧ lc_stopping l' = false ∧ lc_loops l' = 0).
Proof.
  intros Hr. assert (lifecycle_wf l) as [H1 H2 H3 H4 H5 H6].
  { assert (lifecycle_wf new_lifecycle) as H0 by (split; simpl; (done || lia)).
    revert H0. induction Hr; eauto using lifecycle_step_wf. }
  split_and!; [done|done| |].
  - unfold Start. destruct (lc_running l); split; try done. by intros [? ?].
  - intros Hs. destruct (H5 Hs) as [Hrun Hch].
    assert (∀ l, lc_stopping l = true → lc_doneCh l = true → lc_loops l = 0 →
      ∃ l', rtc lifecycle_step l l' ∧ lc_stopping l' = false ∧ lc_loops l' = 0) as Hend.
    { intros k Hk Hd Hl. eexists. split_and!; [eapply rtc_once, step_stopped; done|done|done]. }
    destruct (decide (lc_loops l = 0)) as [E|E]; [by apply Hend; auto|].
    destruct (Hend (loop_returns l)) as (l' & Hl' & ?); [done|done|simpl; lia|].
    exists l'. split; [|done]. eapply rtc_l; [|done]. apply step_loop_stopped; [lia|done].
Qed.
End Lifecycle.
