(* ===== verification/ManagerScenarios.v ===== *)
(** * Manager scenarios

    The theorems about the provider manager at concrete inputs: a provider
    that does not answer its first two pings, and one of an unknown type. *)
From S2P Require Import Prelude GoStrings Errors ProviderTypes Matcher GoMaps Effects Instance.
From S2P Require Import NetIP MemProvider Registry Manager GoTime.
From Stdlib Require Import ZArith.

#[local] Existing Instance glob_engine.
#[local] Existing Instance key_order.

(** What an amd64 processor gives. *)
#[export] Instance amd64_conv : FloatConv.
Proof. refine {| out_of_range _ := (- 2 ^ 63)%Z |}. done. Defined.

(** The time, and how many pings will still fail. *)
Abbreviation World := (Z * nat)%type.

#[export] Instance world_clock : Clock World := λ w, (w.1, w).

Definition flaky_provider (name : string) : Provider World := {|
  prov_Name := name; prov_Type := "flaky";
  prov_Ping := λ w, match w.2 with
                    | O => (None, w)
                    | S k => (Some (ESentinel ErrProviderUnavailable), (w.1, k))
                    end;
  prov_Capabilities := txt_caps;
  prov_List := λ w, (inl [], w);
  prov_Create := λ _ w, (None, w);
  prov_Delete := λ _ w, (None, w);
  prov_Update := None; prov_Identity := None; prov_Close := None
|}.

(** A provider that always answers. *)
Definition good_provider (name : string) : Provider World := {|
  prov_Name := name; prov_Type := "good";
  prov_Ping := λ w, (None, w);
  prov_Capabilities := txt_caps;
  prov_List := λ w, (inl [], w);
  prov_Create := λ _ w, (None, w);
  prov_Delete := λ _ w, (None, w);
  prov_Update := None; prov_Identity := None; prov_Close := None
|}.

Definition start_registry : Registry World :=
  RegisterFactory "flaky" (λ fc w, (inl (flaky_provider (fc_Name fc)), w)) NewRegistry.

Definition provider_config (name type : string) : ProviderInstanceConfig :=
  mkInstanceConfig name type RecordTypeA "192.0.2.1" 300 ModeManaged ["*.example.com"] [] [] [] ∅ ∅.

Definition cfg_a : ProviderInstanceConfig := provider_config "a" "flaky".
Definition cfg_b : ProviderInstanceConfig := provider_config "b" "flakey".

Definition manager0 : Manager World := NewManager start_registry.
Definition at_time (t : Z) (failures : nat) (m : Manager World) : St World (Manager World) :=
  mkSt (t, failures) [] m.
Definition manager1 : Manager World := st_local (InitializeProvider cfg_a (at_time 0 2 manager0)).2.
Definition manager2 : Manager World := st_local (InitializeProvider cfg_b (at_time 1 0 manager1)).2.
Definition manager3 : Manager World :=
  st_local (retryPendingProviders (at_time (5 * time_Second) 1 manager2)).2.
Definition manager4 : Manager World :=
  st_local (retryPendingProviders (at_time (15 * time_Second) 0 manager3)).2.

Lemma start_registry_wf : registry_wf start_registry.
Proof. by destruct (NewRegistry_wf (W:=World)); split. Qed.

Lemma manager0_wf : manager_wf manager0.
Proof. by apply NewManager_wf; [apply start_registry_wf|]. Qed.

(** Steps from and to named managers. *)
Lemma init_step cfg cfgs t k m m1 m' :
  Config_Validate cfg = None → m1 = st_local (InitializeProvider cfg (at_time t k m)).2 →
  manager_run cfgs m1 m' → manager_run (cfg :: cfgs) m m'.
Proof. intros HV -> Hrun. by apply (run_init cfg cfgs (at_time t k m)). Qed.

Lemma tick_step cfgs t k m m1 m' :
  m1 = st_local (retryPendingProviders (at_time t k m)).2 →
  manager_run cfgs m1 m' → manager_run cfgs m m'.
Proof. intros -> Hrun. by apply (run_tick cfgs (at_time t k m)). Qed.

Lemma run_to_3 : manager_run [cfg_a; cfg_b] manager0 manager3.
Proof.
  apply (init_step cfg_a [cfg_b] 0 2 manager0 manager1); [reflexivity..|].
  apply (init_step cfg_b [] 1 0 manager1 manager2); [reflexivity..|].
  apply (tick_step [] (5 * time_Second) 1 manager2 manager3); [reflexivity|apply run_done].
Qed.

Lemma run_to_4 : manager_run [cfg_a; cfg_b] manager0 manager4.
Proof.
  apply (init_step cfg_a [cfg_b] 0 2 manager0 manager1); [reflexivity..|].
  apply (init_step cfg_b [] 1 0 manager1 manager2); [reflexivity..|].
  apply (tick_step [] (5 * time_Second) 1 manager2 manager3); [reflexivity|].
  apply (tick_step [] (15 * time_Second) 0 manager3 manager4); [reflexivity|apply run_done].
Qed.

Lemma names_ab : NoDup (map ic_Name [cfg_a; cfg_b]).
Proof. by apply (bool_decide_unpack _). Qed.

(** After four operations, one provider is ready and one pending. *)
Lemma providers_conserved_witness :
  map st_Name (default [] (AllProviderStatuses manager4)) = ["a"; "b"] ∧ TotalCount manager4 = 2.
Proof.
  split; [vm_compute; reflexivity|].
  apply (providers_conserved start_registry [cfg_a; cfg_b] manager4 start_registry_wf eq_refl
           run_to_4 names_ab).
Defined.

(** The entry of the first provider in the third manager. *)
Definition entry3 : PendingProvider :=
  default (mkPending cfg_a None 0 0 0 0)
    (a ← mg_pending manager3 !! "a"; mg_heap manager3 !! a).

Lemma backoff_doubles_to_cap_witness :
  pp_AttemptCount entry3 = 2%Z ∧
  pp_RetryInterval entry3 = Z.min (5 * time_Second * 2 ^ (pp_AttemptCount entry3 - 1)) (5 * time_Minute).
Proof.
  split; [vm_compute; reflexivity|].
  apply (backoff_doubles_to_cap start_registry [cfg_a; cfg_b] manager3 "a" 0 entry3
           start_registry_wf eq_refl run_to_3 names_ab); vm_compute; reflexivity.
Defined.

Lemma InitializeProvider_outcomes_witness :
  (InitializeProvider cfg_a (at_time 0 2 manager0)).1 = Some None.
Proof.
  pose proof (InitializeProvider_outcomes cfg_a (at_time 0 2 manager0) manager0_wf) as H.
  apply H. by apply (bool_decide_unpack _).
Defined.

Lemma unknown_type_retried_forever_witness :
  (InitializeProvider cfg_b (at_time 0 0 manager0)).1 = Some None.
Proof.
  apply (unknown_type_retried_forever cfg_b (at_time 0 0 manager0) manager0 manager0_wf);
    [|reflexivity|reflexivity]. by apply (bool_decide_unpack _).
Defined.

(** A provider that works from the time on at which its retry is due. *)
Definition cfg_c : ProviderInstanceConfig := provider_config "c" "good".
Definition good_registry : Registry World :=
  RegisterFactory "good" (λ fc w, (inl (good_provider (fc_Name fc)), w)) start_registry.
Definition pending_c : Manager World :=
  add_pending "c" (mkPending cfg_c (Some (ENew "connection refused")) 0 1 7 7)
    (NewManager good_registry).
Definition waiting_c : Manager World := updateCountMetricsLocked pending_c.

Lemma waiting_c_wf : manager_wf waiting_c.
Proof.
  split; simpl; try done.
  - by destruct start_registry_wf; split.
  - intros n a Hn. apply lookup_insert_Some in Hn as [[<- <-]|[_ Hn]]; [|by rewrite lookup_empty in Hn].
    eexists. split_and!; [apply lookup_insert_eq|done|done|by eexists].
  - intros a [p Hp]. apply lookup_insert_Some in Hp as [[<- _]|[_ Hp]]; [lia|].
    by rewrite lookup_empty in Hp.
Qed.

Lemma pending_recovers_witness :
  let res := retryPendingProviders (at_time 7 0 waiting_c) in
  is_Some (Get (mg_registry (st_local res.2)) "c") ∧ mg_pending (st_local res.2) !! "c" = None.
Proof.
  apply (pending_recovers "c" 0 (mkPending cfg_c (Some (ENew "connection refused")) 0 1 7 7)
           (at_time 7 0 waiting_c) waiting_c_wf); [reflexivity|reflexivity|simpl; lia|].
  eexists _, _. split_and!; [reflexivity|vm_compute; reflexivity|].
  intros w. exists (good_provider "c"), w. by split.
Defined.

(** Started, stopped, and the loop has seen it. *)
Lemma Stop_ends_the_loop_witness : lc_loops (loop_returns (Stop (Start new_lifecycle).2)) ≤ 1.
Proof.
  apply (Stop_ends_the_loop (loop_returns (Stop (Start new_lifecycle).2))).
  eapply rtc_l; [apply step_start; reflexivity|].
  eapply rtc_l; [apply step_stop; reflexivity|].
  eapply rtc_l; [apply step_loop_stopped; [simpl; lia|reflexivity]|]. apply rtc_refl.
Defined.
