(* ===== verification/IO.v ===== *)
(** * Operations that can fail

    The state and error monad of code that works on services outside the
    program (files, commands, HTTP): an operation runs in a world and gives a
    result or a Go error, and the world it leaves.  Objects that keep something
    between their operations. *)
From S2P Require Import Prelude GoStrings Errors.

Definition IO (W A : Type) : Type := W → (A + error) * W.

#[export] Instance IO_ret {W} : MRet (IO W) := λ A a w, (inl a, w).
#[export] Instance IO_bind {W} : MBind (IO W) := λ A B k m w,
  match m w with
  | (inl a, w') => k a w'
  | (inr e, w') => (inr e, w')
  end.

Section IO.
Context {W : Type}.
Implicit Types (A B : Type).

Definition io_fail {A} (e : error) : IO W A := λ w, (inr e, w).

(** [x, err := m; if err != nil { h(err) }] *)
Definition io_catch {A} (m : IO W A) (h : error → IO W A) : IO W A := λ w,
  match m w with
  | (inr e, w') => h e w'
  | r => r
  end.

(** [if err != nil { return fmt.Errorf("...: %w", err) }] *)
Definition io_wrap {A} (f : error → error) (m : IO W A) : IO W A :=
  io_catch m (λ e, io_fail (f e)).

(** [x, err := m], both inspected by what follows. *)
Definition io_try {A} (m : IO W A) : IO W (A + error) := λ w,
  let '(r, w') := m w in (inl r, w').

Definition io_lift {A} (r : A + error) : IO W A := λ w, (r, w).

(** An error that is logged and dropped. *)
Definition io_ignore (m : IO W unit) : IO W unit := io_catch m (λ _, mret tt).

(** [for _, a := range l { if err := f(a); err != nil { return err } }] *)
Fixpoint io_iter {A} (f : A → IO W unit) (l : list A) : IO W unit :=
  match l with
  | [] => mret tt
  | a :: l => f a ≫= λ _, io_iter f l
  end.

(** The interface shape [func() error]. *)
Definition io_error (m : IO W unit) : W → option error * W := λ w,
  match m w with
  | (inl _, w') => (None, w')
  | (inr e, w') => (Some e, w')
  end.

Lemma io_bind_run {A B} (m : IO W A) (k : A → IO W B) w :
  (m ≫= k) w = match m w with (inl a, w') => k a w' | (inr e, w') => (inr e, w') end.
Proof. done. Qed.

Lemma io_bind_inl {A B} (m : IO W A) (k : A → IO W B) w b w' :
  (m ≫= k) w = (inl b, w') → ∃ a w1, m w = (inl a, w1) ∧ k a w1 = (inl b, w').
Proof. rewrite io_bind_run. destruct (m w) as [[a|e] w1]; [by exists a, w1|done]. Qed.
Lemma io_catch_run {A} (m : IO W A) h w :
  io_catch m h w = match m w with (inr e, w') => h e w' | r => r end.
Proof. done. Qed.

Lemma io_wrap_run {A} f (m : IO W A) w :
  io_wrap f m w = match m w with (inr e, w') => (inr (f e), w') | r => r end.
Proof. done. Qed.

Lemma runs_inl {A} (r : A + error) :
  match r with inl _ => true | inr _ => false end = true → ∃ a, r = inl a.
Proof. destruct r as [a|]; [by exists a|done]. Defined.

Lemma pair_inl {A} (m : IO W A) w a : (m w).1 = inl a → m w = (inl a, (m w).2).
Proof. intros <-. apply surjective_pairing. Defined.

(** Operations that leave a view of the world alone. *)
Definition io_keeps {A B} (v : W → B) (m : IO W A) : Prop := ∀ w, v (m w).2 = v w.

Lemma io_keeps_ret {A B} (v : W → B) (a : A) : io_keeps v (mret a).
Proof. done. Qed.
Lemma io_keeps_fail {A B} (v : W → B) e : io_keeps (A:=A) v (io_fail e).
Proof. done. Qed.
Lemma io_keeps_lift {A B} (v : W → B) (r : A + error) : io_keeps v (io_lift r).
Proof. done. Qed.
Lemma io_keeps_bind {A B C} (v : W → C) (m : IO W A) (k : A → IO W B) :
  io_keeps v m → (∀ a, io_keeps v (k a)) → io_keeps v (m ≫= k).
Proof.
  intros Hm Hk w. rewrite io_bind_run. specialize (Hm w). destruct (m w) as [[a|e] w']; simpl in *;
    [by rewrite Hk|done].
Qed.
Lemma io_keeps_catch {A C} (v : W → C) (m : IO W A) h :
  io_keeps v m → (∀ e, io_keeps v (h e)) → io_keeps v (io_catch m h).
Proof.
  intros Hm Hk w. rewrite io_catch_run. specialize (Hm w). destruct (m w) as [[a|e] w']; simpl in *;
    [done|by rewrite Hk].
Qed.
Lemma io_keeps_wrap {A C} (v : W → C) f (m : IO W A) : io_keeps v m → io_keeps v (io_wrap f m).
Proof. intros Hm. by apply io_keeps_catch. Qed.
Lemma io_keeps_ignore {C} (v : W → C) (m : IO W unit) : io_keeps v m → io_keeps v (io_ignore m).
Proof. intros Hm. by apply io_keeps_catch. Qed.
Lemma io_keeps_try {A C} (v : W → C) (m : IO W A) : io_keeps v m → io_keeps v (io_try m).
Proof. intros Hm w. unfold io_try. specialize (Hm w). by destruct (m w). Qed.

(** What holds of every error of an operation. *)
Definition io_errors {A} (P : error → Prop) (m : IO W A) : Prop := ∀ w e, (m w).1 = inr e → P e.

Lemma io_errors_ret {A} P (a : A) : io_errors P (mret a).
Proof. done. Qed.
Lemma io_errors_fail {A} (P : error → Prop) e : P e → io_errors (A:=A) P (io_fail e).
Proof. by intros He w ? [= <-]. Qed.
Lemma io_errors_bind {A B} P (m : IO W A) (k : A → IO W B) :
  io_errors P m → (∀ a, io_errors P (k a)) → io_errors P (m ≫= k).
Proof.
  intros Hm Hk w e. rewrite io_bind_run. specialize (Hm w).
  destruct (m w) as [[a|e'] w']; simpl in *; [apply Hk|naive_solver].
Qed.
Lemma io_errors_catch {A} P (m : IO W A) h :
  (∀ e, io_errors P (h e)) → io_errors P (io_catch m h).
Proof.
  intros Hh w e. rewrite io_catch_run. destruct (m w) as [[a|e'] w']; [done|apply Hh].
Qed.
Lemma io_errors_wrap {A} (P : error → Prop) f (m : IO W A) :
  (∀ e, P (f e)) → io_errors P (io_wrap f m).
Proof. intros Hf. apply io_errors_catch. intros e. by apply io_errors_fail. Qed.
Lemma io_errors_ignore P (m : IO W unit) : io_errors P (io_ignore m).
Proof. by apply io_errors_catch. Qed.
Lemma io_errors_try {A} P (m : IO W A) : io_errors P (io_try m).
Proof. intros w e. unfold io_try. by destruct (m w). Qed.

(** What holds of the result and the final world of every success. *)
Definition io_ok {A} (Q : A → W → Prop) (m : IO W A) : Prop := ∀ w a w', m w = (inl a, w') → Q a w'.

Lemma io_ok_fail {A} (Q : A → W → Prop) e : io_ok Q (io_fail e).
Proof. done. Qed.
Lemma io_ok_bind {A B} (Q : B → W → Prop) (m : IO W A) (k : A → IO W B) :
  (∀ a, io_ok Q (k a)) → io_ok Q (m ≫= k).
Proof.
  intros Hk w b w'. rewrite io_bind_run. destruct (m w) as [[a|e] w1]; [apply Hk|done].
Qed.
Lemma io_ok_wrap {A} (Q : A → W → Prop) f (m : IO W A) : io_ok Q m → io_ok Q (io_wrap f m).
Proof.
  intros Hm w a w'. unfold io_wrap. rewrite io_catch_run. specialize (Hm w).
  destruct (m w) as [[a'|e] w1]; [apply Hm|done].
Qed.
End IO.

Create HintDb io_keeps_db discriminated.
#[export] Hint Resolve io_keeps_ret io_keeps_fail io_keeps_lift io_keeps_bind io_keeps_catch
  io_keeps_wrap io_keeps_ignore io_keeps_try : io_keeps_db.

Create HintDb io_errors_db discriminated.
#[export] Hint Resolve io_errors_ret io_errors_bind io_errors_catch io_errors_wrap
  io_errors_ignore io_errors_try io_errors_fail : io_errors_db.

(** The two traversals of an operation: along binds, conditions and cases. *)
Ltac io_walk tac := repeat first
  [ tac
  | match goal with
    | |- context [if ?b then _ else _] => destruct b
    | |- context [match ?x with _ => _ end] => destruct x
    end
  | intros ? ].

(** ** Objects with state

    A provider that keeps something between its calls is an object of the
    heap: the world is the outside and the objects allocated so far, and an
    operation runs on the outside and the state of its own object. *)
Record OWorld (W S : Type) := mkOW { ow_net : W; ow_objs : list S }.
Arguments mkOW {W S} _ _.
Arguments ow_net {W S} _.
Arguments ow_objs {W S} _.

Section Objects.
Context {W S : Type}.

(** An operation on the outside, and the object's own state. *)
Definition net {A} (m : IO W A) : IO (W * S) A := λ w,
  let '(r, w') := m w.1 in (r, (w', w.2)).
Definition get_obj : IO (W * S) S := λ w, (inl w.2, w).
Definition put_obj (s : S) : IO (W * S) unit := λ w, (inl tt, (w.1, s)).

(** Running an operation on the object [id]. *)
Definition run_at {A} (id : nat) (m : IO (W * S) A) : IO (OWorld W S) A := λ w,
  match ow_objs w !! id with
  | None => (inr (ENew "nil pointer dereference"), w)
  | Some s => let '(r, (w', s')) := m (ow_net w, s) in (r, mkOW w' (<[id := s']> (ow_objs w)))
  end.

Definition alloc (s : S) : IO (OWorld W S) nat := λ w,
  (inl (length (ow_objs w)), mkOW (ow_net w) (ow_objs w ++ [s])).

Lemma net_run {A} (m : IO W A) w s : net m (w, s) = ((m w).1, ((m w).2, s)).
Proof. unfold net. simpl. by destruct (m w). Qed.

(** An operation leaves the other objects alone. *)
Lemma run_at_others {A} id id' (m : IO (W * S) A) w :
  id ≠ id' → ow_objs (run_at id m w).2 !! id' = ow_objs w !! id'.
Proof.
  intros Hne. unfold run_at. destruct (ow_objs w !! id) as [s|]; [|done].
  destruct (m _) as [r [w' s']]. simpl. by rewrite list_lookup_insert_ne.
Qed.
End Objects.
