(* ===== verification/FilePath.v ===== *)
(** * File paths and lines

    Go's path/filepath on Unix ([Clean], [Join]) and the line scanner of
    bufio, as far as the program uses them. *)
From S2P Require Import Prelude GoStrings.
From Stdlib Require Import ZArith.

(** ** Paths *)

Definition slash : ascii := "/".

(** One element of a path, on the elements so far, the last one first. *)
Definition path_step (rooted : bool) (stack : list string) (elem : string) : list string :=
  if (elem == "") || (elem == ".") then stack
  else if elem == ".." then
    match stack with
    | top :: rest => if top == ".." then elem :: stack else rest
    | [] => if rooted then [] else [elem]
    end
  else elem :: stack.

(** The elements of a cleaned path. *)
Definition path_elems (path : string) : list string :=
  rev (fold_left (path_step (HasPrefix path "/")) (Split slash path) []).

Definition filepath_Clean (path : string) : string :=
  let body := Join "/" (path_elems path) in
  if HasPrefix path "/" then "/" ++s body
  else if body == "" then "." else body.

Definition filepath_Join (elems : list string) : string :=
  let elems := List.filter (λ e, e != "") elems in
  if (length elems =? 0)%nat then "" else filepath_Clean (Join "/" elems).

(** Up to the last slash, included. *)
Fixpoint dir_part (s : string) : string :=
  match s with
  | EmptyString => ""
  | String c s' =>
      if str_contains_byte slash s' then String c (dir_part s')
      else if Ascii.eqb c slash then "/" else ""
  end.

Definition filepath_Dir (path : string) : string := filepath_Clean (dir_part path).

(** Trailing slashes off. *)
Definition strip_slashes (s : string) : string := trim_right (Ascii.eqb slash) s.

Definition filepath_Base (path : string) : string :=
  if path == "" then "."
  else
    let base := List.last (Split slash (strip_slashes path)) "" in
    if base == "" then "/" else base.

(** From the last dot of the last element. *)
Fixpoint last_dot (s : string) : string :=
  match s with
  | EmptyString => ""
  | String c s' =>
      let r := last_dot s' in
      if r != "" then r else if Ascii.eqb c "." then s else ""
  end.

Definition filepath_Ext (path : string) : string := last_dot (List.last (Split slash path) "").

(** ** Patterns ([filepath.Match]) *)

Inductive glob_token :=
| GByte (c : ascii)
| GAny
| GStar
| GClass (negated : bool) (ranges : list (ascii * ascii)).

(** One end of a range. *)
Definition getEsc (s : string) : option (ascii * string) :=
  match s with
  | EmptyString | String "-" _ | String "]" _ => None
  | String "\" s => match s with EmptyString => None | String c s => Some (c, s) end
  | String c s => Some (c, s)
  end.

(** The ranges of a class, up to its end. *)
Fixpoint glob_ranges (fuel : nat) (s : string) : option (list (ascii * ascii) * string) :=
  match fuel with
  | O => None
  | S fuel =>
      match getEsc s with
      | None => None
      | Some (lo, s) =>
          match (match s with
                 | String "-" s => getEsc s
                 | _ => Some (lo, s)
                 end) with
          | None => None
          | Some (hi, s) =>
              match s with
              | String "]" s => Some ([(lo, hi)], s)
              | _ => match glob_ranges fuel s with
                     | Some (rs, s) => Some ((lo, hi) :: rs, s)
                     | None => None
                     end
              end
          end
      end
  end.

(** The tokens of a pattern, [None] for a malformed one. *)
Fixpoint glob_tokens (fuel : nat) (pattern : string) : option (list glob_token) :=
  match fuel, pattern with
  | _, EmptyString => Some []
  | O, _ => None
  | S fuel, String c s =>
      if Ascii.eqb c "*" then cons GStar <$> glob_tokens fuel s
      else if Ascii.eqb c "?" then cons GAny <$> glob_tokens fuel s
      else if Ascii.eqb c "[" then
        let '(negated, s) := match s with String "^" s => (true, s) | _ => (false, s) end in
        match glob_ranges fuel s with
        | Some (rs, s) => cons (GClass negated rs) <$> glob_tokens fuel s
        | None => None
        end
      else if Ascii.eqb c "\" then
        match s with
        | EmptyString => None
        | String d s => cons (GByte d) <$> glob_tokens fuel s
        end
      else cons (GByte c) <$> glob_tokens fuel s
  end.

Fixpoint glob_match (ts : list glob_token) (s : string) : bool :=
  match ts with
  | [] => s == ""
  | GStar :: ts =>
      (fix star (s : string) : bool :=
         glob_match ts s
         || match s with String c s => negb (Ascii.eqb c slash) && star s | EmptyString => false end) s
  | GByte d :: ts => match s with String c s => Ascii.eqb c d && glob_match ts s | EmptyString => false end
  | GAny :: ts =>
      match s with String c s => negb (Ascii.eqb c slash) && glob_match ts s | EmptyString => false end
  | GClass negated rs :: ts =>
      match s with
      | String c s => xorb negated (existsb (λ r, byte_in r.1 r.2 c) rs) && glob_match ts s
      | EmptyString => false
      end
  end.

(** [None] is [ErrBadPattern]. *)
Definition filepath_Match (pattern name : string) : option bool :=
  (λ ts, glob_match ts name) <$> glob_tokens (String.length pattern) pattern.

(** ** Lines *)

Definition newline : ascii := "010".
Definition carriage_return : ascii := "013".
Definition NL : string := String newline "".

Definition MaxScanTokenSize : N := 65536.

(** [bufio.ScanLines]: without the newline and one carriage return. *)
Definition drop_cr (s : string) : string := TrimSuffix s (String carriage_return "").

(** The lines before their ends are dropped; no line follows a last newline. *)
Definition raw_lines (content : string) : list string :=
  let l := Split newline content in
  match rev l with
  | last :: l' => if last == "" then rev l' else l
  | [] => []
  end.

(** The lines of a text, [None] when one of them does not fit the buffer. *)
Definition scan_lines (content : string) : option (list string) :=
  let lines := raw_lines content in
  if forallb (λ s, (N.of_nat (String.length s) <? MaxScanTokenSize)%N) lines
  then Some (map drop_cr lines) else None.

(** [bufio.ErrTooLong] *)
Definition ErrTooLong : string := "bufio.Scanner: token too long".

Example Match_1 : filepath_Match "*.y[a-c]?l" "traefik.yaml" = Some true
  ∧ filepath_Match "*.y[a-c]?l" "traefik.yaml.bak" = Some false
  ∧ filepath_Match "*.ya?l" "dynamic.prod.yaml" = Some true
  ∧ filepath_Match "[^a-]x" "bx" = None ∧ filepath_Match "*.yml" "a/b.yml" = Some false.
Proof. repeat split. Qed.
Example Ext_1 : filepath_Ext "/etc/traefik.d/conf.prod.YML" = ".YML" ∧ filepath_Ext "/a.b/c" = ""
  ∧ filepath_Base "/etc/x//" = "x" ∧ filepath_Base "//" = "/".
Proof. repeat split. Qed.
Example Clean_1 : filepath_Clean "/etc//dnsmasq.d/./x/../y/" = "/etc/dnsmasq.d/y".
Proof. reflexivity. Qed.
Example Clean_2 : filepath_Clean "../../a/.." = "../..".
Proof. reflexivity. Qed.
Example Dir_1 : map filepath_Dir ["/etc/dnsmasq.d/x"; "/etc"; "a"; ""; "/"] = ["/etc/dnsmasq.d"; "/"; "."; "."; "/"].
Proof. reflexivity. Qed.
Example Clean_3 : filepath_Clean "/../.." = "/".
Proof. reflexivity. Qed.

(** ** Properties of cleaned paths *)
Section Paths.
Implicit Types (p e : string) (l : list string).

(** Elements of a rooted cleaned path. *)
Definition normal_elem e : Prop :=
  e ≠ "" ∧ e ≠ "." ∧ e ≠ ".." ∧ str_contains_byte slash e = false.

#[global] Instance normal_elem_dec e : Decision (normal_elem e).
Proof. unfold normal_elem. apply _. Defined.

Lemma path_step_normal rooted stack e :
  normal_elem e → path_step rooted stack e = e :: stack.
Proof.
  intros (H1 & H2 & H3 & _). unfold path_step. by repeat case_eqb.
Qed.

Lemma path_step_rooted stack e :
  str_contains_byte slash e = false → Forall normal_elem stack →
  Forall normal_elem (path_step true stack e).
Proof.
  intros He Hs. unfold path_step.
  destruct (String.eqb_spec e ""), (String.eqb_spec e "."); simpl; try done.
  destruct (String.eqb_spec e "..") as [->|].
  - destruct Hs as [|top rest (? & ? & Ht & ?) Hr]; [done|]. by case_eqb.
  - by constructor.
Qed.

Lemma fold_steps_rooted stack l :
  Forall (λ e, str_contains_byte slash e = false) l → Forall normal_elem stack →
  Forall normal_elem (fold_left (path_step true) l stack).
Proof.
  intros Hl. revert stack. induction Hl as [|e l He Hl IH]; intros stack Hs; simpl; [done|].
  by apply IH, path_step_rooted.
Qed.

Lemma path_elems_rooted p : HasPrefix p "/" = true → Forall normal_elem (path_elems p).
Proof.
  intros Hp. unfold path_elems. rewrite Hp. apply Forall_rev.
  apply fold_steps_rooted; [apply Split_pieces|constructor].
Qed.

Lemma fold_steps_normal rooted stack l :
  Forall normal_elem l → fold_left (path_step rooted) l stack = rev l ++ stack.
Proof.
  intros Hl. revert stack. induction Hl as [|e l He Hl IH]; intros stack; simpl; [done|].
  rewrite path_step_normal, IH by done. by rewrite <- app_assoc.
Qed.

Lemma Split_Join sep l :
  Forall (λ e, str_contains_byte sep e = false) l → l ≠ [] →
  Split sep (Join (String sep "") l) = l.
Proof.
  induction 1 as [|e l He Hl IH]; [done|]. intros _. destruct l as [|e' l].
  - by apply Split_single.
  - rewrite Join_cons_ne by done.
    change (String sep "" ++s Join (String sep "") (e' :: l))
      with (String sep (Join (String sep "") (e' :: l))).
    by rewrite Split_app, IH.
Qed.

Lemma Split_Join_normal l : Forall normal_elem l → l ≠ [] → Split slash (Join "/" l) = l.
Proof.
  intros Hl. apply (Split_Join slash). eapply Forall_impl; [apply Hl|]. by intros e (_ & _ & _ & ?).
Qed.

Definition rooted_path l : string := "/" ++s Join "/" l.

Lemma Split_rooted l :
  Forall normal_elem l → l ≠ [] → Split slash (rooted_path l) = "" :: l.
Proof.
  intros Hl Hne. change (Split slash (rooted_path l)) with ("" :: Split slash (Join "/" l)).
  by rewrite Split_Join_normal.
Qed.

Lemma path_elems_id l : Forall normal_elem l → path_elems (rooted_path l) = l.
Proof.
  intros Hl. destruct (decide (l = [])) as [->|Hne]; [done|].
  unfold path_elems. rewrite Split_rooted by done.
  unfold rooted_path. rewrite HasPrefix_app. simpl fold_left. change (path_step true [] "") with (@nil string).
  rewrite fold_steps_normal by done. by rewrite app_nil_r, rev_involutive.
Qed.

Lemma Clean_rooted p : HasPrefix p "/" = true → filepath_Clean p = rooted_path (path_elems p).
Proof. intros Hp. unfold filepath_Clean. by rewrite Hp. Qed.

Lemma Clean_rooted_path l : Forall normal_elem l → filepath_Clean (rooted_path l) = rooted_path l.
Proof. intros Hl. rewrite Clean_rooted by apply HasPrefix_app. by rewrite path_elems_id. Qed.

Lemma Split_app_sep sep s t : Split sep (s ++s String sep t) = Split sep s ++ Split sep t.
Proof.
  induction s as [|c s IH].
  - rewrite app_empty_l. simpl. by rewrite Ascii.eqb_refl.
  - rewrite app_cons. simpl. destruct (Ascii.eqb c sep); [by rewrite IH|].
    rewrite IH. pose proof (Split_nonempty sep s). by destruct (Split sep s).
Qed.

(** A cleaned rooted path below a cleaned directory is the directory with
    normal elements appended. *)
Lemma below_rooted l d t :
  Forall normal_elem l → Forall normal_elem d → d ≠ [] →
  rooted_path l = rooted_path d ++s String slash t →
  ∃ rest, rest ≠ [] ∧ Forall normal_elem rest ∧ t = Join "/" rest ∧ l = d ++ rest.
Proof.
  intros Hl Hd Hne E. assert (l ≠ []) as Hlne.
  { intros ->. destruct d as [|e d]; [done|]. unfold rooted_path in E.
    inversion Hd as [|? ? (He & _) _]; subst. destruct e; [done|]. by destruct d. }
  apply (f_equal (Split slash)) in E. rewrite Split_app_sep, !Split_rooted in E by done.
  injection E as E. exists (Split slash t). rewrite E in Hl. apply Forall_app in Hl as [_ Ht].
  split_and!; [apply Split_nonempty|done|symmetry; apply (Join_Split slash)|done].
Qed.

Lemma Join_app sp d rest :
  d ≠ [] → rest ≠ [] → Join sp (d ++ rest) = Join sp d ++s sp ++s Join sp rest.
Proof.
  intros Hd Hr. induction d as [|e d IH]; [done|]. destruct d as [|e' d].
  - exact (Join_cons_ne sp e rest Hr).
  - change ((e :: e' :: d) ++ rest) with (e :: (e' :: d) ++ rest).
    rewrite !Join_cons_ne, IH by done. by rewrite !app_assoc_s.
Qed.

Lemma rooted_app d rest :
  d ≠ [] → rest ≠ [] → rooted_path (d ++ rest) = rooted_path d ++s "/" ++s Join "/" rest.
Proof. intros Hd Hr. unfold rooted_path. by rewrite Join_app, app_assoc_s. Qed.

(** A doubled slash inside a rooted path, or one at its end, does not matter. *)
Lemma path_elems_slashes p rest :
  HasPrefix p "/" = true →
  path_elems (p ++s "/") = path_elems p ∧
  path_elems ((p ++s "/") ++s "/" ++s rest) = path_elems (p ++s "/" ++s rest).
Proof.
  intros [t ->]%HasPrefix_spec. unfold path_elems. rewrite !app_assoc_s, !HasPrefix_app.
  change (("/" ++s t) ++s "/") with (("/" ++s t) ++s String slash "").
  change ("/" ++s t ++s "/") with (("/" ++s t) ++s String slash "").
  change ("/" ++s t ++s "/" ++s "/" ++s rest)
    with (("/" ++s t) ++s String slash (String slash rest)).
  change ("/" ++s t ++s "/" ++s rest) with (("/" ++s t) ++s String slash rest).
  rewrite !Split_app_sep, !fold_left_app. split; [done|].
  change (Split slash (String slash rest)) with ("" :: Split slash rest). done.
Qed.

(** A slash at the end of a rooted directory does not matter. *)
Lemma HasPrefix_slash p : HasPrefix p "/" = true → HasPrefix (p ++s "/") "/" = true.
Proof. intros [t ->]%HasPrefix_spec. rewrite app_assoc_s. apply HasPrefix_app. Qed.

Lemma Clean_slash p : HasPrefix p "/" = true → filepath_Clean (p ++s "/") = filepath_Clean p.
Proof.
  intros Hp. rewrite !Clean_rooted by auto using HasPrefix_slash.
  by rewrite (proj1 (path_elems_slashes p "" Hp)).
Qed.

Lemma Join2_slash p file :
  HasPrefix p "/" = true → filepath_Join [p ++s "/"; file] = filepath_Join [p; file].
Proof.
  intros Hp. pose proof (Clean_slash p Hp) as Hc.
  pose proof (proj2 (path_elems_slashes p file Hp)) as Hj. unfold filepath_Join.
  apply HasPrefix_spec in Hp as [t ->]. cbn [List.filter].
  change (("/" ++s t) != "") with true. change ((("/" ++s t) ++s "/") != "") with true. cbv iota.
  destruct (file != ""); cbn [length Nat.eqb]; cbv iota; [|done].
  rewrite !Join_cons_ne by done. cbn [Join].
  rewrite !Clean_rooted by (apply HasPrefix_spec; eexists; rewrite !app_assoc_s; reflexivity).
  by rewrite Hj.
Qed.

(** Joining onto a rooted path. *)
Lemma Join2_rooted dir file :
  HasPrefix dir "/" = true →
  ∃ l, Forall normal_elem l ∧ filepath_Join [dir; file] = rooted_path l.
Proof.
  intros Hp. unfold filepath_Join. apply HasPrefix_spec in Hp as [t ->]. cbn [List.filter].
  change (("/" ++s t) != "") with true. cbv iota.
  assert (∀ p, HasPrefix p "/" = true → ∃ l, Forall normal_elem l ∧ filepath_Clean p = rooted_path l) as Hc.
  { intros p Hp. exists (path_elems p). split; [by apply path_elems_rooted|by apply Clean_rooted]. }
  destruct (file != ""); cbn [length Nat.eqb]; cbv iota; apply Hc.
  - rewrite Join_cons_ne by done. rewrite app_assoc_s. apply HasPrefix_app.
  - apply HasPrefix_app.
Qed.

Lemma Join2_elem d e :
  Forall normal_elem d → d ≠ [] → normal_elem e →
  filepath_Join [rooted_path d; e] = rooted_path (d ++ [e]).
Proof.
  intros Hd Hne He. rewrite <- (Clean_rooted_path (d ++ [e])) by (apply Forall_app; auto).
  rewrite rooted_app by done. unfold filepath_Join. cbn [List.filter].
  change (rooted_path d != "") with true. cbv iota.
  rewrite (proj2 (String.eqb_neq e "")) by apply He. done.
Qed.
(** Cleaning never makes a path longer. *)
Definition join_cost l : nat := sum_list_with (λ e, S (String.length e)) l.

Lemma length_Join l : l ≠ [] → S (String.length (Join "/" l)) = join_cost l.
Proof.
  induction l as [|e l IH]; [done|]. intros _. destruct l as [|e' l]; [cbn; lia|].
  rewrite Join_cons_ne by done. rewrite !length_app_s. change (String.length "/") with 1.
  change (join_cost (e :: e' :: l)) with (S (String.length e) + join_cost (e' :: l)).
  rewrite <- IH by done. lia.
Qed.

Lemma fold_steps_cost rooted l stack :
  join_cost (fold_left (path_step rooted) l stack) ≤ join_cost stack + join_cost l.
Proof.
  revert stack. induction l as [|e l IH]; intros stack; cbn [fold_left]; [lia|].
  etrans; [apply IH|]. change (join_cost (e :: l)) with (S (String.length e) + join_cost l).
  assert (join_cost (path_step rooted stack e) ≤ join_cost stack + S (String.length e)); [|lia].
  unfold path_step, join_cost. destruct (_ || _); [lia|]. destruct (e == ".."); [|simpl; lia].
  destruct stack as [|top rest]; [destruct rooted; simpl; lia|]. destruct (top == ".."); simpl; lia.
Qed.

Lemma join_cost_rev l : join_cost (rev l) = join_cost l.
Proof.
  induction l as [|e l IH]; [done|]. unfold join_cost in *. simpl. rewrite sum_list_with_app, IH. simpl.
  lia.
Qed.

Lemma cost_Split s : join_cost (Split slash s) = S (String.length s).
Proof.
  rewrite <- length_Join by apply Split_nonempty. pose proof (Join_Split slash s) as E.
  change (String slash "") with "/" in E. by rewrite E.
Qed.

Lemma length_Clean p : p ≠ "" → String.length (filepath_Clean p) ≤ String.length p.
Proof.
  intros Hp. unfold filepath_Clean, path_elems.
  pose proof (fold_steps_cost (HasPrefix p "/") (Split slash p) []) as Hc.
  rewrite cost_Split in Hc. change (join_cost []) with 0 in Hc.
  set (rooted := HasPrefix p "/") in *. set (l := fold_left _ _ _) in *.
  assert (p ≠ "" → 1 ≤ String.length p) as Hp1 by (destruct p; simpl; [done|lia]).
  destruct rooted eqn:Er.
  - rewrite length_app_s. change (String.length "/") with 1.
    assert (join_cost l ≤ String.length p) as Hl.
    { subst l. destruct p as [|c p']; [done|].
      assert (c = slash) as -> by (by apply HasPrefix_spec in Er as [t [= -> _]]).
      change (Split slash (String slash p')) with ("" :: Split slash p'). cbn [fold_left].
      change (path_step true [] "") with (@nil string).
      etrans; [apply fold_steps_cost|]. rewrite cost_Split. done. }
    destruct (decide (rev l = [])) as [E|E]; [rewrite E; simpl; by apply Hp1|].
    pose proof (length_Join _ E) as HJ. rewrite join_cost_rev in HJ. lia.
  - destruct (decide (rev l = [])) as [E|E]; [rewrite E; simpl; by apply Hp1|].
    pose proof (length_Join _ E) as HJ. rewrite join_cost_rev in HJ. case_eqb; simpl; [by apply Hp1|lia].
Qed.

Lemma dir_part_cases p : dir_part p = p ∨ String.length (dir_part p) < String.length p.
Proof.
  induction p as [|c p IH]; [by left|]. cbn [dir_part].
  destruct (str_contains_byte slash p); [destruct IH as [->|IH]; [by left|right; simpl; lia]|].
  destruct (Ascii.eqb_spec c slash) as [->|]; [|right; simpl; lia].
  destruct p; [by left|right; simpl; lia].
Qed.

(** A path that is its own directory part ends in a slash, which cleaning
    takes away. *)
Lemma dir_part_slash p : p ≠ "" → dir_part p = p → HasSuffix p "/" = true.
Proof.
  intros Hp. induction p as [|c p IH]; [done|]. cbn [dir_part]. clear Hp.
  destruct (str_contains_byte slash p) eqn:Es.
  - intros [= E]. apply HasSuffix_spec. destruct (decide (p = "")) as [->|Hp]; [done|].
    apply (IH Hp) in E. apply HasSuffix_spec in E as [q ->]. by exists (String c q).
  - destruct (Ascii.eqb_spec c slash) as [->|]; [|done]. by destruct p.
Qed.

Lemma Clean_trailing_slash q : q ≠ "" → filepath_Clean (q ++s "/") = filepath_Clean q.
Proof.
  intros Hq. assert (HasPrefix (q ++s "/") "/" = HasPrefix q "/") as Hp
    by (destruct q; [done|]; rewrite app_cons; unfold HasPrefix; cbn [String.prefix]; destruct (ascii_dec _ _); by destruct q).
  unfold filepath_Clean, path_elems. rewrite Hp.
  change (q ++s "/") with (q ++s String slash ""). rewrite Split_app_sep, fold_left_app. done.
Qed.

(** The parent of a path is shorter, when it is not the root or [.]. *)
Lemma length_Dir p :
  filepath_Dir p ≠ p → filepath_Dir p ≠ "." → String.length (filepath_Dir p) < String.length p.
Proof.
  intros Hne Hdot. unfold filepath_Dir in *. assert (dir_part p ≠ "") as Hd
    by (intros E; apply Hdot; by rewrite E).
  destruct (dir_part_cases p) as [E|Hlt]; [|pose proof (length_Clean _ Hd); lia].
  rewrite E in *. apply dir_part_slash in E; [|done]. apply HasSuffix_spec in E as [q ->].
  destruct (decide (q = "")) as [->|Hq]; [done|]. rewrite Clean_trailing_slash in * by done.
  pose proof (length_Clean q Hq). rewrite length_app_s. change (String.length "/") with 1. lia.
Qed.

End Paths.

(** ** Properties of lines *)
Section Lines.
Implicit Types (s t : string).

Lemma raw_lines_ended s : raw_lines (s ++s NL) = Split newline s.
Proof.
  unfold raw_lines, NL. rewrite Split_app_sep. simpl. rewrite rev_app_distr. simpl.
  by rewrite rev_involutive.
Qed.

Lemma raw_lines_cons s t :
  str_contains_byte newline s = false → raw_lines (s ++s String newline t) = s :: raw_lines t.
Proof.
  intros Hs. unfold raw_lines. rewrite Split_app by done. simpl.
  pose proof (Split_nonempty newline t) as Hne.
  destruct (rev (Split newline t)) as [|last l'] eqn:E.
  - apply (f_equal (@rev _)) in E. by rewrite rev_involutive in E.
  - simpl. destruct (last == ""); [|done]. by rewrite rev_app_distr.
Qed.
Lemma Split_last s l :
  Split newline s = l ++ [""] → s = "" ∨ HasSuffix s NL = true.
Proof.
  intros E. rewrite <- (Join_Split newline s), E. destruct l as [|x l]; [by left|right].
  fold NL. rewrite Join_app by done. simpl. rewrite app_empty_r. apply HasSuffix_app.
Qed.

Lemma raw_lines_unended s : s ≠ "" → HasSuffix s NL = false → raw_lines s = Split newline s.
Proof.
  intros Hne Hs. unfold raw_lines. destruct (rev (Split newline s)) as [|x l] eqn:E.
  - apply (f_equal (@rev _)) in E. rewrite rev_involutive in E. by apply Split_nonempty in E.
  - destruct (String.eqb_spec x "") as [->|]; [|done].
    apply (f_equal (@rev _)) in E. rewrite rev_involutive in E. simpl in E.
    apply Split_last in E as [|E]; [done|]. by rewrite E in Hs.
Qed.

Lemma drop_cr_plain s : plain s → drop_cr s = s.
Proof.
  intros Hs. unfold drop_cr. destruct (TrimSuffix_cases s (String carriage_return "")) as [(p & E & _)|[_ ->]];
    [|done]. rewrite E in Hs. by apply plain_app in Hs as [_ Hs].
Qed.

Lemma TrimSpace_drop_cr s : TrimSpace (drop_cr s) = TrimSpace s.
Proof.
  unfold drop_cr. destruct (TrimSuffix_cases s (String carriage_return "")) as [(p & -> & ->)|[_ ->]];
    [by rewrite TrimSpace_end|done].
Qed.

Lemma plain_no_newline s : plain s → str_contains_byte newline s = false.
Proof.
  unfold plain. induction s as [|c s IH]; [done|]. cbn [str_forallb str_contains_byte].
  intros [Hc Hs]%andb_true_iff. rewrite IH by done. rewrite orb_false_r.
  destruct (Ascii.eqb_spec newline c) as [<-|]; [done|done].
Qed.

(** Lines that fit the scanner's buffer. *)
Definition fits s : Prop := (N.of_nat (String.length s) < MaxScanTokenSize)%N.

Lemma scan_lines_Some s lines :
  scan_lines s = Some lines ↔ Forall fits (raw_lines s) ∧ lines = map drop_cr (raw_lines s).
Proof.
  unfold scan_lines. destruct (forallb _ _) eqn:E.
  - rewrite forallb_forall in E. split; [|by intros [_ ->]]. intros [= <-]. split; [|done].
    apply Forall_forall. intros x Hx%list_elem_of_In. by apply N.ltb_lt, E.
  - split; [done|]. intros [Hf _]. apply not_true_iff_false in E. destruct E.
    apply forallb_forall. intros x Hx. apply N.ltb_lt. rewrite Forall_forall in Hf.
    by apply Hf, list_elem_of_In.
Qed.

(** Appending a line to a text. *)
Lemma scan_lines_append s line lines :
  s ≠ "" → scan_lines s = Some lines → plain line → fits line →
  scan_lines ((if HasSuffix s NL then s else s ++s NL) ++s line ++s NL) = Some (lines ++ [line]).
Proof.
  intros Hne [Hf ->]%scan_lines_Some Hp Hl.
  assert (∃ t, (if HasSuffix s NL then s else s ++s NL) = t ++s NL ∧ raw_lines s = Split newline t)
    as (t & -> & E).
  { destruct (HasSuffix s NL) eqn:Hs.
    - apply HasSuffix_spec in Hs as [t ->]. exists t. by rewrite raw_lines_ended.
    - exists s. by rewrite raw_lines_unended. }
  rewrite E in *. rewrite <- app_assoc_s.
  apply scan_lines_Some. rewrite raw_lines_ended.
  change ((t ++s NL) ++s line) with ((t ++s String newline "") ++s line). rewrite app_assoc_s.
  change (String newline "" ++s line) with (String newline line).
  rewrite Split_app_sep, (Split_single newline line) by by apply plain_no_newline.
  split; [apply Forall_app; by repeat constructor|].
  rewrite map_app. simpl. by rewrite drop_cr_plain.
Qed.

Lemma drop_cr_sub s : ∃ t, s = drop_cr s ++s t.
Proof.
  unfold drop_cr. destruct (TrimSuffix_cases s (String carriage_return "")) as [(p & -> & ->)|[_ ->]].
  - by eexists.
  - exists "". by rewrite app_empty_r.
Qed.

Lemma raw_lines_pieces s : Forall (λ l, str_contains_byte newline l = false) (raw_lines s).
Proof.
  unfold raw_lines. pose proof (Split_pieces newline s) as Hp.
  destruct (rev (Split newline s)) as [|x l] eqn:E; [constructor|].
  destruct (x == ""); [|done]. apply Forall_rev.
  rewrite <- (rev_involutive (Split newline s)), E in Hp. apply Forall_rev in Hp.
  rewrite rev_involutive in Hp. by inversion Hp.
Qed.

(** Scanned lines can be written again. *)
Lemma scanned_lines s lines :
  scan_lines s = Some lines →
  Forall (λ l, str_contains_byte newline l = false ∧ fits l) lines.
Proof.
  intros [Hf ->]%scan_lines_Some. pose proof (raw_lines_pieces s) as Hp.
  apply Forall_map, Forall_forall. intros x Hx. rewrite Forall_forall in Hf, Hp.
  specialize (Hf x Hx). specialize (Hp x Hx). destruct (drop_cr_sub x) as [t Ht].
  rewrite Ht in Hp, Hf. rewrite str_contains_byte_app in Hp. apply orb_false_iff in Hp as [Hp _].
  split; [done|]. unfold fits in *. rewrite length_app_s in Hf. lia.
Qed.

(** A line is a piece of the text. *)
Lemma raw_lines_sub s l : l ∈ raw_lines s → Contains s l = true.
Proof.
  intros Hl. rewrite <- (Join_Split newline s). apply Contains_Join. revert Hl. unfold raw_lines.
  destruct (rev (Split newline s)) as [|x t] eqn:E; [by intros ?%not_elem_of_nil|].
  destruct (x == ""); [|done]. rewrite <- (rev_involutive (Split newline s)), E. simpl.
  intros Hl. apply elem_of_app. by left.
Qed.
End Lines.
