(* ===== verification/Dnsmasq.v ===== *)
(** * The dnsmasq provider (providers/dnsmasq)

    Records are lines of a file that the program owns.  The file system and
    the command runner are the interfaces [FileSystem] and [CommandRunner] of
    client.go; what is expected of a file system is [FileSystemLaws].  File
    modes, logging and locks are left out. *)
From S2P Require Import Prelude GoStrings Errors ProviderTypes GoMaps Effects NetIP Registry.
From S2P Require Import DnsRecord DnsConfig IO FilePath.
From Stdlib Require Import ZArith.

(** ** Interfaces (client.go) *)

(** [Stat] answers [IsDir]. *)
Class FileSystem (W : Type) := {
  ReadFile : string → IO W string;
  WriteFile : string → string → IO W unit;
  Stat : string → IO W bool;
  MkdirAll : string → IO W unit;
  os_IsNotExist : error → bool
}.

Class CommandRunner (W : Type) := Run : string → IO W unit.

(** ** Records and lines *)

Record dnsmasqRecord := mkDnsmasqRecord {
  dr_Hostname : string;
  dr_Type : RecordType;
  dr_Target : string
}.

#[export] Instance dnsmasqRecord_eq_dec : EqDecision dnsmasqRecord.
Proof. solve_decision. Defined.

(** [^address=/([^/]+)/(.+)$] and [^cname=([^,]+),(.+)$]: the two groups. *)
Definition two_groups (pre : string) (sep : ascii) (line : string) : option (string * string) :=
  if HasPrefix line pre then
    match Cut sep (str_drop (String.length pre) line) with
    | Some (a, b) =>
        if (a != "") && (b != "") && negb (str_contains_byte newline b) then Some (a, b) else None
    | None => None
    end
  else None.

Definition addressPattern : string → option (string * string) := two_groups "address=/" slash.
Definition cnamePattern : string → option (string * string) := two_groups "cname=" ",".

(** A record, no record, or an error.  [To16] of a parsed address is never
    nil. *)
Definition parseLine (line : string) : nilable dnsmasqRecord + error :=
  match addressPattern line with
  | Some (hostname, target) =>
      match ParseIP target with
      | None => inr (ENew ("invalid IP address: " ++s target))
      | Some ip =>
          let recordType := match To4 ip with
                            | None => RecordTypeAAAA
                            | Some _ => RecordTypeA
                            end in
          inl (Some (mkDnsmasqRecord hostname recordType target))
      end
  | None =>
      match cnamePattern line with
      | Some (hostname, target) => inl (Some (mkDnsmasqRecord hostname RecordTypeCNAME target))
      | None => inl None
      end
  end.

Definition formatRecord (r : dnsmasqRecord) : string + error :=
  if (dr_Type r == RecordTypeA) || (dr_Type r == RecordTypeAAAA) then
    inl ("address=/" ++s dr_Hostname r ++s "/" ++s dr_Target r)
  else if dr_Type r == RecordTypeCNAME then
    inl ("cname=" ++s dr_Hostname r ++s "," ++s dr_Target r)
  else inr (ENew ("unsupported record type: " ++s dr_Type r)).

Definition fileHeader : string :=
  "# Managed by dnsweaver - DO NOT EDIT MANUALLY" ++s NL ++s
  "# This file is automatically generated and any manual changes will be overwritten." ++s NL ++s
  "# See https://github.com/maxfield-allison/dnsweaver for more information." ++s NL ++s NL.

(** ** The client *)

Record Client := mkClient {
  cl_configDir : string;
  cl_configFile : string;
  cl_reloadCommand : string;
  cl_zone : string
}.

Definition ConfigFilePath (c : Client) : string :=
  let fullPath := filepath_Join [cl_configDir c; cl_configFile c] in
  let cleanPath := filepath_Clean fullPath in
  let cleanDir := filepath_Clean (cl_configDir c) in
  if negb (HasPrefix cleanPath (cleanDir ++s "/")) && (cleanPath != cleanDir)
  then filepath_Join [cleanDir; "dnsweaver.conf"]
  else cleanPath.

(** One line of the file: the record the loop keeps. *)
Definition lineRecord (zone line : string) : option dnsmasqRecord :=
  let line := TrimSpace line in
  if (line == "") || HasPrefix line "#" then None
  else
    match parseLine line with
    | inr _ | inl None => None
    | inl (Some r) =>
        if (zone != "") && negb (HasSuffix (dr_Hostname r) ("." ++s zone))
           && (dr_Hostname r != zone)
        then None else Some r
    end.

Definition parseConfigContent (zone content : string) : list dnsmasqRecord + error :=
  match scan_lines content with
  | None => inr (EWrapf "scanning config content: " (ENew ErrTooLong))
  | Some lines => inl (omap (lineRecord zone) lines)
  end.

(** The file with a line appended. *)
Definition appendLine (existing newLine : string) : string :=
  if (0 <? String.length existing)%nat then
    (if HasSuffix existing NL then existing else existing ++s NL) ++s newLine ++s NL
  else fileHeader ++s newLine ++s NL.

(** The lines left by a deletion, joined. *)
Definition joinLines (newLines : list string) : string :=
  let newContent := Join NL newLines in
  if (0 <? length newLines)%nat && negb (HasSuffix newContent NL)
  then newContent ++s NL else newContent.

Section Client.
Context {W : Type} `{FileSystem W} `{CommandRunner W} (c : Client).

Definition client_Ping : IO W unit :=
  info ← io_try (Stat (cl_configDir c));
  match info with
  | inr err =>
      if os_IsNotExist err
      then io_fail (ENew ("config directory does not exist: " ++s cl_configDir c))
      else io_fail (EWrapf "checking config directory: " err)
  | inl isDir =>
      if negb isDir
      then io_fail (ENew ("config path is not a directory: " ++s cl_configDir c))
      else mret tt
  end.

(** The content of the file, empty when there is none. *)
Definition readContent : IO W (option string) :=
  content ← io_try (ReadFile (ConfigFilePath c));
  match content with
  | inl content => mret (Some content)
  | inr err =>
      if os_IsNotExist err then mret None
      else io_fail (EWrapf "reading config file: " err)
  end.

Definition client_List : IO W (list dnsmasqRecord) :=
  content ← readContent;
  match content with
  | None => mret []
  | Some content => io_lift (parseConfigContent (cl_zone c) content)
  end.

Definition client_Create (record : dnsmasqRecord) : IO W unit :=
  content ← readContent;
  let existing := default "" content in
  newLine ← io_wrap (EWrapf "formatting record: ") (io_lift (formatRecord record));
  if Contains existing newLine then mret tt
  else
    _ ← io_wrap (EWrapf "creating config directory: ") (MkdirAll (cl_configDir c));
    io_wrap (EWrapf "writing config file: ")
      (WriteFile (ConfigFilePath c) (appendLine existing newLine)).

Definition client_Delete (record : dnsmasqRecord) : IO W unit :=
  content ← readContent;
  match content with
  | None => mret tt
  | Some content =>
      targetLine ← io_wrap (EWrapf "formatting record: ") (io_lift (formatRecord record));
      match scan_lines content with
      | None => io_fail (EWrapf "scanning config content: " (ENew ErrTooLong))
      | Some lines =>
          let newLines := List.filter (λ line, TrimSpace line != targetLine) lines in
          if (length newLines =? length lines)%nat then mret tt
          else io_wrap (EWrapf "writing config file: ")
                 (WriteFile (ConfigFilePath c) (joinLines newLines))
      end
  end.

Definition Reload : IO W unit := Run (cl_reloadCommand c).

(** [osCommandRunner.Run]: the command is split at white space and run without
    a shell; [exec] gives the output. *)
Definition osRun (exec : list string → IO W (string * option error)) : CommandRunner W := λ command,
  match Fields command with
  | [] => io_fail (ENew "empty command")
  | args =>
      out ← exec args;
      match out.2 with
      | None => mret tt
      | Some err => io_fail (ENew ("command failed: " ++s Error err ++s ", output: " ++s out.1))
      end
  end.

Definition ReloadWithRunner (runner : CommandRunner W) : IO W unit := runner (cl_reloadCommand c).

Fixpoint formatRecords (records : list dnsmasqRecord) : list string + error :=
  match records with
  | [] => inl []
  | r :: records =>
      match formatRecord r with
      | inr err => inr (EWrapf ("formatting record " ++s dr_Hostname r ++s ": ") err)
      | inl line =>
          match formatRecords records with
          | inr err => inr err
          | inl lines => inl (line :: lines)
          end
      end
  end.

Definition WriteRecords (records : list dnsmasqRecord) : IO W unit :=
  lines ← io_lift (formatRecords records);
  let content := fileHeader ++s Join NL lines in
  let content := if (0 <? length lines)%nat then content ++s NL else content in
  _ ← io_wrap (EWrapf "creating config directory: ") (MkdirAll (cl_configDir c));
  io_wrap (EWrapf "writing config file: ") (WriteFile (ConfigFilePath c) content).

Definition ReadAll : IO W string :=
  content ← io_try (ReadFile (ConfigFilePath c));
  match content with
  | inl content => mret content
  | inr err => if os_IsNotExist err then mret "" else io_fail err
  end.
End Client.

(** ** Configuration (config.go) *)

Record Config := mkConfig {
  cfg_ConfigDir : string;
  cfg_ConfigFile : string;
  cfg_ReloadCommand : string;
  cfg_Zone : string;
  cfg_TTL : Z;
  cfg_SSHHost : string;
  cfg_SSHPort : Z;
  cfg_SSHUser : string;
  cfg_SSHKeyFile : string;
  cfg_SSHPassword : string;
  cfg_SSHKnownHostsFile : string;
  cfg_SSHStrictHostKey : bool
}.

Definition DefaultTTL : Z := 300.
Definition DefaultConfigDir : string := "/etc/dnsmasq.d".
Definition DefaultConfigFile : string := "dnsweaver.conf".
Definition DefaultReloadCommand : string := "systemctl reload dnsmasq".
Definition DefaultSSHStrictHostKey : bool := true.

Definition IsSSHEnabled (c : Config) : bool :=
  (cfg_SSHHost c != "") || (cfg_SSHUser c != "") || (cfg_SSHKeyFile c != "")
  || (cfg_SSHPassword c != "").

Definition Config_errors (c : Config) : list string :=
  (if cfg_ConfigDir c == "" then ["CONFIG_DIR is required"] else []) ++
  (if cfg_ConfigFile c == "" then ["CONFIG_FILE is required"] else []) ++
  (if cfg_ReloadCommand c == "" then ["RELOAD_COMMAND is required"] else []) ++
  (if (cfg_TTL c <? 0)%Z then ["TTL must be non-negative"] else []) ++
  (if IsSSHEnabled c then
     (if cfg_SSHHost c == "" then ["SSH_HOST is required when SSH is enabled"] else []) ++
     (if cfg_SSHUser c == "" then ["SSH_USER is required when SSH is enabled"] else []) ++
     (if (cfg_SSHKeyFile c == "") && (cfg_SSHPassword c == "")
      then ["SSH_KEY_FILE or SSH_PASSWORD is required when SSH is enabled"] else []) ++
     (if cfg_SSHStrictHostKey c && (cfg_SSHKnownHostsFile c == "")
      then ["SSH host key verification is enabled by default: set SSH_KNOWN_HOSTS_FILE to a known_hosts file, or set SSH_STRICT_HOST_KEY_CHECKING=false to disable verification (insecure)"]
      else [])
   else []).

Definition Config_Validate (c : Config) : option error :=
  let errs := Config_errors c in
  if (0 <? length errs)%nat
  then Some (ENew ("dnsmasq config validation failed: " ++s Join "; " errs)) else None.

Definition getMapWithDefault (m : gmap string string) (key defaultValue : string) : string :=
  match m !! key with
  | Some value => if value != "" then value else defaultValue
  | None => defaultValue
  end.

Definition envPrefix (instanceName : string) : string :=
  "DNSWEAVER_" ++s ReplaceByte "-" "_" (ToUpper instanceName) ++s "_".

Definition Config_ConfigFilePath (c : Config) : string :=
  cfg_ConfigDir c ++s "/" ++s cfg_ConfigFile c.

Definition parseBoolValueDefault (value : string) (def : bool) : bool :=
  let v := ToLower (TrimSpace value) in
  if v == "true" then true else if v == "false" then false else def.

(** A number setting, a default without one. *)
Definition int_setting (key s : string) (dflt : Z) : Z + error :=
  if s != "" then
    match atoi s with
    | inl n => inl n
    | inr err => inr (EWrapf ("invalid " ++s key ++s " value " ++s Quote s ++s ": ")
                             (ENew (derror_text err)))
    end
  else inl dflt.

(** The two loaders, which differ in where a setting is looked up: [get] for
    plain settings, [secret] for those that may be in a file, [get_default]
    for those with a default. *)
Definition load_config (get secret : string → string) (get_default : string → string → string)
    (instanceName : string) : Config + error :=
  let sshHost := get "SSH_HOST" in
  match int_setting "TTL" (get "TTL") DefaultTTL with
  | inr err => inr err
  | inl ttl =>
      match int_setting "SSH_PORT" (get "SSH_PORT") (if sshHost != "" then 22 else 0) with
      | inr err => inr err
      | inl port =>
          let config := mkConfig
            (get_default "CONFIG_DIR" DefaultConfigDir)
            (get_default "CONFIG_FILE" DefaultConfigFile)
            (get_default "RELOAD_COMMAND" DefaultReloadCommand)
            (get "ZONE") ttl sshHost port (get "SSH_USER")
            (secret "SSH_KEY_FILE") (secret "SSH_PASSWORD")
            (secret "SSH_KNOWN_HOSTS_FILE")
            (parseBoolValueDefault (get "SSH_STRICT_HOST_KEY_CHECKING") DefaultSSHStrictHostKey) in
          match Config_Validate config with
          | Some err => inr (EWrapf ("configuration for " ++s instanceName ++s ": ") err)
          | None => inl config
          end
      end
  end.

Definition LoadConfigFromMap (instanceName : string) (m : gmap string string) : Config + error :=
  load_config (setting m) (setting m) (getMapWithDefault m) instanceName.

(** The environment, and the files it names. *)
Section Environment.
Context (Getenv : string → string) (ReadSecret : string → string + error).

Definition getEnvWithDefault (key defaultValue : string) : string :=
  let value := Getenv key in
  if value != "" then value else defaultValue.

Definition getEnvOrFile (directKey fileKey : string) : string :=
  let filePath := Getenv fileKey in
  if filePath != "" then
    match ReadSecret filePath with
    | inl content => TrimSpace content
    | inr _ => Getenv directKey
    end
  else Getenv directKey.

Definition LoadConfig (instanceName : string) : Config + error :=
  let prefix := envPrefix instanceName in
  load_config (λ key, Getenv (prefix ++s key))
    (λ key, getEnvOrFile (prefix ++s key) (prefix ++s key ++s "_FILE"))
    (λ key, getEnvWithDefault (prefix ++s key)) instanceName.
End Environment.

(** ** The provider (provider.go, factory.go) *)

Record DProvider := mkDProvider {
  dp_name : string;
  dp_configPath : string;
  dp_sshHost : string;
  dp_zone : string;
  dp_ttl : Z;
  dp_reloadOnWrite : bool;
  dp_client : Client
}.

Definition dp_Identity (p : DProvider) : ProviderIdentity :=
  let host := if dp_sshHost p == "" then "local" else dp_sshHost p in
  mkIdentity "dnsmasq" (host ++s ":" ++s dp_configPath p) (dp_zone p).

Definition dp_Capabilities : Capabilities :=
  mkCapabilities false false [RecordTypeA; RecordTypeCNAME].

Definition toProviderRecord (p : DProvider) (r : dnsmasqRecord) : DNSRecord :=
  mkRecord (dr_Hostname r) (dr_Type r) (dr_Target r) (dp_ttl p)
    (dr_Hostname r ++s ":" ++s dr_Type r ++s ":" ++s dr_Target r) None None ∅.

Definition toDnsmasqRecord (record : DNSRecord) : dnsmasqRecord :=
  mkDnsmasqRecord (r_Hostname record) (r_Type record) (r_Target record).

Section Provider.
Context {W : Type} `{FileSystem W} `{CommandRunner W} (p : DProvider).

Definition dp_Ping : IO W unit := client_Ping (dp_client p).

Definition dp_List : IO W (list DNSRecord) :=
  records ← io_wrap (EWrapf "listing records: ") (client_List (dp_client p));
  mret (map (toProviderRecord p) records).

Definition reloadIfConfigured : IO W unit :=
  if dp_reloadOnWrite p then io_ignore (Reload (dp_client p)) else mret tt.

Definition dp_Create (record : DNSRecord) : IO W unit :=
  let t := r_Type record in
  if (t == RecordTypeA) || (t == RecordTypeAAAA) || (t == RecordTypeCNAME) then
    _ ← io_wrap (EWrapf ("creating " ++s t ++s " record: "))
          (client_Create (dp_client p) (toDnsmasqRecord record));
    reloadIfConfigured
  else if t == RecordTypeTXT then mret tt
  else if t == RecordTypeSRV then
    io_fail (ENew "SRV records not yet supported by dnsmasq provider")
  else io_fail (ENew ("unsupported record type: " ++s t)).

Definition dp_Delete (record : DNSRecord) : IO W unit :=
  let t := r_Type record in
  if t == RecordTypeTXT then mret tt
  else
    _ ← io_wrap (EWrapf ("deleting " ++s t ++s " record: "))
          (client_Delete (dp_client p) (toDnsmasqRecord record));
    reloadIfConfigured.

(** The provider interface; [close] is the transport's, nothing without one. *)
Definition dnsmasq_provider (close : IO W unit) : Provider W := {|
  prov_Name := dp_name p;
  prov_Type := "dnsmasq";
  prov_Ping := io_error dp_Ping;
  prov_Capabilities := dp_Capabilities;
  prov_List := dp_List;
  prov_Create := λ r, io_error (dp_Create r);
  prov_Delete := λ r, io_error (dp_Delete r);
  prov_Update := None;
  prov_Identity := Some (dp_Identity p);
  prov_Close := Some (io_error close)
|}.
End Provider.

(** [New] without options: the fields of the provider. *)
Definition newProvider (name : string) (config : Config) : DProvider :=
  mkDProvider name (Config_ConfigFilePath config) (cfg_SSHHost config)
    (cfg_Zone config) (cfg_TTL config) true
    (mkClient (cfg_ConfigDir config) (cfg_ConfigFile config) (cfg_ReloadCommand config)
              (cfg_Zone config)).

(** A transport: a remote file system and command runner, and their end. *)
Record Transport (W : Type) := mkTransport {
  tr_fs : FileSystem W;
  tr_runner : CommandRunner W;
  tr_Close : IO W unit
}.
Arguments mkTransport {W} _ _ _.
Arguments tr_fs {W} _.
Arguments tr_runner {W} _.
Arguments tr_Close {W} _.

Section Factory.
Context {W : Type} (local_fs : FileSystem W) (local_runner : CommandRunner W).
Context (newSSHTransport : Config → IO W (Transport W)).

Definition New (name : string) (config : nilable Config) : IO W (Provider W) :=
  match config with
  | None => io_fail (ENew "config is required")
  | Some config =>
      match Config_Validate config with
      | Some err => io_fail err
      | None =>
          let p := newProvider name config in
          if IsSSHEnabled config then
            transport ← io_wrap (EWrapf ("dnsmasq provider " ++s Quote name
                ++s ": SSH mode is configured but the transport could not be established: "))
              (newSSHTransport config);
            mret (@dnsmasq_provider W (tr_fs transport) (tr_runner transport) p (tr_Close transport))
          else mret (@dnsmasq_provider W local_fs local_runner p (mret tt))
      end
  end.

Definition NewFromMap (name : string) (m : gmap string string) : IO W (Provider W) :=
  cfg ← io_lift (LoadConfigFromMap name m);
  New name (Some cfg).

Definition Factory : Registry.Factory W := λ cfg, NewFromMap (fc_Name cfg) (fc_ProviderConfig cfg).
End Factory.

(** ** Lines and records *)
Section RecordLines.
Implicit Types (r : dnsmasqRecord) (line zone : string).

(** Records the file can hold: no white space, no separator in the name, and
    a target of the type. *)
Definition record_ok r : Prop :=
  plain (dr_Hostname r) ∧ plain (dr_Target r) ∧ dr_Hostname r ≠ "" ∧ dr_Target r ≠ "" ∧
  ((dr_Type r = RecordTypeA ∧ str_contains_byte slash (dr_Hostname r) = false ∧
      isIPv4Address (dr_Target r) = true) ∨
   (dr_Type r = RecordTypeAAAA ∧ str_contains_byte slash (dr_Hostname r) = false ∧
      isIPv6Address (dr_Target r) = true) ∨
   (dr_Type r = RecordTypeCNAME ∧ str_contains_byte "," (dr_Hostname r) = false)).

(** The names that a zone filter lets through. *)
Definition zone_keeps zone (h : string) : bool :=
  (zone == "") || HasSuffix h ("." ++s zone) || (h == zone).

Lemma two_groups_spec pre sep line a b :
  two_groups pre sep line = Some (a, b) ↔
  line = pre ++s a ++s String sep b ∧ str_contains_byte sep a = false ∧ a ≠ "" ∧ b ≠ "" ∧
  str_contains_byte newline b = false.
Proof.
  unfold two_groups. split.
  - destruct (HasPrefix line pre) eqn:Hp; [|done]. apply HasPrefix_inv in Hp.
    destruct (Cut sep _) as [[a' b']|] eqn:Hc; [|done]. apply Cut_spec in Hc as [Hc Ha].
    destruct (_ && _ && _) eqn:E; [|done]. intros [= -> ->]. bool_to_prop.
    rewrite Hp, Hc. done.
  - intros (-> & Ha & Hna & Hnb & Hb). rewrite HasPrefix_app, str_drop_app, Cut_app by done.
    rewrite Hb. by repeat case_eqb.
Qed.

Lemma isIPv4_spec t : isIPv4Address t = true ↔ ∃ ip, ParseIP t = Some ip ∧ is_Some (To4 ip).
Proof.
  unfold isIPv4Address. destruct (ParseIP t) as [ip|]; [|naive_solver].
  rewrite bool_decide_eq_true. naive_solver.
Qed.

Lemma isIPv6_spec t : isIPv6Address t = true ↔ ∃ ip, ParseIP t = Some ip ∧ To4 ip = None.
Proof.
  unfold isIPv6Address. destruct (ParseIP t) as [ip|]; [|naive_solver].
  rewrite bool_decide_eq_true. naive_solver.
Qed.

(** What is formatted is read back. *)
Lemma format_parse r :
  record_ok r → ∃ line, formatRecord r = inl line ∧ plain line ∧ line ≠ "" ∧
    HasPrefix line "#" = false ∧ parseLine line = inl (Some r).
Proof.
  destruct r as [h t tg]. intros (Hh & Ht & Hhn & Htn & Htype). simpl in *. unfold formatRecord. simpl.
  destruct Htype as [(-> & Hs & Hip)|[(-> & Hs & Hip)|(-> & Hs)]]; simpl; eexists; (split; [done|]).
  - split_and!; [apply plain_app; split; [done|by apply plain_app]|done..|].
    unfold parseLine, addressPattern. change ("address=/" ++s h ++s "/" ++s tg) with
      ("address=/" ++s h ++s String slash tg).
    rewrite (proj2 (two_groups_spec _ _ _ h tg)); [|by split_and!; auto using plain_no_newline].
    apply isIPv4_spec in Hip as (ip & -> & [ip4 ->]). done.
  - split_and!; [apply plain_app; split; [done|by apply plain_app]|done..|].
    unfold parseLine, addressPattern. change ("address=/" ++s h ++s "/" ++s tg) with
      ("address=/" ++s h ++s String slash tg).
    rewrite (proj2 (two_groups_spec _ _ _ h tg)); [|by split_and!; auto using plain_no_newline].
    apply isIPv6_spec in Hip as (ip & -> & ->). done.
  - split_and!; [apply plain_app; split; [done|by apply plain_app]|done..|].
    unfold parseLine, cnamePattern. change ("cname=" ++s h ++s "," ++s tg) with
      ("cname=" ++s h ++s String "," tg).
    rewrite (proj2 (two_groups_spec "cname=" "," _ h tg)); [|by split_and!; auto using plain_no_newline].
    done.
Qed.

(** A line that reads as a record is the line of that record. *)
Lemma parse_format line r : parseLine line = inl (Some r) → formatRecord r = inl line.
Proof.
  unfold parseLine. destruct (addressPattern line) as [[h t]|] eqn:Ea.
  - apply two_groups_spec in Ea as (-> & _). destruct (ParseIP t) as [ip|]; [|done].
    destruct (To4 ip); by intros [= <-].
  - destruct (cnamePattern line) as [[h t]|] eqn:Ec; [|done].
    apply two_groups_spec in Ec as (-> & _). by intros [= <-].
Qed.

Lemma zone_filter zone h :
  ((zone != "") && negb (HasSuffix h ("." ++s zone)) && (h != zone))%bool
  = negb (zone_keeps zone h).
Proof. unfold zone_keeps. by rewrite !negb_orb. Qed.

(** The record of a line, the other way round. *)
Lemma lineRecord_format zone r line :
  record_ok r → formatRecord r = inl line → zone_keeps zone (dr_Hostname r) = true →
  lineRecord zone line = Some r.
Proof.
  intros Hok Hf Hz. destruct (format_parse r Hok) as (line' & Hf' & Hp & Hne & Hc & Hparse).
  rewrite Hf in Hf'. injection Hf' as <-. unfold lineRecord. rewrite TrimSpace_plain by done.
  rewrite (proj2 (String.eqb_neq line "")), Hc by done. simpl. rewrite Hparse, zone_filter, Hz. done.
Qed.

Lemma lineRecord_inv zone r line :
  lineRecord zone line = Some r →
  formatRecord r = inl (TrimSpace line) ∧ zone_keeps zone (dr_Hostname r) = true.
Proof.
  unfold lineRecord. destruct (_ || _); [done|].
  destruct (parseLine (TrimSpace line)) as [[r'|]|] eqn:E; [|done..]. rewrite zone_filter.
  destruct (zone_keeps zone (dr_Hostname r')) eqn:Hz; [|done]. intros [= <-].
  split; [by apply parse_format|done].
Qed.

Lemma lineRecord_cr zone line : lineRecord zone (drop_cr line) = lineRecord zone line.
Proof. unfold lineRecord. by rewrite TrimSpace_drop_cr. Qed.

(** The records of a file, without the check of the line length. *)
Definition file_records zone (content : string) : list dnsmasqRecord :=
  omap (lineRecord zone) (raw_lines content).

Lemma omap_drop_cr zone l : omap (lineRecord zone) (map drop_cr l) = omap (lineRecord zone) l.
Proof.
  induction l as [|x l IH]; [done|]. cbn. rewrite lineRecord_cr.
  destruct (lineRecord zone x); [f_equal|]; apply IH.
Qed.

Lemma parseConfigContent_Some zone content records :
  parseConfigContent zone content = inl records ↔
  Forall fits (raw_lines content) ∧ records = file_records zone content.
Proof.
  unfold parseConfigContent, file_records. destruct (scan_lines content) as [lines|] eqn:E.
  - apply scan_lines_Some in E as [Hf ->]. rewrite omap_drop_cr. naive_solver.
  - split; [done|]. intros [Hf _].
    assert (scan_lines content = Some (map drop_cr (raw_lines content))) by (by apply scan_lines_Some).
    by rewrite E in H.
Qed.

Lemma header_records zone line :
  plain line → fits line →
  parseConfigContent zone (fileHeader ++s line ++s NL)
  = inl (match lineRecord zone line with Some r => [r] | None => [] end).
Proof.
  intros Hp Hl. pose proof (scan_lines_append fileHeader line) as Happ.
  assert (HasSuffix fileHeader NL = true) as Hs by reflexivity. rewrite Hs in Happ.
  unfold parseConfigContent. erewrite Happ; [|done|reflexivity|done|done].
  rewrite omap_app, omap_drop_cr.
  change (omap (lineRecord zone) (raw_lines fileHeader)) with (@nil dnsmasqRecord).
  cbn. by destruct (lineRecord zone line).
Qed.

(** The records after a line was appended. *)
Lemma appendLine_records zone content records line r :
  parseConfigContent zone content = inl records → record_ok r →
  formatRecord r = inl line → fits line → zone_keeps zone (dr_Hostname r) = true →
  parseConfigContent zone (appendLine content line) = inl (records ++ [r]).
Proof.
  intros Hc Hok Hf Hl Hz. destruct (format_parse r Hok) as (line' & Hf' & Hp & _).
  assert (line' = line) as -> by congruence.
  pose proof (lineRecord_format zone r line Hok Hf Hz) as Hr. unfold appendLine.
  destruct (Nat.ltb_spec 0 (String.length content)) as [Hne|He].
  - assert (content ≠ "") as Hne' by (intros ->; simpl in Hne; lia).
    unfold parseConfigContent in Hc |- *. destruct (scan_lines content) as [lines|] eqn:E; [|done].
    injection Hc as <-. rewrite (scan_lines_append _ _ _ Hne' E Hp Hl), omap_app. simpl. by rewrite Hr.
  - assert (content = "") as -> by (destruct content; [done|simpl in He; lia]).
    rewrite header_records, Hr by done. by injection Hc as <-.
Qed.

(** The records of joined lines. *)
Lemma joinLines_records zone lines :
  Forall (λ l, str_contains_byte newline l = false ∧ fits l) lines →
  parseConfigContent zone (joinLines lines) = inl (omap (lineRecord zone) lines).
Proof.
  intros Hl. apply Forall_and in Hl as [Hn Hf]. apply parseConfigContent_Some. unfold file_records, joinLines.
  destruct (decide (lines = [])) as [->|Hne]; [by split; [constructor|]|].
  pose proof (Split_Join newline lines Hn Hne) as HS. fold NL in HS.
  assert ((0 <? length lines)%nat = true) as -> by (apply Nat.ltb_lt; destruct lines; [done|simpl; lia]).
  destruct (HasSuffix (Join NL lines) NL) eqn:E; simpl andb; cbv iota.
  - apply HasSuffix_spec in E as [t E]. rewrite E in HS |- *. rewrite raw_lines_ended.
    unfold NL in HS. rewrite Split_app_sep in HS. rewrite <- HS in Hf |- *.
    apply Forall_app in Hf as [Hf _]. split; [done|]. rewrite omap_app. cbn. by rewrite app_nil_r.
  - rewrite raw_lines_ended, HS. done.
Qed.

(** Deleting the lines of a record deletes the record, and nothing else. *)
Lemma delete_lines zone r line lines :
  record_ok r → formatRecord r = inl line →
  omap (lineRecord zone) (List.filter (λ l, TrimSpace l != line) lines)
  = List.filter (λ r', bool_decide (r' ≠ r)) (omap (lineRecord zone) lines).
Proof.
  intros Hok Hf. destruct (format_parse r Hok) as (line' & Hf' & Hp & Hne & Hc & Hparse).
  assert (line' = line) as -> by congruence.
  induction lines as [|l lines IH]; [done|]. cbn [List.filter].
  destruct (String.eqb_spec (TrimSpace l) line) as [El|El]; cbn [negb].
  - assert (lineRecord zone l = None ∨ lineRecord zone l = Some r) as Hl.
    { unfold lineRecord. rewrite El, (proj2 (String.eqb_neq line "")), Hc by done. simpl.
      rewrite Hparse. destruct (_ && _); auto. }
    cbn. destruct Hl as [->| ->]; [apply IH|]. cbn. by rewrite bool_decide_eq_false_2 by (by intros []).
  - cbn. destruct (lineRecord zone l) as [r'|] eqn:E; [|apply IH].
    cbn. rewrite bool_decide_eq_true_2; [f_equal; apply IH|]. intros ->.
    apply lineRecord_inv in E as [E _]. congruence.
Qed.
End RecordLines.

(** ** What is expected of a file system

    Reading gives the content and changes nothing, a write that succeeds
    leaves the content and the other files alone (a write that fails may leave
    the file in any state), and making directories does not touch the files.
     Two names may stand for one file ([aliases]): two spellings of a
    path do, and links make others.  Nobody else writes the files meanwhile. *)
Class FileSystemLaws (W : Type) `{FileSystem W} := {
  file_at : string → W → option string;
  aliases : string → string → Prop;
  aliases_clean q p : filepath_Clean q = filepath_Clean p → aliases q p;
  read_law p w :
    (∀ q, file_at q (ReadFile p w).2 = file_at q w) ∧
    match (ReadFile p w).1 with
    | inl content => file_at p w = Some content
    | inr e => os_IsNotExist e = true → file_at p w = None
    end;
  write_law p content w :
    (∀ q, ¬ aliases q p → file_at q (WriteFile p content w).2 = file_at q w) ∧
    match (WriteFile p content w).1 with
    | inl _ => file_at p (WriteFile p content w).2 = Some content
    | inr _ => True
    end;
  mkdir_law p w q : file_at q (MkdirAll p w).2 = file_at q w
}.

Section ClientTheorems.
Context {W : Type} `{FileSystemLaws W} (c : Client).
Implicit Types (w : W) (r : dnsmasqRecord).
Abbreviation path := (ConfigFilePath c).

(** The text the client works on, and the records in it. *)
Definition file_text w : string := default "" (file_at path w).
Definition holds_records w (records : list dnsmasqRecord) : Prop :=
  parseConfigContent (cl_zone c) (file_text w) = inl records.

Definition same_files w w' : Prop := ∀ q, file_at q w' = file_at q w.
Definition other_files_same w w' : Prop := ∀ q, ¬ aliases q path → file_at q w' = file_at q w.

Lemma readContent_law w :
  same_files w (readContent c w).2 ∧
  match (readContent c w).1 with
  | inl o => o = file_at path w
  | inr _ => True
  end.
Proof.
  unfold readContent, io_try, mbind, IO_bind. pose proof (read_law path w) as [Hs Hr].
  destruct (ReadFile path w) as [[content|e] w']; simpl in *.
  - by split.
  - destruct (os_IsNotExist e); (split; [done|]); [symmetry; by apply Hr|done].
Qed.

Lemma same_files_text w w' : same_files w w' → file_text w' = file_text w.
Proof. intros Hs. unfold file_text. by rewrite Hs. Qed.

Lemma same_files_other w w' : same_files w w' → other_files_same w w'.
Proof. intros Hs q _. apply Hs. Qed.

(** Listing reads the records of the file. *)
Lemma client_List_law w :
  same_files w (client_List c w).2 ∧
  (∀ l, (client_List c w).1 = inl l → holds_records w l).
Proof.
  unfold client_List. rewrite io_bind_run. pose proof (readContent_law w) as [Hs Hr].
  destruct (readContent c w) as [[o|e] w']; simpl in *; [|done]. unfold holds_records, file_text.
  rewrite <- Hr. destruct o as [content|]; simpl; (split; [done|]); [done|].
  by intros l [= <-].
Qed.

(** The write at the end of an operation. *)
Lemma write_end f content w w1 :
  same_files w w1 →
  other_files_same w (io_wrap f (WriteFile path content) w1).2 ∧
  ((io_wrap f (WriteFile path content) w1).1 = inl tt →
   file_text (io_wrap f (WriteFile path content) w1).2 = content).
Proof.
  intros Hs. unfold io_wrap. rewrite io_catch_run. pose proof (write_law path content w1) as [Ho Hw].
  destruct (WriteFile path content w1) as [[[]|e] w']; simpl in *.
  - split; [intros q Hq; by rewrite Ho, Hs|]. intros _. unfold file_text. by rewrite Hw.
  - split; [intros q Hq; by rewrite Ho, Hs|done].
Qed.

(** Creating a record.  On a file that can be read, creating a record that
    the file can hold and the zone filter lets through succeeds only in two
    ways: the file already contains the record's line as a piece of text and
    is left as it is, or the record is added after the others.  No other file
    is touched. *)
Theorem client_Create_spec r w records line :
  holds_records w records → record_ok r → zone_keeps (cl_zone c) (dr_Hostname r) = true →
  formatRecord r = inl line → fits line →
  let w' := (client_Create c r w).2 in
  other_files_same w w' ∧
  ((client_Create c r w).1 = inl tt →
   if Contains (file_text w) line then file_text w' = file_text w
   else holds_records w' (records ++ [r])).
Proof.
  intros Hrec Hok Hz Hf Hl. cbv zeta. destruct (client_Create c r w) as [res w'] eqn:E. simpl.
  unfold client_Create in E. rewrite io_bind_run in E. pose proof (readContent_law w) as [Hs Hr].
  destruct (readContent c w) as [[o|e] w1]; simpl in Hs, Hr;
    [|injection E as <- <-; split; [by apply same_files_other|done]].
  rewrite Hf, io_bind_run in E. simpl in E.
  assert (default "" o = file_text w) as Ho by (by rewrite Hr). rewrite Ho in E.
  destruct (Contains (file_text w) line).
  { injection E as <- <-. split; [by apply same_files_other|]. intros _. by apply same_files_text. }
  rewrite io_bind_run in E. unfold io_wrap at 1 in E. rewrite io_catch_run in E.
  assert (same_files w (MkdirAll (cl_configDir c) w1).2) as Hs' by (intros q; by rewrite mkdir_law).
  destruct (MkdirAll (cl_configDir c) w1) as [[[]|e] w2]; simpl in Hs', E;
    [|injection E as <- <-; split; [by apply same_files_other|done]].
  destruct (write_end (EWrapf "writing config file: ") (appendLine (file_text w) line) w w2 Hs')
    as [Hother Htext]. rewrite E in Hother, Htext. simpl in Hother, Htext. split; [done|]. intros ->.
  unfold holds_records. rewrite Htext by done. by apply appendLine_records.
Qed.

(** The file can be read, or there is none. *)
Definition readable w : bool :=
  match (ReadFile path w).1 with inl _ => true | inr e => os_IsNotExist e end.

Lemma readContent_ok w :
  (∃ o, (readContent c w).1 = inl o) ↔ readable w = true.
Proof.
  unfold readContent, readable, io_try, mbind, IO_bind. destruct (ReadFile path w) as [[content|e] w']; simpl.
  - split; [done|by eexists].
  - destruct (os_IsNotExist e); [split; [done|by eexists]|by split; [intros [? [=]]|]].
Qed.

Lemma readContent_world w : (readContent c w).2 = (ReadFile path w).2.
Proof.
  unfold readContent, io_try, mbind, IO_bind. destruct (ReadFile path w) as [[content|e] w']; simpl; [done|].
  by destruct (os_IsNotExist e).
Qed.

(** Among lines, those of a record are all there is to take out. *)
Lemma no_line_left r line lines :
  record_ok r → formatRecord r = inl line → zone_keeps (cl_zone c) (dr_Hostname r) = true →
  length (List.filter (λ l, TrimSpace l != line) lines) = length lines ↔
  r ∉ omap (lineRecord (cl_zone c)) lines.
Proof.
  intros Hok Hf Hz. split.
  - intros Hlen%filter_length_id Hin. rewrite <- Hlen, (delete_lines _ r) in Hin by done.
    apply list_elem_of_In, List.filter_In in Hin as [_ Hne]. by apply bool_decide_eq_true in Hne.
  - intros Hnot. f_equal. apply List.forallb_filter_id, (proj2 (List.forallb_forall _ _)). intros l Hl.
    destruct (String.eqb_spec (TrimSpace l) line) as [E|]; [|done]. destruct Hnot.
    apply list_elem_of_omap. exists l. split; [by apply list_elem_of_In|].
    pose proof (lineRecord_format (cl_zone c) r line Hok Hf Hz) as Hr.
    unfold lineRecord in *. destruct (format_parse r Hok) as (line' & Hf' & Hp & _).
    assert (line' = line) as -> by congruence. by rewrite E, <- Hr, (TrimSpace_plain line).
Qed.

(** The deletion, on what was read. *)
Lemma client_Delete_cases r w lines line :
  readable w = true → scan_lines (file_text w) = Some lines → formatRecord r = inl line →
  let left := List.filter (λ l, TrimSpace l != line) lines in
  client_Delete c r w =
    let w1 := (ReadFile path w).2 in
    if (length left =? length lines)%nat then (inl tt, w1)
    else io_wrap (EWrapf "writing config file: ") (WriteFile path (joinLines left)) w1.
Proof.
  intros [o Ho]%readContent_ok El Hf. cbv zeta. unfold client_Delete. rewrite io_bind_run, <- readContent_world.
  pose proof (readContent_law w) as [_ Hr]. destruct (readContent c w) as [res w1]. simpl in *. subst res.
  unfold file_text in El. rewrite <- Hr in El. destruct o as [content|]; simpl in El.
  - rewrite io_bind_run. unfold io_wrap at 1. rewrite io_catch_run. unfold io_lift. rewrite Hf, El.
    by destruct (_ =? _)%nat.
  - by injection El as <-.
Qed.

(** C28. Deleting a record that the zone filter lets through.  No other file
    is touched.  When the file cannot be read the deletion is an error and
    changes nothing; deleting a record that is not in it succeeds and changes
    nothing; and deleting one that is there is one write, of a text that holds
    the other records in their order, and succeeds exactly when that write
    does.  So after a success every line of the record is gone, and the other
    records are still there. *)
Theorem client_Delete_spec r w records :
  holds_records w records → record_ok r → zone_keeps (cl_zone c) (dr_Hostname r) = true →
  let '(res, w') := client_Delete c r w in
  let rest := List.filter (λ r', bool_decide (r' ≠ r)) records in
  other_files_same w w' ∧
  (res = inl tt → holds_records w' rest) ∧
  (readable w = false → res ≠ inl tt ∧ same_files w w') ∧
  (readable w = true → r ∉ records → res = inl tt ∧ same_files w w') ∧
  (readable w = true → r ∈ records →
   ∃ text, parseConfigContent (cl_zone c) text = inl rest ∧
     w' = (WriteFile path text (ReadFile path w).2).2 ∧
     (res = inl tt ↔ (WriteFile path text (ReadFile path w).2).1 = inl tt)).
Proof.
  intros Hrec Hok Hz. destruct (client_Delete c r w) as [res w'] eqn:E. cbv zeta.
  pose proof (proj1 (readContent_law w)) as Hs. rewrite readContent_world in Hs.
  destruct (readable w) eqn:Er.
  2:{ assert (∃ e, res = inr e) as [e ->].
      { destruct res as [[]|e]; [|by exists e]. exfalso.
        assert (∃ o, (readContent c w).1 = inl o) as Ho.
        { revert E. unfold client_Delete. rewrite io_bind_run. destruct (readContent c w) as [[o|e] w1]; [by exists o|done]. }
        apply readContent_ok in Ho. congruence. }
      assert (w' = (ReadFile path w).2) as ->.
      { revert E. unfold client_Delete. rewrite io_bind_run, <- readContent_world.
        pose proof (proj1 (readContent_ok w)) as Ho. destruct (readContent c w) as [[o|e'] w1]; [|by intros [= _ <-]].
        by rewrite (Ho (ex_intro _ o eq_refl)) in Er. }
      split_and!; [by apply same_files_other|done..]. }
  destruct (format_parse r Hok) as (line & Hf & _).
  unfold holds_records, parseConfigContent in Hrec.
  destruct (scan_lines (file_text w)) as [lines|] eqn:El; [|done]. injection Hrec as <-.
  rewrite (client_Delete_cases r w lines line Er El Hf) in E. cbv zeta in E.
  rewrite <- (delete_lines (cl_zone c) r line lines Hok Hf).
  pose proof (no_line_left r line lines Hok Hf Hz) as Hno.
  destruct (Nat.eqb_spec (length (List.filter (λ l, TrimSpace l != line) lines)) (length lines)) as [Hlen|Hlen].
  - injection E as <- <-. split_and!; [by apply same_files_other| |done|done|].
    + intros _. rewrite (filter_length_id _ _ Hlen).
      unfold holds_records, parseConfigContent. by rewrite (same_files_text _ _ Hs), El.
    + intros _ Hin. by destruct (proj1 Hno Hlen).
  - set (text := joinLines (List.filter (λ l, TrimSpace l != line) lines)) in *.
    assert (parseConfigContent (cl_zone c) text =
            inl (omap (lineRecord (cl_zone c)) (List.filter (λ l, TrimSpace l != line) lines))) as Ht.
    { apply joinLines_records. pose proof (scanned_lines _ _ El) as Hl. rewrite Forall_forall in Hl |- *.
      intros x [Hx _]%elem_of_list_filter. by apply Hl. }
    destruct (write_end (EWrapf "writing config file: ") text w _ Hs) as [Hother Htext].
    rewrite E in Hother, Htext. simpl in Hother, Htext. split_and!; [done| |done| |].
    + intros Hr. unfold holds_records. by rewrite Htext.
    + intros _ Hnot. by destruct Hlen; apply Hno.
    + intros _ _. exists text. split; [done|]. rewrite io_wrap_run in E.
      destruct (WriteFile path text (ReadFile path w).2) as [[[]|e] w2]; injection E as <- <-; by split.
Qed.

Lemma record_line_in_text r w records line :
  holds_records w records → r ∈ records → formatRecord r = inl line →
  Contains (file_text w) line = true.
Proof.
  intros [_ ->]%parseConfigContent_Some (l & Hl & Hr)%list_elem_of_omap Hf.
  apply lineRecord_inv in Hr as [Hr _]. assert (line = TrimSpace l) as -> by congruence.
  eapply Contains_trans; [by apply raw_lines_sub|apply Contains_TrimSpace].
Qed.

(** A record that is silently not created.  When the file holds a record of
    the same name and type whose target only continues the new target (an
    address 10.0.0.10 for a new 10.0.0.1), creating the new record reports
    success and changes nothing, so the record is not in the file. *)
Theorem Create_shadowed r w records r' suffix :
  holds_records w records → r' ∈ records → r ∉ records → record_ok r →
  dr_Hostname r' = dr_Hostname r → dr_Type r' = dr_Type r →
  dr_Target r' = dr_Target r ++s suffix →
  (client_Create c r w).1 = inl tt →
  holds_records (client_Create c r w).2 records.
Proof.
  intros Hrec Hin Hnot Hok Hh Ht Htg. destruct (format_parse r Hok) as (line & Hf & _).
  assert (formatRecord r' = inl (line ++s suffix)) as Hf'.
  { unfold formatRecord in *. rewrite Hh, Ht, Htg. rewrite <- !app_assoc_s in *.
    destruct (_ || _); [by injection Hf as <-|]. destruct (_ == _); [by injection Hf as <-|done]. }
  assert (Contains (file_text w) line = true) as Hc.
  { eapply Contains_trans; [by eapply record_line_in_text|].
    apply Contains_prefix, HasPrefix_app. }
  unfold client_Create. rewrite io_bind_run. pose proof (readContent_law w) as [Hs Hr].
  destruct (readContent c w) as [[o|e] w1]; simpl in *; [|done].
  assert (default "" o = file_text w) as -> by (by rewrite Hr).
  rewrite Hf, io_bind_run. simpl. rewrite Hc. intros _. simpl.
  unfold holds_records. by rewrite (same_files_text _ _ Hs).
Qed.

Lemma formatRecords_spec records :
  Forall record_ok records →
  ∃ lines, formatRecords records = inl lines ∧ Forall2 (λ r l, formatRecord r = inl l) records lines.
Proof.
  induction 1 as [|r records Hok Hl (lines & IH & Hlines)]; [by exists []|].
  destruct (format_parse r Hok) as (line & Hf & _). exists (line :: lines). simpl.
  rewrite Hf, IH. split; [done|by constructor].
Qed.

Definition header_lines : list string :=
  match scan_lines fileHeader with Some l => l | None => [] end.

Lemma header_join lines :
  lines ≠ [] → fileHeader ++s Join NL lines = Join NL (header_lines ++ lines).
Proof.
  intros Hne. rewrite Join_app by done. rewrite <- app_assoc_s.
  by change (Join NL header_lines ++s NL) with fileHeader.
Qed.

(** The records of a file written from lines. *)
Lemma written_records zone records lines :
  Forall (λ r, record_ok r ∧ zone_keeps zone (dr_Hostname r) = true) records →
  Forall2 (λ r l, formatRecord r = inl l) records lines →
  file_records zone (let content := fileHeader ++s Join NL lines in
                     if (0 <? length lines)%nat then content ++s NL else content) = records.
Proof.
  intros Hok Hlines. cbv zeta. unfold file_records.
  assert (omap (lineRecord zone) lines = records) as Hr.
  { induction Hlines as [|r l records lines Hf Hlines IH]; [done|].
    inversion Hok as [|? ? [Hr Hz] Hok']; subst. cbn.
    by rewrite (lineRecord_format zone r l Hr Hf Hz), (IH Hok'). }
  destruct (decide (lines = [])) as [->|Hne]; [by rewrite <- Hr|].
  assert ((0 <? length lines)%nat = true) as -> by (apply Nat.ltb_lt; destruct lines; [done|simpl; lia]).
  rewrite header_join, raw_lines_ended by done. unfold NL. rewrite Split_Join; [|..].
  - rewrite omap_app, Hr. done.
  - apply Forall_app. split; [by repeat constructor|]. clear Hr Hne.
    induction Hlines as [|r l records lines Hf Hlines IH]; [constructor|].
    inversion Hok as [|? ? [Hr Hz] Hok']; subst. constructor; [|by apply IH].
    destruct (format_parse r Hr) as (l' & Hf' & Hp & _). assert (l' = l) as -> by congruence.
    by apply plain_no_newline.
  - by destruct lines.
Qed.

(** Writing records and listing them gives them back: what [WriteRecords]
    wrote, a later [List] that succeeds returns, in the same order. *)
Theorem WriteRecords_List records w l :
  Forall (λ r, record_ok r ∧ zone_keeps (cl_zone c) (dr_Hostname r) = true) records →
  (WriteRecords c records w).1 = inl tt →
  (client_List c (WriteRecords c records w).2).1 = inl l →
  l = records.
Proof.
  intros Hok. destruct (WriteRecords c records w) as [res w'] eqn:E. simpl. intros ->.
  unfold WriteRecords in E. rewrite io_bind_run in E.
  destruct (formatRecords_spec records) as (lines & Hf & Hlines).
  { eapply Forall_impl; [apply Hok|]. by intros r []. }
  unfold io_lift in E. rewrite Hf, io_bind_run in E.
  destruct (io_wrap (EWrapf "creating config directory: ") _ w) as [[[]|e] w1]; [|done].
  destruct (write_end (EWrapf "writing config file: ")
    (let content := fileHeader ++s Join NL lines in
     if (0 <? length lines)%nat then content ++s NL else content) w1 w1) as [_ Htext]; [done|].
  cbv zeta in Htext, E. rewrite E in Htext. simpl in Htext. intros Hl%(proj2 (client_List_law w')).
  apply parseConfigContent_Some in Hl as [_ ->]. rewrite Htext by done.
  by apply (written_records (cl_zone c) records lines).
Qed.
End ClientTheorems.

(** ** The file that is written *)

(** The configuration file stays in its directory: for an absolute directory
    other than the root, whatever the file is called, the path is the cleaned
    directory itself or that directory followed by proper elements, none of
    them [..]. *)
Theorem ConfigFilePath_contained c :
  HasPrefix (cl_configDir c) "/" = true → filepath_Clean (cl_configDir c) ≠ "/" →
  ConfigFilePath c = filepath_Clean (cl_configDir c) ∨
  ∃ rest, rest ≠ [] ∧ Forall normal_elem rest ∧
    ConfigFilePath c = filepath_Clean (cl_configDir c) ++s "/" ++s Join "/" rest.
Proof.
  intros Hrooted Hne. pose proof (path_elems_rooted _ Hrooted) as Hd.
  set (d := path_elems (cl_configDir c)) in *.
  assert (filepath_Clean (cl_configDir c) = rooted_path d) as Ed by by apply Clean_rooted.
  assert (d ≠ []) as Hdne by (intros E0; apply Hne; by rewrite Ed, E0).
  destruct (Join2_rooted _ (cl_configFile c) Hrooted) as (l & Hl & El).
  unfold ConfigFilePath. rewrite Ed, El, Clean_rooted_path by done. cbv zeta.
  destruct (HasPrefix (rooted_path l) (rooted_path d ++s "/")) eqn:Hp; cbn [negb andb].
  - right. apply HasPrefix_spec in Hp as [t E]. rewrite app_assoc_s in E.
    destruct (below_rooted l d t Hl Hd Hdne E) as (rest & Hr & Hn & Ht & _).
    exists rest. split_and!; [done..|]. by rewrite E, Ht.
  - destruct (String.eqb_spec (rooted_path l) (rooted_path d)) as [->|]; [by left|right].
    assert (normal_elem "dnsweaver.conf") as Hconf by by apply (bool_decide_unpack _).
    exists ["dnsweaver.conf"]. split_and!; [done|by apply Forall_singleton|].
    cbn [negb]. by rewrite Join2_elem, rooted_app.
Qed.

(** A relative directory made of [..] is not contained. *)
Example ConfigFilePath_relative :
  ConfigFilePath (mkClient ".." "../../etc/passwd" "" "") = "../../../etc/passwd".
Proof. reflexivity. Qed.

(** Two instances on one file that count as two backends: an absolute
    directory written with a slash at its end names the same file, but the
    identities of the two instances differ, so both are written to. *)
Theorem same_file_two_identities name1 name2 config :
  HasPrefix (cfg_ConfigDir config) "/" = true →
  let config' := mkConfig (cfg_ConfigDir config ++s "/") (cfg_ConfigFile config)
    (cfg_ReloadCommand config) (cfg_Zone config) (cfg_TTL config) (cfg_SSHHost config)
    (cfg_SSHPort config) (cfg_SSHUser config) (cfg_SSHKeyFile config) (cfg_SSHPassword config)
    (cfg_SSHKnownHostsFile config) (cfg_SSHStrictHostKey config) in
  ConfigFilePath (dp_client (newProvider name1 config))
  = ConfigFilePath (dp_client (newProvider name2 config')) ∧
  dp_Identity (newProvider name1 config) ≠ dp_Identity (newProvider name2 config').
Proof.
  intros Hp. cbv zeta. split.
  - unfold ConfigFilePath, newProvider. cbn [dp_client cl_configDir cl_configFile cfg_ConfigDir cfg_ConfigFile].
    by rewrite Join2_slash, Clean_slash.
  - unfold dp_Identity, newProvider, Config_ConfigFilePath. cbn. intros [= E]. revert E.
    intros E%(f_equal String.length). rewrite !length_app_s in E.
    change (String.length "/") with 1 in E. lia.
Qed.
