(* ===== verification/SshUtil.v ===== *)
(** * SSH and SFTP sessions (pkg/sshutil: config.go, client.go, filesystem.go, command.go)

    The client keeps a connection, the file system an SFTP session on it, the
    command runner starts a session for each command.  The SSH and SFTP
    libraries are the interface [SftpLib]; [SftpLibLaws] says what its
    operations do to the remote files.  Keep-alives, logging and locks are
    left out. *)
From S2P Require Import Prelude GoStrings Errors DnsRecord DnsConfig IO FilePath.
From Stdlib Require Import ZArith.

(** ** Configuration (config.go); durations in nanoseconds *)

Definition DefaultSSHPort : Z := 22.
Definition DefaultSSHTimeout : Z := (30 * DnsConfig.Second)%Z.
Definition DefaultKeepaliveInterval : Z := (15 * DnsConfig.Second)%Z.

Record Config := mkConfig {
  sc_Host : string;
  sc_Port : Z;
  sc_User : string;
  sc_KeyFile : string;
  sc_KeyData : string;
  sc_KeyPassphrase : string;
  sc_Password : string;
  sc_Timeout : Z;
  sc_KeepaliveInterval : Z;
  sc_HostKeyCallback : string;
  sc_StrictHostKeyChecking : bool
}.

Definition Config_errors (c : Config) : list string :=
  (if sc_Host c == "" then ["host is required"] else []) ++
  (if sc_User c == "" then ["user is required"] else []) ++
  (if (sc_KeyFile c == "") && (sc_KeyData c == "") && (sc_Password c == "")
   then ["at least one authentication method required (key_file, key_data, or password)"] else []) ++
  (if (sc_Port c <? 0)%Z || (65535 <? sc_Port c)%Z
   then ["port must be between 0 and 65535"] else []) ++
  (if (sc_Timeout c <? 0)%Z then ["timeout must be non-negative"] else []) ++
  (if (sc_KeepaliveInterval c <? 0)%Z then ["keepalive_interval must be non-negative"] else []).

Definition Config_Validate (c : Config) : option error :=
  let errs := Config_errors c in
  if (0 <? length errs)%nat
  then Some (ENew ("ssh config validation failed: " ++s Join "; " errs)) else None.

Definition Address (c : Config) : string :=
  let port := if (sc_Port c =? 0)%Z then DefaultSSHPort else sc_Port c in
  sc_Host c ++s ":" ++s itoa port.

Definition GetTimeout (c : Config) : Z :=
  if (0 <? sc_Timeout c)%Z then sc_Timeout c else DefaultSSHTimeout.

Definition GetKeepaliveInterval (c : Config) : Z :=
  if (0 <? sc_KeepaliveInterval c)%Z then sc_KeepaliveInterval c else DefaultKeepaliveInterval.

(** A number setting, a default without one, scaled. *)
Definition int_setting (key s : string) (dflt scale : Z) : Z + error :=
  if s != "" then
    match atoi s with
    | inl n => inl (wrap64 (n * scale))
    | inr err => inr (EWrapf ("invalid " ++s key ++s " value " ++s Quote s ++s ": ")
                             (ENew (derror_text err)))
    end
  else inl dflt.

(** The two loaders, which differ in where a setting is looked up: [get] for
    plain settings, [secret] for those that may be in a file. *)
Definition load_config (get secret : string → string) : Config + error :=
  match int_setting "PORT" (get "PORT") DefaultSSHPort 1 with
  | inr err => inr err
  | inl port =>
      match int_setting "TIMEOUT" (get "TIMEOUT") 0 DnsConfig.Second with
      | inr err => inr err
      | inl timeout =>
          match int_setting "KEEPALIVE_INTERVAL" (get "KEEPALIVE_INTERVAL") 0 DnsConfig.Second with
          | inr err => inr err
          | inl keepalive =>
              let config := mkConfig (get "HOST") port (get "USER") (secret "KEY_FILE")
                (secret "KEY_DATA") (secret "KEY_PASSPHRASE") (secret "PASSWORD")
                timeout keepalive (get "HOST_KEY_CALLBACK")
                ((get "STRICT_HOST_KEY_CHECKING" != "")
                 && EqualFold (get "STRICT_HOST_KEY_CHECKING") "true") in
              match Config_Validate config with
              | Some err => inr err
              | None => inl config
              end
          end
      end
  end.

Definition LoadConfigFromMap (m : gmap string string) : Config + error :=
  load_config (setting m) (setting m).

(** The environment, and the files it names. *)
Section Environment.
Context (Getenv : string → string) (ReadSecret : string → string + error).

Definition getEnvOrFile (directKey fileKey : string) : string :=
  let filePath := Getenv fileKey in
  if filePath != "" then
    match ReadSecret filePath with
    | inl content => TrimSpace content
    | inr _ => ""
    end
  else Getenv directKey.

Definition LoadConfig (prefix : string) : Config + error :=
  load_config (λ key, Getenv (prefix ++s key))
    (λ key, getEnvOrFile (prefix ++s key) (prefix ++s key ++s "_FILE")).
End Environment.

(** ** The libraries

    [parse_key] is [ssh.ParsePrivateKey], with a passphrase when that is not
    empty, [dial] and [handshake] make a connection; the other fields are the
    functions of os, the methods of [ssh.Client], [ssh.Session] and
    [sftp.Client] that the program calls, and [os.IsNotExist]. *)
Inductive run_outcome :=
(** the context was cancelled *)
| Canceled (err : error)
(** the output, and what [session.Run] returned *)
| Completed (stdout stderr : string) (err : option error).

Class SftpLib (W : Type) := {
  local_ReadFile : string → IO W string;
  local_Stat : string → IO W unit;
  parse_key : string → string → unit + error;
  knownhosts_New : string → IO W unit;
  dial : Config → IO W unit;
  is_deadline : error → bool;
  handshake : Config → IO W unit;
  netconn_Close : IO W unit;
  conn_Close : IO W unit;
  new_session : IO W unit;
  session_Run : string → string → IO W run_outcome;
  new_sftp : IO W unit;
  lib_Close : IO W unit;
  lib_Open : string → IO W unit;
  lib_ReadAll : string → IO W string;
  lib_OpenFile : string → IO W unit;
  lib_Write : string → string → IO W Z;
  lib_Chmod : string → IO W unit;
  lib_Stat : string → IO W bool;
  lib_Mkdir : string → IO W unit;
  lib_Remove : string → IO W unit;
  lib_Rename : string → string → IO W unit;
  lib_ReadDir : string → IO W (list string);
  lib_IsNotExist : error → bool
}.

(** ** Commands (command.go) *)

Record CommandResult := mkCommandResult {
  cr_ExitCode : Z;
  cr_Stdout : string;
  cr_Stderr : string
}.

Definition squote : ascii := "'".

(** A single quote as the shell's ['"'"']. *)
Definition quoted_squote : string :=
  "'" ++s String dquote "" ++s "'" ++s String dquote "" ++s "'".

Fixpoint escapeShellArg (arg : string) : string :=
  match arg with
  | EmptyString => ""
  | String c arg =>
      if Ascii.eqb c squote then quoted_squote ++s escapeShellArg arg
      else String c (escapeShellArg arg)
  end.

(** The command that [RunScript] runs. *)
Definition script_command (script : string) : string :=
  "sh -c '" ++s escapeShellArg script ++s "'".

Definition is_blank (c : ascii) : bool := is_space c && negb (Ascii.eqb c newline).

(** [fmt.Sscanf]: the text of the format before its verb; a space of the
    format is one or more blanks of the input, or its end. *)
Fixpoint scan_literal (format s : string) : option string :=
  match format, s with
  | EmptyString, _ => Some s
  | String f format', EmptyString => if Ascii.eqb f " " then scan_literal format' "" else None
  | String f format', String c s' =>
      if Ascii.eqb f " " then
        if is_blank c then scan_literal format' (trim_left is_blank s') else None
      else if Ascii.eqb f c then scan_literal format' s' else None
  end.

Fixpoint take_digits (s : string) : string :=
  match s with
  | String c s => if is_digit c then String c (take_digits s) else ""
  | EmptyString => ""
  end.

(** The verb [%d]. *)
Definition scan_int (s : string) : option Z :=
  match trim_left is_blank s with
  | String c s' =>
      if Ascii.eqb c "-" || Ascii.eqb c "+" then Atoi (String c (take_digits s'))
      else Atoi (take_digits (String c s'))
  | EmptyString => None
  end.

Definition Sscanf_d (s literal : string) : option Z :=
  match scan_literal literal s with Some rest => scan_int rest | None => None end.

Definition extractExitCode (err : option error) : Z :=
  match err with
  | None => 0
  | Some err =>
      let errStr := Error err in
      if Contains errStr "exit status" then
        match Sscanf_d errStr "Process exited with status " with
        | Some code => code
        | None =>
            match Sscanf_d errStr "exit status " with
            | Some code => code
            | None => 1
            end
        end
      else 1
  end.

(** ** Sessions *)

(** [conn != nil] of the client and [sftpClient != nil] of the file system. *)
Record Session := mkSession { se_conn : bool; se_sftp : bool }.

Definition ErrNotConnected : error := ENew "ssh client is not connected".
Definition ErrAlreadyConnected : error := ENew "ssh client is already connected".
Definition ErrConnectionTimeout : error := ENew "ssh connection timed out".
Definition hostKeyCallbackIgnore : string := "ignore".

(** The first text of a joined error; its sentinel is never looked for. *)
Definition ErrAuthenticationFailed (err : error) : error :=
  EWrapf "ssh authentication failed: " err.

Definition isAuthError (err : error) : bool :=
  let errStr := ToLower (Error err) in
  Contains errStr "unable to authenticate" || Contains errStr "no supported methods"
  || Contains errStr "permission denied" || Contains errStr "publickey"
  || Contains errStr "password".

Section Sessions.
Context {W : Type} `{SftpLib W}.
Abbreviation S := (W * Session)%type.

Definition on_lib {A} (m : IO W A) : IO S A := λ s, let '(r, w) := m s.1 in (r, (w, s.2)).
Definition get_session : IO S Session := λ s, (inl s.2, s).
Definition set_conn (b : bool) : IO S unit := λ s, (inl tt, (s.1, mkSession b (se_sftp s.2))).
Definition set_sftp (b : bool) : IO S unit := λ s, (inl tt, (s.1, mkSession (se_conn s.2) b)).

(** *** The client (client.go) *)

Definition NewClient (config : Config) : IO S unit :=
  match Config_Validate config with
  | Some err => io_fail (EWrapf "invalid config: " err)
  | None => mret tt
  end.

Definition parsePrivateKey (c : Config) (keyData : string) : IO S unit :=
  io_lift (parse_key keyData (sc_KeyPassphrase c)).

Definition buildAuthMethods (c : Config) : IO S unit :=
  _ ← (if sc_KeyFile c != "" then
         keyData ← io_wrap (EWrapf ("reading key file " ++s sc_KeyFile c ++s ": "))
                     (on_lib (local_ReadFile (sc_KeyFile c)));
         io_wrap (EWrapf "parsing key from file: ") (parsePrivateKey c keyData)
       else mret tt);
  _ ← (if sc_KeyData c != "" then
         io_wrap (EWrapf "parsing key data: ") (parsePrivateKey c (sc_KeyData c))
       else mret tt);
  if (sc_KeyFile c == "") && (sc_KeyData c == "") && (sc_Password c == "")
  then io_fail (ENew "no authentication methods configured") else mret tt.

(** The callback itself is called by the handshake. *)
Definition knownHostsCallback (path : string) : IO S unit :=
  _ ← io_wrap (EWrapf ("known_hosts file " ++s Quote path ++s ": ")) (on_lib (local_Stat path));
  io_wrap (EWrapf ("loading known_hosts file " ++s Quote path ++s ": "))
    (on_lib (knownhosts_New path)).

Definition buildHostKeyCallback (c : Config) : IO S unit :=
  let path := sc_HostKeyCallback c in
  if (path != "") && (path != hostKeyCallbackIgnore) then knownHostsCallback path
  else if sc_StrictHostKeyChecking c then
    if path == hostKeyCallbackIgnore
    then io_fail (ENew "strict host key checking enabled but HOST_KEY_CALLBACK is set to 'ignore' - these settings conflict")
    else io_fail (ENew "strict host key checking enabled but no known_hosts file configured - set HOST_KEY_CALLBACK to a known_hosts file path")
  else mret tt.

Definition buildSSHConfig (c : Config) : IO S unit :=
  _ ← io_wrap (EWrapf "building auth methods: ") (buildAuthMethods c);
  io_wrap (EWrapf "building host key callback: ") (buildHostKeyCallback c).

Definition Connect (c : Config) : IO S unit :=
  s ← get_session;
  if se_conn s then io_fail ErrAlreadyConnected
  else
    _ ← io_wrap (EWrapf "building SSH config: ") (buildSSHConfig c);
    _ ← io_wrap (λ err, if is_deadline err then ErrConnectionTimeout
                        else EWrapf ("dialing " ++s Address c ++s ": ") err)
          (on_lib (dial c));
    _ ← io_catch (on_lib (handshake c)) (λ err,
          _ ← io_ignore (on_lib netconn_Close);
          io_fail (if isAuthError err then ErrAuthenticationFailed err
                   else EWrapf "SSH handshake failed: " err));
    set_conn true.

Definition client_Close : IO S unit :=
  s ← get_session;
  if negb (se_conn s) then mret tt
  else
    r ← io_try (on_lib conn_Close);
    _ ← set_conn false;
    io_lift r.

Definition IsConnected (s : Session) : bool := se_conn s.

Definition GetConnection : IO S unit :=
  s ← get_session;
  if negb (se_conn s) then io_fail ErrNotConnected else mret tt.

Definition Reconnect (c : Config) : IO S unit :=
  _ ← io_ignore client_Close;
  Connect c.

(** *** The file system (filesystem.go) *)

Definition NewSFTPFileSystem : IO S unit := set_sftp false.

Definition sftp_Connect : IO S unit :=
  s ← get_session;
  if se_sftp s then mret tt
  else
    _ ← io_wrap (EWrapf "getting SSH connection: ") GetConnection;
    _ ← io_wrap (EWrapf "creating SFTP client: ") (on_lib new_sftp);
    set_sftp true.

Definition sftp_Close : IO S unit :=
  s ← get_session;
  if negb (se_sftp s) then mret tt
  else
    r ← io_try (on_lib lib_Close);
    _ ← set_sftp false;
    io_lift r.

Definition getSFTP : IO S unit :=
  s ← get_session;
  if negb (se_sftp s) then io_fail ErrNotConnected else mret tt.

Definition sftp_ReadFile (path : string) : IO S string :=
  _ ← getSFTP;
  _ ← io_wrap (EWrapf ("opening file " ++s path ++s ": ")) (on_lib (lib_Open path));
  io_wrap (EWrapf ("reading file " ++s path ++s ": ")) (on_lib (lib_ReadAll path)).

(** [mkdirAllInternal]; each recursive call is on a shorter path. *)
Fixpoint mkdirAllInternal (fuel : nat) (path : string) : IO S unit :=
  let chmod := io_ignore (on_lib (lib_Chmod path)) in
  r ← io_try (on_lib (lib_Mkdir path));
  match r with
  | inl _ => chmod
  | inr _ =>
      info ← io_try (on_lib (lib_Stat path));
      match info with
      | inl isDir =>
          if (isDir : bool) then mret tt
          else io_fail (ENew ("path exists but is not a directory: " ++s path))
      | inr _ =>
          let parent := filepath_Dir path in
          _ ← (if (parent != path) && (parent != "/") && (parent != ".") then
                 match fuel with
                 | O => io_fail (ENew "out of fuel")
                 | Datatypes.S fuel => mkdirAllInternal fuel parent
                 end
               else mret tt);
          r ← io_try (on_lib (lib_Mkdir path));
          match r with
          | inl _ => chmod
          | inr err =>
              info ← io_try (on_lib (lib_Stat path));
              match info with
              | inl true => mret tt
              | _ => io_fail (EWrapf ("creating directory " ++s path ++s ": ") err)
              end
          end
      end
  end.

Definition sftp_MkdirAll (path : string) : IO S unit :=
  _ ← getSFTP;
  mkdirAllInternal (String.length path) path.

Definition sftp_WriteFile (path data : string) : IO S unit :=
  _ ← getSFTP;
  let dir := filepath_Dir path in
  _ ← (if (dir != ".") && (dir != "/")
       then io_wrap (EWrapf ("creating parent directory " ++s dir ++s ": "))
              (mkdirAllInternal (String.length dir) dir)
       else mret tt);
  _ ← io_wrap (EWrapf ("opening file " ++s path ++s " for write: ")) (on_lib (lib_OpenFile path));
  n ← io_wrap (EWrapf ("writing to file " ++s path ++s ": ")) (on_lib (lib_Write path data));
  let len := Z.of_nat (String.length data) in
  if negb (n =? len)%Z
  then io_fail (ENew ("short write to file " ++s path ++s ": wrote " ++s itoa n ++s " of "
                      ++s itoa len ++s " bytes"))
  else io_ignore (on_lib (lib_Chmod path)).

Definition sftp_Stat (path : string) : IO S bool :=
  _ ← getSFTP;
  io_wrap (EWrapf ("stat " ++s path ++s ": ")) (on_lib (lib_Stat path)).

Definition sftp_Exists (path : string) : IO S bool :=
  r ← io_try (sftp_Stat path);
  match r with
  | inl _ => mret true
  | inr err => if lib_IsNotExist err then mret false else io_fail err
  end.

Definition sftp_Remove (path : string) : IO S unit :=
  _ ← getSFTP;
  io_wrap (EWrapf ("removing " ++s path ++s ": ")) (on_lib (lib_Remove path)).

Definition sftp_ReadDir (path : string) : IO S (list string) :=
  _ ← getSFTP;
  io_wrap (EWrapf ("reading directory " ++s path ++s ": ")) (on_lib (lib_ReadDir path)).

Definition sftp_Rename (oldPath newPath : string) : IO S unit :=
  _ ← getSFTP;
  io_wrap (EWrapf ("renaming " ++s oldPath ++s " to " ++s newPath ++s ": "))
    (on_lib (lib_Rename oldPath newPath)).

(** *** The command runner (command.go) *)

Definition execute (command stdin : string) : IO S CommandResult :=
  _ ← io_wrap (EWrapf "getting SSH connection: ") GetConnection;
  _ ← io_wrap (EWrapf "creating SSH session: ") (on_lib new_session);
  out ← on_lib (session_Run command stdin);
  match out with
  | Canceled err => io_fail err
  | Completed stdout stderr err => mret (mkCommandResult (extractExitCode err) stdout stderr)
  end.

Definition RunWithOutput (command : string) : IO S CommandResult := execute command "".

Definition cmd_Run (command : string) : IO S unit :=
  result ← RunWithOutput command;
  if negb (cr_ExitCode result =? 0)%Z then
    let errMsg := TrimSpace (cr_Stderr result) in
    let errMsg := if errMsg == "" then TrimSpace (cr_Stdout result) else errMsg in
    io_fail (ENew ("command failed with exit code " ++s itoa (cr_ExitCode result) ++s ": " ++s errMsg))
  else mret tt.

Definition RunScript (script : string) : IO S CommandResult :=
  RunWithOutput (script_command script).

Definition RunWithSudo (command password : string) : IO S CommandResult :=
  if password != "" then execute ("sudo -S " ++s command) (password ++s NL)
  else execute ("sudo " ++s command) "".
End Sessions.

(** ** Properties *)

Section Mkdir.
Context {W : Type} `{SftpLib W}.

(** Creating directories ends.  The fuel of [mkdirAllInternal], the length of
    the path, never runs out: any larger fuel gives the same result and the
    same world, since each recursive call is on a shorter path. *)
Theorem mkdirAllInternal_terminates fuel path s :
  String.length path ≤ fuel →
  mkdirAllInternal fuel path s = mkdirAllInternal (String.length path) path s.
Proof.
  enough (∀ f1 f2 path s, String.length path ≤ f1 → String.length path ≤ f2 →
    mkdirAllInternal f1 path s = mkdirAllInternal f2 path s) as Hfuel by (intros; by apply Hfuel).
  clear. intros f1. induction f1 as [|f1 IH]; intros f2 path s H1 H2.
  - assert (path = "") as -> by (by destruct path; simpl in H1; [|lia]). by destruct f2.
  - destruct f2 as [|f2]; [by assert (path = "") as -> by (by destruct path; simpl in H2; [|lia])|].
    cbn [mkdirAllInternal]. rewrite (io_bind_run (io_try _)), (io_bind_run (io_try _) _ s).
    destruct (io_try (on_lib (lib_Mkdir path)) s) as [[[[]|e]|e] s1]; [done| |done].
    rewrite (io_bind_run (io_try _)), (io_bind_run (io_try _) _ s1).
    destruct (io_try (on_lib (lib_Stat path)) s1) as [[[d|e']|e'] s2]; [done| |done].
    rewrite io_bind_run. rewrite (io_bind_run _ _ s2).
    destruct ((filepath_Dir path != path) && (filepath_Dir path != "/")
              && (filepath_Dir path != ".")) eqn:E; [|done].
    apply andb_true_iff in E as [[E1 _]%andb_true_iff E2].
    apply negb_true_iff, String.eqb_neq in E1, E2.
    pose proof (length_Dir path E1 E2). by rewrite (IH f2) by lia.
Qed.
End Mkdir.

(** The exit code is lost.  The text of the SSH library's exit error,
    [Process exited with status n], does not contain the words the code looks
    for first, so every failed command counts as exit code 1. *)
Theorem extractExitCode_lost n :
  extractExitCode (Some (ENew ("Process exited with status " ++s itoa n))) = 1%Z.
Proof.
  unfold extractExitCode. simpl Error.
  assert (Contains ("Process exited with status " ++s itoa n) "exit status" = false) as ->; [|done].
  assert (Contains (itoa n) "exit status" = false) as Hn.
  { destruct (Contains (itoa n) "exit status") eqn:E; [|done].
    apply (Contains_byte "e") in E; [|done].
    by rewrite (not_contains_byte _ "e" _ (itoa_bytes n)) in E. }
  exact Hn.
Qed.

(** *** Quoting for the shell

    The value of a word, by the quoting rules of the shell: between single
    quotes every character stands for itself, between double quotes every one
    but the double quote, the dollar, the back quote and the backslash; [q] is the open quote.  Characters that are
    special outside quotes are not given a value. *)
Definition ordinary (c : ascii) : bool :=
  is_lower c || is_upper c || is_digit c || Ascii.eqb c "_".

Fixpoint sh_word (q : option ascii) (s : string) : option string :=
  match s with
  | EmptyString => match q with None => Some "" | Some _ => None end
  | String c s =>
      match q with
      | None =>
          if Ascii.eqb c squote || Ascii.eqb c dquote then sh_word (Some c) s
          else if ordinary c then String c <$> sh_word None s else None
      | Some q =>
          if Ascii.eqb c q then sh_word None s
          else if Ascii.eqb q dquote && (Ascii.eqb c "$" || Ascii.eqb c "`" || Ascii.eqb c "\") then None
          else String c <$> sh_word (Some q) s
      end
  end.

(** A script reaches the shell unchanged.  The command of [RunScript] is
    [sh -c] followed by one word, and that word's value is the script,
    whatever quotes and other characters it has. *)
Theorem RunScript_word script :
  ∃ word, script_command script = "sh -c " ++s word ∧ sh_word None word = Some script.
Proof.
  exists ("'" ++s escapeShellArg script ++s "'"). split; [done|].
  change (sh_word (Some squote) (escapeShellArg script ++s "'") = Some script).
  induction script as [|c script IH]; [done|]. cbn [escapeShellArg].
  destruct (Ascii.eqb_spec c squote) as [->|Hc].
  - rewrite app_assoc_s.
    change (String squote <$> sh_word (Some squote) (escapeShellArg script ++s "'")
            = Some (String squote script)). by rewrite IH.
  - rewrite app_cons. cbn [sh_word]. apply Ascii.eqb_neq in Hc. rewrite Hc. cbn [andb].
    change (Ascii.eqb squote dquote) with false. cbn [andb]. by rewrite IH.
Qed.

(** ** What is expected of the libraries

    Only [OpenFile] (which truncates), [Write], [Remove] and [Rename] touch
    the remote files; [Open] fails on a missing file and [ReadAll] gives the
    content; a [Write] that accepts all the bytes has written them.  Two names
    may stand for one file: two spellings of a path do, and links make others,
    so what is said of the other files is said of those that no name in
    [lib_aliases] joins.  Nobody else writes the files meanwhile.
    [os.IsNotExist] does not look below [fmt.Errorf] and, of the errors made
    by [errors.New], holds of [os.ErrNotExist] only. *)
Definition text_ErrNotExist : string := "file does not exist".

Class SftpLibLaws (W : Type) `{SftpLib W} := {
  lib_file : string → W → option string;
  lib_aliases : string → string → Prop;
  lib_aliases_clean q p : filepath_Clean q = filepath_Clean p → lib_aliases q p;
  local_ReadFile_law q p : io_keeps (lib_file q) (local_ReadFile p);
  local_Stat_law q p : io_keeps (lib_file q) (local_Stat p);
  knownhosts_New_law q p : io_keeps (lib_file q) (knownhosts_New p);
  dial_law q c : io_keeps (lib_file q) (dial c);
  handshake_law q c : io_keeps (lib_file q) (handshake c);
  netconn_Close_law q : io_keeps (lib_file q) netconn_Close;
  conn_Close_law q : io_keeps (lib_file q) conn_Close;
  new_sftp_law q : io_keeps (lib_file q) new_sftp;
  lib_Close_law q : io_keeps (lib_file q) lib_Close;
  lib_Stat_law q p : io_keeps (lib_file q) (lib_Stat p);
  lib_Chmod_law q p : io_keeps (lib_file q) (lib_Chmod p);
  lib_Mkdir_law q p : io_keeps (lib_file q) (lib_Mkdir p);
  lib_Open_law q p : io_keeps (lib_file q) (lib_Open p);
  lib_Open_exists p : io_ok (λ _ w, is_Some (lib_file p w)) (lib_Open p);
  lib_ReadAll_law q p : io_keeps (lib_file q) (lib_ReadAll p);
  lib_ReadAll_content p : io_ok (λ content w, lib_file p w = Some content) (lib_ReadAll p);
  lib_OpenFile_law q p : ¬ lib_aliases q p → io_keeps (lib_file q) (lib_OpenFile p);
  lib_OpenFile_empty p : io_ok (λ _ w, lib_file p w = Some "") (lib_OpenFile p);
  lib_Write_law q p data : ¬ lib_aliases q p → io_keeps (lib_file q) (lib_Write p data);
  lib_Write_content p data w n w' :
    lib_file p w = Some "" → lib_Write p data w = (inl n, w') →
    n = Z.of_nat (String.length data) → lib_file p w' = Some data;
  not_exist_wrapped m e : lib_IsNotExist (EWrapf m e) = false;
  not_exist_new m : lib_IsNotExist (ENew m) = true → m = text_ErrNotExist
}.

#[export] Hint Resolve local_ReadFile_law local_Stat_law knownhosts_New_law dial_law handshake_law
  netconn_Close_law conn_Close_law new_sftp_law lib_Close_law lib_Stat_law lib_Chmod_law lib_Mkdir_law
  lib_Open_law lib_ReadAll_law lib_OpenFile_law lib_Write_law : io_keeps_db.

Section Laws.
Context {W : Type} `{SftpLibLaws W}.
Abbreviation S := (W * Session)%type.

Definition remote_file (q : string) (s : S) : option string := lib_file q s.1.

Definition not_missing (e : error) : Prop := lib_IsNotExist e = false.

Lemma not_missing_wrapped m e : not_missing (EWrapf m e).
Proof. apply not_exist_wrapped. Qed.

Lemma not_missing_new m : m ≠ text_ErrNotExist → not_missing (ENew m).
Proof.
  intros Hm. unfold not_missing. destruct (lib_IsNotExist (ENew m)) eqn:E; [|done].
  by apply not_exist_new in E.
Qed.

Lemma on_lib_keeps {A} q (m : IO W A) :
  io_keeps (lib_file q) m → io_keeps (remote_file q) (on_lib m).
Proof.
  intros Hm [w s]. unfold on_lib, remote_file. simpl. specialize (Hm w). by destruct (m w).
Qed.

Lemma set_conn_keeps q b : io_keeps (remote_file q) (set_conn b).
Proof. done. Qed.
Lemma set_sftp_keeps q b : io_keeps (remote_file q) (set_sftp b).
Proof. done. Qed.
Lemma get_session_keeps q : io_keeps (remote_file q) get_session.
Proof. done. Qed.
Hint Resolve on_lib_keeps set_conn_keeps set_sftp_keeps get_session_keeps : io_keeps_db.

Ltac keeps := io_walk ltac:(solve [eauto with io_keeps_db] || apply io_keeps_bind
  || apply io_keeps_catch || apply io_keeps_wrap || apply io_keeps_ignore || apply io_keeps_try).

Lemma sftp_Close_keeps q : io_keeps (remote_file q) sftp_Close.
Proof. unfold sftp_Close. keeps. Qed.

Lemma client_Close_keeps q : io_keeps (remote_file q) client_Close.
Proof. unfold client_Close. keeps. Qed.

Lemma Connect_keeps q c : io_keeps (remote_file q) (Connect c).
Proof.
  unfold Connect, buildSSHConfig, buildAuthMethods, parsePrivateKey, buildHostKeyCallback,
    knownHostsCallback. keeps.
Qed.

Lemma Reconnect_keeps q c : io_keeps (remote_file q) (Reconnect c).
Proof. unfold Reconnect. pose proof (client_Close_keeps q). pose proof (Connect_keeps q c). keeps. Qed.

Lemma sftp_Connect_keeps q : io_keeps (remote_file q) sftp_Connect.
Proof. unfold sftp_Connect, GetConnection. keeps. Qed.

Lemma mkdirAllInternal_keeps q fuel path : io_keeps (remote_file q) (mkdirAllInternal fuel path).
Proof. revert path. induction fuel as [|fuel IH]; intros path; simpl; keeps. Qed.
Hint Resolve mkdirAllInternal_keeps : io_keeps_db.

Lemma sftp_MkdirAll_keeps q p : io_keeps (remote_file q) (sftp_MkdirAll p).
Proof. unfold sftp_MkdirAll, getSFTP. keeps. Qed.

Lemma sftp_Stat_keeps q p : io_keeps (remote_file q) (sftp_Stat p).
Proof. unfold sftp_Stat, getSFTP. keeps. Qed.

Lemma sftp_ReadFile_keeps q p : io_keeps (remote_file q) (sftp_ReadFile p).
Proof. unfold sftp_ReadFile, getSFTP. keeps. Qed.

Lemma sftp_WriteFile_keeps q p data : ¬ lib_aliases q p → io_keeps (remote_file q) (sftp_WriteFile p data).
Proof. intros Hq. unfold sftp_WriteFile, getSFTP. keeps. Qed.

Lemma set_conn_errors P b : io_errors P (set_conn (W:=W) b).
Proof. done. Qed.
Lemma set_sftp_errors P b : io_errors P (set_sftp (W:=W) b).
Proof. done. Qed.
Lemma get_session_errors P : io_errors P (get_session (W:=W)).
Proof. done. Qed.
Hint Resolve set_conn_errors set_sftp_errors get_session_errors not_missing_wrapped : io_errors_db.

Ltac errors := io_walk ltac:(solve [eauto with io_errors_db]
  || (apply io_errors_wrap) || (apply io_errors_bind) || (apply io_errors_catch)
  || (apply io_errors_fail; first [by apply not_missing_new | by apply not_missing_wrapped])
  || by apply not_missing_new).

Lemma Connect_errors c : io_errors not_missing (Connect c).
Proof. unfold Connect. errors. Qed.

Lemma Reconnect_errors c : io_errors not_missing (Reconnect c).
Proof. unfold Reconnect. pose proof (Connect_errors c). errors. Qed.

Lemma sftp_Connect_errors : io_errors not_missing sftp_Connect.
Proof. unfold sftp_Connect. errors. Qed.

Lemma sftp_ReadFile_errors p : io_errors not_missing (sftp_ReadFile p).
Proof. unfold sftp_ReadFile, getSFTP. errors. Qed.

Lemma on_lib_ok {A} (Q : A → W → Prop) (m : IO W A) : io_ok Q m → io_ok (λ a s, Q a s.1) (on_lib m).
Proof.
  intros Hm [w s] a s'. unfold on_lib. simpl. destruct (m w) as [r w'] eqn:E. intros [= -> <-].
  by eapply Hm.
Qed.

Lemma sftp_ReadFile_ok p : io_ok (λ content s, remote_file p s = Some content) (sftp_ReadFile p).
Proof.
  unfold sftp_ReadFile. repeat (apply io_ok_bind; intros ?). apply io_ok_wrap.
  apply (on_lib_ok (λ content w, lib_file p w = Some content)), lib_ReadAll_content.
Qed.

Lemma sftp_WriteFile_ok p data : io_ok (λ _ s, remote_file p s = Some data) (sftp_WriteFile p data).
Proof.
  unfold sftp_WriteFile. do 2 (apply io_ok_bind; intros ?). intros s [] s'. rewrite io_bind_run.
  pose proof (io_ok_wrap _ (EWrapf ("opening file " ++s p ++s " for write: ")) _
    (on_lib_ok _ _ (lib_OpenFile_empty p)) s) as Ho.
  destruct (io_wrap _ _ s) as [[[]|e] [w1 se1]]; [|done]. specialize (Ho _ _ eq_refl). simpl in Ho.
  rewrite io_bind_run. unfold io_wrap, io_catch at 1, on_lib at 1. simpl.
  destruct (lib_Write p data w1) as [[n|e] w2] eqn:Ew; [|done].
  destruct (Z.eqb_spec n (Z.of_nat (String.length data))) as [Hn|]; [|done]. simpl.
  pose proof (lib_Write_content p data w1 n w2 Ho Ew Hn) as Hw. intros E.
  assert (io_keeps (remote_file p) (io_ignore (on_lib (lib_Chmod p)))) as Hk by eauto with io_keeps_db.
  specialize (Hk (w2, se1)). unfold io_ignore in *. rewrite E in Hk. simpl in Hk. by rewrite Hk.
Qed.
End Laws.
