(* ===== verification/DnsmasqSsh.v ===== *)
(** * The SSH transport of the dnsmasq provider (providers/dnsmasq/ssh.go)

    The transport offers the file system and the command runner of the
    client over the sessions of [SshUtil]: each operation is run again, once,
    after a reconnect when it failed because the connection was lost.  Its own
    state is whether it has an SFTP file system.

    With the laws of the libraries the transport is a file system in the sense
    of [Dnsmasq.FileSystemLaws], so the theorems of the client hold over SSH;
    what does not hold is that a missing file is recognised as missing. *)
From S2P Require Import Prelude GoStrings Errors ProviderTypes IO FilePath SshUtil.
From S2P Require Dnsmasq.
From Stdlib Require Import ZArith.

Section Transport.
Context {W : Type} `{SftpLib W}.

(** The sessions, and whether [t.sftp] is set. *)
Abbreviation S := (W * Session)%type.
Abbreviation T := (S * bool)%type.

Definition on_session {A} (m : IO S A) : IO T A := λ s,
  let '(r, w) := m s.1 in (r, (w, s.2)).
Definition set_t_sftp (b : bool) : IO T unit := λ s, (inl tt, (s.1, b)).
Definition has_sftp : IO T bool := λ s, (inl s.2, s).

(** [errors.Is(err, target)] for a target made by [errors.New]. *)
Fixpoint errors_Is_new (err : error) (target : string) : bool :=
  match err with
  | ENew msg => msg == target
  | EWrapf _ err | EProviderError _ _ err => errors_Is_new err target
  | _ => false
  end.

Definition markers : list string :=
  ["connection lost"; "connection reset"; "broken pipe"; "use of closed network connection";
   "connection refused"; "no route to host"; "session is closed"; "failed to send packet"; "eof"].

Definition isConnectionError (err : error) : bool :=
  errors_Is_new err "ssh client is not connected" || errors_Is_new err "ssh connection timed out"
  || errors_Is_new err "EOF" || errors_Is_new err "unexpected EOF"
  || existsb (λ marker, Contains (ToLower (Error err)) marker) markers.

(** The configuration of the session. *)
Definition sshCfg (cfg : Dnsmasq.Config) : Config :=
  mkConfig (Dnsmasq.cfg_SSHHost cfg) (Dnsmasq.cfg_SSHPort cfg) (Dnsmasq.cfg_SSHUser cfg)
    (Dnsmasq.cfg_SSHKeyFile cfg) "" "" (Dnsmasq.cfg_SSHPassword cfg) 0 0
    (Dnsmasq.cfg_SSHKnownHostsFile cfg) (Dnsmasq.cfg_SSHStrictHostKey cfg).

Definition establish (cfg : Config) : IO T unit :=
  open ← has_sftp;
  _ ← (if (open : bool) then _ ← io_ignore (on_session sftp_Close); set_t_sftp false else mret tt);
  _ ← on_session (Reconnect cfg);
  _ ← on_session NewSFTPFileSystem;
  _ ← io_wrap (EWrapf "establishing SFTP session: ") (on_session sftp_Connect);
  set_t_sftp true.

(** [do]: the operation, and once more after a reconnect when it failed with
    a connection error. *)
Definition transport_do {A} (cfg : Config) (op : IO S A) : IO T A :=
  open ← has_sftp;
  _ ← (if negb open then establish cfg else mret tt);
  r ← io_try (on_session op);
  match r with
  | inl a => mret a
  | inr err =>
      if negb (isConnectionError err) then io_fail err
      else
        _ ← io_wrap (EWrapf ("reconnecting after operation error (" ++s Error err ++s "): "))
              (establish cfg);
        on_session op
  end.

Definition transport_Close : IO T unit :=
  open ← has_sftp;
  err ← (if (open : bool)
         then r ← io_try (on_session sftp_Close); _ ← set_t_sftp false; mret r
         else mret (inl tt));
  cerr ← io_try (on_session client_Close);
  match err, cerr with
  | inr e, _ => io_fail e
  | inl _, inr e => io_fail e
  | inl _, inl _ => mret tt
  end.

Definition newSSHTransport (cfg : Dnsmasq.Config) : IO T unit :=
  let c := sshCfg cfg in
  _ ← io_wrap (EWrapf "creating SSH client: ") (on_session (NewClient c));
  io_catch (establish c) (λ err,
    _ ← io_ignore transport_Close;
    io_fail (EWrapf ("connecting to " ++s Address c ++s ": ") err)).

Definition transport_fs (cfg : Config) : Dnsmasq.FileSystem T := {|
  Dnsmasq.ReadFile p := transport_do cfg (sftp_ReadFile p);
  Dnsmasq.WriteFile p d := transport_do cfg (sftp_WriteFile p d);
  Dnsmasq.Stat p := transport_do cfg (sftp_Stat p);
  Dnsmasq.MkdirAll p := transport_do cfg (sftp_MkdirAll p);
  Dnsmasq.os_IsNotExist := lib_IsNotExist
|}.

Definition transport_runner (cfg : Config) : Dnsmasq.CommandRunner T :=
  λ cmd, transport_do cfg (cmd_Run cmd).

(** The transport as the factory uses it. *)
Definition ssh_transport (cfg : Dnsmasq.Config) : IO T (Dnsmasq.Transport T) :=
  _ ← newSSHTransport cfg;
  mret (Dnsmasq.mkTransport (transport_fs (sshCfg cfg)) (transport_runner (sshCfg cfg))
          transport_Close).
End Transport.

(** ** The transport is a file system *)

Section TransportLaws.
Context {W : Type} `{SftpLibLaws W} (cfg : Config).
Abbreviation S := (W * Session)%type.
Abbreviation T := (S * bool)%type.

Definition transport_file (q : string) (t : T) : option string := remote_file q t.1.

Lemma on_session_keeps {A} q (m : IO S A) :
  io_keeps (remote_file q) m → io_keeps (transport_file q) (on_session m).
Proof.
  intros Hm [s b]. unfold on_session, transport_file. simpl. specialize (Hm s). by destruct (m s).
Qed.

Lemma on_session_errors {A} P (m : IO S A) : io_errors P m → io_errors P (on_session m).
Proof.
  intros Hm [s b] e. unfold on_session. simpl. specialize (Hm s). destruct (m s). apply Hm.
Qed.

Lemma on_session_ok {A} (Q : A → S → Prop) (m : IO S A) :
  io_ok Q m → io_ok (λ a t, Q a t.1) (on_session m).
Proof.
  intros Hm [s b] a t. unfold on_session. simpl. destruct (m s) as [r s'] eqn:E. intros [= -> <-].
  by eapply Hm.
Qed.

Lemma establish_keeps q : io_keeps (transport_file q) (establish cfg).
Proof.
  pose proof (on_session_keeps q _ (sftp_Close_keeps q)).
  pose proof (on_session_keeps q _ (Reconnect_keeps q cfg)).
  pose proof (on_session_keeps q _ (sftp_Connect_keeps q)).
  assert (io_keeps (transport_file q) has_sftp) by done.
  assert (∀ b, io_keeps (transport_file q) (set_t_sftp b)) by done.
  assert (io_keeps (transport_file q) (on_session NewSFTPFileSystem)) by done.
  unfold establish. io_walk ltac:(solve [eauto with io_keeps_db] || apply io_keeps_bind).
Qed.

Lemma establish_errors : io_errors not_missing (establish cfg).
Proof.
  pose proof (on_session_errors _ _ (Reconnect_errors cfg)).
  assert (io_errors not_missing (has_sftp (W:=W))) by done.
  assert (∀ b, io_errors not_missing (set_t_sftp (W:=W) b)) by done.
  assert (io_errors not_missing (on_session (NewSFTPFileSystem (W:=W)))) by done.
  unfold establish. io_walk ltac:(solve [eauto using not_missing_wrapped with io_errors_db]
    || apply io_errors_bind).
Qed.

(** An operation run by [transport_do], once or twice, keeps what it keeps;
    its successes and errors are those of the operation and, for errors, of
    the connection. *)
Lemma transport_do_keeps {A} q (op : IO S A) :
  io_keeps (remote_file q) op → io_keeps (transport_file q) (transport_do cfg op).
Proof.
  intros Hop%on_session_keeps. pose proof (establish_keeps q).
  assert (io_keeps (transport_file q) has_sftp) by done.
  unfold transport_do. io_walk ltac:(solve [eauto with io_keeps_db] || apply io_keeps_bind).
Qed.

Lemma transport_do_ok {A} (Q : A → S → Prop) (op : IO S A) :
  io_ok Q op → io_ok (λ a t, Q a t.1) (transport_do cfg op).
Proof.
  intros Hop%on_session_ok. unfold transport_do. do 2 (apply io_ok_bind; intros ?).
  intros t a' t'. rewrite io_bind_run. unfold io_try. specialize (Hop t) as Ht.
  destruct (on_session op t) as [[x|e] t1]; [intros [= <- <-]; by apply Ht|].
  destruct (isConnectionError e); [|done]. cbn [negb]. rewrite io_bind_run.
  destruct (io_wrap _ _ t1) as [[[]|e'] t2]; [apply Hop|done].
Qed.

Lemma transport_do_errors {A} (op : IO S A) :
  io_errors not_missing op → io_errors not_missing (transport_do cfg op).
Proof.
  intros Hop t e. unfold transport_do.
  assert (io_errors not_missing (has_sftp (W:=W))) as Hh by done.
  assert (io_errors not_missing (on_session op)) as Ho by by apply on_session_errors.
  pose proof establish_errors as He. revert t e. apply io_errors_bind; [done|]. intros open.
  apply io_errors_bind; [by destruct (negb open)|]. intros _ t e. rewrite io_bind_run. unfold io_try.
  specialize (Ho t) as Ht. destruct (on_session op t) as [[a|e1] t1]; [done|]. specialize (Ht _ eq_refl).
  destruct (isConnectionError e1); cbn [negb]; [|by intros [= <-]]. revert e. revert t1 Ht. clear t.
  intros t1 _ e. revert t1 e. apply io_errors_bind; [|done]. apply io_errors_wrap, not_missing_wrapped.
Qed.

(** The transport is a file system: reads give the remote content, a write
    that reports success, also after a lost connection and a second attempt,
    has left the content, and no other file is touched. *)
#[export, refine] Instance transport_laws : @Dnsmasq.FileSystemLaws T (transport_fs cfg) := {|
  Dnsmasq.file_at := transport_file;
  Dnsmasq.aliases := lib_aliases
|}.
Proof.
  - apply lib_aliases_clean.
  - intros p t. cbn. split; [intros q; apply transport_do_keeps, sftp_ReadFile_keeps|].
    pose proof (transport_do_keeps p _ (sftp_ReadFile_keeps p p) t) as Hk.
    pose proof (transport_do_ok _ _ (sftp_ReadFile_ok p) t) as Hc.
    pose proof (transport_do_errors _ (sftp_ReadFile_errors p) t) as He.
    destruct (transport_do cfg (sftp_ReadFile p) t) as [[content|e] t']; simpl in *.
    + rewrite <- Hk. by apply Hc.
    + intros Hn. by rewrite (He e eq_refl) in Hn.
  - intros p content t. cbn. split.
    + intros q Hq. by apply transport_do_keeps, sftp_WriteFile_keeps.
    + pose proof (transport_do_ok _ _ (sftp_WriteFile_ok p content) t) as Hc.
      destruct (transport_do cfg (sftp_WriteFile p content) t) as [[[]|e] t']; [|done]. by apply (Hc tt).
  - intros p t q. cbn. by apply transport_do_keeps, sftp_MkdirAll_keeps.
Defined.

(** *** Reconnecting *)

(** An error that the program takes for a lost connection: it wraps one of
    four errors, or its text has one of nine pieces in any case. *)
Inductive wraps (m : string) : error → Prop :=
| wraps_it : wraps m (ENew m)
| wraps_wrapf pre e : wraps m e → wraps m (EWrapf pre e)
| wraps_provider name op e : wraps m e → wraps m (EProviderError name op e).

Definition connection_lost (e : error) : Prop :=
  (∃ m, m ∈ ["ssh client is not connected"; "ssh connection timed out"; "EOF"; "unexpected EOF"] ∧ wraps m e) ∨
  ∃ m, m ∈ ["connection lost"; "connection reset"; "broken pipe"; "use of closed network connection";
            "connection refused"; "no route to host"; "session is closed"; "failed to send packet"; "eof"] ∧
       Contains (ToLower (Error e)) m = true.

Lemma errors_Is_new_wraps e m : errors_Is_new e m = true ↔ wraps m e.
Proof.
  split.
  - induction e; simpl; try done; [intros ->%String.eqb_eq|..]; eauto using wraps.
  - induction 1; simpl; [by apply String.eqb_eq|done..].
Qed.

Lemma isConnectionError_lost e : isConnectionError e = true ↔ connection_lost e.
Proof.
  unfold isConnectionError, connection_lost. rewrite !orb_true_iff, !errors_Is_new_wraps, existsb_exists.
  setoid_rewrite list_elem_of_In. split.
  - intros [[[[?|?]|?]|?]|?]; [left..|by right]; eexists; (split; [|done]); simpl; auto.
  - intros [(m & Hm & Hw)|?]; [left|by right]. simpl in Hm. destruct_or! Hm; subst; auto.
Qed.

(** Opening everything again: what is open is closed, whatever that says, and
    then a connection is dialled with the settings of the configuration, the
    handshake is made, and a file system is opened on it. *)
Inductive reopened (open : bool) : S → S → Prop :=
| reopen w (conn sftp : bool) w0 w1 w2 w3 w4 w5 :
    w0 = (if open && sftp then (lib_Close w).2 else w) →
    w1 = (if conn then (conn_Close w0).2 else w0) →
    (let now := mkSession false (negb open && sftp) in buildSSHConfig cfg (w1, now) = (inl tt, (w2, now))) →
    dial cfg w2 = (inl tt, w3) → handshake cfg w3 = (inl tt, w4) → new_sftp w4 = (inl tt, w5) →
    reopened open (w, mkSession conn sftp) (w5, mkSession true true).

(** An operation of the transport, from one of the sessions: it is run at once
    when a file system is open, and after opening everything otherwise; when
    it fails because the connection is lost, everything is opened again and
    the second answer stands, be it an error. *)
Definition retried {A} (m : IO T A) (op : IO S A) : Prop := ∀ s,
  (∀ a s1, op s = (inl a, s1) → m (s, true) = (inl a, (s1, true))) ∧
  (∀ e s1, op s = (inr e, s1) → ¬ connection_lost e → m (s, true) = (inr e, (s1, true))) ∧
  (∀ e s1, op s = (inr e, s1) → connection_lost e →
     (∀ s2, reopened true s1 s2 → m (s, true) = ((op s2).1, ((op s2).2, true))) ∧
     ((∀ s2, ¬ reopened true s1 s2) → ∃ e', (m (s, true)).1 = inr e')) ∧
  (∀ s2, reopened false s s2 → m (s, false) = m (s2, true)) ∧
  ((∀ s2, ¬ reopened false s s2) → ∃ e', (m (s, false)).1 = inr e').

Lemma buildSSHConfig_session w se : (buildSSHConfig cfg (w, se)).2.2 = se.
Proof.
  assert (∀ A (m : IO W A), io_keeps snd (on_lib m)) as Hl.
  { intros A m [w' se']. unfold on_lib. simpl. by destruct (m w'). }
  assert (∀ l, io_keeps snd (parsePrivateKey (W:=W) cfg l)) as Hp by done.
  assert (io_keeps snd (buildSSHConfig (W:=W) cfg)) as Hk; [|apply (Hk (w, se))].
  unfold buildSSHConfig, buildAuthMethods, buildHostKeyCallback, knownHostsCallback.
  io_walk ltac:(solve [eauto with io_keeps_db] || apply io_keeps_bind || apply io_keeps_wrap).
Qed.

Lemma Reconnect_run w conn sftp :
  let w1 := if (conn : bool) then (conn_Close w).2 else w in
  Reconnect cfg (w, mkSession conn sftp) = Connect cfg (w1, mkSession false sftp).
Proof.
  unfold Reconnect, client_Close, io_ignore, io_try, get_session, on_lib, set_conn, io_lift, mbind, IO_bind, io_catch, mret, IO_ret.
  simpl. destruct conn; [|done]. simpl. by destruct (conn_Close w) as [[]].
Qed.

Lemma Connect_run w sftp :
  match buildSSHConfig cfg (w, mkSession false sftp) with
  | (inl _, (w2, _)) =>
      match dial cfg w2 with
      | (inl _, w3) =>
          match handshake cfg w3 with
          | (inl _, w4) => Connect cfg (w, mkSession false sftp) = (inl tt, (w4, mkSession true sftp))
          | (inr _, _) => ∃ e s, Connect cfg (w, mkSession false sftp) = (inr e, s)
          end
      | (inr _, _) => ∃ e s, Connect cfg (w, mkSession false sftp) = (inr e, s)
      end
  | (inr _, _) => ∃ e s, Connect cfg (w, mkSession false sftp) = (inr e, s)
  end.
Proof.
  pose proof (buildSSHConfig_session w (mkSession false sftp)) as Hse.
  unfold Connect, io_wrap, io_ignore, io_catch, get_session, set_conn, mbind, IO_bind, mret, IO_ret.
  cbn -[buildSSHConfig isAuthError is_deadline].
  destruct (buildSSHConfig cfg _) as [[u|e] [w2 se]]; simpl in Hse; [subst se|by eexists _, _].
  unfold on_lib. cbn -[isAuthError is_deadline]. destruct (dial cfg w2) as [[u'|e] w3]; [|by eexists _, _].
  cbn -[isAuthError]. destruct (handshake cfg w3) as [[u''|e] w4]; [done|].
  cbn -[isAuthError]. destruct (netconn_Close w4) as [[]]; by eexists _, _.
Qed.

Lemma establish_run w conn sftp (open : bool) :
  let w0 := if open && sftp then (lib_Close w).2 else w in
  let w1 := if (conn : bool) then (conn_Close w0).2 else w0 in
  match Connect cfg (w1, mkSession false (negb open && sftp)) with
  | (inl _, (w4, se)) =>
      match new_sftp w4 with
      | (inl _, w5) => se_conn se = true →
          establish cfg ((w, mkSession conn sftp), open) = (inl tt, ((w5, mkSession true true), true))
      | (inr _, _) => ∃ e t, establish cfg ((w, mkSession conn sftp), open) = (inr e, t)
      end
  | (inr _, _) => ∃ e t, establish cfg ((w, mkSession conn sftp), open) = (inr e, t)
  end.
Proof.
  cbv zeta. unfold establish. rewrite (io_bind_run has_sftp). cbn [has_sftp snd].
  assert ((if open then _ ← io_ignore (on_session sftp_Close); set_t_sftp false else mret tt)
            ((w, mkSession conn sftp), open)
          = (inl tt, ((if open && sftp then (lib_Close w).2 else w, mkSession conn (negb open && sftp)), false))) as Hc.
  { destruct open; [|done]. unfold io_ignore, on_session, sftp_Close, set_t_sftp, get_session, set_sftp, on_lib, io_try,
      io_lift, io_catch, mbind, IO_bind, mret, IO_ret. simpl. destruct sftp; [|done]. simpl.
    by destruct (lib_Close w) as [[]]. }
  rewrite (io_bind_run (if open then _ else _)), Hc.
  set (w0 := if open && sftp then _ else w) in *.
  assert (on_session (Reconnect cfg) ((w0, mkSession conn (negb open && sftp)), false) =
    let '(r, s) := Connect cfg (if conn then (conn_Close w0).2 else w0, mkSession false (negb open && sftp)) in
    (r, (s, false))) as Hr by (unfold on_session; simpl; by rewrite Reconnect_run).
  rewrite (io_bind_run (on_session (Reconnect cfg))), Hr.
  destruct (Connect cfg _) as [[u|e] [w4 se]]; [|by eexists _, _].
  unfold on_session, NewSFTPFileSystem, sftp_Connect, GetConnection, set_sftp, get_session, set_t_sftp, on_lib,
    io_wrap, io_catch, mbind, IO_bind, mret, IO_ret. simpl.
  destruct (new_sftp w4) as [[u'|e] w5] eqn:En.
  - intros Hse. rewrite Hse. simpl. by rewrite En.
  - destruct (se_conn se); simpl; [rewrite En|]; by eexists _, _.
Qed.

Lemma reopened_establish open s s' : reopened open s s' → establish cfg (s, open) = (inl tt, (s', true)).
Proof.
  intros [w conn sftp w0 w1 w2 w3 w4 w5 -> -> Hb Hd Hh Hn].
  pose proof (establish_run w conn sftp open) as He. cbv zeta in He, Hb.
  set (w1 := if conn then _ else _) in *.
  pose proof (Connect_run w1 (negb open && sftp)) as Hc. rewrite Hb, Hd, Hh in Hc. rewrite Hc, Hn in He. by apply He.
Qed.

Lemma establish_reopens s open :
  match establish cfg (s, open) with
  | (inl _, t) => ∃ s', reopened open s s' ∧ t = (s', true)
  | (inr _, _) => ∀ s', ¬ reopened open s s'
  end.
Proof.
  destruct (establish cfg (s, open)) as [[u|e] t] eqn:E.
  2:{ intros s' Hr%reopened_establish. by rewrite E in Hr. }
  destruct s as [w [conn sftp]]. pose proof (establish_run w conn sftp open) as He. cbv zeta in He.
  set (w1 := if conn then _ else _) in *.
  pose proof (Connect_run w1 (negb open && sftp)) as Hc.
  pose proof (buildSSHConfig_session w1 (mkSession false (negb open && sftp))) as Hse.
  destruct (buildSSHConfig cfg _) as [[[]|e] [w2 se]] eqn:Eb.
  2:{ destruct Hc as (e' & s' & Hc). rewrite Hc in He. destruct He as (? & ? & He). by rewrite E in He. }
  simpl in Hse. subst se. destruct (dial cfg w2) as [[[]|e] w3] eqn:Ed.
  2:{ destruct Hc as (e' & s' & Hc). rewrite Hc in He. destruct He as (? & ? & He). by rewrite E in He. }
  destruct (handshake cfg w3) as [[[]|e] w4] eqn:Eh.
  2:{ destruct Hc as (e' & s' & Hc). rewrite Hc in He. destruct He as (? & ? & He). by rewrite E in He. }
  rewrite Hc in He. destruct (new_sftp w4) as [[[]|e] w5] eqn:En.
  2:{ destruct He as (? & ? & He). by rewrite E in He. }
  specialize (He eq_refl). rewrite E in He. injection He as _ ->.
  eexists. split; [|done]. by eapply reopen.
Qed.

Lemma transport_do_retried {A} (op : IO S A) : retried (transport_do cfg op) op.
Proof.
  intros s. split_and!.
  - intros a s1 E. unfold transport_do, mbind, IO_bind, io_try, has_sftp, on_session, mret, IO_ret.
    cbn. by rewrite E.
  - intros e s1 E Hn. unfold transport_do, mbind, IO_bind, io_try, has_sftp, on_session, mret, IO_ret. cbn. rewrite E. cbn.
    rewrite <- isConnectionError_lost in Hn. by destruct (isConnectionError e).
  - intros e s1 E Hc%isConnectionError_lost.
    assert (∀ r t, establish cfg (s1, true) = (r, t) →
      transport_do cfg op (s, true) =
        match r with inl _ => on_session op t
                | inr e' => (inr (EWrapf ("reconnecting after operation error (" ++s Error e ++s "): ") e'), t) end) as Hrun.
    { intros r t Et. unfold transport_do, mbind, IO_bind, io_try, has_sftp, on_session, mret, IO_ret. cbn.
      rewrite E. cbn. rewrite Hc. cbn. unfold io_wrap. rewrite io_catch_run, Et. by destruct r. }
    split.
    + intros s2 Hre%reopened_establish. rewrite (Hrun _ _ Hre). unfold on_session. cbn. by destruct (op s2).
    + intros Hno. pose proof (establish_reopens s1 true) as He.
      destruct (establish cfg (s1, true)) as [[u|e'] t] eqn:Et.
      * destruct He as (s' & Hs' & _). by destruct (Hno s').
      * rewrite (Hrun _ _ eq_refl). by eexists.
  - intros s2 Hre%reopened_establish. unfold transport_do. rewrite !io_bind_run. unfold has_sftp. cbn. rewrite !io_bind_run, Hre. done.
  - intros Hno. pose proof (establish_reopens s false) as He. unfold transport_do. rewrite !io_bind_run. unfold has_sftp. cbn. rewrite io_bind_run.
    destruct (establish cfg (s, false)) as [[u|e'] t] eqn:Et; [|by eexists].
    destruct He as (s' & Hs' & _). by destruct (Hno s').
Qed.

(** C29. The transport keeps the contract of a file system across lost
    connections.  Whatever the connection does during an operation, a read
    that succeeds gives the remote content and changes no file; a write that
    succeeds, at the first attempt or after a reconnect, has left exactly the
    content, and touches no file but those that its name may stand for; [Stat]
    and [MkdirAll] change no file.  Each of the four, and the commands, are run
    once when the connection holds, are not repeated after other errors, and
    when the connection was lost are run exactly once more, after everything
    has been closed and opened again; if that fails the operation does. *)
Theorem transport_contract p content cmd t :
  let fs := transport_fs cfg in
  (∀ q, transport_file q (@Dnsmasq.ReadFile _ fs p t).2 = transport_file q t) ∧
  (∀ data, (@Dnsmasq.ReadFile _ fs p t).1 = inl data → transport_file p t = Some data) ∧
  (∀ q, ¬ lib_aliases q p → transport_file q (@Dnsmasq.WriteFile _ fs p content t).2 = transport_file q t) ∧
  ((@Dnsmasq.WriteFile _ fs p content t).1 = inl tt →
   transport_file p (@Dnsmasq.WriteFile _ fs p content t).2 = Some content) ∧
  (∀ q, transport_file q (@Dnsmasq.Stat _ fs p t).2 = transport_file q t) ∧
  (∀ q, transport_file q (@Dnsmasq.MkdirAll _ fs p t).2 = transport_file q t) ∧
  retried (@Dnsmasq.ReadFile _ fs p) (sftp_ReadFile p) ∧
  retried (@Dnsmasq.WriteFile _ fs p content) (sftp_WriteFile p content) ∧
  retried (@Dnsmasq.Stat _ fs p) (sftp_Stat p) ∧
  retried (@Dnsmasq.MkdirAll _ fs p) (sftp_MkdirAll p) ∧
  retried (transport_runner cfg cmd) (cmd_Run cmd).
Proof.
  cbv zeta. pose proof (@Dnsmasq.read_law _ _ transport_laws p t) as [Hs Hr].
  pose proof (@Dnsmasq.write_law _ _ transport_laws p content t) as [Ho Hw].
  pose proof (@Dnsmasq.mkdir_law _ _ transport_laws p t) as Hm. simpl in Hs, Hr, Ho, Hw, Hm.
  split_and!; [done| |done| | |done|apply transport_do_retried..].
  - intros data E. simpl in E. by rewrite E in Hr.
  - intros E. simpl in E. by rewrite E in Hw.
  - intros q. apply transport_do_keeps, sftp_Stat_keeps.
Qed.

(** What the client finds when the remote file is missing: an error that it
    does not take for a missing file. *)
Lemma readContent_missing c t :
  transport_file (Dnsmasq.ConfigFilePath c) t = None →
  ∃ e, (@Dnsmasq.readContent T (transport_fs cfg) c t).1 = inr e.
Proof.
  intros Hnone. set (p := Dnsmasq.ConfigFilePath c) in *. unfold Dnsmasq.readContent, io_try.
  rewrite io_bind_run. simpl.
  pose proof (transport_do_keeps p _ (sftp_ReadFile_keeps p p) t) as Hk.
  pose proof (transport_do_ok _ _ (sftp_ReadFile_ok p) t) as Hc.
  pose proof (transport_do_errors _ (sftp_ReadFile_errors p) t) as He.
  fold p. destruct (transport_do cfg (sftp_ReadFile p) t) as [[content|e] t']; simpl in *.
  - specialize (Hc _ _ eq_refl). simpl in Hc. unfold transport_file in *. congruence.
  - rewrite (He e eq_refl). by eexists.
Qed.

(** Over SSH the first record cannot be created.  When the configuration file
    does not exist on the remote host, listing, creating and deleting all fail, in
    every state of the connection: the missing file is reported in a wrapped
    error, which [os.IsNotExist] does not recognise.  The file is never
    made. *)
Theorem ssh_missing_file_is_an_error c r t :
  let fs := transport_fs cfg in
  transport_file (Dnsmasq.ConfigFilePath c) t = None →
  (∃ e, (@Dnsmasq.client_List T fs c t).1 = inr e) ∧
  (∃ e, (@Dnsmasq.client_Create T fs c r t).1 = inr e) ∧
  (∃ e, (@Dnsmasq.client_Delete T fs c r t).1 = inr e) ∧
  transport_file (Dnsmasq.ConfigFilePath c) (@Dnsmasq.client_Create T fs c r t).2 = None.
Proof.
  cbv zeta. intros Hnone. destruct (readContent_missing c t Hnone) as [e He].
  pose proof (proj1 (@Dnsmasq.readContent_law _ _ transport_laws c t) (Dnsmasq.ConfigFilePath c)) as Hs. simpl in Hs.
  unfold Dnsmasq.client_List, Dnsmasq.client_Create, Dnsmasq.client_Delete. rewrite !io_bind_run.
  destruct (@Dnsmasq.readContent _ (transport_fs cfg) c t) as [[o|e'] t']; [done|]. simpl in *.
  split_and!; [by eexists..|]. by rewrite Hs.
Qed.

(** A reload that is lost with the connection is not tried again.  When the
    connection breaks while the reload command runs, the error that the
    session reports, whatever it is, becomes exit code 1, and the transport
    sees an error that it does not take for a lost connection. *)
Theorem reload_not_retried cmd e b w w1 w2 :
  new_session w = (inl tt, w1) →
  session_Run cmd "" w1 = (inl (Completed "" "" (Some e)), w2) →
  Contains (Error e) "exit status" = false →
  transport_runner cfg cmd (w, mkSession true b, true)
  = (inr (ENew "command failed with exit code 1: "), (w2, mkSession true b, true)).
Proof.
  intros Hn Hr He. unfold transport_runner, transport_do.
  assert (on_session (cmd_Run cmd) (w, mkSession true b, true)
    = (inr (ENew "command failed with exit code 1: "), (w2, mkSession true b, true))) as E.
  2: { unfold mbind, IO_bind, io_try, has_sftp, mret, IO_ret. cbn [snd negb]. by rewrite E. }
  unfold on_session, cmd_Run, RunWithOutput, execute, on_lib, io_wrap, io_catch, GetConnection, get_session,
    mbind, IO_bind, mret, IO_ret.
  cbn [fst snd se_conn negb]. rewrite Hn. cbn. rewrite Hr. cbn. by rewrite He.
Qed.
End TransportLaws.
