(* ===== verification/DnsmasqScenarios.v ===== *)
(** * dnsmasq scenarios

    The theorems of the dnsmasq provider at concrete inputs: a disk that is a
    map, and a remote host whose connection may be lost. *)
From S2P Require Import Prelude GoStrings Errors ProviderTypes IO FilePath Dnsmasq.
From S2P Require SshUtil DnsmasqSsh.
From Stdlib Require Import ZArith.

(** ** A local disk *)

(** The files, and whether the disk accepts writes. *)
Record Disk := mkDisk { d_files : gmap string string; d_writable : bool }.

#[export] Instance disk_fs : FileSystem Disk := {|
  ReadFile p d := (match d_files d !! filepath_Clean p with
                   | Some content => inl content
                   | None => inr (ENew "no such file or directory")
                   end, d);
  WriteFile p content d :=
    if d_writable d then (inl tt, mkDisk (<[filepath_Clean p := content]> (d_files d)) true)
    else (inr (ENew "read-only file system"), d);
  Stat p d := (inl true, d);
  MkdirAll p d := (inl tt, d);
  os_IsNotExist e := Error e == "no such file or directory"
|}.

#[export, refine] Instance disk_laws : FileSystemLaws Disk := {|
  file_at q d := d_files d !! filepath_Clean q;
  aliases q p := filepath_Clean q = filepath_Clean p
|}.
Proof.
  - done.
  - intros p d. simpl. split; [done|]. by destruct (d_files d !! filepath_Clean p).
  - intros p content d. simpl. destruct (d_writable d); simpl; [|done]. split.
    + intros q Hq. by rewrite lookup_insert_ne by congruence.
    + apply lookup_insert_eq.
  - done.
Defined.

Definition client : Client := mkClient "/etc/dnsmasq.d" "dnsweaver.conf" "reload" "example.com".
Definition rec_a (host ip : string) : dnsmasqRecord := mkDnsmasqRecord host RecordTypeA ip.
Definition app10 : dnsmasqRecord := rec_a "app.example.com" "10.0.0.10".
Definition app1 : dnsmasqRecord := rec_a "app.example.com" "10.0.0.1".
Definition web : dnsmasqRecord := rec_a "web.example.com" "10.0.0.7".

Definition content0 : string := fileHeader ++s "address=/app.example.com/10.0.0.10" ++s NL.
Definition disk0 : Disk := mkDisk {[ "/etc/dnsmasq.d/dnsweaver.conf" := content0 ]} true.

Lemma disk0_holds : holds_records client disk0 [app10].
Proof. by vm_compute. Qed.

Lemma app10_ok : record_ok app10.
Proof. repeat split; try done. left. by split_and!; vm_compute. Qed.
Lemma app1_ok : record_ok app1.
Proof. repeat split; try done. left. by split_and!; vm_compute. Qed.
Lemma web_ok : record_ok web.
Proof. repeat split; try done. left. by split_and!; vm_compute. Qed.

Lemma client_Create_spec_witness :
  let w' := (client_Create client web disk0).2 in
  other_files_same client disk0 w' ∧ holds_records client w' ([app10] ++ [web]).
Proof.
  pose proof (client_Create_spec client web disk0 [app10] "address=/web.example.com/10.0.0.7"
    disk0_holds web_ok ltac:(vm_compute; reflexivity) ltac:(vm_compute; reflexivity)
    ltac:(vm_compute; reflexivity)) as [Ho Hr].
  split; [exact Ho|]. apply Hr. vm_compute. reflexivity.
Defined.

(** The record is deleted, another spelling of the file's name shows it too,
    and deleting again succeeds. *)
Lemma client_Delete_spec_witness :
  let w' := (client_Delete client app10 disk0).2 in
  other_files_same client disk0 w' ∧ holds_records client w' [] ∧
  file_at "/etc//dnsmasq.d/./dnsweaver.conf" w' = file_at "/etc/dnsmasq.d/dnsweaver.conf" w' ∧
  (client_Delete client app10 w').1 = inl tt.
Proof.
  pose proof (client_Delete_spec client app10 disk0 [app10] disk0_holds app10_ok ltac:(vm_compute; reflexivity)) as H1.
  destruct (client_Delete client app10 disk0) as [res w'] eqn:E. destruct H1 as (Ho & Hr & _ & _ & Hd).
  assert (res = inl tt) as Hres by (vm_compute in E; by injection E as <- _).
  pose proof (client_Delete_spec client app10 w' [] (Hr Hres) app10_ok ltac:(vm_compute; reflexivity)) as H2.
  destruct (client_Delete client app10 w') as [res2 w2] eqn:E2. destruct H2 as (_ & _ & _ & Ha & _).
  split_and!; [exact Ho|exact (Hr Hres)|reflexivity|]. simpl. rewrite E2. apply Ha.
  - vm_compute in E. injection E as _ <-. vm_compute. reflexivity.
  - apply not_elem_of_nil.
Defined.

Lemma Create_shadowed_witness :
  (client_Create client app1 disk0).1 = inl tt ∧
  holds_records client (client_Create client app1 disk0).2 [app10].
Proof.
  split; [vm_compute; reflexivity|].
  apply (Create_shadowed client app1 disk0 [app10] app10 "0"); try (vm_compute; reflexivity).
  - by apply list_elem_of_singleton.
  - by intros [=]%list_elem_of_singleton.
  - exact app1_ok.
Defined.

Lemma WriteRecords_List_witness :
  (client_List client (WriteRecords client [web; app1] disk0).2).1 = inl [web; app1].
Proof.
  destruct (client_List client (WriteRecords client [web; app1] disk0).2).1 as [l|e] eqn:E.
  - f_equal. apply (WriteRecords_List client [web; app1] disk0 l).
    + apply Forall_cons. split; [split; [exact web_ok|vm_compute; reflexivity]|].
      apply Forall_singleton. split; [exact app1_ok|vm_compute; reflexivity].
    + vm_compute. reflexivity.
    + exact E.
  - vm_compute in E. discriminate E.
Defined.

Lemma ConfigFilePath_contained_witness :
  let c := mkClient "/etc/dnsmasq.d" "../../../root/.profile" "reload" "" in
  ConfigFilePath c = "/etc/dnsmasq.d" ∨
  ∃ rest, rest ≠ [] ∧ Forall normal_elem rest ∧
    ConfigFilePath c = "/etc/dnsmasq.d" ++s "/" ++s Join "/" rest.
Proof.
  apply (ConfigFilePath_contained (mkClient "/etc/dnsmasq.d" "../../../root/.profile" "reload" ""));
    [vm_compute; reflexivity|by vm_compute].
Defined.

Lemma same_file_two_identities_witness :
  let config := mkConfig "/etc/dnsmasq.d" "dnsweaver.conf" "reload" "" 300 "" 0 "" "" "" "" true in
  let config' := mkConfig "/etc/dnsmasq.d/" "dnsweaver.conf" "reload" "" 300 "" 0 "" "" "" "" true in
  ConfigFilePath (dp_client (newProvider "a" config))
  = ConfigFilePath (dp_client (newProvider "b" config')) ∧
  dp_Identity (newProvider "a" config) ≠ dp_Identity (newProvider "b" config').
Proof.
  apply (same_file_two_identities "a" "b"
    (mkConfig "/etc/dnsmasq.d" "dnsweaver.conf" "reload" "" 300 "" 0 "" "" "" "" true)).
  vm_compute. reflexivity.
Defined.

(** ** A remote host *)

(** The files, whether the connection is alive, and how many more times the
    host accepts a connection. *)
Record Host := mkHost { h_files : gmap string string; h_alive : bool; h_dials : nat }.

Definition alive {A} (r : Host → (A + error) * Host) : IO Host A := λ h,
  if h_alive h then r h else (inr (ENew "EOF"), h).

#[export] Instance host_lib : SshUtil.SftpLib Host := {|
  SshUtil.local_ReadFile p h := (inl "key", h);
  SshUtil.local_Stat p h := (inl tt, h);
  SshUtil.parse_key k p := inl tt;
  SshUtil.knownhosts_New p h := (inl tt, h);
  SshUtil.dial c h := match h_dials h with
                      | O => (inr (ENew "connection refused"), h)
                      | S n => (inl tt, mkHost (h_files h) true n)
                      end;
  SshUtil.is_deadline e := false;
  SshUtil.handshake c h := (inl tt, h);
  SshUtil.netconn_Close h := (inl tt, mkHost (h_files h) false (h_dials h));
  SshUtil.conn_Close h := (inl tt, mkHost (h_files h) false (h_dials h));
  SshUtil.new_session := alive (λ h, (inl tt, h));
  SshUtil.session_Run cmd stdin h :=
    (inl (SshUtil.Completed "" "" (if h_alive h then Some (ENew "EOF") else None)),
     mkHost (h_files h) false (h_dials h));
  SshUtil.new_sftp := alive (λ h, (inl tt, h));
  SshUtil.lib_Close h := (inl tt, h);
  SshUtil.lib_Open p := alive (λ h, (match h_files h !! filepath_Clean p with
    | Some _ => inl tt | None => inr (ENew SshUtil.text_ErrNotExist) end, h));
  SshUtil.lib_ReadAll p := alive (λ h, (match h_files h !! filepath_Clean p with
    | Some content => inl content | None => inr (ENew "failure") end, h));
  SshUtil.lib_OpenFile p := alive (λ h, (inl tt, mkHost (<[filepath_Clean p := ""]> (h_files h)) true (h_dials h)));
  SshUtil.lib_Write p data := alive (λ h,
    (inl (Z.of_nat (String.length data)),
     mkHost (<[filepath_Clean p := default "" (h_files h !! filepath_Clean p) ++s data]> (h_files h)) true (h_dials h)));
  SshUtil.lib_Chmod p h := (inl tt, h);
  SshUtil.lib_Stat p := alive (λ h, (inl true, h));
  SshUtil.lib_Mkdir p := alive (λ h, (inl tt, h));
  SshUtil.lib_Remove p := alive (λ h, (inl tt, mkHost (delete (filepath_Clean p) (h_files h)) true (h_dials h)));
  SshUtil.lib_Rename p q := alive (λ h, (inl tt, h));
  SshUtil.lib_ReadDir p := alive (λ h, (inl [], h));
  SshUtil.lib_IsNotExist e := match e with
                              | ENew m => m == SshUtil.text_ErrNotExist
                              | _ => false
                              end
|}.

Ltac host := repeat intro; cbn in *; unfold alive in *; cbn in *; repeat case_match; simplify_eq/=; eauto;
  try (by rewrite lookup_insert_ne by congruence); try by rewrite lookup_insert_eq.

#[export, refine] Instance host_laws : SshUtil.SftpLibLaws Host := {|
  SshUtil.lib_file q h := h_files h !! filepath_Clean q;
  SshUtil.lib_aliases q p := filepath_Clean q = filepath_Clean p
|}.
Proof.
  all: try solve [host].
  - intros p data w n w' Hp. cbn. unfold alive. case_match; [|done]. intros [= <- <-] _.
    cbn. by rewrite lookup_insert_eq, Hp.
  - intros m Hm. by apply String.eqb_eq in Hm.
Defined.

Definition ssh_config : SshUtil.Config :=
  SshUtil.mkConfig "dns" 22 "root" "" "" "" "secret" 0 0 "" false.

Abbreviation Remote := (Host * SshUtil.Session * bool)%type.

(** Connected, but the connection has been lost since. *)
Definition lost (files : gmap string string) (dials : nat) : Remote :=
  (mkHost files false dials, SshUtil.mkSession true true, true).

Definition conf : string := "/etc/dnsmasq.d/dnsweaver.conf".

(** A write on a lost connection: one reconnect, then the content is there;
    without an answer from the host, an error and nothing is written. *)
Example write_after_loss :
  let r := @WriteFile _ (DnsmasqSsh.transport_fs ssh_config) conf "text" (lost ∅ 1) in
  r.1 = inl tt ∧ DnsmasqSsh.transport_file conf r.2 = Some "text".
Proof. split; vm_compute; reflexivity. Qed.

Example write_without_host :
  let r := @WriteFile _ (DnsmasqSsh.transport_fs ssh_config) conf "text" (lost ∅ 0) in
  r.1 = inr (EWrapf ("reconnecting after operation error (creating parent directory /etc/dnsmasq.d: "
      ++s "creating directory /etc: EOF): ")
    (EWrapf "dialing dns:22: " (ENew "connection refused")))
  ∧ DnsmasqSsh.transport_file conf r.2 = None.
Proof. split; vm_compute; reflexivity. Qed.

(** The contract on that host: after a lost connection and a second attempt
    the content is there, and another file is as it was; and a transport that
    has no file system yet, and cannot dial, fails. *)
Lemma transport_contract_witness :
  let fs := DnsmasqSsh.transport_fs ssh_config in
  let files := {[ "/etc/hosts" := "127.0.0.1 localhost" ]} in
  let r := @WriteFile _ fs conf "text" (lost files 1) in
  r.1 = inl tt ∧ DnsmasqSsh.transport_file conf r.2 = Some "text" ∧
  DnsmasqSsh.transport_file "/etc//hosts" r.2 = Some "127.0.0.1 localhost" ∧
  ∃ e, (@Stat _ fs conf (mkHost files false 0, SshUtil.mkSession false false, false)).1 = inr e.
Proof.
  intros fs files r.
  destruct (DnsmasqSsh.transport_contract ssh_config conf "text" "reload" (lost files 1))
    as (_ & _ & Ho & Hw & _ & _ & _ & _ & Hs & _).
  assert (r.1 = inl tt) as Hr by (vm_compute; reflexivity).
  assert (¬ SshUtil.lib_aliases "/etc//hosts" conf) as Hother by (intros E; vm_compute in E; discriminate E).
  split_and!; [exact Hr|exact (Hw Hr)|exact (eq_trans (Ho "/etc//hosts" Hother) eq_refl)|].
  apply (Hs (mkHost files false 0, SshUtil.mkSession false false)).
  intros s2 Hre. inversion Hre as [? ? ? ? ? ? ? ? ? -> -> Hb Hd]; subst. vm_compute in Hb. injection Hb as <-.
  vm_compute in Hd. discriminate Hd.
Defined.

(** The exit codes of the tests. *)
Example exit_code_127 : SshUtil.extractExitCode (Some (ENew "exit status 127")) = 127%Z.
Proof. reflexivity. Qed.

(** A path with the letters [eof] in it makes any error about it a connection
    error. *)
Example path_is_connection_error :
  DnsmasqSsh.isConnectionError
    (EWrapf "opening file /etc/geofence/dnsmasq.conf: " (ENew "permission denied")) = true.
Proof. reflexivity. Qed.

Lemma mkdirAllInternal_terminates_witness :
  let path := "/etc/dnsmasq.d" in
  SshUtil.mkdirAllInternal 100 path (mkHost ∅ true 0, SshUtil.mkSession true true)
  = SshUtil.mkdirAllInternal (String.length path) path (mkHost ∅ true 0, SshUtil.mkSession true true).
Proof.
  apply (SshUtil.mkdirAllInternal_terminates 100 "/etc/dnsmasq.d"). apply Nat.leb_le. reflexivity.
Defined.

Lemma ssh_missing_file_is_an_error_witness :
  let fs := DnsmasqSsh.transport_fs ssh_config in
  (∃ e, (@client_Create Remote fs client web (lost ∅ 1)).1 = inr e) ∧
  DnsmasqSsh.transport_file conf (@client_Create Remote fs client web (lost ∅ 1)).2 = None.
Proof.
  destruct (DnsmasqSsh.ssh_missing_file_is_an_error ssh_config client web (lost ∅ 1)) as (_ & H1 & _ & H2);
    [vm_compute; reflexivity|]. split; [exact H1|exact H2].
Defined.

Lemma reload_not_retried_witness :
  DnsmasqSsh.isConnectionError (ENew "EOF") = true ∧
  (DnsmasqSsh.transport_runner ssh_config "reload" (mkHost ∅ true 1, SshUtil.mkSession true true, true)).1
  = inr (ENew "command failed with exit code 1: ").
Proof.
  split; [reflexivity|].
  rewrite (DnsmasqSsh.reload_not_retried ssh_config "reload" (ENew "EOF") true (mkHost ∅ true 1)
    (mkHost ∅ true 1) (mkHost ∅ false 1)); reflexivity.
Defined.

(** The whole life of an instance on a local disk: two records are created,
    one is deleted, and the list is what is left. *)
Definition provider : DProvider := mkDProvider "dns" conf "" "example.com" 300 true client.

#[local] Instance no_runner : CommandRunner Disk := λ _, mret tt.

Definition dns_record (r : dnsmasqRecord) : DNSRecord := toProviderRecord provider r.

Example life :
  let create r d := (dp_Create provider (dns_record r) d).2 in
  let d := (dp_Delete provider (dns_record app1) (create web (create app1 (mkDisk ∅ true)))).2 in
  (dp_List provider d).1 = inl [dns_record web].
Proof. vm_compute. reflexivity. Qed.
