(* ===== verification/SourceTraefik.v ===== *)
(** * The Traefik source (sources/traefik)

    Hostnames from the rules of Traefik routers: in labels (parser.go), in
    configuration files (file_discovery.go), as a source (traefik.go).  The
    YAML and TOML libraries and the file system are the interface
    [ConfigFiles]; logging is left out. *)
From S2P Require Import Prelude GoStrings Errors Workload Hostname ProviderTypes GoMaps Effects.
From S2P Require Import SourceRegistry IO FilePath.

(** ** Rules (parser.go) *)

Definition routerLabelPrefix : string := "traefik.http.routers.".
Definition routerRuleSuffix : string := ".rule".
Definition routerEntryPointsSuffix : string := ".entrypoints".
Definition MetadataKeyEntryPoint : string := "traefik.entrypoint".

Record HostnameExtraction := mkExtraction {
  he_Hostname : string;
  he_Router : string;
  he_EntryPoint : string
}.

#[export] Instance HostnameExtraction_eq_dec : EqDecision HostnameExtraction.
Proof. solve_decision. Defined.

(** The field of the parser. *)
Record Parser := mkParser { p_defaultEntryPoints : list string }.

Definition backtick : ascii := "`".

(** A match of [hostRegex], [Host\(`([^`]+)`\)], at the start of a text: the
    captured text. *)
Definition host_at (s : string) : option string :=
  if HasPrefix s "Host(`" then
    match Cut backtick (str_drop 6 s) with
    | Some (host, rest) => if (host != "") && HasPrefix rest ")" then Some host else None
    | None => None
    end
  else None.

(** [FindAllStringSubmatch]: the leftmost matches, without overlaps; [skip]
    bytes are part of the last match. *)
Fixpoint find_hosts (skip : nat) (s : string) : list string :=
  match s with
  | EmptyString => []
  | String _ s' =>
      match skip with
      | S skip => find_hosts skip s'
      | O =>
          match host_at s with
          | Some host => host :: find_hosts (String.length host + 7) s'
          | None => find_hosts 0 s'
          end
      end
  end.

Definition extractHostsFromRule (rule : string) : list string :=
  emit_all id (List.filter (λ h, h != "") (map TrimSpace (find_hosts 0 rule))).

Definition extractRouterWithSuffix (key suffix : string) : string :=
  if negb (HasPrefix key routerLabelPrefix) then ""
  else if negb (HasSuffix key suffix) then ""
  else
    let withoutPrefix := TrimPrefix key routerLabelPrefix in
    let withoutSuffix := TrimSuffix withoutPrefix suffix in
    if withoutSuffix == "" then ""
    else if Contains withoutSuffix "." then ""
    else withoutSuffix.

Definition extractRouterName (key : string) : string :=
  extractRouterWithSuffix key routerRuleSuffix.
Definition extractRouterFromEntryPointsLabel (key : string) : string :=
  extractRouterWithSuffix key routerEntryPointsSuffix.

Definition splitAndTrim (value : string) : list string :=
  List.filter (λ p, p != "") (map TrimSpace (Split "," value)).

(** One extraction for each host and entry point, one without an entry point
    for a router that has none. *)
Definition fan_out (p : Parser) (router : string) (hosts entryPoints : list string)
  : list HostnameExtraction :=
  let entryPoints :=
    if (length entryPoints =? 0)%nat && (0 <? length (p_defaultEntryPoints p))%nat
    then p_defaultEntryPoints p else entryPoints in
  flat_map (λ hostname,
    if (length entryPoints =? 0)%nat then [mkExtraction hostname router ""]
    else map (mkExtraction hostname router) entryPoints) hosts.

Definition seenKey (e : HostnameExtraction) : string * string := (he_Hostname e, he_EntryPoint e).

(** The shape of a configuration file: [config.HTTP] and its routers; a router
    whose entry in the file is empty is a nil pointer. *)
Record traefikRouter := mkRouter { tr_Rule : string; tr_EntryPoints : list string }.

Record traefikFileConfig := mkFileConfig {
  fc_Routers : nilable (nilable (gmap string (nilable traefikRouter)))
}.

(** The files and the libraries that read them: [os.Stat] gives [IsDir],
    [WalkDir] the paths below a directory that are not directories, [Done] the
    error of a context that has ended. *)
Class ConfigFiles (W : Type) := {
  cf_Stat : string → IO W bool;
  cf_IsNotExist : error → bool;
  cf_WalkDir : string → IO W (list string);
  cf_ReadFile : string → IO W string;
  cf_Done : IO W unit;
  yaml_Unmarshal : string → traefikFileConfig + error;
  toml_Unmarshal : string → traefikFileConfig + error
}.

Section Labels.
Context `{MapOrder}.

(** The first pass. *)
Definition entryPointsStep (m : gmap string (list string)) (kv : string * string)
  : gmap string (list string) :=
  let router := extractRouterFromEntryPointsLabel kv.1 in
  if router == "" then m
  else
    let eps := splitAndTrim kv.2 in
    if (0 <? length eps)%nat then <[router := eps]> m else m.

Definition routerEntryPoints (labels : gmap string string) : gmap string (list string) :=
  fold_left entryPointsStep (range labels) ∅.

(** What the second pass makes of one label. *)
Definition ruleExtractions (p : Parser) (eps : gmap string (list string)) (kv : string * string)
  : list HostnameExtraction :=
  let router := extractRouterName kv.1 in
  if router == "" then []
  else fan_out p router (extractHostsFromRule kv.2) (default [] (eps !! router)).

Definition ExtractHostnames (p : Parser) (labels : gmap string string) : list HostnameExtraction :=
  let eps := routerEntryPoints labels in
  emit_all seenKey (flat_map (ruleExtractions p eps) (range labels)).

Definition ExtractHosts (p : Parser) (labels : gmap string string) : list string :=
  map he_Hostname (ExtractHostnames p labels).

(** ** Configuration files (file_discovery.go) *)

(** [None] is the nil dereference of such a router. *)
Fixpoint routersExtractions (p : Parser) (routers : list (string * nilable traefikRouter))
  : option (list HostnameExtraction) :=
  match routers with
  | [] => Some []
  | (_, None) :: _ => None
  | (routerName, Some router) :: routers =>
      let here := if tr_Rule router == "" then []
                  else fan_out p routerName (extractHostsFromRule (tr_Rule router))
                         (tr_EntryPoints router) in
      match routersExtractions p routers with
      | None => None
      | Some rest => Some (here ++ rest)
      end
  end.

Definition extractFromConfig (p : Parser) (config : traefikFileConfig)
  : option (list HostnameExtraction) :=
  match fc_Routers config with
  | None | Some None => Some []
  | Some (Some routers) => routersExtractions p (range routers)
  end.
Definition matchesAnyPattern (name : string) (patterns : list string) : bool :=
  existsb (λ pattern, match filepath_Match pattern name with
                      | Some matched => matched
                      | None => false
                      end) patterns.

Section Files.
Context {W : Type} `{ConfigFiles W} (p : Parser).

Definition findFilesInDir (dir : string) (patterns : list string) : IO W (list string) :=
  paths ← io_wrap (EWrapf ("walking directory " ++s dir ++s ": ")) (cf_WalkDir dir);
  mret (List.filter (λ path, matchesAnyPattern (filepath_Base path) patterns) paths).

(** The files of the configured paths. *)
Fixpoint findFiles (paths patterns : list string) : IO W (list string) :=
  match paths with
  | [] => mret []
  | path :: paths =>
      info ← io_try (cf_Stat path);
      match info with
      | inr err =>
          if cf_IsNotExist err then findFiles paths patterns
          else io_fail (EWrapf ("stat " ++s path ++s ": ") err)
      | inl isDir =>
          files ← (if (isDir : bool) then findFilesInDir path patterns
                   else mret (if matchesAnyPattern (filepath_Base path) patterns then [path] else []));
          rest ← findFiles paths patterns;
          mret (files ++ rest)
      end
  end.

(** [parseYAMLFile] and [parseTOMLFile]. *)
Definition parseFile (what : string) (unmarshal : string → traefikFileConfig + error)
    (path : string) : IO W (option (list HostnameExtraction)) :=
  data ← io_wrap (EWrapf "reading file: ") (cf_ReadFile path);
  config ← io_wrap (EWrapf ("parsing " ++s what ++s ": ")) (io_lift (unmarshal data));
  mret (extractFromConfig p config).

Definition parseConfigFile (path : string) : IO W (option (list HostnameExtraction)) :=
  let ext := ToLower (filepath_Ext path) in
  if ext == ".toml" then parseFile "TOML" toml_Unmarshal path
  else parseFile "YAML" yaml_Unmarshal path.

(** The extractions of all files; [None] is a panic in one of them. *)
Fixpoint parseFiles (files : list string) : IO W (option (list HostnameExtraction)) :=
  match files with
  | [] => mret (Some [])
  | file :: files =>
      _ ← cf_Done;
      extractions ← io_try (parseConfigFile file);
      match extractions with
      | inr _ => parseFiles files
      | inl None => mret None
      | inl (Some here) =>
          rest ← parseFiles files;
          mret (match rest with Some rest => Some (here ++ rest) | None => None end)
      end
  end.

Definition DiscoverFromFiles (paths : list string) (pattern : string)
  : IO W (option (list HostnameExtraction)) :=
  let patterns := map TrimSpace (Split "," pattern) in
  allFiles ← findFiles paths patterns;
  all ← parseFiles allFiles;
  mret (emit_all seenKey <$> all).
End Files.

(** ** The source (traefik.go, pkg/source/discovery.go) *)

Definition sourceName : string := "traefik".
Definition DefaultFilePattern : string := "*.yml,*.yaml,*.toml".

Definition entryPointMetadata (entrypoint : string) : gmap string string :=
  if entrypoint == "" then ∅ else {[ MetadataKeyEntryPoint := entrypoint ]}.

Definition toHostname (e : HostnameExtraction) : Hostname :=
  mkHostname (he_Hostname e) sourceName (he_Router e) None (entryPointMetadata (he_EntryPoint e)).

Definition Extract (p : Parser) (w : Workload) : list Hostname + error :=
  if (size (w_Labels w) =? 0)%nat then inl []
  else inl (map toHostname (ExtractHostnames p (w_Labels w))).

Definition WithFileDiscovery (c : FileDiscoveryConfig) : FileDiscoveryConfig :=
  mkDiscovery (FilePaths c) (if FilePattern c == "" then DefaultFilePattern else FilePattern c)
    (PollInterval c) (WatchMethod c).

Definition Discover {W} `{ConfigFiles W} (p : Parser) (c : FileDiscoveryConfig)
  : IO W (option (list Hostname)) :=
  if negb (IsEnabled c) then mret (Some [])
  else
    hostnames ← DiscoverFromFiles p (FilePaths c) (FilePattern c);
    mret (map toHostname <$> hostnames).

(** The source; the interface has no panics: one reads as an error here. *)
Definition traefik {W} `{ConfigFiles W} (p : Parser) (c : FileDiscoveryConfig) : Source W :=
  mkSource sourceName (Extract p)
    (λ w, match Discover p c w with
          | (inl (Some hostnames), w) => (inl hostnames, w)
          | (inl None, w) => (inr (ENew "runtime error: invalid memory address or nil pointer dereference"), w)
          | (inr err, w) => (inr err, w)
          end)
    (IsEnabled c) [].

(** [New] with the file configuration and the default entry points. *)
Definition New {W} `{ConfigFiles W} (c : FileDiscoveryConfig) (defaultEntryPoints : list string)
  : Source W := traefik (mkParser defaultEntryPoints) c.
End Labels.

(** ** Rules *)

(** Hosts with text between them: what a rule looks like to the parser. *)
Fixpoint rule_text (l : list (string * string)) (tail : string) : string :=
  match l with
  | [] => tail
  | (sep, host) :: l => sep ++s "Host(`" ++s host ++s "`)" ++s rule_text l tail
  end.

Definition host_ok (h : string) : Prop :=
  h ≠ "" ∧ plain h ∧ str_contains_byte backtick h = false.

(** A match cannot start in one text and end in the next. *)
Lemma host_prefix_inside s r :
  s ≠ "" → HasPrefix (s ++s "Host(`" ++s r) "Host(`" = true → HasPrefix s "Host(`" = true.
Proof.
  intros Hs [t E]%HasPrefix_spec. apply HasPrefix_spec.
  do 6 (destruct s as [|? s]; [try done; simpl in E; discriminate|]).
  simpl in E. injection E as -> -> -> -> -> -> _. by exists s.
Qed.

Lemma host_prefix_end s : HasPrefix s "Host(`" = true → Contains s "Host(`" = true.
Proof. apply Contains_prefix. Qed.

Lemma host_at_None s : HasPrefix s "Host(`" = false → host_at s = None.
Proof. intros E. unfold host_at. by rewrite E. Qed.

Lemma find_hosts_tail s : Contains s "Host(`" = false → find_hosts 0 s = [].
Proof.
  induction s as [|c s IH]; [done|]. intros E. cbn [find_hosts].
  rewrite host_at_None; [|destruct (HasPrefix _ _) eqn:Hp; [|done]; by rewrite host_prefix_end in E].
  apply IH. cbn [Contains] in E. by apply orb_false_iff in E as [_ E].
Qed.

Lemma find_hosts_sep s r :
  Contains s "Host(`" = false → find_hosts 0 (s ++s "Host(`" ++s r) = find_hosts 0 ("Host(`" ++s r).
Proof.
  induction s as [|c s IH]; [done|]. intros E. rewrite app_cons. cbn [find_hosts].
  rewrite host_at_None.
  - apply IH. cbn [Contains] in E. by apply orb_false_iff in E as [_ E].
  - destruct (HasPrefix _ _) eqn:Hp; [|done]. rewrite <- app_cons in Hp.
    apply host_prefix_inside in Hp; [|done]. by rewrite host_prefix_end in E.
Qed.

Lemma find_hosts_skip s r : find_hosts (String.length s) (s ++s r) = find_hosts 0 r.
Proof. induction s as [|c s IH]; [done|]. by rewrite app_cons. Qed.

Lemma find_hosts_host h r :
  host_ok h → find_hosts 0 ("Host(`" ++s h ++s "`)" ++s r) = h :: find_hosts 0 r.
Proof.
  intros (Hne & _ & Hb).
  assert (host_at ("Host(`" ++s h ++s "`)" ++s r) = Some h) as E.
  { unfold host_at. rewrite HasPrefix_app. change 6 with (String.length "Host(`").
    rewrite str_drop_app. change ("`)" ++s r) with (String backtick (")" ++s r)).
    rewrite Cut_app by done. rewrite HasPrefix_app. by case_eqb. }
  change ("Host(`" ++s h ++s "`)" ++s r) with (String "H" ("ost(`" ++s h ++s "`)" ++s r)) in E |- *.
  cbn [find_hosts]. rewrite E. f_equal.
  replace ("ost(`" ++s h ++s "`)" ++s r) with (("ost(`" ++s h ++s "`)") ++s r)
    by by rewrite !app_assoc_s.
  replace (String.length h + 7) with (String.length ("ost(`" ++s h ++s "`)"))
    by (rewrite !length_app_s; change (String.length "ost(`") with 5;
        change (String.length "`)") with 2; lia).
  apply find_hosts_skip.
Qed.

(** C31. The hosts of a rule are found.  Whatever stands between, before and after
    them, as long as it does not itself start a host, the hosts of a rule are
    extracted in order, each once. *)
Theorem rule_hosts l tail :
  Forall (λ sh, Contains sh.1 "Host(`" = false ∧ host_ok sh.2) l → Contains tail "Host(`" = false →
  extractHostsFromRule (rule_text l tail) = emit_all id (map snd l).
Proof.
  intros Hl Ht. unfold extractHostsFromRule.
  assert (find_hosts 0 (rule_text l tail) = map snd l) as ->.
  { induction Hl as [|[sep h] l [Hs Hh] Hl IH]; simpl rule_text; [by apply find_hosts_tail|].
    rewrite find_hosts_sep, find_hosts_host, IH by done. done. }
  f_equal. clear Ht. induction Hl as [|[sep h] l [_ (Hne & Hp & _)] Hl IH]; [done|].
  simpl in *. rewrite TrimSpace_plain by done. by case_eqb; rewrite IH.
Qed.

(** Negation is not seen, and a host with two names is none. *)
Example negated_host : extractHostsFromRule "PathPrefix(`/x`) && !Host(`a.com`)" = ["a.com"].
Proof. reflexivity. Qed.
Example two_names : extractHostsFromRule "Host(`a.com`, `b.com`)" = [].
Proof. reflexivity. Qed.
Example empty_host : extractHostsFromRule "Host(``) || Host(`   `) || HostRegexp(`x`)" = [].
Proof. reflexivity. Qed.

(** ** Labels *)

Definition router_label (router suffix : string) : string := routerLabelPrefix ++s router ++s suffix.
Definition router_ok (router : string) : Prop := router ≠ "" ∧ Contains router "." = false.

Lemma Contains_one c s : Contains s (String c "") = str_contains_byte c s.
Proof.
  induction s as [|d s IH]; [done|]. cbn [Contains str_contains_byte]. rewrite IH. f_equal.
  unfold HasPrefix. cbn [String.prefix]. destruct (ascii_dec c d) as [->|Hne].
  - rewrite Ascii.eqb_refl. by destruct s.
  - symmetry. by apply Ascii.eqb_neq.
Qed.

(** What follows the last dot. *)
Lemma last_dot_inj a b t w :
  str_contains_byte "." t = false → str_contains_byte "." w = false →
  a ++s "." ++s t = b ++s "." ++s w → t = w.
Proof.
  intros Ht Hw. revert b. induction a as [|c a IH]; intros [|d b] E.
  - by injection E.
  - injection E as _ E. change (t = b ++s "." ++s w) in E. subst t.
    by rewrite !str_contains_byte_app, orb_true_r in Ht.
  - injection E as _ E. change (a ++s "." ++s t = w) in E. subst w.
    by rewrite !str_contains_byte_app, orb_true_r in Hw.
  - injection E as _ E. by apply (IH b).
Qed.

(** Which router a label names: besides the labels of routers, the label in
    which the prefix and the suffix share their dot. *)
Lemma extractRouter_spec key w r :
  router_ok w →
  extractRouterWithSuffix key ("." ++s w) = r ∧ r ≠ "" ↔
  (router_ok r ∧ key = router_label r ("." ++s w)) ∨ (r = w ∧ key = routerLabelPrefix ++s w).
Proof.
  intros [Hw Hdot]. unfold extractRouterWithSuffix, router_label. split.
  - intros [E Hr]. destruct (HasPrefix key routerLabelPrefix) eqn:Hp; [|by subst].
    apply HasPrefix_spec in Hp as [t ->]. cbn [negb] in E.
    destruct (HasSuffix _ _) eqn:Hs; [|by subst]. cbn [negb] in E. rewrite TrimPrefix_app in E.
    destruct (TrimSuffix t ("." ++s w) == "") eqn:E1; [by subst|].
    destruct (Contains (TrimSuffix t ("." ++s w)) ".") eqn:E2; [by subst|]. subst r.
    destruct (TrimSuffix_cases t ("." ++s w)) as [(p & -> & Hc)|[_ Hc]]; rewrite Hc in *; [by left|].
    right. apply HasSuffix_spec in Hs as [q Hq]. rewrite Contains_one in E2, Hdot.
    change routerLabelPrefix with ("traefik.http.routers" ++s ".") in Hq. rewrite app_assoc_s in Hq.
    by rewrite (last_dot_inj _ _ _ _ E2 Hdot Hq).
  - intros [[[Hr Hrd] ->]|[-> ->]].
    + rewrite HasPrefix_app, <- app_assoc_s, HasSuffix_app, app_assoc_s, TrimPrefix_app, TrimSuffix_app.
      cbn [negb]. rewrite Hrd. by case_eqb.
    + rewrite HasPrefix_app. change routerLabelPrefix with ("traefik.http.routers" ++s ".") at 1.
      rewrite app_assoc_s, HasSuffix_app, TrimPrefix_app. cbn [negb].
      rewrite TrimSuffix_id; [by rewrite Hdot; case_eqb|].
      destruct (HasSuffix w _) eqn:E; [|done]. apply HasSuffix_spec in E as [q E].
      apply (f_equal String.length) in E. rewrite !length_app_s in E. simpl in E. lia.
Qed.

Section LabelTheorems.
Implicit Types (p : Parser) (labels : gmap string string).

(** The label [traefik.http.routers.entrypoints], which the parser takes for
    a router called [entrypoints]. *)
Definition stray_entrypoints : string := routerLabelPrefix ++s "entrypoints".

Lemma entryPointsStep_lookup m kv router :
  router_ok router → kv.1 ≠ stray_entrypoints →
  entryPointsStep m kv !! router =
  if bool_decide (kv.1 = router_label router routerEntryPointsSuffix)
     && (0 <? length (splitAndTrim kv.2))%nat
  then Some (splitAndTrim kv.2) else m !! router.
Proof.
  intros Hr Hk. unfold entryPointsStep.
  assert (router_ok "entrypoints") as Hok by by split.
  pose proof (extractRouter_spec kv.1 "entrypoints") as Hs.
  case_bool_decide as Hkey; cbn [andb].
  - assert (extractRouterFromEntryPointsLabel kv.1 = router ∧ router ≠ "") as [-> ?].
    { apply (Hs router Hok). left. by split. }
    case_eqb. destruct (0 <? _)%nat; [apply lookup_insert_eq|done].
  - case_eqb; [done|]. destruct (0 <? _)%nat; [|done]. rewrite lookup_insert_ne; [done|]. intros E.
    destruct (Hs router Hok) as [[[_ ?]|[_ ?]] _]; [|done..].
    split; [exact E|]. apply Hr.
Qed.

Lemma fold_entryPoints l m router :
  router_ok router → NoDup (map fst l) → stray_entrypoints ∉ map fst l →
  fold_left entryPointsStep l m !! router =
  match (list_to_map l : gmap string string) !! router_label router routerEntryPointsSuffix with
  | Some v => if (0 <? length (splitAndTrim v))%nat then Some (splitAndTrim v) else m !! router
  | None => m !! router
  end.
Proof.
  intros Hr. revert m. induction l as [|[k v] l IH]; intros m Hn Hs; [done|].
  simpl in Hn, Hs. apply NoDup_cons in Hn as [Hk Hn]. apply not_elem_of_cons in Hs as [Hks Hs].
  cbn [fold_left list_to_map foldr]. rewrite IH by done.
  rewrite entryPointsStep_lookup by done. cbn [fst snd].
  destruct (decide (k = router_label router routerEntryPointsSuffix)) as [->|Hne].
  - rewrite bool_decide_eq_true_2 by done.
    rewrite lookup_insert_eq, (not_elem_of_list_to_map_1 l) by done. done.
  - rewrite bool_decide_eq_false_2, lookup_insert_ne by done. done.
Qed.

(** The entry points that a router is bound to: those of its label, else the
    defaults, else the wildcard. *)
Definition declared labels (router : string) : list string :=
  match labels !! router_label router routerEntryPointsSuffix with
  | Some v => splitAndTrim v
  | None => []
  end.

Definition bound_to p (declared : list string) : list string :=
  match declared, p_defaultEntryPoints p with
  | [], [] => [""]
  | [], eps => eps
  | eps, _ => eps
  end.

Lemma routerEntryPoints_spec `{MapOrder} labels router :
  router_ok router → labels !! stray_entrypoints = None →
  default [] (routerEntryPoints labels !! router) = declared labels router.
Proof.
  intros Hr Hs. unfold routerEntryPoints, declared.
  rewrite fold_entryPoints; [|done|apply NoDup_range_keys|].
  - rewrite list_to_map_range, lookup_empty. destruct (labels !! router_label _ _) as [v|]; [|done].
    by destruct (splitAndTrim v).
  - intros Hin. apply elem_of_range_keys in Hin as [? Hin]. congruence.
Qed.

Lemma fan_out_pairs p router hosts eps :
  ∀ h ep, (h, ep) ∈ map seenKey (fan_out p router hosts eps) ↔ h ∈ hosts ∧ ep ∈ bound_to p eps.
Proof.
  intros h ep. unfold fan_out.
  set (l := if (length eps =? 0)%nat && _ then p_defaultEntryPoints p else eps).
  assert (bound_to p eps = if (length l =? 0)%nat then [""] else l) as ->.
  { subst l. unfold bound_to. by destruct eps, (p_defaultEntryPoints p). }
  induction hosts as [|x hosts IH]; cbn [flat_map map]; [set_solver|].
  rewrite map_app, elem_of_app, IH, elem_of_cons.
  assert ((h, ep) ∈ map seenKey (if (length l =? 0)%nat then [mkExtraction x router ""]
                                 else map (mkExtraction x router) l)
          ↔ h = x ∧ ep ∈ (if (length l =? 0)%nat then [""] else l)) as ->; [|tauto].
  destruct (length l =? 0)%nat; cbn [map]; [unfold seenKey; set_solver|].
  rewrite map_map. unfold seenKey. rewrite list_elem_of_fmap. cbn. naive_solver.
Qed.

Lemma fan_out_router p router hosts eps e : e ∈ fan_out p router hosts eps → he_Router e = router.
Proof.
  unfold fan_out. induction hosts as [|h hosts IH]; cbn [flat_map]; [set_solver|].
  rewrite elem_of_app. intros [He|He]; [|by apply IH]. revert He.
  destruct (length _ =? 0)%nat.
  - by intros ->%list_elem_of_singleton.
  - by intros (ep & -> & _)%list_elem_of_fmap.
Qed.

Lemma extractRouterName_ok key : extractRouterName key ≠ "" → router_ok (extractRouterName key).
Proof.
  intros Hr. assert (router_ok "rule") as Hok by by split.
  destruct (extractRouter_spec key "rule" (extractRouterName key) Hok) as [[[? _]|[-> _]] _];
    [by split|done..].
Qed.

Lemma elem_of_flat_map {A B} (f : A → list B) l b : b ∈ flat_map f l ↔ ∃ a, a ∈ l ∧ b ∈ f a.
Proof.
  induction l as [|a l IH]; cbn [flat_map]; [set_solver|]. rewrite elem_of_app, IH. set_solver.
Qed.

(** What Traefik labels mean.  Whatever order the labels are visited in, the
    extractions are one for each pair of a host in the rule of a router and an
    entry point the router is bound to (declared, else the defaults, else the
    wildcard), no pair twice. *)
Theorem ExtractHostnames_spec `{MapOrder} p labels :
  labels !! stray_entrypoints = None →
  NoDup (map seenKey (ExtractHostnames p labels)) ∧
  ∀ host ep, (host, ep) ∈ map seenKey (ExtractHostnames p labels) ↔
    ∃ key rule, labels !! key = Some rule ∧ extractRouterName key ≠ "" ∧
      host ∈ extractHostsFromRule rule ∧
      ep ∈ bound_to p (declared labels (extractRouterName key)).
Proof.
  intros Hs. unfold ExtractHostnames.
  destruct (emit_all_spec seenKey (flat_map (ruleExtractions p (routerEntryPoints labels)) (range labels)))
    as (Hn & Hk & _).
  split; [done|]. intros host ep. rewrite Hk, list_elem_of_fmap. setoid_rewrite elem_of_flat_map.
  assert (∀ key rule, (∃ e, (host, ep) = seenKey e ∧
      e ∈ ruleExtractions p (routerEntryPoints labels) (key, rule)) ↔
    extractRouterName key ≠ "" ∧ host ∈ extractHostsFromRule rule ∧
    ep ∈ bound_to p (declared labels (extractRouterName key))) as Hrule.
  { intros key rule. unfold ruleExtractions. cbn [fst snd]. case_eqb; [set_solver|].
    rewrite <- list_elem_of_fmap, fan_out_pairs, routerEntryPoints_spec; [naive_solver| |done].
    by apply extractRouterName_ok. }
  split.
  - intros (e & E & [key rule] & Hin%elem_of_range & He). exists key, rule. split; [done|].
    apply Hrule. by exists e.
  - intros (key & rule & Hin & He%Hrule). destruct He as (e & E & He). exists e. split; [done|].
    exists (key, rule). by rewrite elem_of_range.
Qed.

(** A panic on an empty router.  A configuration file in which some router
    has no body makes the parser dereference a nil pointer. *)
Theorem empty_router_panics `{MapOrder} p routers :
  extractFromConfig p (mkFileConfig (Some (Some routers))) = None ↔
  ∃ name, routers !! name = Some None.
Proof.
  cbn [extractFromConfig fc_Routers].
  assert (routersExtractions p (range routers) = None ↔ ∃ name, (name, None) ∈ range routers) as ->.
  { induction (range routers) as [|[name [r|]] l IH]; cbn [routersExtractions].
    - split; [done|]. set_solver.
    - destruct (routersExtractions p l) as [rest|].
      + split; [done|]. intros [n [?|Hin]%elem_of_cons]; [done|].
        assert (Some rest = None); [|done]. apply IH. by exists n.
      + split; [|done]. intros _. destruct (proj1 IH eq_refl) as [n Hin]. exists n. by right.
    - split; [|done]. intros _. exists name. by left. }
  by setoid_rewrite elem_of_range.
Qed.
End LabelTheorems.

Lemma ExtractHostnames_spec_witness :
  let labels : gmap string string :=
    {[ "traefik.http.routers.app.rule" := "Host(`app.example.com`)";
       "traefik.http.routers.app.entrypoints" := "web, websecure" ]} in
  let p := mkParser ["internal"] in
  (∃ key rule, labels !! key = Some rule ∧ extractRouterName key ≠ "" ∧
     "app.example.com" ∈ extractHostsFromRule rule ∧
     "websecure" ∈ bound_to p (declared labels (extractRouterName key))).
Proof.
  intros labels p. apply (ExtractHostnames_spec (H:=key_order) p labels); [reflexivity|].
  vm_compute. right. left.
Defined.

Lemma rule_hosts_witness :
  extractHostsFromRule "(Host(`a.com`) || Host(`b.com`)) && PathPrefix(`/`) || Host(`a.com`)"
  = ["a.com"; "b.com"].
Proof.
  apply (rule_hosts [("(", "a.com"); (" || ", "b.com"); (") && PathPrefix(`/`) || ", "a.com")] "").
  - repeat constructor; done.
  - reflexivity.
Defined.
