(* ===== verification/SourceNative.v ===== *)
(** * The native source (sources/dnsweaver)

    Hostnames and record hints from the labels [dnsweaver.*] (parser.go), for
    Kubernetes also from annotations (dnsweaver.go).  Logging is left out; a
    nil metadata map is the empty one. *)
From S2P Require Import Prelude GoStrings Errors Workload Hostname ProviderTypes GoMaps Effects.
From S2P Require Import SourceRegistry.
From Stdlib Require Import ZArith.

(** ** The parser (parser.go) *)

Definition SimpleHostnameLabel : string := "dnsweaver.hostname".
Definition SimpleHostnamesLabel : string := "dnsweaver.hostnames".
Definition EnabledLabel : string := "dnsweaver.enabled".
Definition TTLLabel : string := "dnsweaver.ttl".
Definition ProxiedLabel : string := "dnsweaver.proxied".
Definition RecordsPrefix : string := "dnsweaver.records.".
Definition FieldHostname : string := "hostname".
Definition FieldType : string := "type".
Definition FieldTarget : string := "target".
Definition FieldProvider : string := "provider".
Definition FieldTTL : string := "ttl".
Definition FieldPort : string := "port".
Definition FieldPriority : string := "priority".
Definition FieldWeight : string := "weight".
Definition FieldEnabled : string := "enabled".
Definition FieldProxied : string := "proxied".
Definition MetaPrefix : string := "meta.".

Record SRVData := mkSRVData { srv_Port : Z; srv_Priority : Z; srv_Weight : Z }.

Record Extraction := mkExtraction {
  ex_Hostname : string;
  ex_RecordName : string;
  ex_Type : string;
  ex_Target : string;
  ex_Provider : string;
  ex_TTL : Z;
  ex_SRV : nilable SRVData;
  ex_Metadata : gmap string string
}.

Definition HasHints (e : Extraction) : bool :=
  (ex_Type e != "") || (ex_Target e != "") || (ex_Provider e != "") || (0 <? ex_TTL e)%Z
  || match ex_SRV e with Some _ => true | None => false end
  || (0 <? size (ex_Metadata e))%nat.

Definition name_class (c : ascii) : bool :=
  is_lower c || is_upper c || is_digit c || Ascii.eqb c "_" || Ascii.eqb c "-".
Definition field_class (c : ascii) : bool := name_class c || Ascii.eqb c ".".

(** The groups of [namedRecordRegex],
    [^dnsweaver\.records\.([a-zA-Z0-9_-]+)\.([a-zA-Z0-9_.-]+)$]: the first
    group ends at the first dot. *)
Definition namedRecord (key : string) : option (string * string) :=
  if HasPrefix key RecordsPrefix then
    match Cut "." (TrimPrefix key RecordsPrefix) with
    | Some (name, field) =>
        if (name != "") && str_forallb name_class name && (field != "") && str_forallb field_class field
        then Some (name, field) else None
    | None => None
    end
  else None.

(** A TTL that is a positive number, else 0. *)
Definition parse_ttl (s : string) : Z :=
  match Atoi s with Some ttl => if (0 <? ttl)%Z then ttl else 0%Z | None => 0%Z end.

Definition label_ttl (labels : gmap string string) : Z :=
  match labels !! TTLLabel with
  | Some s => if s != "" then parse_ttl (TrimSpace s) else 0%Z
  | None => 0%Z
  end.

(** The value of a proxied setting when it is a boolean. *)
Definition proxied_meta (setting : option string) : gmap string string :=
  match setting with
  | Some s =>
      let proxied := TrimSpace (ToLower s) in
      if (s != "") && ((proxied == "true") || (proxied == "false"))
      then {[ FieldProxied := proxied ]} else ∅
  | None => ∅
  end.

Definition simple (labels : gmap string string) (hostname : string) : Extraction :=
  mkExtraction hostname "" "" "" "" (label_ttl labels) None (proxied_meta (labels !! ProxiedLabel)).

Definition simpleHostname (labels : gmap string string) : list Extraction :=
  match labels !! SimpleHostnameLabel with
  | Some hostname =>
      let hostname := TrimSpace hostname in
      if hostname != "" then [simple labels hostname] else []
  | None => []
  end.

Definition listedHostnames (labels : gmap string string) : list Extraction :=
  match labels !! SimpleHostnamesLabel with
  | Some hostnames =>
      map (simple labels) (List.filter (λ h, h != "") (map TrimSpace (Split "," hostnames)))
  | None => []
  end.

(** A 16-bit number in a field: it is set, and its value when it is valid. *)
Definition field_uint16 (fields : gmap string string) (field : string) : option Z :=
  match fields !! field with
  | Some s => if s != "" then ParseUint 16 s else None
  | None => None
  end.

Definition srvData (fields : gmap string string) (type : string) : nilable SRVData :=
  if (type == "SRV") || (default "" (fields !! FieldPort) != "") then
    let port := field_uint16 fields FieldPort in
    let priority := field_uint16 fields FieldPriority in
    let weight := field_uint16 fields FieldWeight in
    match port, priority, weight with
    | None, None, None => None
    | _, _, _ => Some (mkSRVData (default 0%Z port) (default 0%Z priority) (default 0%Z weight))
    end
  else None.

(** One field that may be metadata; a direct field wins. *)
Definition metaStep (m : gmap string string) (kv : string * string) : gmap string string :=
  if negb (HasPrefix kv.1 MetaPrefix) then m
  else
    let key := TrimPrefix kv.1 MetaPrefix in
    if key == "" then m
    else match m !! key with Some _ => m | None => <[key := kv.2]> m end.

Section Parser.
Context `{MapOrder}.

Definition recordExtraction (nf : string * gmap string string) : option Extraction :=
  let '(name, fields) := nf in
  let disabled := match fields !! FieldEnabled with
                  | Some enabled => EqualFold (TrimSpace enabled) "false"
                  | None => false
                  end in
  if disabled then None
  else
    let hostname := default "" (fields !! FieldHostname) in
    if hostname == "" then None
    else
      let type := ToUpper (default "" (fields !! FieldType)) in
      let ttl := match fields !! FieldTTL with
                 | Some s => if s != "" then parse_ttl s else 0%Z
                 | None => 0%Z
                 end in
      Some (mkExtraction hostname name type (default "" (fields !! FieldTarget))
              (default "" (fields !! FieldProvider)) ttl (srvData fields type)
              (fold_left metaStep (range fields) (proxied_meta (fields !! FieldProxied)))).

(** The fields of the named records. *)
Definition collectStep (m : gmap string (gmap string string)) (kv : string * string)
  : gmap string (gmap string string) :=
  match namedRecord kv.1 with
  | None => m
  | Some (recordName, field) =>
      <[recordName := <[ToLower field := TrimSpace kv.2]> (default ∅ (m !! recordName))]> m
  end.

Definition namedRecords (labels : gmap string string) : gmap string (gmap string string) :=
  fold_left collectStep (range labels) ∅.

Definition labelsDisabled (labels : gmap string string) : bool :=
  match labels !! EnabledLabel with
  | Some enabled => EqualFold (TrimSpace enabled) "false"
  | None => false
  end.

Definition ExtractHostnames (labels : gmap string string) : list Extraction :=
  if labelsDisabled labels then []
  else
    simpleHostname labels ++ listedHostnames labels
    ++ omap recordExtraction (range (namedRecords labels)).

(** ** The source (dnsweaver.go) *)

Definition sourceName : string := "dnsweaver".
Definition k8sAnnotationPrefix : string := "dnsweaver.dev/".
Definition labelPrefix : string := "dnsweaver.".

Definition convertStep (m : gmap string string) (kv : string * string) : gmap string string :=
  if negb (HasPrefix kv.1 k8sAnnotationPrefix) then m
  else <[labelPrefix ++s TrimPrefix kv.1 k8sAnnotationPrefix := kv.2]> m.

(** The merge takes a label over an annotation; without annotations of its
    own it is the labels. *)
Definition effectiveLabels (w : Workload) : gmap string string :=
  if negb (IsKubernetes w) || (size (w_Annotations w) =? 0)%nat then w_Labels w
  else
    let converted := fold_left convertStep (range (w_Annotations w)) ∅ in
    w_Labels w ∪ converted.

Definition toHostname (e : Extraction) : Hostname :=
  mkHostname (ex_Hostname e) sourceName (ex_RecordName e)
    (if HasHints e then
       Some (mkRecordHints (ex_Type e) (ex_Target e) (ex_TTL e) (ex_Provider e)
               (match ex_SRV e with
                | Some srv => Some (mkSRVHints (srv_Priority srv) (srv_Weight srv) (srv_Port srv))
                | None => None
                end) (ex_Metadata e))
     else None) ∅.

Definition Extract (w : Workload) : list Hostname + error :=
  let effective := effectiveLabels w in
  if (size effective =? 0)%nat then inl []
  else inl (map toHostname (ExtractHostnames effective)).

Definition dnsweaver {W} : Source W :=
  mkSource sourceName Extract (λ w, (inl [], w)) false [].
End Parser.

(** ** Named records *)
Section Named.
Implicit Types (labels fields : gmap string string).

Definition field_at (m : gmap string (gmap string string)) (name field : string) : option string :=
  m !! name ≫= λ fields, fields !! field.

(** The label says something about a field of a record. *)
Definition hits (name field key : string) : bool :=
  match namedRecord key with
  | Some (n, f) => (n == name) && (ToLower f == field)
  | None => false
  end.

Lemma collectStep_field m kv name field :
  field_at (collectStep m kv) name field =
  if hits name field kv.1 then Some (TrimSpace kv.2) else field_at m name field.
Proof.
  unfold collectStep, hits, field_at. destruct (namedRecord kv.1) as [[n f]|]; [|done].
  destruct (String.eqb_spec n name) as [->|Hn]; cbn [andb].
  - rewrite lookup_insert_eq. cbn. destruct (String.eqb_spec (ToLower f) field) as [->|Hf].
    + by rewrite lookup_insert_eq.
    + rewrite lookup_insert_ne by done. by destruct (m !! name).
  - by rewrite lookup_insert_ne by done.
Qed.

Lemma fold_collect_field l m name field :
  (∀ kv kv', kv ∈ l → kv' ∈ l → hits name field kv.1 → hits name field kv'.1 → kv = kv') →
  ∀ v, field_at (fold_left collectStep l m) name field = Some v ↔
    (∃ kv, kv ∈ l ∧ hits name field kv.1 ∧ v = TrimSpace kv.2) ∨
    ((∀ kv, kv ∈ l → ¬ hits name field kv.1) ∧ field_at m name field = Some v).
Proof.
  revert m. induction l as [|kv l IH]; intros m Hu v; cbn [fold_left]; [set_solver|].
  rewrite IH by (intros; apply Hu; set_solver). rewrite collectStep_field.
  destruct (hits name field kv.1) eqn:Ekv.
  - split.
    + intros [(kv' & Hin & Hh & ->)|[Hno [= <-]]]; left; [exists kv'|exists kv]; set_solver.
    + intros [(kv' & [->|Hin]%elem_of_cons & Hh & ->)|[Hno _]].
      * destruct (existsb (λ kv, hits name field kv.1) l) eqn:Ex.
        -- apply existsb_elem in Ex as (kv' & Hin & Hh').
           assert (kv = kv') as -> by (apply Hu; [by left|by right|by rewrite Ekv|by rewrite Hh']).
           left. exists kv'. by rewrite Hh'.
        -- right. split; [|done]. intros kv' Hin. rewrite (proj1 (existsb_not_elem _ _) Ex kv' Hin). auto.
      * left. exists kv'. set_solver.
      * exfalso. apply (Hno kv); [set_solver|]. by rewrite Ekv.
  - split.
    + intros [(kv' & Hin & Hh & ->)|[Hno Hv]]; [left; exists kv'; set_solver|right].
      split; [|done]. intros kv' [->|Hin]%elem_of_cons; [rewrite Ekv; by intros []|by apply Hno].
    + intros [(kv' & [->|Hin]%elem_of_cons & Hh & ->)|[Hno Hv]].
      * by rewrite Ekv in Hh.
      * left. by exists kv'.
      * right. split; [|done]. intros kv' Hin. apply Hno. set_solver.
Qed.

(** No two labels differ only in the case of a field. *)
Definition distinct_fields labels : Prop :=
  ∀ k1 k2 name field, is_Some (labels !! k1) → is_Some (labels !! k2) →
    hits name field k1 → hits name field k2 → k1 = k2.

Lemma namedRecords_field `{MapOrder} labels name field v :
  distinct_fields labels →
  field_at (namedRecords labels) name field = Some v ↔
  ∃ key value, labels !! key = Some value ∧ hits name field key ∧ v = TrimSpace value.
Proof.
  intros Hd. unfold namedRecords. rewrite fold_collect_field.
  - split.
    + intros [([key value] & Hin%elem_of_range & Hh & ->)|[_ E]]; [by exists key, value|done].
    + intros (key & value & Hin & Hh & ->). left. exists (key, value). by rewrite elem_of_range.
  - intros [k1 v1] [k2 v2] H1%elem_of_range H2%elem_of_range Hh1 Hh2.
    assert (k1 = k2) as -> by (by apply (Hd k1 k2 name field)). congruence.
Qed.

Lemma fold_collect_nonempty l m :
  (∀ name fields, m !! name = Some fields → fields ≠ ∅) →
  ∀ name fields, fold_left collectStep l m !! name = Some fields → fields ≠ ∅.
Proof.
  revert m. induction l as [|kv l IH]; intros m Hm; cbn [fold_left]; [done|]. apply IH.
  intros name fields. unfold collectStep. destruct (namedRecord kv.1) as [[n f]|]; [|apply Hm].
  destruct (decide (n = name)) as [->|Hn].
  - rewrite lookup_insert_eq. intros [= <-]. apply insert_non_empty.
  - rewrite lookup_insert_ne by done. apply Hm.
Qed.

(** Two collections with the same fields are the same. *)
Lemma field_at_ext m1 m2 :
  (∀ name fields, m1 !! name = Some fields → fields ≠ ∅) →
  (∀ name fields, m2 !! name = Some fields → fields ≠ ∅) →
  (∀ name field, field_at m1 name field = field_at m2 name field) → m1 = m2.
Proof.
  intros H1 H2 Hf. apply map_eq. intros name. specialize (Hf name). unfold field_at in Hf.
  destruct (m1 !! name) as [f1|] eqn:E1, (m2 !! name) as [f2|] eqn:E2; cbn in Hf.
  - f_equal. apply map_eq, Hf.
  - exfalso. apply (H1 _ _ E1). by apply map_eq.
  - exfalso. apply (H2 _ _ E2). apply map_eq. intros k. by rewrite <- Hf.
  - done.
Qed.

Lemma namedRecords_order (o1 o2 : MapOrder) labels :
  distinct_fields labels → @namedRecords o1 labels = @namedRecords o2 labels.
Proof.
  intros Hd. apply field_at_ext; [by apply fold_collect_nonempty..|].
  intros name field. apply option_eq. intros v. by rewrite !namedRecords_field.
Qed.

(** The metadata of a record: its direct fields, then the [meta.] fields. *)
Lemma fold_meta l m k :
  NoDup (map fst l) →
  fold_left metaStep l m !! k =
  match m !! k with
  | Some v => Some v
  | None => if k == "" then None else (list_to_map l : gmap string string) !! (MetaPrefix ++s k)
  end.
Proof.
  revert m. induction l as [|[k' v'] l IH]; intros m Hn; cbn [fold_left].
  { destruct (m !! k); [done|]. by destruct (k == ""). }
  simpl in Hn. apply NoDup_cons in Hn as [Hk Hn]. rewrite IH by done. unfold metaStep. cbn [fst snd].
  cbn [list_to_map foldr]. cbn [fst snd].
  destruct (HasPrefix k' MetaPrefix) eqn:Hp; cbn [negb].
  - apply HasPrefix_spec in Hp as [t ->]. rewrite TrimPrefix_app.
    destruct (String.eqb_spec t "") as [->|Ht].
    + destruct (m !! k); [done|]. destruct (String.eqb_spec k "") as [E|Hk']; [done|].
      rewrite lookup_insert_ne; [done|]. by intros ?%app_inj_prefix.
    + destruct (decide (t = k)) as [->|Hne].
      * rewrite lookup_insert_eq. apply String.eqb_neq in Ht. rewrite Ht.
        destruct (m !! k) eqn:Em; [by rewrite Em|]. by rewrite lookup_insert_eq.
      * rewrite (lookup_insert_ne (list_to_map l)) by (by intros ?%app_inj_prefix).
        destruct (m !! t); [done|]. by rewrite lookup_insert_ne.
  - destruct (m !! k); [done|]. destruct (k == ""); [done|]. rewrite lookup_insert_ne; [done|].
    intros ->. by rewrite HasPrefix_app in Hp.
Qed.

Lemma meta_spec `{MapOrder} fields m k :
  fold_left metaStep (range fields) m !! k =
  match m !! k with
  | Some v => Some v
  | None => if k == "" then None else fields !! (MetaPrefix ++s k)
  end.
Proof. rewrite fold_meta by apply NoDup_range_keys. by rewrite list_to_map_range. Qed.

Lemma recordExtraction_order (o1 o2 : MapOrder) nf :
  @recordExtraction o1 nf = @recordExtraction o2 nf.
Proof.
  destruct nf as [name fields]. unfold recordExtraction.
  destruct (match fields !! FieldEnabled with Some _ => _ | None => _ end); [done|].
  destruct (default "" (fields !! FieldHostname) == ""); [done|]. do 2 f_equal.
  apply map_eq. intros k. by rewrite !meta_spec.
Qed.
End Named.

(** ** Labels written and read *)
Section Roundtrip.
Implicit Types (r : Extraction).

Definition trimmed (s : string) : Prop := TrimSpace s = s.

(** The fields and the labels of a named record. *)
Definition record_fields r : gmap string string :=
  <[FieldHostname := ex_Hostname r]> (<[FieldType := ex_Type r]> (<[FieldTarget := ex_Target r]>
    (<[FieldProvider := ex_Provider r]> (<[FieldTTL := itoa (ex_TTL r)]>
      ((match ex_SRV r with
        | Some srv => {[ FieldPort := itoa (srv_Port srv); FieldPriority := itoa (srv_Priority srv);
                         FieldWeight := itoa (srv_Weight srv) ]}
        | None => ∅
        end : gmap string string) ∪ kmap (String.append MetaPrefix) (ex_Metadata r)))))).

Definition field_label (name field : string) : string := RecordsPrefix ++s name ++s "." ++s field.

Definition record_labels r : gmap string string :=
  kmap (field_label (ex_RecordName r)) (record_fields r).

(** The records that labels can say. *)
Definition uint16 (z : Z) : Prop := (0 ≤ z < 2 ^ 16)%Z.
Definition field_ok (field : string) : Prop :=
  field ≠ "" ∧ str_forallb field_class field = true ∧ ToLower field = field.

Record record_ok r : Prop := {
  ok_name : ex_RecordName r ≠ "" ∧ str_forallb name_class (ex_RecordName r) = true;
  ok_hostname : ex_Hostname r ≠ "" ∧ trimmed (ex_Hostname r);
  ok_type : ToUpper (ex_Type r) = ex_Type r ∧ trimmed (ex_Type r);
  ok_target : trimmed (ex_Target r);
  ok_provider : trimmed (ex_Provider r);
  ok_ttl : (0 ≤ ex_TTL r < 2 ^ 63)%Z;
  ok_srv srv : ex_SRV r = Some srv → uint16 (srv_Port srv) ∧ uint16 (srv_Priority srv) ∧ uint16 (srv_Weight srv);
  ok_meta : map_Forall (λ k v, field_ok k ∧ trimmed v) (ex_Metadata r)
}.

#[local] Instance append_inj p : Inj (=) (=) (String.append p).
Proof. intros s t. apply app_inj_prefix. Qed.
#[local] Instance field_label_inj name : Inj (=) (=) (field_label name).
Proof. intros s t E%app_inj_prefix%app_inj_prefix. by apply (app_inj_prefix "."). Qed.

Lemma namedRecord_label name field :
  name ≠ "" → str_forallb name_class name = true → field_ok field →
  namedRecord (field_label name field) = Some (name, field).
Proof.
  intros Hne Hn (Hf & Hc & _). unfold namedRecord, field_label.
  rewrite HasPrefix_app, TrimPrefix_app.
  change ("." ++s field) with (String "." field).
  rewrite Cut_app; [|by apply (not_contains_byte name_class)].
  rewrite Hn, Hc. by repeat case_eqb.
Qed.

(** A field of the record, looked up. *)
Lemma meta_lookup_None r field :
  HasPrefix field MetaPrefix = false →
  (kmap (String.append MetaPrefix) (ex_Metadata r) : gmap string string) !! field = None.
Proof.
  intros Hp. apply lookup_kmap_None; [apply _|]. intros k ->.
  change (MetaPrefix +:+ k) with (MetaPrefix ++s k) in Hp. by rewrite HasPrefix_app in Hp.
Qed.

Lemma record_field_ok r field value :
  record_ok r → record_fields r !! field = Some value → field_ok field ∧ trimmed value.
Proof.
  intros Hok. pose proof (TrimSpace_plain _ (itoa_plain (ex_TTL r))) as Httl.
  destruct Hok as [_ [_ Hh] [_ Ht] Htg Hp _ _ Hm]. unfold record_fields.
  repeat (rewrite lookup_insert_Some; intros [[<- <-]|[_ H]];
    [split; [repeat split; done|done]|revert H]).
  rewrite lookup_union_Some_raw. intros [H|[_ H]].
  - destruct (ex_SRV r) as [srv|]; [|done].
    repeat (rewrite lookup_insert_Some in H; destruct H as [[<- <-]|[_ H]];
      [split; [repeat split; done|apply TrimSpace_plain, itoa_plain]|]).
    rewrite lookup_singleton_Some in H. destruct H as [<- <-].
    split; [repeat split; done|apply TrimSpace_plain, itoa_plain].
  - rewrite lookup_kmap_Some in H by apply _. destruct H as (k & -> & H).
    destruct (Hm _ _ H) as [(Hk1 & Hk2 & Hk3) Hv]. split; [|done].
    change (MetaPrefix +:+ k) with (MetaPrefix ++s k). split_and!; [done| |].
    + by rewrite str_forallb_app, Hk2.
    + by rewrite ToLower_app, Hk3.
Qed.

Lemma record_label_hits r field :
  record_ok r → is_Some (record_fields r !! field) →
  ∀ name f, hits name f (field_label (ex_RecordName r) field) ↔ name = ex_RecordName r ∧ f = field.
Proof.
  intros Hok [v Hv] name f. destruct (record_field_ok _ _ _ Hok Hv) as [Hf _].
  destruct (ok_name _ Hok) as [Hn1 Hn2]. unfold hits. rewrite namedRecord_label by done.
  destruct Hf as (_ & _ & ->). rewrite <- (String.eqb_eq name), <- (String.eqb_eq f).
  rewrite (String.eqb_sym (ex_RecordName r)), (String.eqb_sym field).
  destruct (name == ex_RecordName r), (f == field); simpl; naive_solver.
Qed.

Lemma record_labels_distinct r : record_ok r → distinct_fields (record_labels r).
Proof.
  intros Hok k1 k2 name f [v1 H1] [v2 H2]. unfold record_labels in *.
  rewrite lookup_kmap_Some in H1, H2 by apply _.
  destruct H1 as (f1 & -> & H1), H2 as (f2 & -> & H2).
  intros Hh1 Hh2.
  apply (record_label_hits r f1 Hok (mk_is_Some _ _ H1)) in Hh1 as [_ ->].
  by apply (record_label_hits r f2 Hok (mk_is_Some _ _ H2)) in Hh2 as [_ ->].
Qed.

Lemma record_fields_read `{MapOrder} r :
  record_ok r → namedRecords (record_labels r) = {[ ex_RecordName r := record_fields r ]}.
Proof.
  intros Hok. apply field_at_ext.
  - by apply fold_collect_nonempty.
  - intros name fields [<- <-]%lookup_singleton_Some. apply insert_non_empty.
  - intros name f. apply option_eq. intros v.
    rewrite namedRecords_field by by apply record_labels_distinct. unfold field_at. split.
    + intros (key & value & Hk & Hh & ->). unfold record_labels in Hk.
      rewrite lookup_kmap_Some in Hk by apply _. destruct Hk as (f' & -> & Hk).
      apply record_label_hits in Hh as [-> ->]; [|done|by eexists].
      destruct (record_field_ok _ _ _ Hok Hk) as [_ ->]. rewrite lookup_singleton_eq. exact Hk.
    + destruct (decide (name = ex_RecordName r)) as [->|Hne].
      * rewrite lookup_singleton_eq. cbn. intros Hv. exists (field_label (ex_RecordName r) f), v.
        unfold record_labels. rewrite lookup_kmap by apply _. split_and!; [done| |].
        -- by apply record_label_hits; [|eexists|].
        -- by destruct (record_field_ok _ _ _ Hok Hv) as [_ ->].
      * by rewrite lookup_singleton_ne.
Qed.

Lemma record_labels_None r key :
  HasPrefix key RecordsPrefix = false → record_labels r !! key = None.
Proof.
  intros Hp. unfold record_labels. apply lookup_kmap_None; [apply _|]. intros f ->.
  unfold field_label in Hp. by rewrite HasPrefix_app in Hp.
Qed.

(** The fields read back. *)
Lemma read_srv r :
  record_ok r → srvData (record_fields r) (ex_Type r) = ex_SRV r.
Proof.
  intros Hok.
  assert (∀ f, f = FieldPort ∨ f = FieldPriority ∨ f = FieldWeight →
    record_fields r !! f =
    (match ex_SRV r with
     | Some srv => {[ FieldPort := itoa (srv_Port srv); FieldPriority := itoa (srv_Priority srv);
                      FieldWeight := itoa (srv_Weight srv) ]}
     | None => ∅
     end : gmap string string) !! f) as Hl.
  { intros f Hf. unfold record_fields.
    destruct Hf as [->|[->| ->]]; repeat (rewrite lookup_insert_ne by done);
      rewrite lookup_union, meta_lookup_None by done; by rewrite (right_id_L None _). }
  assert (∀ f z, record_fields r !! f = Some (itoa z) → uint16 z → field_uint16 (record_fields r) f = Some z)
    as Hu.
  { intros f z E Hz. unfold field_uint16. rewrite E, ParseUint_itoa by done.
    pose proof (itoa_nonempty z). by case_eqb. }
  assert (∀ f, record_fields r !! f = None → field_uint16 (record_fields r) f = None) as Hn
    by (intros f E; unfold field_uint16; by rewrite E).
  unfold srvData. destruct (ex_SRV r) as [[port priority weight]|] eqn:Es.
  - destruct (ok_srv _ Hok _ Es) as (H1 & H2 & H3). cbn [srv_Port srv_Priority srv_Weight] in *.
    rewrite (Hu FieldPort port), (Hu FieldPriority priority), (Hu FieldWeight weight)
      by (done || by rewrite Hl by tauto).
    assert ((default "" (record_fields r !! FieldPort) != "") = true) as ->; [|by rewrite orb_true_r].
    rewrite Hl by tauto. pose proof (itoa_nonempty port).
    change ((itoa port != "") = true). by case_eqb.
  - rewrite !Hn by (by rewrite Hl by tauto). by destruct (_ || _).
Qed.

Lemma read_meta `{MapOrder} r :
  record_ok r → fold_left metaStep (range (record_fields r)) ∅ = ex_Metadata r.
Proof.
  intros Hok. apply map_eq. intros k. rewrite meta_spec, lookup_empty.
  destruct (String.eqb_spec k "") as [->|Hk].
  - destruct (ex_Metadata r !! "") as [v|] eqn:E; [|done].
    by destruct (ok_meta _ Hok _ _ E) as [[? _] _].
  - unfold record_fields. repeat (rewrite lookup_insert_ne by done).
    rewrite lookup_union. change (MetaPrefix ++s k) with (MetaPrefix +:+ k).
    rewrite (lookup_kmap (String.append MetaPrefix)).
    assert ((match ex_SRV r with
     | Some srv => {[ FieldPort := itoa (srv_Port srv); FieldPriority := itoa (srv_Priority srv);
                      FieldWeight := itoa (srv_Weight srv) ]}
     | None => ∅
     end : gmap string string) !! (MetaPrefix +:+ k) = None) as ->; [|by rewrite (left_id_L None _)].
    by destruct (ex_SRV r).
Qed.

(** C32. What the labels of a record say is read.  Every named record, written as
    labels, is extracted again with its hints, its SRV data and its metadata,
    and nothing else is, whatever order the labels are visited in. *)
Theorem record_labels_roundtrip `{MapOrder} r :
  record_ok r → ExtractHostnames (record_labels r) = [r].
Proof.
  intros Hok. unfold ExtractHostnames, labelsDisabled, simpleHostname, listedHostnames.
  rewrite !record_labels_None by done. cbn [app]. rewrite record_fields_read by done.
  assert (range {[ex_RecordName r := record_fields r]} = [(ex_RecordName r, record_fields r)]) as ->.
  { apply Permutation_singleton_r. by rewrite range_perm, map_to_list_singleton. }
  cbn [omap list_omap]. unfold recordExtraction.
  assert (record_fields r !! FieldEnabled = None ∧ record_fields r !! FieldProxied = None) as [-> ->].
  { unfold record_fields. repeat (rewrite lookup_insert_ne by done).
    rewrite !lookup_union, !meta_lookup_None by done. by destruct (ex_SRV r). }
  assert (record_fields r !! FieldHostname = Some (ex_Hostname r)
    ∧ record_fields r !! FieldType = Some (ex_Type r)
    ∧ record_fields r !! FieldTarget = Some (ex_Target r)
    ∧ record_fields r !! FieldProvider = Some (ex_Provider r)
    ∧ record_fields r !! FieldTTL = Some (itoa (ex_TTL r))) as (-> & -> & -> & -> & ->).
  { unfold record_fields.
    split_and!; repeat first [rewrite lookup_insert_eq; done|rewrite lookup_insert_ne by done]. }
  unfold default, from_option, id. destruct (ok_hostname _ Hok) as [Hh _].
  apply String.eqb_neq in Hh. rewrite Hh. destruct (ok_type _ Hok) as [Ht _]. rewrite Ht.
  rewrite read_srv by done. unfold proxied_meta. rewrite read_meta by done.
  assert ((if itoa (ex_TTL r) != "" then parse_ttl (itoa (ex_TTL r)) else 0%Z) = ex_TTL r) as ->.
  { pose proof (itoa_nonempty (ex_TTL r)). case_eqb. cbn [negb]. unfold parse_ttl.
    rewrite Atoi_itoa by apply Hok. pose proof (ok_ttl _ Hok). destruct (Z.ltb_spec 0 (ex_TTL r)); lia. }
  by destruct r.
Qed.
End Roundtrip.

(** ** Order *)

(** The other direction through every map. *)
Definition reverse_order (o : MapOrder) : MapOrder.
Proof.
  refine {| range A m := rev (@range o A m) |}. intros A m. rewrite rev_alt, rev_append_rev, app_nil_r.
  by rewrite <- Permutation_rev, range_perm.
Defined.

Section Order.
Implicit Types (labels : gmap string string).

Lemma omap_records o1 o2 labels :
  distinct_fields labels →
  omap (@recordExtraction o1) (@range o1 _ (@namedRecords o1 labels))
  ≡ₚ omap (@recordExtraction o2) (@range o2 _ (@namedRecords o2 labels)).
Proof.
  intros Hd. rewrite (namedRecords_order o1 o2) by done.
  assert (∀ l, omap (@recordExtraction o1) l = omap (@recordExtraction o2) l) as ->.
  { intros l. induction l as [|nf l IH]; [done|]. cbn. by rewrite (recordExtraction_order o1 o2), IH. }
  by rewrite !range_perm.
Qed.

(** The extracted records do not depend on the order of the labels, as long as
    no two labels differ only in the case of a field: two orders give the
    same extractions, up to their order. *)
Theorem ExtractHostnames_order o1 o2 labels :
  distinct_fields labels → @ExtractHostnames o1 labels ≡ₚ @ExtractHostnames o2 labels.
Proof.
  intros Hd. unfold ExtractHostnames. destruct (labelsDisabled labels); [done|].
  by do 2 apply Permutation_app_head; apply omap_records.
Qed.

(** The order of the records is the order of the map: reversed, the records
    come in the opposite order. *)
Lemma records_follow_order o labels :
  distinct_fields labels →
  ∃ plain records, @ExtractHostnames o labels = plain ++ records ∧
    @ExtractHostnames (reverse_order o) labels = plain ++ rev records.
Proof.
  intros Hd. unfold ExtractHostnames. destruct (labelsDisabled labels); [by exists [], []|].
  exists (simpleHostname labels ++ listedHostnames labels), (omap (@recordExtraction o) (range (namedRecords labels))).
  rewrite <- !app_assoc. split; [done|]. do 2 f_equal.
  rewrite (namedRecords_order (reverse_order o) o) by done. unfold range at 1. cbn [reverse_order].
  generalize (range (namedRecords labels)) as l. induction l as [|nf l IH]; [done|].
  cbn [rev]. rewrite omap_app, IH. cbn. rewrite (recordExtraction_order (reverse_order o) o).
  destruct (recordExtraction nf); [done|]. by rewrite app_nil_r.
Qed.
End Order.

(** ** What can be extracted *)
Section Wellformed.
Context `{MapOrder}.
Implicit Types (labels : gmap string string).

Lemma parse_ttl_bounds s : (0 ≤ parse_ttl s < 2 ^ 63)%Z.
Proof.
  unfold parse_ttl. destruct (Atoi s) as [v|] eqn:E; [|lia]. apply Atoi_bounds in E.
  destruct (Z.ltb_spec 0 v); lia.
Qed.

Lemma field_uint16_bounds fields f : uint16 (default 0%Z (field_uint16 fields f)).
Proof.
  unfold field_uint16, uint16. destruct (fields !! f) as [s|]; [|done].
  destruct (s != ""); [|done]. destruct (ParseUint 16 s) as [v|] eqn:E; [|done].
  by apply ParseUint_bounds in E.
Qed.

(** Extractions are well formed.  Every extraction has a hostname, a TTL that
    is 0 or a positive 64-bit number, and SRV numbers of 16 bits; the type of
    a record is in upper case. *)
Theorem extraction_wellformed labels e :
  e ∈ ExtractHostnames labels →
  ex_Hostname e ≠ "" ∧ (0 ≤ ex_TTL e < 2 ^ 63)%Z ∧
  (∀ srv, ex_SRV e = Some srv → uint16 (srv_Port srv) ∧ uint16 (srv_Priority srv) ∧ uint16 (srv_Weight srv)) ∧
  ∃ type, ex_Type e = ToUpper type.
Proof.
  assert (∀ h, h ≠ "" → ∀ e, e = simple labels h → ex_Hostname e ≠ "" ∧ (0 ≤ ex_TTL e < 2 ^ 63)%Z ∧
    (∀ srv, ex_SRV e = Some srv → uint16 (srv_Port srv) ∧ uint16 (srv_Priority srv) ∧ uint16 (srv_Weight srv)) ∧
    ∃ type, ex_Type e = ToUpper type) as Hsimple.
  { intros h Hh e' ->. split_and!; [done|..|done|by exists ""].
    all: cbn [simple ex_TTL]; unfold label_ttl; destruct (labels !! TTLLabel) as [s|]; [|lia];
      destruct (s != ""); [apply parse_ttl_bounds|lia]. }
  unfold ExtractHostnames. destruct (labelsDisabled labels); [set_solver|]. rewrite !elem_of_app.
  intros [Hin|[Hin|Hin]].
  - unfold simpleHostname in Hin. destruct (labels !! _) as [h|]; [|set_solver].
    destruct (String.eqb_spec (TrimSpace h) "") as [|Hne]; [set_solver|].
    apply list_elem_of_singleton in Hin. by apply (Hsimple (TrimSpace h)).
  - unfold listedHostnames in Hin. destruct (labels !! _) as [hs|]; [|set_solver].
    apply list_elem_of_fmap in Hin as (h & -> & Hin). apply elem_of_list_filter in Hin as [_ Hh].
    apply negb_true_iff, String.eqb_neq in Hh. by apply (Hsimple h).
  - apply list_elem_of_omap in Hin as ([name fields] & _ & E). unfold recordExtraction in E.
    destruct (match fields !! FieldEnabled with Some _ => _ | None => _ end); [done|].
    destruct (String.eqb_spec (default "" (fields !! FieldHostname)) "") as [|Hne]; [done|].
    injection E as <-. cbn [ex_Hostname ex_TTL ex_SRV ex_Type]. split_and!; [done|..|by eexists].
    1-2: destruct (fields !! FieldTTL) as [s|]; [|lia]; destruct (s != ""); [apply parse_ttl_bounds|lia].
    intros srv. unfold srvData. destruct (_ || _); [|done].
    pose proof (field_uint16_bounds fields FieldPort). pose proof (field_uint16_bounds fields FieldPriority).
    pose proof (field_uint16_bounds fields FieldWeight).
    by destruct (field_uint16 fields FieldPort), (field_uint16 fields FieldPriority),
      (field_uint16 fields FieldWeight); intros [= <-].
Qed.

(** Annotations stand for labels on Kubernetes, where a label of the same
    name wins; elsewhere they are not read. *)
Theorem effectiveLabels_spec w x :
  effectiveLabels w !! (labelPrefix ++s x) =
  match w_Labels w !! (labelPrefix ++s x) with
  | Some v => Some v
  | None => if IsKubernetes w then w_Annotations w !! (k8sAnnotationPrefix ++s x) else None
  end.
Proof.
  unfold effectiveLabels. destruct (IsKubernetes w); cbn [negb orb]; [|by destruct (w_Labels w !! _)].
  destruct (Nat.eqb_spec (size (w_Annotations w)) 0) as [E|_].
  { apply map_size_empty_inv in E. rewrite E, lookup_empty. by destruct (w_Labels w !! _). }
  rewrite lookup_union. set (conv := fold_left _ _ _).
  assert (conv !! (labelPrefix ++s x) = w_Annotations w !! (k8sAnnotationPrefix ++s x)) as ->;
    [|by destruct (w_Labels w !! _), (w_Annotations w !! _)].
  subst conv. rewrite <- (list_to_map_range (w_Annotations w)) at 2.
  assert (∀ l m, NoDup (map fst l) → fold_left convertStep l m !! (labelPrefix ++s x) =
    match (list_to_map l : gmap string string) !! (k8sAnnotationPrefix ++s x) with
    | Some v => Some v | None => m !! (labelPrefix ++s x) end) as Hfold.
  { intros l. induction l as [|[k v] l IH]; intros m Hn; [done|]. cbn [fold_left list_to_map foldr].
    simpl in Hn. apply NoDup_cons in Hn as [Hk Hn]. rewrite IH by done. unfold convertStep. cbn [fst snd].
    destruct (HasPrefix k k8sAnnotationPrefix) eqn:Hp; cbn [negb].
    - apply HasPrefix_spec in Hp as [t ->]. rewrite TrimPrefix_app. destruct (decide (t = x)) as [->|Hne].
      + rewrite !lookup_insert_eq. by rewrite (not_elem_of_list_to_map_1 l).
      + rewrite !lookup_insert_ne; [done|by intros ?%app_inj_prefix..].
    - rewrite (lookup_insert_ne (list_to_map l)); [done|]. intros ->. by rewrite HasPrefix_app in Hp. }
  rewrite Hfold by apply NoDup_range_keys. by destruct (_ !! _).
Qed.
End Wellformed.
