(* ===== verification/SourceLists.v ===== *)
(** * The Caddy and nginx-proxy sources (sources/caddy, sources/nginxproxy)

    Both read lists of hostnames from the values of a few labels, visited in
    the order of their names.  Logging is left out. *)
From S2P Require Import Prelude GoStrings Errors Workload Hostname ProviderTypes GoMaps Effects.
From S2P Require Import SourceRegistry.

Record Extraction := mkExtraction { ex_Hostname : string; ex_Router : string }.

#[export] Instance Extraction_eq_dec : EqDecision Extraction.
Proof. solve_decision. Defined.

(** ** Shared: the lists in labels

    The two packages have the same [splitHostnames], the same loop over sorted
    keys and the same conversion; they differ in the keys. *)
Definition is_separator (c : ascii) : bool :=
  Ascii.eqb c "," || Ascii.eqb c " " || Ascii.eqb c "009" || Ascii.eqb c "010".

Definition splitHostnames (value : string) : list string :=
  if value == "" then []
  else List.filter (λ h, h != "")
         (map (λ f, ToLower (TrimSpace f)) (FieldsFunc is_separator value)).

Definition label_extractions (labels : gmap string string) (key : string) : list Extraction :=
  map (λ host, mkExtraction host key) (splitHostnames (default "" (labels !! key))).

Definition extract_keys (labels : gmap string string) (keys : list string) : list Extraction :=
  emit_all ex_Hostname (flat_map (label_extractions labels) (sort_Strings keys)).

Definition toHostname (sourceName : string) (e : Extraction) : Hostname :=
  mkHostname (ex_Hostname e) sourceName (ex_Router e) None ∅.

(** [Extract] of both packages. *)
Definition extract_labels (sourceName : string) (parse : gmap string string → list Extraction)
    (w : Workload) : list Hostname + error :=
  if (size (w_Labels w) =? 0)%nat then inl []
  else inl (map (toHostname sourceName) (parse (w_Labels w))).

(** ** Caddy *)
Module Caddy.
Definition sourceName : string := "caddy".
Definition labelName : string := "caddy".
Definition labelPrefix : string := "caddy_".

Definition isCaddyHostnameLabel (key : string) : bool :=
  (key == labelName) || HasPrefix key labelPrefix.

Definition ExtractHostnames `{MapOrder} (labels : gmap string string) : list Extraction :=
  extract_keys labels (List.filter isCaddyHostnameLabel (range_keys labels)).

Definition Extract `{MapOrder} : Workload → list Hostname + error :=
  extract_labels sourceName ExtractHostnames.

Definition caddy `{MapOrder} {W} : Source W :=
  mkSource sourceName Extract (λ w, (inl [], w)) false [].
End Caddy.

(** ** nginx-proxy *)
Module NginxProxy.
Definition sourceName : string := "nginx-proxy".
Definition virtualHostLabel : string := "VIRTUAL_HOST".
Definition canonicalLabel : string := "com.nginx-proxy.virtual_host".

Definition ExtractHostnames (labels : gmap string string) : list Extraction :=
  extract_keys labels
    (List.filter (λ key, match labels !! key with Some _ => true | None => false end)
       [virtualHostLabel; canonicalLabel]).

Definition Extract : Workload → list Hostname + error :=
  extract_labels sourceName ExtractHostnames.

Definition nginx_proxy {W} : Source W :=
  mkSource sourceName Extract (λ w, (inl [], w)) false [].
End NginxProxy.

(** ** Properties *)
Section Lists.
Implicit Types (labels : gmap string string).

Lemma label_extraction_hostnames labels keys host :
  host ∈ map ex_Hostname (flat_map (label_extractions labels) keys) ↔
  ∃ key, key ∈ keys ∧ host ∈ splitHostnames (default "" (labels !! key)).
Proof.
  induction keys as [|key keys IH]; cbn [flat_map map]; [set_solver|].
  rewrite map_app, elem_of_app, IH. unfold label_extractions. rewrite map_map. cbn. rewrite map_id.
  set_solver.
Qed.

Lemma extract_keys_spec labels keys host :
  host ∈ map ex_Hostname (extract_keys labels keys) ↔
  ∃ key, key ∈ keys ∧ host ∈ splitHostnames (default "" (labels !! key)).
Proof.
  unfold extract_keys. destruct (emit_all_spec ex_Hostname (flat_map (label_extractions labels) (sort_Strings keys)))
    as (_ & -> & _). rewrite label_extraction_hostnames. by setoid_rewrite sort_perm.
Qed.

(** Caddy labels are read the same every time: the result is a function of
    the labels, whatever order the map is visited in, and has every hostname
    of the values of the hostname labels once. *)
Theorem caddy_deterministic labels :
  (∀ o1 o2, @Caddy.ExtractHostnames o1 labels = @Caddy.ExtractHostnames o2 labels) ∧
  ∀ o, NoDup (map ex_Hostname (@Caddy.ExtractHostnames o labels)) ∧
    ∀ host, host ∈ map ex_Hostname (@Caddy.ExtractHostnames o labels) ↔
      ∃ key value, labels !! key = Some value ∧ Caddy.isCaddyHostnameLabel key = true ∧
        host ∈ splitHostnames value.
Proof.
  split.
  - intros o1 o2. unfold Caddy.ExtractHostnames, extract_keys.
    assert (∀ f (l l' : list string), l ≡ₚ l' → List.filter f l ≡ₚ List.filter f l') as Hf.
    { intros f. induction 1; simpl; repeat case_match; try done; try constructor; eauto.
      all: etrans; eauto. }
    by rewrite (sort_unique _ (List.filter Caddy.isCaddyHostnameLabel (@range_keys o2 _ labels)))
      by (apply Hf; unfold range_keys; by rewrite !range_perm).
  - intros o. split.
    + apply (emit_all_spec ex_Hostname).
    + intros host. unfold Caddy.ExtractHostnames. rewrite extract_keys_spec.
      setoid_rewrite elem_of_list_filter. setoid_rewrite elem_of_range_keys. split.
      * intros (key & [[value Hv] Hk] & Hh). rewrite Hv in Hh. by exists key, value.
      * intros (key & value & Hv & Hk & Hh). exists key. rewrite Hv.
        split; [split; [by eexists|done]|done].
Qed.

(** Hostnames in lists come out in lower case, without separators or outer
    white space. *)
Lemma splitHostnames_lower value h : h ∈ splitHostnames value → h ≠ "" ∧ ToLower h = h.
Proof.
  unfold splitHostnames. case_eqb; [set_solver|]. rewrite elem_of_list_filter.
  intros [(f & -> & _)%list_elem_of_fmap Hne]. split; [|apply ToLower_idem].
  apply negb_true_iff, String.eqb_neq in Hne. done.
Qed.
End Lists.

Example caddy_1 :
  @Caddy.ExtractHostnames key_order
    {[ "caddy_1" := "B.example.com, a.example.com"; "caddy" := "a.example.com
x.example.com"; "caddy.tls" := "internal" ]}
  = [mkExtraction "a.example.com" "caddy"; mkExtraction "x.example.com" "caddy";
     mkExtraction "b.example.com" "caddy_1"].
Proof. by vm_compute. Qed.
