(* ===== verification/SourcePlatforms.v ===== *)
(** * The Kubernetes, Proxmox and Incus sources (sources/kubernetes,
    sources/proxmox, sources/incus)

    Kubernetes workloads come with their hostnames and take hints from
    annotations; Proxmox and Incus guests get one hostname each, made from
    their name.  Logging is left out; a nil metadata map is the empty one. *)
From S2P Require Import Prelude GoStrings Errors Workload Hostname ProviderTypes GoMaps Effects.
From S2P Require Import SourceRegistry.
From Stdlib Require Import ZArith.

(** ** Kubernetes *)
Module Kubernetes.
Definition sourceName : string := "kubernetes".
Definition AnnotationPrefix : string := "dnsweaver.dev/".
Definition AnnotationEnabled : string := AnnotationPrefix ++s "enabled".
Definition AnnotationRecordType : string := AnnotationPrefix ++s "record-type".
Definition AnnotationTarget : string := AnnotationPrefix ++s "target".
Definition AnnotationTTL : string := AnnotationPrefix ++s "ttl".
Definition AnnotationProvider : string := AnnotationPrefix ++s "provider".
Definition AnnotationProxied : string := AnnotationPrefix ++s "proxied".

Definition isEnabled (annotations : gmap string string) : bool :=
  match annotations !! AnnotationEnabled with
  | None => true
  | Some v => negb (EqualFold v "false")
  end.

(** An annotation that is present and not empty. *)
Definition given (annotations : gmap string string) (key : string) : option string :=
  match annotations !! key with
  | Some v => if v != "" then Some v else None
  | None => None
  end.

Definition positive_ttl (v : string) : option Z :=
  match Atoi v with Some ttl => if (0 <? ttl)%Z then Some ttl else None | None => None end.

Definition parseRecordHints (annotations : gmap string string) : nilable RecordHints :=
  let type := given annotations AnnotationRecordType in
  let target := given annotations AnnotationTarget in
  let ttl := given annotations AnnotationTTL ≫= positive_ttl in
  let provider := given annotations AnnotationProvider in
  let proxied := given annotations AnnotationProxied in
  match type, target, ttl, provider, proxied with
  | None, None, None, None, None => None
  | _, _, _, _, _ =>
      Some (mkRecordHints
              (match type with Some v => ToUpper v | None => "" end)
              (default "" target) (default 0%Z ttl) (default "" provider) None
              (match proxied with Some v => {[ "proxied" := v ]} | None => ∅ end))
  end.

Definition Extract (w : Workload) : list Hostname + error :=
  if negb (isEnabled (w_Annotations w)) then inl []
  else if (length (w_Hostnames w) =? 0)%nat then inl []
  else
    let hints := parseRecordHints (w_Annotations w) in
    let router := if w_Name w != "" then w_Kind w ++s ":" ++s w_Name w else w_Kind w in
    inl (map (λ name, mkHostname name sourceName router hints ∅)
           (List.filter (λ name, name != "") (w_Hostnames w))).

Definition kubernetes {W} : Source W :=
  mkSource sourceName Extract (λ w, (inl [], w)) false [PlatformKubernetes].
End Kubernetes.

(** ** Guests: what Proxmox and Incus share *)

Definition TargetModeGuestIP : string := "guest-ip".
Definition TargetModeInstance : string := "instance".

(** [ParseTargetMode] of both packages. *)
Definition ParseTargetMode (platform s : string) : string + error :=
  let t := ToLower (TrimSpace s) in
  if (t == "") || (t == TargetModeGuestIP) then inl TargetModeGuestIP
  else if t == TargetModeInstance then inl TargetModeInstance
  else inr (ENew ("invalid " ++s platform ++s " target mode " ++s Quote s
                  ++s " (must be one of: guest-ip, instance)")).

(** [WithDomain]. *)
Definition domain_option (domain : string) : string := TrimPrefix (TrimSpace domain) ".".

(** A name with a dot as it is, another one below the domain. *)
Definition qualify (domain name : string) : option string :=
  if Contains name "." then Some name
  else if domain != "" then Some (name ++s "." ++s domain)
  else None.

(** The hostname of a guest with an address. *)
Definition guest_hostname (sourceName targetMode router hostname ip : string) : Hostname :=
  mkHostname hostname sourceName router
    (if targetMode == TargetModeGuestIP then Some (mkRecordHints "A" ip 0 "" None ∅) else None) ∅.

Definition metadata (w : Workload) (key : string) : string := default "" (w_Metadata w !! key).

(** ** Proxmox *)
Module Proxmox.
Definition sourceName : string := "proxmox".

Record Proxmox := mkProxmox { px_domain : string; px_targetMode : string; px_hostnameTagPrefix : string }.

(** [New] with the options [WithDomain], [WithTargetMode] and
    [WithHostnameTagPrefix]. *)
Definition New (domain targetMode hostnameTagPrefix : string) : Proxmox :=
  mkProxmox (domain_option domain) (if targetMode == "" then TargetModeGuestIP else targetMode)
    (TrimSpace hostnameTagPrefix).

(** What a tag says after the prefix, when it says something. *)
Definition tag_override (prefix tag : string) : option string :=
  let tag := TrimSpace tag in
  if negb (HasPrefix tag prefix) then None
  else
    let override := TrimSpace (TrimPrefix tag prefix) in
    if override == "" then None else Some override.

Definition resolveHostnameFromTags (p : Proxmox) (w : Workload) : string :=
  if px_hostnameTagPrefix p == "" then ""
  else
    let tags := metadata w "tags" in
    if tags == "" then ""
    else
      match omap (tag_override (px_hostnameTagPrefix p ++s "+")) (Split ";" tags) with
      | [] => ""
      | firstMatch :: _ => default firstMatch (qualify (px_domain p) firstMatch)
      end.

Definition resolveHostname (p : Proxmox) (w : Workload) : string + error :=
  let tagHostname := resolveHostnameFromTags p w in
  if tagHostname != "" then inl tagHostname
  else
    match qualify (px_domain p) (w_Name w) with
    | Some hostname => inl hostname
    | None => inr (ENew ("VM name " ++s Quote (w_Name w)
                         ++s " is not an FQDN and no domain suffix is configured"))
    end.

Definition Extract (p : Proxmox) (w : Workload) : list Hostname + error :=
  if negb (IsProxmox (w_Platform w)) then inl []
  else
    let ip := metadata w "ip" in
    if ip == "" then inl []
    else
      match resolveHostname p w with
      | inr _ => inl []
      | inl hostname =>
          inl [guest_hostname sourceName (px_targetMode p)
                 (metadata w "node" ++s "/" ++s metadata w "vmid") hostname ip]
      end.

Definition proxmox {W} (p : Proxmox) : Source W :=
  mkSource sourceName (Extract p) (λ w, (inl [], w)) false [PlatformProxmox].
End Proxmox.

(** ** Incus *)
Module Incus.
Definition sourceName : string := "incus".
Definition hostnameLabel : string := "user.dnsweaver.hostname".
Definition composeHostnameLabel : string := "dnsweaver.hostname".

Record Incus := mkIncus { ix_domain : string; ix_targetMode : string }.

Definition New (domain targetMode : string) : Incus :=
  mkIncus (domain_option domain) (if targetMode == "" then TargetModeGuestIP else targetMode).

Definition resolveHostname (s : Incus) (w : Workload) : string + error :=
  let override := TrimSpace (GetLabel w hostnameLabel) in
  if override != "" then inl override
  else
    let override := TrimSpace (GetLabel w composeHostnameLabel) in
    if override != "" then inl override
    else
      match qualify (ix_domain s) (w_Name w) with
      | Some hostname => inl hostname
      | None => inr (ENew ("instance name " ++s Quote (w_Name w)
                           ++s " is not an FQDN and no domain suffix is configured"))
      end.

Definition Extract (s : Incus) (w : Workload) : list Hostname + error :=
  if negb (IsIncus (w_Platform w)) then inl []
  else
    let ip := metadata w "ip" in
    if ip == "" then inl []
    else
      match resolveHostname s w with
      | inr _ => inl []
      | inl hostname =>
          inl [guest_hostname sourceName (ix_targetMode s)
                 (metadata w "project" ++s "/" ++s w_Name w) hostname ip]
      end.

Definition incus {W} (s : Incus) : Source W :=
  mkSource sourceName (Extract s) (λ w, (inl [], w)) false [PlatformIncus].
End Incus.

(** ** Properties *)

Lemma qualify_dotted domain name h : qualify domain name = Some h → Contains h "." = true.
Proof.
  unfold qualify. destruct (Contains name ".") eqn:E; [by intros [= <-]|].
  destruct (domain != ""); [|done]. intros [= <-]. apply Contains_middle.
Qed.

(** A guest is published once, and only with an address.  Proxmox gives a
    workload a hostname exactly when it is a Proxmox workload with an address
    whose tags or name give a name; there is then one hostname, and in
    guest-ip mode its hints are an A record for the address. *)
Theorem proxmox_spec p w hs :
  Proxmox.Extract p w = inl hs →
  (hs = [] ∧ (IsProxmox (w_Platform w) = false ∨ metadata w "ip" = "" ∨
              ∃ e, Proxmox.resolveHostname p w = inr e)) ∨
  ∃ h, hs = [h] ∧ IsProxmox (w_Platform w) = true ∧ metadata w "ip" ≠ "" ∧
    Proxmox.resolveHostname p w = inl (h_Name h) ∧
    h_RecordHints h = if Proxmox.px_targetMode p == TargetModeGuestIP
                      then Some (mkRecordHints "A" (metadata w "ip") 0 "" None ∅) else None.
Proof.
  unfold Proxmox.Extract. destruct (IsProxmox _) eqn:Ep; cbn [negb]; [|intros [= <-]; naive_solver].
  destruct (String.eqb_spec (metadata w "ip") "") as [E|Hip]; [intros [= <-]; naive_solver|].
  destruct (Proxmox.resolveHostname p w) as [h|e] eqn:Er; intros [= <-]; [right|left; naive_solver].
  eexists. by split_and!.
Qed.

(** A name without a dot is published only below a domain: without a domain,
    a hostname that comes from the name of a guest has a dot. *)
Lemma proxmox_name_dotted p w h :
  Proxmox.px_hostnameTagPrefix p = "" → Proxmox.resolveHostname p w = inl h → Contains h "." = true.
Proof.
  intros Hp. unfold Proxmox.resolveHostname, Proxmox.resolveHostnameFromTags. rewrite Hp. simpl.
  destruct (qualify _ _) eqn:E; [|done]. intros [= <-]. by eapply qualify_dotted.
Qed.

(** A tag names a guest even without a domain: then its hostname has no dot. *)
Example tag_without_domain :
  Proxmox.resolveHostname (Proxmox.New "" "" "dns")
    (mkWorkload "" "vm1" "" ∅ ∅ PlatformProxmox "vm" [] {[ "tags" := "prod; dns+web;dns+other" ]})
  = inl "web".
Proof. reflexivity. Qed.
