(* ===== verification/Http.v ===== *)
(** * HTTP requests and URLs

    What the code uses of Go's net/http and net/url: a request is sent, and an
    answer or an error comes back.  The connection, with its TLS settings and
    timeouts, is the class [HttpClient]. *)
From S2P Require Import Prelude GoStrings Errors IO.
From Stdlib Require Import ZArith NArith.

(** An answer: its status, what can be read of its body, and the error that
    reading ends with. *)
Record HTTPResponse := mkResponse {
  StatusCode : Z;
  Body : string;
  BodyErr : option error
}.

(** A request; the body is the empty text when there is none. *)
Record HTTPRequest := mkRequest {
  rq_Method : string;
  rq_URL : string;
  rq_Headers : list (string * string);
  rq_Body : string
}.

(** [http.NewRequest] fails on a URL that does not parse; [Do] gives an answer
    of any status, or an error. *)
Class HttpClient (W : Type) := {
  http_NewRequest : string → string → option error;
  http_Do : HTTPRequest → IO W HTTPResponse
}.

Definition StatusOK : Z := 200.
Definition StatusCreated : Z := 201.
Definition StatusNoContent : Z := 204.
Definition StatusUnauthorized : Z := 401.
Definition StatusForbidden : Z := 403.
Definition StatusNotFound : Z := 404.
Definition StatusConflict : Z := 409.
Definition StatusInternalServerError : Z := 500.

(** [io.ReadAll(resp.Body)] *)
Definition ReadAll (r : HTTPResponse) : string + error :=
  match BodyErr r with Some e => inr e | None => inl (Body r) end.

(** [MaxResponseSize] and [ReadBody] of pkg/httputil/client.go: a body of more
    bytes than that is an error. *)
Definition MaxResponseSize : Z := 10 * 1024 * 1024.
Definition ReadBody (resp : HTTPResponse) (maxBytes : Z) : string + error :=
  let maxBytes := if (maxBytes <=? 0)%Z then MaxResponseSize else maxBytes in
  if (maxBytes <? Z.of_nat (String.length (Body resp)))%Z
  then inr (ENew ("response body exceeds maximum size of " ++s itoa maxBytes ++s " bytes"))
  else match BodyErr resp with
       | Some e => inr (EWrapf "reading response body: " e)
       | None => inl (Body resp)
       end.

(** A status of the two hundreds. *)
Definition is_2xx (status : Z) : bool := (200 <=? status)%Z && (status <? 300)%Z.

(** [s[:n]] of a text that is longer, with dots. *)
Definition truncate (s : string) (n : nat) : string :=
  if (String.length s <=? n)%nat then s else str_take n s ++s "...".

(** ** Basic authentication *)

Definition base64_char (n : N) : ascii :=
  if (n <? 26)%N then ascii_of_N (65 + n)
  else if (n <? 52)%N then ascii_of_N (71 + n)
  else if (n <? 62)%N then ascii_of_N (n - 4)
  else if (n =? 62)%N then "+"%char else "/"%char.

(** [base64.StdEncoding.EncodeToString] *)
Fixpoint base64 (s : string) : string :=
  match s with
  | EmptyString => ""
  | String a EmptyString =>
      let n := (N_of_ascii a * 16)%N in
      String (base64_char (n / 64)) (String (base64_char (n mod 64)) "==")
  | String a (String b EmptyString) =>
      let n := ((N_of_ascii a * 256 + N_of_ascii b) * 4)%N in
      String (base64_char (n / 4096)) (String (base64_char ((n / 64) mod 64))
        (String (base64_char (n mod 64)) "="))
  | String a (String b (String c rest)) =>
      let n := ((N_of_ascii a * 256 + N_of_ascii b) * 256 + N_of_ascii c)%N in
      String (base64_char (n / 262144)) (String (base64_char ((n / 4096) mod 64))
        (String (base64_char ((n / 64) mod 64)) (String (base64_char (n mod 64)) (base64 rest))))
  end.

(** The header that [SetBasicAuth] sets. *)
Definition BasicAuth (username password : string) : string * string :=
  ("Authorization", "Basic " ++s base64 (username ++s ":" ++s password)).

Example base64_1 : map base64 ["Aladdin:open sesame"; "a"; "ab"; ""]
  = ["QWxhZGRpbjpvcGVuIHNlc2FtZQ=="; "YQ=="; "YWI="; ""].
Proof. by vm_compute. Qed.

(** ** Escaping *)

Definition hex_upper (n : N) : ascii :=
  if (n <? 10)%N then ascii_of_N (48 + n) else ascii_of_N (55 + n).

Definition percent (c : ascii) : string :=
  String "%" (String (hex_upper (N_of_ascii c / 16)) (String (hex_upper (N_of_ascii c mod 16)) "")).

Definition unreserved (c : ascii) : bool :=
  is_upper c || is_lower c || is_digit c || existsb (Ascii.eqb c) ["-"; "_"; "."; "~"]%char.

(** [url.QueryEscape] and [url.PathEscape] *)
Definition query_byte (c : ascii) : string :=
  if unreserved c then String c "" else if Ascii.eqb c " " then "+" else percent c.
Definition path_byte (c : ascii) : string :=
  if unreserved c || existsb (Ascii.eqb c) ["$"; "&"; "+"; "="; ":"; "@"]%char then String c ""
  else percent c.

Fixpoint escape_with (f : ascii → string) (s : string) : string :=
  match s with String c t => f c ++s escape_with f t | EmptyString => "" end.
Definition QueryEscape : string → string := escape_with query_byte.
Definition PathEscape : string → string := escape_with path_byte.

(** [url.Values.Encode] of keys with one value each: in the order of the keys. *)
Definition Encode (values : gmap string string) : string :=
  Join "&" (omap (λ k, (λ v, QueryEscape k ++s "=" ++s QueryEscape v) <$> values !! k)
              (sort_Strings (map fst (map_to_list values)))).

Example encode_1 : Encode {["type" := "A"; "domain" := "a b&c.example"; "x" := "1"]}
  = "domain=a+b%26c.example&type=A&x=1".
Proof. by vm_compute. Qed.
