(* ===== verification/Target.v ===== *)
(** * Dynamic targets (internal/target)

    A resolver finds the address that a provider instance's records point to:
    the host's public address, asked from echo services, or an address of a
    network interface.  A refresher asks it again and again and hands on what
    has changed. *)
From S2P Require Import Prelude GoStrings Errors IO Http NetIP GoTime.
From Stdlib Require Import ZArith.

(** ** Families and modes (target.go) *)

Inductive Family := FamilyIPv4 | FamilyIPv6.

Definition Family_String (f : Family) : string :=
  match f with FamilyIPv6 => "ipv6" | FamilyIPv4 => "ipv4" end.

Definition matches (f : Family) (ip : list Z) : bool :=
  if (length ip =? 0)%nat then false
  else
    match f, ip_To4 ip with
    | FamilyIPv6, None | FamilyIPv4, Some _ => true
    | _, _ => false
    end.

Inductive Resolver :=
| PublicResolver (family : Family) (endpoints : list string)
| InterfaceResolver (name : string) (family : Family).

Definition DefaultPublicEndpoints : list string :=
  ["https://checkip.amazonaws.com"; "https://api.ipify.org"; "https://ipinfo.io/ip";
   "https://ifconfig.me/ip"].

Definition NewPublicResolver (family : Family) (endpoints : list string) : Resolver :=
  PublicResolver family
    (if (length endpoints =? 0)%nat then DefaultPublicEndpoints else endpoints).

Definition interfacePrefix : string := "interface:".

Definition Parse (mode : string) (family : Family) : nilable Resolver + error :=
  let m := TrimSpace mode in
  if m == "" then inl None
  else if EqualFold m "public" then inl (Some (NewPublicResolver family []))
  else if HasPrefix (ToLower m) interfacePrefix then
    let name := TrimSpace (str_drop (String.length interfacePrefix) m) in
    if name == "" then
      inr (ENew ("target mode " ++s Quote mode
                 ++s ": interface name is required (e.g. interface:eth0)"))
    else inl (Some (InterfaceResolver name family))
  else inr (ENew ("invalid target mode " ++s Quote mode
                  ++s " (must be one of: public, interface:<name>)")).

Definition Describe (r : Resolver) : string :=
  match r with
  | PublicResolver family _ => "public " ++s Family_String family
  | InterfaceResolver name family => "interface " ++s name ++s " (" ++s Family_String family ++s ")"
  end.

(** ** The network *)

(** An address of an interface: [*net.IPNet], [*net.IPAddr], or another type. *)
Inductive Addr := IPNet (ip : list Z) | IPAddr (ip : list Z) | OtherAddr.

(** The interfaces of the host, and GET requests over connections of a family. *)
Class Network (W : Type) := {
  interfaceAddrs : string → IO W (list Addr);
  http_Get : Family → string → IO W HTTPResponse
}.

(** [io.ReadAll(io.LimitReader(body, 128))] *)
Definition bodyLimit : nat := 128.
Definition read_body (r : HTTPResponse) : string + error :=
  if (bodyLimit <=? String.length (Body r))%nat then inl (str_take bodyLimit (Body r))
  else match BodyErr r with Some e => inr e | None => inl (Body r) end.

(** ** Resolution (public.go, iface.go) *)

Section Resolve.
Context {W : Type} `{Network W}.

Definition query (family : Family) (endpoint : string) : IO W string :=
  resp ← http_Get family endpoint;
  if negb (StatusCode resp =? 200)%Z then io_fail (ENew ("status " ++s itoa (StatusCode resp)))
  else
    body ← io_lift (read_body resp);
    let got := TrimSpace body in
    match ParseIP got with
    | None => io_fail (ENew ("response " ++s Quote got ++s " is not an IP"))
    | Some ip =>
        if negb (matches family ip) then
          io_fail (ENew ("response " ++s Quote got ++s " is not " ++s Family_String family))
        else mret (IP_String ip)
    end.

Fixpoint try_endpoints (family : Family) (endpoints errs : list string) : IO W string :=
  match endpoints with
  | [] => io_fail (ENew ("all public IP endpoints failed: " ++s Join "; " (rev errs)))
  | ep :: endpoints =>
      io_catch (query family ep)
        (λ err, try_endpoints family endpoints ((ep ++s ": " ++s Error err) :: errs))
  end.

(** The address of an interface address when it is one that a record may have. *)
Definition usable (family : Family) (a : Addr) : option string :=
  match a with
  | IPNet ip | IPAddr ip =>
      if negb (IsGlobalUnicast ip) || IsLinkLocalUnicast ip then None
      else if matches family ip then Some (IP_String ip)
      else None
  | OtherAddr => None
  end.

Definition Resolve (r : Resolver) : IO W string :=
  match r with
  | PublicResolver family endpoints => try_endpoints family endpoints []
  | InterfaceResolver name family =>
      addrs ← io_wrap (EWrapf ("interface " ++s Quote name ++s ": ")) (interfaceAddrs name);
      match omap (usable family) addrs with
      | value :: _ => mret value
      | [] => io_fail (ENew ("interface " ++s Quote name ++s " has no global "
                             ++s Family_String family ++s " address"))
      end
  end.
End Resolve.

(** ** Refreshing (refresh.go) *)

Definition DefaultRefreshInterval : Z := 5 * time_Minute.

(** [onChange] acts on the program; [running] holds from [Start] to [Stop]. *)
Record Refresher {W : Type} := mkRefresher {
  rf_resolver : IO W string;
  rf_interval : Z;
  rf_onChange : nilable (string → W → W);
  rf_lastGood : string;
  rf_running : bool
}.
Arguments Refresher : clear implicits.
Arguments mkRefresher {W} _ _ _ _ _.

Section Refresh.
Context {W : Type}.
Implicit Types (r : Refresher W) (w : W).

Definition NewRefresher (resolver : IO W string) (interval : Z) (onChange : nilable (string → W → W))
  : Refresher W :=
  mkRefresher resolver (if (interval <=? 0)%Z then DefaultRefreshInterval else interval) onChange ""
    false.

Definition set_lastGood (value : string) r : Refresher W :=
  mkRefresher (rf_resolver r) (rf_interval r) (rf_onChange r) value (rf_running r).
Definition set_running (b : bool) r : Refresher W :=
  mkRefresher (rf_resolver r) (rf_interval r) (rf_onChange r) (rf_lastGood r) b.

Definition resolveOnce r w : string * Refresher W * W :=
  let '(res, w) := rf_resolver r w in
  match res with
  | inr _ => (rf_lastGood r, r, w)
  | inl value =>
      let changed := value != rf_lastGood r in
      let r := set_lastGood value r in
      (value, r,
       if changed then match rf_onChange r with Some f => f value w | None => w end else w)
  end.

(** The first resolution; what is returned is the target. *)
Definition Start r w : string * Refresher W * W :=
  if rf_running r then (rf_lastGood r, r, w) else resolveOnce (set_running true r) w.

Definition Stop r : Refresher W := set_running false r.

(** A tick of the loop, which runs until [Stop]. *)
Definition tick (rw : Refresher W * W) : Refresher W * W :=
  let '(r, w) := rw in
  if rf_running r then let '(_, r, w) := resolveOnce r w in (r, w) else (r, w).
End Refresh.

(** ** Properties *)

Section ResolveLaws.
Context {W : Type} `{Network W}.

(** The interfaces have addresses of bytes. *)
Definition interface_bytes : Prop :=
  ∀ name w addrs w', interfaceAddrs name w = (inl addrs, w') →
  ∀ ip, IPNet ip ∈ addrs ∨ IPAddr ip ∈ addrs → Forall is_byte ip.

Lemma IP_String_v4 ip :
  Forall is_byte ip → (length ip = 4 ∨ length ip = 16)%nat → matches FamilyIPv4 ip = true →
  ∃ a b c d, is_byte a ∧ is_byte b ∧ is_byte c ∧ is_byte d ∧ IP_String ip = dotted [a; b; c; d].
Proof.
  intros Hb Hlen Hm. unfold matches, ip_To4 in Hm.
  assert (∃ p4, IP_String ip = dotted p4 ∧ length p4 = 4%nat ∧ Forall is_byte p4) as (p4 & Hp & Hl & Hbp).
  { unfold IP_String. destruct Hlen as [Hl|Hl]; rewrite Hl in *; simpl in *; [by exists ip|].
    unfold To4 in *. destruct (bool_decide (take 12 ip = v4_prefix)); [|done].
    exists (drop 12 ip). split_and!; [done| |by apply Forall_drop]. rewrite length_drop. lia. }
  rewrite Hp.
  destruct p4 as [|a [|b [|c [|d [|]]]]]; try done. exists a, b, c, d. split_and!; try done;
    repeat (apply Forall_cons in Hbp as [? Hbp]; try done).
Qed.

Lemma resolved_v4 ip :
  Forall is_byte ip → (length ip = 4 ∨ length ip = 16)%nat → matches FamilyIPv4 ip = true →
  ∃ a b c d, ParseIP (IP_String ip) = Some (v4_prefix ++ [a; b; c; d]).
Proof.
  intros Hb Hl Hm. destruct (IP_String_v4 ip Hb Hl Hm) as (a & b & c & d & ? & ? & ? & ? & ->).
  exists a, b, c, d. apply (ParseIP_dotted [a; b; c; d]); [done|]. by do 4 (apply Forall_cons_2; [done|]).
Qed.

Lemma query_v4 ep w value w' :
  query FamilyIPv4 ep w = (inl value, w') →
  ∃ a b c d, ParseIP value = Some (v4_prefix ++ [a; b; c; d]).
Proof.
  unfold query. rewrite io_bind_run. destruct (http_Get FamilyIPv4 ep w) as [[resp|] w1]; [|done].
  destruct (negb _); [done|]. rewrite io_bind_run. unfold io_lift.
  destruct (read_body resp) as [body|]; [|done].
  destruct (ParseIP (TrimSpace body)) as [ip|] eqn:E; [|done].
  destruct (matches FamilyIPv4 ip) eqn:Em; [|done]. intros [= <- <-].
  apply resolved_v4; [by eapply ParseIP_bytes|right; by eapply ParseIP_length|done].
Qed.

Lemma usable_v4 a value :
  (∀ ip, a = IPNet ip ∨ a = IPAddr ip → Forall is_byte ip) →
  usable FamilyIPv4 a = Some value → ∃ a b c d, ParseIP value = Some (v4_prefix ++ [a; b; c; d]).
Proof.
  intros Hb Hu.
  assert (∃ ip, (a = IPNet ip ∨ a = IPAddr ip) ∧ IsGlobalUnicast ip = true ∧ matches FamilyIPv4 ip = true
    ∧ IP_String ip = value) as (ip & Ha & Hg & Hm & <-).
  { unfold usable in Hu. destruct a as [ip|ip|]; [| |done].
    all: destruct (negb (IsGlobalUnicast ip) || IsLinkLocalUnicast ip) eqn:E; [done|].
    all: destruct (matches FamilyIPv4 ip) eqn:Em; [|done]; injection Hu as <-.
    all: apply orb_false_iff in E as [E _]; apply negb_false_iff in E; exists ip; auto. }
  apply resolved_v4; [by apply Hb| |done].
  unfold IsGlobalUnicast in Hg. rewrite !andb_true_iff, orb_true_iff, !Nat.eqb_eq in Hg. tauto.
Qed.

(** What a resolver of an A record finds, at an echo service or on an
    interface, is an IPv4 address: the value it hands on is one that an A
    record may have, whatever the service answers. *)
Theorem resolved_target_fits r w value w' :
  interface_bytes →
  match r with PublicResolver f _ | InterfaceResolver _ f => f = FamilyIPv4 end →
  Resolve r w = (inl value, w') →
  ∃ a b c d, ParseIP value = Some (v4_prefix ++ [a; b; c; d]).
Proof.
  intros Hif Hf. destruct r as [f eps|name f]; subst f; unfold Resolve.
  - generalize (@nil string). revert w. induction eps as [|ep eps IH]; intros w errs; [done|].
    cbn [try_endpoints]. rewrite io_catch_run.
    destruct (query FamilyIPv4 ep w) as [[v|err] w1] eqn:E; [|by apply IH].
    intros [= <- <-]. by eapply query_v4.
  - rewrite io_bind_run. unfold io_wrap. rewrite io_catch_run.
    destruct (interfaceAddrs name w) as [[addrs|] w1] eqn:E; [|done].
    destruct (omap (usable FamilyIPv4) addrs) as [|v vs] eqn:Eu; [done|]. intros [= <- <-].
    assert (v ∈ omap (usable FamilyIPv4) addrs) as (a & Ha & Hv)%list_elem_of_omap by (rewrite Eu; by left).
    eapply usable_v4; [|done]. intros ip [-> | ->]; eapply Hif; eauto.
Qed.
End ResolveLaws.

(** *** What a refresher hands on *)

Section RefreshLaws.
Context {W : Type} (resolve : IO W string).

(** The resolver in a world with a log of the values handed on. *)
Definition logged : IO (W * list string) string := λ wl,
  let '(r, w) := resolve wl.1 in (r, (w, wl.2)).
Definition log_value (v : string) (wl : W * list string) : W * list string := (wl.1, wl.2 ++ [v]).

(** The values of [n] resolutions that succeed, and the world after them. *)
Fixpoint successes (n : nat) (w : W) : list string * W :=
  match n with
  | O => ([], w)
  | S n =>
      let '(r, w) := resolve w in
      let '(vs, w) := successes n w in
      (match r with inl v => v :: vs | inr _ => vs end, w)
  end.

(** The values that differ from the one before them. *)
Fixpoint changes (previous : string) (vs : list string) : list string :=
  match vs with
  | [] => []
  | v :: vs => if v != previous then v :: changes v vs else changes previous vs
  end.

(** A refresher that runs hands on the values that its resolutions find and
    that differ from the value before, in order, and nothing else: a resolution
    that fails changes nothing.  It keeps the last value found. *)
Theorem refresher_hands_on_changes n (r : Refresher (W * list string)) w log :
  rf_resolver r = logged → rf_onChange r = Some log_value → rf_running r = true →
  let vs := (successes n w).1 in
  let '(r', wl') := Nat.iter n tick (r, (w, log)) in
  wl' = ((successes n w).2, log ++ changes (rf_lastGood r) vs) ∧
  rf_lastGood r' = List.last vs (rf_lastGood r) ∧ rf_running r' = true.
Proof.
  intros Hres Hch Hrun vs. unfold vs. clear vs. revert r w log Hres Hch Hrun.
  induction n as [|n IH]; intros r w log Hres Hch Hrun.
  { simpl. by rewrite app_nil_r. }
  rewrite Nat.iter_succ_r. cbn [successes]. unfold tick at 2. rewrite Hrun.
  unfold resolveOnce. rewrite Hres. unfold logged. cbn [fst snd].
  destruct (resolve w) as [[v|err] w1] eqn:E.
  - destruct (String.eqb_spec v (rf_lastGood r)) as [Ev|Ev]; cbn [negb];
      specialize (IH (set_lastGood v r) w1).
    + specialize (IH log Hres Hch Hrun).
      destruct (successes n w1) as [vs w2]. cbn [fst snd changes].
      destruct (Nat.iter n tick _) as [r' wl']. destruct IH as (-> & Hlast & Hr').
      cbn [rf_lastGood set_lastGood] in *. rewrite <- Ev, String.eqb_refl. cbn [negb].
      split_and!; [done| |done]. by rewrite Hlast, last_cons.
    + cbn [rf_onChange set_lastGood]. rewrite Hch. unfold log_value at 1. cbn [fst snd].
      specialize (IH (log ++ [v]) Hres Hch Hrun).
      destruct (successes n w1) as [vs w2]. cbn [fst snd changes].
      destruct (Nat.iter n tick _) as [r' wl']. destruct IH as (-> & Hlast & Hr').
      cbn [rf_lastGood set_lastGood] in *. apply String.eqb_neq in Ev. rewrite Ev. cbn [negb].
      split_and!; [by rewrite <- app_assoc| |done]. by rewrite Hlast, last_cons.
  - specialize (IH r w1 log Hres Hch Hrun). destruct (successes n w1) as [vs w2]. cbn [fst snd].
    by destruct (Nat.iter n tick _).
Qed.
End RefreshLaws.
