(* ===== verification/ConfigEnv.v ===== *)
(** * Configuration: errors and the environment
    (internal/config/errors.go, secrets.go)

    The configuration is read once, at start: the environment and the files it
    names do not change meanwhile, and are the class [Environ]. *)
From S2P Require Import Prelude GoStrings Errors FilePath GoTime.
From Stdlib Require Import ZArith.

(** ** Errors *)

Record ConfigError := mkConfigError {
  ce_Field : string;
  ce_Message : string;
  ce_Help : string;
  ce_Example : string
}.

Definition ConfigError_Error (e : ConfigError) : string :=
  ce_Field e ++s ": " ++s ce_Message e
  ++s (if ce_Help e != "" then NL ++s "  " ++s ce_Help e else "")
  ++s (if ce_Example e != "" then NL ++s "  Example: " ++s ce_Example e else "").

Definition configErr (field message : string) : ConfigError := mkConfigError field message "" "".
Definition configErrHelp (field message help : string) : ConfigError :=
  mkConfigError field message help "".
Definition configErrFull (field message help example : string) : ConfigError :=
  mkConfigError field message help example.

(** The text of a [ValidationError]. *)
Definition ValidationError_Error (errs : list ConfigError) : string :=
  match errs with
  | [e] => "configuration error:" ++s NL ++s "  " ++s ConfigError_Error e
  | _ =>
      itoa (Z.of_nat (length errs)) ++s " configuration errors:"
      ++s String.concat "" (imap (λ i e,
            NL ++s "  " ++s itoa (Z.of_nat (i + 1)) ++s ") " ++s ConfigError_Error e) errs)
  end.

(** ** The environment *)

(** [os.LookupEnv] and [os.ReadFile] *)
Class Environ := {
  LookupEnv : string → option string;
  ReadFile : string → string + error
}.

Section Environment.
Context `{Environ}.

(** [os.Getenv] *)
Definition getEnv (key : string) : string := default "" (LookupEnv key).

Definition getEnvOrFile (directKey fileKey : string) : string :=
  let filePath := getEnv fileKey in
  if filePath != "" then
    match ReadFile filePath with inl content => TrimSpace content | inr _ => "" end
  else getEnv directKey.

Definition getEnvWithFileFallback (prefix key : string) : string :=
  getEnvOrFile (prefix ++s key) (prefix ++s key ++s "_FILE").
End Environment.

Definition parseBool (s : string) (defaultValue : bool) : bool :=
  let s := ToLower (TrimSpace s) in
  if (s == "true") || (s == "1") || (s == "yes") || (s == "on") then true
  else if (s == "false") || (s == "0") || (s == "no") || (s == "off") then false
  else defaultValue.

Definition splitCommaList (s : string) : list string :=
  List.filter (λ p, p != "") (map TrimSpace (Split "," s)).

(** The same function under another name in instance.go. *)
Definition splitPatterns (s : string) : list string := splitCommaList s.

Definition normalizeInstanceName (name : string) : string := ReplaceByte "-" "_" (ToUpper name).

Definition envPrefix (instanceName : string) : string :=
  "DNSWEAVER_" ++s normalizeInstanceName instanceName ++s "_".

(** ** Settings

    What the loaders repeat for each setting. *)

(** One of the values a setting may have. *)
Definition one_of (v : string) (allowed : list string) : bool := existsb (String.eqb v) allowed.

(** The error of a value that is none of them; [shown] is the value the error
    shows. *)
Definition enum_error (field shown help example v : string) (allowed : list string) : list ConfigError :=
  if one_of v allowed then []
  else [configErrFull field ("invalid value " ++s Quote shown) help example].

Section Settings.
Context `{Environ}.

(** A setting that may be absent and may be wrong. *)
Definition setting {A} (key : string) (unset invalid : A) (read : string → A + ConfigError)
  : A * list ConfigError :=
  let s := getEnv key in
  if s != "" then match read s with inl a => (a, []) | inr e => (invalid, [e]) end
  else (unset, []).

(** A boolean: what does not read as one is the value without the setting. *)
Definition bool_setting (key : string) (unset : bool) : bool :=
  let s := getEnv key in if s != "" then parseBool s unset else unset.

(** A text that is not empty, or a default. *)
Definition text_setting (key unset : string) : string :=
  let s := getEnv key in if s != "" then s else unset.
End Settings.

(** A number with a check that gives the message and the help of the error. *)
Definition read_int (key help example : string) (check : Z → option (string * string)) (s : string)
  : Z + ConfigError :=
  match Atoi s with
  | None => inr (configErrFull key ("invalid integer " ++s Quote s) help example)
  | Some n =>
      match check n with
      | Some (message, help) => inr (configErrFull key message help example)
      | None => inl n
      end
  end.

Definition read_duration (key help example : string) (check : Z → option (string * string)) (s : string)
  : Z + ConfigError :=
  match ParseDuration s with
  | None => inr (configErrFull key ("invalid duration " ++s Quote s) help example)
  | Some d =>
      match check d with
      | Some (message, help) => inr (configErrFull key message help example)
      | None => inl d
      end
  end.

(** The check of a lower bound. *)
Definition at_least (lo : Z) (message help : string) (n : Z) : option (string * string) :=
  if (n <? lo)%Z then Some (message, help) else None.

(** ** Properties *)

Lemma one_of_spec v l : one_of v l = true ↔ v ∈ l.
Proof.
  unfold one_of. rewrite existsb_exists. split.
  - intros (x & Hx & ->%String.eqb_eq). by apply list_elem_of_In.
  - intros Hv. exists v. rewrite <- list_elem_of_In. by rewrite String.eqb_refl.
Qed.

Lemma enum_error_nil field shown help example v allowed :
  enum_error field shown help example v allowed = [] ↔ v ∈ allowed.
Proof. unfold enum_error. rewrite <- one_of_spec. by destruct (one_of v allowed). Qed.

Lemma at_least_nil lo message help n : at_least lo message help n = None → (lo ≤ n)%Z.
Proof. unfold at_least. destruct (n <? lo)%Z eqn:E; [done|]. by apply Z.ltb_ge in E. Qed.

Lemma read_int_check key help example check s n :
  read_int key help example check s = inl n → check n = None.
Proof. unfold read_int. repeat case_match; intros; by simplify_eq. Qed.

Lemma read_duration_check key help example check s n :
  read_duration key help example check s = inl n → check n = None.
Proof. unfold read_duration. repeat case_match; intros; by simplify_eq. Qed.

Section Laws.
Context `{Environ}.

(** A setting without errors has what holds of the default and of what is read. *)
Lemma setting_ok {A} (P : A → Prop) key unset invalid read :
  P unset → (∀ s a, read s = inl a → P a) →
  (setting key unset invalid read).2 = [] → P (setting key unset invalid read).1.
Proof.
  intros Hu Hr. unfold setting. destruct (_ != ""); [|done].
  destruct (read _) as [a|e] eqn:E; simpl; [|done]. intros _. by eapply Hr.
Qed.

Lemma int_setting_ok (P : Z → Prop) key unset invalid help example check :
  P unset → (∀ n, check n = None → P n) →
  (setting key unset invalid (read_int key help example check)).2 = [] →
  P (setting key unset invalid (read_int key help example check)).1.
Proof. intros Hu Hc. apply setting_ok; [done|]. intros s a Hr. eapply Hc, read_int_check, Hr. Qed.

Lemma duration_setting_ok (P : Z → Prop) key unset invalid help example check :
  P unset → (∀ n, check n = None → P n) →
  (setting key unset invalid (read_duration key help example check)).2 = [] →
  P (setting key unset invalid (read_duration key help example check)).1.
Proof. intros Hu Hc. apply setting_ok; [done|]. intros s a Hr. eapply Hc, read_duration_check, Hr. Qed.

Lemma getEnv_env (E1 E2 : Environ) key :
  @LookupEnv E1 key = @LookupEnv E2 key → @getEnv E1 key = @getEnv E2 key.
Proof. unfold getEnv. by intros ->. Qed.
End Laws.

(** Splits the hypothesis that a list of errors is empty. *)
Ltac no_errors :=
  repeat match goal with
  | Hnil : _ ++ _ = [] |- _ => apply app_eq_nil in Hnil as [? ?]
  end.
