(* ===== verification/ConfigGlobal.v ===== *)
(** * Global configuration (internal/config/global.go)

    The fields of [GlobalConfig] are grouped as the comments of the Go struct
    group them. *)
From S2P Require Import Prelude GoStrings Errors Regex GoTime ConfigEnv.
From Stdlib Require Import ZArith.

(** ** Defaults *)

Definition DefaultLogLevel : string := "info".
Definition DefaultLogFormat : string := "json".
Definition DefaultLogMaxSize : Z := 100.
Definition DefaultLogMaxBackups : Z := 5.
Definition DefaultLogMaxAge : Z := 30.
Definition DefaultLogCompress : bool := true.
Definition DefaultDryRun : bool := false.
Definition DefaultCleanupOrphans : bool := true.
Definition DefaultCleanupOnStop : bool := true.
Definition DefaultOwnershipTracking : bool := true.
Definition DefaultAdoptExisting : bool := false.
Definition DefaultTTL : Z := 300.
Definition DefaultReconcileInterval : Z := 60 * time_Second.
Definition DefaultShutdownTimeout : Z := 30 * time_Second.
Definition DefaultHealthPort : Z := 8080.
Definition DefaultDockerHost : string := "unix:///var/run/docker.sock".
Definition DefaultDockerMode : string := "auto".
Definition DefaultDockerConnectTimeout : Z := 30 * time_Second.
Definition DefaultSource : string := "traefik".
Definition DefaultPlatform : string := "docker".
Definition MaxInstanceIDLength : nat := 63.

(** ** Data *)

Record LogSettings := mkLogSettings {
  LogLevel : string;
  LogFormat : string;
  LogFile : string;
  LogMaxSize : Z;
  LogMaxBackups : Z;
  LogMaxAge : Z;
  LogCompress : bool
}.

Record BehaviorSettings := mkBehavior {
  DryRun : bool;
  CleanupOrphans : bool;
  CleanupOnStop : bool;
  OwnershipTracking : bool;
  AdoptExisting : bool;
  bh_DefaultTTL : Z;
  ReconcileInterval : Z;
  ShutdownTimeout : Z;
  HealthPort : Z
}.

Record DockerSettings := mkDocker {
  DockerHost : string;
  DockerMode : string;
  DockerConnectTimeout : Z
}.

Record K8sSettings := mkK8s {
  K8sKubeconfig : string;
  K8sNamespaces : string;
  K8sWatchIngress : bool;
  K8sWatchIngressRoute : bool;
  K8sWatchHTTPRoute : bool;
  K8sWatchServices : bool;
  K8sLabelSelector : string;
  K8sAnnotationFilter : string
}.

Record TLSSettings := mkTLSSettings {
  ts_CAFile : string;
  ts_CertFile : string;
  ts_KeyFile : string;
  ts_ServerName : string;
  ts_SkipVerify : bool;
  ts_PinSHA256 : string;
  ts_MinVersion : string
}.

Record ProxmoxSettings := mkProxmoxSettings {
  ProxmoxURL : string;
  ProxmoxTokenID : string;
  ProxmoxTokenSecret : string;
  ProxmoxNodeFilter : string;
  ProxmoxTagFilter : string;
  ProxmoxStateFilter : string;
  ProxmoxDomainSuffix : string;
  ProxmoxHostnameTagPrefix : string;
  ProxmoxInterfaceTagPrefix : string;
  ProxmoxAllowedInterfaces : list string;
  ProxmoxVerifyTLS : bool;
  ProxmoxTargetMode : string;
  ProxmoxTLS : TLSSettings
}.

Record IncusSettings := mkIncusSettings {
  IncusURL : string;
  IncusSocketPath : string;
  IncusProject : string;
  IncusProjects : list string;
  IncusAllProjects : bool;
  IncusStateFilter : string;
  IncusDomainSuffix : string;
  IncusTargetMode : string;
  IncusTLS : TLSSettings;
  IncusTrustToken : string;
  IncusCertStore : string
}.

Record GlobalConfig := mkGlobalConfig {
  gc_Log : LogSettings;
  gc_Behavior : BehaviorSettings;
  gc_Platform : string;
  gc_Docker : DockerSettings;
  gc_K8s : K8sSettings;
  gc_Source : string;
  gc_Proxmox : ProxmoxSettings;
  gc_Incus : IncusSettings;
  gc_InstanceID : string
}.

(** The zero values of Go. *)
Definition zero_tls : TLSSettings := mkTLSSettings "" "" "" "" false "" "".
Definition zero_proxmox : ProxmoxSettings :=
  mkProxmoxSettings "" "" "" "" "" "" "" "" "" [] false "" zero_tls.
Definition zero_incus : IncusSettings := mkIncusSettings "" "" "" [] false "" "" "" zero_tls "" "".

(** ** Checks *)

Definition logLevels : list string := ["debug"; "info"; "warn"; "error"].
Definition logFormats : list string := ["json"; "text"].
Definition dockerModes : list string := ["auto"; "swarm"; "standalone"].
Definition platforms : list string := ["docker"; "kubernetes"; "both"; "none"].

Definition normalizePlatform (v : string) : string :=
  let v := ToLower (TrimSpace v) in
  if v == "standalone" then "none" else v.

(** [instanceIDPattern], [^[a-zA-Z0-9][a-zA-Z0-9._-]*$] *)
Definition alnum (c : ascii) : bool := is_lower c || is_upper c || is_digit c.
Definition id_byte (c : ascii) : bool :=
  alnum c || Ascii.eqb c "." || Ascii.eqb c "_" || Ascii.eqb c "-".
Definition instanceIDPattern (id : string) : bool :=
  match id with EmptyString => false | String c t => alnum c && str_forallb id_byte t end.

Definition validateInstanceID (id : string) : option string :=
  if id == "" then None
  else if (MaxInstanceIDLength <? String.length id)%nat then
    Some ("must be at most " ++s itoa (Z.of_nat MaxInstanceIDLength) ++s " characters, got "
          ++s itoa (Z.of_nat (String.length id)))
  else if negb (instanceIDPattern id) then
    Some ("invalid format " ++s Quote id
          ++s " (must be alphanumeric, hyphens, underscores, dots; must start with alphanumeric)")
  else None.

Definition instance_id_error (e : string) : ConfigError :=
  configErrFull "DNSWEAVER_INSTANCE_ID" e
    "Must be 1-63 alphanumeric characters with hyphens, underscores, or dots"
    "DNSWEAVER_INSTANCE_ID=prod-01".

Definition read_instance_id (v : string) : string + ConfigError :=
  match validateInstanceID v with None => inl v | Some e => inr (instance_id_error e) end.

(** The errors of the settings with a few values. *)
Definition platform_error (shown v : string) : list ConfigError :=
  enum_error "DNSWEAVER_PLATFORM" shown "Must be one of: docker, kubernetes, both, none"
    "DNSWEAVER_PLATFORM=docker" v platforms.
Definition log_level_error (shown v : string) : list ConfigError :=
  enum_error "DNSWEAVER_LOG_LEVEL" shown "Must be one of: debug, info, warn, error"
    "DNSWEAVER_LOG_LEVEL=info" v logLevels.
Definition log_format_error (shown v : string) : list ConfigError :=
  enum_error "DNSWEAVER_LOG_FORMAT" shown "Must be one of: json, text"
    "DNSWEAVER_LOG_FORMAT=json" v logFormats.
Definition docker_mode_error (shown v : string) : list ConfigError :=
  enum_error "DNSWEAVER_DOCKER_MODE" shown "Must be one of: auto, swarm, standalone"
    "DNSWEAVER_DOCKER_MODE=auto" v dockerModes.

Definition target_mode_error (key v : string) : list ConfigError :=
  if v == "" then []
  else if one_of (ToLower (TrimSpace v)) ["guest-ip"; "instance"] then []
  else [configErrFull key ("invalid value " ++s Quote v)
          ("Must be one of: guest-ip (default, A record per guest IP), "
           ++s "instance (defer to instance TARGET/RECORD_TYPE)")
          (key ++s "=instance")].

(** ** Loading from the environment *)

Section Loading.
Context `{Environ}.

Definition loadTLS (prefix : string) (skip : bool) (pin : string) : TLSSettings :=
  mkTLSSettings (getEnv (prefix ++s "TLS_CA_FILE")) (getEnv (prefix ++s "TLS_CERT_FILE"))
    (getEnv (prefix ++s "TLS_KEY_FILE")) (getEnv (prefix ++s "TLS_SERVER_NAME")) skip pin
    (getEnv (prefix ++s "TLS_MIN_VERSION")).

(** The new variable wins over the old one, whose sense is the opposite. *)
Definition proxmoxSkipVerify (verify : bool) : bool :=
  match LookupEnv "DNSWEAVER_PROXMOX_TLS_SKIP_VERIFY", LookupEnv "DNSWEAVER_PROXMOX_VERIFY_TLS" with
  | Some skipNew, _ => parseBool skipNew false
  | None, Some _ => negb verify
  | None, None => false
  end.

Definition loadProxmox : ProxmoxSettings * list ConfigError :=
  let targetMode := getEnv "DNSWEAVER_PROXMOX_TARGET_MODE" in
  let verify := bool_setting "DNSWEAVER_PROXMOX_VERIFY_TLS" false in
  (mkProxmoxSettings (getEnv "DNSWEAVER_PROXMOX_URL") (getEnv "DNSWEAVER_PROXMOX_TOKEN_ID")
     (getEnvOrFile "DNSWEAVER_PROXMOX_TOKEN_SECRET" "DNSWEAVER_PROXMOX_TOKEN_SECRET_FILE")
     (getEnv "DNSWEAVER_PROXMOX_NODE_FILTER") (getEnv "DNSWEAVER_PROXMOX_TAG_FILTER")
     (getEnv "DNSWEAVER_PROXMOX_STATE_FILTER") (getEnv "DNSWEAVER_PROXMOX_DOMAIN_SUFFIX")
     (getEnv "DNSWEAVER_PROXMOX_HOSTNAME_TAG_PREFIX")
     (getEnv "DNSWEAVER_PROXMOX_INTERFACE_TAG_PREFIX")
     (splitPatterns (getEnv "DNSWEAVER_PROXMOX_ALLOWED_INTERFACES")) verify targetMode
     (loadTLS "DNSWEAVER_PROXMOX_" (proxmoxSkipVerify verify) ""),
   target_mode_error "DNSWEAVER_PROXMOX_TARGET_MODE" targetMode).

Definition loadIncus : IncusSettings * list ConfigError :=
  let url := getEnv "DNSWEAVER_INCUS_URL" in
  let socketPath := getEnv "DNSWEAVER_INCUS_SOCKET_PATH" in
  let targetMode := getEnv "DNSWEAVER_INCUS_TARGET_MODE" in
  (mkIncusSettings url socketPath (getEnv "DNSWEAVER_INCUS_PROJECT")
     (splitCommaList (getEnv "DNSWEAVER_INCUS_PROJECTS"))
     (parseBool (getEnv "DNSWEAVER_INCUS_ALL_PROJECTS") false)
     (getEnv "DNSWEAVER_INCUS_STATE_FILTER") (getEnv "DNSWEAVER_INCUS_DOMAIN_SUFFIX") targetMode
     (loadTLS "DNSWEAVER_INCUS_" (bool_setting "DNSWEAVER_INCUS_TLS_SKIP_VERIFY" false)
        (getEnv "DNSWEAVER_INCUS_TLS_PIN_SHA256"))
     (getEnv "DNSWEAVER_INCUS_TRUST_TOKEN") (getEnv "DNSWEAVER_INCUS_CERT_STORE"),
   target_mode_error "DNSWEAVER_INCUS_TARGET_MODE" targetMode
   ++ (if (url != "") && (socketPath != "") then
         [configErrFull "DNSWEAVER_INCUS_URL"
            "both DNSWEAVER_INCUS_URL and DNSWEAVER_INCUS_SOCKET_PATH are set"
            ("Set exactly one: URL for a remote HTTPS endpoint, "
             ++s "or SOCKET_PATH for the local Unix socket.")
            "DNSWEAVER_INCUS_SOCKET_PATH=/var/lib/incus/unix.socket"]
       else [])).

(** The booleans of the Kubernetes settings fall back to [base]. *)
Definition loadK8s (kubeconfig namespaces labels annotations : string)
    (ingress ingressRoute httpRoute services : bool) : K8sSettings :=
  mkK8s (text_setting "DNSWEAVER_K8S_KUBECONFIG" kubeconfig)
    (text_setting "DNSWEAVER_K8S_NAMESPACES" namespaces)
    (bool_setting "DNSWEAVER_K8S_WATCH_INGRESS" ingress)
    (bool_setting "DNSWEAVER_K8S_WATCH_INGRESSROUTE" ingressRoute)
    (bool_setting "DNSWEAVER_K8S_WATCH_HTTPROUTE" httpRoute)
    (bool_setting "DNSWEAVER_K8S_WATCH_SERVICES" services)
    (text_setting "DNSWEAVER_K8S_LABEL_SELECTOR" labels)
    (text_setting "DNSWEAVER_K8S_ANNOTATION_FILTER" annotations).

(** A number or a duration that [loadGlobalConfig] reads: 0 when it is wrong. *)
Definition log_max_size : Z * list ConfigError :=
  setting "DNSWEAVER_LOG_MAX_SIZE" DefaultLogMaxSize 0%Z
    (read_int "DNSWEAVER_LOG_MAX_SIZE" "Must be a positive integer representing megabytes"
       "DNSWEAVER_LOG_MAX_SIZE=100"
       (at_least 1 "must be at least 1 (MB)" "Minimum log file size is 1 MB")).
Definition log_max_backups : Z * list ConfigError :=
  setting "DNSWEAVER_LOG_MAX_BACKUPS" DefaultLogMaxBackups 0%Z
    (read_int "DNSWEAVER_LOG_MAX_BACKUPS" "Must be a non-negative integer"
       "DNSWEAVER_LOG_MAX_BACKUPS=5"
       (at_least 0 "must be non-negative" "Use 0 to keep all old log files")).
Definition log_max_age : Z * list ConfigError :=
  setting "DNSWEAVER_LOG_MAX_AGE" DefaultLogMaxAge 0%Z
    (read_int "DNSWEAVER_LOG_MAX_AGE" "Must be a non-negative integer (days)"
       "DNSWEAVER_LOG_MAX_AGE=30"
       (at_least 0 "must be non-negative" "Use 0 to keep old log files indefinitely")).
Definition default_ttl : Z * list ConfigError :=
  setting "DNSWEAVER_DEFAULT_TTL" DefaultTTL 0%Z
    (read_int "DNSWEAVER_DEFAULT_TTL" "Must be a positive integer (seconds)"
       "DNSWEAVER_DEFAULT_TTL=300"
       (at_least 1 "must be at least 1" "TTL is in seconds; typical values are 60-3600")).
Definition reconcile_interval : Z * list ConfigError :=
  setting "DNSWEAVER_RECONCILE_INTERVAL" DefaultReconcileInterval 0%Z
    (read_duration "DNSWEAVER_RECONCILE_INTERVAL" "Use Go duration format: 60s, 5m, 1h"
       "DNSWEAVER_RECONCILE_INTERVAL=60s"
       (at_least time_Second "must be at least 1s" "Shorter intervals cause excessive API calls")).
Definition shutdown_timeout : Z * list ConfigError :=
  setting "DNSWEAVER_SHUTDOWN_TIMEOUT" DefaultShutdownTimeout 0%Z
    (read_duration "DNSWEAVER_SHUTDOWN_TIMEOUT" "Use Go duration format: 30s, 1m, 2m"
       "DNSWEAVER_SHUTDOWN_TIMEOUT=30s"
       (at_least time_Second "must be at least 1s"
          "Allow enough time for in-flight DNS updates to complete")).
Definition docker_connect_timeout : Z * list ConfigError :=
  setting "DNSWEAVER_DOCKER_CONNECT_TIMEOUT" DefaultDockerConnectTimeout 0%Z
    (read_duration "DNSWEAVER_DOCKER_CONNECT_TIMEOUT"
       "Use Go duration format: 30s, 1m; 0 to fail immediately"
       "DNSWEAVER_DOCKER_CONNECT_TIMEOUT=30s"
       (at_least 0 "must not be negative"
          "Use 0 to fail immediately, or a positive duration to retry")).

Definition port_range (port : Z) : option (string * string) :=
  if (port <? 1)%Z || (65535 <? port)%Z then
    Some ("must be between 1 and 65535, got " ++s itoa port, "Choose an unprivileged port (1024-65535)")
  else None.
Definition health_port : Z * list ConfigError :=
  setting "DNSWEAVER_HEALTH_PORT" DefaultHealthPort 0%Z
    (read_int "DNSWEAVER_HEALTH_PORT" "Must be a valid TCP port number" "DNSWEAVER_HEALTH_PORT=8080"
       port_range).
Definition instance_id (base : string) : string * list ConfigError :=
  setting "DNSWEAVER_INSTANCE_ID" base base read_instance_id.

Definition loadGlobalConfig : GlobalConfig * list ConfigError :=
  let platform := normalizePlatform (text_setting "DNSWEAVER_PLATFORM" DefaultPlatform) in
  let logLevel := ToLower (text_setting "DNSWEAVER_LOG_LEVEL" DefaultLogLevel) in
  let logFormat := ToLower (text_setting "DNSWEAVER_LOG_FORMAT" DefaultLogFormat) in
  let dockerMode := ToLower (text_setting "DNSWEAVER_DOCKER_MODE" DefaultDockerMode) in
  let instanceID := instance_id "" in
  (mkGlobalConfig
     (mkLogSettings logLevel logFormat (getEnv "DNSWEAVER_LOG_FILE") log_max_size.1 log_max_backups.1
        log_max_age.1 (bool_setting "DNSWEAVER_LOG_COMPRESS" DefaultLogCompress))
     (mkBehavior (bool_setting "DNSWEAVER_DRY_RUN" DefaultDryRun)
        (bool_setting "DNSWEAVER_CLEANUP_ORPHANS" DefaultCleanupOrphans)
        (bool_setting "DNSWEAVER_CLEANUP_ON_STOP" DefaultCleanupOnStop)
        (bool_setting "DNSWEAVER_OWNERSHIP_TRACKING" DefaultOwnershipTracking)
        (bool_setting "DNSWEAVER_ADOPT_EXISTING" DefaultAdoptExisting)
        default_ttl.1 reconcile_interval.1 shutdown_timeout.1 health_port.1)
     platform
     (mkDocker (text_setting "DNSWEAVER_DOCKER_HOST" DefaultDockerHost) dockerMode
        docker_connect_timeout.1)
     (loadK8s "" "" "" "" true true true false)
     DefaultSource loadProxmox.1 loadIncus.1 instanceID.1,
   platform_error platform platform ++ log_level_error logLevel logLevel
   ++ log_format_error logFormat logFormat ++ log_max_size.2 ++ log_max_backups.2 ++ log_max_age.2
   ++ docker_mode_error dockerMode dockerMode ++ default_ttl.2 ++ reconcile_interval.2
   ++ shutdown_timeout.2 ++ docker_connect_timeout.2 ++ health_port.2 ++ instanceID.2
   ++ loadProxmox.2 ++ loadIncus.2).

(** ** Merging with a file (loader.go) *)

Definition parseIntEnv (s : string) : option Z := if s == "" then Some 0%Z else Atoi (TrimSpace s).

(** A variable over the value of the file; when it is wrong the value of the
    file stays and there is an error. *)
Definition override {A} (key help example : string) (base : A) (read : string → option A)
  : A * list ConfigError :=
  setting key base base (λ v,
    match read v with
    | Some a => inl a
    | None => inr (configErrFull key ("invalid value " ++s Quote v) help example)
    end).

(** A variable over a value with few values; a wrong one is stored as well. *)
Definition override_enum (key : string) (base : string) (normalize : string → string)
    (check : string → string → list ConfigError) : string * list ConfigError :=
  let v := getEnv key in
  if v != "" then (normalize v, check v (normalize v)) else (base, []).

Definition guarded (P : Z → bool) (n : option Z) : option Z :=
  match n with Some n => if P n then Some n else None | None => None end.

Definition mergeGlobalConfig (base : GlobalConfig) : GlobalConfig * list ConfigError :=
  let log := gc_Log base in
  let behavior := gc_Behavior base in
  let docker := gc_Docker base in
  let k8s := gc_K8s base in
  let logLevel := override_enum "DNSWEAVER_LOG_LEVEL" (LogLevel log) ToLower log_level_error in
  let logFormat := override_enum "DNSWEAVER_LOG_FORMAT" (LogFormat log) ToLower log_format_error in
  let dockerMode :=
    override_enum "DNSWEAVER_DOCKER_MODE" (DockerMode docker) ToLower docker_mode_error in
  let ttl :=
    override "DNSWEAVER_DEFAULT_TTL" "Must be a positive integer (seconds)" "DNSWEAVER_DEFAULT_TTL=300"
      (bh_DefaultTTL behavior) (λ v, guarded (λ n, (1 <=? n)%Z) (parseIntEnv v)) in
  let interval :=
    override "DNSWEAVER_RECONCILE_INTERVAL" "Use Go duration format, minimum 1s"
      "DNSWEAVER_RECONCILE_INTERVAL=60s" (ReconcileInterval behavior)
      (λ v, guarded (λ n, (time_Second <=? n)%Z) (ParseDuration v)) in
  let port :=
    override "DNSWEAVER_HEALTH_PORT" "Must be a valid TCP port (1-65535)" "DNSWEAVER_HEALTH_PORT=8080"
      (HealthPort behavior) (λ v, guarded (λ n, (1 <=? n)%Z && (n <=? 65535)%Z) (parseIntEnv v)) in
  let instanceID := instance_id (gc_InstanceID base) in
  let platform :=
    override_enum "DNSWEAVER_PLATFORM" (gc_Platform base) normalizePlatform platform_error in
  (mkGlobalConfig
     (mkLogSettings logLevel.1 logFormat.1 (LogFile log) (LogMaxSize log) (LogMaxBackups log)
        (LogMaxAge log) (LogCompress log))
     (mkBehavior (bool_setting "DNSWEAVER_DRY_RUN" (DryRun behavior))
        (bool_setting "DNSWEAVER_CLEANUP_ORPHANS" (CleanupOrphans behavior))
        (bool_setting "DNSWEAVER_CLEANUP_ON_STOP" (CleanupOnStop behavior))
        (bool_setting "DNSWEAVER_OWNERSHIP_TRACKING" (OwnershipTracking behavior))
        (bool_setting "DNSWEAVER_ADOPT_EXISTING" (AdoptExisting behavior))
        ttl.1 interval.1 (ShutdownTimeout behavior) port.1)
     platform.1
     (mkDocker (text_setting "DNSWEAVER_DOCKER_HOST" (DockerHost docker)) dockerMode.1
        (DockerConnectTimeout docker))
     (loadK8s (K8sKubeconfig k8s) (K8sNamespaces k8s) (K8sLabelSelector k8s)
        (K8sAnnotationFilter k8s) (K8sWatchIngress k8s) (K8sWatchIngressRoute k8s)
        (K8sWatchHTTPRoute k8s) (K8sWatchServices k8s))
     (gc_Source base) (gc_Proxmox base) (gc_Incus base) instanceID.1,
   logLevel.2 ++ logFormat.2 ++ dockerMode.2 ++ ttl.2 ++ interval.2 ++ port.2 ++ instanceID.2
   ++ platform.2).
End Loading.

(** ** Properties *)

(** An instance id that is accepted: at most 63 letters, digits, dots,
    underscores and dashes, the first a letter or a digit. *)
Lemma validateInstanceID_accepts id :
  validateInstanceID id = None →
  (String.length id ≤ MaxInstanceIDLength)%nat ∧ str_forallb id_byte id = true.
Proof.
  unfold validateInstanceID. destruct (id == "") eqn:E; [apply String.eqb_eq in E as ->; split; [simpl; lia|done]|].
  destruct (MaxInstanceIDLength <? String.length id)%nat eqn:Hl; [done|].
  destruct (instanceIDPattern id) eqn:Hp; [|done]. intros _. apply Nat.ltb_ge in Hl. split; [done|].
  destruct id as [|c t]; [done|]. simpl in *. apply andb_true_iff in Hp as [Hc ->].
  unfold id_byte. by rewrite Hc.
Qed.

(** The numbers of a configuration. *)
Record numbers_ok (g : GlobalConfig) : Prop := mkNumbersOk {
  no_ttl : (1 ≤ bh_DefaultTTL (gc_Behavior g))%Z;
  no_interval : (time_Second ≤ ReconcileInterval (gc_Behavior g))%Z;
  no_shutdown : (time_Second ≤ ShutdownTimeout (gc_Behavior g))%Z;
  no_connect : (0 ≤ DockerConnectTimeout (gc_Docker g))%Z;
  no_port : (1 ≤ HealthPort (gc_Behavior g) ≤ 65535)%Z
}.

(** The names that are set, right or wrong. *)
Definition names_set (g : GlobalConfig) : Prop := DockerMode (gc_Docker g) ≠ "" ∧ gc_Platform g ≠ "".

Lemma port_range_nil n : port_range n = None → (1 ≤ n ≤ 65535)%Z.
Proof.
  unfold port_range. destruct (_ || _) eqn:E; [done|]. intros _.
  apply orb_false_iff in E as [E1%Z.ltb_ge E2%Z.ltb_ge]. lia.
Qed.

Lemma platforms_set v : v ∈ platforms → v ≠ "".
Proof. by intros Hv%one_of_spec ->. Qed.
Lemma dockerModes_set v : v ∈ dockerModes → v ≠ "".
Proof. by intros Hv%one_of_spec ->. Qed.

Section Laws.
Context `{Environ}.

Lemma loadGlobalConfig_ok :
  loadGlobalConfig.2 = [] →
  numbers_ok loadGlobalConfig.1 ∧ names_set loadGlobalConfig.1
  ∧ validateInstanceID (gc_InstanceID loadGlobalConfig.1) = None.
Proof.
  unfold loadGlobalConfig. cbn [fst snd]. intros He. no_errors.
  split; [|split].
  - split; cbn [gc_Behavior gc_Docker bh_DefaultTTL ReconcileInterval ShutdownTimeout
      DockerConnectTimeout HealthPort].
    + by apply (int_setting_ok (λ n, (1 ≤ n)%Z)); [|intros n ?%at_least_nil|].
    + by apply (duration_setting_ok (λ n, (time_Second ≤ n)%Z)); [|intros n ?%at_least_nil|].
    + by apply (duration_setting_ok (λ n, (time_Second ≤ n)%Z)); [|intros n ?%at_least_nil|].
    + by apply (duration_setting_ok (λ n, (0 ≤ n)%Z)); [|intros n ?%at_least_nil|].
    + by apply (int_setting_ok (λ n, (1 ≤ n ≤ 65535)%Z)); [|intros n ?%port_range_nil|].
  - unfold names_set. cbn [gc_Docker DockerMode gc_Platform].
    split; [eapply dockerModes_set|eapply platforms_set]; by eapply enum_error_nil.
  - cbn [gc_InstanceID]. apply (setting_ok (λ id, validateInstanceID id = None)); [done| |done].
    intros s a. unfold read_instance_id.
    destruct (validateInstanceID s) eqn:E; [done|]. by intros [= <-].
Qed.

Lemma override_ok {A} (P : A → Prop) key help example base read :
  P base → (∀ v a, read v = Some a → P a) → P (override key help example base read).1.
Proof.
  intros Hb Hr. unfold override, setting. destruct (_ != ""); [|done].
  destruct (read _) eqn:E; simpl; [by eapply Hr|done].
Qed.

Lemma guarded_ok P n m : guarded P n = Some m → P m = true.
Proof. unfold guarded. destruct n as [n|]; [|done]. destruct (P n) eqn:E; [by intros [= <-]|done]. Qed.

Lemma override_enum_set key base normalize check (allowed : list string) :
  (∀ v, check v (normalize v) = [] → normalize v ∈ allowed) → (∀ v, v ∈ allowed → v ≠ "") → base ≠ "" →
  (override_enum key base normalize check).2 = [] → (override_enum key base normalize check).1 ≠ "".
Proof.
  intros Hc Ha Hb. unfold override_enum. destruct (_ != ""); [|done]. simpl. intros Hn%Hc. by apply Ha.
Qed.

(** The environment keeps the numbers of the file right. *)
Lemma mergeGlobalConfig_ok base :
  numbers_ok base → names_set base → (mergeGlobalConfig base).2 = [] →
  numbers_ok (mergeGlobalConfig base).1 ∧ names_set (mergeGlobalConfig base).1.
Proof.
  intros [Ht Hi Hs Hc Hp] [Hd Hpl]. unfold mergeGlobalConfig. cbn [fst snd]. intros He. no_errors.
  split.
  - split; cbn [gc_Behavior gc_Docker bh_DefaultTTL ReconcileInterval ShutdownTimeout
      DockerConnectTimeout HealthPort]; try done.
    + apply (override_ok (λ n, (1 ≤ n)%Z)); [done|]. intros v a Hv%guarded_ok. by apply Z.leb_le in Hv.
    + apply (override_ok (λ n, (time_Second ≤ n)%Z)); [done|]. intros v a Hv%guarded_ok.
      by apply Z.leb_le in Hv.
    + apply (override_ok (λ n, (1 ≤ n ≤ 65535)%Z)); [done|]. intros v a Hv%guarded_ok.
      apply andb_true_iff in Hv as [?%Z.leb_le ?%Z.leb_le]. lia.
  - split; cbn [gc_Docker DockerMode gc_Platform].
    + eapply override_enum_set; [|exact dockerModes_set|done|done]. intros v. apply enum_error_nil.
    + eapply override_enum_set; [|exact platforms_set|done|done]. intros v. apply enum_error_nil.
Qed.

(** An instance id that the environment gives is accepted. *)
Lemma mergeGlobalConfig_id base :
  (mergeGlobalConfig base).2 = [] → getEnv "DNSWEAVER_INSTANCE_ID" ≠ "" →
  validateInstanceID (gc_InstanceID (mergeGlobalConfig base).1) = None.
Proof.
  unfold mergeGlobalConfig. cbn [fst snd gc_InstanceID]. intros He Hset. no_errors.
  unfold instance_id, setting in *. apply String.eqb_neq in Hset. rewrite Hset in *.
  cbn [negb] in *. unfold read_instance_id in *. by destruct (validateInstanceID _) eqn:E.
Qed.
End Laws.
