(* ===== verification/ConfigInstance.v ===== *)
(** * Provider instances and sources in the configuration
    (internal/config/instance.go, sources.go)

    The map of provider settings is updated in place by the code and shared by
    nothing else: it is a value here. *)
From S2P Require Import Prelude GoStrings Errors ProviderTypes GoTime Registry Matcher SourceRegistry.
From S2P Require Import ConfigEnv.
From Stdlib Require Import ZArith.

Record ProviderInstanceConfig := mkProviderInstance {
  pi_Name : string;
  pi_TypeName : string;
  pi_RecordType : RecordType;
  pi_Target : string;
  pi_TargetMode : string;
  pi_TargetRefreshInterval : Z;
  pi_TargetPublicEndpoints : list string;
  pi_TTL : Z;
  pi_Mode : OperationalMode;
  pi_Domains : list string;
  pi_DomainsRegex : list string;
  pi_ExcludeDomains : list string;
  pi_ExcludeDomainsRegex : list string;
  pi_MetadataFilters : gmap string (list string);
  pi_ProviderConfig : gmap string string
}.

Definition providerConfigFields : list (string * bool) :=
  [("URL", false); ("TOKEN", true); ("ZONE", false); ("ZONE_ID", false); ("API_KEY", true);
   ("API_EMAIL", false); ("PROXIED", false); ("AUTH_HEADER", false); ("AUTH_TOKEN", true);
   ("TIMEOUT", false); ("RETRIES", false); ("RETRY_DELAY", false); ("HOST_FILE", false);
   ("BACKUP", false); ("INCLUDE_MARKER", false); ("RELOAD_COMMAND", false); ("ACCESS_MODE", false);
   ("USERNAME", false); ("PASSWORD", true); ("API_SECRET", true); ("ENGINE", false);
   ("RECONFIGURE_MODE", false); ("INSECURE_SKIP_VERIFY", false); ("TLS_CA_FILE", false);
   ("TLS_CERT_FILE", false); ("TLS_KEY_FILE", false); ("TLS_SERVER_NAME", false);
   ("TLS_SKIP_VERIFY", false); ("TLS_MIN_VERSION", false); ("AUTO_HTTPS_RECORDS", false);
   ("AUTO_HTTPS_ALPN", false); ("SERVER", false); ("TSIG_KEY_NAME", false); ("TSIG_SECRET", true);
   ("TSIG_ALGORITHM", false); ("USE_TCP", false); ("APPLICATION_KEY", true);
   ("APPLICATION_SECRET", true); ("CONSUMER_KEY", true); ("ENDPOINT", false); ("SERVER_ID", false)].

(** The old name of a setting is replaced by the new one. *)
Definition resolveLegacyTLSSkipVerify (cfgMap : gmap string string) : gmap string string :=
  let legacy := "INSECURE_SKIP_VERIFY" in
  let canonical := "TLS_SKIP_VERIFY" in
  match cfgMap !! legacy, cfgMap !! canonical with
  | Some _, Some _ => delete legacy cfgMap
  | Some legacyVal, None => delete legacy (<[canonical := legacyVal]> cfgMap)
  | None, _ => cfgMap
  end.

(** A comma-separated list that is set. *)
Definition pattern_list (s : string) : list string := if s != "" then splitPatterns s else [].

Section Loading.
Context `{Environ}.

Definition parseInstances : list string :=
  let instancesStr := text_setting "DNSWEAVER_INSTANCES" (getEnv "DNSWEAVER_PROVIDERS") in
  if instancesStr == "" then [] else splitPatterns instancesStr.

(** The value of a provider setting in the environment. *)
Definition field_value (prefix : string) (field : string * bool) : string :=
  if field.2 : bool then getEnvWithFileFallback prefix field.1 else getEnv (prefix ++s field.1).

(** The provider settings of the environment over those of [m]. *)
Definition env_fields (prefix : string) (m : gmap string string) : gmap string string :=
  fold_left (λ m field,
    let value := field_value prefix field in
    if value != "" then <[field.1 := value]> m else m) providerConfigFields m.

(** The record type of a text that the environment or a file gives. *)
Definition read_record_type (s : string) : option RecordType :=
  if (s == "") || (s == "A") then Some RecordTypeA
  else if s == "AAAA" then Some RecordTypeAAAA
  else if s == "CNAME" then Some RecordTypeCNAME
  else None.

(** The settings of an instance, each with its errors. *)
Section Instance.
Context (instanceName : string).
#[local] Abbreviation prefix := (envPrefix instanceName).

Definition type_setting : string * list ConfigError :=
  let typeName := ToLower (getEnv (prefix ++s "TYPE")) in
  (typeName,
   if typeName == "" then
     [configErrFull (prefix ++s "TYPE") "required but not set"
        ("Provider " ++s Quote instanceName ++s " needs a type (e.g., technitium, cloudflare, pihole)")
        (prefix ++s "TYPE=technitium")]
   else []).

Definition record_type_setting : RecordType * list ConfigError :=
  let recordTypeStr := ToUpper (getEnv (prefix ++s "RECORD_TYPE")) in
  match read_record_type recordTypeStr with
  | Some t => (t, [])
  | None => ("", [configErrFull (prefix ++s "RECORD_TYPE") ("invalid value " ++s Quote recordTypeStr)
                    "Must be one of: A, AAAA, CNAME" (prefix ++s "RECORD_TYPE=A")])
  end.

Definition target_mode_setting : string := TrimSpace (getEnv (prefix ++s "TARGET_MODE")).

(** The target may be missing when there is a target mode. *)
Definition target_setting : string * list ConfigError :=
  let target := getEnv (prefix ++s "TARGET") in
  (target,
   if (target == "") && (target_mode_setting == "") then
     [configErrFull (prefix ++s "TARGET") "required but not set"
        ("Provider " ++s Quote instanceName
         ++s " needs a target IP or hostname for DNS records (or set " ++s prefix
         ++s "TARGET_MODE for dynamic resolution)")
        (prefix ++s "TARGET=10.0.0.1")]
   else []).

Definition refresh_setting : Z * list ConfigError :=
  setting (prefix ++s "TARGET_REFRESH_INTERVAL") 0%Z 0%Z
    (read_duration (prefix ++s "TARGET_REFRESH_INTERVAL") "Use a Go duration such as 5m, 30s, or 1h"
       (prefix ++s "TARGET_REFRESH_INTERVAL=5m")
       (at_least time_Second "must be at least 1s" "Refreshing more than once per second is not useful")).

Definition ttl_setting (defaultTTL : Z) : Z * list ConfigError :=
  setting (prefix ++s "TTL") defaultTTL 0%Z
    (read_int (prefix ++s "TTL") "Must be a positive integer (seconds)" (prefix ++s "TTL=300")
       (at_least 1 "must be at least 1" "TTL is in seconds; typical values are 60-3600")).

Definition read_mode (s : string) : OperationalMode + ConfigError :=
  match ParseOperationalMode s with
  | (mode, None) => inl mode
  | (_, Some err) =>
      inr (configErrFull (prefix ++s "MODE") (Error err)
             "Must be one of: managed, authoritative, additive" (prefix ++s "MODE=managed"))
  end.
Definition mode_setting : OperationalMode * list ConfigError :=
  setting (prefix ++s "MODE") ModeManaged "" read_mode.

(** Glob patterns and regular expressions: one of the two. *)
Definition include_setting : list string * list string * list ConfigError :=
  let domains := getEnv (prefix ++s "DOMAINS") in
  let domainsRegex := getEnv (prefix ++s "DOMAINS_REGEX") in
  if (domains != "") && (domainsRegex != "") then
    ([], [], [configErrHelp (TrimSuffix prefix "_") "cannot set both DOMAINS and DOMAINS_REGEX"
                ("Use either glob patterns (DOMAINS) or regex patterns (DOMAINS_REGEX), not both")])
  else if (domains == "") && (domainsRegex == "") then
    ([], [], [configErrFull (prefix ++s "DOMAINS") "required but not set"
                ("Provider " ++s Quote instanceName ++s " needs at least one domain pattern to match")
                (prefix ++s "DOMAINS=*.example.com")])
  else if domains != "" then (splitPatterns domains, [], [])
  else ([], splitPatterns domainsRegex, []).

Definition exclude_setting : list string * list string * list ConfigError :=
  let exclude := getEnv (prefix ++s "EXCLUDE_DOMAINS") in
  let excludeRegex := getEnv (prefix ++s "EXCLUDE_DOMAINS_REGEX") in
  if (exclude != "") && (excludeRegex != "") then
    ([], [], [configErrHelp (TrimSuffix prefix "_")
                "cannot set both EXCLUDE_DOMAINS and EXCLUDE_DOMAINS_REGEX"
                "Use either glob patterns or regex patterns for exclusions, not both"])
  else (pattern_list exclude, pattern_list excludeRegex, []).

(** The entry points of the instance as a filter on metadata. *)
Definition filter_setting : gmap string (list string) :=
  let eps := pattern_list (getEnv (prefix ++s "ENTRYPOINTS")) in
  if (0 <? length eps)%nat then {[ "traefik.entrypoint" := eps ]} else ∅.

Definition loadInstanceConfig (defaultTTL : Z) : ProviderInstanceConfig * list ConfigError :=
  let ttl := ttl_setting defaultTTL in
  (mkProviderInstance instanceName type_setting.1 record_type_setting.1 target_setting.1
     target_mode_setting refresh_setting.1
     (pattern_list (getEnv (prefix ++s "TARGET_PUBLIC_ENDPOINTS"))) ttl.1 mode_setting.1
     include_setting.1.1 include_setting.1.2 exclude_setting.1.1 exclude_setting.1.2
     filter_setting (resolveLegacyTLSSkipVerify (env_fields prefix ∅)),
   type_setting.2 ++ record_type_setting.2 ++ target_setting.2 ++ refresh_setting.2 ++ ttl.2
   ++ mode_setting.2 ++ include_setting.2 ++ exclude_setting.2).
End Instance.

(** The environment over an instance of a file.  A TTL or a mode that is wrong
    is passed over. *)
Definition mergeProviderEnvOverrides (cfg : ProviderInstanceConfig) : ProviderInstanceConfig :=
  let prefix := envPrefix (pi_Name cfg) in
  let ttl :=
    let s := getEnv (prefix ++s "TTL") in
    if s != "" then
      match Atoi s with Some n => if (1 <=? n)%Z then n else pi_TTL cfg | None => pi_TTL cfg end
    else pi_TTL cfg in
  let mode :=
    let s := getEnv (prefix ++s "MODE") in
    if s != "" then
      match ParseOperationalMode s with (mode, None) => mode | (_, Some _) => pi_Mode cfg end
    else pi_Mode cfg in
  mkProviderInstance (pi_Name cfg) (pi_TypeName cfg) (pi_RecordType cfg)
    (text_setting (prefix ++s "TARGET") (pi_Target cfg)) (pi_TargetMode cfg)
    (pi_TargetRefreshInterval cfg) (pi_TargetPublicEndpoints cfg) ttl mode (pi_Domains cfg)
    (pi_DomainsRegex cfg) (pi_ExcludeDomains cfg) (pi_ExcludeDomainsRegex cfg)
    (pi_MetadataFilters cfg)
    (resolveLegacyTLSSkipVerify (env_fields prefix (pi_ProviderConfig cfg))).
End Loading.

(** [ToProviderConfig]: the target mode and what belongs to it stay behind. *)
Definition ToProviderConfig (c : ProviderInstanceConfig) : Registry.ProviderInstanceConfig :=
  mkInstanceConfig (pi_Name c) (pi_TypeName c) (pi_RecordType c) (pi_Target c) (pi_TTL c) (pi_Mode c)
    (pi_Domains c) (pi_ExcludeDomains c) (pi_DomainsRegex c) (pi_ExcludeDomainsRegex c)
    (pi_MetadataFilters c) (pi_ProviderConfig c).

(** ** Sources (sources.go) *)

Record SourceInstanceConfig := mkSourceInstance {
  si_Name : string;
  si_FileDiscovery : FileDiscoveryConfig;
  si_DefaultEntryPoints : list string
}.

Record SourceConfig := mkSourceConfig {
  sc_Names : list string;
  sc_Instances : list SourceInstanceConfig
}.

(** A poll interval of at least a second, or the default. *)
Definition poll_interval (s : string) : Z :=
  match ParseDuration s with
  | Some d => if (time_Second <=? d)%Z then d else PollInterval DefaultFileDiscoveryConfig
  | None => PollInterval DefaultFileDiscoveryConfig
  end.

(** [DefaultFileDiscoveryConfig] with what is set: the environment and the file
    treat an absent setting as an empty text. *)
Definition discovery (paths : list string) (pattern interval method : string) : FileDiscoveryConfig :=
  let dflt := DefaultFileDiscoveryConfig in
  mkDiscovery paths (if pattern != "" then pattern else FilePattern dflt)
    (if interval != "" then poll_interval interval else PollInterval dflt)
    (if method != "" then ToLower method else WatchMethod dflt).

Definition sourceEnvPrefix (name : string) : string :=
  "DNSWEAVER_SOURCE_" ++s ToUpper name ++s "_".

Section Sources.
Context `{Environ}.

Definition parseSources : list string :=
  let sourcesStr := text_setting "DNSWEAVER_SOURCES" (getEnv "DNSWEAVER_SOURCE") in
  if sourcesStr == "" then ["traefik"]
  else List.filter (λ s, s != "") (map (λ s, ToLower (TrimSpace s)) (Split "," sourcesStr)).

Definition loadSourceInstanceConfig (name : string) : SourceInstanceConfig :=
  let prefix := sourceEnvPrefix name in
  mkSourceInstance name
    (discovery (pattern_list (getEnv (prefix ++s "FILE_PATHS"))) (getEnv (prefix ++s "FILE_PATTERN"))
       (getEnv (prefix ++s "POLL_INTERVAL")) (getEnv (prefix ++s "WATCH_METHOD")))
    (pattern_list (getEnv (prefix ++s "DEFAULT_ENTRYPOINTS"))).

Definition loadSourceConfig : SourceConfig :=
  mkSourceConfig parseSources (map loadSourceInstanceConfig parseSources).
End Sources.

Definition SourceConfig_GetSourceInstance (c : SourceConfig) (name : string)
  : nilable SourceInstanceConfig :=
  List.find (λ inst, si_Name inst == name) (sc_Instances c).

Definition SourceConfig_HasFileDiscovery (c : SourceConfig) : bool :=
  existsb (λ inst, IsEnabled (si_FileDiscovery inst)) (sc_Instances c).

(** ** Properties *)

Lemma splitPatterns_nonempty s p : p ∈ splitPatterns s → p ≠ "".
Proof.
  unfold splitPatterns, splitCommaList. rewrite list_elem_of_In, filter_In. intros [_ Hp] ->. done.
Qed.

Lemma read_record_type_ok s t :
  read_record_type s = Some t → t ∈ [RecordTypeA; RecordTypeAAAA; RecordTypeCNAME].
Proof. unfold read_record_type. repeat case_match; intros; simplify_eq; by apply one_of_spec. Qed.

Lemma ParseOperationalMode_valid s mode : ParseOperationalMode s = (mode, None) → Mode_IsValid mode = true.
Proof. unfold ParseOperationalMode. repeat case_match; intros; simplify_eq; done. Qed.

(** What a loaded instance has before the configuration is validated. *)
Record inst_loaded (i : ProviderInstanceConfig) : Prop := mkInstLoaded {
  il_name : pi_Name i ≠ "";
  il_type : pi_TypeName i ≠ "";
  il_record : pi_RecordType i ∈ [RecordTypeA; RecordTypeAAAA; RecordTypeCNAME];
  il_ttl : (1 ≤ pi_TTL i)%Z;
  il_mode : Mode_IsValid (pi_Mode i) = true;
  il_target : pi_Target i = "" → pi_TargetMode i ≠ "";
  il_includes : pi_Domains i = [] ∨ pi_DomainsRegex i = [];
  il_excludes : pi_ExcludeDomains i = [] ∨ pi_ExcludeDomainsRegex i = [];
  il_legacy : pi_ProviderConfig i !! "INSECURE_SKIP_VERIFY" = None
}.

Lemma resolveLegacy_lookup m k :
  resolveLegacyTLSSkipVerify m !! k =
    if k == "INSECURE_SKIP_VERIFY" then None
    else if k == "TLS_SKIP_VERIFY" then
      match m !! k with Some v => Some v | None => m !! "INSECURE_SKIP_VERIFY" end
    else m !! k.
Proof.
  unfold resolveLegacyTLSSkipVerify.
  destruct (String.eqb_spec k "INSECURE_SKIP_VERIFY") as [->|H1].
  { destruct (m !! "INSECURE_SKIP_VERIFY") eqn:E; [|done].
    destruct (m !! "TLS_SKIP_VERIFY"); by rewrite lookup_delete_eq. }
  destruct (String.eqb_spec k "TLS_SKIP_VERIFY") as [->|H2].
  - destruct (m !! "INSECURE_SKIP_VERIFY") eqn:E, (m !! "TLS_SKIP_VERIFY") eqn:E2; try done.
    + by rewrite lookup_delete_ne.
    + rewrite lookup_delete_ne by done. by rewrite lookup_insert_eq.
  - destruct (m !! "INSECURE_SKIP_VERIFY") eqn:E; [|done].
    destruct (m !! "TLS_SKIP_VERIFY"); rewrite lookup_delete_ne by done; [done|].
    by rewrite lookup_insert_ne.
Qed.

Section Laws.
Context `{Environ}.

Lemma parseInstances_nonempty n : n ∈ parseInstances → n ≠ "".
Proof. unfold parseInstances. destruct (_ == ""); [by intros ?%elem_of_nil|]. apply splitPatterns_nonempty. Qed.

Lemma include_setting_one name : (include_setting name).1.1 = [] ∨ (include_setting name).1.2 = [].
Proof. unfold include_setting. repeat case_match; simpl; auto. Qed.
Lemma exclude_setting_one name : (exclude_setting name).1.1 = [] ∨ (exclude_setting name).1.2 = [].
Proof.
  unfold exclude_setting, pattern_list.
  destruct (_ != ""), (_ != ""); simpl; auto.
Qed.

Lemma loadInstanceConfig_ok name ttl :
  name ≠ "" → (1 ≤ ttl)%Z → (loadInstanceConfig name ttl).2 = [] →
  inst_loaded (loadInstanceConfig name ttl).1.
Proof.
  intros Hn Ht He. unfold loadInstanceConfig in *. cbn [fst snd] in *. no_errors.
  split; cbn [pi_Name pi_TypeName pi_RecordType pi_TTL pi_Mode pi_Target pi_TargetMode pi_Domains
    pi_DomainsRegex pi_ExcludeDomains pi_ExcludeDomainsRegex pi_ProviderConfig].
  - done.
  - unfold type_setting in *. cbn [fst snd] in *. intros E. by rewrite E in *.
  - unfold record_type_setting in *. destruct (read_record_type _) eqn:E; [|done].
    by apply read_record_type_ok in E.
  - apply (int_setting_ok (λ n, (1 ≤ n)%Z)); [done| |done]. by intros n ?%at_least_nil.
  - apply (setting_ok (λ m, Mode_IsValid m = true)); [done| |done]. intros s mode. unfold read_mode.
    destruct (ParseOperationalMode s) as [m' [e|]] eqn:E; [done|]. intros [= <-].
    by apply ParseOperationalMode_valid in E.
  - unfold target_setting in *. cbn [fst snd] in *. intros E E2. by rewrite E, E2 in *.
  - apply include_setting_one.
  - apply exclude_setting_one.
  - by rewrite resolveLegacy_lookup.
Qed.

Lemma mergeProviderEnvOverrides_ok i :
  pi_Name i ≠ "" ∧ pi_TypeName i ≠ "" ∧ pi_RecordType i ∈ [RecordTypeA; RecordTypeAAAA; RecordTypeCNAME]
  ∧ (1 ≤ pi_TTL i)%Z ∧ Mode_IsValid (pi_Mode i) = true ∧ pi_Target i ≠ ""
  ∧ (pi_Domains i = [] ∨ pi_DomainsRegex i = [])
  ∧ (pi_ExcludeDomains i = [] ∨ pi_ExcludeDomainsRegex i = []) →
  inst_loaded (mergeProviderEnvOverrides i).
Proof.
  intros (? & ? & ? & ? & ? & ? & ? & ?). unfold mergeProviderEnvOverrides.
  split; cbn [pi_Name pi_TypeName pi_RecordType pi_TTL pi_Mode pi_Target pi_TargetMode pi_Domains
    pi_DomainsRegex pi_ExcludeDomains pi_ExcludeDomainsRegex pi_ProviderConfig]; try done.
  - repeat case_match; try done. by apply Z.leb_le.
  - destruct (_ != ""); [|done]. destruct (ParseOperationalMode _) as [m' [e|]] eqn:E; [done|].
    by apply ParseOperationalMode_valid in E.
  - unfold text_setting. destruct (getEnv _ != "") eqn:E; [|done]. intros E2. by rewrite E2 in E.
  - by rewrite resolveLegacy_lookup.
Qed.
End Laws.

(** ** Provider settings from the environment *)

(** Whether a name is one of the provider settings, and whether it is a secret. *)
Definition is_field (k : string) : option bool := snd <$> List.find (λ f, f.1 == k) providerConfigFields.

Section Fields.
Context `{Environ}.

(** A setting of the environment. *)
Definition env_field (prefix k : string) : option string :=
  match is_field k with
  | Some secret => let v := field_value prefix (k, secret) in if v != "" then Some v else None
  | None => None
  end.

Lemma fields_NoDup : NoDup (map fst providerConfigFields).
Proof. apply (bool_decide_unpack _). by vm_compute. Qed.

Lemma fold_fields_lookup (value : string * bool → string) l (m : gmap string string) k :
  NoDup (map fst l) →
  fold_left (λ m f, if value f != "" then <[f.1 := value f]> m else m) l m !! k =
    match List.find (λ f, f.1 == k) l with
    | Some f => if value f != "" then Some (value f) else m !! k
    | None => m !! k
    end.
Proof.
  revert m. induction l as [|f l IH]; intros m Hn; [done|].
  cbn [fold_left map List.find] in *. apply NoDup_cons in Hn as [Hf Hl]. rewrite IH by done.
  destruct (String.eqb_spec f.1 k) as [Ek|Ek].
  - assert (List.find (λ f, f.1 == k) l = None) as ->.
    { destruct (List.find _ l) as [g|] eqn:E; [|done]. apply List.find_some in E as [Hg Hk].
      apply String.eqb_eq in Hk. destruct Hf. rewrite Ek, <- Hk. apply list_elem_of_fmap_2.
      by apply list_elem_of_In. }
    destruct (value f != ""); [|done]. subst k. by rewrite lookup_insert_eq.
  - destruct (value f != ""); rewrite ?lookup_insert_ne by done; done.
Qed.

Lemma env_fields_lookup prefix m k :
  env_fields prefix m !! k = match env_field prefix k with Some v => Some v | None => m !! k end.
Proof.
  unfold env_fields. rewrite (fold_fields_lookup (field_value prefix)) by apply fields_NoDup.
  unfold env_field, is_field. destruct (List.find _ _) as [f|] eqn:E; [|done].
  apply List.find_some in E as [_ Ek%String.eqb_eq]. subst k. cbn [fmap option_fmap option_map snd].
  destruct f as [k b]. cbn [fst snd]. by destruct (_ != "").
Qed.

(** The provider settings of an instance from the environment, one by one: the
    old name of the TLS setting never reaches a provider and stands in for the
    new name when that is not set; every other setting of the table has the
    value of its variable, or of the file its variable names when it is a
    secret; and nothing else is ever set. *)
Theorem provider_settings_exact name ttl k :
  pi_ProviderConfig (loadInstanceConfig name ttl).1 !! k =
    let at_ := env_field (envPrefix name) in
    if k == "INSECURE_SKIP_VERIFY" then None
    else if k == "TLS_SKIP_VERIFY" then
      match at_ k with Some v => Some v | None => at_ "INSECURE_SKIP_VERIFY" end
    else at_ k.
Proof.
  unfold loadInstanceConfig. cbn [fst pi_ProviderConfig]. rewrite resolveLegacy_lookup, !env_fields_lookup.
  assert (∀ o : option string, match o with Some v => Some v | None => None end = o) as Ho
    by (by intros []).
  rewrite !lookup_empty, !Ho. done.
Qed.

(** What is not in the table never reaches a provider. *)
Lemma provider_setting_absent name ttl k :
  is_field k = None → pi_ProviderConfig (loadInstanceConfig name ttl).1 !! k = None.
Proof.
  intros Hk. unfold loadInstanceConfig. cbn [fst pi_ProviderConfig].
  rewrite resolveLegacy_lookup, !env_fields_lookup. unfold env_field. rewrite Hk, lookup_empty.
  destruct (String.eqb_spec k "INSECURE_SKIP_VERIFY"); [done|].
  by destruct (String.eqb_spec k "TLS_SKIP_VERIFY") as [->|].
Qed.

(** An instance under another name. *)
Definition renamed (name : string) (i : ProviderInstanceConfig) : ProviderInstanceConfig :=
  mkProviderInstance name (pi_TypeName i) (pi_RecordType i) (pi_Target i) (pi_TargetMode i)
    (pi_TargetRefreshInterval i) (pi_TargetPublicEndpoints i) (pi_TTL i) (pi_Mode i) (pi_Domains i)
    (pi_DomainsRegex i) (pi_ExcludeDomains i) (pi_ExcludeDomainsRegex i) (pi_MetadataFilters i)
    (pi_ProviderConfig i).

(** Names that differ in case or in dashes and underscores read the same
    variables. *)
Lemma loadInstanceConfig_prefix a b ttl :
  envPrefix a = envPrefix b →
  (loadInstanceConfig b ttl).1 = renamed b (loadInstanceConfig a ttl).1.
Proof.
  intros E. unfold loadInstanceConfig, renamed. cbn [fst pi_TypeName pi_RecordType pi_TTL pi_Mode
    pi_Target pi_TargetMode pi_TargetRefreshInterval pi_TargetPublicEndpoints pi_Domains
    pi_DomainsRegex pi_ExcludeDomains pi_ExcludeDomainsRegex pi_MetadataFilters pi_ProviderConfig].
  assert ((include_setting b).1 = (include_setting a).1) as ->.
  { unfold include_setting. rewrite E. by repeat case_match. }
  unfold type_setting, record_type_setting, target_setting, target_mode_setting, refresh_setting,
    ttl_setting, mode_setting, read_mode, exclude_setting, filter_setting.
  by rewrite E.
Qed.
End Fields.
