(* ===== verification/ConfigFile.v ===== *)
(** * The configuration file (internal/config/file.go, loader.go)

    The YAML library reads a text into a [FileConfig]; interpolation, the
    conversion to the settings of the program and its defaults are the code's
    own. *)
From S2P Require Import Prelude GoStrings Errors ProviderTypes GoTime GoMaps SourceRegistry.
From S2P Require Import ConfigEnv ConfigGlobal ConfigInstance.
From Stdlib Require Import ZArith.

(** ** Data: pointers in the file tell absent settings from zero *)

Record FileRotationConfig := mkRotation {
  fr_MaxSize : nilable Z;
  fr_MaxBackups : nilable Z;
  fr_MaxAge : nilable Z;
  fr_Compress : nilable bool
}.

Record FileLoggingConfig := mkLogging {
  fl_Level : string;
  fl_Format : string;
  fl_File : string;
  fl_Rotation : nilable FileRotationConfig
}.

Record FileReconcilerConfig := mkReconciler {
  fc_Interval : string;
  fc_ShutdownTimeout : string;
  fc_DryRun : nilable bool;
  fc_CleanupOrphans : nilable bool;
  fc_CleanupOnStop : nilable bool;
  fc_OwnershipTracking : nilable bool;
  fc_AdoptExisting : nilable bool;
  fc_InstanceID : string
}.

Record FileDockerConfig := mkFileDocker {
  fd_Host : string;
  fd_Mode : string;
  fd_ConnectTimeout : string
}.

Record FileKubernetesConfig := mkFileKubernetes {
  fk_Kubeconfig : string;
  fk_Namespaces : list string;
  fk_WatchIngress : nilable bool;
  fk_WatchIngressRoute : nilable bool;
  fk_WatchHTTPRoute : nilable bool;
  fk_WatchServices : nilable bool;
  fk_LabelSelector : string;
  fk_AnnotationFilter : string
}.

Record FileFileDiscoveryConfig := mkFileDiscovery {
  ff_Paths : list string;
  ff_Pattern : string;
  ff_PollInterval : string;
  ff_WatchMethod : string
}.

Record FileSourceConfig := mkFileSource {
  fs_Name : string;
  fs_FileDiscovery : nilable FileFileDiscoveryConfig
}.

Record FileProviderConfig := mkFileProvider {
  fp_Name : string;
  fp_Type : string;
  fp_Domains : list string;
  fp_DomainsRegex : list string;
  fp_ExcludeDomains : list string;
  fp_ExcludeDomainsRegex : list string;
  fp_RecordType : string;
  fp_Target : string;
  fp_TTL : Z;
  fp_Mode : string;
  fp_Config : gmap string string
}.

Record FileConfig := mkFileConfig {
  fg_Logging : nilable FileLoggingConfig;
  fg_Reconciler : nilable FileReconcilerConfig;
  fg_Platform : string;
  fg_InstanceID : string;
  fg_Docker : nilable FileDockerConfig;
  fg_Kubernetes : nilable FileKubernetesConfig;
  fg_Sources : list FileSourceConfig;
  fg_Providers : list FileProviderConfig;
  fg_Server : nilable Z
}.

(** What the YAML library makes of a text. *)
Class YamlConfig := yaml_Unmarshal : string → FileConfig + error.

(** ** Interpolation *)

(** A match of [envVarPattern] at the start of [s]: a dollar, a brace, a name
    without brace and colon, optionally a colon, a dash and a default without
    brace, and a brace.  Gives the name, the default and what follows; the name
    and the default cannot be shorter, since what comes after is not in them. *)
Definition env_var_at (s : string) : option (string * string * string) :=
  match s with
  | String "$" (String "{" s) =>
      let '(name, rest) := span_until (λ c, Ascii.eqb c "}" || Ascii.eqb c ":") s in
      if name == "" then None
      else
        match rest with
        | String "}" rest => Some (name, "", rest)
        | String ":" (String "-" rest) =>
            match span_until (Ascii.eqb "}") rest with
            | (dflt, String _ rest) => Some (name, dflt, rest)
            | (_, EmptyString) => None
            end
        | _ => None
        end
  | _ => None
  end.

Section Interpolation.
Context `{Environ}.

Definition env_value (name dflt : string) : string :=
  let value := getEnv name in if value != "" then value else dflt.

(** The leftmost matches, one after the other; [skip] bytes belong to the last
    match. *)
Fixpoint interpolate (skip : nat) (s : string) : string :=
  match s with
  | EmptyString => ""
  | String c t =>
      match skip with
      | S skip => interpolate skip t
      | O =>
          match env_var_at s with
          | Some (name, dflt, rest) =>
              env_value name dflt ++s interpolate (String.length t - String.length rest) t
          | None => String c (interpolate 0 t)
          end
      end
  end.

Definition InterpolateEnvVars (s : string) : string := interpolate 0 s.

Definition interpolateLogging (l : FileLoggingConfig) : FileLoggingConfig :=
  mkLogging (InterpolateEnvVars (fl_Level l)) (InterpolateEnvVars (fl_Format l))
    (InterpolateEnvVars (fl_File l)) (fl_Rotation l).

Definition interpolateReconciler (r : FileReconcilerConfig) : FileReconcilerConfig :=
  mkReconciler (InterpolateEnvVars (fc_Interval r)) (InterpolateEnvVars (fc_ShutdownTimeout r))
    (fc_DryRun r) (fc_CleanupOrphans r) (fc_CleanupOnStop r) (fc_OwnershipTracking r)
    (fc_AdoptExisting r) (InterpolateEnvVars (fc_InstanceID r)).

(** The connect timeout is passed over. *)
Definition interpolateDocker (d : FileDockerConfig) : FileDockerConfig :=
  mkFileDocker (InterpolateEnvVars (fd_Host d)) (InterpolateEnvVars (fd_Mode d)) (fd_ConnectTimeout d).

Definition interpolateKubernetes (k : FileKubernetesConfig) : FileKubernetesConfig :=
  mkFileKubernetes (InterpolateEnvVars (fk_Kubeconfig k)) (map InterpolateEnvVars (fk_Namespaces k))
    (fk_WatchIngress k) (fk_WatchIngressRoute k) (fk_WatchHTTPRoute k) (fk_WatchServices k)
    (InterpolateEnvVars (fk_LabelSelector k)) (InterpolateEnvVars (fk_AnnotationFilter k)).

Definition interpolateSource (s : FileSourceConfig) : FileSourceConfig :=
  mkFileSource (InterpolateEnvVars (fs_Name s))
    (match fs_FileDiscovery s with
     | None => None
     | Some fd =>
         Some (mkFileDiscovery (map InterpolateEnvVars (ff_Paths fd)) (InterpolateEnvVars (ff_Pattern fd))
                 (InterpolateEnvVars (ff_PollInterval fd)) (InterpolateEnvVars (ff_WatchMethod fd)))
     end).

Definition interpolateProvider (p : FileProviderConfig) : FileProviderConfig :=
  mkFileProvider (InterpolateEnvVars (fp_Name p)) (InterpolateEnvVars (fp_Type p))
    (map InterpolateEnvVars (fp_Domains p)) (map InterpolateEnvVars (fp_DomainsRegex p))
    (map InterpolateEnvVars (fp_ExcludeDomains p)) (map InterpolateEnvVars (fp_ExcludeDomainsRegex p))
    (InterpolateEnvVars (fp_RecordType p)) (InterpolateEnvVars (fp_Target p)) (fp_TTL p)
    (InterpolateEnvVars (fp_Mode p)) (InterpolateEnvVars <$> fp_Config p).

Definition interpolateEnvVars (c : FileConfig) : FileConfig :=
  mkFileConfig (interpolateLogging <$> fg_Logging c) (interpolateReconciler <$> fg_Reconciler c)
    (InterpolateEnvVars (fg_Platform c)) (InterpolateEnvVars (fg_InstanceID c))
    (interpolateDocker <$> fg_Docker c) (interpolateKubernetes <$> fg_Kubernetes c)
    (map interpolateSource (fg_Sources c)) (map interpolateProvider (fg_Providers c)) (fg_Server c).

Context `{YamlConfig}.

Definition LoadFile (path : string) : FileConfig + error :=
  match ReadFile path with
  | inr err => inr (EWrapf "reading config file: " err)
  | inl data =>
      match yaml_Unmarshal data with
      | inr err => inr (EWrapf "parsing YAML config: " err)
      | inl cfg => inl (interpolateEnvVars cfg)
      end
  end.
End Interpolation.

(** ** Conversion *)

(** A text of the file over a default, a pointer over a default. *)
Definition over (s dflt : string) : string := if s != "" then s else dflt.
Definition over_ptr {A} (p : nilable A) (dflt : A) : A := default dflt p.

(** A duration of the file that is at least [lo]; anything else is passed over. *)
Definition over_duration (s : string) (lo dflt : Z) : Z :=
  if s != "" then
    match ParseDuration s with
    | Some d => if (lo <=? d)%Z then d else dflt
    | None => dflt
    end
  else dflt.

Definition fileLog (c : FileConfig) : LogSettings :=
  match fg_Logging c with
  | None =>
      mkLogSettings DefaultLogLevel DefaultLogFormat "" DefaultLogMaxSize DefaultLogMaxBackups
        DefaultLogMaxAge DefaultLogCompress
  | Some l =>
      let rotation := default (mkRotation None None None None) (fl_Rotation l) in
      mkLogSettings (if fl_Level l != "" then ToLower (fl_Level l) else DefaultLogLevel)
        (if fl_Format l != "" then ToLower (fl_Format l) else DefaultLogFormat) (fl_File l)
        (over_ptr (fr_MaxSize rotation) DefaultLogMaxSize)
        (over_ptr (fr_MaxBackups rotation) DefaultLogMaxBackups)
        (over_ptr (fr_MaxAge rotation) DefaultLogMaxAge)
        (over_ptr (fr_Compress rotation) DefaultLogCompress)
  end.

(** A port outside the range is passed over. *)
Definition filePort (c : FileConfig) : Z :=
  match fg_Server c with
  | Some port => if (0 <? port)%Z && (port <=? 65535)%Z then port else DefaultHealthPort
  | None => DefaultHealthPort
  end.

Definition fileBehavior (c : FileConfig) : BehaviorSettings :=
  let r := default (mkReconciler "" "" None None None None None "") (fg_Reconciler c) in
  mkBehavior (over_ptr (fc_DryRun r) DefaultDryRun)
    (over_ptr (fc_CleanupOrphans r) DefaultCleanupOrphans)
    (over_ptr (fc_CleanupOnStop r) DefaultCleanupOnStop)
    (over_ptr (fc_OwnershipTracking r) DefaultOwnershipTracking)
    (over_ptr (fc_AdoptExisting r) DefaultAdoptExisting) DefaultTTL
    (over_duration (fc_Interval r) time_Second DefaultReconcileInterval)
    (over_duration (fc_ShutdownTimeout r) time_Second DefaultShutdownTimeout) (filePort c).

Definition fileDocker (c : FileConfig) : DockerSettings :=
  let d := default (mkFileDocker "" "" "") (fg_Docker c) in
  mkDocker (over (fd_Host d) DefaultDockerHost)
    (if fd_Mode d != "" then ToLower (fd_Mode d) else DefaultDockerMode)
    (over_duration (fd_ConnectTimeout d) 0 DefaultDockerConnectTimeout).

Definition fileK8s (c : FileConfig) : K8sSettings :=
  let k := default (mkFileKubernetes "" [] None None None None "" "") (fg_Kubernetes c) in
  mkK8s (fk_Kubeconfig k) (Join "," (fk_Namespaces k)) (over_ptr (fk_WatchIngress k) true)
    (over_ptr (fk_WatchIngressRoute k) true) (over_ptr (fk_WatchHTTPRoute k) true)
    (over_ptr (fk_WatchServices k) false) (fk_LabelSelector k) (fk_AnnotationFilter k).

Definition fileInstanceID (c : FileConfig) : string :=
  over (fg_InstanceID c) (match fg_Reconciler c with Some r => fc_InstanceID r | None => "" end).

(** The file has no settings for Proxmox and Incus. *)
Definition ToGlobalConfig (c : FileConfig) : GlobalConfig :=
  mkGlobalConfig (fileLog c) (fileBehavior c)
    (if fg_Platform c != "" then ToLower (fg_Platform c) else DefaultPlatform)
    (fileDocker c) (fileK8s c)
    (match fg_Sources c with [] => DefaultSource | s :: _ => fs_Name s end)
    zero_proxmox zero_incus (fileInstanceID c).

Definition at_provider (name : string) : string := "providers[" ++s name ++s "]".

Section Convert.
Context `{MapOrder}.

(** The keys of the map in upper case; of keys that become one, the last that
    [range] visits counts. *)
Definition upper_keys (m : gmap string string) : gmap string string :=
  fold_left (λ acc kv, <[ToUpper kv.1 := kv.2]> acc) (range m) ∅.

(** The record type and the mode of an instance of the file. *)
Definition file_record_type (fp : FileProviderConfig) : RecordType * list ConfigError :=
  match read_record_type (ToUpper (fp_RecordType fp)) with
  | Some t => (t, [])
  | None => ("", [configErrFull (at_provider (fp_Name fp) ++s ".record_type")
                    ("invalid value " ++s Quote (fp_RecordType fp))
                    "Must be one of: A, AAAA, CNAME" "record_type: A"])
  end.

Definition file_mode (fp : FileProviderConfig) : OperationalMode * list ConfigError :=
  if fp_Mode fp != "" then
    match ParseOperationalMode (fp_Mode fp) with
    | (mode, None) => (mode, [])
    | (_, Some err) => ("", [configErr (at_provider (fp_Name fp) ++s ".mode") (Error err)])
    end
  else (ModeManaged, []).

Definition given (l : list string) : bool := (0 <? length l)%nat.

(** The errors of the pattern lists. *)
Definition file_pattern_errors (fp : FileProviderConfig) : list ConfigError :=
  let at_ := at_provider (fp_Name fp) in
  (if negb (given (fp_Domains fp)) && negb (given (fp_DomainsRegex fp)) then
     [configErrFull (at_ ++s ".domains") "domains or domains_regex is required"
        "Specify which domains this provider should manage"
        ("domains: [" ++s Quote "*.example.com" ++s "]")]
   else [])
  ++ (if given (fp_Domains fp) && given (fp_DomainsRegex fp) then
        [configErrHelp at_ "cannot set both domains and domains_regex"
           "Use either glob patterns or regex patterns, not both"]
      else [])
  ++ (if given (fp_ExcludeDomains fp) && given (fp_ExcludeDomainsRegex fp) then
        [configErrHelp at_ "cannot set both exclude_domains and exclude_domains_regex"
           "Use either glob patterns or regex patterns for exclusions, not both"]
      else []).

(** The errors of the texts that an instance must have. *)
Definition file_name_errors (fp : FileProviderConfig) : list ConfigError :=
  (if fp_Name fp == "" then [configErr "providers[].name" "name is required for each provider"]
   else [])
  ++ (if ToLower (fp_Type fp) == "" then
        [configErrFull (at_provider (fp_Name fp) ++s ".type") "type is required"
           ("Provider " ++s Quote (fp_Name fp) ++s " needs a type") "type: technitium"]
      else []).

Definition file_target_errors (fp : FileProviderConfig) : list ConfigError :=
  if fp_Target fp == "" then
    [configErrFull (at_provider (fp_Name fp) ++s ".target") "target is required"
       ("Provider " ++s Quote (fp_Name fp) ++s " needs a target IP or hostname") "target: 10.0.0.1"]
  else [].

Definition convertFileProvider (fp : FileProviderConfig) (defaultTTL : Z)
  : ProviderInstanceConfig * list ConfigError :=
  (mkProviderInstance (fp_Name fp) (ToLower (fp_Type fp)) (file_record_type fp).1 (fp_Target fp) "" 0 []
     (if (0 <? fp_TTL fp)%Z then fp_TTL fp else defaultTTL) (file_mode fp).1 (fp_Domains fp)
     (fp_DomainsRegex fp) (fp_ExcludeDomains fp) (fp_ExcludeDomainsRegex fp) ∅
     (upper_keys (fp_Config fp)),
   file_name_errors fp ++ (file_record_type fp).2 ++ file_target_errors fp ++ (file_mode fp).2
   ++ file_pattern_errors fp).

Definition convertFileSource (fs : FileSourceConfig) : SourceInstanceConfig :=
  mkSourceInstance (fs_Name fs)
    (match fs_FileDiscovery fs with
     | None => DefaultFileDiscoveryConfig
     | Some fd => discovery (ff_Paths fd) (ff_Pattern fd) (ff_PollInterval fd) (ff_WatchMethod fd)
     end) [].

Definition convertFileSources (fileSources : list FileSourceConfig) : nilable SourceConfig :=
  match fileSources with
  | [] => None
  | _ => Some (mkSourceConfig (map fs_Name fileSources) (map convertFileSource fileSources))
  end.

Context `{Environ} `{YamlConfig}.

(** A file that cannot be read or parsed gives nothing but an error. *)
Definition loadFromFile (path : string)
  : nilable GlobalConfig * list ProviderInstanceConfig * nilable SourceConfig * list ConfigError :=
  if path == "" then (None, [], None, [])
  else
    match LoadFile path with
    | inr err => (None, [], None, [configErr "config_file" (Error err)])
    | inl fileCfg =>
        let global := ToGlobalConfig fileCfg in
        let converted :=
          map (λ fp, convertFileProvider fp (bh_DefaultTTL (gc_Behavior global)))
            (fg_Providers fileCfg) in
        (Some global, map fst converted, convertFileSources (fg_Sources fileCfg),
         concat (map snd converted))
    end.
End Convert.

(** ** Properties of interpolation *)

(** A template: texts without a dollar and variables, with a default or not. *)
Inductive segment :=
| Text (s : string)
| Var (name : string) (dflt : option string).

Definition seg_ok (g : segment) : Prop :=
  match g with
  | Text s => str_contains_byte "$" s = false
  | Var name dflt =>
      name ≠ "" ∧ str_contains_byte "}" name = false ∧ str_contains_byte ":" name = false
      ∧ str_contains_byte "}" (default "" dflt) = false
  end.

Definition render (g : segment) : string :=
  match g with
  | Text s => s
  | Var name None => "${" ++s name ++s "}"
  | Var name (Some d) => "${" ++s name ++s ":-" ++s d ++s "}"
  end.

Definition seg_value `{Environ} (g : segment) : string :=
  match g with
  | Text s => s
  | Var name dflt =>
      match LookupEnv name with
      | Some (String c v) => String c v
      | _ => default "" dflt
      end
  end.

Lemma seg_value_var `{Environ} name dflt :
  seg_value (Var name dflt) = env_value name (default "" dflt).
Proof. unfold env_value, getEnv. simpl. by destruct (LookupEnv name) as [[]|]. Qed.

Lemma not_contains_cons c d s :
  str_contains_byte c (String d s) = false ↔ Ascii.eqb c d = false ∧ str_contains_byte c s = false.
Proof. simpl. by rewrite orb_false_iff. Qed.

Lemma forallb_not_bytes a b s :
  str_contains_byte a s = false → str_contains_byte b s = false →
  str_forallb (λ c, negb (Ascii.eqb c a || Ascii.eqb c b)) s = true.
Proof.
  induction s as [|c s IH]; [done|]. rewrite !not_contains_cons. intros [Ha ?] [Hb ?].
  cbn [str_forallb]. rewrite IH by done. rewrite (Ascii.eqb_sym c a), (Ascii.eqb_sym c b), Ha, Hb. done.
Qed.

Lemma forallb_not_byte a s :
  str_contains_byte a s = false → str_forallb (λ c, negb (Ascii.eqb a c)) s = true.
Proof.
  induction s as [|c s IH]; [done|]. rewrite not_contains_cons. intros [Ha ?].
  cbn [str_forallb]. by rewrite IH, Ha.
Qed.

Lemma env_var_at_render name dflt t :
  seg_ok (Var name dflt) →
  env_var_at (render (Var name dflt) ++s t) = Some (name, default "" dflt, t).
Proof.
  intros (Hn & Hb & Hc & Hd). unfold render, env_var_at.
  pose proof (forallb_not_bytes "}" ":" name Hb Hc) as Hspan.
  destruct dflt as [d|].
  - change (("${" ++s name ++s ":-" ++s d ++s "}") ++s t)
      with (String "$" (String "{" ((name ++s ":-" ++s d ++s "}") ++s t))).
    cbv beta iota. rewrite app_assoc_s.
    change ((":-" ++s d ++s "}") ++s t) with (String ":" (String "-" ((d ++s "}") ++s t))).
    rewrite span_until_app by done. cbv beta iota.
    destruct (String.eqb_spec name "") as [|_]; [done|].
    rewrite app_assoc_s. change ("}" ++s t) with (String "}" t).
    by rewrite span_until_app by (done || by apply forallb_not_byte).
  - change (("${" ++s name ++s "}") ++s t) with (String "$" (String "{" ((name ++s "}") ++s t))).
    cbv beta iota. rewrite app_assoc_s. change ("}" ++s t) with (String "}" t).
    rewrite span_until_app by done. cbv beta iota. by destruct (String.eqb_spec name "").
Qed.

Section InterpolationLaws.
Context `{Environ}.

Lemma interpolate_skip p t : interpolate (String.length p) (p ++s t) = interpolate 0 t.
Proof. induction p as [|c p IH]; [done|]. simpl. exact IH. Qed.

Lemma interpolate_text s t :
  str_contains_byte "$" s = false → interpolate 0 (s ++s t) = s ++s interpolate 0 t.
Proof.
  induction s as [|c s IH]; [done|]. rewrite not_contains_cons. intros [Hc Hs].
  change (String c s ++s t) with (String c (s ++s t)).
  change (String c s ++s interpolate 0 t) with (String c (s ++s interpolate 0 t)).
  rewrite <- IH by done. cbn [interpolate].
  assert (env_var_at (String c (s ++s t)) = None) as ->; [|done].
  apply Ascii.eqb_neq in Hc. unfold env_var_at.
  destruct c as [[] [] [] [] [] [] [] []]; done.
Qed.

Lemma interpolate_var name dflt t :
  seg_ok (Var name dflt) →
  interpolate 0 (render (Var name dflt) ++s t) = env_value name (default "" dflt) ++s interpolate 0 t.
Proof.
  intros Hok. pose proof (env_var_at_render name dflt t Hok) as E.
  assert (∃ p, render (Var name dflt) = String "$" p) as [p Ep] by (destruct dflt; by eexists).
  rewrite Ep in *. change (String "$" p ++s t) with (String "$" (p ++s t)) in *.
  cbn [interpolate]. rewrite E. f_equal.
  rewrite length_app_s. replace (String.length p + String.length t - String.length t)%nat
    with (String.length p) by lia.
  apply interpolate_skip.
Qed.

(** Interpolation of a template: the texts stay as they are and every variable
    gives its value in the environment, or its default when it has none or an
    empty one.  What a variable gives is not interpolated again. *)
Theorem interpolation_template segs :
  Forall seg_ok segs →
  InterpolateEnvVars (String.concat "" (map render segs)) = String.concat "" (map seg_value segs).
Proof.
  intros Hok. unfold InterpolateEnvVars.
  assert (∀ f, String.concat "" (map f segs) = foldr (λ g acc, f g ++s acc) "" segs) as Hf.
  { intros f. induction segs as [|g segs IH]; [done|]. apply Forall_cons in Hok as [_ Hok].
    destruct segs as [|h segs]; [simpl; by rewrite app_empty_r|].
    change (String.concat "" (map f (g :: h :: segs)))
      with (f g ++s "" ++s String.concat "" (map f (h :: segs))).
    by rewrite IH. }
  rewrite !Hf. clear Hf. induction Hok as [|g segs Hg Hok IH]; [done|]. simpl.
  rewrite <- IH. destruct g as [s|name dflt]; [by apply interpolate_text|].
  rewrite seg_value_var. by apply interpolate_var.
Qed.
End InterpolationLaws.

(** ** Properties of the conversion *)

Lemma ToLower_set s : s ≠ "" → ToLower s ≠ "".
Proof. by destruct s. Qed.

Lemma over_duration_ok s lo dflt : (lo ≤ dflt)%Z → (lo ≤ over_duration s lo dflt)%Z.
Proof.
  intros Hd. unfold over_duration. destruct (s != ""); [|done]. destruct (ParseDuration s) as [d|]; [|done].
  destruct (lo <=? d)%Z eqn:E; [by apply Z.leb_le|done].
Qed.

(** The numbers that come out of a file are right, whatever is in it. *)
Lemma ToGlobalConfig_ok c : numbers_ok (ToGlobalConfig c) ∧ names_set (ToGlobalConfig c).
Proof.
  split.
  - split; unfold ToGlobalConfig, fileBehavior, fileDocker; cbn [gc_Behavior gc_Docker bh_DefaultTTL
      ReconcileInterval ShutdownTimeout DockerConnectTimeout HealthPort]; try done.
    + by apply over_duration_ok.
    + by apply over_duration_ok.
    + by apply over_duration_ok.
    + unfold filePort, DefaultHealthPort. destruct (fg_Server c) as [port|]; [|done].
      destruct (_ && _) eqn:E; [|done]. apply andb_true_iff in E as [?%Z.ltb_lt ?%Z.leb_le]. lia.
  - unfold names_set, ToGlobalConfig, fileDocker. cbn [gc_Docker DockerMode gc_Platform]. split.
    + destruct (String.eqb_spec (fd_Mode (default (mkFileDocker "" "" "") (fg_Docker c))) ""); [done|].
      by apply ToLower_set.
    + destruct (String.eqb_spec (fg_Platform c) ""); [done|]. by apply ToLower_set.
Qed.

Section ConvertLaws.
Context `{MapOrder}.

Lemma convertFileProvider_ok fp ttl :
  (1 ≤ ttl)%Z → (convertFileProvider fp ttl).2 = [] →
  let i := (convertFileProvider fp ttl).1 in
  pi_Name i ≠ "" ∧ pi_TypeName i ≠ "" ∧ pi_RecordType i ∈ [RecordTypeA; RecordTypeAAAA; RecordTypeCNAME]
  ∧ (1 ≤ pi_TTL i)%Z ∧ Mode_IsValid (pi_Mode i) = true ∧ pi_Target i ≠ ""
  ∧ (pi_Domains i = [] ∨ pi_DomainsRegex i = [])
  ∧ (pi_ExcludeDomains i = [] ∨ pi_ExcludeDomainsRegex i = []).
Proof.
  intros Ht He i. unfold convertFileProvider in *. cbn [fst snd] in *.
  unfold file_name_errors, file_target_errors, file_pattern_errors in He. no_errors. unfold i.
  cbn [pi_Name pi_TypeName pi_RecordType pi_TTL pi_Mode pi_Target pi_Domains pi_DomainsRegex
    pi_ExcludeDomains pi_ExcludeDomainsRegex].
  split_and!.
  - by intros E; rewrite E in *.
  - by intros E; rewrite E in *.
  - unfold file_record_type in *. destruct (read_record_type _) eqn:E; [|done].
    by apply read_record_type_ok in E.
  - destruct (0 <? fp_TTL fp)%Z eqn:E; [apply Z.ltb_lt in E; lia|done].
  - unfold file_mode in *. destruct (fp_Mode fp != ""); [|done].
    destruct (ParseOperationalMode (fp_Mode fp)) as [m' [e|]] eqn:E; [done|].
    by apply ParseOperationalMode_valid in E.
  - by intros E; rewrite E in *.
  - unfold given in *. destruct (fp_Domains fp), (fp_DomainsRegex fp); simpl in *; auto; done.
  - unfold given in *. destruct (fp_ExcludeDomains fp), (fp_ExcludeDomainsRegex fp); simpl in *; auto; done.
Qed.

(** A file gives patterns. *)
Lemma convertFileProvider_patterns fp ttl :
  (convertFileProvider fp ttl).2 = [] →
  pi_Domains (convertFileProvider fp ttl).1 ≠ [] ∨ pi_DomainsRegex (convertFileProvider fp ttl).1 ≠ [].
Proof.
  unfold convertFileProvider, file_pattern_errors. cbn [fst snd pi_Domains pi_DomainsRegex].
  intros He. no_errors. unfold given in *.
  destruct (fp_Domains fp), (fp_DomainsRegex fp); simpl in *; auto; done.
Qed.
End ConvertLaws.
