(* ===== verification/ConfigLoad.v ===== *)
(** * Loading the configuration (internal/config/config.go, validate.go) *)
From S2P Require Import Prelude GoStrings Errors ProviderTypes NetIP GoTime GoMaps Matcher SourceRegistry Registry Target.
From S2P Require Import ConfigEnv ConfigGlobal ConfigInstance ConfigFile.
From Stdlib Require Import ZArith.

Record Config := mkConfig {
  Global : GlobalConfig;
  ProviderNames : list string;
  ProviderInstances : list ProviderInstanceConfig;
  Sources : nilable SourceConfig;
  ConfigFile : string
}.

(** ** Validation (validate.go) *)

(** [validateGlobPattern]: the text of the error. *)
Definition bad_wildcard (label : string) : bool :=
  Contains label "*" && (label != "*") && negb (HasPrefix label "*").

Definition validateGlobPattern (pattern : string) : option string :=
  if pattern == "" then Some "empty pattern"
  else if Contains pattern "*.*" then
    Some "double wildcard (*.*..) is not supported; use a single * per label"
  else
    match List.find bad_wildcard (Split "." pattern) with
    | Some label => Some ("wildcard must be at the start of a label, got " ++s Quote label)
    | None => None
    end.

Definition validateTargetRecordType (inst : ProviderInstanceConfig) : list ConfigError :=
  let prefix := envPrefix (pi_Name inst) in
  let field := prefix ++s "TARGET" in
  let e1 :=
    if pi_TargetMode inst != "" then
      match Target.Parse (pi_TargetMode inst) FamilyIPv4 with
      | inr err =>
          [configErrFull (prefix ++s "TARGET_MODE") (Error err)
             "Use 'public' or 'interface:<name>' (e.g. interface:eth0)"
             (prefix ++s "TARGET_MODE=public")]
      | inl _ => []
      end
      ++ (if pi_RecordType inst == RecordTypeCNAME then
            [configErrFull (prefix ++s "TARGET_MODE")
               ("TARGET_MODE " ++s Quote (pi_TargetMode inst) ++s " cannot be used with CNAME records")
               "Dynamic target modes resolve IP addresses; use an A or AAAA record type"
               (prefix ++s "RECORD_TYPE=A")]
          else [])
    else [] in
  if (pi_TargetMode inst != "") && (pi_Target inst == "") then e1
  else
    let target := pi_Target inst in
    e1 ++
    (if pi_RecordType inst == RecordTypeA then
       match ParseIP target with
       | None =>
           [configErrFull field ("A records must point to an IP address, got " ++s Quote target)
              "Set TARGET to a valid IPv4 address for A records" (prefix ++s "TARGET=10.0.0.1")]
       | Some ip =>
           match To4 ip with
           | None =>
               [configErrFull field
                  ("A records must point to an IPv4 address, got IPv6 " ++s Quote target)
                  "Use AAAA record type for IPv6 addresses" (prefix ++s "RECORD_TYPE=AAAA")]
           | Some _ => []
           end
       end
     else if pi_RecordType inst == RecordTypeAAAA then
       if isIPv6Address target then []
       else
         [configErrFull field ("AAAA records must point to an IPv6 address, got " ++s Quote target)
            "Set TARGET to a valid IPv6 address for AAAA records" (prefix ++s "TARGET=2001:db8::1")]
     else if pi_RecordType inst == RecordTypeCNAME then
       match ParseIP target with
       | Some _ =>
           [configErrFull field ("CNAME records cannot point to IP addresses, got " ++s Quote target)
              "Use a hostname for CNAME targets, or change to an A/AAAA record type"
              (prefix ++s "TARGET=host.example.com")]
       | None => []
       end
     else []).

(** The errors of the patterns that [check] refuses, in order. *)
Definition pattern_errors (field what help example : string) (check : string → option string)
    (patterns : list string) : list ConfigError :=
  omap (λ pattern,
    match check pattern with
    | Some err => Some (configErrFull field (what ++s " " ++s Quote pattern ++s ": " ++s err) help example)
    | None => None
    end) patterns.

Definition bad_regex `{RegexpEngine} (pattern : string) : option string :=
  match Compile pattern with inr err => Some (Error err) | inl _ => None end.

Definition validateDomainPatterns `{RegexpEngine} (inst : ProviderInstanceConfig) : list ConfigError :=
  let prefix := envPrefix (pi_Name inst) in
  pattern_errors (prefix ++s "DOMAINS") "invalid domain pattern"
    "Domain patterns use glob syntax: * matches any characters within a label"
    (prefix ++s "DOMAINS=*.example.com,internal.example.com") validateGlobPattern (pi_Domains inst)
  ++ pattern_errors (prefix ++s "EXCLUDE_DOMAINS") "invalid exclude pattern"
       "Exclude patterns use the same glob syntax as DOMAINS"
       (prefix ++s "EXCLUDE_DOMAINS=test.*.example.com") validateGlobPattern (pi_ExcludeDomains inst)
  ++ pattern_errors (prefix ++s "DOMAINS_REGEX") "invalid regex pattern"
       "Regex patterns must be valid Go regular expressions"
       (prefix ++s "DOMAINS_REGEX=^.*\.example\.com$") bad_regex (pi_DomainsRegex inst)
  ++ pattern_errors (prefix ++s "EXCLUDE_DOMAINS_REGEX") "invalid exclude regex"
       "Regex patterns must be valid Go regular expressions"
       (prefix ++s "EXCLUDE_DOMAINS_REGEX=^test\..*$") bad_regex (pi_ExcludeDomainsRegex inst).

(** One error for each instance whose name an earlier one has. *)
Fixpoint duplicate_names (seen : list string) (insts : list ProviderInstanceConfig)
  : list ConfigError :=
  match insts with
  | [] => []
  | inst :: insts =>
      (if one_of (pi_Name inst) seen then
         [configErrHelp "providers" ("duplicate provider instance name: " ++s Quote (pi_Name inst))
            "Each provider instance must have a unique name"]
       else [])
      ++ duplicate_names (pi_Name inst :: seen) insts
  end.

Definition validateConfig `{RegexpEngine} (global : GlobalConfig)
    (insts : list ProviderInstanceConfig) : list ConfigError :=
  let level := LogLevel (gc_Log global) in
  let format := LogFormat (gc_Log global) in
  let mode := DockerMode (gc_Docker global) in
  let platform := gc_Platform global in
  enum_error "log_level" level "Must be one of: debug, info, warn, error" "DNSWEAVER_LOG_LEVEL=info"
    level logLevels
  ++ enum_error "log_format" format "Must be one of: json, text" "DNSWEAVER_LOG_FORMAT=json"
       format logFormats
  ++ enum_error "docker_mode" mode "Must be one of: auto, swarm, standalone"
       "DNSWEAVER_DOCKER_MODE=auto" mode ("" :: dockerModes)
  ++ enum_error "platform" platform "Must be one of: docker, kubernetes, both, none"
       "DNSWEAVER_PLATFORM=docker" platform ("" :: platforms)
  ++ duplicate_names [] insts
  ++ concat (map validateTargetRecordType insts)
  ++ concat (map validateDomainPatterns insts).

Definition validateProviderType (typeName : string) (knownTypes : list string) : option error :=
  if one_of typeName knownTypes then None
  else Some (ENew ("unknown provider type: " ++s Quote typeName ++s " (known types: "
                   ++s Join ", " knownTypes ++s ")")).

(** ** Load (config.go) *)

Section Load.
Context `{RegexpEngine} `{MapOrder} `{Environ} `{YamlConfig}.

Definition GetConfigFilePath : string := getEnv "DNSWEAVER_CONFIG".

(** The instances: from the environment when it names some, else those of the
    file under the environment. *)
Definition load_providers (global : GlobalConfig) (fileProviders : list ProviderInstanceConfig)
  : list string * list ProviderInstanceConfig * list ConfigError :=
  match parseInstances with
  | (_ :: _) as names =>
      let loaded := map (λ name, loadInstanceConfig name (bh_DefaultTTL (gc_Behavior global))) names in
      (names, map fst loaded, concat (map snd loaded))
  | [] =>
      match fileProviders with
      | _ :: _ => (map pi_Name fileProviders, map mergeProviderEnvOverrides fileProviders, [])
      | [] =>
          ([], [], [configErrFull "providers" "no providers configured"
                      "Define providers via DNSWEAVER_INSTANCES env var or in the config file"
                      "DNSWEAVER_INSTANCES=my-dns"])
      end
  end.

Definition load_sources (fileSources : nilable SourceConfig) : SourceConfig :=
  if getEnv "DNSWEAVER_SOURCES" != "" then loadSourceConfig
  else match fileSources with Some s => s | None => loadSourceConfig end.

Definition load_global (fileGlobal : nilable GlobalConfig) : GlobalConfig * list ConfigError :=
  match fileGlobal with Some base => mergeGlobalConfig base | None => loadGlobalConfig end.

Definition Load : Config + list ConfigError :=
  let configPath := GetConfigFilePath in
  let '(fileGlobal, fileProviders, fileSources, e1) := loadFromFile configPath in
  let '(global, e2) := load_global fileGlobal in
  let '(providerNames, instances, e3) := load_providers global fileProviders in
  let cfg := mkConfig global providerNames instances (Some (load_sources fileSources)) configPath in
  match e1 ++ e2 ++ e3 ++ validateConfig global instances with
  | [] => inl cfg
  | errs => inr errs
  end.
End Load.

(** ** Accessors with a rule of their own *)

Definition UseDocker (c : Config) : bool :=
  (gc_Platform (Global c) == "docker") || (gc_Platform (Global c) == "both").
Definition UseKubernetes (c : Config) : bool :=
  (gc_Platform (Global c) == "kubernetes") || (gc_Platform (Global c) == "both").
Definition UseProxmox (c : Config) : bool := ProxmoxURL (gc_Proxmox (Global c)) != "".
Definition UseIncus (c : Config) : bool :=
  (IncusURL (gc_Incus (Global c)) != "") || (IncusSocketPath (gc_Incus (Global c)) != "").

(** The TLS settings of a platform, [nil] when none is set. *)
Definition platform_tls (t : TLSSettings) : nilable TLSConfig :=
  let minVersion :=
    if ts_MinVersion t != "" then
      match ParseTLSMinVersion (ts_MinVersion t) with inl v => v | inr _ => 0%Z end
    else 0%Z in
  let tls := mkTLS (ts_CAFile t) (ts_CertFile t) (ts_KeyFile t) (ts_ServerName t) (ts_SkipVerify t)
               (ts_PinSHA256 t) minVersion in
  if TLS_IsZero tls then None else Some tls.
Definition Config_ProxmoxTLS (c : Config) : nilable TLSConfig :=
  platform_tls (ProxmoxTLS (gc_Proxmox (Global c))).
Definition Config_IncusTLS (c : Config) : nilable TLSConfig :=
  platform_tls (IncusTLS (gc_Incus (Global c))).

Definition all_projects_word (p : string) : bool := (p == "*") || EqualFold p "all".
Definition Config_IncusAllProjects (c : Config) : bool :=
  IncusAllProjects (gc_Incus (Global c))
  || existsb all_projects_word (IncusProjects (gc_Incus (Global c))).
Definition Config_IncusProjects (c : Config) : list string :=
  if Config_IncusAllProjects c then []
  else List.filter (λ p, negb (all_projects_word p)) (IncusProjects (gc_Incus (Global c))).

Definition GetProviderInstance (c : Config) (name : string) : nilable ProviderInstanceConfig :=
  List.find (λ inst, pi_Name inst == name) (ProviderInstances c).
Definition GetSourceInstance (c : Config) (name : string) : nilable SourceInstanceConfig :=
  match Sources c with Some s => SourceConfig_GetSourceInstance s name | None => None end.
Definition SourceNames (c : Config) : list string :=
  match Sources c with Some s => sc_Names s | None => [] end.
Definition HasFileDiscovery (c : Config) : bool :=
  match Sources c with Some s => SourceConfig_HasFileDiscovery s | None => false end.

(** ** What validation accepts *)

Definition glob_valid (p : string) : Prop :=
  p ≠ "" ∧ Contains p "*.*" = false ∧
  ∀ label, label ∈ Split "." p → Contains label "*" = true → label = "*" ∨ HasPrefix label "*" = true.

Lemma find_none_iff {A} (f : A → bool) l : List.find f l = None ↔ ∀ x, x ∈ l → f x = false.
Proof.
  split.
  - intros Hn x Hx. eapply List.find_none; [done|by apply list_elem_of_In].
  - intros Hf. destruct (List.find f l) as [x|] eqn:E; [|done]. apply List.find_some in E as [Hx Ht].
    rewrite Hf in Ht by (by apply list_elem_of_In). done.
Qed.

Lemma validateGlobPattern_exact p : validateGlobPattern p = None ↔ glob_valid p.
Proof.
  unfold validateGlobPattern, glob_valid. rewrite !early_return_None, String.eqb_neq.
  assert (∀ o : option string, match o with Some label =>
      Some ("wildcard must be at the start of a label, got " ++s Quote label) | None => None end = None
      ↔ o = None) as -> by (intros []; naive_solver).
  rewrite find_none_iff. do 2 (apply and_iff_compat_l).
  apply forall_proper; intros label. unfold bad_wildcard.
  destruct (Contains label "*"), (String.eqb_spec label "*"), (HasPrefix label "*"); naive_solver.
Qed.

Lemma pattern_errors_nil field what help example check l :
  pattern_errors field what help example check l = [] ↔ Forall (λ p, check p = None) l.
Proof.
  unfold pattern_errors. induction l as [|p l IH]; simpl; [done|]. rewrite Forall_cons.
  destruct (check p); [naive_solver|]. rewrite IH. naive_solver.
Qed.

(** A regular expression that compiles. *)
Definition regex_valid `{RegexpEngine} (p : string) : Prop := ∃ r, Compile p = inl r.

Record patterns_valid `{RegexpEngine} (i : ProviderInstanceConfig) : Prop := mkPatternsValid {
  pv_domains : Forall glob_valid (pi_Domains i);
  pv_excludes : Forall glob_valid (pi_ExcludeDomains i);
  pv_regex : Forall regex_valid (pi_DomainsRegex i);
  pv_excludes_regex : Forall regex_valid (pi_ExcludeDomainsRegex i)
}.

(** A literal target that fits the record type. *)
Definition literal_valid (i : ProviderInstanceConfig) : Prop :=
  (pi_RecordType i = RecordTypeA → isIPv4Address (pi_Target i) = true) ∧
  (pi_RecordType i = RecordTypeAAAA → isIPv6Address (pi_Target i) = true) ∧
  (pi_RecordType i = RecordTypeCNAME → isIPAddress (pi_Target i) = false).

(** A target mode that is one and resolves addresses for an address record; the
    literal target fits unless it is left out for a mode. *)
Definition target_valid (i : ProviderInstanceConfig) : Prop :=
  (pi_TargetMode i ≠ "" →
    (∃ r, Target.Parse (pi_TargetMode i) FamilyIPv4 = inl r) ∧ pi_RecordType i ≠ RecordTypeCNAME) ∧
  (pi_TargetMode i ≠ "" ∧ pi_Target i = "" ∨ literal_valid i).

Lemma literal_errors_nil i e1 e2 e3 e4 :
  (if pi_RecordType i == RecordTypeA then
     match ParseIP (pi_Target i) with
     | None => [e1]
     | Some ip => match To4 ip with None => [e2] | Some _ => [] end
     end
   else if pi_RecordType i == RecordTypeAAAA then
     if isIPv6Address (pi_Target i) then [] else [e3]
   else if pi_RecordType i == RecordTypeCNAME then
     match ParseIP (pi_Target i) with Some _ => [e4] | None => [] end
   else ([] : list ConfigError)) = [] ↔ literal_valid i.
Proof.
  unfold literal_valid, isIPAddress, isIPv4Address.
  destruct (String.eqb_spec (pi_RecordType i) RecordTypeA) as [->|];
    [|destruct (String.eqb_spec (pi_RecordType i) RecordTypeAAAA) as [->|];
      [|destruct (String.eqb_spec (pi_RecordType i) RecordTypeCNAME) as [->|]]].
  - destruct (ParseIP _) as [ip|]; [destruct (To4 ip)|]; naive_solver.
  - destruct (isIPv6Address _); naive_solver.
  - destruct (ParseIP _) as [ip|]; naive_solver.
  - naive_solver.
Qed.

Lemma validateTargetRecordType_nil i : validateTargetRecordType i = [] ↔ target_valid i.
Proof.
  unfold validateTargetRecordType, target_valid.
  destruct (String.eqb_spec (pi_TargetMode i) "") as [->|Hm]; cbn [negb andb].
  - rewrite app_nil_l, literal_errors_nil. naive_solver.
  - assert (∀ (o : nilable Resolver + error) e (b : bool) d, match o with inr err => [e err] | inl _ => [] end
      ++ (if b then [d] else []) = ([] : list ConfigError) ↔ (∃ r, o = inl r) ∧ b = false) as Hmode.
    { intros [r|err] e [] d; naive_solver. }
    destruct (String.eqb_spec (pi_Target i) "") as [->|Ht].
    + rewrite Hmode, String.eqb_neq. naive_solver.
    + rewrite app_nil, Hmode, literal_errors_nil, String.eqb_neq. naive_solver.
Qed.

Lemma validateDomainPatterns_nil `{RegexpEngine} i : validateDomainPatterns i = [] ↔ patterns_valid i.
Proof.
  unfold validateDomainPatterns. rewrite !app_nil, !pattern_errors_nil.
  assert (∀ p, bad_regex p = None ↔ regex_valid p) as Hr.
  { intros p. unfold bad_regex, regex_valid. destruct (Compile p); naive_solver. }
  rewrite !(Forall_iff _ _ _ validateGlobPattern_exact), !(Forall_iff _ _ _ Hr).
  split; [intros (? & ? & ? & ?); by constructor|by intros []].
Qed.

Lemma duplicate_names_nil seen insts :
  duplicate_names seen insts = [] ↔
  NoDup (map pi_Name insts) ∧ ∀ i, i ∈ insts → pi_Name i ∉ seen.
Proof.
  revert seen. induction insts as [|i insts IH]; intros seen; simpl.
  { split; [|done]. intros _. split; [constructor|]. by intros i ?%elem_of_nil. }
  rewrite app_nil, IH, NoDup_cons. setoid_rewrite elem_of_cons.
  assert ((if one_of (pi_Name i) seen then
      [configErrHelp "providers" ("duplicate provider instance name: " ++s Quote (pi_Name i))
         "Each provider instance must have a unique name"] else []) = [] ↔ pi_Name i ∉ seen) as ->.
  { rewrite <- one_of_spec. destruct (one_of (pi_Name i) seen); naive_solver. }
  assert (pi_Name i ∉ map pi_Name insts ↔ ∀ j, j ∈ insts → pi_Name j ≠ pi_Name i) as ->.
  { rewrite list_elem_of_fmap. naive_solver. }
  naive_solver.
Qed.

(** A configuration without a cross-field error. *)
Record config_valid `{RegexpEngine} (g : GlobalConfig) (insts : list ProviderInstanceConfig) : Prop :=
  mkConfigValid {
  cv_level : LogLevel (gc_Log g) ∈ logLevels;
  cv_format : LogFormat (gc_Log g) ∈ logFormats;
  cv_mode : DockerMode (gc_Docker g) ∈ "" :: dockerModes;
  cv_platform : gc_Platform g ∈ "" :: platforms;
  cv_names : NoDup (map pi_Name insts);
  cv_targets : Forall target_valid insts;
  cv_patterns : Forall patterns_valid insts
}.

Lemma concat_map_nil {A B} (f : A → list B) (P : A → Prop) l :
  (∀ a, f a = [] ↔ P a) → concat (map f l) = [] ↔ Forall P l.
Proof. intros Hf. induction l as [|x l IH]; simpl; [done|]. by rewrite app_nil, Forall_cons, IH, Hf. Qed.

(** Validation finds no error exactly when the levels, formats, modes and
    platform are among those there are, the names of the instances differ, the
    target of each instance fits its record type and its target mode, and its
    patterns are well formed. *)
Theorem validateConfig_exact `{RegexpEngine} g insts :
  validateConfig g insts = [] ↔ config_valid g insts.
Proof.
  unfold validateConfig. rewrite !app_nil, !enum_error_nil, duplicate_names_nil.
  rewrite (concat_map_nil _ _ _ validateTargetRecordType_nil),
    (concat_map_nil _ _ _ validateDomainPatterns_nil).
  split.
  - intros (? & ? & ? & ? & [? _] & ? & ?). by constructor.
  - intros []. split_and!; try done. intros i _ ?%elem_of_nil. done.
Qed.

(** ** What a loaded configuration is *)

Lemma concat_map_all {A B C} (f : A → B * list C) l :
  concat (map snd (map f l)) = [] → ∀ a, a ∈ l → (f a).2 = [].
Proof.
  induction l as [|x l IH]; simpl; [by intros _ a ?%elem_of_nil|].
  intros [Hx Hl]%app_nil a [->|Ha]%elem_of_cons; [done|by apply IH].
Qed.

(** A configuration that the program may start with. *)
Record config_ok `{RegexpEngine} (c : Config) : Prop := mkConfigOk {
  co_numbers : numbers_ok (Global c);
  co_level : LogLevel (gc_Log (Global c)) ∈ logLevels;
  co_format : LogFormat (gc_Log (Global c)) ∈ logFormats;
  co_mode : DockerMode (gc_Docker (Global c)) ∈ dockerModes;
  co_platform : gc_Platform (Global c) ∈ platforms;
  co_order : ProviderNames c = map pi_Name (ProviderInstances c);
  co_some : ProviderInstances c ≠ [];
  co_names : NoDup (ProviderNames c);
  co_loaded : Forall inst_loaded (ProviderInstances c);
  co_targets : Forall target_valid (ProviderInstances c);
  co_patterns : Forall patterns_valid (ProviderInstances c)
}.

Section LoadLaws.
Context `{RegexpEngine} `{MapOrder} `{Environ} `{YamlConfig}.

(** What loading has found, step by step. *)
Lemma Load_inl cfg :
  Load = inl cfg →
  ∃ fg fps fs, loadFromFile GetConfigFilePath = (fg, fps, fs, []) ∧
  (load_global fg).2 = [] ∧ Global cfg = (load_global fg).1 ∧
  (load_providers (Global cfg) fps).2 = [] ∧
  ProviderNames cfg = (load_providers (Global cfg) fps).1.1 ∧
  ProviderInstances cfg = (load_providers (Global cfg) fps).1.2 ∧
  Sources cfg = Some (load_sources fs) ∧ ConfigFile cfg = GetConfigFilePath ∧
  config_valid (Global cfg) (ProviderInstances cfg).
Proof.
  unfold Load. destruct (loadFromFile GetConfigFilePath) as [[[fg fps] fs] e1].
  destruct (load_global fg) as [g e2] eqn:E2. destruct (load_providers g fps) as [[names insts] e3] eqn:E3.
  destruct (e1 ++ e2 ++ e3 ++ validateConfig g insts) eqn:E; [|done]. intros [= <-].
  apply app_nil in E as [-> [-> [-> Hv]%app_nil]%app_nil]. apply validateConfig_exact in Hv.
  exists fg, fps, fs. cbn [Global ProviderNames ProviderInstances Sources ConfigFile].
  by rewrite E2, E3.
Qed.

(** A file without errors: what it gives. *)
Lemma loadFromFile_cases path fg fps fs :
  loadFromFile path = (fg, fps, fs, []) →
  (path = "" ∧ fg = None ∧ fps = []) ∨
  (path ≠ "" ∧ ∃ file, LoadFile path = inl file ∧ fg = Some (ToGlobalConfig file) ∧
   fps = map (λ fp, (convertFileProvider fp DefaultTTL).1) (fg_Providers file) ∧
   ∀ fp, fp ∈ fg_Providers file → (convertFileProvider fp DefaultTTL).2 = []).
Proof.
  unfold loadFromFile. destruct (String.eqb_spec path "") as [->|Hp]; [intros [= <- <- <-]; by left|].
  destruct (LoadFile path) as [file|err] eqn:E; [|done].
  cbn [ToGlobalConfig gc_Behavior fileBehavior bh_DefaultTTL].
  intros [= <- <- <- He]. right. split; [done|]. exists file. split_and!; [done..|by rewrite map_map|].
  intros fp Hfp. by eapply (concat_map_all (λ fp, convertFileProvider fp DefaultTTL)).
Qed.

Lemma load_global_ok path fg fps fs :
  loadFromFile path = (fg, fps, fs, []) → (load_global fg).2 = [] →
  numbers_ok (load_global fg).1 ∧ names_set (load_global fg).1.
Proof.
  intros [(_ & -> & _)|(_ & file & _ & -> & _)]%loadFromFile_cases He; unfold load_global in *.
  - by destruct (loadGlobalConfig_ok He) as (? & ? & _).
  - destruct (ToGlobalConfig_ok file). by apply mergeGlobalConfig_ok.
Qed.

Lemma merge_name i : pi_Name (mergeProviderEnvOverrides i) = pi_Name i.
Proof. done. Qed.

(** The instances of a load without errors: their names in order, at least one,
    each of them loaded. *)
Lemma load_providers_ok path fg fps fs g :
  loadFromFile path = (fg, fps, fs, []) → (1 ≤ bh_DefaultTTL (gc_Behavior g))%Z →
  (load_providers g fps).2 = [] →
  (load_providers g fps).1.1 = map pi_Name (load_providers g fps).1.2 ∧
  (load_providers g fps).1.2 ≠ [] ∧ Forall inst_loaded (load_providers g fps).1.2.
Proof.
  intros Hf Httl He. unfold load_providers in *.
  destruct parseInstances as [|n names] eqn:En.
  - destruct fps as [|fp fps]; [done|]. cbn [fst snd]. split_and!; [|done|].
    + by rewrite map_map.
    + apply loadFromFile_cases in Hf as [(_ & _ & ?)|(_ & file & _ & _ & Hfps & Hno)]; [done|].
      rewrite Hfps. apply Forall_fmap, Forall_fmap, Forall_forall. intros x Hx. simpl.
      apply mergeProviderEnvOverrides_ok, convertFileProvider_ok; [done|by apply Hno].
  - cbn [fst snd] in *. rewrite !map_map. cbn [fst loadInstanceConfig pi_Name]. split_and!.
    + by rewrite map_id.
    + done.
    + apply Forall_fmap, Forall_forall. intros x Hx. simpl.
      apply loadInstanceConfig_ok; [|done|].
      * apply parseInstances_nonempty. by rewrite En.
      * by eapply (concat_map_all (λ name, loadInstanceConfig name (bh_DefaultTTL (gc_Behavior g)))).
Qed.

Lemma elem_of_rest {A} (x a : A) l : x ∈ a :: l → x ≠ a → x ∈ l.
Proof. by intros [->|]%elem_of_cons. Qed.

(** The global settings and the instances of a loaded configuration. *)
Lemma Load_parts cfg :
  Load = inl cfg →
  (numbers_ok (Global cfg) ∧ names_set (Global cfg)) ∧
  (ProviderNames cfg = map pi_Name (ProviderInstances cfg) ∧ ProviderInstances cfg ≠ [] ∧
   Forall inst_loaded (ProviderInstances cfg)) ∧
  config_valid (Global cfg) (ProviderInstances cfg).
Proof.
  intros (fg & fps & fs & Hf & Hg & Eg & Hp & En & Ei & _ & _ & Hv)%Load_inl.
  destruct (load_global_ok _ _ _ _ Hf Hg) as [Hnum Hset]. rewrite <- Eg in *.
  destruct (load_providers_ok _ _ _ _ _ Hf (no_ttl _ Hnum) Hp) as (Hord & Hsome & Hloaded).
  by rewrite <- Ei, <- En in *.
Qed.

(** C11. Whatever the environment and the configuration file are, a configuration
    that loads is one that the program may start with: the intervals, timeouts,
    port and TTLs are in range, the names of levels, modes and platform are
    known, there is at least one instance, their names are different and in
    priority order, each has a type, a valid record type, TTL and mode, patterns
    of one kind that are well formed, a target that fits the record type or a
    target mode that can be resolved, and no deprecated TLS key. *)
Theorem Load_sound cfg : Load = inl cfg → config_ok cfg.
Proof.
  intros ([Hnum [Hmode Hplat]] & (Hord & ? & ?) & [])%Load_parts.
  split; try done; [by eapply elem_of_rest..|by rewrite Hord].
Qed.

(** C12. The provider manager accepts an instance of a loaded configuration exactly
    when it has a literal target and at least one pattern: a target mode does
    not replace the target. *)
Theorem loaded_instance_accepted cfg i :
  Load = inl cfg → i ∈ ProviderInstances cfg →
  Registry.Config_Validate (ToProviderConfig i) = None ↔
  pi_Target i ≠ "" ∧ (pi_Domains i ≠ [] ∨ pi_DomainsRegex i ≠ []).
Proof.
  intros (_ & (_ & _ & Hl) & [_ _ _ _ _ Ht _])%Load_parts Hi. rewrite Registry.Config_Validate_exact. unfold ToProviderConfig.
  cbn [ic_Name ic_TypeName ic_RecordType ic_Target ic_TTL ic_Domains ic_DomainsRegex].
  rewrite Forall_forall in Hl, Ht.
  destruct (Hl i Hi) as [? ? Hrec ? _ _ Hinc _ _]. destruct (Ht i Hi) as [_ Htar].
  unfold target_fits. split.
  - intros (_ & _ & Hfit & _ & Hone). split; [|naive_solver].
    destruct Hfit as [[_ H4]|[[_ H6]|(_ & ? & _)]]; [| |done]; intros E; rewrite E in *; done.
  - intros [Hne Hpat]. split_and!; [done..| |done|naive_solver].
    destruct Htar as [[_ ?]|(H4 & H6 & Hc)]; [done|].
    rewrite !elem_of_cons, elem_of_nil in Hrec. naive_solver.
Qed.

(** With a configuration file there is no Proxmox and no Incus, whatever the
    variables say: the file has no settings for them and those of the
    environment are read only without a file. *)
Theorem config_file_hides_platforms cfg :
  Load = inl cfg → ConfigFile cfg ≠ "" →
  UseProxmox cfg = false ∧ UseIncus cfg = false ∧
  Config_ProxmoxTLS cfg = None ∧ Config_IncusTLS cfg = None.
Proof.
  intros (fg & fps & fs & Hf & _ & Eg & _ & _ & _ & _ & Ec & _)%Load_inl Hne. rewrite Ec in Hne.
  apply loadFromFile_cases in Hf as [[? _]|(_ & file & _ & -> & _)]; [done|].
  assert (gc_Proxmox (Global cfg) = zero_proxmox ∧ gc_Incus (Global cfg) = zero_incus) as [Hp Hi]
    by (by rewrite Eg).
  unfold UseProxmox, UseIncus, Config_ProxmoxTLS, Config_IncusTLS. by rewrite Hp, Hi.
Qed.

(** Read from the environment, or without a file, an instance id is one that an
    ownership marker can carry: at most 63 bytes, none of them a comma or an
    equals sign. *)
Theorem instance_id_checked cfg :
  Load = inl cfg → ConfigFile cfg = "" ∨ getEnv "DNSWEAVER_INSTANCE_ID" ≠ "" →
  let id := gc_InstanceID (Global cfg) in
  (String.length id ≤ MaxInstanceIDLength)%nat ∧
  str_contains_byte "," id = false ∧ str_contains_byte "=" id = false.
Proof.
  intros (fg & fps & fs & Hf & Hg & Eg & _ & _ & _ & _ & Ec & _)%Load_inl Hsrc id.
  assert (validateInstanceID id = None) as [Hl Hb]%validateInstanceID_accepts.
  { unfold id. rewrite Eg.
    apply loadFromFile_cases in Hf as [(_ & -> & _)|(Hne & file & _ & -> & _)].
    - by destruct (loadGlobalConfig_ok Hg) as (_ & _ & ?).
    - destruct Hsrc as [?|Henv]; [by rewrite <- Ec in Hne|]. by apply mergeGlobalConfig_id. }
  split; [done|]. split; by apply (forallb_excludes id_byte).
Qed.

(** Two names that differ only in case, or in dashes and underscores, are
    different names to the validation and one name to the environment: the
    instances have the same settings. *)
Theorem colliding_names_share_settings cfg a b :
  Load = inl cfg → parseInstances ≠ [] → a ∈ ProviderNames cfg → b ∈ ProviderNames cfg →
  envPrefix a = envPrefix b →
  ∃ i, i ∈ ProviderInstances cfg ∧ pi_Name i = a ∧ renamed b i ∈ ProviderInstances cfg.
Proof.
  intros (fg & fps & fs & _ & _ & _ & _ & En & Ei & _)%Load_inl Hne Ha Hb E.
  rewrite En, Ei in *. unfold load_providers in *. destruct parseInstances as [|n names] eqn:Ep; [done|].
  cbn [fst snd] in *. rewrite map_map.
  exists (loadInstanceConfig a (bh_DefaultTTL (gc_Behavior (Global cfg)))).1. split_and!.
  - by apply (list_elem_of_fmap_2 (λ x, (loadInstanceConfig x _).1)).
  - done.
  - rewrite <- (loadInstanceConfig_prefix a b) by done.
    by apply (list_elem_of_fmap_2 (λ x, (loadInstanceConfig x _).1)).
Qed.
End LoadLaws.
