(* ===== verification/Setup.v ===== *)
(** * Start-up: sources, instances and dynamic targets from the configuration
    (cmd/dnsweaver/setup.go, target_refresh.go) *)
From S2P Require Import Prelude GoStrings Errors ProviderTypes GoMaps Effects Instance NetIP.
From S2P Require Import Matcher SourceRegistry Registry GoTime Manager IO Target.
From S2P Require Import ConfigEnv ConfigGlobal ConfigInstance ConfigFile ConfigLoad.
From S2P Require SourceTraefik SourceNative SourceLists SourcePlatforms DnsConfig Dnsmasq.
From Stdlib Require Import ZArith.

(** ** Sources *)

Section Sources.
Context `{MapOrder} {W : Type} `{SourceTraefik.ConfigFiles W}.

(** [proxmoxTargetMode], [incusTargetMode]: the default for what is not a mode. *)
Definition target_mode (platform mode : string) : string :=
  match SourcePlatforms.ParseTargetMode platform mode with
  | inl mode => mode
  | inr _ => SourcePlatforms.TargetModeGuestIP
  end.
Definition proxmoxTargetMode (cfg : Config) : string :=
  target_mode "proxmox" (ProxmoxTargetMode (gc_Proxmox (Global cfg))).
Definition incusTargetMode (cfg : Config) : string :=
  target_mode "incus" (IncusTargetMode (gc_Incus (Global cfg))).

Definition createTraefikSource (cfg : Config) : Source W :=
  match GetSourceInstance cfg "traefik" with
  | None => SourceTraefik.New DefaultFileDiscoveryConfig []
  | Some s =>
      let fd := si_FileDiscovery s in
      SourceTraefik.New
        (if IsEnabled fd then SourceTraefik.WithFileDiscovery fd else DefaultFileDiscoveryConfig)
        (si_DefaultEntryPoints s)
  end.

Definition proxmoxSource (cfg : Config) : Source W :=
  let px := gc_Proxmox (Global cfg) in
  SourcePlatforms.Proxmox.proxmox
    (SourcePlatforms.Proxmox.New (ProxmoxDomainSuffix px) (proxmoxTargetMode cfg)
       (ProxmoxHostnameTagPrefix px)).

Definition incusSource (cfg : Config) : Source W :=
  SourcePlatforms.Incus.incus
    (SourcePlatforms.Incus.New (IncusDomainSuffix (gc_Incus (Global cfg))) (incusTargetMode cfg)).

(** The source of a name, when there is one. *)
Definition sourceOf (cfg : Config) (name : string) : option (Source W) :=
  if name == "traefik" then Some (createTraefikSource cfg)
  else if name == "dnsweaver" then Some SourceNative.dnsweaver
  else if name == "caddy" then Some SourceLists.Caddy.caddy
  else if name == "nginx-proxy" then Some SourceLists.NginxProxy.nginx_proxy
  else if name == "kubernetes" then Some SourcePlatforms.Kubernetes.kubernetes
  else if name == "proxmox" then Some (proxmoxSource cfg)
  else if name == "incus" then Some (incusSource cfg)
  else None.

Definition registerSource (name : string) (src : Source W) (r : SourceRegistry W)
  : option error * SourceRegistry W :=
  match Register src r with
  | (Some err, r) => (Some (EWrapf ("registering " ++s name ++s " source: ") err), r)
  | (None, r) => (None, r)
  end.

(** The sources the configuration names; an unknown one is passed over. *)
Fixpoint registerNamed (cfg : Config) (names : list string) (r : SourceRegistry W)
  : option error * SourceRegistry W :=
  match names with
  | [] => (None, r)
  | name :: names =>
      match sourceOf cfg name with
      | None => registerNamed cfg names r
      | Some src =>
          match registerSource name src r with
          | (Some err, r) => (Some err, r)
          | (None, r) => registerNamed cfg names r
          end
      end
  end.

(** The source of a platform in use, unless it is there already. *)
Definition autoRegister (use : bool) (name : string) (src : Source W) (r : SourceRegistry W)
  : option error * SourceRegistry W :=
  if use : bool then
    match GetSource r name with
    | Some _ => (None, r)
    | None => registerSource name src r
    end
  else (None, r).

Definition registerSources (cfg : Config) (r : SourceRegistry W) : option error * SourceRegistry W :=
  match registerNamed cfg (SourceNames cfg) r with
  | (Some err, r) => (Some err, r)
  | (None, r) =>
      match autoRegister (UseKubernetes cfg) "kubernetes" SourcePlatforms.Kubernetes.kubernetes r with
      | (Some err, r) => (Some err, r)
      | (None, r) =>
          match autoRegister (UseProxmox cfg) "proxmox" (proxmoxSource cfg) r with
          | (Some err, r) => (Some err, r)
          | (None, r) => autoRegister (UseIncus cfg) "incus" (incusSource cfg) r
          end
      end
  end.
End Sources.

(** ** Dynamic targets (target_refresh.go) *)

Section Refreshers.
Context `{RegexpEngine} {W : Type} `{Network W}.

(** What a refresher is made of: the name of its instance, the resolver, the
    interval.  A mode that is not empty once trimmed, which is how it is loaded,
    has a resolver or an error; an instance that is not registered, for
    instance one that is still pending, gets none. *)
Definition refresher_of (registry : Registry W) (i : ProviderInstanceConfig)
  : option (string * Resolver * Z) :=
  if pi_TargetMode i == "" then None
  else
    match Get registry (pi_Name i) with
    | None => None
    | Some inst =>
        let family := if Instance.pi_RecordType inst == RecordTypeAAAA then FamilyIPv6 else FamilyIPv4 in
        match Target.Parse (pi_TargetMode i) family with
        | inr _ | inl None => None
        | inl (Some resolver) =>
            Some (pi_Name i,
                  match resolver, pi_TargetPublicEndpoints i with
                  | PublicResolver _ _, (_ :: _) as endpoints => NewPublicResolver family endpoints
                  | _, _ => resolver
                  end,
                  pi_TargetRefreshInterval i)
        end
    end.

Definition buildTargetRefreshers (cfg : Config) (registry : Registry W)
  : list (string * Resolver * Z) := omap (refresher_of registry) (ProviderInstances cfg).
End Refreshers.

(** ** Instances *)

(** [initializeProviders] of the instances of a configuration. *)
Definition initializeInstances `{RegexpEngine} {W} `{Clock W} `{FloatConv} (cfg : Config)
  : M W (Manager W) (option error) :=
  initializeProviders (map ToProviderConfig (ProviderInstances cfg)).

(** ** Properties *)

Section SourceLaws.
Context `{MapOrder} {W : Type} `{SourceTraefik.ConfigFiles W}.
Implicit Types (r : SourceRegistry W) (l : list string).

Lemma sourceOf_name cfg name src : sourceOf cfg name = Some src → src_Name (W:=W) src = name.
Proof.
  unfold sourceOf, createTraefikSource. intros Hs.
  repeat match type of Hs with
  | (if String.eqb ?n ?m then _ else _) = _ =>
      destruct (String.eqb_spec n m) as [->|]; [injection Hs as <-; by repeat case_match|]
  end. done.
Qed.

(** The names of the sources, in order, and in the map. *)
Definition registered r l : Prop :=
  map src_Name (sr_sources r) = l ∧ ∀ n, is_Some (SourceRegistry.sr_byName r !! n) ↔ n ∈ l.

Lemma registerSource_spec name src r l :
  src_Name src = name → registered r l →
  match registerSource name src r with
  | (None, r') => (name ∉ l) ∧ registered r' (l ++ [name])
  | (Some _, _) => name ∈ l
  end.
Proof.
  intros Hname [Hl Hn]. unfold registerSource, Register. rewrite Hname.
  destruct (SourceRegistry.sr_byName r !! name) as [s|] eqn:E; [by apply Hn; eexists|].
  split; [rewrite <- Hn, E; by intros [? ?]|]. split.
  - cbn [sr_sources]. by rewrite map_app, Hl, <- Hname.
  - intros n. cbn [SourceRegistry.sr_byName]. rewrite lookup_insert_is_Some, Hn, elem_of_app, list_elem_of_singleton.
    destruct (decide (name = n)); naive_solver.
Qed.

(** The names that are those of sources. *)
Definition source_names : list string :=
  ["traefik"; "dnsweaver"; "caddy"; "nginx-proxy"; "kubernetes"; "proxmox"; "incus"].
Definition known_sources (names : list string) : list string :=
  List.filter (λ n, one_of n source_names) names.

Lemma known_sources_cons cfg name names :
  known_sources (name :: names) =
  match sourceOf (W:=W) cfg name with
  | Some _ => name :: known_sources names
  | None => known_sources names
  end.
Proof.
  assert (one_of name source_names = bool_decide (is_Some (sourceOf (W:=W) cfg name))) as E.
  { unfold sourceOf, source_names, one_of. cbn [existsb].
    repeat match goal with |- context [String.eqb ?a ?b] => destruct (String.eqb a b); [done|] end.
    done. }
  unfold known_sources. cbn [List.filter]. rewrite E. by destruct (sourceOf cfg name).
Qed.

Lemma registerNamed_spec cfg names r l :
  registered r l →
  match registerNamed cfg names r with
  | (None, r') => registered r' (l ++ known_sources names)
                  ∧ NoDup (known_sources names) ∧ ∀ n, n ∈ known_sources names → n ∉ l
  | (Some _, _) => ¬ (NoDup (known_sources names) ∧ ∀ n, n ∈ known_sources names → n ∉ l)
  end.
Proof.
  revert r l. induction names as [|name names IH]; intros r l Hr.
  { simpl. rewrite app_nil_r. split_and!; [done|constructor|]. by intros n ?%elem_of_nil. }
  rewrite (known_sources_cons cfg name). cbn [registerNamed]. destruct (sourceOf cfg name) as [src|] eqn:E.
  - pose proof (registerSource_spec name src r l (sourceOf_name _ _ _ E) Hr) as Hs.
    destruct (registerSource name src r) as [[err|] r'].
    + intros [_ Hn]. apply (Hn name); [by left|done].
    + destruct Hs as [Hl Hr']. specialize (IH r' _ Hr').
      destruct (registerNamed cfg names r') as [[err|] r''].
      * intros [[Hx Hnd]%NoDup_cons Hn]. apply IH. split; [done|].
        intros n Hin [?|Heq%list_elem_of_singleton]%elem_of_app; [|by subst n].
        apply (Hn n); [by right|done].
      * destruct IH as (Hr'' & Hnd & Hn). rewrite <- app_assoc in Hr''. split_and!; [done| |].
        -- apply NoDup_cons. split; [|done]. intros Hin. apply (Hn name Hin), elem_of_app. right.
           by apply list_elem_of_singleton.
        -- intros n [->|Hin]%elem_of_cons; [done|]. intros Hnl. apply (Hn n Hin), elem_of_app. by left.
  - by apply IH.
Qed.

Lemma autoRegister_spec use name src r l :
  src_Name src = name → registered r l →
  match autoRegister use name src r with
  | (None, r') => registered r' (l ++ (if use && negb (one_of name l) then [name] else []))
  | (Some _, _) => False
  end.
Proof.
  intros Hname Hr. unfold autoRegister. destruct use; simpl; [|by rewrite app_nil_r].
  unfold GetSource. destruct (SourceRegistry.sr_byName r !! name) as [s|] eqn:E.
  - assert (name ∈ l) as Hin by (apply Hr; by eexists).
    apply one_of_spec in Hin as ->. simpl. by rewrite app_nil_r.
  - assert (name ∉ l) as Hnin by (rewrite <- (proj2 Hr), E; by intros [? ?]).
    pose proof (registerSource_spec name src r l Hname Hr) as Hs.
    destruct (registerSource name src r) as [[err|] r']; [done|].
    destruct (one_of name l) eqn:Eo; [by apply one_of_spec in Eo|]. by destruct Hs.
Qed.

(** The sources the program starts with: those the configuration names, in its
    order, unknown names passed over, and then the source of each platform in
    use that is not among them.  The start fails exactly when a known name is
    given twice. *)
Theorem registerSources_spec cfg :
  let known := known_sources (SourceNames cfg) in
  let add (use : bool) (name : string) (l : list string) :=
    l ++ (if use && negb (one_of name l) then [name] else []) in
  match registerSources cfg (NewSourceRegistry (W:=W)) with
  | (None, r) =>
      NoDup known ∧
      map src_Name (AllSources r) =
        add (UseIncus cfg) "incus" (add (UseProxmox cfg) "proxmox"
          (add (UseKubernetes cfg) "kubernetes" known))
  | (Some _, _) => ¬ NoDup known
  end.
Proof.
  intros known add. unfold registerSources.
  assert (registered (NewSourceRegistry (W:=W)) []) as Hr0.
  { split; [done|]. intros n. unfold NewSourceRegistry. cbn [SourceRegistry.sr_byName]. rewrite lookup_empty, elem_of_nil.
    split; [by intros [? ?]|done]. }
  pose proof (registerNamed_spec cfg (SourceNames cfg) _ _ Hr0) as Hr1.
  destruct (registerNamed cfg (SourceNames cfg) NewSourceRegistry) as [[err|] r1].
  { intros Hnd. apply Hr1. split; [done|]. by intros n _ ?%elem_of_nil. }
  destruct Hr1 as (Hr1 & Hnd & _). rewrite app_nil_l in Hr1.
  pose proof (autoRegister_spec (UseKubernetes cfg) "kubernetes" SourcePlatforms.Kubernetes.kubernetes
    r1 _ eq_refl Hr1) as Hr2.
  destruct (autoRegister (UseKubernetes cfg) _ _ _) as [[err|] r2]; [done|].
  pose proof (autoRegister_spec (UseProxmox cfg) "proxmox" (proxmoxSource cfg) r2 _ eq_refl Hr2) as Hr3.
  destruct (autoRegister (UseProxmox cfg) _ _ _) as [[err|] r3]; [done|].
  pose proof (autoRegister_spec (UseIncus cfg) "incus" (incusSource cfg) r3 _ eq_refl Hr3) as Hr4.
  destruct (autoRegister (UseIncus cfg) _ _ _) as [[err|] r4]; [done|].
  split; [done|]. exact (proj1 Hr4).
Qed.
End SourceLaws.

(** An instance whose target is left to a target mode, which the configuration
    allows, never starts: the program ends with an error instead. *)
Theorem dynamic_target_needs_literal `{RegexpEngine} `{MapOrder} `{FloatConv} {W} `{Clock W}
    `{Environ} `{YamlConfig} cfg i (s : St W (Manager W)) :
  Load = inl cfg → i ∈ ProviderInstances cfg → pi_Target i = "" →
  pi_TargetMode i ≠ "" ∧ (initializeInstances cfg s).1 ≠ Some None.
Proof.
  intros (_ & (_ & _ & Hl) & _)%Load_parts Hi Ht. rewrite Forall_forall in Hl. split.
  { by apply (il_target i (Hl i Hi)). }
  unfold initializeInstances.
  assert (Registry.Config_Validate (ToProviderConfig i) ≠ None) as Hbad.
  { rewrite Registry.Config_Validate_exact. unfold ToProviderConfig.
    cbn [ic_Name ic_TypeName ic_RecordType ic_Target ic_TTL ic_Domains ic_DomainsRegex].
    rewrite Ht. intros (_ & _ & Hfit & _). destruct Hfit as [[_ ?]|[[_ ?]|(_ & ? & _)]]; done. }
  clear Hl Ht. revert s. induction (ProviderInstances cfg) as [|j l IH]; intros s;
    [by apply elem_of_nil in Hi|].
  cbn [map initializeProviders]. unfold bind.
  destruct (InitializeProvider (ToProviderConfig j) s) as [[[err|]|] s'] eqn:E; [done| |done].
  apply elem_of_cons in Hi as [->|Hi]; [|by apply IH].
  exfalso. unfold InitializeProvider in E.
  destruct (Registry.Config_Validate (ToProviderConfig j)); [by injection E|done].
Qed.

(** A dnsmasq instance from the environment works on the local directory and
    file of the defaults: the variables for the directory, the file and the SSH
    host are not among those that are read, whatever the documentation says. *)
Theorem environment_dnsmasq_is_local `{Environ} name ttl c :
  Dnsmasq.LoadConfigFromMap name (pi_ProviderConfig (loadInstanceConfig name ttl).1) = inl c →
  Dnsmasq.cfg_SSHHost c = "" ∧ Dnsmasq.cfg_ConfigDir c = Dnsmasq.DefaultConfigDir ∧
  Dnsmasq.cfg_ConfigFile c = Dnsmasq.DefaultConfigFile.
Proof.
  unfold Dnsmasq.LoadConfigFromMap, Dnsmasq.load_config, Dnsmasq.getMapWithDefault.
  set (m := pi_ProviderConfig (loadInstanceConfig name ttl).1).
  assert (∀ k, is_field k = None → m !! k = None) as Hm by (intros k; apply provider_setting_absent).
  clearbody m. intros Hc.
  repeat match type of Hc with
  | match ?x with inl _ => _ | inr _ => _ end = _ => destruct x as [?|?]; [|done]
  end.
  destruct (Dnsmasq.Config_Validate _); [done|]. injection Hc as <-.
  unfold DnsConfig.setting.
  cbn [Dnsmasq.cfg_SSHHost Dnsmasq.cfg_ConfigDir Dnsmasq.cfg_ConfigFile]. by rewrite !Hm.
Qed.
