(* ===== verification/ConfigScenarios.v ===== *)
(** * Configuration scenarios

    The theorems about the configuration, start-up and dynamic targets at
    concrete environments and files. *)
From S2P Require Import Http.
From S2P Require Import Prelude GoStrings Errors ProviderTypes GoMaps Effects Instance NetIP.
From S2P Require Import Matcher SourceRegistry MemProvider Registry GoTime Manager IO Target.
From S2P Require Import ConfigEnv ConfigGlobal ConfigInstance ConfigFile ConfigLoad Setup.
From S2P Require Import ManagerScenarios.
From S2P Require SourceTraefik Dnsmasq.
From Stdlib Require Import ZArith.

#[local] Existing Instance glob_engine.
#[local] Existing Instance key_order.

(** An environment of some variables and files. *)
Fixpoint assoc (l : list (string * string)) (k : string) : option string :=
  match l with
  | [] => None
  | (k', v) :: l => if k' == k then Some v else assoc l k
  end.

Definition environ_of (vars files : list (string * string)) : Environ := {|
  LookupEnv := assoc vars;
  ReadFile path := match assoc files path with
                   | Some s => inl s
                   | None => inr (ENew ("open " ++s path ++s ": no such file or directory"))
                   end
|}.

(** A file that says what [file] says. *)
Definition yaml_of (file : FileConfig) : YamlConfig := λ _, inl file.

Definition empty_file : FileConfig := mkFileConfig None None "" "" None None [] [] None.
Definition file_provider (name target : string) : FileProviderConfig :=
  mkFileProvider name "technitium" ["*.example.com"] [] [] [] "" target 0 ""
    {[ "url" := "${DNS_URL:-http://dns:5380}" ]}.

(** ** The environment alone *)

Definition env1 : Environ := environ_of
  [("DNSWEAVER_INSTANCES", "internal-dns, public"); ("DNSWEAVER_DEFAULT_TTL", "120");
   ("DNSWEAVER_RECONCILE_INTERVAL", "5m"); ("DNSWEAVER_INSTANCE_ID", "prod-01");
   ("DNSWEAVER_INTERNAL_DNS_TYPE", "technitium"); ("DNSWEAVER_INTERNAL_DNS_TARGET", "10.0.0.1");
   ("DNSWEAVER_INTERNAL_DNS_DOMAINS", "*.example.com"); ("DNSWEAVER_INTERNAL_DNS_TOKEN_FILE", "/run/token");
   ("DNSWEAVER_INTERNAL_DNS_INSECURE_SKIP_VERIFY", "true");
   ("DNSWEAVER_PUBLIC_TYPE", "Cloudflare"); ("DNSWEAVER_PUBLIC_RECORD_TYPE", "cname");
   ("DNSWEAVER_PUBLIC_TARGET", "host.example.com"); ("DNSWEAVER_PUBLIC_TTL", "60");
   ("DNSWEAVER_PUBLIC_MODE", "additive"); ("DNSWEAVER_PUBLIC_DOMAINS", "*.example.org")]
  [("/run/token", "secret")].

Definition no_yaml : YamlConfig := yaml_of empty_file.

Definition config_of (E : Environ) (Y : YamlConfig) : option Config :=
  match @Load glob_engine key_order E Y with inl c => Some c | inr _ => None end.

Example loads1 : (λ c, (map pi_TTL (ProviderInstances c), map pi_RecordType (ProviderInstances c),
    map (λ i, map_to_list (pi_ProviderConfig i)) (ProviderInstances c),
    ReconcileInterval (gc_Behavior (Global c)))) <$> config_of env1 no_yaml
  = Some ([120; 60]%Z, ["A"; "CNAME"], [[("TOKEN", "secret"); ("TLS_SKIP_VERIFY", "true")]; []],
          300000000000%Z).
Proof. vm_compute. reflexivity. Qed.

Lemma Load_sound_witness :
  ∃ cfg, @Load glob_engine key_order env1 no_yaml = inl cfg ∧ config_ok cfg.
Proof.
  eexists. split; [vm_compute; reflexivity|].
  apply (@Load_sound glob_engine key_order env1 no_yaml). vm_compute. reflexivity.
Defined.

Lemma loaded_instance_accepted_witness :
  ∃ cfg i, @Load glob_engine key_order env1 no_yaml = inl cfg ∧ i ∈ ProviderInstances cfg ∧
  Registry.Config_Validate (ToProviderConfig i) = None.
Proof.
  eexists _, _. split_and!; [vm_compute; reflexivity|by left|].
  eapply (@loaded_instance_accepted glob_engine key_order env1 no_yaml);
    [vm_compute; reflexivity|by left|]. split; [done|by left].
Defined.

Lemma instance_id_checked_witness :
  ∃ cfg, @Load glob_engine key_order env1 no_yaml = inl cfg ∧
  gc_InstanceID (Global cfg) = "prod-01" ∧
  str_contains_byte "," (gc_InstanceID (Global cfg)) = false.
Proof.
  eexists. split_and!; [vm_compute; reflexivity|reflexivity|].
  apply (@instance_id_checked glob_engine key_order env1 no_yaml); [vm_compute; reflexivity|by left].
Defined.

(** ** A file under the environment *)

Definition file2 : FileConfig :=
  mkFileConfig None (Some (mkReconciler "30s" "" (Some true) None None None None "a,heritage=dnsweaver"))
    "" "" None None [] [file_provider "internal" "10.0.0.1"] None.

Definition env2 : Environ := environ_of
  [("DNSWEAVER_CONFIG", "/etc/dnsweaver.yml"); ("DNSWEAVER_PROXMOX_URL", "https://pve:8006");
   ("DNSWEAVER_INCUS_URL", "https://incus:8443"); ("DNSWEAVER_DRY_RUN", "false");
   ("DNSWEAVER_INTERNAL_TTL", "oops")]
  [("/etc/dnsweaver.yml", "")].
Definition yaml2 : YamlConfig := yaml_of file2.

Lemma config_file_hides_platforms_witness :
  ∃ cfg, @Load glob_engine key_order env2 yaml2 = inl cfg ∧
  @getEnv env2 "DNSWEAVER_PROXMOX_URL" = "https://pve:8006" ∧
  UseProxmox cfg = false ∧ UseIncus cfg = false.
Proof.
  eexists. split_and!; [vm_compute; reflexivity|reflexivity|..];
    apply (@config_file_hides_platforms glob_engine key_order env2 yaml2);
    [vm_compute; reflexivity|done|vm_compute; reflexivity|done].
Defined.

(** An instance id of the file is not checked, nor is a wrong TTL an error; the
    flag of the environment wins over the file, and the default in a setting of
    the file stands. *)
Example file2_loads : (λ c, (gc_InstanceID (Global c), DryRun (gc_Behavior (Global c)),
    map pi_TTL (ProviderInstances c), map (λ i, map_to_list (pi_ProviderConfig i)) (ProviderInstances c)))
    <$> config_of env2 yaml2
  = Some ("a,heritage=dnsweaver", false, [300%Z], [[("URL", "http://dns:5380")]]).
Proof. vm_compute. reflexivity. Qed.

(** An alias of a platform that the environment knows is refused in a file. *)
Example standalone_in_file :
  config_of env2 (yaml_of (mkFileConfig None None "standalone" "" None None []
    [file_provider "internal" "10.0.0.1"] None)) = None ∧
  (λ c, gc_Platform (Global c)) <$> config_of (environ_of
    [("DNSWEAVER_PLATFORM", "standalone"); ("DNSWEAVER_INSTANCES", "a"); ("DNSWEAVER_A_TYPE", "pihole");
     ("DNSWEAVER_A_TARGET", "10.0.0.1"); ("DNSWEAVER_A_DOMAINS", "*.example.com")] []) no_yaml = Some "none".
Proof. by vm_compute. Qed.

(** A default TTL of the environment does not reach the instances of a file, and
    a target of the environment does not make up for one missing in the file. *)
Example default_ttl_in_file :
  (λ c, (bh_DefaultTTL (gc_Behavior (Global c)), map pi_TTL (ProviderInstances c))) <$> config_of
    (environ_of [("DNSWEAVER_CONFIG", "c"); ("DNSWEAVER_DEFAULT_TTL", "60")] [("c", "")]) yaml2
  = Some (60%Z, [300%Z]) ∧
  config_of (environ_of [("DNSWEAVER_CONFIG", "c"); ("DNSWEAVER_INTERNAL_TARGET", "10.0.0.2")] [("c", "")])
    (yaml_of (mkFileConfig None None "" "" None None [] [file_provider "internal" ""] None)) = None.
Proof. by vm_compute. Qed.

(** Keys of a file that differ in case are one key, and which one counts is
    left to the order of the map. *)
Example case_of_keys :
  let m : gmap string string := {[ "url" := "http://a"; "URL" := "http://b" ]} in
  @upper_keys key_order m !! "URL" ≠ @upper_keys (SourceNative.reverse_order key_order) m !! "URL".
Proof. by vm_compute. Qed.

(** ** Names that are one name to the environment *)

Definition env3 : Environ := environ_of
  [("DNSWEAVER_INSTANCES", "my-dns,my_dns"); ("DNSWEAVER_MY_DNS_TYPE", "technitium");
   ("DNSWEAVER_MY_DNS_TARGET", "10.0.0.1"); ("DNSWEAVER_MY_DNS_DOMAINS", "*.example.com")] [].

Lemma colliding_names_share_settings_witness :
  ∃ cfg i, @Load glob_engine key_order env3 no_yaml = inl cfg ∧
  pi_Name i = "my-dns" ∧ renamed "my_dns" i ∈ ProviderInstances cfg.
Proof.
  assert (∃ cfg, @Load glob_engine key_order env3 no_yaml = inl cfg ∧ ProviderNames cfg = ["my-dns"; "my_dns"])
    as (cfg & Hl & Hn) by (eexists; split; [vm_compute; reflexivity|reflexivity]).
  destruct (@colliding_names_share_settings glob_engine key_order env3 no_yaml cfg "my-dns" "my_dns" Hl)
    as (i & _ & Hi & Hr); [done|rewrite Hn; by left|rewrite Hn; by right; left|reflexivity|].
  by exists cfg, i.
Defined.

(** ** A dynamic target *)

Definition env4 : Environ := environ_of
  [("DNSWEAVER_INSTANCES", "edge"); ("DNSWEAVER_EDGE_TYPE", "good"); ("DNSWEAVER_EDGE_TARGET_MODE", "public");
   ("DNSWEAVER_EDGE_DOMAINS", "*.example.com")] [].

Lemma dynamic_target_needs_literal_witness :
  ∃ cfg, @Load glob_engine key_order env4 no_yaml = inl cfg ∧
  (initializeInstances cfg (at_time 0 0 manager0)).1 ≠ Some None.
Proof.
  eexists. split; [vm_compute; reflexivity|].
  eapply (@dynamic_target_needs_literal glob_engine key_order _ _ _ env4 no_yaml);
    [vm_compute; reflexivity|by left|reflexivity].
Defined.

(** ** dnsmasq from the environment *)

Definition env5 : Environ := environ_of
  [("DNSWEAVER_ROUTER_CONFIG_DIR", "/tmp/dnsmasq.d"); ("DNSWEAVER_ROUTER_SSH_HOST", "192.168.1.1");
   ("DNSWEAVER_ROUTER_SSH_USER", "root"); ("DNSWEAVER_ROUTER_SSH_PASSWORD", "secret")] [].

Lemma environment_dnsmasq_is_local_witness :
  ∃ c, Dnsmasq.LoadConfigFromMap "router" (pi_ProviderConfig (@loadInstanceConfig env5 "router" 300).1) = inl c ∧
  Dnsmasq.cfg_SSHHost c = "" ∧ @getEnv env5 "DNSWEAVER_ROUTER_SSH_HOST" = "192.168.1.1".
Proof.
  eexists. split_and!; [vm_compute; reflexivity| |reflexivity].
  apply (@environment_dnsmasq_is_local env5 "router" 300). vm_compute. reflexivity.
Defined.

(** ** Interpolation *)

Lemma interpolation_template_witness :
  @InterpolateEnvVars env5 "ssh://${DNSWEAVER_ROUTER_SSH_USER}@${HOST:-localhost}/"
  = "ssh://root@localhost/".
Proof.
  refine (@interpolation_template env5 [Text "ssh://"; Var "DNSWEAVER_ROUTER_SSH_USER" None; Text "@";
    Var "HOST" (Some "localhost"); Text "/"] _).
  repeat constructor; done.
Defined.

(** A dollar that starts no variable stays. *)
Example stray_dollar : @InterpolateEnvVars env5 "$HOME ${} ${a:b} ${" = "$HOME ${} ${a:b} ${".
Proof. reflexivity. Qed.

(** ** Targets *)

(** One interface, and an echo service that answers with an address. *)
#[local] Instance lan : Network unit := {|
  interfaceAddrs name w :=
    if name == "eth0" then (inl [IPNet [127; 0; 0; 1]%Z; IPNet (v4_prefix ++ [10; 0; 0; 7]%Z)], w)
    else (inr (ENew "no such network interface"), w);
  http_Get _ endpoint w :=
    if endpoint == "https://api.ipify.org" then (inl (mkResponse 200 "203.0.113.9 " None), w)
    else (inr (ENew "connection refused"), w)
|}.

Lemma lan_bytes : interface_bytes (W:=unit).
Proof.
  intros name w addrs w'. cbn [interfaceAddrs lan]. destruct (name == "eth0"); [|done].
  intros [= <- <-] ip. rewrite !elem_of_cons, !elem_of_nil.
  intros [[[= ->]|[[= ->]|[]]]|[|[|[]]]]; [| |done..]; repeat constructor; done.
Qed.

Lemma resolved_target_fits_witness :
  ∃ value, (Resolve (NewPublicResolver FamilyIPv4 []) tt).1 = inl value ∧
  ∃ a b c d, ParseIP value = Some (v4_prefix ++ [a; b; c; d]).
Proof.
  eexists. split; [reflexivity|].
  apply (resolved_target_fits (NewPublicResolver FamilyIPv4 []) tt _ tt lan_bytes eq_refl). reflexivity.
Defined.

Example interface_target :
  (Resolve (InterfaceResolver "eth0" FamilyIPv4) tt).1 = inl "10.0.0.7" ∧
  (Resolve (InterfaceResolver "eth0" FamilyIPv6) tt).1
  = inr (ENew ("interface " ++s Quote "eth0" ++s " has no global ipv6 address")).
Proof. split; reflexivity. Qed.

(** A resolver that counts down and fails every third time. *)
Definition countdown : IO nat string := λ n,
  match n with
  | O => (inl "10.0.0.1", O)
  | S m => (if (m mod 3 =? 0)%nat then inr (ENew "timeout") else inl "10.0.0.2", m)
  end.

Lemma refresher_hands_on_changes_witness :
  let r := mkRefresher (logged countdown) 1 (Some log_value) "10.0.0.1" true in
  (Nat.iter 6 tick (r, (4%nat, []))).2 = (O, ["10.0.0.2"; "10.0.0.1"]).
Proof.
  intros r.
  pose proof (refresher_hands_on_changes countdown 6 r 4%nat [] eq_refl eq_refl eq_refl) as Hr.
  cbv zeta in Hr. destruct (Nat.iter 6 tick (r, (4%nat, []))) as [r' wl'].
  destruct Hr as [-> _]. vm_compute. reflexivity.
Defined.
