(* ===== verification/Json.v ===== *)
(** * JSON

    What the code uses of Go's encoding/json: parsing a text, decoding it into
    Go values, and writing values.  Texts are byte strings; a byte that is not
    part of a UTF-8 sequence is read and written as U+FFFD.  The texts of the
    decoder's errors are left to the class [JsonErrors]. *)
From S2P Require Import Prelude GoStrings NetIP Errors GoMaps.
From Stdlib Require Import ZArith NArith.

Set Warnings "-register-all".

(** A number keeps its literal. *)
Inductive json :=
| JNull
| JBool (b : bool)
| JNum (literal : string)
| JStr (s : string)
| JArr (l : list json)
| JObj (members : list (string * json)).

Class JsonErrors := json_error : string → error.

(** ** UTF-8 *)

Definition code (c : ascii) : N := N_of_ascii c.
Definition in_range (lo hi : N) (c : ascii) : bool := (lo <=? code c)%N && (code c <=? hi)%N.
Definition cont : ascii → bool := in_range 128 191.

(** The length of the sequence a text starts with; 0 when it is not one. *)
Definition utf8_len (s : string) : nat :=
  match s with
  | EmptyString => 0
  | String c s1 =>
      if (code c <? 128)%N then 1
      else
        match s1 with
        | EmptyString => 0
        | String d s2 =>
            if in_range 194 223 c then if cont d then 2 else 0
            else
              match s2 with
              | EmptyString => 0
              | String e s3 =>
                  let second :=
                    if (code c =? 224)%N then in_range 160 191 d
                    else if (code c =? 237)%N then in_range 128 159 d
                    else in_range 225 239 c && cont d in
                  if in_range 224 239 c then if second && cont e then 3 else 0
                  else
                    match s3 with
                    | EmptyString => 0
                    | String f _ =>
                        let second :=
                          if (code c =? 240)%N then in_range 144 191 d
                          else if (code c =? 244)%N then in_range 128 143 d
                          else in_range 241 243 c && cont d in
                        if in_range 240 244 c && second && cont e && cont f then 4 else 0
                    end
              end
        end
  end.

Definition byte_str (n : N) : string := String (ascii_of_N n) "".

Definition utf8_encode (r : N) : string :=
  if (r <? 128)%N then byte_str r
  else if (r <? 2048)%N then byte_str (192 + r / 64) ++s byte_str (128 + r mod 64)
  else if (r <? 65536)%N then
    byte_str (224 + r / 4096) ++s byte_str (128 + (r / 64) mod 64) ++s byte_str (128 + r mod 64)
  else
    byte_str (240 + r / 262144) ++s byte_str (128 + (r / 4096) mod 64)
    ++s byte_str (128 + (r / 64) mod 64) ++s byte_str (128 + r mod 64).

Definition replacement : string := utf8_encode 65533.

(** ** Parsing *)

Definition backslash : ascii := ascii_of_nat 92.

Definition json_space (c : ascii) : bool :=
  Ascii.eqb c " " || (code c =? 9)%N || (code c =? 10)%N || (code c =? 13)%N.

Definition skip_ws : string → string := trim_left json_space.

(** The four digits of an escape. *)
Definition hex4 (s : string) : option (N * string) :=
  match s with
  | String a (String b (String c (String d s))) =>
      match hex_val a, hex_val b, hex_val c, hex_val d with
      | Some a, Some b, Some c, Some d => Some (Z.to_N (((a * 16 + b) * 16 + c) * 16 + d), s)
      | _, _, _, _ => None
      end
  | _ => None
  end.

(** A rune from an escape; the second half of a pair when the first calls for
    one, and U+FFFD for a half without its other. *)
Definition escaped_rune (r : N) (s : string) : string * string :=
  if (r <? 55296)%N || (57343 <? r)%N then (utf8_encode r, s)
  else
    match s with
    | String b (String u t) =>
        if Ascii.eqb b backslash && Ascii.eqb u "u" then
          match hex4 t with
          | Some (r2, t') =>
              if (r <? 56320)%N && (56320 <=? r2)%N && (r2 <=? 57343)%N
              then (utf8_encode (65536 + (r - 55296) * 1024 + (r2 - 56320)), t')
              else (replacement, s)
          | None => (replacement, s)
          end
        else (replacement, s)
    | _ => (replacement, s)
    end.

(** The rest of a string literal, behind its first quote; every round takes a
    byte, so its length is fuel enough. *)
Fixpoint string_rest (fuel : nat) (s : string) : option (string * string) :=
  match fuel, s with
  | S fuel, String c t =>
      if Ascii.eqb c dquote then Some ("", t)
      else if Ascii.eqb c backslash then
        match t with
        | EmptyString => None
        | String e t =>
            let plain (d : N) := r ← string_rest fuel t; Some (byte_str d ++s r.1, r.2) in
            if Ascii.eqb e dquote then plain 34%N
            else if Ascii.eqb e backslash then plain 92%N
            else if Ascii.eqb e "/" then plain 47%N
            else if Ascii.eqb e "b" then plain 8%N
            else if Ascii.eqb e "f" then plain 12%N
            else if Ascii.eqb e "n" then plain 10%N
            else if Ascii.eqb e "r" then plain 13%N
            else if Ascii.eqb e "t" then plain 9%N
            else if Ascii.eqb e "u" then
              u ← hex4 t;
              let '(text, t) := escaped_rune u.1 u.2 in
              r ← string_rest fuel t; Some (text ++s r.1, r.2)
            else None
        end
      else if (code c <? 32)%N then None
      else
        let n := utf8_len s in
        if (n =? 0)%nat then r ← string_rest fuel t; Some (replacement ++s r.1, r.2)
        else r ← string_rest fuel (str_drop n s); Some (str_take n s ++s r.1, r.2)
  | _, _ => None
  end.

(** The digits at the start of a text. *)
Fixpoint digits (s : string) : string * string :=
  match s with
  | String c t => if is_digit c then let r := digits t in (String c r.1, r.2) else ("", s)
  | EmptyString => ("", s)
  end.

Definition number (s : string) : option (string * string) :=
  let '(sign, s) := match s with
                    | String c t => if Ascii.eqb c "-" then ("-", t) else ("", s)
                    | EmptyString => ("", s)
                    end in
  let '(int, s) := match s with
                   | String c t => if Ascii.eqb c "0" then ("0", t) else digits s
                   | EmptyString => ("", s)
                   end in
  if int == "" then None
  else
    let frac := match s with
                | String c t =>
                    if Ascii.eqb c "." then
                      let '(d, t) := digits t in if d == "" then None else Some ("." ++s d, t)
                    else Some ("", s)
                | EmptyString => Some ("", s)
                end in
    match frac with
    | None => None
    | Some (frac, s) =>
        match s with
        | String c t =>
            if Ascii.eqb c "e" || Ascii.eqb c "E" then
              let '(sg, t) := match t with
                              | String d u => if Ascii.eqb d "+" || Ascii.eqb d "-"
                                              then (String d "", u) else ("", t)
                              | EmptyString => ("", t)
                              end in
              let '(d, t) := digits t in
              if d == "" then None
              else Some (sign ++s int ++s frac ++s String c (sg ++s d), t)
            else Some (sign ++s int ++s frac, s)
        | EmptyString => Some (sign ++s int ++s frac, s)
        end
    end.

Definition maxNestingDepth : N := 10000.

(** Values, the elements of an array and the members of an object; every call
    takes a byte or opens a value, so twice the length is fuel enough. *)
Fixpoint value (fuel : nat) (depth : N) (s : string) {struct fuel} : option (json * string) :=
  match fuel with
  | O => None
  | S fuel =>
      match skip_ws s with
      | EmptyString => None
      | String c t as s =>
          if Ascii.eqb c "{" then
            if (maxNestingDepth <? depth + 1)%N then None
            else if HasPrefix (skip_ws t) "}" then Some (JObj [], str_drop 1 (skip_ws t))
            else r ← members fuel (depth + 1) t; Some (JObj r.1, r.2)
          else if Ascii.eqb c "[" then
            if (maxNestingDepth <? depth + 1)%N then None
            else if HasPrefix (skip_ws t) "]" then Some (JArr [], str_drop 1 (skip_ws t))
            else r ← elements fuel (depth + 1) t; Some (JArr r.1, r.2)
          else if Ascii.eqb c dquote then r ← string_rest (String.length t) t; Some (JStr r.1, r.2)
          else if HasPrefix s "null" then Some (JNull, str_drop 4 s)
          else if HasPrefix s "true" then Some (JBool true, str_drop 4 s)
          else if HasPrefix s "false" then Some (JBool false, str_drop 5 s)
          else r ← number s; Some (JNum r.1, r.2)
      end
  end
with elements (fuel : nat) (depth : N) (s : string) {struct fuel} : option (list json * string) :=
  match fuel with
  | O => None
  | S fuel =>
      v ← value fuel depth s;
      match skip_ws v.2 with
      | String c t =>
          if Ascii.eqb c "," then r ← elements fuel depth t; Some (v.1 :: r.1, r.2)
          else if Ascii.eqb c "]" then Some ([v.1], t)
          else None
      | EmptyString => None
      end
  end
with members (fuel : nat) (depth : N) (s : string) {struct fuel}
  : option (list (string * json) * string) :=
  match fuel with
  | O => None
  | S fuel =>
      match skip_ws s with
      | String q t =>
          if Ascii.eqb q dquote then
            k ← string_rest (String.length t) t;
            match skip_ws k.2 with
            | String c t =>
                if Ascii.eqb c ":" then
                  v ← value fuel depth t;
                  match skip_ws v.2 with
                  | String d t =>
                      if Ascii.eqb d "," then
                        r ← members fuel depth t; Some ((k.1, v.1) :: r.1, r.2)
                      else if Ascii.eqb d "}" then Some ([(k.1, v.1)], t)
                      else None
                  | EmptyString => None
                  end
                else None
            | EmptyString => None
            end
          else None
      | EmptyString => None
      end
  end.

(** The first value of a text and what follows it. *)
Definition parse_first (s : string) : option (json * string) := value (2 * String.length s + 2) 0 s.

(** The value of a whole text. *)
Definition parse (s : string) : option json :=
  r ← parse_first s;
  if skip_ws r.2 == "" then Some r.1 else None.

(** ** Decoding

    A decoder takes the value that is there and the text's; null changes
    nothing, and a value of the wrong kind is an error. *)
Definition decoder (A : Type) : Type := A → json → option A.

Definition dec_string : decoder string := λ old j,
  match j with JStr s => Some s | JNull => Some old | _ => None end.
Definition dec_bool : decoder bool := λ old j,
  match j with JBool b => Some b | JNull => Some old | _ => None end.

(** An integer of the width: the literal must be one. *)
Definition ParseInt (bits : Z) (s : string) : option Z :=
  match Atoi s with
  | Some n => if (- 2 ^ (bits - 1) <=? n)%Z && (n <? 2 ^ (bits - 1))%Z then Some n else None
  | None => None
  end.
Definition dec_int : decoder Z := λ old j,
  match j with JNum lit => ParseInt 64 lit | JNull => Some old | _ => None end.
Definition dec_uint16 : decoder Z := λ old j,
  match j with JNum lit => ParseUint 16 lit | JNull => Some old | _ => None end.

(** [any] and [json.RawMessage]: the value itself. *)
Definition dec_any : decoder (option json) := λ _ j, Some (Some j).

Definition dec_ptr {A} (zero : A) (d : decoder A) : decoder (nilable A) := λ old j,
  match j with JNull => Some None | _ => Some <$> d (default zero old) j end.

Fixpoint dec_all {A} (zero : A) (d : decoder A) (l : list json) : option (list A) :=
  match l with
  | [] => Some []
  | j :: l => x ← d zero j; xs ← dec_all zero d l; Some (x :: xs)
  end.
Definition dec_list {A} (zero : A) (d : decoder A) : decoder (list A) := λ _ j,
  match j with JArr l => dec_all zero d l | JNull => Some [] | _ => None end.

Fixpoint dec_members {A} (f : string → A → json → option A) (a : A) (l : list (string * json))
  : option A :=
  match l with
  | [] => Some a
  | (k, j) :: l => a ← f k a j; dec_members f a l
  end.

(** A map of the language: every member is an entry. *)
Definition dec_map {A} (zero : A) (d : decoder A) : decoder (gmap string A) := λ old j,
  match j with
  | JObj l => dec_members (λ k m j, x ← d zero j; Some (<[k := x]> m)) old l
  | JNull => Some ∅
  | _ => None
  end.

(** A struct: a member goes to the field of its name, or to one that differs
    in case only, or nowhere. *)
Definition field (A : Type) : Type := string * decoder A.
Definition mk_field {A B} (name : string) (get : A → B) (set : B → A → A) (d : decoder B) : field A :=
  (name, λ a j, b ← d (get a) j; Some (set b a)).

Definition find_field {A} (fields : list (field A)) (k : string) : option (decoder A) :=
  match List.find (λ f, f.1 == k) fields with
  | Some f => Some f.2
  | None => snd <$> List.find (λ f, EqualFold f.1 k) fields
  end.

Definition dec_struct {A} (fields : list (field A)) : decoder A := λ old j,
  match j with
  | JObj l =>
      dec_members (λ k a j, match find_field fields k with Some d => d a j | None => Some a end) old l
  | JNull => Some old
  | _ => None
  end.

(** [json.Unmarshal(data, &v)] of a value that starts as [zero]. *)
Definition Unmarshal `{JsonErrors} {A} (d : decoder A) (zero : A) (data : string) : A + error :=
  match parse data ≫= d zero with
  | Some a => inl a
  | None => inr (json_error data)
  end.

(** [json.NewDecoder(r).Decode(&v)]: what follows the first value is not read. *)
Definition Decode `{JsonErrors} {A} (d : decoder A) (zero : A) (data : string) : A + error :=
  match parse_first data ≫= λ r, d zero r.1 with
  | Some a => inl a
  | None => inr (json_error data)
  end.

(** ** Writing *)

(** A byte below 128, with the escapes that keep it out of HTML. *)
Definition json_byte (c : ascii) : string :=
  let n := code c in
  if Ascii.eqb c dquote then "\" ++s byte_str 34
  else if Ascii.eqb c backslash then "\\"
  else if (n =? 8)%N then "\b" else if (n =? 12)%N then "\f" else if (n =? 10)%N then "\n"
  else if (n =? 13)%N then "\r" else if (n =? 9)%N then "\t"
  else if (n <? 32)%N || Ascii.eqb c "<" || Ascii.eqb c ">" || Ascii.eqb c "&"
       then "\u00" ++s String (hex_digit (n / 16)) (String (hex_digit (n mod 16)) "")
  else String c "".

Fixpoint json_text (fuel : nat) (s : string) : string :=
  match fuel, s with
  | S fuel, String c t =>
      let n := utf8_len s in
      match n with
      | O => "\ufffd" ++s json_text fuel t
      | 1 => json_byte c ++s json_text fuel t
      | _ =>
          let r := str_take n s in
          (if r == utf8_encode 8232 then "\u2028" else if r == utf8_encode 8233 then "\u2029" else r)
          ++s json_text fuel (str_drop n s)
      end
  | _, _ => ""
  end.

Definition json_quote (s : string) : string :=
  byte_str 34 ++s json_text (String.length s) s ++s byte_str 34.

(** [json.Marshal]; the members are those that the caller writes. *)
Fixpoint print (j : json) : string :=
  match j with
  | JNull => "null"
  | JBool b => if b then "true" else "false"
  | JNum lit => lit
  | JStr s => json_quote s
  | JArr l => "[" ++s Join "," (map print l) ++s "]"
  | JObj l => "{" ++s Join "," (map (λ kv, json_quote kv.1 ++s ":" ++s print kv.2) l) ++s "}"
  end.

Definition JInt (n : Z) : json := JNum (itoa n).

(** [omitempty] *)
Definition omit_string (k s : string) : list (string * json) := if s == "" then [] else [(k, JStr s)].
Definition omit_int (k : string) (n : Z) : list (string * json) :=
  if (n =? 0)%Z then [] else [(k, JInt n)].
Definition omit_nil (k : string) (j : nilable json) : list (string * json) :=
  match j with Some j => [(k, j)] | None => [] end.

(** A map of the language, with its keys in order. *)
Definition JMap (m : gmap string json) : json :=
  JObj (omap (λ k, pair k <$> m !! k) (sort_Strings (map fst (map_to_list m)))).

(** ** Examples *)

Definition dq (s : string) : string := byte_str 34 ++s s ++s byte_str 34.

Example parse_1 :
  parse (" { " ++s dq "a" ++s " : [1, -2.5e3, true, null] , " ++s dq "b\u00e9\n" ++s ":" ++s dq "" ++s "} ")
  = Some (JObj [("a", JArr [JNum "1"; JNum "-2.5e3"; JBool true; JNull]);
                ("b" ++s utf8_encode 233 ++s byte_str 10, JStr "")]).
Proof. by vm_compute. Qed.

Example parse_2 :
  map parse ["[1,]"; "01"; "{} x"; dq "\ud83d\ude00"; dq "\ud83d"; "[[]]"; "-"; "1.e3"; "tru"] =
  [None; None; None; Some (JStr (utf8_encode 128512)); Some (JStr replacement);
   Some (JArr [JArr []]); None; None; None].
Proof. by vm_compute. Qed.

Example print_1 :
  print (JObj [("x", JStr "a<b"); ("n", JInt (-3)); ("l", JArr [JNull; JBool false])])
  = "{" ++s dq "x" ++s ":" ++s dq "a\u003cb" ++s "," ++s dq "n" ++s ":-3," ++s dq "l" ++s ":[null,false]}".
Proof. by vm_compute. Qed.
