(* ===== verification/HttpProps.v ===== *)
(** * JSON texts, queries and answers

    What [print] writes, [parse] reads: for values whose strings are ASCII,
    whose numbers are integers, and that are not nested too deeply.  Escaped
    texts of a query are told apart by what they escape.  The answers of the
    servers in memory that scenarios use. *)
From S2P Require Import Prelude GoStrings NetIP Errors GoMaps IO Http Json.
From Stdlib Require Import ZArith NArith.

Set Warnings "-register-all".

(** ** Strings *)

Definition ascii_text (s : string) : Prop := str_forallb (λ c, (code c <? 128)%N) s = true.

Lemma string_rest_byte c fuel r :
  (code c <? 128)%N = true →
  string_rest (S fuel) (json_byte c ++s r) =
  (x ← string_rest fuel r; Some (String c x.1, x.2)).
Proof. destruct c as [[] [] [] [] [] [] [] []]; intros Hc; try discriminate Hc; reflexivity. Qed.

Lemma string_rest_text s n fuel r :
  ascii_text s → String.length s ≤ n → String.length s < fuel →
  string_rest fuel (json_text n s ++s String dquote r) = Some (s, r).
Proof.
  unfold ascii_text. revert n fuel. induction s as [|c s IH]; intros n fuel Ha Hn Hf.
  { destruct fuel; [simpl in Hf; lia|]. by destruct n. }
  simpl in Ha. apply andb_true_iff in Ha as [Hc Ha].
  destruct n as [|n]; [simpl in Hn; lia|]. destruct fuel as [|fuel]; [simpl in Hf; lia|].
  assert (json_text (S n) (String c s) = json_byte c ++s json_text n s) as ->
    by (simpl; rewrite Hc; done).
  rewrite app_assoc_s, string_rest_byte by done. simpl in Hn, Hf. by rewrite IH by (done || lia).
Qed.

Lemma length_json_byte c : 1 ≤ String.length (json_byte c).
Proof. unfold json_byte. repeat case_match; simpl; lia. Qed.

Lemma length_json_text s n : ascii_text s → String.length s ≤ n → String.length s ≤ String.length (json_text n s).
Proof.
  unfold ascii_text. revert n. induction s as [|c s IH]; intros n Ha Hn; [simpl; lia|].
  simpl in Ha. apply andb_true_iff in Ha as [Hc Ha]. destruct n as [|n]; [simpl in Hn; lia|].
  assert (json_text (S n) (String c s) = json_byte c ++s json_text n s) as ->
    by (simpl; rewrite Hc; done).
  rewrite length_app_s. simpl in Hn |- *. specialize (IH n Ha ltac:(lia)). pose proof (length_json_byte c). lia.
Qed.

(** A literal behind its first quote. *)
Lemma string_rest_quote s r :
  ascii_text s →
  let t := json_text (String.length s) s ++s String dquote r in
  string_rest (String.length t) t = Some (s, r).
Proof.
  intros Ha. simpl. apply string_rest_text; [done..|].
  rewrite length_app_s. simpl. pose proof (length_json_text s (String.length s) Ha ltac:(done)). lia.
Qed.

Lemma json_quote_app s r :
  json_quote s ++s r = String dquote (json_text (String.length s) s ++s String dquote r).
Proof. unfold json_quote. rewrite !app_assoc_s. reflexivity. Qed.

(** ** Numbers *)

(** What may follow a value inside another one. *)
Definition stops (r : string) : Prop :=
  match r with "" => True | String c _ => c = ","%char ∨ c = "]"%char ∨ c = "}"%char end.

Lemma digits_app s r :
  str_forallb is_digit s = true → (match r with String c _ => is_digit c = false | _ => True end) →
  digits (s ++s r) = (s, r).
Proof.
  intros Hs Hr. induction s as [|c s IH]; simpl in *.
  - destruct r as [|c r]; [done|]. simpl. by rewrite Hr.
  - apply andb_true_iff in Hs as [Hc Hs]. rewrite Hc. by rewrite IH.
Qed.

Lemma pretty_N_go_head x s :
  (0 < x)%N → ∃ c t, pretty_N_go x s = String c t ∧ c ≠ "0"%char.
Proof.
  revert s. induction (N.lt_wf_0 x) as [x _ IH]. intros s Hx. rewrite pretty_N_go_step by done.
  destruct (decide (x `div` 10 = 0)%N) as [E|E].
  - rewrite E, pretty_N_go_0. eexists _, _. split; [done|].
    apply N.div_small_iff in E; [|done]. rewrite N.mod_small by done.
    assert (x = 1 ∨ x = 2 ∨ x = 3 ∨ x = 4 ∨ x = 5 ∨ x = 6 ∨ x = 7 ∨ x = 8 ∨ x = 9)%N as Hx9 by lia.
    by destruct_or! Hx9; subst x.
  - apply IH; [by apply N.div_lt|by apply N.neq_0_lt_0].
Qed.

Lemma itoa_shape z :
  ∃ sign c t, itoa z = sign ++s String c t ∧ (sign = "" ∨ sign = "-") ∧ is_digit c = true ∧
    str_forallb is_digit t = true ∧ (c = "0"%char → t = "").
Proof.
  assert (∀ p : positive, ∃ c t, pretty_N_go (N.pos p) "" = String c t ∧ is_digit c = true ∧
    str_forallb is_digit t = true ∧ (c = "0"%char → t = "")) as Hp.
  { intros p. destruct (pretty_N_go_head (N.pos p) "" ltac:(lia)) as (c & t & E & Hc).
    pose proof (itoa_nat_digits (Pos.to_nat p)) as Hd.
    rewrite positive_nat_Z in Hd. change (itoa (Z.pos p)) with (pretty_N_go (N.pos p) "") in Hd.
    rewrite E in *. simpl in Hd. apply andb_true_iff in Hd as [Hd1 Hd2]. by exists c, t. }
  destruct z as [|p|p].
  - exists "", "0"%char, "". split_and!; [done|by left|done..].
  - destruct (Hp p) as (c & t & E & ?). exists "", c, t. split; [exact E|]. naive_solver.
  - destruct (Hp p) as (c & t & E & ?). exists "-", c, t. split; [|naive_solver].
    change (itoa (Z.neg p)) with ("-" ++s pretty_N_go (N.pos p) ""). by rewrite E.
Qed.

Lemma number_itoa z r : stops r → number (itoa z ++s r) = Some (itoa z, r).
Proof.
  intros Hr. destruct (itoa_shape z) as (sign & c & t & -> & Hsign & Hc & Ht & H0).
  assert (match r with String d _ => is_digit d = false | _ => True end) as Hrd.
  { destruct r as [|d r]; [done|]. by destruct Hr as [->|[->| ->]]. }
  assert ((match String c (t ++s r) with
           | String c0 t0 => if Ascii.eqb c0 "0" then ("0", t0) else digits (String c0 t0)
           | EmptyString => ("", String c (t ++s r)) end) = (String c t, r)) as Hint.
  { destruct (Ascii.eqb_spec c "0") as [->|Hne]; [by rewrite H0|].
    change (String c (t ++s r)) with (String c t ++s r). apply digits_app; [|done].
    simpl. by rewrite Hc. }
  assert (Ascii.eqb c "-" = false) as Hcm by (destruct (Ascii.eqb_spec c "-") as [->|]; done).

  assert (∀ sign, match (match r with
            | String c t => if Ascii.eqb c "." then
                let '(d, t) := digits t in if d == "" then None else Some ("." ++s d, t) else Some ("", r)
            | EmptyString => Some ("", r) end) with
          | None => None
          | Some (frac, s) =>
              match s with
              | String c0 t0 =>
                  if Ascii.eqb c0 "e" || Ascii.eqb c0 "E" then
                    let '(sg, t1) := match t0 with
                                    | String d u => if Ascii.eqb d "+" || Ascii.eqb d "-"
                                                    then (String d "", u) else ("", t0)
                                    | EmptyString => ("", t0)
                                    end in
                    let '(d, t2) := digits t1 in
                    if d == "" then None
                    else Some (sign ++s String c t ++s frac ++s String c0 (sg ++s d), t2)
                  else Some (sign ++s String c t ++s frac, s)
              | EmptyString => Some (sign ++s String c t ++s frac, s)
              end
          end = Some (sign ++s String c t, r)) as Hend.
  { intros sg. destruct r as [|d r]; [by rewrite app_empty_r|].
    destruct Hr as [->|[->| ->]]; simpl; by rewrite app_empty_r. }
  unfold number. destruct Hsign as [-> | ->].
  - change (("" ++s String c t) ++s r) with (String c (t ++s r)). cbv iota beta. rewrite Hcm.
    cbv iota beta. rewrite Hint. exact (Hend "").
  - change (("-" ++s String c t) ++s r) with (String "-" (String c (t ++s r))).
    cbv iota beta. change (Ascii.eqb "-" "-") with true. cbv iota beta. rewrite Hint. exact (Hend "-").
Qed.

(** ** Values *)

Inductive wf_json : N → json → Prop :=
| wf_null n : wf_json n JNull
| wf_bool n b : wf_json n (JBool b)
| wf_int n z : wf_json n (JInt z)
| wf_str n s : ascii_text s → wf_json n (JStr s)
| wf_arr n l : Forall (wf_json n) l → wf_json (N.succ n) (JArr l)
| wf_obj n l : Forall (λ kv, ascii_text kv.1 ∧ wf_json n kv.2) l → wf_json (N.succ n) (JObj l).

Section JsonInd.
Context (P : json → Prop).
Context (Hnull : P JNull) (Hbool : ∀ b, P (JBool b)) (Hnum : ∀ s, P (JNum s)) (Hstr : ∀ s, P (JStr s)).
Context (Harr : ∀ l, Forall P l → P (JArr l)) (Hobj : ∀ l, Forall (λ kv, P kv.2) l → P (JObj l)).

(** Induction that goes through arrays and objects. *)
Fixpoint json_nested_ind (j : json) : P j :=
  match j with
  | JNull => Hnull
  | JBool b => Hbool b
  | JNum s => Hnum s
  | JStr s => Hstr s
  | JArr l =>
      Harr l ((fix go l := match l return Forall P l with
                           | [] => Forall_nil_2 _
                           | x :: l => Forall_cons_2 _ _ _ (json_nested_ind x) (go l)
                           end) l)
  | JObj l =>
      Hobj l ((fix go l := match l return Forall (λ kv, P kv.2) l with
                           | [] => Forall_nil_2 _
                           | x :: l => Forall_cons_2 _ _ _ (json_nested_ind x.2) (go l)
                           end) l)
  end.
End JsonInd.

Lemma print_head n j :
  wf_json n j →
  ∃ c t, print j = String c t ∧ json_space c = false ∧ Ascii.eqb c "]" = false ∧ Ascii.eqb c "}" = false.
Proof.
  intros Hj. destruct Hj as [n|n b|n z|n s Hs|n l Hl|n l Hl].
  - by eexists _, _.
  - destruct b; by eexists _, _.
  - destruct (itoa_shape z) as (sign & c & t & E & Hsign & Hc & _). simpl. rewrite E.
    destruct Hsign as [-> | ->]; [|by eexists _, _]. exists c, t. split; [done|].
    revert Hc. destruct c as [[] [] [] [] [] [] [] []]; intros Hc; try discriminate Hc; done.
  - by eexists _, _.
  - by eexists _, _.
  - by eexists _, _.
Qed.

Definition reads (n : N) (j : json) : Prop :=
  ∀ fuel depth r, wf_json n j → stops r → (depth + n <= maxNestingDepth)%N →
    2 * String.length (print j) ≤ fuel → value fuel depth (print j ++s r) = Some (j, r).

Lemma skip_print n j r : wf_json n j → skip_ws (print j ++s r) = print j ++s r.
Proof. intros (c & t & -> & Hc & _)%print_head. unfold skip_ws. simpl. by rewrite Hc. Qed.

Lemma value_int fuel depth z r :
  stops r → value (S fuel) depth (itoa z ++s r) = Some (JInt z, r).
Proof.
  intros Hr. pose proof (number_itoa z r Hr) as Hn.
  destruct (itoa_shape z) as (sign & c & t & E & Hsign & Hc & _). rewrite E in Hn.
  assert (∃ d u, itoa z ++s r = String d u ∧ (is_digit d = true ∨ d = "-"%char)) as (d & u & Ed & Hd).
  { rewrite E. destruct Hsign as [-> | ->]; eexists _, _; (split; [reflexivity|]); [by left|by right]. }
  rewrite <- E, Ed in Hn. rewrite Ed. cbn [value].
  assert (skip_ws (String d u) = String d u) as ->.
  { unfold skip_ws. simpl. destruct Hd as [Hd| ->]; [|done].
    revert Hd. destruct d as [[] [] [] [] [] [] [] []]; intros Hd; try discriminate Hd; done. }
  destruct Hd as [Hd| ->]; [|by rewrite Hn].
  revert Hd Hn. clear. intros Hd Hn.
  destruct d as [[] [] [] [] [] [] [] []]; try discriminate Hd; cbn [Ascii.eqb]; simpl;
    simpl in Hn; by rewrite Hn.
Qed.

Lemma elements_read n l fuel depth r :
  l ≠ [] → Forall (wf_json n) l → Forall (reads n) l → (depth + n <= maxNestingDepth)%N →
  2 * String.length (Join "," (map print l)) + 1 ≤ fuel →
  elements fuel depth (Join "," (map print l) ++s String "]" r) = Some (l, r).
Proof.
  revert fuel. induction l as [|x l IH]; intros fuel Hne Hw Hr Hd Hf; [done|].
  apply Forall_cons in Hw as [Hx Hw], Hr as [Hrx Hr]. destruct fuel as [|fuel]; [lia|]. cbn [elements].
  destruct l as [|y l].
  - simpl Join in *. rewrite (Hrx fuel depth (String "]" r)); [|done|by right; left|done|lia].
    reflexivity.
  - assert (Join "," (map print (x :: y :: l)) = print x ++s String "," (Join "," (map print (y :: l)))) as E
      by reflexivity.
    set (J := Join "," (map print (y :: l))) in *. rewrite E in Hf |- *. clearbody J.
    rewrite length_app_s in Hf. simpl String.length in Hf.
    rewrite app_assoc_s. change (String "," J ++s String "]" r) with (String "," (J ++s String "]" r)).
    rewrite (Hrx fuel depth); [|done|by left|done|lia]. cbn [mbind option_bind fst snd].
    change (skip_ws (String "," ?t)) with (String "," t).
    cbv iota beta. change (Ascii.eqb "," ",") with true. cbv iota. rewrite IH; [done..|lia].
Qed.

Definition print_member (kv : string * json) : string := json_quote kv.1 ++s ":" ++s print kv.2.

Lemma members_read n l fuel depth r :
  l ≠ [] → Forall (λ kv, ascii_text kv.1 ∧ wf_json n kv.2) l → Forall (λ kv, reads n kv.2) l →
  (depth + n <= maxNestingDepth)%N →
  2 * String.length (Join "," (map print_member l)) + 1 ≤ fuel →
  members fuel depth (Join "," (map print_member l) ++s String "}" r) = Some (l, r).
Proof.
  revert fuel. induction l as [|[k x] l IH]; intros fuel Hne Hw Hr Hd Hf; [done|].
  apply Forall_cons in Hw as [[Hk Hx] Hw], Hr as [Hrx Hr]. simpl in Hk, Hx, Hrx.
  destruct fuel as [|fuel]; [lia|]. cbn [members].
  set (rest := match l with [] => String "}" r
               | _ => String "," (Join "," (map print_member l) ++s String "}" r) end).
  assert (Join "," (map print_member ((k, x) :: l)) ++s String "}" r =
          String dquote (json_text (String.length k) k ++s String dquote (String ":" (print x ++s rest)))) as E.
  { unfold rest. destruct l as [|y l]; simpl Join; unfold print_member at 1; simpl fst; simpl snd;
      rewrite ?app_assoc_s, json_quote_app; reflexivity. }
  assert (2 * String.length (print x) ≤ fuel ∧
          (l ≠ [] → 2 * String.length (Join "," (map print_member l)) + 1 ≤ fuel)) as [Hfx Hfl].
  { revert Hf. destruct l as [|y l]; simpl Join; unfold print_member at 1; simpl fst; simpl snd;
      [intros Hf; rewrite !length_app_s in Hf; split; [lia|done]|].
    change (match map print_member l with [] => print_member y
            | _ :: _ => print_member y ++s "," ++s Join "," (map print_member l) end)
      with (Join "," (map print_member (y :: l))).
    generalize (Join "," (map print_member (y :: l))) as J. intros J. rewrite !length_app_s.
    intros ?. split; [|intros _]; simpl String.length in *; lia. }
  rewrite E. change (skip_ws (String dquote ?t)) with (String dquote t). cbv iota beta.
  change (Ascii.eqb dquote dquote) with true. cbv iota.
  rewrite string_rest_quote by done. cbn [mbind option_bind fst snd].
  change (skip_ws (String ":" (print x ++s rest))) with (String ":" (print x ++s rest)).
  cbv iota beta. change (Ascii.eqb ":" ":") with true. cbv iota.
  rewrite (Hrx fuel depth rest); [|done|unfold rest; destruct l; [by right; right|by left]|done|done].
  cbn [mbind option_bind fst snd]. unfold rest. destruct l as [|y l]; [reflexivity|].
  change (skip_ws (String "," ?t)) with (String "," t). cbv iota beta.
  change (Ascii.eqb "," ",") with true. cbv iota. rewrite IH; [done..|by apply Hfl].
Qed.

Lemma HasPrefix_byte a c u : HasPrefix (String c u) (String a "") = Ascii.eqb c a.
Proof.
  unfold HasPrefix. simpl. destruct (ascii_dec a c) as [->|Hne]; [by rewrite Ascii.eqb_refl; destruct u|].
  destruct (Ascii.eqb_spec c a); congruence.
Qed.

Lemma value_reads n j : reads n j.
Proof.
  revert n. induction j as [|b|lit|s|l IH|l IH] using json_nested_ind; intros n fuel depth r Hw Hs Hd Hf.
  - destruct fuel; [simpl in Hf; lia|]. cbn [value print]. by destruct r.
  - destruct fuel; [destruct b; simpl in Hf; lia|]. cbn [value print]. by destruct b, r.
  - inversion Hw as [| |n0 z E| | |]; subst lit. destruct fuel; [|by apply value_int].
    simpl in Hf. pose proof (itoa_nonempty z). destruct (itoa z); [done|simpl in Hf; lia].
  - inversion Hw; subst. destruct fuel; [simpl in Hf; lia|]. simpl print. rewrite json_quote_app.
    cbn [value]. change (skip_ws (String dquote ?t)) with (String dquote t). cbv iota beta.
    change (Ascii.eqb dquote "{") with false. change (Ascii.eqb dquote "[") with false.
    change (Ascii.eqb dquote dquote) with true. cbv iota. by rewrite string_rest_quote.
  - inversion Hw as [| | | |m l' Hl E1 E2|]; subst. destruct fuel; [simpl in Hf; lia|]. cbn [value print].
    change (("[" ++s ?t) ++s r) with (String "[" (t ++s r)). rewrite app_assoc_s.
    change (skip_ws (String "[" ?t)) with (String "[" t). cbv iota beta.
    change (Ascii.eqb "[" "{") with false. change (Ascii.eqb "[" "[") with true. cbv iota.
    destruct (N.ltb_spec maxNestingDepth (depth + 1)) as [Hlt|_]; [lia|].
    destruct l as [|x l]; [by destruct r|].
    change ("]" ++s r) with (String "]" r).
    assert (HasPrefix (skip_ws (Join "," (map print (x :: l)) ++s String "]" r)) "]" = false) as ->.
    { apply Forall_cons in Hl as [Hx _]. destruct (print_head _ _ Hx) as (c & t & E & Hc & Hb & _).
      assert (∃ u, Join "," (map print (x :: l)) ++s String "]" r = String c u) as [u ->]
        by (destruct l as [|y l]; simpl Join; rewrite E; by eexists).
      unfold skip_ws. simpl. by rewrite Hc, HasPrefix_byte. }
    cbv iota. rewrite (elements_read m); [reflexivity|done|done| |lia|].
    + eapply Forall_impl; [apply IH|]. intros x' Hx'. apply Hx'.
    + change (print (JArr (x :: l))) with ("[" ++s Join "," (map print (x :: l)) ++s "]") in Hf.
      rewrite !length_app_s in Hf. change (String.length "[") with 1 in Hf. lia.
  - inversion Hw as [| | | | |m l' Hl E1 E2]; subst. destruct fuel; [simpl in Hf; lia|]. cbn [value print].
    fold print_member. change (λ kv : string * json, json_quote kv.1 ++s ":" ++s print kv.2) with print_member in *.
    change (("{" ++s ?t) ++s r) with (String "{" (t ++s r)). rewrite app_assoc_s.
    change (skip_ws (String "{" ?t)) with (String "{" t). cbv iota beta.
    change (Ascii.eqb "{" "{") with true. cbv iota.
    destruct (N.ltb_spec maxNestingDepth (depth + 1)) as [Hlt|_]; [lia|].
    destruct l as [|x l]; [by destruct r|].
    change ("}" ++s r) with (String "}" r).
    assert (HasPrefix (skip_ws (Join "," (map print_member (x :: l)) ++s String "}" r)) "}" = false) as ->
      by (by destruct l).
    rewrite (members_read m); [reflexivity|done|done| |lia|].
    + eapply Forall_impl; [apply IH|]. intros x' Hx'. apply Hx'.
    + change (print (JObj (x :: l))) with ("{" ++s Join "," (map print_member (x :: l)) ++s "}") in Hf.
      rewrite !length_app_s in Hf. change (String.length "{") with 1 in Hf. lia.
Qed.

(** What is written is read. *)
Theorem parse_print n j : wf_json n j → (n <= maxNestingDepth)%N → parse (print j) = Some j.
Proof.
  intros Hw Hn. unfold parse, parse_first. rewrite <- (app_empty_r (print j)) at 2.
  rewrite (value_reads n); [reflexivity|done|done|lia|lia].
Qed.

Lemma Unmarshal_print `{JsonErrors} {A} (d : decoder A) zero n j :
  wf_json n j → (n <= maxNestingDepth)%N →
  Unmarshal d zero (print j) = match d zero j with Some a => inl a | None => inr (json_error (print j)) end.
Proof. intros Hw Hn. unfold Unmarshal. by rewrite (parse_print n). Qed.

(** ** Decoding what was written *)

Lemma dec_all_map {A} (zero : A) (d : decoder A) (f : A → json) (l : list A) :
  Forall (λ a, d zero (f a) = Some a) l → dec_all zero d (map f l) = Some l.
Proof. induction 1 as [|a l Ha _ IH]; [done|]. simpl. by rewrite Ha, IH. Qed.

Lemma dec_members_app {A} (f : string → A → json → option A) a b l l' :
  dec_members f a l = Some b → dec_members f a (l ++ l') = dec_members f b l'.
Proof.
  revert a. induction l as [|[k j] l IH]; intros a; simpl; [by intros [= ->]|].
  destruct (f k a j) as [a'|]; simpl; [apply IH|done].
Qed.

Lemma dec_int_JInt old z : (0 ≤ z < 2 ^ 63)%Z → dec_int old (JInt z) = Some z.
Proof.
  intros Hz. unfold dec_int, JInt, ParseInt. rewrite Atoi_itoa by done.
  destruct (_ && _) eqn:E; [done|]. apply andb_false_iff in E as [E|E]; lia.
Qed.

(** ** Queries *)

Definition percent_sign : ascii := "%".

(** [url.QueryUnescape] of what [QueryEscape] gives. *)
Definition unhex (c : ascii) : N := if is_digit c then N_of_ascii c - 48 else N_of_ascii c - 55.
Fixpoint query_unescape (s : string) : string :=
  match s with
  | EmptyString => ""
  | String c t =>
      if Ascii.eqb c percent_sign then
        match t with
        | String a (String b t) => String (ascii_of_N (unhex a * 16 + unhex b)) (query_unescape t)
        | _ => ""
        end
      else if Ascii.eqb c "+" then String " " (query_unescape t)
      else String c (query_unescape t)
  end.

Lemma query_byte_unescape c t : query_unescape (query_byte c ++s t) = String c (query_unescape t).
Proof.
  unfold query_byte. destruct (unreserved c) eqn:E.
  - assert (Ascii.eqb c percent_sign = false ∧ Ascii.eqb c "+" = false) as [E1 E2].
    { revert E. generalize c. clear. intros c E.
      pose proof (all_bytes_spec (λ c, negb (unreserved c) ||
        (negb (Ascii.eqb c percent_sign) && negb (Ascii.eqb c "+"))) ltac:(by vm_compute) c) as H.
      cbv beta in H. rewrite E in H. simpl in H. by bool_to_prop. }
    rewrite app_cons, app_empty_l. simpl. by rewrite E1, E2.
  - destruct (Ascii.eqb c " ") eqn:Es; [by apply Ascii.eqb_eq in Es as ->|].
    unfold percent. rewrite !app_cons, app_empty_l. simpl. f_equal.
    pose proof (all_bytes_spec (λ c, Ascii.eqb (ascii_of_N (unhex (hex_upper (N_of_ascii c / 16)) * 16
      + unhex (hex_upper (N_of_ascii c mod 16)))) c) ltac:(by vm_compute) c) as H.
    by apply Ascii.eqb_eq in H.
Qed.

Lemma query_unescape_escape s : query_unescape (QueryEscape s) = s.
Proof.
  induction s as [|c s IH]; [done|]. unfold QueryEscape in *. cbn [escape_with].
  by rewrite query_byte_unescape, IH.
Qed.

Lemma QueryEscape_inj s t : QueryEscape s = QueryEscape t → s = t.
Proof. intros H. by rewrite <- (query_unescape_escape s), H, query_unescape_escape. Qed.

(** No separator of a query is in an escaped text. *)
Lemma QueryEscape_no_amp s : str_contains_byte "&" (QueryEscape s) = false.
Proof.
  induction s as [|c s IH]; [done|]. unfold QueryEscape in *. cbn [escape_with].
  rewrite str_contains_byte_app, IH, orb_false_r.
  pose proof (all_bytes_spec (λ c, negb (str_contains_byte "&" (query_byte c))) ltac:(by vm_compute) c) as H.
  by apply negb_true_iff in H.
Qed.

(** ** The requests that are sent

    A world that keeps them in order. *)
Class Traced {W} `{HttpClient W} (trace : W → list HTTPRequest) :=
  traced rq w : trace (http_Do rq w).2 = trace w ++ [rq].

(** What goes out of a request: nothing, when its URL does not parse. *)
Definition sent {W} `{HttpClient W} (rq : HTTPRequest) : list HTTPRequest :=
  match http_NewRequest (rq_Method rq) (rq_URL rq) with None => [rq] | Some _ => [] end.

(** A request and what is taken of its answer; no answer when it is not sent. *)
Definition exchange {W A} `{HttpClient W} (taken : HTTPResponse → option A) (rq : HTTPRequest) (w : W) : option A * W :=
  match http_NewRequest (rq_Method rq) (rq_URL rq) with
  | Some _ => (None, w)
  | None =>
      let '(a, w1) := http_Do rq w in
      (match a with inl resp => taken resp | inr _ => None end, w1)
  end.

(** An operation that is one exchange: it succeeds when the answer is taken. *)
Definition exchanges {W A B} (m : (B + error) * W) (x : option A * W) (R : B → A → Prop) : Prop :=
  m.2 = x.2 ∧ match m.1, x.1 with inl b, Some a => R b a | inr _, None => True | _, _ => False end.

Lemma exchange_trace {W A} `{HttpClient W} trace `{!Traced trace} (taken : HTTPResponse → option A) rq w :
  trace (exchange taken rq w).2 = trace w ++ sent rq.
Proof.
  unfold exchange, sent. destruct (http_NewRequest _ _); [by rewrite app_nil_r|].
  rewrite <- traced. by destruct (http_Do rq w).
Qed.

Lemma wrap_exchanges {W A B} f (m : IO W B) w (x : option A * W) R :
  exchanges (m w) x R → exchanges (io_wrap f m w) x R.
Proof. unfold exchanges. rewrite io_wrap_run. by destruct (m w) as [[]]. Qed.

(** What is done with the answer without another request. *)
Lemma bind_exchanges {W A B C} (m : IO W B) (k : B → IO W C) w (x : option A * W) (R : B → A → Prop) (R' : C → A → Prop) :
  exchanges (m w) x R → (∀ b a w', R b a → ∃ c, k b w' = (inl c, w') ∧ R' c a) →
  exchanges ((b ← m; k b) w) x R'.
Proof.
  intros [Hw Hm] Hk. unfold exchanges. rewrite io_bind_run.
  destruct (m w) as [[b|e] w1], x as [[a|] w2]; simpl in *; subst; try done.
  by destruct (Hk b a w2 Hm) as (c & -> & ?).
Qed.

(** ** What is known of a server

    A request whose answer has a status of the two hundreds has done [R]; one
    that fails, or is answered otherwise, has done it or nothing. *)
Definition effect {W V} `{HttpClient W} (view : W → V) (R : V → V → Prop) (rq : HTTPRequest) : Prop :=
  ∀ w r w', http_Do rq w = (r, w') →
    (view w' = view w ∨ R (view w) (view w')) ∧
    ∀ resp, r = inl resp → is_2xx (StatusCode resp) = true → R (view w) (view w').

(** ** Answers of a server in memory *)

Definition answer (status : Z) (body : string) : HTTPResponse := mkResponse status body None.

Lemma ReadBody_answer status body b : ReadBody (answer status body) 0 = inl b → b = body.
Proof. unfold ReadBody. cbn [Body BodyErr answer]. case_match; [done|]. by intros [= <-]. Qed.

Definition no_json_errors : JsonErrors := λ _, ENew "invalid JSON".

(** A server that answers every request alike, and the requests it got. *)
Record Fixed := mkFixed { fx_body : string; fx_trace : list HTTPRequest }.
Definition fixed_http : HttpClient Fixed := {|
  http_NewRequest _ _ := None;
  http_Do rq w := (inl (answer 200 (fx_body w)), mkFixed (fx_body w) (fx_trace w ++ [rq]))
|}.
Lemma fixed_traced : @Traced Fixed fixed_http fx_trace.
Proof. by intros rq w. Qed.

(** A document with its quotes written as apostrophes. *)
Definition quoted (s : string) : string :=
  String.string_of_list_ascii
    (map (λ a, if Ascii.eqb a "'" then ascii_of_nat 34 else a) (String.list_ascii_of_string s)).
