(* ===== verification/Url.v ===== *)
(** * Parsing URLs

    [url.Parse] of Go's net/url, as far as the program looks at the result: the
    scheme, whether there is user information, the host, and the errors. *)
From S2P Require Import Prelude GoStrings NetIP Errors Http DnsConfig.
From Stdlib Require Import ZArith NArith.

Record URL := mkURL { u_Scheme : string; u_User : bool; u_Host : string }.

(** [strings.Cut]: the whole text and nothing when the separator is missing. *)
Definition cut (sep : ascii) (s : string) : string * string := default (s, "") (Cut sep s).

Definition is_letter (c : ascii) : bool := is_lower c || is_upper c.

Definition ctl_byte (c : ascii) : bool := (N_of_ascii c <? 32)%N || (N_of_ascii c =? 127)%N.

(** [getScheme]: the scheme and the rest, nothing before the first byte that
    no scheme has. *)
Fixpoint scheme_end (first : bool) (s : string) : option nat + string :=
  match s with
  | EmptyString => inl None
  | String c s =>
      if is_letter c || (negb first && (is_digit c || existsb (Ascii.eqb c) ["+"; "-"; "."]%char)) then
        match scheme_end false s with
        | inl n => inl (S <$> n)
        | inr e => inr e
        end
      else if Ascii.eqb c ":" then
        if first then inr "missing protocol scheme" else inl (Some 0)
      else inl None
  end.
Definition getScheme (s : string) : string * string + string :=
  match scheme_end true s with
  | inr e => inr e
  | inl None => inl ("", s)
  | inl (Some n) => inl (str_take n s, str_drop (n + 1) s)
  end.

(** What [unescape] is for. *)
Inductive encoding := encodePath | encodeUserPassword | encodeHost | encodeZone | encodeFragment.

Definition host_byte (c : ascii) : bool :=
  is_letter c || is_digit c || existsb (Ascii.eqb c)
    ["-"; "_"; "."; "~"; "!"; "$"; "&"; "'"; "("; ")"; "*"; "+"; ","; ";"; "="; ":"; "["; "]"; "<"; ">"; dquote]%char.

Definition is_host (mode : encoding) : bool :=
  match mode with encodeHost | encodeZone => true | _ => false end.

Definition escape_error (s : string) : string := "invalid URL escape " ++s Quote (str_take 3 s).

(** [unescape]; in a host only bytes above 127 may be escaped, and in a zone
    what a host may have, too. *)
Fixpoint unescape (fuel : nat) (mode : encoding) (s : string) : string + string :=
  match fuel, s with
  | S fuel, String c t =>
      let next (d : ascii) (rest : string) :=
        match unescape fuel mode rest with inl r => inl (String d r) | inr e => inr e end in
      if Ascii.eqb c "%" then
        match t with
        | String a (String b rest) =>
            match hex_val a, hex_val b with
            | Some x, Some y =>
                let v := ascii_of_N (Z.to_N (x * 16 + y)) in
                let is25 := Ascii.eqb a "2" && Ascii.eqb b "5" in
                if match mode with
                   | encodeHost => (x <? 8)%Z && negb is25
                   | encodeZone => negb is25 && negb (Ascii.eqb v " ") && negb (host_byte v)
                   | _ => false
                   end
                then inr (escape_error s)
                else next v rest
            | _, _ => inr (escape_error s)
            end
        | _ => inr (escape_error s)
        end
      else if is_host mode && (N_of_ascii c <? 128)%N && negb (host_byte c) then
        inr ("invalid character " ++s Quote (String c "") ++s " in host name")
      else next c t
  | _, _ => inl ""
  end.
Definition unescape_all (mode : encoding) (s : string) : string + string :=
  unescape (String.length s) mode s.

Definition validOptionalPort (port : string) : bool :=
  match port with
  | EmptyString => true
  | String c t => Ascii.eqb c ":" && str_forallb is_digit t
  end.

(** [strings.Index(s, "%25")] *)
Fixpoint index25 (s : string) : option nat :=
  if HasPrefix s "%25" then Some 0
  else match s with EmptyString => None | String _ t => S <$> index25 t end.

Definition bind_err {A B} (r : A + string) (k : A → B + string) : B + string :=
  match r with inl a => k a | inr e => inr e end.

Definition parseHost (host : string) : string + string :=
  let plain := unescape_all encodeHost host in
  let bad_port p := inr ("invalid port " ++s Quote p ++s " after host") in
  if HasPrefix host "[" then
    match LastIndexByte "]" host with
    | None => inr "missing ']' in host"
    | Some i =>
        let colonPort := str_drop (i + 1) host in
        if negb (validOptionalPort colonPort) then bad_port colonPort
        else
          match index25 (str_take i host) with
          | Some zone =>
              bind_err (unescape_all encodeHost (str_take zone host)) (λ host1,
              bind_err (unescape_all encodeZone (str_drop zone (str_take i host))) (λ host2,
              bind_err (unescape_all encodeHost (str_drop i host)) (λ host3,
              inl (host1 ++s host2 ++s host3))))
          | None => plain
          end
    end
  else
    match LastIndexByte ":" host with
    | Some i =>
        let colonPort := str_drop i host in
        if negb (validOptionalPort colonPort) then bad_port colonPort else plain
    | None => plain
    end.

Definition userinfo_byte (c : ascii) : bool :=
  is_letter c || is_digit c || existsb (Ascii.eqb c)
    ["-"; "."; "_"; ":"; "~"; "!"; "$"; "&"; "'"; "("; ")"; "*"; "+"; ","; ";"; "="; "%"; "@"]%char.

Definition parseAuthority (authority : string) : bool * string + string :=
  match LastIndexByte "@" authority with
  | None => bind_err (parseHost authority) (λ host, inl (false, host))
  | Some i =>
      bind_err (parseHost (str_drop (i + 1) authority)) (λ host,
      let userinfo := str_take i authority in
      if negb (str_forallb userinfo_byte userinfo) then inr "net/url: invalid userinfo"
      else
        let '(username, password) := cut ":" userinfo in
        bind_err (unescape_all encodeUserPassword username) (λ _,
        bind_err (unescape_all encodeUserPassword password) (λ _,
        inl (true, host))))
  end.

(** [parse(rawURL, false)], without the path, which has to unescape. *)
Definition parse_url (s : string) : URL + string :=
  if negb (str_forallb (λ c, negb (ctl_byte c)) s) then inr "net/url: invalid control character in URL"
  else if s == "*" then inl (mkURL "" false "")
  else
    bind_err (getScheme s) (λ '(scheme, rest),
    let scheme := ToLower scheme in
    let rest := (cut "?" rest).1 in
    if negb (HasPrefix rest "/") && (scheme != "") then inl (mkURL scheme false "")
    else if negb (HasPrefix rest "/") && str_contains_byte ":" (cut "/" rest).1 then
      inr "first path segment in URL cannot contain colon"
    else if ((scheme != "") || negb (HasPrefix rest "///")) && HasPrefix rest "//" then
      let '(authority, path) := cut "/" (str_drop 2 rest) in
      bind_err (parseAuthority authority) (λ '(user, host),
      bind_err (unescape_all encodePath path) (λ _, inl (mkURL scheme user host)))
    else bind_err (unescape_all encodePath rest) (λ _, inl (mkURL scheme false ""))).

(** [url.Parse]: the fragment is parsed last. *)
Definition url_Parse (rawURL : string) : URL + error :=
  let '(u, frag) := cut "#" rawURL in
  let fail s e := inr (ENew ("parse " ++s Quote s ++s ": " ++s e)) in
  match parse_url u with
  | inr e => fail u e
  | inl url =>
      match unescape_all encodeFragment frag with
      | inr e => fail rawURL e
      | inl _ => inl url
      end
  end.

Example url_examples :
  map (λ s, match url_Parse s with inl u => Some (u_Scheme u, u_User u, u_Host u) | inr _ => None end)
    ["http://adguard.local:3000/x?y#z"; "HTTPS://u:p%40@h/"; "adguard.local"; "adguard.local:3000";
     "http://h:x/"; "http://[::1]:80/"; "http://[fe80::1%25en0]/"; "http://a b/"; "http://h/%zz"; ":x"; ""] =
  [Some ("http", false, "adguard.local:3000"); Some ("https", true, "h"); Some ("", false, "");
   Some ("adguard.local", false, ""); None; Some ("http", false, "[::1]:80");
   Some ("http", false, "[fe80::1%en0]"); None; None; None; Some ("", false, "")].
Proof. by vm_compute. Qed.
