(* ===== verification/Sha.v ===== *)
(** * SHA-1 and SHA-256

    [crypto/sha1] and [crypto/sha256] of Go's standard library, as FIPS 180-4
    defines them: the OVH provider signs its requests with the one and
    Pi-hole's passwords are hashed with the other. *)
From S2P Require Import Prelude GoStrings.
From Stdlib Require Import NArith.

Local Open Scope N_scope.

Definition word : N := 2 ^ 32.
Definition add32 (a b : N) : N := (a + b) mod word.
Definition rotl (n x : N) : N := N.lor (N.shiftl x n mod word) (N.shiftr x (32 - n)).

(** A number in [n] bytes, the most significant first. *)
Fixpoint be_bytes (n : nat) (x : N) : list N :=
  match n with
  | O => []
  | S n => N.shiftr x (8 * N.of_nat n) mod 256 :: be_bytes n x
  end.

(** The padded message: a one bit, zeros up to 56 bytes modulo 64, and the
    length in bits. *)
Definition sha1_pad (msg : list N) : list N :=
  let len := length msg in
  msg ++ 128 :: replicate ((119 - len mod 64) mod 64)%nat 0 ++ be_bytes 8 (8 * N.of_nat len).

Fixpoint words_be (l : list N) : list N :=
  match l with
  | a :: b :: c :: d :: l => (((a * 256 + b) * 256 + c) * 256 + d) :: words_be l
  | _ => []
  end.

(** The schedule, built backwards: the next word is made of the last sixteen. *)
Fixpoint schedule (n : nat) (w : list N) : list N :=
  match n with
  | O => w
  | S n =>
      let x i := nth i w 0 in
      schedule n (rotl 1 (N.lxor (N.lxor (x 2%nat) (x 7%nat)) (N.lxor (x 13%nat) (x 15%nat))) :: w)
  end.

Definition state : Type := N * N * N * N * N.
Definition sha1_init : state := (1732584193, 4023233417, 2562383102, 271733878, 3285377520).

(** The function and the constant of a round. *)
Definition round_f (t : nat) (b c d : N) : N * N :=
  let bc := N.land b c in
  if (t <? 20)%nat then (N.lor bc (N.land (N.lxor b (word - 1)) d), 1518500249)
  else if (t <? 40)%nat then (N.lxor (N.lxor b c) d, 1859775393)
  else if (t <? 60)%nat then (N.lor (N.lor bc (N.land b d)) (N.land c d), 2400959708)
  else (N.lxor (N.lxor b c) d, 3395469782).

Fixpoint rounds (t : nat) (ws : list N) (s : state) : state :=
  match ws with
  | [] => s
  | w :: ws =>
      let '(a, b, c, d, e) := s in
      let '(f, k) := round_f t b c d in
      rounds (S t) ws (add32 (add32 (add32 (rotl 5 a) f) (add32 e k)) w, a, rotl 30 b, c, d)
  end.

Definition block (s : state) (ws : list N) : state :=
  let '(a, b, c, d, e) := s in
  let '(a', b', c', d', e') := rounds 0 (rev (schedule 64 (rev ws))) s in
  (add32 a a', add32 b b', add32 c c', add32 d d', add32 e e').

(** Sixteen words at a time; [n] blocks. *)
Fixpoint blocks (n : nat) (ws : list N) (s : state) : state :=
  match n with
  | O => s
  | S n => blocks n (drop 16 ws) (block s (take 16 ws))
  end.

Definition sha1 (msg : string) : list N :=
  let ws := words_be (sha1_pad (map N_of_ascii (String.list_ascii_of_string msg))) in
  let '(a, b, c, d, e) := blocks (length ws / 16)%nat ws sha1_init in
  concat (map (be_bytes 4) [a; b; c; d; e]).

(** [%x] of bytes *)
Definition hex_lower (n : N) : ascii := if n <? 10 then ascii_of_N (48 + n) else ascii_of_N (87 + n).
Definition hex (l : list N) : string :=
  String.string_of_list_ascii (concat (map (λ b, [hex_lower (b / 16); hex_lower (b mod 16)]) l)).

(** Every message fills whole blocks, so that none of it is left out. *)
Lemma length_be_bytes n x : length (be_bytes n x) = n.
Proof. induction n as [|n IH]; simpl; [done|by rewrite IH]. Qed.

Lemma length_sha1_pad msg : (length (sha1_pad msg) mod 64 = 0)%nat.
Proof.
  unfold sha1_pad. rewrite length_app. cbn [length]. rewrite length_app, length_replicate, length_be_bytes.
  pose proof (Nat.div_mod_eq (length msg) 64) as Hd. pose proof (Nat.mod_upper_bound (length msg) 64 ltac:(done)) as Hb.
  set (r := (length msg mod 64)%nat) in *. set (q := (length msg / 64)%nat) in *. rewrite Hd.
  pose proof (Nat.div_mod_eq (119 - r) 64) as He. pose proof (Nat.mod_upper_bound (119 - r) 64 ltac:(done)) as Hf.
  set (y := ((119 - r) mod 64)%nat) in *. set (z := ((119 - r) / 64)%nat) in *.
  replace (64 * q + r + S (y + 8))%nat with ((q + 2 - z) * 64)%nat by lia. apply Nat.Div0.mod_mul.
Qed.

Lemma length_sha1 msg : length (sha1 msg) = 20%nat.
Proof. unfold sha1. by destruct (blocks _ _ _) as [[[[a b] c] d] e]. Qed.

(** The test vectors of the standard, and one of two blocks. *)
Example sha1_vectors :
  map (λ s, hex (sha1 s)) ["abc"; ""; "abcdbcdecdefdefgefghfghighijhijkijkljklmklmnlmnomnopnopq"]
  = ["a9993e364706816aba3e25717850c26c9cd0d89d"; "da39a3ee5e6b4b0d3255bfef95601890afd80709";
     "84983e441c3bd26ebaae4aa1f95129e5e54670f1"].
Proof. by vm_compute. Qed.

(** ** SHA-256

    Padding and words are those of SHA-1; the constants are computed from what
    defines them, the fractional parts of the roots of the first primes. *)

Definition rotr (n x : N) : N := rotl (32 - n) x.

Definition primes : list N :=
  List.filter (λ n, forallb (λ d, negb (n mod d =? 0)) (map N.of_nat (List.seq 2 (N.to_nat n - 2))))
    (map N.of_nat (List.seq 2 310)).

(** The integer cube root, bit by bit from the top. *)
Fixpoint cbrt_bits (bits : nat) (r n : N) : N :=
  match bits with
  | O => r
  | S bits =>
      let r' := r + 2 ^ N.of_nat bits in
      cbrt_bits bits (if r' * r' * r' <=? n then r' else r) n
  end.

(** 32 bits after the point of the cube root and of the square root. *)
Definition cube_fraction (p : N) : N := cbrt_bits 36 0 (p * 2 ^ 96) mod word.
Definition square_fraction (p : N) : N := N.sqrt (p * 2 ^ 64) mod word.

Definition round_constants : list N := Eval vm_compute in map cube_fraction primes.
Definition initial_words : list N := Eval vm_compute in map square_fraction (take 8 primes).

Definition mix (a b c : N) (x : N) : N := N.lxor (rotr a x) (N.lxor (rotr b x) (rotr c x)).
Definition small_mix (a b c : N) (x : N) : N := N.lxor (rotr a x) (N.lxor (rotr b x) (N.shiftr x c)).

(** The schedule, built backwards. *)
Fixpoint schedule256 (n : nat) (w : list N) : list N :=
  match n with
  | O => w
  | S n =>
      let x i := nth i w 0 in
      schedule256 n (add32 (add32 (small_mix 17 19 10 (x 1%nat)) (x 6%nat))
                       (add32 (small_mix 7 18 3 (x 14%nat)) (x 15%nat)) :: w)
  end.

(** One round on the eight words [a] to [h]. *)
Definition round256 (s : list N) (kw : N * N) : list N :=
  match s with
  | [a; b; c; d; e; f; g; h] =>
      let choice := N.lxor (N.land e f) (N.land (N.lxor e (word - 1)) g) in
      let majority := N.lxor (N.land a b) (N.lxor (N.land a c) (N.land b c)) in
      let t1 := add32 (add32 h (mix 6 11 25 e)) (add32 choice (add32 kw.1 kw.2)) in
      let t2 := add32 (mix 2 13 22 a) majority in
      [add32 t1 t2; a; b; c; add32 d t1; e; f; g]
  | _ => s
  end.

Definition block256 (s : list N) (ws : list N) : list N :=
  zip_with add32 s (fold_left round256 (zip round_constants (rev (schedule256 48 (rev ws)))) s).

Fixpoint blocks256 (n : nat) (ws : list N) (s : list N) : list N :=
  match n with
  | O => s
  | S n => blocks256 n (drop 16 ws) (block256 s (take 16 ws))
  end.

(** [sha256.Sum256] of bytes *)
Definition sum256 (msg : list N) : list N :=
  let ws := words_be (sha1_pad msg) in
  concat (map (be_bytes 4) (blocks256 (length ws / 16)%nat ws initial_words)).

Definition text_bytes (s : string) : list N := map N_of_ascii (String.list_ascii_of_string s).

(** The test vectors of the standard, of one block and of two. *)
Example sum256_vectors :
  map (λ s, hex (sum256 (text_bytes s))) ["abc"; "abcdbcdecdefdefgefghfghighijhijkijkljklmklmnlmnomnopnopq"]
  = ["ba7816bf8f01cfea414140de5dae2223b00361a396177a9cb410ff61f20015ad";
     "248d6a61d20638b8e5c026930c3e6039a33ce45964ff2167f6ecedd419db06c1"].
Proof. by vm_compute. Qed.

Lemma length_block256 s ws : length s = 8%nat → length (block256 s ws) = 8%nat.
Proof.
  intros Hs. unfold block256. rewrite length_zip_with.
  assert (∀ l s', length s' = 8%nat → length (fold_left round256 l s') = 8%nat) as Hf.
  { induction l as [|kw l IH]; intros s' Hs'; [done|]. simpl. apply IH.
    unfold round256. by do 9 (destruct s' as [|? s']; try done). }
  rewrite Hf, Hs; done.
Qed.

Lemma length_sum256 msg : length (sum256 msg) = 32%nat.
Proof.
  unfold sum256. set (ws := words_be _). generalize (length ws / 16)%nat as n. intros n.
  assert (∀ n ws s, length s = 8%nat → length (blocks256 n ws s) = 8%nat) as Hb.
  { clear. induction n as [|n IH]; intros ws s Hs; [done|]. simpl. apply IH. by apply length_block256. }
  specialize (Hb n ws initial_words ltac:(done)).
  generalize dependent (blocks256 n ws initial_words). intros l Hl.
  by do 9 (destruct l as [|? l]; try done).
Qed.
