(* ===== verification/Docker.v ===== *)
(** * The Docker lister (internal/docker)

    The client finds out whether the daemon runs a swarm, lists its services
    or containers, and hands them to the reconciler as workloads.  The daemon
    is the class [DockerAPI] (the Docker SDK's client); waiting and the clock
    belong to the world.  A nil label map is the empty one; logging is left
    out. *)
From S2P Require Import Prelude GoStrings GoTime Errors Workload IO.
From Stdlib Require Import ZArith.

(** ** Modes (client.go) *)

Definition Mode := string.
Definition ModeAuto : Mode := "auto".
Definition ModeSwarm : Mode := "swarm".
Definition ModeStandalone : Mode := "standalone".

(** [parseDockerMode] of cmd/dnsweaver/setup.go *)
Definition parseDockerMode (mode : string) : Mode :=
  if mode == "swarm" then ModeSwarm
  else if mode == "standalone" then ModeStandalone
  else ModeAuto.

(** The errors of the package, which callers tell apart, and the others. *)
Inductive docker_error :=
| ErrNotSwarmMode
| ErrNotStandaloneMode
| ErrNotManager
| ErrSwarmNotActive
| EOther (e : error).

Definition docker_Error (e : docker_error) : error :=
  match e with
  | ErrNotSwarmMode => ENew "operation requires Docker Swarm mode"
  | ErrNotStandaloneMode => ENew "operation requires Docker standalone mode"
  | ErrNotManager => ENew "swarm mode detected but this node is not a manager"
  | ErrSwarmNotActive => ENew "swarm mode forced but swarm is not active"
  | EOther e => e
  end.

(** ** The daemon *)

(** [system.Info], as far as it is used. *)
Record SwarmInfo := mkSwarmInfo {
  LocalNodeState : string;
  ControlAvailable : bool
}.

Record SwarmService := mkSwarmService {
  svc_ID : string;
  svc_SpecName : string;
  svc_SpecLabels : gmap string string
}.

Record ContainerSummary := mkContainerSummary {
  ctr_ID : string;
  ctr_Names : list string;
  ctr_Labels : gmap string string
}.

(** [container.ListOptions]: [All] and the values of the filter [status]. *)
Record ContainerListOptions := mkListOptions {
  lo_All : bool;
  lo_status : list string
}.

Class DockerAPI (W : Type) := {
  docker_New : string → IO W unit;
  docker_Close : W → W;
  docker_Ping : IO W unit;
  docker_Info : IO W SwarmInfo;
  docker_ServiceList : IO W (list SwarmService);
  docker_ContainerList : ContainerListOptions → IO W (list ContainerSummary);
  docker_ServiceInspect : string → IO W SwarmService;
  docker_ContainerInspect : string → IO W ContainerSummary;
  (** waiting for a timer; an error when the context ends first *)
  docker_wait : Z → IO W unit
}.

(** ** Workloads (workload.go, adapter.go) *)

Definition WorkloadType := string.
Definition WorkloadTypeService : WorkloadType := "service".
Definition WorkloadTypeContainer : WorkloadType := "container".

Record Workload := mkDockerWorkload {
  dw_ID : string;
  dw_Name : string;
  dw_Labels : gmap string string;
  dw_Type : WorkloadType
}.

Definition String_ (w : Workload) : string := dw_Type w ++s ":" ++s dw_Name w.
Definition IsService (w : Workload) : bool := dw_Type w == WorkloadTypeService.
Definition IsContainer (w : Workload) : bool := dw_Type w == WorkloadTypeContainer.
Definition HasLabel (w : Workload) (key : string) : bool :=
  match dw_Labels w !! key with Some _ => true | None => false end.
Definition GetLabel (w : Workload) (key : string) : string := default "" (dw_Labels w !! key).
Definition GetLabelOr (w : Workload) (key defaultValue : string) : string :=
  match dw_Labels w !! key with Some v => v | None => defaultValue end.

Definition IDs (ws : list Workload) : list string := map dw_ID ws.
Definition Names (ws : list Workload) : list string := map dw_Name ws.
Definition Filter (ws : list Workload) (predicate : Workload → bool) : list Workload :=
  List.filter predicate ws.
Definition WithLabel (ws : list Workload) (key : string) : list Workload :=
  Filter ws (λ w, HasLabel w key).
Definition WithLabelValue (ws : list Workload) (key value : string) : list Workload :=
  Filter ws (λ w, GetLabel w key == value).
Definition Services (ws : list Workload) : list Workload := Filter ws IsService.
Definition Containers (ws : list Workload) : list Workload := Filter ws IsContainer.

Definition toWorkloadKind (t : WorkloadType) : Kind :=
  if t == WorkloadTypeService then "service" else "container".

Definition ToWorkload (w : Workload) : Workload.Workload :=
  mkWorkload (dw_ID w) (dw_Name w) "" (dw_Labels w) ∅ PlatformDocker (toWorkloadKind (dw_Type w)) [] ∅.

(** ** The client (client.go, options.go) *)

Record Client := mkClient {
  cl_mode : Mode;
  cl_detectedMode : Mode;
  cl_host : string;
  cl_cleanupOnStop : bool;
  cl_connectTimeout : Z
}.

Definition set_detectedMode (m : Mode) (c : Client) : Client :=
  mkClient (cl_mode c) m (cl_host c) (cl_cleanupOnStop c) (cl_connectTimeout c).

Record Service := mkService { sv_ID : string; sv_Name : string; sv_Labels : gmap string string }.
Record Container := mkContainer { ct_ID : string; ct_Name : string; ct_Labels : gmap string string }.

Definition IsSwarm (c : Client) : bool := cl_detectedMode c == ModeSwarm.

(** [isTerminalModeErr]: [errors.Is] on the two sentinels, which are never
    wrapped; the others wrap what the daemon's client reports. *)
Definition isTerminalModeErr (e : docker_error) : bool :=
  match e with ErrNotManager | ErrSwarmNotActive => true | _ => false end.

(** The switch of [initializeMode]; a mode that is none of the three leaves the
    detected mode as it is. *)
Definition detectMode (c : Client) (info : SwarmInfo) : Client + docker_error :=
  let isSwarmActive := LocalNodeState info == "active" in
  let isManager := ControlAvailable info in
  if cl_mode c == ModeAuto then
    if isSwarmActive then
      if negb isManager then inr ErrNotManager else inl (set_detectedMode ModeSwarm c)
    else inl (set_detectedMode ModeStandalone c)
  else if cl_mode c == ModeSwarm then
    if negb isSwarmActive then inr ErrSwarmNotActive
    else if negb isManager then inr ErrNotManager
    else inl (set_detectedMode ModeSwarm c)
  else if cl_mode c == ModeStandalone then inl (set_detectedMode ModeStandalone c)
  else inl c.

Section Client.
Context {W : Type} `{DockerAPI W} `{Clock W}.

Definition initializeMode (c : Client) : W → (Client + docker_error) * W := λ w,
  match docker_Info w with
  | (inr e, w) => (inr (EOther (EWrapf "getting docker info: " e)), w)
  | (inl info, w) => (detectMode c info, w)
  end.

Definition initialBackoff : Z := time_Second / 2.
Definition maxBackoff : Z := 5 * time_Second.
Definition nextBackoff (backoff : Z) : Z :=
  if (backoff <? maxBackoff)%Z then
    let backoff := (backoff * 2)%Z in if (maxBackoff <? backoff)%Z then maxBackoff else backoff
  else backoff.

(** The retry loop; [None] is a loop that goes on when the fuel is spent.
    [timeout_text] is the text of the timeout in the error. *)
Fixpoint retryLoop (timeout_text : string) (c : Client) (deadline : Z) (fuel : nat) (backoff : Z)
    (err : docker_error) (w : W) : option ((Client + docker_error) * W) :=
  match fuel with
  | O => None
  | S fuel =>
      let '(t, w) := now w in
      let remaining := (deadline - t)%Z in
      let wait := if (remaining <? backoff)%Z then remaining else backoff in
      if (wait <=? 0)%Z then
        Some (inr (EOther (EWrapf ("connecting to docker after " ++s timeout_text ++s ": ")
                                  (docker_Error err))), w)
      else
        match docker_wait wait w with
        | (inr e, w) => Some (inr (EOther (EWrapf "connecting to docker: " e)), w)
        | (inl _, w) =>
            match initializeMode c w with
            | (inl c, w) => Some (inl c, w)
            | (inr err, w) =>
                if isTerminalModeErr err then Some (inr err, w)
                else retryLoop timeout_text c deadline fuel (nextBackoff backoff) err w
            end
        end
  end.

Definition connectWithRetry (timeout_text : string) (fuel : nat) (c : Client) (w : W)
  : option ((Client + docker_error) * W) :=
  match initializeMode c w with
  | (inl c, w) => Some (inl c, w)
  | (inr err, w) =>
      if (cl_connectTimeout c <=? 0)%Z || isTerminalModeErr err then Some (inr err, w)
      else
        let '(t, w) := now w in
        retryLoop timeout_text c (t + cl_connectTimeout c) fuel initialBackoff err w
  end.

(** [NewClient] with the options of main.go; a timeout that is not positive is
    no option. *)
Definition NewClient (timeout_text : string) (fuel : nat) (host : string) (mode : Mode)
    (cleanupOnStop : bool) (connectTimeout : Z) (w : W) : option ((Client + docker_error) * W) :=
  let c := mkClient mode "" host cleanupOnStop
             (if (0 <? connectTimeout)%Z then connectTimeout else 0) in
  match docker_New host w with
  | (inr e, w) => Some (inr (EOther (EWrapf "creating docker client: " e)), w)
  | (inl _, w) =>
      match connectWithRetry timeout_text fuel c w with
      | Some (inr err, w) => Some (inr err, docker_Close w)
      | r => r
      end
  end.

(** An operation of the daemon with its error wrapped. *)
Definition daemon {A} (prefix : string) (m : IO W A) : W → (A + docker_error) * W := λ w,
  match m w with
  | (inl a, w) => (inl a, w)
  | (inr e, w) => (inr (EOther (EWrapf prefix e)), w)
  end.

Definition Ping : W → (unit + docker_error) * W := daemon "pinging docker: " docker_Ping.

Definition ListServices (c : Client) : W → (list Service + docker_error) * W := λ w,
  if cl_detectedMode c != ModeSwarm then (inr ErrNotSwarmMode, w)
  else
    match daemon "listing services: " docker_ServiceList w with
    | (inl services, w) =>
        (inl (map (λ svc, mkService (svc_ID svc) (svc_SpecName svc) (svc_SpecLabels svc)) services), w)
    | (inr e, w) => (inr e, w)
    end.

Definition normalizeContainerName (names : list string) : string :=
  match names with
  | [] => ""
  | name :: _ => if HasPrefix name "/" then str_drop 1 name else name
  end.

Definition listOptions (c : Client) : ContainerListOptions :=
  if cl_cleanupOnStop c then mkListOptions false ["running"]
  else mkListOptions true ["running"; "paused"; "exited"; "created"].

Definition ListContainers (c : Client) : W → (list Container + docker_error) * W := λ w,
  if cl_detectedMode c != ModeStandalone then (inr ErrNotStandaloneMode, w)
  else
    match daemon "listing containers: " (docker_ContainerList (listOptions c)) w with
    | (inl containers, w) =>
        (inl (map (λ ctr, mkContainer (ctr_ID ctr) (normalizeContainerName (ctr_Names ctr))
                            (ctr_Labels ctr)) containers), w)
    | (inr e, w) => (inr e, w)
    end.

Definition GetServiceLabels (c : Client) (serviceID : string)
  : W → (gmap string string + docker_error) * W := λ w,
  if cl_detectedMode c != ModeSwarm then (inr ErrNotSwarmMode, w)
  else
    match daemon ("inspecting service " ++s serviceID ++s ": ") (docker_ServiceInspect serviceID) w with
    | (inl svc, w) => (inl (svc_SpecLabels svc), w)
    | (inr e, w) => (inr e, w)
    end.

Definition GetContainerLabels (c : Client) (containerID : string)
  : W → (gmap string string + docker_error) * W := λ w,
  if cl_detectedMode c != ModeStandalone then (inr ErrNotStandaloneMode, w)
  else
    match daemon ("inspecting container " ++s containerID ++s ": ")
            (docker_ContainerInspect containerID) w with
    | (inl ctr, w) => (inl (ctr_Labels ctr), w)
    | (inr e, w) => (inr e, w)
    end.

Definition ListWorkloads (c : Client) : W → (list Workload + docker_error) * W := λ w,
  if cl_detectedMode c == ModeSwarm then
    match ListServices c w with
    | (inl services, w) =>
        (inl (map (λ s, mkDockerWorkload (sv_ID s) (sv_Name s) (sv_Labels s) WorkloadTypeService)
                services), w)
    | (inr e, w) => (inr e, w)
    end
  else
    match ListContainers c w with
    | (inl containers, w) =>
        (inl (map (λ s, mkDockerWorkload (ct_ID s) (ct_Name s) (ct_Labels s) WorkloadTypeContainer)
                containers), w)
    | (inr e, w) => (inr e, w)
    end.

Definition GetWorkloadLabels (c : Client) (workloadID : string)
  : W → (gmap string string + docker_error) * W :=
  if cl_detectedMode c == ModeSwarm then GetServiceLabels c workloadID
  else GetContainerLabels c workloadID.

(** [WorkloadListerAdapter] *)
Definition adapter_ListWorkloads (c : Client) : W → (list Workload.Workload + error) * W := λ w,
  match ListWorkloads c w with
  | (inl ws, w) => (inl (map ToWorkload ws), w)
  | (inr e, w) => (inr (docker_Error e), w)
  end.

Definition WorkloadListerAdapter (c : Client) : Lister W :=
  mkLister PlatformDocker (adapter_ListWorkloads c).
End Client.

(** ** Properties *)

Section Listing.
Context {W : Type} `{DockerAPI W} `{Clock W}.

Definition service_workload (s : SwarmService) : Workload.Workload :=
  mkWorkload (svc_ID s) (svc_SpecName s) "" (svc_SpecLabels s) ∅ PlatformDocker "service" [] ∅.

Definition container_workload (c : ContainerSummary) : Workload.Workload :=
  mkWorkload (ctr_ID c) (normalizeContainerName (ctr_Names c)) "" (ctr_Labels c) ∅ PlatformDocker
    "container" [] ∅.

Lemma detectMode_spec c info c' :
  cl_mode c ∈ [ModeAuto; ModeSwarm; ModeStandalone] → detectMode c info = inl c' →
  c' = set_detectedMode ModeSwarm c ∧ cl_mode c ≠ ModeStandalone ∧
    LocalNodeState info = "active" ∧ ControlAvailable info = true ∨
  c' = set_detectedMode ModeStandalone c ∧ cl_mode c ≠ ModeSwarm ∧
    (cl_mode c = ModeAuto → LocalNodeState info ≠ "active").
Proof.
  intros Hm. unfold detectMode.
  destruct (String.eqb_spec (LocalNodeState info) "active"), (ControlAvailable info);
    rewrite !elem_of_cons, elem_of_nil in Hm; destruct Hm as [Hm|[Hm|[Hm|[]]]]; rewrite Hm; simpl;
    intros; simplify_eq; naive_solver.
Qed.

Lemma initializeMode_inl c w c' w' :
  initializeMode c w = (inl c', w') → ∃ info, docker_Info w = (inl info, w') ∧ detectMode c info = inl c'.
Proof. unfold initializeMode. destruct (docker_Info w) as [[info|e] w1]; [|done]. naive_solver. Qed.

Lemma retryLoop_inl text c deadline fuel backoff err w c' w' :
  retryLoop text c deadline fuel backoff err w = Some (inl c', w') →
  ∃ w1, initializeMode c w1 = (inl c', w').
Proof.
  revert backoff err w. induction fuel as [|fuel IH]; [done|]. intros backoff err w. cbn [retryLoop].
  destruct (now w) as [t w1]. destruct (_ <=? 0)%Z; [done|].
  destruct (docker_wait _ w1) as [[[]|e] w2]; [|done].
  destruct (initializeMode c w2) as [[c2|err2] w3] eqn:E; [intros [= <- <-]; by exists w2|].
  destruct (isTerminalModeErr err2); [done|]. apply IH.
Qed.

Lemma connectWithRetry_inl text fuel c w c' w' :
  connectWithRetry text fuel c w = Some (inl c', w') → ∃ w1, initializeMode c w1 = (inl c', w').
Proof.
  unfold connectWithRetry. destruct (initializeMode c w) as [[c1|err] w1] eqn:E.
  { intros [= <- <-]. by exists w. }
  destruct (_ || _); [done|]. destruct (now w1) as [t w2]. apply retryLoop_inl.
Qed.

Lemma NewClient_inl text fuel host mode cleanup timeout w c w' :
  NewClient text fuel host mode cleanup timeout w = Some (inl c, w') →
  ∃ info, detectMode (mkClient mode "" host cleanup (if (0 <? timeout)%Z then timeout else 0)) info = inl c.
Proof.
  unfold NewClient. destruct (docker_New host w) as [[[]|e] w1]; [|done].
  destruct (connectWithRetry _ _ _ w1) as [[[c1|err] w2]|] eqn:E; [|done|done].
  intros [= <- <-]. apply connectWithRetry_inl in E as [w0 (info & _ & Hd)%initializeMode_inl]. by exists info.
Qed.

(** C16. What the Docker lister gives.  A client that started lists the services of
    the swarm, or the containers, each once with its labels; the mode errors of
    its operations never occur.  A forced mode is kept, and stopped containers
    are asked for exactly when their records are to stay. *)
Theorem docker_lister_spec text fuel host mode cleanup timeout w c w' :
  NewClient text fuel host (parseDockerMode mode) cleanup timeout w = Some (inl c, w') →
  ∃ swarm : bool,
    (mode = "swarm" → swarm = true) ∧ (mode = "standalone" → swarm = false) ∧
    ∀ w2, lst_ListWorkloads (WorkloadListerAdapter c) w2 =
      if swarm then
        match docker_ServiceList w2 with
        | (inl l, w3) => (inl (map service_workload l), w3)
        | (inr e, w3) => (inr (EWrapf "listing services: " e), w3)
        end
      else
        match docker_ContainerList
                (if cleanup then mkListOptions false ["running"]
                 else mkListOptions true ["running"; "paused"; "exited"; "created"]) w2 with
        | (inl l, w3) => (inl (map container_workload l), w3)
        | (inr e, w3) => (inr (EWrapf "listing containers: " e), w3)
        end.
Proof.
  intros [info Hd]%NewClient_inl.
  apply detectMode_spec in Hd as [(-> & Hm & _)|(-> & Hm & _)]; [simpl in Hm..|].
  - exists true. split_and!; [done|by intros ->|]. intros w2. simpl.
    unfold adapter_ListWorkloads, ListWorkloads, ListServices, daemon. simpl.
    destruct (docker_ServiceList w2) as [[l|e] w3]; [|done]. by rewrite !map_map.
  - exists false. split_and!; [by intros ->|done|]. intros w2. simpl.
    unfold adapter_ListWorkloads, ListWorkloads, ListContainers, daemon, listOptions. simpl.
    destruct (docker_ContainerList _ w2) as [[l|e] w3]; [|done]. by rewrite !map_map.
  - unfold parseDockerMode. simpl. rewrite !elem_of_cons. repeat case_match; tauto.
Qed.
End Listing.

(** *** The retry loop *)

(** Time does not run backwards, and a timer that was not interrupted has
    waited. *)
Class DockerClockLaws (W : Type) `{DockerAPI W} `{Clock W} := {
  clock_time : W → Z;
  now_time w : (clock_time w ≤ (now w).1 ≤ clock_time (now w).2)%Z;
  info_time w : (clock_time w ≤ clock_time (docker_Info w).2)%Z;
  wait_time d w :
    (clock_time w ≤ clock_time (docker_wait d w).2)%Z ∧
    ((docker_wait d w).1 = inl tt → (clock_time w + d ≤ clock_time (docker_wait d w).2)%Z)
}.

Section Connecting.
Context {W : Type} `{DockerClockLaws W}.
Local Open Scope Z_scope.

(** What an answer of the daemon means for the mode that is asked for: the
    mode to run in, or an error that waiting cannot cure. *)
Definition verdict (c : Client) (info : SwarmInfo) : Client + docker_error :=
  let swarm_active := LocalNodeState info == "active" in
  if cl_mode c == "standalone" then inl (set_detectedMode "standalone" c)
  else if swarm_active then
    if ControlAvailable info then inl (set_detectedMode "swarm" c) else inr ErrNotManager
  else if cl_mode c == "swarm" then inr ErrSwarmNotActive
  else inl (set_detectedMode "standalone" c).

(** The pauses: half a second, doubled each time, five seconds at most. *)
Definition pause (k : nat) : Z := Z.min 5000000000 (500000000 * 2 ^ Z.of_nat k).

(** What follows an attempt that the daemon did not answer, [k] pauses after
    the first one: the end when the time is up; otherwise a pause, cut short
    where the time runs out, in which the context may end, and then another
    attempt. *)
Inductive retries (text : string) (c : Client) (limit : Z)
  : nat → error → W → Client + docker_error → W → Prop :=
| retries_expired k e w :
    limit ≤ (now w).1 →
    retries text c limit k e w
      (inr (EOther (EWrapf ("connecting to docker after " ++s text ++s ": ") (EWrapf "getting docker info: " e))))
      (now w).2
| retries_canceled k e w e' w' :
    (now w).1 < limit → docker_wait (Z.min (pause k) (limit - (now w).1)) (now w).2 = (inr e', w') →
    retries text c limit k e w (inr (EOther (EWrapf "connecting to docker: " e'))) w'
| retries_answered k e w w1 info w' :
    (now w).1 < limit → docker_wait (Z.min (pause k) (limit - (now w).1)) (now w).2 = (inl tt, w1) →
    docker_Info w1 = (inl info, w') →
    retries text c limit k e w (verdict c info) w'
| retries_again k e w w1 e' w2 r w' :
    (now w).1 < limit → docker_wait (Z.min (pause k) (limit - (now w).1)) (now w).2 = (inl tt, w1) →
    docker_Info w1 = (inr e', w2) → retries text c limit (S k) e' w2 r w' →
    retries text c limit k e w r w'.

(** The whole course from the first attempt. *)
Definition connect_course (text : string) (c : Client) (w : W) (r : Client + docker_error) (w' : W) : Prop :=
  match docker_Info w with
  | (inl info, w1) => r = verdict c info ∧ w' = w1
  | (inr e, w1) =>
      if cl_connectTimeout c <=? 0 then r = inr (EOther (EWrapf "getting docker info: " e)) ∧ w' = w1
      else retries text c ((now w1).1 + cl_connectTimeout c) 0 e (now w1).2 r w'
  end.

Lemma detectMode_verdict c info :
  cl_mode c ∈ [ModeAuto; ModeSwarm; ModeStandalone] → detectMode c info = verdict c info.
Proof.
  rewrite !elem_of_cons, elem_of_nil. intros [Hm|[Hm|[Hm|[]]]]; unfold detectMode, verdict; rewrite Hm; simpl;
    by destruct (LocalNodeState info == "active"), (ControlAvailable info).
Qed.

Lemma verdict_terminal c info err : verdict c info = inr err → isTerminalModeErr err = true.
Proof. unfold verdict. repeat case_match; intros; by simplify_eq. Qed.

(** The pauses are those of the code. *)
Lemma pause_0 : initialBackoff = pause 0.
Proof. done. Qed.
Lemma pause_S k : nextBackoff (pause k) = pause (S k).
Proof.
  unfold nextBackoff, pause, maxBackoff. rewrite Nat2Z.inj_succ, Z.pow_succ_r by lia.
  change (5 * time_Second) with 5000000000. pose proof (Z.pow_pos_nonneg 2 (Z.of_nat k) ltac:(lia) ltac:(lia)).
  destruct (Z.ltb_spec (Z.min 5000000000 (500000000 * 2 ^ Z.of_nat k)) 5000000000); [|lia].
  destruct (Z.ltb_spec 5000000000 (Z.min 5000000000 (500000000 * 2 ^ Z.of_nat k) * 2)); lia.
Qed.
Lemma pause_min k : 500000000 ≤ pause k.
Proof. unfold pause. pose proof (Z.pow_pos_nonneg 2 (Z.of_nat k) ltac:(lia) ltac:(lia)). lia. Qed.

Lemma initializeMode_time c w : clock_time w ≤ clock_time (initializeMode c w).2.
Proof. unfold initializeMode. pose proof (info_time w). by destruct (docker_Info w) as [[?|?] ?]. Qed.

Lemma retryLoop_ends text c limit n fuel k e w :
  cl_mode c ∈ [ModeAuto; ModeSwarm; ModeStandalone] →
  (n + 2 ≤ fuel)%nat → limit - clock_time w ≤ Z.of_nat n * 500000000 →
  ∃ r w', retryLoop text c limit fuel (pause k) (EOther (EWrapf "getting docker info: " e)) w = Some (r, w') ∧
          retries text c limit k e w r w'.
Proof.
  intros Hmode. revert n k e w. induction fuel as [|fuel IH]; intros n k e w Hf Hd; [lia|].
  cbn [retryLoop]. pose proof (now_time w) as Hn. destruct (now w) as [t w1] eqn:En. simpl in Hn.
  assert ((now w).1 = t ∧ (now w).2 = w1) as [Ht Hw1] by (by rewrite En).
  pose proof (pause_min k) as Hp.
  assert ((if limit - t <? pause k then limit - t else pause k) = Z.min (pause k) (limit - t)) as ->
    by (destruct (Z.ltb_spec (limit - t) (pause k)); lia).
  destruct (Z.leb_spec (Z.min (pause k) (limit - t)) 0) as [E0|E0].
  { eexists _, _. split; [done|]. rewrite <- Hw1. apply retries_expired. lia. }
  pose proof (wait_time (Z.min (pause k) (limit - t)) w1) as [_ Hwt].
  destruct (docker_wait (Z.min (pause k) (limit - t)) w1) as [[[]|e'] w2] eqn:Ew.
  2:{ eexists _, _. split; [done|]. apply retries_canceled; [lia|]. by rewrite Ht, Hw1. }
  specialize (Hwt eq_refl). simpl in Hwt. pose proof (info_time w2) as Hi. unfold initializeMode.
  destruct (docker_Info w2) as [[info|e'] w3] eqn:Ei; simpl in Hi.
  - rewrite detectMode_verdict by done.
    assert (retries text c limit k e w (verdict c info) w3) as Hr
      by (eapply retries_answered; [lia|by rewrite Ht, Hw1|done]).
    destruct (verdict c info) as [c2|err2] eqn:Ev; [by eexists _, _|].
    rewrite (verdict_terminal _ _ _ Ev). by eexists _, _.
  - simpl. rewrite pause_S. destruct (IH (Nat.pred n) (S k) e' w3) as (r & w' & Hr & Hs).
    + destruct n; [simpl in Hd; lia|]. simpl. lia.
    + destruct n as [|n]; [simpl in Hd; lia|]. rewrite Nat.pred_succ. lia.
    + exists r, w'. split; [done|]. eapply retries_again; [lia|by rewrite Ht, Hw1|done..].
Qed.

(** C17. The client keeps trying for as long as it may, and no longer.
    Connecting ends, whatever the daemon does, and its course is this.  The
    first answer of the daemon decides: the mode to run in, or at once the
    error that a swarm was asked for and there is none, or that the node is no
    manager.  Without an answer it fails at once when there is no timeout;
    otherwise it asks again after pauses of 0.5, 1, 2, 4, 5, 5, ... seconds,
    the last one cut short, until an answer comes, the context ends or the
    timeout has passed since the first failure, and says which. *)
Theorem connectWithRetry_ends text fuel c w :
  cl_mode c ∈ [ModeAuto; ModeSwarm; ModeStandalone] →
  (Z.to_nat (cl_connectTimeout c / 500000000) + 3 ≤ fuel)%nat →
  ∃ r w', connectWithRetry text fuel c w = Some (r, w') ∧ connect_course text c w r w'.
Proof.
  intros Hmode Hf. unfold connectWithRetry, connect_course, initializeMode.
  destruct (docker_Info w) as [[info|e] w1].
  { rewrite detectMode_verdict by done. destruct (verdict c info) as [c1|err] eqn:Ev; [by eexists _, _|].
    rewrite (verdict_terminal _ _ _ Ev), orb_true_r. by eexists _, _. }
  simpl. rewrite orb_false_r. destruct (Z.leb_spec (cl_connectTimeout c) 0) as [E0|E0]; [by eexists _, _|].
  pose proof (now_time w1) as Hn. destruct (now w1) as [t w2]. simpl in Hn |- *. rewrite pause_0.
  set (q := cl_connectTimeout c / 500000000) in *.
  assert (0 ≤ q ∧ cl_connectTimeout c ≤ (q + 1) * 500000000) as [Hq Hle].
  { split; [by apply Z.div_pos; lia|]. unfold q.
    pose proof (Z.mul_succ_div_gt (cl_connectTimeout c) 500000000 ltac:(done)). lia. }
  apply (retryLoop_ends text c (t + cl_connectTimeout c) (Z.to_nat q + 1)); [done|lia|].
  rewrite Nat2Z.inj_add, Z2Nat.id by done. simpl. lia.
Qed.
End Connecting.
