(* ===== verification/Guests.v ===== *)
(** * The Proxmox and Incus listers (internal/proxmox, internal/incus)

    The clients of the two APIs, the choice of a guest's address, and the
    workloads that guests become.  Requests go through the class [HttpClient];
    logging is left out. *)
From S2P Require Import Prelude GoStrings Errors NetIP GoMaps Workload IO Http Json.
From Stdlib Require Import ZArith.

(** ** Addresses that no record may point to (ip_resolver.go of both) *)

(** [n.Contains(ip)] of an IPv4 network: an address and the length of its mask. *)
Definition v4_contains (net : list Z) (bits : nat) (ip : list Z) : bool :=
  match ip_To4 ip with
  | None => false
  | Some p4 =>
      let bits_of (l : list Z) := fold_left (λ acc b, acc * 256 + b)%Z l 0%Z in
      (Z.shiftr (bits_of p4) (32 - Z.of_nat bits) =? Z.shiftr (bits_of net) (32 - Z.of_nat bits))%Z
  end.

Definition nonRoutableRanges : list (list Z * nat) :=
  [([192; 0; 0; 0]%Z, 24); ([192; 0; 2; 0]%Z, 24); ([198; 18; 0; 0]%Z, 15); ([198; 51; 100; 0]%Z, 24);
   ([203; 0; 113; 0]%Z, 24); ([240; 0; 0; 0]%Z, 4); ([255; 255; 255; 255]%Z, 32)].

Definition isNonRoutableIP (ip : string) : bool :=
  if ip == "" then true
  else
    match ParseIP ip with
    | None => true
    | Some parsed =>
        IsLoopback parsed || IsLinkLocalUnicast parsed || IsUnspecified parsed || IsMulticast parsed
        || existsb (λ n, v4_contains n.1 n.2 parsed) nonRoutableRanges
    end.

Definition isLoopback (name : string) : bool := (name == "lo") || (name == "lo0").

(** The value of the metadata key [ip], which is there when it is not empty. *)
Definition with_ip (ip : string) (meta : gmap string string) : gmap string string :=
  if ip != "" then <["ip" := ip]> meta else meta.

(** ** Proxmox VE *)
Module Proxmox.
Definition resourceTypeLXC : string := "lxc".
Definition resourceTypeQEMU : string := "qemu".
Definition stateRunning : string := "running".
Definition ipVersionIPv4 : string := "ipv4".

Record ClusterResource := mkResource {
  VMID : Z;
  Name : string;
  Node : string;
  Type_ : string;
  Status : string;
  Tags : string
}.

Record AgentIPAddress := mkAgentIP { IPAddressType : string; IPAddress : string }.
Record AgentNetworkInterface := mkAgentIface {
  if_Name : string;
  IPAddresses : list AgentIPAddress
}.

(** *** The shapes of the answers *)

Definition dec_resource : decoder ClusterResource := dec_struct
  [ mk_field "vmid" VMID (λ v r, mkResource v (Name r) (Node r) (Type_ r) (Status r) (Tags r)) dec_int;
    mk_field "name" Name (λ v r, mkResource (VMID r) v (Node r) (Type_ r) (Status r) (Tags r)) dec_string;
    mk_field "node" Node (λ v r, mkResource (VMID r) (Name r) v (Type_ r) (Status r) (Tags r)) dec_string;
    mk_field "type" Type_ (λ v r, mkResource (VMID r) (Name r) (Node r) v (Status r) (Tags r)) dec_string;
    mk_field "status" Status (λ v r, mkResource (VMID r) (Name r) (Node r) (Type_ r) v (Tags r)) dec_string;
    mk_field "tags" Tags (λ v r, mkResource (VMID r) (Name r) (Node r) (Type_ r) (Status r) v) dec_string ].

Definition dec_agent_ip : decoder AgentIPAddress := dec_struct
  [ mk_field "ip-address-type" IPAddressType (λ v a, mkAgentIP v (IPAddress a)) dec_string;
    mk_field "ip-address" IPAddress (λ v a, mkAgentIP (IPAddressType a) v) dec_string ].
Definition dec_agent_iface : decoder AgentNetworkInterface := dec_struct
  [ mk_field "name" if_Name (λ v a, mkAgentIface v (IPAddresses a)) dec_string;
    mk_field "ip-addresses" IPAddresses (λ v a, mkAgentIface (if_Name a) v)
      (dec_list (mkAgentIP "" "") dec_agent_ip) ].

(** The envelope: a struct with the one field [data]. *)
Definition dec_data {A} (d : decoder A) : decoder A := dec_struct [mk_field "data" id (λ v _, v) d].

(** *** The client (client.go) *)

Record Client := mkClient { baseURL : string; tokenHeader : string }.

(** [NewClient]; its HTTP client is the world's. *)
Definition NewClient (BaseURL TokenID TokenSecret : string) : Client + error :=
  if BaseURL == "" then inr (ENew "proxmox: BaseURL is required")
  else if TokenID == "" then inr (ENew "proxmox: TokenID is required")
  else if TokenSecret == "" then inr (ENew "proxmox: TokenSecret is required")
  else inl (mkClient BaseURL ("PVEAPIToken=" ++s TokenID ++s "=" ++s TokenSecret)).

(** An error, and what [errors.As] finds of [*ErrAgentNotRunning] in its chain:
    the node and the number. *)
Record api_error := mkApiError { api_Error : error; api_agent : nilable (string * Z) }.
Definition EApi (e : error) : api_error := mkApiError e None.
Definition ErrAgentNotRunning (node : string) (vmid : Z) : api_error :=
  mkApiError (ENew ("proxmox: qemu-guest-agent not running on " ++s node ++s "/" ++s itoa vmid))
    (Some (node, vmid)).
(** [fmt.Errorf("...: %w", err)] *)
Definition wrap (prefix : string) (e : api_error) : api_error :=
  mkApiError (EWrapf prefix (api_Error e)) (api_agent e).

(** The directive [%s] of [fmt.Sscanf]: a text up to the next white space. *)
Fixpoint scan_word (s : string) : string :=
  match s with
  | "" => ""
  | String c s => if is_space c then "" else String c (scan_word s)
  end.

(** [fmt.Sscanf(path, "/api2/json/nodes/%s/qemu/%d/agent/", ...)]: the word
    ends at white space or with the text, so that what has to follow it never
    does, and the number is never read. *)
Definition parseAgentNotRunning (path : string) : api_error :=
  let prefix := "/api2/json/nodes/" in
  ErrAgentNotRunning
    (if HasPrefix path prefix then scan_word (trim_left is_space (TrimPrefix path prefix)) else "") 0.

Definition containsAgentError (msg : string) : bool :=
  existsb (Contains msg)
    ["QEMU guest agent is not running"; "guest agent is not running"; "No QEMU guest agent"].

(** [map[string]string] under the key [errors]. *)
Definition dec_errors : decoder (gmap string string) :=
  dec_struct [mk_field "errors" id (λ v _, v) (dec_map "" dec_string)].

Section Api.
Context {W : Type} `{HttpClient W} `{JsonErrors} `{MapOrder}.
Implicit Types (c : Client).

Definition get {A} c (path : string) (d : decoder A) (zero : A) : W → (A + api_error) * W := λ w,
  let fail e w := (inr (EApi e), w) in
  let url := baseURL c ++s path in
  match http_NewRequest "GET" url with
  | Some e => fail (EWrapf "creating request: " e) w
  | None =>
      match http_Do (mkRequest "GET" url
                       [("Authorization", tokenHeader c); ("Accept", "application/json")] "") w with
      | (inr e, w) => fail (EWrapf ("performing request to " ++s path ++s ": ") e) w
      | (inl resp, w) =>
          match ReadAll resp with
          | inr e => fail (EWrapf ("reading response body from " ++s path ++s ": ") e) w
          | inl body =>
              let agent :=
                (StatusCode resp =? StatusInternalServerError)%Z &&
                match Unmarshal dec_errors ∅ body with
                | inl errs => existsb (λ kv, containsAgentError kv.2) (range errs)
                | inr _ => false
                end in
              if agent then (inr (parseAgentNotRunning path), w)
              else if negb (StatusCode resp =? StatusOK)%Z then
                fail (ENew ("proxmox api error: status " ++s itoa (StatusCode resp) ++s " for "
                            ++s path ++s ": " ++s truncate body 200)) w
              else
                match Unmarshal d zero body with
                | inr e => fail (EWrapf ("decoding response from " ++s path ++s ": ") e) w
                | inl a => (inl a, w)
                end
          end
      end
  end.

Definition ListClusterResources c : W → (list ClusterResource + api_error) * W := λ w,
  match get c "/api2/json/cluster/resources?type=vm"
          (dec_data (dec_list (mkResource 0 "" "" "" "" "") dec_resource)) [] w with
  | (inr e, w) => (inr (wrap "listing cluster resources: " e), w)
  | r => r
  end.

(** The field [net0] of the configuration. *)
Definition GetLXCConfig c (node : string) (vmid : Z) : W → (string + api_error) * W := λ w,
  match get c ("/api2/json/nodes/" ++s node ++s "/lxc/" ++s itoa vmid ++s "/config")
          (dec_data (dec_struct [mk_field "net0" id (λ v _, v) dec_string])) "" w with
  | (inr e, w) =>
      (inr (wrap ("getting LXC config for " ++s node ++s "/" ++s itoa vmid ++s ": ") e), w)
  | r => r
  end.

Definition GetVMAgentNetworks c (node : string) (vmid : Z)
  : W → (list AgentNetworkInterface + api_error) * W :=
  get c ("/api2/json/nodes/" ++s node ++s "/qemu/" ++s itoa vmid ++s "/agent/network-get-interfaces")
    (dec_data (dec_struct [mk_field "result" id (λ v _, v)
                             (dec_list (mkAgentIface "" []) dec_agent_iface)])) [].

(** *** Addresses (ip_resolver.go) *)

(** The [ip] of a comma-separated list of settings. *)
Fixpoint net0_ip (parts : list string) : string :=
  match parts with
  | [] => ""
  | part :: parts =>
      match Cut "=" part with
      | None => net0_ip parts
      | Some (key, value) =>
          if key != "ip" then net0_ip parts
          else if (value == "dhcp") || (value == "") then ""
          else match Cut "/" value with Some (ip, _) => ip | None => value end
      end
  end.
Definition parseLXCNet0IP (net0 : string) : string := net0_ip (Split "," net0).

Definition resolveLXCIP c (r : ClusterResource) : W → (string + error) * W := λ w,
  match GetLXCConfig c (Node r) (VMID r) w with
  | (inr e, w) =>
      (inr (EWrapf ("fetching config for LXC " ++s itoa (VMID r) ++s " on " ++s Node r ++s ": ")
                   (api_Error e)), w)
  | (inl net0, w) =>
      if net0 == "" then (inl "", w)
      else
        let ip := parseLXCNet0IP net0 in
        if isNonRoutableIP ip then (inl "", w) else (inl ip, w)
  end.

Definition selectInterfaceForIP (ifaces : list AgentNetworkInterface) (interfacePreference : string)
    (allowedInterfaces : list string) : string :=
  if interfacePreference != "" then interfacePreference
  else
    match List.find (λ i, existsb (HasPrefix (if_Name i)) allowedInterfaces) ifaces with
    | Some i => if_Name i
    | None => ""
    end.

Definition routable (addrs : list AgentIPAddress) : option string :=
  IPAddress <$> List.find (λ a, (IPAddressType a == ipVersionIPv4) && negb (isNonRoutableIP (IPAddress a)))
                  addrs.

(** The first address on the first interface of the name. *)
Definition selected_ip (ifaces : list AgentNetworkInterface) (selected : string) : option string :=
  List.find (λ i, if_Name i == selected) ifaces ≫= λ i, routable (IPAddresses i).

Definition any_ip (ifaces : list AgentNetworkInterface) : option string :=
  head (omap (λ i, if isLoopback (if_Name i) then None else routable (IPAddresses i)) ifaces).

(** The choice among the interfaces that the agent reports. *)
Definition chooseIP (ifaces : list AgentNetworkInterface) (interfacePreference : string)
    (allowedInterfaces : list string) : string :=
  let selected :=
    if (interfacePreference != "") || (0 <? length allowedInterfaces)%nat
    then selectInterfaceForIP ifaces interfacePreference allowedInterfaces else "" in
  match (if selected != "" then selected_ip ifaces selected else None) with
  | Some ip => ip
  | None => default "" (any_ip ifaces)
  end.

Definition resolveVMIP c (r : ClusterResource) (interfacePreference : string)
    (allowedInterfaces : list string) : W → (string + error) * W := λ w,
  match GetVMAgentNetworks c (Node r) (VMID r) w with
  | (inr e, w) =>
      match api_agent e with
      | Some _ => (inl "", w)
      | None => (inr (EWrapf ("querying guest agent for VM " ++s itoa (VMID r) ++s " on " ++s Node r ++s ": ")
                             (api_Error e)), w)
      end
  | (inl ifaces, w) => (inl (chooseIP ifaces interfacePreference allowedInterfaces), w)
  end.

Definition ResolveIPWithInterfacePreferences c (r : ClusterResource) (interfacePreference : string)
    (allowedInterfaces : list string) : W → (string + error) * W := λ w,
  if Type_ r == resourceTypeLXC then resolveLXCIP c r w
  else if Type_ r == resourceTypeQEMU then resolveVMIP c r interfacePreference allowedInterfaces w
  else (inr (ENew ("proxmox: unsupported resource type " ++s Quote (Type_ r))), w).

Definition ResolveIP c (r : ClusterResource) : W → (string + error) * W :=
  ResolveIPWithInterfacePreferences c r "" [].

(** *** The adapter (adapter.go) *)

Record AdapterConfig := mkAdapterConfig {
  NodeFilter : string;
  TagFilter : string;
  StateFilter : string;
  InterfacePreference : string;
  AllowedInterfaces : list string
}.

Definition NewWorkloadListerAdapter (cfg : AdapterConfig) : AdapterConfig :=
  mkAdapterConfig (NodeFilter cfg) (TagFilter cfg)
    (if StateFilter cfg == "" then stateRunning else StateFilter cfg)
    (InterfacePreference cfg) (AllowedInterfaces cfg).

Definition trimmed_tags (tags : string) : list string := map TrimSpace (Split ";" tags).

Definition parseInterfacePreferenceFromTags (tags prefix : string) : string :=
  if prefix == "" then ""
  else
    match List.find (λ tag, (tag != "") && HasPrefix tag (prefix ++s "+")) (trimmed_tags tags) with
    | Some tag => TrimSpace (TrimPrefix tag (prefix ++s "+"))
    | None => ""
    end.

Definition hasTagWithPrefix (tags prefix : string) : bool :=
  if tags == "" then false else existsb (λ tag, HasPrefix tag prefix) (trimmed_tags tags).

Definition parseTags (tags : string) : gmap string string :=
  if tags == "" then ∅
  else fold_left (λ labels tag, if tag == "" then labels else <["proxmox.tag/" ++s tag := "true"]> labels)
         (trimmed_tags tags) ∅.

Definition matchesFilters (cfg : AdapterConfig) (r : ClusterResource) : bool :=
  if (StateFilter cfg != "") && (Status r != StateFilter cfg) then false
  else if (NodeFilter cfg != "") && (Node r != NodeFilter cfg) then false
  else if (TagFilter cfg != "") && negb (hasTagWithPrefix (Tags r) (TagFilter cfg)) then false
  else true.

Definition toWorkload (r : ClusterResource) (ip : string) : Workload :=
  mkWorkload (Node r ++s "/" ++s itoa (VMID r)) (Name r) "" (parseTags (Tags r)) ∅ PlatformProxmox
    (if Type_ r == resourceTypeLXC then "lxc" else "vm") []
    (with_ip ip {["node" := Node r; "vmid" := itoa (VMID r); "tags" := Tags r; "status" := Status r]}).

(** A guest whose address cannot be found out is left out of the list. *)
Fixpoint listed c (cfg : AdapterConfig) (rs : list ClusterResource) (w : W) : list Workload * W :=
  match rs with
  | [] => ([], w)
  | r :: rs =>
      if negb (matchesFilters cfg r) then listed c cfg rs w
      else
        let preference := parseInterfacePreferenceFromTags (Tags r) (InterfacePreference cfg) in
        match ResolveIPWithInterfacePreferences c r preference (AllowedInterfaces cfg) w with
        | (inr _, w) => listed c cfg rs w
        | (inl ip, w) => let '(ws, w) := listed c cfg rs w in (toWorkload r ip :: ws, w)
        end
  end.

Definition ListWorkloads c (cfg : AdapterConfig) : W → (list Workload + error) * W := λ w,
  match ListClusterResources c w with
  | (inr e, w) => (inr (EWrapf "listing proxmox cluster resources: " (api_Error e)), w)
  | (inl rs, w) => let '(ws, w) := listed c cfg rs w in (inl ws, w)
  end.

Definition lister c (cfg : AdapterConfig) : Lister W := mkLister PlatformProxmox (ListWorkloads c cfg).
End Api.
End Proxmox.

(** ** Incus *)
Module Incus.
Definition instanceTypeContainer : string := "container".
Definition defaultProject : string := "default".
Definition composeLabelPrefix : string := "user.label.".
Definition EventTypeLifecycle : string := "lifecycle".
Definition socketBaseURL : string := "http://incus".
Definition DefaultUserAgent : string := "dnsweaver/1.0".

Record InstanceAddress := mkAddress { Family : string; Address : string; Scope : string }.

Record Instance := mkInstance {
  in_Name : string;
  in_Type : string;
  in_Status : string;
  in_Project : string;
  in_Config : gmap string string;
  (** the addresses of each interface, when there is a state *)
  in_State : nilable (gmap string (list InstanceAddress))
}.

(** *** The shapes of the answers *)

Definition dec_address : decoder InstanceAddress := dec_struct
  [ mk_field "family" Family (λ v a, mkAddress v (Address a) (Scope a)) dec_string;
    mk_field "address" Address (λ v a, mkAddress (Family a) v (Scope a)) dec_string;
    mk_field "netmask" (λ _, "") (λ _ a, a) dec_string;
    mk_field "scope" Scope (λ v a, mkAddress (Family a) (Address a) v) dec_string ].

Definition dec_network : decoder (list InstanceAddress) :=
  dec_struct [mk_field "addresses" id (λ v _, v) (dec_list (mkAddress "" "" "") dec_address)].
Definition dec_state : decoder (gmap string (list InstanceAddress)) :=
  dec_struct [mk_field "network" id (λ v _, v) (dec_map [] dec_network)].

Definition dec_instance : decoder Instance := dec_struct
  [ mk_field "name" in_Name (λ v i, mkInstance v (in_Type i) (in_Status i) (in_Project i) (in_Config i)
      (in_State i)) dec_string;
    mk_field "type" in_Type (λ v i, mkInstance (in_Name i) v (in_Status i) (in_Project i) (in_Config i)
      (in_State i)) dec_string;
    mk_field "status" in_Status (λ v i, mkInstance (in_Name i) (in_Type i) v (in_Project i) (in_Config i)
      (in_State i)) dec_string;
    mk_field "status_code" (λ _, 0%Z) (λ _ i, i) dec_int;
    mk_field "project" in_Project (λ v i, mkInstance (in_Name i) (in_Type i) (in_Status i) v
      (in_Config i) (in_State i)) dec_string;
    mk_field "config" in_Config (λ v i, mkInstance (in_Name i) (in_Type i) (in_Status i) (in_Project i)
      v (in_State i)) (dec_map "" dec_string);
    mk_field "state" in_State (λ v i, mkInstance (in_Name i) (in_Type i) (in_Status i) (in_Project i)
      (in_Config i) v) (dec_ptr ∅ dec_state) ].

Record apiResponse := mkApiResponse {
  ar_Type : string;
  ar_Error : string;
  ar_Metadata : option json
}.
Definition dec_response : decoder apiResponse := dec_struct
  [ mk_field "type" ar_Type (λ v r, mkApiResponse v (ar_Error r) (ar_Metadata r)) dec_string;
    mk_field "status_code" (λ _, 0%Z) (λ _ r, r) dec_int;
    mk_field "error" ar_Error (λ v r, mkApiResponse (ar_Type r) v (ar_Metadata r)) dec_string;
    mk_field "metadata" ar_Metadata (λ v r, mkApiResponse (ar_Type r) (ar_Error r) v) dec_any ].

(** *** The client (client.go) *)

Record Client := mkClient { baseURL : string; project : string; allProjects : bool }.

(** [strings.TrimRight(s, "/")] *)
Definition trim_slashes (s : string) : string := trim_right (λ c, Ascii.eqb c "/") s.

Definition NewClient (BaseURL SocketPath Project : string) (AllProjects : bool) : Client + error :=
  if (BaseURL == "") && (SocketPath == "") then
    inr (ENew "incus: either BaseURL or SocketPath is required")
  else if (BaseURL != "") && (SocketPath != "") then
    inr (ENew "incus: set exactly one of BaseURL or SocketPath, not both")
  else
    inl (mkClient (if SocketPath != "" then socketBaseURL else trim_slashes BaseURL) Project AllProjects).

Section Api.
Context {W : Type} `{HttpClient W} `{JsonErrors} `{MapOrder}.
Implicit Types (c : Client).

(** The metadata of an answer; without any the decoder is given no text. *)
Definition get {A} c (path : string) (d : decoder A) (zero : A) : IO W A := λ w,
  let fail e w := (inr e, w) in
  let url := baseURL c ++s path in
  match http_NewRequest "GET" url with
  | Some e => fail (EWrapf "creating request: " e) w
  | None =>
      match http_Do (mkRequest "GET" url
                       [("Accept", "application/json"); ("User-Agent", DefaultUserAgent)] "") w with
      | (inr e, w) => fail (EWrapf ("performing request to " ++s path ++s ": ") e) w
      | (inl resp, w) =>
          match ReadAll resp with
          | inr e => fail (EWrapf ("reading response body from " ++s path ++s ": ") e) w
          | inl body =>
              let env := Unmarshal dec_response (mkApiResponse "" "" None) body in
              if negb (StatusCode resp =? StatusOK)%Z then
                let text := match env with
                            | inl r => if ar_Error r != "" then ar_Error r else truncate body 200
                            | inr _ => truncate body 200
                            end in
                fail (ENew ("incus api error: status " ++s itoa (StatusCode resp) ++s " for " ++s path
                            ++s ": " ++s text)) w
              else
                match env with
                | inr e => fail (EWrapf ("decoding response envelope from " ++s path ++s ": ") e) w
                | inl r =>
                    if ar_Type r == "error" then
                      fail (ENew ("incus api error for " ++s path ++s ": " ++s ar_Error r)) w
                    else
                      match ar_Metadata r ≫= d zero with
                      | Some a => (inl a, w)
                      | None => fail (EWrapf ("decoding metadata from " ++s path ++s ": ")
                                             (json_error (default "" (print <$> ar_Metadata r)))) w
                      end
                end
          end
      end
  end.

Definition ListInstances c : IO W (list Instance) :=
  let q : gmap string string := {["recursion" := "2"]} in
  let q := if allProjects c then <["all-projects" := "true"]> q
           else if project c != "" then <["project" := project c]> q else q in
  io_wrap (EWrapf "listing instances: ")
    (get c ("/1.0/instances?" ++s Encode q)
       (dec_list (mkInstance "" "" "" "" ∅ None) dec_instance) []).

(** *** Addresses (ip_resolver.go) *)

Definition usable (a : InstanceAddress) : bool :=
  (Family a == "inet") && ((Scope a == "") || (Scope a == "global")) && negb (isNonRoutableIP (Address a)).

Definition ResolveIP (inst : Instance) : string :=
  match in_State inst with
  | None => ""
  | Some network =>
      default "" (head (omap (λ name,
        if isLoopback name then None
        else Address <$> List.find usable (default [] (network !! name)))
        (sort_Strings (range_keys network))))
  end.

(** *** The adapter (adapter.go) *)

Definition NewWorkloadListerAdapter (StateFilter : string) : string :=
  if StateFilter == "" then "running" else StateFilter.

Definition matchesFilters (stateFilter : string) (inst : Instance) : bool :=
  negb ((stateFilter != "") && negb (EqualFold (in_Status inst) stateFilter)).

(** The alias of a label of incus-compose, which never takes the place of
    another label. *)
Definition compose_alias (labels : gmap string string) (kv : string * string) : gmap string string :=
  if HasPrefix kv.1 composeLabelPrefix then
    let stripped := str_drop (String.length composeLabelPrefix) kv.1 in
    if stripped == "" then labels
    else match labels !! stripped with Some _ => labels | None => <[stripped := kv.2]> labels end
  else labels.

Definition instance_labels (config : gmap string string) : gmap string string :=
  fold_left compose_alias (range config)
    (fold_left (λ labels kv, <[kv.1 := kv.2]> labels) (range config) ∅).

Definition toWorkload (inst : Instance) (ip : string) : Workload :=
  let project := if in_Project inst == "" then defaultProject else in_Project inst in
  mkWorkload (project ++s "/" ++s in_Name inst) (in_Name inst) "" (instance_labels (in_Config inst)) ∅
    PlatformIncus
    (if in_Type inst == instanceTypeContainer then "incus-container" else "incus-vm") []
    (with_ip ip {["project" := project; "type" := in_Type inst; "status" := in_Status inst]}).

Definition ListWorkloads c (stateFilter : string) : IO W (list Workload) :=
  instances ← io_wrap (EWrapf "listing incus instances: ") (ListInstances c);
  mret (map (λ inst, toWorkload inst (ResolveIP inst))
          (List.filter (matchesFilters stateFilter) instances)).

Definition lister c (stateFilter : string) : Lister W :=
  mkLister PlatformIncus (ListWorkloads c stateFilter).

(** *** Events (events.go) *)

Definition eventsURL c (types : list string) : string :=
  let base := baseURL c in
  let base := if HasPrefix base "https://" then "wss://" ++s TrimPrefix base "https://"
              else if HasPrefix base "http://" then "ws://" ++s TrimPrefix base "http://" else base in
  let params :=
    (if (0 <? length types)%nat then ["type=" ++s Join "," types] else [])
    ++ (if allProjects c then ["all-projects=true"]
        else if project c != "" then ["project=" ++s project c] else []) in
  base ++s "/1.0/events" ++s (if (0 <? length params)%nat then "?" ++s Join "&" params else "").

Record Event := mkEvent { ev_Type : string; ev_Project : string; ev_Metadata : option json }.
Definition dec_event : decoder Event := dec_struct
  [ mk_field "type" ev_Type (λ v e, mkEvent v (ev_Project e) (ev_Metadata e)) dec_string;
    mk_field "project" ev_Project (λ v e, mkEvent (ev_Type e) v (ev_Metadata e)) dec_string;
    mk_field "metadata" ev_Metadata (λ v e, mkEvent (ev_Type e) (ev_Project e) v) dec_any ].

Definition Action (e : Event) : string :=
  if ev_Type e != EventTypeLifecycle then ""
  else
    match ev_Metadata e ≫= dec_struct [mk_field "action" fst (λ v p, (v, p.2)) dec_string;
                                       mk_field "source" snd (λ v p, (p.1, v)) dec_string] ("", "") with
    | Some p => p.1
    | None => ""
    end.
End Api.
End Incus.
