(* ===== verification/GuestProps.v ===== *)
(** * What the guest listers promise

    The addresses that guests are published with, the workloads they become,
    and what the sources make of them. *)
From S2P Require Import Prelude GoStrings Errors NetIP GoMaps Workload Hostname ProviderTypes.
From S2P Require Import IO Http Json SourceRegistry SourcePlatforms Guests.
From Stdlib Require Import ZArith.

(** ** Which addresses are refused *)

Section Routable.
Local Open Scope Z_scope.

(** The IPv4 addresses that no record may point to, by their bytes. *)
Definition reserved_v4 (a b c d : Z) : Prop :=
  a = 127 ∨ (a = 169 ∧ b = 254) ∨ (a = 0 ∧ b = 0 ∧ c = 0 ∧ d = 0) ∨ 224 ≤ a ∨
  (a = 192 ∧ b = 0 ∧ c = 0) ∨ (a = 192 ∧ b = 0 ∧ c = 2) ∨ (a = 198 ∧ (b = 18 ∨ b = 19)) ∨
  (a = 198 ∧ b = 51 ∧ c = 100) ∨ (a = 203 ∧ b = 0 ∧ c = 113).

Lemma ip_To4_v4 a b c d : ip_To4 (v4_prefix ++ [a; b; c; d]) = Some [a; b; c; d].
Proof. unfold ip_To4. simpl length. cbv iota beta. apply To4_app. Qed.

Lemma multicast_byte a : is_byte a → (Z.land a 240 =? 224) = (224 <=? a) && (a <=? 239).
Proof.
  apply (all_octets_dec (λ a, (Z.land a 240 =? 224) = (224 <=? a) && (a <=? 239))). by vm_compute.
Qed.

Lemma quotient_is x k m : 0 < k → x / k = m ↔ m * k ≤ x < (m + 1) * k.
Proof.
  intros Hk. pose proof (Z.div_mod x k ltac:(lia)). pose proof (Z.mod_pos_bound x k Hk).
  split; [intros <-; nia|]. intros ?. symmetry. apply (Z.div_unique x k m (x - m * k)); lia.
Qed.

(** Containment as a comparison of quotients. *)
Lemma v4_contains_eq n1 n2 n3 n4 bits a b c d :
  v4_contains [n1; n2; n3; n4] bits (v4_prefix ++ [a; b; c; d]) =
  (Z.shiftr (((a * 256 + b) * 256 + c) * 256 + d) (32 - Z.of_nat bits) =?
   Z.shiftr (((n1 * 256 + n2) * 256 + n3) * 256 + n4) (32 - Z.of_nat bits)).
Proof. unfold v4_contains. by rewrite ip_To4_v4. Qed.

Lemma nonRoutable_v4 s a b c d :
  ParseIP s = Some (v4_prefix ++ [a; b; c; d]) → isNonRoutableIP s = true ↔ reserved_v4 a b c d.
Proof.
  intros Hp. unfold isNonRoutableIP.
  pose proof (ParseIP_bytes _ _ Hp) as Hbytes. apply Forall_app in Hbytes as [_ Hbytes].
  rewrite !Forall_cons in Hbytes. destruct Hbytes as (Ha & Hb & Hc & Hd & _).
  destruct (String.eqb_spec s "") as [->|_]; [done|].
  rewrite Hp. unfold IsLoopback, IsLinkLocalUnicast, IsUnspecified, IsMulticast. rewrite ip_To4_v4.
  rewrite multicast_byte by done. unfold nonRoutableRanges. cbn [existsb fst snd].
  rewrite !v4_contains_eq, !Z.shiftr_div_pow2 by lia.
  rewrite !orb_true_iff, !andb_true_iff, !Z.eqb_eq, !Z.leb_le, bool_decide_eq_true.
  assert (v4_prefix ++ [a; b; c; d] ≠ replicate 16 0) as Hz by done.
  assert (Some [a; b; c; d] = Some [0; 0; 0; 0] ↔ a = 0 ∧ b = 0 ∧ c = 0 ∧ d = 0) as ->
    by (split; [by intros [= -> -> -> ->]|by intros (-> & -> & -> & ->)]).
  unfold is_byte, reserved_v4 in *. cbn [Z.of_nat Z.sub Z.pow].
  change (2 ^ (32 - Z.of_nat 24)) with 256. change (2 ^ (32 - Z.of_nat 15)) with 131072.
  change (2 ^ (32 - Z.of_nat 4)) with 268435456. change (2 ^ (32 - Z.of_nat 32)) with 1.
  change ((((192 * 256 + 0) * 256 + 0) * 256 + 0) / 256) with 12582912.
  change ((((192 * 256 + 0) * 256 + 2) * 256 + 0) / 256) with 12582914.
  change ((((198 * 256 + 18) * 256 + 0) * 256 + 0) / 131072) with 25353.
  change ((((198 * 256 + 51) * 256 + 100) * 256 + 0) / 256) with 12989284.
  change ((((203 * 256 + 0) * 256 + 113) * 256 + 0) / 256) with 13303921.
  change ((((240 * 256 + 0) * 256 + 0) * 256 + 0) / 268435456) with 15.
  change ((((255 * 256 + 255) * 256 + 255) * 256 + 255) / 1) with 4294967295.
  rewrite !quotient_is by lia. split.
  - intros [[[[?|?]|[?|Hr]]|?]|[?|[?|[?|[?|[?|[?|[?|Hf]]]]]]]].
    + by left.
    + right. by left.
    + right. right. by left.
    + by destruct (Hz Hr).
    + do 3 right. left. lia.
    + do 4 right. left. lia.
    + do 5 right. left. lia.
    + do 6 right. left. lia.
    + do 7 right. left. lia.
    + do 8 right. lia.
    + do 3 right. left. lia.
    + do 3 right. left. lia.
    + discriminate Hf.
  - intros [?|[?|[?|[?|[?|[?|[?|[?|?]]]]]]]].
    + left. left. left. by left.
    + left. left. left. by right.
    + left. left. right. by left.
    + destruct (Z.le_gt_cases a 239); [left; right; lia|]. right. do 5 right. left. lia.
    + right. left. lia.
    + right. right. left. lia.
    + do 3 right. left. lia.
    + do 4 right. left. lia.
    + right. do 4 right. left. lia.
Qed.

(** The addresses that are refused are exactly the reserved ones: loopback,
    link-local, the unspecified address, multicast and above, and the networks
    kept for protocols, documentation and benchmarks. *)
Theorem nonRoutable_exact a b c d :
  is_byte a → is_byte b → is_byte c → is_byte d →
  isNonRoutableIP (dotted [a; b; c; d]) = true ↔ reserved_v4 a b c d.
Proof.
  intros Ha Hb Hc Hd. apply nonRoutable_v4.
  apply ParseIP_dotted; [done|by do 4 (apply Forall_cons_2; [done|])].
Qed.

(** The addresses of the other family that no record may point to: loopback,
    unspecified, link-local, multicast. *)
Definition reserved_v6 (ip : list Z) : Prop :=
  ip = replicate 15 0 ++ [1] ∨ ip = replicate 16 0 ∨
  (∃ b t, ip = 254 :: b :: t ∧ 128 ≤ b < 192) ∨ ∃ t, ip = 255 :: t.

(** An address, in either form, that a record may point to. *)
Definition reachable (s : string) : Prop :=
  ∃ ip, ParseIP s = Some ip ∧
    match To4 ip with Some [a; b; c; d] => ¬ reserved_v4 a b c d | _ => ¬ reserved_v6 ip end.

Lemma link_local_byte b : is_byte b → (Z.land b 192 =? 128) = (128 <=? b) && (b <? 192).
Proof.
  apply (all_octets_dec (λ b, (Z.land b 192 =? 128) = (128 <=? b) && (b <? 192))). by vm_compute.
Qed.

Lemma routable_reachable s : isNonRoutableIP s = false → reachable s.
Proof.
  intros Hn. destruct (ParseIP s) as [ip|] eqn:Hp.
  2:{ unfold isNonRoutableIP in Hn. rewrite Hp in Hn. by destruct (s == ""). }
  exists ip. split; [done|]. pose proof (ParseIP_length _ _ Hp) as Hlen.
  destruct (To4 ip) as [l|] eqn:E4.
  - unfold To4 in E4. case_bool_decide as Ht; [|done]. injection E4 as <-.
    rewrite <- (take_drop 12 ip), Ht in Hp. assert (length (drop 12 ip) = 4%nat) as Hl by (rewrite length_drop; lia).
    destruct (drop 12 ip) as [|a [|b [|c [|d [|]]]]]; try discriminate Hl.
    rewrite <- (nonRoutable_v4 s) by done. by rewrite Hn.
  - assert (ip_To4 ip = None) as Et by (unfold ip_To4; by rewrite Hlen).
    unfold isNonRoutableIP in Hn. destruct (s == ""); [done|]. rewrite Hp in Hn.
    rewrite !orb_false_iff in Hn. destruct Hn as [[[[Hl Hll] Hu] Hm] _].
    unfold IsLoopback, IsLinkLocalUnicast, IsUnspecified, IsMulticast in Hl, Hll, Hu, Hm. rewrite Et in Hl, Hll, Hu, Hm.
    apply bool_decide_eq_false in Hl, Hu. intros [?|[?|[(b & t & -> & Hb)|[t ->]]]]; [done|naive_solver| |done].
    apply ParseIP_bytes in Hp. rewrite !Forall_cons in Hp. destruct Hp as (_ & Hbb & _).
    rewrite link_local_byte in Hll by done. simpl in Hll. lia.
Qed.
End Routable.

(** ** What the listers list *)

Lemma head_omap {A B} (f : A → option B) l b : head (omap f l) = Some b → ∃ a, a ∈ l ∧ f a = Some b.
Proof.
  induction l as [|a l IH]; simpl; [done|]. destruct (f a) as [b'|] eqn:E.
  - intros [= <-]. exists a. split; [by left|done].
  - intros (a' & ? & ?)%IH. exists a'. split; [by right|done].
Qed.

(** An address that a guest may be published with. *)
Definition publishable (ip : string) : Prop := ip ≠ "" → isNonRoutableIP ip = false.

Lemma with_ip_lookup ip m : m !! "ip" = None → default "" (with_ip ip m !! "ip") = ip.
Proof.
  unfold with_ip. destruct (String.eqb_spec ip "") as [->|]; simpl; [by intros ->|].
  intros _. by rewrite lookup_insert_eq.
Qed.

(** *** Proxmox *)

Section ProxmoxList.
Import Guests.Proxmox.
Context {W : Type} `{HttpClient W} `{JsonErrors} `{MapOrder}.
Implicit Types (c : Client) (r : ClusterResource) (ifs : list AgentNetworkInterface).

(** The states that requests lead to. *)
Inductive reached (w : W) : W → Prop :=
| reached_refl : reached w w
| reached_do rq w1 : reached w w1 → reached w (http_Do rq w1).2.

(** The server answered a request for a path, after others, with a document
    that holds [a]. *)
Definition answered (w : W) c (path : string) {A} (d : decoder A) (zero a : A) : Prop :=
  ∃ w1 resp body, reached w w1 ∧
    (http_Do (mkRequest "GET" (baseURL c ++s path)
                [("Authorization", tokenHeader c); ("Accept", "application/json")] "") w1).1 = inl resp ∧
    StatusCode resp = 200%Z ∧ ReadAll resp = inl body ∧ Unmarshal (dec_data d) zero body = inl a.

(** The addresses of a guest: the one of the first network of a container's
    configuration, and those that the agent of a machine reports. *)
Definition net0_setting : decoder string := dec_struct [mk_field "net0" id (λ v _, v) dec_string].
Definition agent_interfaces : decoder (list AgentNetworkInterface) :=
  dec_struct [mk_field "result" id (λ v _, v) (dec_list (mkAgentIface "" []) dec_agent_iface)].

Definition own_address (w : W) c r (ip : string) : Prop :=
  let guest := "/api2/json/nodes/" ++s Node r ++s "/" ++s Type_ r ++s "/" ++s itoa (VMID r) in
  (Type_ r = "lxc" ∧ ∃ net0 v, answered w c (guest ++s "/config") net0_setting "" net0 ∧
     ("ip=" ++s v) ∈ Split "," net0 ∧ (v = ip ∨ ∃ mask, v = ip ++s "/" ++s mask)) ∨
  (Type_ r = "qemu" ∧ ∃ ifs i a,
     answered w c (guest ++s "/agent/network-get-interfaces") agent_interfaces [] ifs ∧
     i ∈ ifs ∧ a ∈ IPAddresses i ∧ IPAddressType a = "ipv4" ∧ IPAddress a = ip).

Lemma reached_trans w w1 w2 : reached w w1 → reached w1 w2 → reached w w2.
Proof. intros Hw. induction 1; [done|by constructor]. Qed.

Lemma get_answered w c path {A} (d : decoder A) (zero : A) w1 :
  reached w w1 →
  reached w (get c path (dec_data d) zero w1).2 ∧
  (∀ a, (get c path (dec_data d) zero w1).1 = inl a → answered w c path d zero a).
Proof.
  intros Hw. unfold get. destruct (http_NewRequest _ _); [done|].
  set (rq := mkRequest _ _ _ _). pose proof (reached_do w rq w1 Hw) as Hr.
  destruct (http_Do rq w1) as [[resp|e] w2] eqn:Ed; [|done]. simpl in Hr.
  destruct (ReadAll resp) as [body|] eqn:Eb; [|done]. destruct (_ && _); [done|].
  destruct (Z.eqb_spec (StatusCode resp) StatusOK) as [Hs|]; [|done]. simpl negb. cbv iota.
  destruct (Unmarshal _ _ body) as [a|] eqn:Eu; [|done]. split; [done|]. intros ? [= <-].
  exists w1, resp, body. split_and!; try done. fold rq. by rewrite Ed.
Qed.

(** What is chosen is an address of the list, and none of those refused. *)
Definition chosen (addrs : list AgentIPAddress) (ip : string) : Prop :=
  isNonRoutableIP ip = false ∧ ∃ a, a ∈ addrs ∧ IPAddressType a = "ipv4" ∧ IPAddress a = ip.

Lemma routable_chosen addrs ip : routable addrs = Some ip → chosen addrs ip.
Proof.
  unfold routable. intros (a & Ha & ->)%fmap_Some. apply List.find_some in Ha as [Hin Ha].
  apply andb_true_iff in Ha as [Ht%String.eqb_eq Hn%negb_true_iff]. split; [done|].
  exists a. split; [by apply list_elem_of_In|done].
Qed.

Lemma chooseIP_chosen ifs preference allowed :
  chooseIP ifs preference allowed ≠ "" →
  ∃ i, i ∈ ifs ∧ chosen (IPAddresses i) (chooseIP ifs preference allowed).
Proof.
  unfold chooseIP. set (selected := if _ || _ then _ else _). clearbody selected.
  assert (default "" (any_ip ifs) ≠ "" → ∃ i, i ∈ ifs ∧ chosen (IPAddresses i) (default "" (any_ip ifs))) as Hany.
  { destruct (any_ip ifs) as [ip|] eqn:E; [intros _|done]. simpl.
    apply head_omap in E as (i & Hi & E). destruct (isLoopback _); [done|]. exists i. by apply routable_chosen in E. }
  destruct (if selected != "" then selected_ip ifs selected else None) as [ip|] eqn:E; [intros _|done].
  destruct (selected != ""); [|done]. apply bind_Some in E as (i & Hi & E). apply List.find_some in Hi as [Hi _].
  exists i. split; [by apply list_elem_of_In|by apply routable_chosen].
Qed.

Lemma net0_ip_part parts ip :
  net0_ip parts = ip → ip ≠ "" → ∃ v, ("ip=" ++s v) ∈ parts ∧ (v = ip ∨ ∃ mask, v = ip ++s "/" ++s mask).
Proof.
  intros <-. induction parts as [|part parts IH]; [done|]. simpl.
  assert (net0_ip parts ≠ "" → ∃ v, ("ip=" ++s v) ∈ part :: parts ∧
    (v = net0_ip parts ∨ ∃ mask, v = net0_ip parts ++s "/" ++s mask)) as Hrest.
  { intros (v & Hv & ?)%IH. exists v. split; [by right|done]. }
  destruct (Cut "=" part) as [[key value]|] eqn:E; [|done]. apply Cut_spec in E as [-> _].
  destruct (String.eqb_spec key "ip") as [->|]; [|done]. simpl negb. cbv iota.
  destruct (_ || _); [done|]. intros _. exists value. split; [by left|].
  destruct (Cut "/" value) as [[ip mask]|] eqn:E; [|by left]. apply Cut_spec in E as [-> _]. right. by exists mask.
Qed.

(** The result of asking for the address of a guest. *)
Lemma resolve_own w c r preference allowed w1 :
  reached w w1 →
  let '(res, w2) := ResolveIPWithInterfacePreferences c r preference allowed w1 in
  reached w w2 ∧ ∀ ip, res = inl ip → ip ≠ "" → own_address w c r ip ∧ isNonRoutableIP ip = false.
Proof.
  intros Hw. unfold ResolveIPWithInterfacePreferences, resolveLXCIP, resolveVMIP.
  destruct (String.eqb_spec (Type_ r) resourceTypeLXC) as [Hl|_].
  - unfold GetLXCConfig.
    destruct (get_answered w c ("/api2/json/nodes/" ++s Node r ++s "/lxc/" ++s itoa (VMID r) ++s "/config")
                net0_setting "" w1 Hw) as [Hr Ha]. unfold net0_setting in Hr, Ha.
    destruct (get _ _ _ _ w1) as [[net0|e] w2]; simpl in Hr, Ha; [|done]. specialize (Ha _ eq_refl).
    destruct (net0 == ""); [by split; [|intros ? [= <-]]|].
    destruct (isNonRoutableIP _) eqn:E; (split; [done|]); intros ip [= <-] Hne; [done|]. split; [|done].
    destruct (net0_ip_part _ _ eq_refl Hne) as (v & Hv & ?). left. split; [done|]. exists net0, v.
    split_and!; [|done..]. rewrite Hl. rewrite !app_assoc_s. exact Ha.
  - destruct (String.eqb_spec (Type_ r) resourceTypeQEMU) as [Hq|_]; [|done].
    unfold GetVMAgentNetworks.
    destruct (get_answered w c ("/api2/json/nodes/" ++s Node r ++s "/qemu/" ++s itoa (VMID r) ++s "/agent/network-get-interfaces")
                agent_interfaces [] w1 Hw) as [Hr Ha]. unfold agent_interfaces in Hr, Ha.
    destruct (get _ _ _ _ w1) as [[ifs|e] w2]; simpl in Hr, Ha.
    2:{ destruct (api_agent e); split; try done; by intros ? [= <-]. }
    specialize (Ha _ eq_refl). split; [done|]. intros ip [= <-] Hne.
    destruct (chooseIP_chosen _ _ _ Hne) as (i & Hi & Hn & a & Hia & Ht & He). split; [|done]. right. split; [done|].
    exists ifs, i, a. split_and!; [|done..]. rewrite Hq. rewrite !app_assoc_s. exact Ha.
Qed.

Lemma listed_from w c cfg rs w1 wl :
  reached w w1 → wl ∈ (listed c cfg rs w1).1 →
  ∃ r ip, r ∈ rs ∧ matchesFilters cfg r = true ∧ wl = toWorkload r ip ∧
    (ip ≠ "" → own_address w c r ip ∧ isNonRoutableIP ip = false).
Proof.
  revert w1. induction rs as [|r rs IH]; intros w1 Hw; simpl; [by intros ?%elem_of_nil|].
  assert (∀ w2, reached w w2 → wl ∈ (listed c cfg rs w2).1 → ∃ r' ip, r' ∈ r :: rs ∧ matchesFilters cfg r' = true
    ∧ wl = toWorkload r' ip ∧ (ip ≠ "" → own_address w c r' ip ∧ isNonRoutableIP ip = false)) as Hrest.
  { intros w2 Hw2 (r' & ip & ? & ?)%IH; [|done]. exists r', ip. split; [by right|done]. }
  destruct (matchesFilters cfg r) eqn:Ef; simpl; [|by apply Hrest].
  pose proof (resolve_own w c r (parseInterfacePreferenceFromTags (Tags r) (InterfacePreference cfg))
    (AllowedInterfaces cfg) w1 Hw) as Hr.
  destruct (ResolveIPWithInterfacePreferences _ _ _ _ w1) as [[ip|e] w2]; destruct Hr as [Hw2 Hr]; [|by apply Hrest].
  specialize (Hrest w2 Hw2). destruct (listed c cfg rs w2) as [ws w3]. simpl.
  intros [->|Hin]%elem_of_cons; [|by apply Hrest]. exists r, ip. split_and!; [by left|done..|by apply Hr].
Qed.

Lemma toWorkload_ip r ip : metadata (toWorkload r ip) "ip" = ip.
Proof. unfold metadata, toWorkload. simpl. apply with_ip_lookup. by simplify_map_eq. Qed.
End ProxmoxList.

(** C13. A guest's record points to the guest.  When the Proxmox source makes a
    hostname with hints of a guest that was listed, the cluster's answer has a
    guest of that node and number which the filters let through; the hints are
    an A record, and its target is one of that guest's own addresses: the
    address in the network setting of the container's configuration, or an
    IPv4 address that the machine's agent reports, as the server answered for
    that guest during the listing.  The target parses as an address and is not
    loopback, link-local, unspecified, multicast or in one of the networks
    kept for protocols, documentation and benchmarks. *)
Theorem guest_record_routable {W} `{HttpClient W} `{JsonErrors} `{MapOrder}
    (c : Guests.Proxmox.Client) cfg (w w' : W) ws wl p hs h hints :
  Guests.Proxmox.ListWorkloads c cfg w = (inl ws, w') → wl ∈ ws →
  SourcePlatforms.Proxmox.Extract p wl = inl hs → h ∈ hs → h_RecordHints h = Some hints →
  ∃ rs r,
    answered w c "/api2/json/cluster/resources?type=vm"
      (dec_list (Guests.Proxmox.mkResource 0 "" "" "" "" "") Guests.Proxmox.dec_resource) [] rs ∧
    r ∈ rs ∧ Guests.Proxmox.matchesFilters cfg r = true ∧
    w_ID wl = Guests.Proxmox.Node r ++s "/" ++s itoa (Guests.Proxmox.VMID r) ∧
    hint_Type hints = "A" ∧ own_address w c r (hint_Target hints) ∧ reachable (hint_Target hints).
Proof.
  unfold Guests.Proxmox.ListWorkloads, Guests.Proxmox.ListClusterResources.
  destruct (get_answered w c "/api2/json/cluster/resources?type=vm"
    (dec_list (Guests.Proxmox.mkResource 0 "" "" "" "" "") Guests.Proxmox.dec_resource) [] w (reached_refl w)) as [Hw Hrs].
  destruct (Guests.Proxmox.get _ _ _ _ w) as [[rs|e] w1]; simpl in Hw, Hrs; [|done]. specialize (Hrs _ eq_refl).
  destruct (Guests.Proxmox.listed c cfg rs w1) as [ws1 w2] eqn:El. intros [= -> ->] Hwl Hx Hh Hints.
  assert (wl ∈ (Guests.Proxmox.listed c cfg rs w1).1) as Hin by (by rewrite El).
  apply (listed_from w) in Hin as (r & ip & Hr & Hf & -> & Hp); [|done].
  apply proxmox_spec in Hx as [[-> _]|(h' & -> & _ & Hne & _ & Hi)]; [by apply elem_of_nil in Hh|].
  apply list_elem_of_singleton in Hh as ->. rewrite toWorkload_ip in Hne, Hi. rewrite Hi in Hints.
  destruct (_ == _); [|done]. injection Hints as <-. destruct (Hp Hne) as [Ho Hn].
  exists rs, r. split_and!; try done. by apply routable_reachable.
Qed.

(** A guest that cannot be asked is left out.  When the configuration of a
    container cannot be read the list is made all the same, without it: to the
    reconciler the container is gone. *)
Lemma unresolved_guest_left_out {W} `{HttpClient W} `{JsonErrors} `{MapOrder}
    (c : Guests.Proxmox.Client) cfg r rs w e w1 :
  Guests.Proxmox.matchesFilters cfg r = true → Guests.Proxmox.Type_ r = "lxc" →
  Guests.Proxmox.GetLXCConfig c (Guests.Proxmox.Node r) (Guests.Proxmox.VMID r) w = (inr e, w1) →
  Guests.Proxmox.listed c cfg (r :: rs) w = Guests.Proxmox.listed c cfg rs w1.
Proof.
  intros Hf Ht Hg. simpl. rewrite Hf. simpl.
  unfold Guests.Proxmox.ResolveIPWithInterfacePreferences, Guests.Proxmox.resolveLXCIP. by rewrite Ht, Hg.
Qed.

(** The list of allowed interfaces is a preference: when none of them has an
    address, the address of another interface is taken. *)
Example allowed_interfaces_fall_back :
  Guests.Proxmox.chooseIP
    [Guests.Proxmox.mkAgentIface "docker0" [Guests.Proxmox.mkAgentIP "ipv4" "172.17.0.1"];
     Guests.Proxmox.mkAgentIface "eth0" []] "" ["eth0"] = "172.17.0.1".
Proof. by vm_compute. Qed.

(** *** Incus *)

Section IncusList.
Import Guests.Incus.

(** The alias of a label, while the labels that are there stay. *)
Lemma compose_fold (config : gmap string string) kvs labels k :
  NoDup (map fst kvs) → (∀ kv, kv ∈ kvs → config !! kv.1 = Some kv.2) →
  fold_left compose_alias kvs labels !! k =
  match labels !! k with
  | Some v => Some v
  | None => if k == "" then None
            else snd <$> List.find (λ kv, kv.1 == (composeLabelPrefix ++s k)) kvs
  end.
Proof.
  revert labels. induction kvs as [|[k0 v0] kvs IH]; intros labels Hn Hc.
  { simpl. destruct (labels !! k); [done|]. by destruct (k == ""). }
  simpl in Hn. apply NoDup_cons in Hn as [Hk0 Hn]. simpl.
  rewrite IH; [|done|intros kv Hkv; apply Hc; by right].
  unfold compose_alias at 1. cbn [fst snd].
  destruct (HasPrefix k0 composeLabelPrefix) eqn:Ep.
  - apply HasPrefix_spec in Ep as [t ->]. change (String.length composeLabelPrefix) with 11.
    assert (str_drop 11 (composeLabelPrefix ++s t) = t) as -> by done.
    destruct (String.eqb_spec t "") as [->|Ht].
    + destruct (labels !! k); [done|]. destruct (String.eqb_spec k "") as [|Hk]; [done|].
      destruct (String.eqb_spec (composeLabelPrefix ++s "") (composeLabelPrefix ++s k)) as [E|]; [|done].
      apply app_inj_prefix in E. by subst.
    + destruct (decide (t = k)) as [->|Htk].
      * rewrite String.eqb_refl. destruct (labels !! k) as [v|] eqn:El; [by rewrite El|].
        rewrite lookup_insert_eq. by destruct (String.eqb_spec k "").
      * assert (match labels !! t with Some _ => labels | None => <[t := v0]> labels end !! k = labels !! k) as ->
          by (destruct (labels !! t); [done|by rewrite lookup_insert_ne]).
        destruct (labels !! k); [done|]. destruct (k == ""); [done|].
        destruct (String.eqb_spec (composeLabelPrefix ++s t) (composeLabelPrefix ++s k)) as [E|]; [|done].
        by apply app_inj_prefix in E.
  - destruct (labels !! k); [done|]. destruct (k == ""); [done|].
    destruct (String.eqb_spec k0 (composeLabelPrefix ++s k)) as [->|]; [|done].
    by rewrite HasPrefix_app in Ep.
Qed.

(** The labels of an instance do not depend on the order in which its
    configuration is visited: a key of the configuration has its value, and any
    other name that of the label incus-compose wrote for it. *)
Theorem instance_labels_spec `{MapOrder} config k :
  instance_labels config !! k =
  match config !! k with
  | Some v => Some v
  | None => if k == "" then None else config !! (composeLabelPrefix ++s k)
  end.
Proof.
  unfold instance_labels.
  assert (fold_left (λ labels kv, <[kv.1:=kv.2]> labels) (range config) ∅ = config) as ->.
  { rewrite <- (list_to_map_range config) at 2. generalize (NoDup_range_keys config).
    assert (∀ l (m : gmap string string), NoDup (map fst l) →
      fold_left (λ labels kv, <[kv.1:=kv.2]> labels) l m = list_to_map l ∪ m) as Hf.
    { induction l as [|[k1 v1] l IH]; intros m Hn; simpl; [by rewrite map_empty_union|].
      simpl in Hn. apply NoDup_cons in Hn as [Hk Hn]. rewrite IH by done.
      rewrite <- insert_union_l, <- insert_union_r; [done|].
      apply not_elem_of_list_to_map_1. by rewrite fmap_map_eq || done. }
    intros Hn. rewrite (Hf _ _ Hn). by rewrite map_union_empty. }
  rewrite (compose_fold config);
    [|apply NoDup_range_keys|intros [k1 v1] Hkv; by apply elem_of_range in Hkv].
  destruct (config !! k) as [v|] eqn:Ek; [done|]. destruct (k == ""); [done|].
  destruct (config !! (composeLabelPrefix ++s k)) as [v|] eqn:Ev.
  - apply elem_of_range, list_elem_of_In in Ev.
    destruct (List.find _ _) as [[k1 v1]|] eqn:Ef.
    + apply List.find_some in Ef as [Hin E%String.eqb_eq]. simpl in *. subst.
      apply list_elem_of_In, elem_of_range in Hin, Ev. by rewrite Hin in Ev.
    + pose proof (List.find_none _ _ Ef _ Ev) as E. simpl in E. by rewrite String.eqb_refl in E.
  - destruct (List.find _ _) as [[k1 v1]|] eqn:Ef; [|done].
    apply List.find_some in Ef as [Hin E%String.eqb_eq]. simpl in *. subst.
    apply list_elem_of_In, elem_of_range in Hin. by rewrite Ev in Hin.
Qed.

Lemma ResolveIP_publishable `{MapOrder} inst : publishable (ResolveIP inst).
Proof.
  unfold publishable, ResolveIP. destruct (in_State inst) as [network|]; [|done].
  destruct (head _) as [ip|] eqn:E; simpl; [intros _|done].
  apply head_omap in E as (name & _ & E). destruct (isLoopback name); [done|].
  apply fmap_Some in E as (a & Ha & ->). apply List.find_some in Ha as [_ Ha].
  unfold usable in Ha. by apply andb_true_iff in Ha as [_ Ha%negb_true_iff].
Qed.
End IncusList.

(** The address of an instance does not depend on the order in which its
    interfaces are visited. *)
Lemma ResolveIP_order (o1 o2 : MapOrder) inst :
  @Guests.Incus.ResolveIP o1 inst = @Guests.Incus.ResolveIP o2 inst.
Proof.
  unfold Guests.Incus.ResolveIP. destruct (Guests.Incus.in_State inst) as [network|]; [|done].
  do 2 f_equal. f_equal. apply sort_unique. unfold range_keys.
  by rewrite (@range_perm o1), (@range_perm o2).
Qed.
