(* ===== verification/Watcher.v ===== *)
(** * Event watchers (internal/watcher/watcher.go, internal/incus/watcher.go)

    A watcher listens to a stream of events of its platform and asks for a
    reconciliation once events have stopped coming for a while.  The two
    watchers, and the event handling of internal/kubernetes/watcher.go, are the
    same program.  It runs next to its goroutines, so it is a step relation: a
    step is one locked section, the delivery of an event, the end of a loop, or
    the passing of time, which may fire the timer.  Reconnecting changes
    nothing here; logging and metrics are left out. *)
From S2P Require Import Prelude GoTime.
From Stdlib Require Import ZArith.

(** [DefaultConfig] *)
Definition DebounceInterval : Z := 2 * time_Second.
Definition ReconnectInterval : Z := 5 * time_Second.

(** The watcher, and what runs beside it.  A context is a number; [loops] are
    the goroutines that listen, each with its context.  The timer is there
    while it may still fire: a timer that has fired can be stopped, without
    effect. *)
Record Watcher := mkWatcher {
  wt_cancel : nilable nat;
  wt_running : bool;
  wt_debounce : option Z;
  wt_now : Z;
  wt_loops : list nat;
  wt_cancelled : list nat;
  wt_contexts : nat;
  (** when [onReconcile] was called *)
  wt_reconciles : list Z
}.

(** The events a watcher of Docker subscribes to. *)
Definition buildEventFilters (isSwarm : bool) : list (string * string) :=
  if isSwarm then
    [("type", "service"); ("event", "create"); ("event", "update"); ("event", "remove")]
  else
    [("type", "container"); ("event", "start"); ("event", "stop"); ("event", "die");
     ("event", "destroy")].

Definition NewWatcher (t : Z) : Watcher := mkWatcher None false None t [] [] 0 [].

Definition Start (w : Watcher) : Watcher :=
  if wt_running w then w
  else
    mkWatcher (Some (wt_contexts w)) true (wt_debounce w) (wt_now w)
      (wt_loops w ++ [wt_contexts w]) (wt_cancelled w) (S (wt_contexts w)) (wt_reconciles w).

Definition Stop (w : Watcher) : Watcher :=
  mkWatcher None false None (wt_now w) (wt_loops w)
    (match wt_cancel w with Some ctx => ctx :: wt_cancelled w | None => wt_cancelled w end)
    (wt_contexts w) (wt_reconciles w).

(** The timer of the last event is stopped and a new one started. *)
Definition handleEvent (interval : Z) (w : Watcher) : Watcher :=
  mkWatcher (wt_cancel w) (wt_running w) (Some (wt_now w + interval)%Z) (wt_now w) (wt_loops w)
    (wt_cancelled w) (wt_contexts w) (wt_reconciles w).

Definition TriggerNow (w : Watcher) : Watcher :=
  mkWatcher (wt_cancel w) (wt_running w) None (wt_now w) (wt_loops w) (wt_cancelled w)
    (wt_contexts w) (wt_reconciles w ++ [wt_now w]).

(** The end of [watchLoop], with its deferred function. *)
Definition loop_exit (ctx : nat) (w : Watcher) : Watcher :=
  mkWatcher (wt_cancel w) false (wt_debounce w) (wt_now w)
    (List.filter (λ l, negb (l =? ctx)%nat) (wt_loops w)) (wt_cancelled w) (wt_contexts w)
    (wt_reconciles w).

(** Time passes to [t]; a timer that is due by then fires when it is due. *)
Definition pass (t : Z) (w : Watcher) : Watcher :=
  match wt_debounce w with
  | Some d =>
      if (d <=? t)%Z then
        mkWatcher (wt_cancel w) (wt_running w) None t (wt_loops w) (wt_cancelled w) (wt_contexts w)
          (wt_reconciles w ++ [d])
      else mkWatcher (wt_cancel w) (wt_running w) (Some d) t (wt_loops w) (wt_cancelled w)
             (wt_contexts w) (wt_reconciles w)
  | None => mkWatcher (wt_cancel w) (wt_running w) None t (wt_loops w) (wt_cancelled w)
              (wt_contexts w) (wt_reconciles w)
  end.

Inductive event :=
| EStart
| EStop
| ETriggerNow
| EDeliver (ctx : nat)
| EExit (ctx : nat)
| EPass (t : Z).

(** A loop whose context has ended may still take an event that is waiting:
    [select] chooses. *)
Inductive step (interval : Z) : event → Watcher → Watcher → Prop :=
| step_start w : step interval EStart w (Start w)
| step_stop w : step interval EStop w (Stop w)
| step_now w : step interval ETriggerNow w (TriggerNow w)
| step_deliver ctx w : ctx ∈ wt_loops w → step interval (EDeliver ctx) w (handleEvent interval w)
| step_exit ctx w :
    ctx ∈ wt_loops w → ctx ∈ wt_cancelled w → step interval (EExit ctx) w (loop_exit ctx w)
| step_pass t w : (wt_now w ≤ t)%Z → step interval (EPass t) w (pass t w).

Inductive steps (interval : Z) : list event → Watcher → Watcher → Prop :=
| steps_nil w : steps interval [] w w
| steps_cons e es w1 w2 w3 :
    step interval e w1 w2 → steps interval es w2 w3 → steps interval (e :: es) w1 w3.

(** The run as a function, for sequences of steps that are possible. *)
Definition apply (interval : Z) (w : Watcher) (e : event) : Watcher :=
  match e with
  | EStart => Start w
  | EStop => Stop w
  | ETriggerNow => TriggerNow w
  | EDeliver _ => handleEvent interval w
  | EExit ctx => loop_exit ctx w
  | EPass t => pass t w
  end.

Definition possible (w : Watcher) (e : event) : bool :=
  match e with
  | EDeliver ctx => existsb (Nat.eqb ctx) (wt_loops w)
  | EExit ctx => existsb (Nat.eqb ctx) (wt_loops w) && existsb (Nat.eqb ctx) (wt_cancelled w)
  | EPass t => (wt_now w <=? t)%Z
  | _ => true
  end.

Fixpoint run (interval : Z) (w : Watcher) (es : list event) : option Watcher :=
  match es with
  | [] => Some w
  | e :: es => if possible w e then run interval (apply interval w e) es else None
  end.

(** ** Properties *)

Lemma existsb_nat n l : existsb (Nat.eqb n) l = true ↔ n ∈ l.
Proof.
  rewrite existsb_exists. setoid_rewrite Nat.eqb_eq. setoid_rewrite <- list_elem_of_In. naive_solver.
Qed.

Lemma step_iff interval e w w' :
  step interval e w w' ↔ possible w e = true ∧ w' = apply interval w e.
Proof.
  split.
  - intros []; simpl; (split; [|done]); rewrite ?andb_true_iff, ?existsb_nat, ?Z.leb_le; done.
  - intros [Hp ->]. destruct e; simpl in *;
      rewrite ?andb_true_iff, ?existsb_nat, ?Z.leb_le in Hp; constructor; tauto.
Qed.

Lemma steps_iff interval es w w' : steps interval es w w' ↔ run interval w es = Some w'.
Proof.
  revert w. induction es as [|e es IH]; intros w; simpl.
  - split; [by inversion 1|]. intros [= ->]. constructor.
  - split.
    + inversion 1 as [|? ? ? w2 ? Hs Hr]; subst. apply step_iff in Hs as [-> ->]. by apply IH.
    + destruct (possible w e) eqn:E; [|done]. intros Hr%IH. econstructor; [by apply step_iff|done].
Qed.

(** A burst: events that arrive at the given times, and then quiet until the
    timer is due. *)
Definition deliveries (ctx : nat) (ts : list Z) : list event :=
  flat_map (λ t, [EPass t; EDeliver ctx]) ts.

(** Each time is at most the interval after the one before (and before the
    timer fires). *)
Fixpoint close_times (interval from : Z) (ts : list Z) : Prop :=
  match ts with
  | [] => True
  | t :: ts => (from ≤ t < from + interval)%Z ∧ close_times interval t ts
  end.

Lemma armed_run interval ctx ts w :
  ctx ∈ wt_loops w → wt_debounce w = Some (wt_now w + interval)%Z →
  close_times interval (wt_now w) ts →
  ∃ w', run interval w (deliveries ctx ts) = Some w' ∧
    wt_reconciles w' = wt_reconciles w ∧ ctx ∈ wt_loops w' ∧
    wt_now w' = List.last ts (wt_now w) ∧ wt_debounce w' = Some (wt_now w' + interval)%Z.
Proof.
  revert w. induction ts as [|t ts IH]; intros w Hl Ha Hc; [by exists w|].
  destruct Hc as [Ht Hc]. cbn [deliveries flat_map app run].
  unfold possible at 1. rewrite (proj2 (Z.leb_le _ _) (proj1 Ht)). cbn [apply].
  assert (wt_loops (pass t w) = wt_loops w ∧ wt_now (pass t w) = t
          ∧ wt_reconciles (pass t w) = wt_reconciles w) as (Hl' & Hn' & Hr').
  { unfold pass. rewrite Ha. by destruct (Z.leb_spec (wt_now w + interval) t); [lia|]. }
  assert (possible (pass t w) (EDeliver ctx) = true) as -> by (simpl; by rewrite existsb_nat, Hl').
  destruct (IH (handleEvent interval (pass t w))) as (w' & Hrun & Hr & Hl2 & Hn & Hd);
    simpl; rewrite ?Hl', ?Hn'; [done..|].
  exists w'. split_and!; [done|by rewrite Hr|done| |done].
  pose proof (last_cons t (wt_now w) ts) as Hlast. simpl in Hlast, Hn. by rewrite Hlast, Hn, Hn'.
Qed.

(** The first event of a burst arms the timer, and the others put it off. *)
Lemma burst_arms interval ctx t ts w :
  (0 < interval)%Z → ctx ∈ wt_loops w → wt_debounce w = None → (wt_now w ≤ t)%Z →
  close_times interval t ts →
  ∃ w1, run interval w (deliveries ctx (t :: ts)) = Some w1 ∧ wt_reconciles w1 = wt_reconciles w ∧
        wt_now w1 = List.last ts t ∧ wt_debounce w1 = Some (wt_now w1 + interval)%Z.
Proof.
  intros Hi Hl Hd Ht Hc. cbn [deliveries flat_map app run].
  unfold possible at 1. rewrite (proj2 (Z.leb_le _ _) Ht). cbn [apply].
  assert (pass t w = mkWatcher (wt_cancel w) (wt_running w) None t (wt_loops w) (wt_cancelled w)
            (wt_contexts w) (wt_reconciles w)) as -> by (unfold pass; by rewrite Hd).
  assert (existsb (Nat.eqb ctx) (wt_loops w) = true) as Hp by (by apply existsb_nat).
  cbn [possible wt_loops]. rewrite Hp.
  edestruct (armed_run interval ctx ts (handleEvent interval (mkWatcher (wt_cancel w) (wt_running w)
    None t (wt_loops w) (wt_cancelled w) (wt_contexts w) (wt_reconciles w))))
    as (w1 & Hrun & Hr & _ & Hn & Hd1); simpl; [done..|].
  by exists w1.
Qed.

(** A burst of events leads to one reconciliation.  Events that follow each
    other within the interval, and then quiet: the callback is called once,
    the interval after the last of them, and not before. *)
Theorem burst_reconciles_once interval ctx t ts w :
  (0 < interval)%Z → ctx ∈ wt_loops w → wt_debounce w = None → (wt_now w ≤ t)%Z →
  close_times interval t ts →
  ∃ w1 w2,
    run interval w (deliveries ctx (t :: ts)) = Some w1 ∧ wt_reconciles w1 = wt_reconciles w ∧
    run interval w1 [EPass (List.last ts t + interval)%Z] = Some w2 ∧
    wt_reconciles w2 = wt_reconciles w ++ [List.last ts t + interval]%Z ∧ wt_debounce w2 = None.
Proof.
  intros Hi Hl Hd Ht Hc.
  destruct (burst_arms interval ctx t ts w) as (w1 & Hrun & Hr & Hn & Hd1); [done..|].
  eexists w1, _. split_and!; [exact Hrun|done| | |].
  - cbn [run possible]. rewrite Hn. rewrite (proj2 (Z.leb_le _ _)) by lia. done.
  - cbn [apply]. unfold pass. rewrite Hd1, Hn. rewrite (proj2 (Z.leb_le _ _)) by lia.
    simpl. by rewrite Hr.
  - cbn [apply]. unfold pass. rewrite Hd1, Hn. by rewrite (proj2 (Z.leb_le _ _)) by lia.
Qed.

(** *** No event is lost, no reconciliation comes from nowhere *)

(** A run with the times of its deliveries: what is served of the last one. *)
Definition served (interval : Z) (last_event : option Z) (w : Watcher) : Prop :=
  match last_event with
  | None => wt_debounce w = None
  | Some t => wt_debounce w = Some (t + interval)%Z ∨
              wt_debounce w = None ∧ ∃ r, r ∈ wt_reconciles w ∧ (t ≤ r)%Z
  end.

(** The last delivery that no [Stop] followed. *)
Definition track (w : Watcher) (e : event) (last_event : option Z) : option Z :=
  match e with
  | EDeliver _ => Some (wt_now w)
  | EStop => None
  | _ => last_event
  end.

Fixpoint tracked (interval : Z) (w : Watcher) (es : list event) (last_event : option Z) : option Z :=
  match es with
  | [] => last_event
  | e :: es => tracked interval (apply interval w e) es (track w e last_event)
  end.

Lemma served_step interval e w last_event :
  (0 < interval)%Z → possible w e = true → served interval last_event w →
  (∀ t, last_event = Some t → (t ≤ wt_now w)%Z) →
  served interval (track w e last_event) (apply interval w e) ∧
  ∀ t, track w e last_event = Some t → (t ≤ wt_now (apply interval w e))%Z.
Proof.
  intros Hi Hp Hs Ht. destruct e; simpl in *.
  - unfold Start. destruct (wt_running w); [done|]. by destruct last_event.
  - done.
  - split; [|done]. destruct last_event as [t|]; simpl in *; [|done].
    right. split; [done|]. exists (wt_now w). rewrite elem_of_app, list_elem_of_singleton. auto.
  - split; [by left|]. intros t [= <-]. done.
  - split; [|done]. by destruct last_event.
  - apply Z.leb_le in Hp. unfold pass. destruct last_event as [t0|]; simpl in Hs.
    + specialize (Ht t0 eq_refl). destruct Hs as [E|[E (r & Hr & Hle)]]; rewrite E.
      * destruct (Z.leb_spec (t0 + interval) t); simpl; (split; [|intros t1 [= <-]; lia]).
        -- right. split; [done|]. exists (t0 + interval)%Z. rewrite elem_of_app, list_elem_of_singleton.
           split; [by right|lia].
        -- by left.
      * simpl. split; [|intros t1 [= <-]; lia]. right. split; [done|]. by exists r.
    + rewrite Hs. simpl. by split.
Qed.

(** C18. Whatever happens around it, an event that no [Stop] follows is served: as
    long as the timer is armed it is armed for the last event, and once it is
    not there has been a reconciliation after that event. *)
Theorem event_served interval t0 es w :
  (0 < interval)%Z → run interval (NewWatcher t0) es = Some w →
  served interval (tracked interval (NewWatcher t0) es None) w.
Proof.
  intros Hi. assert (∀ es w0 le, served interval le w0 → (∀ t, le = Some t → (t ≤ wt_now w0)%Z) →
    run interval w0 es = Some w → served interval (tracked interval w0 es le) w) as Hgen.
  { clear es. induction es as [|e es IH]; intros w0 le Hs Hle; simpl; [by intros [= <-]|].
    destruct (possible w0 e) eqn:Hp; [|done].
    destruct (served_step interval e w0 le Hi Hp Hs Hle). by apply IH. }
  by apply Hgen.
Qed.

(** Events that keep coming put the reconciliation off for as long as they do:
    there is no upper limit to the debouncing. *)
Lemma storm_starves interval ctx t ts w :
  (0 < interval)%Z → ctx ∈ wt_loops w → wt_debounce w = None → (wt_now w ≤ t)%Z →
  close_times interval t ts →
  ∃ w', run interval w (deliveries ctx (t :: ts)) = Some w' ∧ wt_reconciles w' = wt_reconciles w.
Proof.
  intros. destruct (burst_arms interval ctx t ts w) as (w1 & ? & ? & _); [done..|].
  by exists w1.
Qed.

(** A restart that overtakes the end of the first loop: the loop of the second
    [Start] is forgotten when a third one comes, and it goes on after [Stop]. *)
Example restart_leaks_loop :
  match run 2 (NewWatcher 0)
          [EStart; EStop; EStart; EExit 0; EStart; EStop; EDeliver 1; EPass 10]%nat with
  | Some w => wt_running w = false ∧ wt_reconciles w = [2]%Z ∧ 1%nat ∈ wt_loops w
              ∧ 1%nat ∉ wt_cancelled w
  | None => False
  end.
Proof. vm_compute. split_and!; [done..| |]; set_solver. Qed.
