(* ===== verification/Kubernetes.v ===== *)
(** * The Kubernetes lister (internal/kubernetes)

    The resources of a cluster become workloads with the hostnames they
    declare; the watcher finds out which resource types exist, registers for
    their events, and lists them from the informers' caches.  The cluster and
    client-go are the class [KubeAPI]; the content of an unstructured object is
    a JSON value, and the accessors of its metadata are fields.  A nil map is
    the empty one, so that a copy of a map is the map.  The debouncing of
    events is that of Watcher.v; logging is left out. *)
From S2P Require Import Prelude GoStrings GoTime Errors GoMaps Workload IO Json SourceTraefik.
From Stdlib Require Import ZArith.

(** ** Objects *)

Record ObjectMeta := mkObjectMeta {
  om_UID : string;
  om_Namespace : string;
  om_Name : string;
  om_ResourceVersion : string;
  om_Labels : gmap string string;
  om_Annotations : gmap string string
}.

(** An Ingress: the hosts of its rules, and of its TLS sections. *)
Record Ingress := mkIngress {
  ing_Meta : ObjectMeta;
  ing_Rules : list string;
  ing_TLS : list (list string)
}.

Record Service := mkService {
  svc_Meta : ObjectMeta;
  svc_Type : string;
  svc_ClusterIP : string
}.

Record Unstructured := mkUnstructured { u_Meta : ObjectMeta; u_Object : json }.

(** [unstructured.NestedMap] and [NestedStringSlice]: what is found at a path,
    when it is of that kind. *)
Class UnstructuredAPI := {
  NestedMap : json → list string → nilable (gmap string json);
  NestedStringSlice : json → list string → option (list string)
}.

(** The type assertion to a map. *)
Definition as_map (j : json) : option (gmap string json) :=
  match j with
  | JObj l => Some (fold_left (λ m kv, <[kv.1 := kv.2]> m) l ∅)
  | _ => None
  end.

(** ** From objects to workloads (resources) *)

Definition AnnotationExternalDNSHostname : string := "external-dns.alpha.kubernetes.io/hostname".
Definition AnnotationDNSWeaverHostname : string := "dnsweaver.dev/hostname".
Definition AnnotationDNSWeaverHostnames : string := "dnsweaver.dev/hostnames".
Definition metaKeyResourceVersion : string := "resourceVersion".

Definition splitCSV (s : string) : list string :=
  List.filter (λ p, p != "") (map TrimSpace (Split "," s)).

(** The workload that all four kinds give. *)
Definition kube_workload (m : ObjectMeta) (kind : Kind) (hostnames : list string)
    (meta : gmap string string) : Workload :=
  mkWorkload (om_UID m) (om_Namespace m ++s "/" ++s om_Name m) (om_Namespace m) (om_Labels m)
    (om_Annotations m) PlatformKubernetes kind hostnames
    (<[metaKeyResourceVersion := om_ResourceVersion m]> meta).

(** The hosts of the rules all stay; those of the TLS sections join them
    once. *)
Definition ConvertIngress (ing : Ingress) : Workload :=
  let hostnames := List.filter (λ h, h != "") (ing_Rules ing) in
  let seen : gset string := list_to_set hostnames in
  kube_workload (ing_Meta ing) "ingress"
    (fold_left (emit id) (concat (ing_TLS ing)) (seen, hostnames)).2 ∅.

Definition ConvertService (svc : Service) : Workload :=
  let annotation key := default "" (om_Annotations (svc_Meta svc) !! key) in
  let external := annotation AnnotationExternalDNSHostname in
  let native := annotation AnnotationDNSWeaverHostname in
  let natives := annotation AnnotationDNSWeaverHostnames in
  let hostnames :=
    emit_all id ((if external != "" then splitCSV external else [])
                 ++ (if native != "" then [native] else [])
                 ++ (if natives != "" then splitCSV natives else [])) in
  let meta : gmap string string := {["type" := svc_Type svc]} in
  kube_workload (svc_Meta svc) "k8s-service" hostnames
    (if svc_ClusterIP svc != "" then <["clusterIP" := svc_ClusterIP svc]> meta else meta).

(** [hostMatcherRegex] is the expression of sources/traefik. *)
Definition extractHostsFromMatch (match_ : string) : list string :=
  List.filter (λ h, h != "") (map TrimSpace (find_hosts 0 match_)).

Definition route_hosts (r : json) : list string :=
  match as_map r with
  | None => []
  | Some route =>
      match route !! "match" with
      | Some (JStr m) => if m == "" then [] else extractHostsFromMatch m
      | _ => []
      end
  end.

Section Convert.
Context `{UnstructuredAPI}.

Definition ConvertIngressRoute (obj : Unstructured) : Workload :=
  let routes :=
    match NestedMap (u_Object obj) ["spec"] with
    | Some spec => match spec !! "routes" with Some (JArr routes) => routes | _ => [] end
    | None => []
    end in
  kube_workload (u_Meta obj) "ingressroute" (emit_all id (flat_map route_hosts routes)) ∅.

Definition ConvertHTTPRoute (obj : Unstructured) : Workload :=
  let hostnames :=
    match NestedStringSlice (u_Object obj) ["spec"; "hostnames"] with
    | Some l => emit_all id (List.filter (λ h, h != "") l)
    | None => []
    end in
  kube_workload (u_Meta obj) "httproute" hostnames ∅.
End Convert.

(** ** The configuration (config.go) *)

Definition DefaultDebounceInterval : Z := 2 * time_Second.

Record Config := mkConfig {
  Kubeconfig : string;
  Namespaces : list string;
  WatchIngress : bool;
  WatchIngressRoute : bool;
  WatchHTTPRoute : bool;
  WatchServices : bool;
  LabelSelector : string;
  AnnotationFilter : string;
  DebounceInterval : Z
}.

Definition DefaultConfig : Config :=
  mkConfig "" [] true true true false "" "" DefaultDebounceInterval.
Definition HasNamespaceFilter (c : Config) : bool := (0 <? length (Namespaces c))%nat.
Definition WatchesAnything (c : Config) : bool :=
  WatchIngress c || WatchIngressRoute c || WatchHTTPRoute c || WatchServices c.

(** ** Filters (watcher.go) *)

Fixpoint index_from (i : Z) (s : string) (c : ascii) : Z :=
  match s with
  | "" => -1
  | String d s => if Ascii.eqb d c then i else index_from (i + 1) s c
  end.
Definition indexByte (s : string) (c : ascii) : Z := index_from 0 s c.

Definition splitAnnotationFilter (filter : string) : nilable (string * string) :=
  let idx := indexByte filter "=" in
  if (idx <? 1)%Z then None
  else Some (str_take (Z.to_nat idx) filter, str_drop (Z.to_nat idx + 1) filter).

Definition matchAnnotationFilter (filter : string) (annotations : gmap string string) : bool :=
  match splitAnnotationFilter filter with
  | None => false
  | Some (key, value) =>
      match annotations !! key with Some actual => actual == value | None => false end
  end.

Definition matchesFilters (c : Config) (m : ObjectMeta) : bool :=
  if HasNamespaceFilter c && negb (existsb (λ ns, ns == om_Namespace m) (Namespaces c)) then false
  else if AnnotationFilter c != "" then matchAnnotationFilter (AnnotationFilter c) (om_Annotations m)
  else true.

(** ** The watcher (client.go, watcher.go) *)

Definition IngressRouteGVR : string := "traefik.io".
Definition HTTPRouteGVR : string := "gateway.networking.k8s.io".

(** The cluster: the names of its API groups, the informers and their caches.
    A cache is only read; waiting for the caches ends when they are filled. *)
Class KubeAPI (W : Type) := {
  kube_ServerGroups : IO W (list string);
  kube_AddEventHandler : string → IO W unit;
  kube_Sync : W → W;
  kube_Selector : Type;
  kube_Everything : kube_Selector;
  kube_Parse : string → kube_Selector + error;
  kube_Ingresses : kube_Selector → W → list Ingress + error;
  kube_Services : kube_Selector → W → list Service + error;
  (** by API group; an item that is no unstructured object is [None] *)
  kube_Dynamic : string → kube_Selector → W → list (option Unstructured) + error
}.

(** The flags say whether an informer or a factory is there. *)
Record Watcher := mkWatcher {
  kw_config : Config;
  kw_typedFactory : bool;
  kw_dynamicFactory : bool;
  kw_ingressInformer : bool;
  kw_serviceInformer : bool;
  kw_hasIngressRoute : bool;
  kw_hasHTTPRoute : bool;
  kw_running : bool
}.

Definition NewKubeWatcher (c : Config) : Watcher :=
  mkWatcher c false false false false false false false.

Section Watching.
Context {W : Type} `{KubeAPI W} `{UnstructuredAPI}.
Implicit Types (k : Watcher).

Definition HasAPIGroup (group : string) : W → bool * W := λ w,
  match kube_ServerGroups w with
  | (inr _, w) => (false, w)
  | (inl groups, w) => (existsb (λ g, g == group) groups, w)
  end.

Definition detectCRDs k : W → Watcher * W := λ w,
  let c := kw_config k in
  let '(ir, w) := if WatchIngressRoute c then HasAPIGroup IngressRouteGVR w
                  else (kw_hasIngressRoute k, w) in
  let '(hr, w) := if WatchHTTPRoute c then HasAPIGroup HTTPRouteGVR w
                  else (kw_hasHTTPRoute k, w) in
  (mkWatcher c (kw_typedFactory k) (kw_dynamicFactory k) (kw_ingressInformer k) (kw_serviceInformer k)
     ir hr (kw_running k), w).

Definition createFactories k : Watcher :=
  mkWatcher (kw_config k) true
    (if kw_hasIngressRoute k || kw_hasHTTPRoute k then true else kw_dynamicFactory k)
    (kw_ingressInformer k) (kw_serviceInformer k) (kw_hasIngressRoute k) (kw_hasHTTPRoute k)
    (kw_running k).

(** One handler: registered, or the error that ends the setup. *)
Definition add_handler (enabled : bool) (name : string) : IO W unit :=
  if enabled
  then io_wrap (EWrapf ("adding " ++s name ++s " event handler: ")) (kube_AddEventHandler name)
  else mret tt.

Definition set_informers (ingress service : bool) k : Watcher :=
  mkWatcher (kw_config k) (kw_typedFactory k) (kw_dynamicFactory k) (kw_ingressInformer k || ingress)
    (kw_serviceInformer k || service) (kw_hasIngressRoute k) (kw_hasHTTPRoute k) (kw_running k).

Definition setupInformers k : W → (option error * Watcher) * W := λ w,
  let c := kw_config k in
  let k := set_informers (WatchIngress c) false k in
  match add_handler (WatchIngress c) "ingress" w with
  | (inr e, w) => ((Some e, k), w)
  | (inl _, w) =>
      let k := set_informers false (WatchServices c) k in
      match (add_handler (WatchServices c) "service" ≫= λ _,
             add_handler (kw_hasIngressRoute k) "ingressroute" ≫= λ _,
             add_handler (kw_hasHTTPRoute k) "httproute") w with
      | (inr e, w) => ((Some e, k), w)
      | (inl _, w) => ((None, k), w)
      end
  end.

Definition set_running (running : bool) k : Watcher :=
  mkWatcher (kw_config k) (kw_typedFactory k) (kw_dynamicFactory k) (kw_ingressInformer k)
    (kw_serviceInformer k) (kw_hasIngressRoute k) (kw_hasHTTPRoute k) running.

Definition Start k : W → (option error * Watcher) * W := λ w,
  if kw_running k then ((None, k), w)
  else
    let k := set_running true k in
    if negb (WatchesAnything (kw_config k)) then ((None, k), w)
    else
      let '(k, w) := detectCRDs k w in
      let k := createFactories k in
      match setupInformers k w with
      | ((Some e, k), w) => ((Some (EWrapf "setting up kubernetes informers: " e), k), w)
      | ((None, k), w) => ((None, k), kube_Sync w)
      end.

Definition Stop k : Watcher := set_running false k.

(** One kind of resources: listed when its informer is there, those that pass
    the filters converted. *)
Definition list_kind {A} (enabled : bool) (name : string) (l : list A + error)
    (convert : A → option (ObjectMeta * Workload)) (c : Config) : list Workload + error :=
  if enabled then
    match l with
    | inr e => inr (EWrapf ("listing " ++s name ++s ": ") e)
    | inl l => inl (omap (λ a, match convert a with
                               | Some (m, wl) => if matchesFilters c m then Some wl else None
                               | None => None
                               end) l)
    end
  else inl [].

Definition then_list (r : list Workload + error) (rest : list Workload + error)
  : list Workload + error :=
  match r with
  | inr e => inr e
  | inl l => match rest with inr e => inr e | inl l' => inl (l ++ l') end
  end.

Definition dynamic (convert : Unstructured → Workload) (item : option Unstructured)
  : option (ObjectMeta * Workload) := (λ obj, (u_Meta obj, convert obj)) <$> item.

Definition ListWorkloads k (w : W) : list Workload + error :=
  let c := kw_config k in
  let selector := if LabelSelector c != "" then kube_Parse (LabelSelector c)
                  else inl kube_Everything in
  match selector with
  | inr e => inr (EWrapf ("parsing label selector " ++s Quote (LabelSelector c) ++s ": ") e)
  | inl selector =>
      then_list
        (list_kind (kw_ingressInformer k) "ingresses" (kube_Ingresses selector w)
           (λ ing, Some (ing_Meta ing, ConvertIngress ing)) c)
     (then_list
        (list_kind (kw_serviceInformer k) "services" (kube_Services selector w)
           (λ svc, Some (svc_Meta svc, ConvertService svc)) c)
     (then_list
        (list_kind (kw_hasIngressRoute k && kw_dynamicFactory k) "ingressroutes"
           (kube_Dynamic IngressRouteGVR selector w) (dynamic ConvertIngressRoute) c)
        (list_kind (kw_hasHTTPRoute k && kw_dynamicFactory k) "httproutes"
           (kube_Dynamic HTTPRouteGVR selector w) (dynamic ConvertHTTPRoute) c)))
  end.

Definition lister k : Lister W := mkLister PlatformKubernetes (λ w, (ListWorkloads k w, w)).
End Watching.
