(* ===== verification/KubeProps.v ===== *)
(** * What the Kubernetes lister promises

    Which resources are listed, with which hostnames, and what the Kubernetes
    source makes of them. *)
From S2P Require Import Prelude GoStrings GoTime Errors GoMaps Workload Hostname ProviderTypes IO Json.
From S2P Require Import SourceRegistry SourceTraefik SourcePlatforms Kubernetes.
From Stdlib Require Import ZArith.

(** ** The filters *)

Lemma index_from_Cut i s c :
  (0 ≤ i)%Z →
  match Cut c s with
  | Some (a, b) => index_from i s c = (i + Z.of_nat (String.length a))%Z
  | None => index_from i s c = (-1)%Z
  end.
Proof.
  revert i. induction s as [|d s IH]; intros i Hi; simpl; [done|].
  destruct (Ascii.eqb d c); [simpl; lia|]. specialize (IH (i + 1)%Z ltac:(lia)).
  destruct (Cut c s) as [[a b]|]; simpl; rewrite IH; [lia|done].
Qed.

Lemma str_drop_sep k c v : str_drop (String.length k + 1) (k ++s String c v) = v.
Proof. induction k as [|d k IH]; simpl; [done|apply IH]. Qed.

(** A filter is cut at its first equals sign. *)
Lemma splitAnnotationFilter_Cut s :
  splitAnnotationFilter s =
  match Cut "=" s with Some (k, v) => if k == "" then None else Some (k, v) | None => None end.
Proof.
  unfold splitAnnotationFilter, indexByte. pose proof (index_from_Cut 0 s "=" ltac:(lia)) as Hi.
  destruct (Cut "=" s) as [[k v]|] eqn:E; rewrite Hi; [|done].
  apply Cut_spec in E as [-> _]. rewrite Z.add_0_l, Nat2Z.id, str_take_app, str_drop_sep.
  destruct k as [|c k]; [done|].
  destruct (Z.ltb_spec (Z.of_nat (String.length (String c k))) 1) as [Hlt|_]; [simpl in Hlt; lia|done].
Qed.

(** The filters let a resource through exactly when its namespace is one of
    the configured ones, if there are any, and it has the annotation that the
    filter names, if there is one, with that value; the value may contain
    equals signs, the name may not. *)
Theorem matchesFilters_exact c m :
  matchesFilters c m = true ↔
  (Namespaces c = [] ∨ om_Namespace m ∈ Namespaces c) ∧
  (AnnotationFilter c = "" ∨
   ∃ key value, AnnotationFilter c = key ++s String "=" value ∧ key ≠ "" ∧
                str_contains_byte "=" key = false ∧ om_Annotations m !! key = Some value).
Proof.
  unfold matchesFilters, HasNamespaceFilter, matchAnnotationFilter. rewrite splitAnnotationFilter_Cut.
  assert (((0 <? length (Namespaces c))%nat
           && negb (existsb (λ ns, ns == om_Namespace m) (Namespaces c))) = false ↔
          (Namespaces c = [] ∨ om_Namespace m ∈ Namespaces c)) as Hns.
  { rewrite andb_false_iff, negb_false_iff, existsb_elem.
    destruct (Namespaces c) as [|n l]; simpl; [naive_solver|]. split.
    - intros [?|(x & Hx & ->%String.eqb_eq)]; [done|by right].
    - intros [?|Hin]; [done|]. right. eexists. split; [done|apply String.eqb_refl]. }
  destruct (_ && negb _) eqn:En.
  { split; [done|]. intros [H%Hns _]. congruence. }
  rewrite <- Hns. destruct (String.eqb_spec (AnnotationFilter c) "") as [->|Hne]; simpl; [naive_solver|].
  destruct (Cut "=" (AnnotationFilter c)) as [[k v]|] eqn:E.
  - apply Cut_spec in E as [E Hk]. destruct (String.eqb_spec k "") as [->|Hk0].
    + split; [done|]. intros (_ & [?|(k' & v' & E' & Hk' & Hn & _)]); [done|].
      rewrite E in E'. destruct k'; [done|]. simpl in *. by injection E' as <- _.
    + split.
      * destruct (om_Annotations m !! k) as [a|] eqn:Ea; [|done]. intros ->%String.eqb_eq.
        split; [done|]. right. by exists k, v.
      * intros (_ & [?|(k' & v' & E' & Hk' & Hn & Ha)]); [done|].
        rewrite E in E'. assert (Cut "=" (k ++s String "=" v) = Some (k', v')) as Hc
          by (rewrite E'; by apply Cut_app).
        rewrite Cut_app in Hc by done. injection Hc as <- <-. rewrite Ha. apply String.eqb_refl.
  - split; [done|]. intros (_ & [?|(k' & v' & E' & _ & Hn & _)]); [done|].
    rewrite E', Cut_app in E by done. done.
Qed.

(** ** The list *)

Section Listed.
Context {W : Type} `{KubeAPI W} `{UnstructuredAPI}.
Implicit Types (c : Config) (k : Watcher) (w : W).

(** An API group that the cluster reports. *)
Definition found_at (group : string) w : Prop :=
  ∃ groups, (kube_ServerGroups w).1 = inl groups ∧ group ∈ groups.

(** The world of the second question. *)
Definition asked c w : W := if WatchIngressRoute c then (kube_ServerGroups w).2 else w.

(** The resources of a cluster that a configuration selects, and the workloads
    they are: [w0] is the world of the start, [w] that of the listing. *)
Inductive resource c (selector : kube_Selector) w0 w : ObjectMeta → Workload → Prop :=
| res_ingress l ing :
    WatchIngress c = true → kube_Ingresses selector w = inl l → ing ∈ l →
    resource c selector w0 w (ing_Meta ing) (ConvertIngress ing)
| res_service l svc :
    WatchServices c = true → kube_Services selector w = inl l → svc ∈ l →
    resource c selector w0 w (svc_Meta svc) (ConvertService svc)
| res_ingressroute l obj :
    WatchIngressRoute c = true → found_at IngressRouteGVR w0 →
    kube_Dynamic IngressRouteGVR selector w = inl l → Some obj ∈ l →
    resource c selector w0 w (u_Meta obj) (ConvertIngressRoute obj)
| res_httproute l obj :
    WatchHTTPRoute c = true → found_at HTTPRouteGVR (asked c w0) →
    kube_Dynamic HTTPRouteGVR selector w = inl l → Some obj ∈ l →
    resource c selector w0 w (u_Meta obj) (ConvertHTTPRoute obj).

Lemma HasAPIGroup_run group w :
  (HasAPIGroup group w).2 = (kube_ServerGroups w).2 ∧
  ((HasAPIGroup group w).1 = true ↔ found_at group w).
Proof.
  unfold HasAPIGroup, found_at. destruct (kube_ServerGroups w) as [[l|e] w1]; simpl.
  - split; [done|]. rewrite existsb_elem. split.
    + intros (x & Hx & ->%String.eqb_eq). by exists l.
    + intros (? & [= <-] & Hin). exists group. split; [done|apply String.eqb_refl].
  - split; [done|]. split; [done|]. by intros (? & ? & _).
Qed.

(** What is found out about the custom resources. *)
Lemma detectCRDs_spec c w :
  let k := (detectCRDs (set_running true (NewKubeWatcher c)) w).1 in
  ∃ ir hr, k = mkWatcher c false false false false ir hr true ∧
    (ir = true ↔ WatchIngressRoute c = true ∧ found_at IngressRouteGVR w) ∧
    (hr = true ↔ WatchHTTPRoute c = true ∧ found_at HTTPRouteGVR (asked c w)).
Proof.
  unfold detectCRDs, asked. simpl. destruct (HasAPIGroup_run IngressRouteGVR w) as [Hw Hi].
  destruct (WatchIngressRoute c) eqn:E1;
    [destruct (HasAPIGroup IngressRouteGVR w) as [ir w2]; simpl in Hw, Hi; subst w2|];
    (destruct (WatchHTTPRoute c) eqn:E2;
      [match goal with |- context [HasAPIGroup HTTPRouteGVR ?w] =>
         pose proof (HasAPIGroup_run HTTPRouteGVR w) as [_ Hh];
         destruct (HasAPIGroup HTTPRouteGVR w) as [hr w3]; simpl in Hh end|]);
    eexists _, _; (split; [reflexivity|]); naive_solver.
Qed.

Lemma setupInformers_sets k w k' w' :
  setupInformers k w = ((None, k'), w') →
  k' = set_informers (WatchIngress (kw_config k)) (WatchServices (kw_config k)) k.
Proof.
  unfold setupInformers. destruct (add_handler _ "ingress" w) as [[[]|e] w1]; [|done].
  destruct (_ ≫= _) as [[[]|e] w2]; [|done]. intros [= <- _].
  unfold set_informers. simpl. by rewrite !orb_false_r.
Qed.

(** What a start that succeeds has set up. *)
Lemma Start_sets c w k w1 :
  Start (NewKubeWatcher c) w = ((None, k), w1) →
  kw_config k = c ∧ kw_ingressInformer k = WatchIngress c ∧ kw_serviceInformer k = WatchServices c ∧
  (kw_hasIngressRoute k && kw_dynamicFactory k = true ↔
     WatchIngressRoute c = true ∧ found_at IngressRouteGVR w) ∧
  (kw_hasHTTPRoute k && kw_dynamicFactory k = true ↔
     WatchHTTPRoute c = true ∧ found_at HTTPRouteGVR (asked c w)).
Proof.
  unfold Start. cbn [kw_running NewKubeWatcher]. change (kw_config (set_running true (NewKubeWatcher c))) with c.
  destruct (WatchesAnything c) eqn:Ea; simpl negb; cbv iota.
  - destruct (detectCRDs_spec c w) as (ir & hr & E & Hi & Hh).
    destruct (detectCRDs _ w) as [k1 w2]. simpl in E. subst k1.
    destruct (setupInformers _ w2) as [[[e|] k2] w3] eqn:Es; [done|]. intros [= <- _].
    apply setupInformers_sets in Es as ->. simpl. rewrite <- Hi, <- Hh.
    split_and!; [done..| |]; by destruct ir, hr.
  - unfold WatchesAnything in Ea. repeat rewrite orb_false_iff in Ea. destruct Ea as [[[E1 E2] E3] E4].
    intros [= <- _]. simpl. rewrite E1, E2, E3, E4. naive_solver.
Qed.

Lemma list_kind_inl {A} enabled name (l : list A + error) convert c ws :
  list_kind enabled name l convert c = inl ws →
  ∀ wl, wl ∈ ws ↔ enabled = true ∧ ∃ l' a m, l = inl l' ∧ a ∈ l' ∧ convert a = Some (m, wl) ∧
                    matchesFilters c m = true.
Proof.
  unfold list_kind. destruct enabled; [|intros [= <-] wl; rewrite elem_of_nil; naive_solver].
  destruct l as [l|e]; [|done]. intros [= <-] wl. rewrite list_elem_of_omap. split.
  - intros (a & Ha & E). split; [done|]. destruct (convert a) as [[m wl']|] eqn:Ec; [|done].
    destruct (matchesFilters c m) eqn:Em; [|done]. injection E as ->. naive_solver.
  - intros (_ & l' & a & m & [= <-] & Ha & Ec & Em). exists a. by rewrite Ec, Em.
Qed.

Lemma then_list_inl r rest ws :
  then_list r rest = inl ws → ∃ l l', r = inl l ∧ rest = inl l' ∧ ∀ wl, wl ∈ ws ↔ wl ∈ l ∨ wl ∈ l'.
Proof.
  destruct r as [l|]; [|done]. destruct rest as [l'|]; [|done]. simpl. intros [= <-].
  exists l, l'. split_and!; [done..|]. intros wl. apply elem_of_app.
Qed.

Lemma elem_of_dynamic (convert : Unstructured → Workload) (l : list (option Unstructured)) o m wl :
  o ∈ l → dynamic convert o = Some (m, wl) → ∃ obj, Some obj ∈ l ∧ m = u_Meta obj ∧ wl = convert obj.
Proof. intros Ho. destruct o as [obj|]; [|done]. intros [= <- <-]. by exists obj. Qed.

(** C14. The list is that of the cluster.  A watcher that started lists exactly the
    resources of the types that are enabled and, for the custom ones, were
    found at the start, that the selector selects and the filters let
    through. *)
Theorem kubernetes_lister_spec c selector w0 k w1 w ws :
  Start (NewKubeWatcher c) w0 = ((None, k), w1) → ListWorkloads k w = inl ws →
  (if LabelSelector c != "" then kube_Parse (LabelSelector c) else inl kube_Everything) = inl selector →
  ∀ wl, wl ∈ ws ↔ ∃ m, resource c selector w0 w m wl ∧ matchesFilters c m = true.
Proof.
  intros (Hc & Hi & Hs & Hir & Hhr)%Start_sets. unfold ListWorkloads. rewrite Hc, Hi, Hs.
  intros Hl Hsel. rewrite Hsel in Hl.
  apply then_list_inl in Hl as (l1 & r1 & H1 & Hl & Hws).
  apply then_list_inl in Hl as (l2 & r2 & H2 & Hl & Hr1).
  apply then_list_inl in Hl as (l3 & l4 & H3 & H4 & Hr2).
  intros wl. rewrite Hws, Hr1, Hr2, (list_kind_inl _ _ _ _ _ _ H1), (list_kind_inl _ _ _ _ _ _ H2),
    (list_kind_inl _ _ _ _ _ _ H3), (list_kind_inl _ _ _ _ _ _ H4), Hir, Hhr. clear Hws Hr1 Hr2 H1 H2 H3 H4. split.
  - intros [(? & l & ing & m & ? & ? & [= <- <-] & ?)|[(? & l & svc & m & ? & ? & [= <- <-] & ?)
      |[([? ?] & l & o & m & ? & Ho & Hd & ?)|([? ?] & l & o & m & ? & Ho & Hd & ?)]]].
    + eexists. split; [by eapply res_ingress|done].
    + eexists. split; [by eapply res_service|done].
    + destruct (elem_of_dynamic _ _ _ _ _ Ho Hd) as (obj & ? & -> & ->).
      eexists. split; [by eapply res_ingressroute|done].
    + destruct (elem_of_dynamic _ _ _ _ _ Ho Hd) as (obj & ? & -> & ->).
      eexists. split; [by eapply res_httproute|done].
  - intros (m & Hr & Hm). destruct Hr as [l ing|l svc|l obj|l obj].
    + left. split; [done|]. by exists l, ing, (ing_Meta ing).
    + right; left. split; [done|]. by exists l, svc, (svc_Meta svc).
    + right; right; left. split; [done|]. by exists l, (Some obj), (u_Meta obj).
    + right; right; right. split; [done|]. by exists l, (Some obj), (u_Meta obj).
Qed.

(** A cluster that cannot be asked for its API groups at the start has no
    custom resources for as long as the watcher runs: they are not listed,
    without an error. *)
Lemma discovery_error_hides_routes c w0 k w1 e e' :
  (kube_ServerGroups w0).1 = inr e → (kube_ServerGroups (asked c w0)).1 = inr e' →
  Start (NewKubeWatcher c) w0 = ((None, k), w1) →
  kw_hasIngressRoute k && kw_dynamicFactory k = false ∧ kw_hasHTTPRoute k && kw_dynamicFactory k = false.
Proof.
  intros E1 E2 (_ & _ & _ & Hi & Hh)%Start_sets. rewrite <- !not_true_iff_false, Hi, Hh. unfold found_at.
  rewrite E1, E2. naive_solver.
Qed.
End Listed.

(** ** The hostnames *)

(** What the Kubernetes source makes of a workload: its hostnames, those that
    are not empty. *)
Definition publishes (w : Workload) (n : string) : Prop :=
  ∃ hs h, SourcePlatforms.Kubernetes.Extract w = inl hs ∧ h ∈ hs ∧ h_Name h = n.

Lemma publishes_iff w n :
  publishes w n ↔ SourcePlatforms.Kubernetes.isEnabled (w_Annotations w) = true ∧
                  n ≠ "" ∧ n ∈ w_Hostnames w.
Proof.
  unfold publishes, SourcePlatforms.Kubernetes.Extract.
  destruct (SourcePlatforms.Kubernetes.isEnabled _); simpl; [|naive_solver set_solver].
  destruct (w_Hostnames w) as [|n0 l] eqn:E; simpl length.
  - simpl. naive_solver set_solver.
  - rewrite <- E. simpl Nat.eqb. cbv iota. split.
    + intros (hs & h & [= <-] & (n1 & -> & Hn)%list_elem_of_fmap & <-). simpl.
      apply list_elem_of_In, List.filter_In in Hn as [Hn%list_elem_of_In Hne].
      split_and!; [done|by case_eqb|done].
    + intros (_ & Hne & Hn). eexists _, _. split_and!; [done| |].
      * apply list_elem_of_fmap. exists n. split; [done|].
        apply list_elem_of_In, List.filter_In. rewrite <- list_elem_of_In. split; [done|by case_eqb].
      * done.
Qed.

Lemma elem_of_nonempty (l : list string) n : n ∈ List.filter (λ h, h != "") l ↔ n ≠ "" ∧ n ∈ l.
Proof.
  rewrite list_elem_of_In, List.filter_In, <- list_elem_of_In.
  destruct (String.eqb_spec n ""); naive_solver.
Qed.

Lemma elem_of_emit_all (l : list string) n : n ∈ emit_all id l ↔ n ∈ l.
Proof. pose proof (proj1 (proj2 (emit_all_spec id l)) n) as H. by rewrite !map_id in H. Qed.

(** What a loop that skips what it has seen adds to a list. *)
Lemma fold_emit_elem (l : list string) (seen : gset string) hs n :
  (∀ k, k ∈ seen ↔ k ∈ hs) → n ∈ (fold_left (emit id) l (seen, hs)).2 ↔ n ∈ hs ∨ n ∈ l.
Proof.
  revert seen hs. induction l as [|a l IH]; intros seen hs Hs; simpl; [set_solver|].
  unfold emit at 2. simpl. case_bool_decide as Ha.
  - rewrite IH by done. apply Hs in Ha. set_solver.
  - rewrite IH; [set_solver|]. intros k. set_solver.
Qed.

(** A name of a comma-separated list. *)
Definition listed_in (n v : string) : Prop := ∃ part, part ∈ Split "," v ∧ n = TrimSpace part.

Lemma elem_of_splitCSV n v : n ∈ splitCSV v ↔ n ≠ "" ∧ listed_in n v.
Proof.
  unfold splitCSV. rewrite elem_of_nonempty, list_elem_of_fmap. unfold listed_in. naive_solver.
Qed.

Lemma elem_of_route_hosts (j : json) n :
  n ∈ route_hosts j ↔
  ∃ route m, as_map j = Some route ∧ route !! "match" = Some (JStr m) ∧ n ∈ extractHostsFromRule m.
Proof.
  unfold route_hosts, extractHostsFromRule. destruct (as_map j) as [route|]; [|set_solver].
  destruct (route !! "match") as [[| | |m| |]|] eqn:E; try set_solver.
  setoid_rewrite elem_of_emit_all. unfold extractHostsFromMatch.
  destruct (String.eqb_spec m "") as [->|Hm]; [simpl|naive_solver].
  split; [set_solver|]. intros (? & ? & [= <-] & Hr & Hn). rewrite E in Hr. injection Hr as <-. done.
Qed.

Section Names.
Context `{UnstructuredAPI}.

(** The routes of an IngressRoute. *)
Definition route_of (obj : Unstructured) (r : json) : Prop :=
  ∃ spec routes, NestedMap (u_Object obj) ["spec"] = Some spec ∧ spec !! "routes" = Some (JArr routes) ∧
                 r ∈ routes.

Lemma ConvertIngress_hosts ing n :
  n ≠ "" → n ∈ w_Hostnames (ConvertIngress ing) ↔ n ∈ ing_Rules ing ∨ ∃ tls, tls ∈ ing_TLS ing ∧ n ∈ tls.
Proof.
  intros Hn. unfold ConvertIngress. simpl.
  set (hs := List.filter _ _). pose proof (fold_emit_elem (concat (ing_TLS ing)) (list_to_set hs) hs n) as ->.
  - unfold hs. rewrite elem_of_nonempty, (list_elem_of_In (concat _) n), in_concat.
    setoid_rewrite <- list_elem_of_In. naive_solver.
  - intros k. by rewrite elem_of_list_to_set.
Qed.

Lemma ConvertService_hosts svc n :
  n ∈ w_Hostnames (ConvertService svc) ↔
  n ≠ "" ∧ ∃ key v, om_Annotations (svc_Meta svc) !! key = Some v ∧
    (key ∈ [AnnotationExternalDNSHostname; AnnotationDNSWeaverHostnames] ∧ listed_in n v ∨
     key = AnnotationDNSWeaverHostname ∧ n = v).
Proof.
  unfold ConvertService. simpl. rewrite elem_of_emit_all, !elem_of_app.
  set (A := om_Annotations (svc_Meta svc)).
  assert (∀ key, n ∈ (if default "" (A !! key) != "" then splitCSV (default "" (A !! key)) else []) ↔
                 n ≠ "" ∧ ∃ v, A !! key = Some v ∧ listed_in n v) as Hcsv.
  { intros key. destruct (A !! key) as [v|]; simpl; [|set_solver].
    destruct (String.eqb_spec v "") as [->|]; simpl; [|rewrite elem_of_splitCSV; naive_solver].
    split; [set_solver|]. intros (Hn & v & [= <-] & part & Hp & ->). simpl in Hp.
    apply list_elem_of_singleton in Hp as ->. done. }
  assert (n ∈ (if default "" (A !! AnnotationDNSWeaverHostname) != ""
               then [default "" (A !! AnnotationDNSWeaverHostname)] else []) ↔
          n ≠ "" ∧ A !! AnnotationDNSWeaverHostname = Some n) as Hone.
  { destruct (A !! AnnotationDNSWeaverHostname) as [v|]; simpl; [|set_solver].
    destruct (String.eqb_spec v "") as [->|]; simpl; [naive_solver set_solver|].
    rewrite list_elem_of_singleton. naive_solver. }
  rewrite !Hcsv, Hone. split.
  - intros [(Hn & v & E & Hl)|[(Hn & E)|(Hn & v & E & Hl)]]; (split; [done|]); eexists _, _;
      (split; [done|]); set_solver.
  - intros (Hn & key & v & E & [[[->|[->|[]%elem_of_nil]%elem_of_cons]%elem_of_cons Hl]|[-> ->]]); naive_solver.
Qed.

(** C15. The names that are published for the resources of a cluster.  Unless an
    annotation opts out: those of the rules and the TLS sections of an
    Ingress; those in the three annotations of a Service; those that the
    Traefik source finds in the rules of an IngressRoute; those of an
    HTTPRoute; and no others. *)
Theorem published_names n :
  (∀ ing, publishes (ConvertIngress ing) n ↔
     SourcePlatforms.Kubernetes.isEnabled (om_Annotations (ing_Meta ing)) = true ∧ n ≠ "" ∧
     (n ∈ ing_Rules ing ∨ ∃ tls, tls ∈ ing_TLS ing ∧ n ∈ tls)) ∧
  (∀ svc, publishes (ConvertService svc) n ↔
     SourcePlatforms.Kubernetes.isEnabled (om_Annotations (svc_Meta svc)) = true ∧ n ≠ "" ∧
     ∃ key v, om_Annotations (svc_Meta svc) !! key = Some v ∧
       (key ∈ [AnnotationExternalDNSHostname; AnnotationDNSWeaverHostnames] ∧ listed_in n v ∨
        key = AnnotationDNSWeaverHostname ∧ n = v)) ∧
  (∀ obj, publishes (ConvertIngressRoute obj) n ↔
     SourcePlatforms.Kubernetes.isEnabled (om_Annotations (u_Meta obj)) = true ∧ n ≠ "" ∧
     ∃ r route m, route_of obj r ∧ as_map r = Some route ∧ route !! "match" = Some (JStr m) ∧
       n ∈ extractHostsFromRule m) ∧
  (∀ obj, publishes (ConvertHTTPRoute obj) n ↔
     SourcePlatforms.Kubernetes.isEnabled (om_Annotations (u_Meta obj)) = true ∧ n ≠ "" ∧
     ∃ l, NestedStringSlice (u_Object obj) ["spec"; "hostnames"] = Some l ∧ n ∈ l).
Proof.
  split_and!; intros; rewrite publishes_iff.
  - apply and_iff_compat_l. split; intros [Hn Hor]; (split; [done|]); by apply ConvertIngress_hosts.
  - rewrite ConvertService_hosts. simpl. tauto.
  - unfold ConvertIngressRoute, route_of. simpl. rewrite elem_of_emit_all.
    do 2 apply and_iff_compat_l. destruct (NestedMap _ _) as [spec|]; [|set_solver].
    destruct (spec !! "routes") as [[| | | |routes|]|] eqn:E; try set_solver.
    rewrite list_elem_of_In, in_flat_map. setoid_rewrite <- list_elem_of_In.
    setoid_rewrite elem_of_route_hosts. set_solver.
  - unfold ConvertHTTPRoute. simpl. apply and_iff_compat_l.
    destruct (NestedStringSlice _ _) as [l|]; [|set_solver]. rewrite elem_of_emit_all, elem_of_nonempty.
    naive_solver.
Qed.
End Names.
