(* ===== verification/PowerDns.v ===== *)
(** * The PowerDNS provider (providers/powerdns)

    Records as the contents of resource record sets, the client of the HTTP
    API, and the provider's operations, which read a set, change it and write
    it back whole.  The server is reached through [HttpClient]; texts are UTF-8
    byte strings, of which a byte that is not part of a sequence reads as
    U+FFFD.  Logging is left out. *)
From S2P Require Import Prelude GoStrings GoMaps Errors ProviderTypes Effects Registry.
From S2P Require Import DnsRecord DnsConfig IO Http Json Dnsmasq.
From Stdlib Require Import ZArith NArith.

(** ** Data (client.go) *)

Record apiRecord := mkApiRecord { ar_Content : string; ar_Disabled : bool }.

Record rrset := mkRRset {
  rs_Name : string;
  rs_Type : string;
  rs_TTL : Z;
  rs_ChangeType : string;
  rs_Records : list apiRecord
}.

#[export] Instance apiRecord_eq_dec : EqDecision apiRecord.
Proof. solve_decision. Defined.
#[export] Instance rrset_eq_dec : EqDecision rrset.
Proof. solve_decision. Defined.

Record zoneResponse := mkZone { zn_Name : string; zn_RRsets : list rrset }.

Definition zero_record : apiRecord := mkApiRecord "" false.
Definition zero_rrset : rrset := mkRRset "" "" 0 "" [].

(** *** As JSON *)

Definition dec_record : decoder apiRecord :=
  dec_struct
    [mk_field "content" ar_Content (λ v r, mkApiRecord v (ar_Disabled r)) dec_string;
     mk_field "disabled" ar_Disabled (λ v r, mkApiRecord (ar_Content r) v) dec_bool].

Definition dec_rrset : decoder rrset :=
  dec_struct
    [mk_field "name" rs_Name (λ v r, mkRRset v (rs_Type r) (rs_TTL r) (rs_ChangeType r) (rs_Records r)) dec_string;
     mk_field "type" rs_Type (λ v r, mkRRset (rs_Name r) v (rs_TTL r) (rs_ChangeType r) (rs_Records r)) dec_string;
     mk_field "ttl" rs_TTL (λ v r, mkRRset (rs_Name r) (rs_Type r) v (rs_ChangeType r) (rs_Records r)) dec_int;
     mk_field "changetype" rs_ChangeType (λ v r, mkRRset (rs_Name r) (rs_Type r) (rs_TTL r) v (rs_Records r)) dec_string;
     mk_field "records" rs_Records (λ v r, mkRRset (rs_Name r) (rs_Type r) (rs_TTL r) (rs_ChangeType r) v)
       (dec_list zero_record dec_record)].

Definition dec_zone : decoder zoneResponse :=
  dec_struct
    [mk_field "name" zn_Name (λ v z, mkZone v (zn_RRsets z)) dec_string;
     mk_field "rrsets" zn_RRsets (λ v z, mkZone (zn_Name z) v) (dec_list zero_rrset dec_rrset)].

(** [apiErrorBody] *)
Definition dec_error_body : decoder string :=
  dec_struct [mk_field "error" id (λ v _, v) dec_string].

Definition record_json (r : apiRecord) : json :=
  JObj [("content", JStr (ar_Content r)); ("disabled", JBool (ar_Disabled r))].

Definition rrset_json (r : rrset) : json :=
  JObj ([("name", JStr (rs_Name r)); ("type", JStr (rs_Type r))]
        ++ omit_int "ttl" (rs_TTL r) ++ omit_string "changetype" (rs_ChangeType r)
        ++ match rs_Records r with [] => [] | l => [("records", JArr (map record_json l))] end).

Definition rrsets_json (l : list rrset) : json := JArr (map rrset_json l).

(** [patchRequest] *)
Definition patch_json (l : list rrset) : json := JObj [("rrsets", rrsets_json l)].

(** ** Names and contents *)

Definition canonicalize (name : string) : string :=
  if name == "" then "." else if HasSuffix name "." then name else name ++s ".".

Definition stripDot (name : string) : string := TrimSuffix name ".".

(** The characters of a text, as [range] goes through them; every one takes a
    byte, so the length is fuel enough. *)
Fixpoint runes_go (fuel : nat) (s : string) : list string :=
  match fuel, s with
  | S fuel, String _ t =>
      match utf8_len s with
      | O => replacement :: runes_go fuel t
      | n => str_take n s :: runes_go fuel (str_drop n s)
      end
  | _, _ => []
  end.
Definition runes (s : string) : list string := runes_go (String.length s) s.

Definition quote_mark : string := byte_str 34.
Definition escape_mark : string := String backslash "".

Definition quote_rune (r : string) : string :=
  if (r == quote_mark) || (r == escape_mark) then escape_mark ++s r else r.

Definition quoteTXT (s : string) : string :=
  quote_mark ++s Join "" (map quote_rune (runes s)) ++s quote_mark.

(** The loop of [unquoteTXT]: whether the last character was an escape. *)
Fixpoint unescape (escaped : bool) (l : list string) : string :=
  match l with
  | [] => ""
  | r :: l =>
      if escaped then r ++s unescape false l
      else if r == escape_mark then unescape true l
      else r ++s unescape false l
  end.

Definition unquoteTXT (s : string) : string :=
  if (String.length s <? 2)%nat || negb (HasPrefix s quote_mark) || negb (HasSuffix s quote_mark)
  then s
  else unescape false (runes (str_take (String.length s - 2) (str_drop 1 s))).

Definition encodeSRVContent (srv : SRVData) (target : string) : string :=
  itoa (srv_Priority srv) ++s " " ++s itoa (srv_Weight srv) ++s " " ++s itoa (srv_Port srv)
  ++s " " ++s canonicalize target.

(** The error of [strconv.ParseUint(s, 10, 16)]: a number that grows beyond 16
    bits is out of range whatever follows. *)
Fixpoint uint16_overflow (acc : Z) (s : string) : bool :=
  match s with
  | EmptyString => false
  | String c s =>
      if is_digit c then
        let n := (acc * 10 + digit_val c)%Z in
        if (2 ^ 16 - 1 <? n)%Z then true else uint16_overflow n s
      else false
  end.

Definition parseUint16 (what s : string) : Z + error :=
  match ParseUint 16 s with
  | Some n => inl n
  | None =>
      inr (EWrapf ("invalid SRV " ++s what ++s " " ++s Quote s ++s ": ")
             (ENew ("strconv.ParseUint: parsing " ++s Quote s ++s ": "
                    ++s (if uint16_overflow 0 s then "value out of range" else "invalid syntax"))))
  end.

Definition parseSRVContent (content : string) : SRVData * string + error :=
  match Fields content with
  | [f0; f1; f2; f3] =>
      match parseUint16 "priority" f0 with
      | inr err => inr err
      | inl prio =>
          match parseUint16 "weight" f1 with
          | inr err => inr err
          | inl weight =>
              match parseUint16 "port" f2 with
              | inr err => inr err
              | inl port => inl (mkSRVData prio weight port, stripDot f3)
              end
          end
      end
  | _ => inr (ENew ("invalid SRV content " ++s Quote content ++s ": expected 4 fields"))
  end.

Definition recordContent (rec : DNSRecord) : string + error :=
  let t := r_Type rec in
  if (t == RecordTypeA) || (t == RecordTypeAAAA) then inl (r_Target rec)
  else if t == RecordTypeCNAME then inl (canonicalize (r_Target rec))
  else if t == RecordTypeTXT then inl (quoteTXT (r_Target rec))
  else if t == RecordTypeSRV then
    match r_SRV rec with
    | None => inr (ENew "SRV record requires SRV data")
    | Some srv => inl (encodeSRVContent srv (r_Target rec))
    end
  else inr (ENew ("unsupported record type " ++s t)).

Definition decodeContent (t : RecordType) (content : string) : string * nilable SRVData + error :=
  if (t == RecordTypeA) || (t == RecordTypeAAAA) then inl (content, None)
  else if t == RecordTypeCNAME then inl (stripDot content, None)
  else if t == RecordTypeTXT then inl (unquoteTXT content, None)
  else if t == RecordTypeSRV then
    match parseSRVContent content with
    | inr perr => inr perr
    | inl (s, tgt) => inl (tgt, Some s)
    end
  else inr (ENew ("unsupported record type " ++s t)).

(** ** The client (client.go) *)

Definition apiVersion : string := "v1".

(** The package's own sentinel: no other error of the client is made by
    [errors.New]. *)
Definition errZoneNotFound : error := ENew "zone not found".
Definition is_zone_not_found (e : error) : bool :=
  match e with ENew msg => msg == "zone not found" | _ => false end.

Record Client := mkClient { cl_baseURL : string; cl_apiKey : string; cl_serverID : string }.

(** [strings.TrimRight(s, "/")] *)
Definition trim_slashes (s : string) : string := trim_right (Ascii.eqb "/") s.

Definition NewClient (baseURL apiKey serverID : string) : Client :=
  mkClient (trim_slashes baseURL) apiKey serverID.

Definition zonePath (c : Client) (zone : string) : string :=
  "/api/" ++s apiVersion ++s "/servers/" ++s PathEscape (cl_serverID c)
  ++s "/zones/" ++s PathEscape (canonicalize zone).

Definition StatusUnprocessableEntity : Z := 422.

(** The request; the body is [None] for a nil reader. *)
Definition api_request (c : Client) (method path : string) (body : option string) : HTTPRequest :=
  mkRequest method (cl_baseURL c ++s path)
    ([("X-API-Key", cl_apiKey c); ("Accept", "application/json")]
     ++ match body with Some _ => [("Content-Type", "application/json")] | None => [] end)
    (default "" body).

Section Client.
Context {W : Type} `{HttpClient W} `{JsonErrors} (c : Client).

Definition mapError (status : Z) (body : string) : error :=
  let msg := match Unmarshal dec_error_body "" body with
             | inl e => if e != "" then e else TrimSpace body
             | inr _ => TrimSpace body
             end in
  if (status =? StatusUnauthorized)%Z || (status =? StatusForbidden)%Z
  then ESuffix (ESentinel ErrUnauthorized) (": " ++s msg)
  else if (status =? StatusNotFound)%Z then errZoneNotFound
  else if (status =? StatusUnprocessableEntity)%Z
  then ENew ("powerdns rejected request (422): " ++s msg)
  else if (500 <=? status)%Z
  then ESuffix (ESentinel ErrProviderUnavailable)
         (": server returned " ++s itoa status ++s ": " ++s msg)
  else ENew ("powerdns API error (status " ++s itoa status ++s "): " ++s msg).

Definition doRequest (method path : string) (body : option string) : IO W string :=
  match http_NewRequest method (cl_baseURL c ++s path) with
  | Some err => io_fail (EWrapf "creating request: " err)
  | None =>
      resp ← io_wrap (EBoth (ESentinel ErrProviderUnavailable))
               (http_Do (api_request c method path body));
      respBody ← io_wrap (EWrapf "reading response body: ") (io_lift (ReadBody resp 0));
      if (StatusCode resp <? 200)%Z || (300 <=? StatusCode resp)%Z
      then io_fail (mapError (StatusCode resp) respBody)
      else mret respBody
  end.

Definition client_Ping : IO W unit :=
  _ ← doRequest "GET" ("/api/" ++s apiVersion ++s "/servers") None; mret tt.

Definition GetZone (zone : string) : IO W zoneResponse :=
  body ← doRequest "GET" (zonePath c zone) None;
  io_wrap (EWrapf "parsing zone response: ") (io_lift (Unmarshal dec_zone (mkZone "" []) body)).

Definition PatchRRsets (zone : string) (rrsets : list rrset) : IO W unit :=
  _ ← doRequest "PATCH" (zonePath c zone) (Some (print (patch_json rrsets))); mret tt.
End Client.

(** ** Configuration (config.go) *)

Definition DefaultTTL : Z := 300.
Definition DefaultServerID : string := "localhost".

Record Config := mkConfig {
  cfg_URL : string;
  cfg_APIKey : string;
  cfg_Zone : string;
  cfg_ServerID : string;
  cfg_TTL : Z
}.

Definition Config_Validate (c : Config) : option error :=
  let errs :=
    (if cfg_URL c == "" then ["URL is required"] else []) ++
    (if cfg_APIKey c == "" then ["API_KEY is required"] else []) ++
    (if cfg_Zone c == "" then ["ZONE is required"] else []) ++
    (if (cfg_TTL c <? 0)%Z then ["TTL must be non-negative"] else []) in
  if (0 <? length errs)%nat
  then Some (ENew ("powerdns config validation failed: " ++s Join "; " errs)) else None.

(** The two loaders, which differ in where a setting is looked up; [secret] is
    for those that may be in a file. *)
Definition load_config (get secret : string → string) (instanceName : string) : Config + error :=
  let serverID := get "SERVER_ID" in
  match int_setting "TTL" (get "TTL") DefaultTTL with
  | inr err => inr err
  | inl ttl =>
      let cfg := mkConfig (trim_slashes (get "URL")) (secret "API_KEY") (get "ZONE")
                   (if serverID == "" then DefaultServerID else serverID) ttl in
      match Config_Validate cfg with
      | Some err => inr (EWrapf ("configuration for " ++s instanceName ++s ": ") err)
      | None => inl cfg
      end
  end.

Definition LoadConfigFromMap (instanceName : string) (m : gmap string string) : Config + error :=
  load_config (setting m) (setting m) instanceName.

(** The environment, and the files it names: [getEnvOrFile] and [envPrefix]
    are those of the dnsmasq provider, text for text. *)
Definition LoadConfig (Getenv : string → string) (ReadSecret : string → string + error)
    (instanceName : string) : Config + error :=
  let prefix := envPrefix instanceName in
  load_config (λ key, Getenv (prefix ++s key))
    (λ key, getEnvOrFile Getenv ReadSecret (prefix ++s key) (prefix ++s key ++s "_FILE"))
    instanceName.

(** ** The provider (provider.go, factory.go) *)

Record PProvider := mkPProvider {
  pp_name : string;
  pp_zone : string;
  pp_serverID : string;
  pp_ttl : Z;
  pp_client : Client
}.

Definition pp_Capabilities : Capabilities :=
  mkCapabilities true true
    [RecordTypeA; RecordTypeAAAA; RecordTypeCNAME; RecordTypeSRV; RecordTypeTXT].

Definition pp_Identity (p : PProvider) : ProviderIdentity :=
  mkIdentity "powerdns" (cl_baseURL (pp_client p)) (pp_zone p).

(** The records of a set, as [List] gives them: not the disabled ones, and
    not those that do not decode. *)
Definition rrset_records (rs : rrset) : list DNSRecord :=
  if SupportsRecordType pp_Capabilities (rs_Type rs) then
    let hostname := stripDot (rs_Name rs) in
    omap (λ ar,
      if ar_Disabled ar then None
      else match decodeContent (rs_Type rs) (ar_Content ar) with
           | inr _ => None
           | inl (target, srv) =>
               Some (mkRecord hostname (rs_Type rs) target (rs_TTL rs)
                       (hostname ++s "|" ++s rs_Type rs) srv None ∅)
           end) (rs_Records rs)
  else [].

(** The set that [Create] writes; [None] when the content is there and
    enabled. *)
Fixpoint merge_content (content : string) (existing : list apiRecord) : option (list apiRecord) :=
  match existing with
  | [] => Some [mkApiRecord content false]
  | ar :: l =>
      if ar_Content ar == content
      then if ar_Disabled ar then Some (mkApiRecord (ar_Content ar) false :: l) else None
      else (cons ar) <$> merge_content content l
  end.

(** The loop of [Update]: whether the desired content is written. *)
Fixpoint swap_content (old new : string) (written : bool) (l : list apiRecord) : list apiRecord :=
  match l with
  | [] => []
  | ar :: l =>
      if (ar_Content ar == old) || (ar_Content ar == new)
      then (if written then [] else [mkApiRecord new false]) ++ swap_content old new true l
      else ar :: swap_content old new written l
  end.

Section Provider.
Context {W : Type} `{HttpClient W} `{JsonErrors} (p : PProvider).

Definition pp_Ping : IO W unit :=
  _ ← io_wrap (EWrapf "ping failed: ") (client_Ping (pp_client p));
  _ ← io_wrap (λ err,
        if is_zone_not_found err
        then ENew ("zone " ++s Quote (pp_zone p) ++s " not found on PowerDNS server "
                   ++s Quote (pp_serverID p) ++s "; create the zone before using it with dnsweaver")
        else EWrapf "ping failed: " err) (GetZone (pp_client p) (pp_zone p));
  mret tt.

Definition pp_List : IO W (list DNSRecord) :=
  zone ← io_wrap (EWrapf "listing records: ") (GetZone (pp_client p) (pp_zone p));
  mret (concat (map rrset_records (zn_RRsets zone))).

Definition currentRRset (hostname : string) (rt : RecordType) : IO W (nilable rrset) :=
  zone ← GetZone (pp_client p) (pp_zone p);
  let name := canonicalize hostname in
  mret (List.find (λ rs, (rs_Name rs == name) && (rs_Type rs == rt)) (zn_RRsets zone)).

Definition record_ttl (record : DNSRecord) : Z :=
  if (r_TTL record <=? 0)%Z then pp_ttl p else r_TTL record.

Definition pp_Create (record : DNSRecord) : IO W unit :=
  let t := r_Type record in
  content ← io_wrap (EWrapf ("encoding " ++s t ++s " record: ")) (io_lift (recordContent record));
  rs ← io_wrap (EWrapf "reading existing rrset: ") (currentRRset (r_Hostname record) t);
  match merge_content content (from_option rs_Records [] rs) with
  | None => mret tt
  | Some merged =>
      io_wrap (EWrapf ("creating " ++s t ++s " record: "))
        (PatchRRsets (pp_client p) (pp_zone p)
           [mkRRset (canonicalize (r_Hostname record)) t (record_ttl record) "REPLACE" merged])
  end.

Definition pp_Delete (record : DNSRecord) : IO W unit :=
  let t := r_Type record in
  content ← io_wrap (EWrapf ("encoding " ++s t ++s " record: ")) (io_lift (recordContent record));
  rs ← io_wrap (EWrapf "reading existing rrset: ") (currentRRset (r_Hostname record) t);
  match rs with
  | None => mret tt
  | Some rs =>
      let remaining := List.filter (λ ar, ar_Content ar != content) (rs_Records rs) in
      if negb (existsb (λ ar, ar_Content ar == content) (rs_Records rs)) then mret tt
      else
        let out :=
          if (length remaining =? 0)%nat
          then mkRRset (canonicalize (r_Hostname record)) t 0 "DELETE" []
          else mkRRset (canonicalize (r_Hostname record)) t (rs_TTL rs) "REPLACE" remaining in
        io_wrap (EWrapf ("deleting " ++s t ++s " record: "))
          (PatchRRsets (pp_client p) (pp_zone p) [out])
  end.

Definition pp_Update (existing desired : DNSRecord) : IO W unit :=
  let t := r_Type desired in
  desiredContent ← io_wrap (EWrapf ("encoding desired " ++s t ++s " record: "))
                     (io_lift (recordContent desired));
  existingContent ← io_wrap (EWrapf ("encoding existing " ++s r_Type existing ++s " record: "))
                      (io_lift (recordContent existing));
  rs ← io_wrap (EWrapf "reading existing rrset: ") (currentRRset (r_Hostname desired) t);
  match rs with
  | None => io_fail (ESentinel ErrNotFound)
  | Some rs =>
      if negb (existsb (λ ar, ar_Content ar == existingContent) (rs_Records rs))
      then io_fail (ESentinel ErrNotFound)
      else
        io_wrap (EWrapf ("updating " ++s t ++s " record: "))
          (PatchRRsets (pp_client p) (pp_zone p)
             [mkRRset (canonicalize (r_Hostname desired)) t (record_ttl desired) "REPLACE"
                (swap_content existingContent desiredContent false (rs_Records rs))])
  end.

Definition powerdns_provider : Provider W := {|
  prov_Name := pp_name p;
  prov_Type := "powerdns";
  prov_Ping := io_error pp_Ping;
  prov_Capabilities := pp_Capabilities;
  prov_List := pp_List;
  prov_Create := λ r, io_error (pp_Create r);
  prov_Delete := λ r, io_error (pp_Delete r);
  prov_Update := Some (λ e d, io_error (pp_Update e d));
  prov_Identity := Some (pp_Identity p);
  prov_Close := None
|}.
End Provider.

Definition New (name : string) (config : nilable Config) : PProvider + error :=
  match config with
  | None => inr (ENew "config is required")
  | Some config =>
      match Config_Validate config with
      | Some err => inr err
      | None =>
          inl (mkPProvider name (cfg_Zone config) (cfg_ServerID config) (cfg_TTL config)
                 (NewClient (cfg_URL config) (cfg_APIKey config) (cfg_ServerID config)))
      end
  end.

Definition NewFromMap (name : string) (config : gmap string string) : PProvider + error :=
  match LoadConfigFromMap name config with
  | inr err => inr err
  | inl cfg => New name (Some cfg)
  end.

(** The HTTP client made of the TLS settings is the [HttpClient] at hand. *)
Definition Factory {W} `{HttpClient W} `{JsonErrors} : Registry.Factory W := λ cfg w,
  match NewFromMap (fc_Name cfg) (fc_ProviderConfig cfg) with
  | inr err => (inr err, w)
  | inl p => (inl (powerdns_provider p), w)
  end.
