(* ===== verification/PowerDnsSpec.v ===== *)
(** * What the PowerDNS provider promises

    The contents of the resource record sets against the records, and the
    operations against a server that stores sets of records. *)
From S2P Require Import Prelude GoStrings GoMaps Errors ProviderTypes Effects Registry.
From S2P Require Import DnsRecord DnsConfig Catalog IO Http Json HttpProps PowerDns.
From Stdlib Require Import ZArith NArith.

(** ** Texts as characters *)

(** The text with U+FFFD for what is not UTF-8. *)
Definition to_valid (s : string) : string := Join "" (runes s).

Definition is_char (r : string) : Prop := r ≠ "" ∧ utf8_len r = String.length r.

Lemma Join_cons (s : string) l : Join "" (s :: l) = s ++s Join "" l.
Proof. destruct l; simpl; [by rewrite app_empty_r|done]. Qed.

Lemma Join_nosep_app l l' : Join "" (l ++ l') = Join "" l ++s Join "" l'.
Proof.
  induction l as [|s l IH]; [done|]. rewrite <- app_comm_cons, !Join_cons, IH. by rewrite app_assoc_s.
Qed.

(** The length of a character does not depend on what follows it. *)
Lemma utf8_len_take s t :
  utf8_len s ≠ 0 → utf8_len (str_take (utf8_len s) s ++s t) = utf8_len s.
Proof.
  destruct s as [|a s]; [done|]. simpl.
  destruct (code a <? 128)%N eqn:Ea; [simpl; by rewrite Ea|].
  destruct s as [|b s]; [done|].
  destruct (in_range 194 223 a) eqn:Eb.
  { destruct (cont b) eqn:Ec; [|done]. simpl. by rewrite Ea, Eb, Ec. }
  destruct s as [|d s]; [done|].
  destruct (in_range 224 239 a) eqn:Ed.
  { destruct (_ && cont d) eqn:Ee; [|done]. simpl. by rewrite Ea, Eb, Ed, Ee. }
  destruct s as [|e s]; [done|].
  destruct (_ && cont d && cont e) eqn:Ee; [|done]. simpl. by rewrite Ea, Eb, Ed, Ee.
Qed.

Lemma utf8_len_le s : utf8_len s ≤ String.length s.
Proof.
  destruct s as [|a [|b [|d [|e s]]]]; simpl; [done|..]; repeat case_match; simpl; lia.
Qed.

Lemma str_take_all s : str_take (String.length s) s = s.
Proof. rewrite <- (app_empty_r s) at 2. apply str_take_app. Qed.

Lemma is_char_take s : utf8_len s ≠ 0 → is_char (str_take (utf8_len s) s).
Proof.
  intros Hn. pose proof (utf8_len_take s "" Hn) as H. rewrite app_empty_r in H.
  pose proof (length_str_take _ s (utf8_len_le s)) as Hl. split.
  - intros E. rewrite E in Hl. simpl in Hl. lia.
  - by rewrite H, Hl.
Qed.

Lemma runes_go_chars n s : Forall is_char (runes_go n s).
Proof.
  revert s. induction n as [|n IH]; intros s; [constructor|]. destruct s as [|c s]; [constructor|].
  cbn [runes_go]. pose proof (is_char_take (String c s)) as Hc.
  destruct (utf8_len (String c s)) as [|k]; (constructor; [|apply IH]); [done|by apply Hc].
Qed.

Lemma runes_go_Join l n :
  Forall is_char l → String.length (Join "" l) ≤ n → runes_go n (Join "" l) = l.
Proof.
  intros Hl. revert n. induction Hl as [|r l [Hne Hr] _ IH]; intros n Hn.
  { by destruct n. }
  rewrite Join_cons in *. rewrite length_app_s in Hn.
  destruct r as [|c r]; [done|]. destruct n as [|n]; [simpl in Hn; lia|].
  assert (utf8_len (String c r ++s Join "" l) = String.length (String c r)) as E.
  { pose proof (utf8_len_take (String c r) (Join "" l)) as H. rewrite Hr in H.
    rewrite str_take_all in H. by apply H. }
  rewrite app_cons in *. cbn [runes_go]. rewrite E. cbn [String.length].
  change (String c (r ++s Join "" l)) with (String c r ++s Join "" l).
  change (S (String.length r)) with (String.length (String c r)).
  rewrite str_take_app, str_drop_app. f_equal. apply IH. simpl in Hn. lia.
Qed.

Lemma runes_Join l : Forall is_char l → runes (Join "" l) = l.
Proof. intros Hl. by apply runes_go_Join. Qed.

Lemma runes_chars s : Forall is_char (runes s).
Proof. apply runes_go_chars. Qed.

(** ** Contents *)

Definition quoted (l : list string) : list string :=
  concat (map (λ r, if (r == quote_mark) || (r == escape_mark) then [escape_mark; r] else [r]) l).

Lemma quoted_Join l : Join "" (map quote_rune l) = Join "" (quoted l).
Proof.
  induction l as [|r l IH]; [done|]. unfold quoted in *.
  rewrite map_cons, Join_cons, IH. simpl. rewrite Join_nosep_app. f_equal. unfold quote_rune. by case_match.
Qed.

Lemma quoted_chars l : Forall is_char l → Forall is_char (quoted l).
Proof.
  induction 1 as [|r l Hr Hl IH]; [constructor|]. apply Forall_app. split; [|done].
  case_match; repeat constructor; try apply Hr; done.
Qed.

Lemma unescape_quoted l : unescape false (quoted l) = Join "" l.
Proof.
  induction l as [|r l IH]; [done|]. rewrite Join_cons, <- IH. unfold quoted. simpl.
  destruct ((r == quote_mark) || (r == escape_mark)) eqn:E; simpl; [done|].
  apply orb_false_iff in E as [_ ->]. done.
Qed.

(** Quoting loses nothing but what is not UTF-8. *)
Lemma unquote_quote s : unquoteTXT (quoteTXT s) = to_valid s.
Proof.
  unfold unquoteTXT, quoteTXT. set (b := Join "" _).
  rewrite HasPrefix_app, <- app_assoc_s, HasSuffix_app.
  rewrite !length_app_s. change (String.length quote_mark) with 1.
  destruct (1 + String.length b + 1 <? 2)%nat eqn:E; [apply Nat.ltb_lt in E; lia|]. simpl.
  replace (str_take _ _) with b.
  - unfold b. rewrite quoted_Join, runes_Join by apply quoted_chars, runes_chars.
    apply unescape_quoted.
  - replace (String.length b + 1 - 1) with (String.length b) by lia.
    symmetry. rewrite app_empty_l. apply str_take_app.
Qed.

(** Records whose value survives: no final dot in a name, UTF-8 texts. *)
Definition content_ok (r : DNSRecord) : Prop :=
  (r_Type r = RecordTypeCNAME → HasSuffix (r_Target r) "." = false) ∧
  (r_Type r = RecordTypeTXT → to_valid (r_Target r) = r_Target r) ∧
  (r_Type r = RecordTypeSRV →
     HasSuffix (r_Target r) "." = false ∧ plain (r_Target r) ∧
     ∀ s, r_SRV r = Some s →
       (0 ≤ srv_Priority s < 2 ^ 16)%Z ∧ (0 ≤ srv_Weight s < 2 ^ 16)%Z ∧ (0 ≤ srv_Port s < 2 ^ 16)%Z).

Lemma strip_canonicalize n : HasSuffix n "." = false → stripDot (canonicalize n) = n.
Proof.
  unfold canonicalize, stripDot. intros H. destruct (n == "") eqn:E.
  - apply String.eqb_eq in E as ->. done.
  - rewrite H. apply TrimSuffix_app.
Qed.

Lemma plain_canonicalize n : plain n → clean_name (canonicalize n).
Proof.
  intros H. unfold canonicalize, clean_name. repeat case_match.
  - done.
  - split; [|done]. by destruct n.
  - split; [by destruct n|]. by apply plain_app.
Qed.

(** The provider reads back what it writes. *)
Theorem decode_recordContent r c :
  recordContent r = inl c → content_ok r →
  decodeContent (r_Type r) c
    = inl (r_Target r, if r_Type r == RecordTypeSRV then r_SRV r else None).
Proof.
  intros Hc (Hcn & Htxt & Hsrv). unfold recordContent in Hc. unfold decodeContent.
  destruct ((r_Type r == RecordTypeA) || _) eqn:Ea.
  { apply orb_true_iff in Ea as [Ea|Ea]; apply String.eqb_eq in Ea; rewrite Ea; by simplify_eq. }
  destruct (r_Type r == RecordTypeCNAME) eqn:Ec.
  { apply String.eqb_eq in Ec. simplify_eq. rewrite strip_canonicalize by auto. by rewrite Ec. }
  destruct (r_Type r == RecordTypeTXT) eqn:Et.
  { apply String.eqb_eq in Et. simplify_eq. rewrite unquote_quote, Htxt by done. by rewrite Et. }
  destruct (r_Type r == RecordTypeSRV) eqn:Es; [|done]. apply String.eqb_eq in Es.
  destruct (Hsrv Es) as (Hd & Hp & Hb). destruct (r_SRV r) as [s|]; [|done]. simplify_eq.
  destruct (Hb s eq_refl) as (Hp1 & Hp2 & Hp3).
  assert (Fields (encodeSRVContent s (r_Target r))
          = [itoa (srv_Priority s); itoa (srv_Weight s); itoa (srv_Port s); canonicalize (r_Target r)]) as E.
  { change (encodeSRVContent s (r_Target r)) with
      (Join " " [itoa (srv_Priority s); itoa (srv_Weight s); itoa (srv_Port s); canonicalize (r_Target r)]).
    apply Fields_Join. repeat constructor; auto using itoa_nonempty, itoa_plain.
    all: by apply plain_canonicalize. }
  unfold parseSRVContent. rewrite E. unfold parseUint16. rewrite !ParseUint_itoa by done.
  rewrite strip_canonicalize by done. by destruct s.
Qed.

(** ** The server

    A zone is a store of sets: by name and type, a TTL and the records. *)
Notation zone_map := (gmap (string * string) (Z * list apiRecord)).

Definition rrset_key (r : rrset) : string * string := (rs_Name r, rs_Type r).

(** What the changes of a PATCH do, as the API documents them. *)
Definition apply_change (m : zone_map) (r : rrset) : zone_map :=
  if rs_ChangeType r == "DELETE" then delete (rrset_key r) m
  else if rs_ChangeType r == "REPLACE" then <[rrset_key r := (rs_TTL r, rs_Records r)]> m
  else m.
Definition apply_changes (m : zone_map) (l : list rrset) : zone_map := fold_left apply_change l m.

(** Sets whose texts are ASCII, the alphabet of names and of contents in
    presentation format, and whose TTL is an [int]. *)
Definition rrset_ok (r : rrset) : Prop :=
  ascii_text (rs_Name r) ∧ ascii_text (rs_Type r) ∧ ascii_text (rs_ChangeType r) ∧
  (0 ≤ rs_TTL r < 2 ^ 63)%Z ∧ Forall (λ ar, ascii_text (ar_Content ar)) (rs_Records r).

(** The sets of an answer, one for each entry of the store. *)
Definition denotes (l : list rrset) (m : zone_map) : Prop :=
  NoDup (map rrset_key l) ∧
  ∀ k v, m !! k = Some v ↔ ∃ r, r ∈ l ∧ k = rrset_key r ∧ v = (rs_TTL r, rs_Records r).

(** The API: reading the zone gives its sets and changes nothing; a change
    that is accepted is made, and one that is not, or whose answer is lost, is
    made whole or not at all. *)
Class PowerDNSServer {W} `{HttpClient W} `{JsonErrors} (c : Client) (zone : string)
    (view : W → zone_map) := {
  pd_get w r w' :
    http_Do (api_request c "GET" (zonePath c zone) None) w = (r, w') →
    view w' = view w ∧
    ∀ resp body z, r = inl resp → is_2xx (StatusCode resp) = true → ReadBody resp 0 = inl body →
      Unmarshal dec_zone (mkZone "" []) body = inl z →
      denotes (zn_RRsets z) (view w) ∧ Forall rrset_ok (zn_RRsets z);
  pd_patch w rrs r w' :
    Forall rrset_ok rrs →
    http_Do (api_request c "PATCH" (zonePath c zone) (Some (print (patch_json rrs)))) w = (r, w') →
    (view w' = view w ∨ view w' = apply_changes (view w) rrs) ∧
    ∀ resp, r = inl resp → is_2xx (StatusCode resp) = true → view w' = apply_changes (view w) rrs
}.

(** *** What the operations are to do

    The contents that are served under a name and type, and the changes of
    them; every other name and type keeps its set. *)
Definition active (m : zone_map) (k : string * string) : gset string :=
  match m !! k with
  | Some (_, l) => list_to_set (map ar_Content (List.filter (λ ar, negb (ar_Disabled ar)) l))
  | None => ∅
  end.

Definition others_kept (k : string * string) (m m' : zone_map) : Prop :=
  ∀ k', k' ≠ k → m' !! k' = m !! k'.

Definition record_key (r : DNSRecord) : string * string := (canonicalize (r_Hostname r), r_Type r).

Inductive zone_op :=
| OpCreate (r : DNSRecord)
| OpDelete (r : DNSRecord)
| OpUpdate (existing desired : DNSRecord).

Inductive zone_step : zone_op → zone_map → zone_map → Prop :=
| step_create r c m m' :
    recordContent r = inl c →
    active m' (record_key r) = {[c]} ∪ active m (record_key r) →
    others_kept (record_key r) m m' → zone_step (OpCreate r) m m'
| step_delete r c m m' :
    recordContent r = inl c →
    active m' (record_key r) = active m (record_key r) ∖ {[c]} →
    others_kept (record_key r) m m' → zone_step (OpDelete r) m m'
| step_update e d ce cd m m' :
    recordContent e = inl ce → recordContent d = inl cd →
    active m' (record_key d) = {[cd]} ∪ (active m (record_key d) ∖ {[ce]}) →
    others_kept (record_key d) m m' → zone_step (OpUpdate e d) m m'.

Definition run_op {W} `{HttpClient W} `{JsonErrors} (p : PProvider) (o : zone_op) : IO W unit :=
  match o with
  | OpCreate r => pp_Create p r
  | OpDelete r => pp_Delete p r
  | OpUpdate e d => pp_Update p e d
  end.

(** The records an operation is given: ASCII, with TTLs that are [int]s. *)
Definition input_ok (r : DNSRecord) : Prop :=
  ascii_text (r_Hostname r) ∧ (r_TTL r < 2 ^ 63)%Z ∧ ∀ c, recordContent r = inl c → ascii_text c.
Definition op_ok (o : zone_op) : Prop :=
  match o with
  | OpCreate r | OpDelete r => input_ok r
  | OpUpdate e d => input_ok e ∧ input_ok d
  end.

(** *** The sets that are written *)

Definition enabled (l : list apiRecord) : gset string :=
  list_to_set (map ar_Content (List.filter (λ ar, negb (ar_Disabled ar)) l)).

Lemma enabled_cons ar l :
  enabled (ar :: l) = if ar_Disabled ar then enabled l else {[ar_Content ar]} ∪ enabled l.
Proof. unfold enabled. simpl. by destruct (ar_Disabled ar). Qed.

Lemma enabled_merge c l l' : merge_content c l = Some l' → enabled l' = {[c]} ∪ enabled l.
Proof.
  revert l'. induction l as [|[x d] l IH]; intros l'; simpl; [by intros [= <-]|].
  destruct (x == c) eqn:E.
  - apply String.eqb_eq in E as ->. destruct d; [|done]. intros [= <-]. by rewrite !enabled_cons.
  - destruct (merge_content c l) as [l1|]; [|done]. intros [= <-]. rewrite !enabled_cons, (IH l1) by done.
    simpl. destruct d; [done|set_solver].
Qed.

Lemma merge_content_None c l : merge_content c l = None → c ∈ enabled l.
Proof.
  induction l as [|[x d] l IH]; simpl; [done|]. rewrite enabled_cons. simpl. destruct (x == c) eqn:E.
  - apply String.eqb_eq in E as ->. destruct d; [done|set_solver].
  - destruct (merge_content c l); [done|]. intros _. destruct d; set_solver.
Qed.

Lemma enabled_filter c l :
  enabled (List.filter (λ ar, ar_Content ar != c) l) = enabled l ∖ {[c]}.
Proof.
  induction l as [|[x d] l IH]; [set_solver|]. simpl. destruct (x == c) eqn:E; simpl; rewrite !enabled_cons; simpl.
  - apply String.eqb_eq in E as ->. destruct d; set_solver.
  - apply String.eqb_neq in E. destruct d; set_solver.
Qed.

Lemma enabled_swap old new b l :
  enabled (swap_content old new b l)
    = (if negb b && existsb (λ ar, (ar_Content ar == old) || (ar_Content ar == new)) l
       then {[new]} else ∅) ∪ (enabled l ∖ {[old; new]}).
Proof.
  revert b. induction l as [|[x d] l IH]; intros b; [destruct b; simpl; set_solver|]. simpl.
  destruct ((x == old) || (x == new)) eqn:E; simpl.
  - assert (x ∈ ({[old; new]} : gset string)) as Hx.
    { apply orb_true_iff in E as [E|E]; apply String.eqb_eq in E; set_solver. }
    destruct b; simpl; rewrite ?enabled_cons, IH; simpl; destruct d; set_solver.
  - apply orb_false_iff in E as [E1%String.eqb_neq E2%String.eqb_neq].
    rewrite !enabled_cons, IH. simpl. destruct d; destruct (negb b && _); set_solver.
Qed.

Lemma active_lookup m k t l : m !! k = Some (t, l) → active m k = enabled l.
Proof. unfold active. by intros ->. Qed.

Lemma apply_replace m k t l :
  let m' := apply_changes m [mkRRset k.1 k.2 t "REPLACE" l] in
  active m' k = enabled l ∧ others_kept k m m'.
Proof.
  destruct k as [n ty]. unfold apply_changes, apply_change, active, others_kept, rrset_key. simpl. split.
  - by rewrite lookup_insert_eq.
  - intros k' Hk. by rewrite lookup_insert_ne.
Qed.

Lemma apply_delete m k :
  let m' := apply_changes m [mkRRset k.1 k.2 0 "DELETE" []] in
  active m' k = ∅ ∧ others_kept k m m'.
Proof.
  destruct k as [n ty]. unfold apply_changes, apply_change, active, others_kept, rrset_key. simpl. split.
  - by rewrite lookup_delete_eq.
  - intros k' Hk. by rewrite lookup_delete_ne.
Qed.

Lemma ascii_canonicalize n : ascii_text n → ascii_text (canonicalize n).
Proof.
  intros H. unfold canonicalize. repeat case_match; [done|done|].
  unfold ascii_text in *. by rewrite str_forallb_app, H.
Qed.

Lemma recordContent_type r c : recordContent r = inl c → ascii_text (r_Type r).
Proof.
  unfold recordContent. repeat case_match; try done; intros _; bool_to_prop;
    repeat match goal with H : (_ || _)%bool = true |- _ => apply orb_true_iff in H as [?|?] end;
    bool_to_prop; match goal with H : r_Type r = _ |- _ => by rewrite H end.
Qed.

Lemma merge_content_Forall P c l l' :
  P c → Forall (λ ar, P (ar_Content ar)) l → merge_content c l = Some l' →
  Forall (λ ar, P (ar_Content ar)) l'.
Proof.
  intros Hc Hl. revert l'. induction Hl as [|ar l Ha Hl IH]; intros l'; simpl.
  - intros [= <-]. by repeat constructor.
  - repeat case_match; intros; simplify_eq; [by constructor|].
    destruct (merge_content c l); simplify_eq/=. constructor; auto.
Qed.

Lemma swap_content_Forall P old new b l :
  P new → Forall (λ ar, P (ar_Content ar)) l →
  Forall (λ ar, P (ar_Content ar)) (swap_content old new b l).
Proof.
  intros Hn Hl. revert b. induction Hl as [|ar l Ha Hl IH]; intros b; simpl; [constructor|].
  case_match; [|by constructor]. destruct b; simpl; [done|]. by constructor.
Qed.

Lemma elem_rrset_records r rs :
  r ∈ rrset_records rs ↔
  SupportsRecordType pp_Capabilities (rs_Type rs) = true ∧
  ∃ ar, ar ∈ rs_Records rs ∧ ar_Disabled ar = false ∧
    ∃ target srv, decodeContent (rs_Type rs) (ar_Content ar) = inl (target, srv) ∧
      r = mkRecord (stripDot (rs_Name rs)) (rs_Type rs) target (rs_TTL rs)
            (stripDot (rs_Name rs) ++s "|" ++s rs_Type rs) srv None ∅.
Proof.
  unfold rrset_records. destruct (SupportsRecordType _ _); [|set_solver].
  rewrite list_elem_of_omap. split.
  - intros (ar & Hin & Hr). split; [done|]. exists ar. destruct (ar_Disabled ar); [done|].
    destruct (decodeContent _ _) as [[tgt srv]|]; simplify_eq. eauto 10.
  - intros (_ & ar & Hin & Hd & tgt & srv & He & ->). exists ar. by rewrite Hd, He.
Qed.

Lemma elem_active (m : zone_map) k x :
  x ∈ active m k ↔ ∃ t l, m !! k = Some (t, l) ∧ mkApiRecord x false ∈ l.
Proof.
  unfold active. destruct (m !! k) as [[t l]|]; [|set_solver].
  rewrite elem_of_list_to_set, list_elem_of_fmap. split.
  - intros ([y d] & -> & [Hin Hd]%list_elem_of_In%List.filter_In). simpl in Hd.
    destruct d; [done|]. exists t, l. by rewrite list_elem_of_In.
  - intros (? & ? & [= <- <-] & Hin). exists (mkApiRecord x false). split; [done|].
    apply list_elem_of_In, List.filter_In. by rewrite <- list_elem_of_In.
Qed.

Lemma recordContent_supported r x :
  recordContent r = inl x → SupportsRecordType pp_Capabilities (r_Type r) = true.
Proof.
  unfold recordContent. repeat case_match; try done; intros _;
    repeat match goal with H : (_ || _)%bool = true |- _ => apply orb_true_iff in H as [?|?] end;
    bool_to_prop; match goal with H : r_Type r = _ |- _ => by rewrite H end.
Qed.

Section Refinement.
Context {W : Type} `{HttpClient W} `{JsonErrors} (p : PProvider) (view : W → zone_map).
Context `{!PowerDNSServer (pp_client p) (pp_zone p) view}.
#[local] Abbreviation c := (pp_client p).
#[local] Abbreviation zone := (pp_zone p).

Lemma doRequest_cases method path body w r w' :
  doRequest c method path body w = (r, w') →
  (w' = w ∧ ∀ s, r ≠ inl s) ∨
  ∃ r0, http_Do (api_request c method path body) w = (r0, w') ∧
    ∀ s, r = inl s →
      ∃ resp, r0 = inl resp ∧ is_2xx (StatusCode resp) = true ∧ ReadBody resp 0 = inl s.
Proof using Type.
  unfold doRequest. destruct (http_NewRequest _ _) as [e|]; [intros [= <- <-]; by left|].
  rewrite io_bind_run, io_wrap_run.
  destruct (http_Do _ w) as [[resp|e] w1] eqn:E; intros Hr; right.
  2:{ injection Hr as <- <-. by eexists. }
  exists (inl resp). revert Hr. rewrite io_bind_run, io_wrap_run. unfold io_lift.
  destruct (ReadBody resp 0) as [s|e] eqn:Er; [|by intros [= <- <-]].
  destruct (_ || _) eqn:Es; intros [= <- <-]; [done|]. split; [done|]. intros s' [= <-].
  exists resp. split_and!; [done| |done]. apply orb_false_iff in Es as [E1 E2].
  unfold is_2xx. apply andb_true_iff. split; [apply Z.leb_le|apply Z.ltb_lt].
  - by apply Z.ltb_ge in E1.
  - by apply Z.leb_gt in E2.
Qed.

Lemma GetZone_view w r w' :
  GetZone c zone w = (r, w') →
  view w' = view w ∧
  ∀ z, r = inl z → denotes (zn_RRsets z) (view w) ∧ Forall rrset_ok (zn_RRsets z).
Proof using PowerDNSServer0.
  unfold GetZone. rewrite io_bind_run. destruct (doRequest _ _ _ _ w) as [r1 w1] eqn:E.
  apply doRequest_cases in E as [[-> Hr]|(r0 & Hdo & Hr)].
  { destruct r1 as [s|e]; [by destruct (Hr s)|]. by intros [= <- <-]. }
  destruct (pd_get _ _ _ Hdo) as [Hv Hz]. destruct r1 as [s|e]; [|by intros [= <- <-]].
  destruct (Hr s eq_refl) as (resp & -> & H2 & Hb). rewrite io_wrap_run. unfold io_lift.
  destruct (Unmarshal _ _ s) as [z|e] eqn:Ez; intros [= <- <-]; [|done]. split; [done|].
  intros z' [= <-]. by eapply Hz.
Qed.

Lemma PatchRRsets_view rrs w r w' :
  Forall rrset_ok rrs → PatchRRsets c zone rrs w = (r, w') →
  (view w' = view w ∨ view w' = apply_changes (view w) rrs) ∧
  (r = inl tt → view w' = apply_changes (view w) rrs).
Proof using PowerDNSServer0.
  intros Hok. unfold PatchRRsets. rewrite io_bind_run.
  destruct (doRequest _ _ _ _ w) as [r1 w1] eqn:E.
  apply doRequest_cases in E as [[-> Hr]|(r0 & Hdo & Hr)].
  { destruct r1 as [s|e]; [by destruct (Hr s)|]. intros [= <- <-]. by split; [left|]. }
  destruct (pd_patch _ _ _ _ Hok Hdo) as [Hv Hz]. destruct r1 as [s|e]; intros [= <- <-]; [|done].
  split; [done|]. intros _. destruct (Hr s eq_refl) as (resp & -> & H2 & _). by eapply Hz.
Qed.

Lemma currentRRset_view h t w r w' :
  currentRRset p h t w = (r, w') →
  view w' = view w ∧
  ∀ o, r = inl o →
    match o with
    | None => view w !! (canonicalize h, t) = None
    | Some rs => rrset_ok rs ∧ view w !! (canonicalize h, t) = Some (rs_TTL rs, rs_Records rs)
    end.
Proof using PowerDNSServer0.
  unfold currentRRset. rewrite io_bind_run. destruct (GetZone _ _ w) as [r1 w1] eqn:E.
  apply GetZone_view in E as [Hv Hz]. destruct r1 as [z|e]; intros [= <- <-]; [|done].
  split; [done|]. intros o [= <-]. destruct (Hz z eq_refl) as [[_ Hd] Hok].
  destruct (List.find _ _) as [rs|] eqn:Ef.
  - apply List.find_some in Ef as [Hin [E1%String.eqb_eq E2%String.eqb_eq]%andb_true_iff].
    apply list_elem_of_In in Hin. rewrite Forall_forall in Hok. split; [by apply Hok|].
    apply Hd. exists rs. split_and!; [done| |done]. unfold rrset_key. by rewrite E1, E2.
  - destruct (view w !! (canonicalize h, t)) as [v|] eqn:Ev; [|done]. exfalso.
    apply Hd in Ev as (rs & Hin & Hk & _). apply list_elem_of_In in Hin.
    apply (List.find_none _ _ Ef) in Hin. injection Hk as E1 E2. by rewrite <- E1, <- E2, !String.eqb_refl in Hin.
Qed.

(** One change behind what was read. *)
Lemma patched (r : unit + error) (w w' : W) (f : error → error) (x : rrset) (Q : zone_map → Prop) :
  rrset_ok x → io_wrap f (PatchRRsets c zone [x]) w = (r, w') →
  Q (apply_changes (view w) [x]) →
  (view w' = view w ∨ Q (view w')) ∧ (r = inl tt → Q (view w')).
Proof using PowerDNSServer0.
  intros Hx Hr HQ. rewrite io_wrap_run in Hr.
  destruct (PatchRRsets c zone [x] w) as [r1 w1] eqn:E.
  apply PatchRRsets_view in E as [Hv Hok]; [|by apply Forall_singleton].
  assert (r = inl tt → r1 = inl tt ∧ w1 = w') as Hr1.
  { destruct r1 as [[]|e]; intros ->; by simplify_eq/=. }
  assert (w1 = w') as -> by (destruct r1; by simplify_eq/=).
  split; [|intros [-> _]%Hr1; by rewrite Hok].
  destruct Hv as [->| ->]; auto.
Qed.

(** An operation up to the point where it has read the set. *)
Lemma read_then (f : error → error) (r0 : string + error)
    (k : string → nilable rrset → IO W unit) (h t : string)
    (w : W) (r : unit + error) (w' : W) (Q : zone_map → Prop) (g : error → error) :
  (cont ← io_wrap f (io_lift r0); rs ← io_wrap g (currentRRset p h t); k cont rs) w = (r, w') →
  (∀ cont rs w1, r0 = inl cont → view w1 = view w →
     match rs with
     | None => view w !! (canonicalize h, t) = None
     | Some rs => rrset_ok rs ∧ view w !! (canonicalize h, t) = Some (rs_TTL rs, rs_Records rs)
     end →
     k cont rs w1 = (r, w') →
     (view w' = view w ∨ Q (view w')) ∧ (r = inl tt → Q (view w'))) →
  (view w' = view w ∨ Q (view w')) ∧ (r = inl tt → Q (view w')).
Proof using PowerDNSServer0.
  intros Hr Hk. rewrite io_bind_run, io_wrap_run in Hr. unfold io_lift in Hr.
  destruct r0 as [cont|e]; [|injection Hr as <- <-; split; [by left|done]].
  rewrite io_bind_run, io_wrap_run in Hr.
  destruct (currentRRset p h t w) as [[rs|e] w1] eqn:E; apply currentRRset_view in E as [Hv Hz].
  - eapply Hk; [done|done| |done]. by apply Hz.
  - injection Hr as <- <-. split; [by left|done].
Qed.

#[local] Hint Extern 1 (ascii_text _) => exact eq_refl : core.

Lemma set_ok h t ttl ch l :
  ascii_text h → ascii_text t → ascii_text ch → (0 ≤ ttl < 2 ^ 63)%Z →
  Forall (λ ar, ascii_text (ar_Content ar)) l → rrset_ok (mkRRset (canonicalize h) t ttl ch l).
Proof using Type. intros. split_and!; simpl; try done; by apply ascii_canonicalize || lia. Qed.

Context (Httl : (0 ≤ pp_ttl p < 2 ^ 63)%Z).

Lemma record_ttl_ok r : (r_TTL r < 2 ^ 63)%Z → (0 ≤ record_ttl p r < 2 ^ 63)%Z.
Proof using Httl. unfold record_ttl. destruct (r_TTL r <=? 0)%Z eqn:E; lia. Qed.

Lemma read_active (h t : string) (rs : nilable rrset) (m : zone_map) :
  match rs with
  | None => m !! (canonicalize h, t) = None
  | Some rs => rrset_ok rs ∧ m !! (canonicalize h, t) = Some (rs_TTL rs, rs_Records rs)
  end →
  active m (canonicalize h, t) = enabled (from_option rs_Records [] rs) ∧
  Forall (λ ar, ascii_text (ar_Content ar)) (from_option rs_Records [] rs).
Proof using Type.
  destruct rs as [rs|]; simpl.
  - intros [(_ & _ & _ & _ & Hr) Hl]. split; [by eapply active_lookup|done].
  - intros Hl. unfold active. by rewrite Hl.
Qed.

Lemma Create_refines r w res w' :
  input_ok r → pp_Create p r w = (res, w') →
  (view w' = view w ∨ zone_step (OpCreate r) (view w) (view w')) ∧
  (res = inl tt → zone_step (OpCreate r) (view w) (view w')).
Proof using PowerDNSServer0 Httl.
  intros (Hh & Ht & Hc) Hr. eapply read_then; [exact Hr|]. intros cont rs w1 E Hv Hl Hk. cbv beta in Hk.
  pose proof (recordContent_type _ _ E) as Hty. apply read_active in Hl as [Ha Hl].
  change (active (view w) (record_key r) = enabled (from_option rs_Records [] rs)) in Ha.
  destruct (merge_content _ _) as [merged|] eqn:Em.
  - rewrite <- Hv in *. eapply patched; [|exact Hk|].
    + apply set_ok; auto using record_ttl_ok.
      exact (merge_content_Forall ascii_text cont _ _ (Hc _ E) Hl Em).
    + destruct (apply_replace (view w1) (record_key r) (record_ttl p r) merged) as [Ha' Ho].
      eapply step_create; [done| |done]. etrans; [exact Ha'|].
      rewrite Ha.
      by apply enabled_merge.
  - injection Hk as <- <-. apply merge_content_None in Em. rewrite <- Ha in Em.
    split; [by left|]. intros _. rewrite Hv. eapply step_create; [done| |done].
    set_solver.
Qed.

Lemma Delete_refines r w res w' :
  input_ok r → pp_Delete p r w = (res, w') →
  (view w' = view w ∨ zone_step (OpDelete r) (view w) (view w')) ∧
  (res = inl tt → zone_step (OpDelete r) (view w) (view w')).
Proof using PowerDNSServer0.
  clear Httl. intros (Hh & Ht & Hc) Hr. eapply read_then; [exact Hr|]. intros cont rs w1 E Hv Hl Hk. cbv beta in Hk.
  pose proof (recordContent_type _ _ E) as Hty. pose proof (read_active _ _ _ _ Hl) as [Ha Hf].
  change (active (view w) (record_key r) = enabled (from_option rs_Records [] rs)) in Ha.
  assert (∀ m : zone_map, m = view w → cont ∉ active (view w) (record_key r) →
            zone_step (OpDelete r) (view w) m) as Hnone.
  { intros m -> Hn. eapply step_delete; [done| |done]. set_solver. }
  destruct rs as [rs|]; [|].
  2:{ injection Hk as <- <-. split; [by left|]. intros _. apply Hnone; [done|].
      rewrite Ha. simpl. set_solver. }
  simpl in Ha, Hf. destruct Hl as [Hok Hl]. destruct (existsb _ _) eqn:Ex; simpl in Hk.
  - rewrite <- Hv in *. eapply patched; [|exact Hk|].
    + destruct Hok as (_ & _ & _ & Httl' & _). case_match; apply set_ok; auto; try done.
      rewrite Forall_forall in *. intros ar [Hin _]%list_elem_of_In%List.filter_In.
      by apply Hf, list_elem_of_In.
    + pose proof (enabled_filter cont (rs_Records rs)) as He.
      set (rem := List.filter _ _) in *. clearbody rem. case_match eqn:El.
      * destruct rem; [|done].
        destruct (apply_delete (view w1) (record_key r)) as [Ha' Ho].
        eapply step_delete; [done| |done]. etrans; [exact Ha'|]. by rewrite Ha, <- He.
      * destruct (apply_replace (view w1) (record_key r) (rs_TTL rs) rem) as [Ha' Ho].
        eapply step_delete; [done| |done]. etrans; [exact Ha'|]. by rewrite Ha, <- He.
  - injection Hk as <- <-. split; [by left|]. intros _. apply Hnone; [done|].
    rewrite Ha. unfold enabled. intros Hin.
    apply elem_of_list_to_set, list_elem_of_fmap in Hin as (ar & -> & Hin).
    apply list_elem_of_In, List.filter_In in Hin as [Hin _].
    assert (existsb (λ ar0, ar_Content ar0 == ar_Content ar) (rs_Records rs) = true) as E2; [|congruence].
    apply existsb_exists. exists ar. by rewrite String.eqb_refl.
Qed.

Lemma Update_refines e d w res w' :
  input_ok e → input_ok d → pp_Update p e d w = (res, w') →
  (view w' = view w ∨ zone_step (OpUpdate e d) (view w) (view w')) ∧
  (res = inl tt → zone_step (OpUpdate e d) (view w) (view w')).
Proof using PowerDNSServer0 Httl.
  intros He (Hh & Ht & Hc) Hr. unfold pp_Update in Hr. rewrite io_bind_run, io_wrap_run in Hr.
  unfold io_lift at 1 in Hr. destruct (recordContent d) as [cd|err] eqn:Ed.
  2:{ injection Hr as <- <-. by split; [left|]. }
  eapply read_then; [exact Hr|]. intros ce rs w1 E Hv Hl Hk. cbv beta in Hk.
  pose proof (recordContent_type _ _ Ed) as Hty. pose proof (read_active _ _ _ _ Hl) as [Ha Hf].
  change (active (view w) (record_key d) = enabled (from_option rs_Records [] rs)) in Ha.
  destruct rs as [rs|]; [|by injection Hk as <- <-; split; [left|]].
  simpl in Ha, Hf. destruct (existsb _ _) eqn:Ex; simpl in Hk.
  2:{ injection Hk as <- <-. by split; [left|]. }
  rewrite <- Hv in *. eapply patched; [|exact Hk|].
  - apply set_ok; auto using record_ttl_ok. by apply (swap_content_Forall ascii_text); auto.
  - destruct (apply_replace (view w1) (record_key d) (record_ttl p d)
                (swap_content ce cd false (rs_Records rs))) as [Ha' Ho].
    eapply step_update; [done|done| |done]. etrans; [exact Ha'|]. rewrite Ha, enabled_swap. simpl.
    assert (existsb (λ ar, (ar_Content ar == ce) || (ar_Content ar == cd)) (rs_Records rs) = true) as ->.
    { apply existsb_exists in Ex as (ar & Hin & Har). apply existsb_exists. exists ar. by rewrite Har. }
    set_unfold. intros x. destruct (decide (x = cd)); naive_solver.
Qed.

(** C19. A change that succeeds is made, and a change that fails is made whole or
    not at all; no other name and type is touched. *)
Theorem powerdns_refines o w res w' :
  op_ok o → run_op p o w = (res, w') →
  (view w' = view w ∨ zone_step o (view w) (view w')) ∧
  (res = inl tt → zone_step o (view w) (view w')).
Proof using PowerDNSServer0 Httl.
  destruct o as [r|r|e d]; simpl.
  - apply Create_refines.
  - apply Delete_refines.
  - intros [He Hd]. by apply Update_refines.
Qed.

(** *** Listing *)

(** What is listed is what is served. *)
Lemma List_served w l w' :
  pp_List p w = (inl l, w') →
  ∀ h t target srv,
    (∃ r, r ∈ l ∧ r_Hostname r = h ∧ r_Type r = t ∧ r_Target r = target ∧ r_SRV r = srv) ↔
    ∃ n x, stripDot n = h ∧ SupportsRecordType pp_Capabilities t = true ∧
      x ∈ active (view w) (n, t) ∧ decodeContent t x = inl (target, srv).
Proof using PowerDNSServer0.
  unfold pp_List. rewrite io_bind_run, io_wrap_run. destruct (GetZone c zone w) as [[z|e] w1] eqn:E; [|done].
  apply GetZone_view in E as [_ Hz]. destruct (Hz z eq_refl) as [[_ Hd] _].
  intros [= <- _] h t target srv. split.
  - intros (r & Hin & <- & <- & <- & <-).
    apply list_elem_of_In, in_concat in Hin as (rl & (rs & <- & Hrs)%in_map_iff & Hr).
    apply list_elem_of_In, elem_rrset_records in Hr as (Hs & [x d] & Hx & Hf & tgt & srv & He & ->).
    simpl in *. subst d. exists (rs_Name rs), x. split_and!; try done.
    apply elem_active. exists (rs_TTL rs), (rs_Records rs). split; [|done].
    apply Hd. exists rs. by rewrite list_elem_of_In.
  - intros (n & x & <- & Hs & (ttl & rl & (rs & Hrs & [= -> ->] & [= -> ->])%Hd & Hx)%elem_active & He).
    eexists. split.
    + apply list_elem_of_In, in_concat. exists (rrset_records rs). split.
      * apply in_map_iff. exists rs. by rewrite <- list_elem_of_In.
      * apply list_elem_of_In, elem_rrset_records. split; [done|]. eauto 10.
    + done.
Qed.

(** A record that was created is in the next list, under its name without the
    final dot. *)
Theorem created_is_listed r w1 w2 w3 l :
  input_ok r → content_ok r → pp_Create p r w1 = (inl tt, w2) → pp_List p w2 = (inl l, w3) →
  ∃ r', r' ∈ l ∧ r_Hostname r' = stripDot (canonicalize (r_Hostname r)) ∧ r_Type r' = r_Type r ∧
    r_Target r' = r_Target r ∧ (r_Type r = RecordTypeSRV → r_SRV r' = r_SRV r).
Proof using PowerDNSServer0 Httl.
  intros Hi Ho Hc Hl. apply Create_refines in Hc as [_ Hc]; [|done]. specialize (Hc eq_refl).
  inversion Hc as [r0 x m m' E Ha _| |]; subst.
  destruct (List_served _ _ _ Hl (stripDot (canonicalize (r_Hostname r))) (r_Type r)
              (r_Target r) (if r_Type r == RecordTypeSRV then r_SRV r else None)) as [_ Hs].
  destruct Hs as (r' & Hin & Hh & Ht & Hg & Hv).
  { exists (canonicalize (r_Hostname r)), x. split_and!; [done|by eapply recordContent_supported| |].
    - change (x ∈ active (view w2) (record_key r)). rewrite Ha. set_solver.
    - by apply decode_recordContent. }
  exists r'. split_and!; try done. intros Hsrv. by rewrite Hv, Hsrv.
Qed.
End Refinement.

(** ** A server in memory

    It holds one zone and answers every other request with 404; a document it
    does not read, or cannot write, is an error of the server. *)
#[local] Instance rrset_ok_dec r : Decision (rrset_ok r).
Proof. unfold rrset_ok, ascii_text. apply _. Defined.

Definition zone_list (m : zone_map) : list rrset :=
  map (λ e, mkRRset e.1.1 e.1.2 e.2.1 "" e.2.2) (map_to_list m).

Definition zone_json (m : zone_map) : json :=
  JObj [("name", JStr ""); ("rrsets", rrsets_json (zone_list m))].

Definition dec_patch : decoder (list rrset) :=
  dec_struct [mk_field "rrsets" id (λ v _, v) (dec_list zero_rrset dec_rrset)].

#[local] Existing Instance no_json_errors.

Definition server_do (url : string) (rq : HTTPRequest) (m : zone_map) : HTTPResponse * zone_map :=
  if rq_URL rq != url then (answer 404 "Not Found", m)
  else if rq_Method rq == "GET" then
    if decide (Forall rrset_ok (zone_list m)) then (answer 200 (print (zone_json m)), m)
    else (answer 500 "", m)
  else
    match Unmarshal dec_patch [] (rq_Body rq) with
    | inl rrs => (answer 204 "", apply_changes m rrs)
    | inr _ => (answer 422 "", m)
    end.

Definition memory_http (url : string) : HttpClient zone_map := {|
  http_NewRequest _ _ := None;
  http_Do rq m := let '(a, m') := server_do url rq m in (inl a, m')
|}.

(** What it writes is read. *)
Lemma pd_wf_record_json r : ascii_text (ar_Content r) → wf_json 1 (record_json r).
Proof. intros H. apply (wf_obj 0). repeat constructor; done. Qed.

Lemma wf_rrset_json r : rrset_ok r → wf_json 3 (rrset_json r).
Proof.
  intros (Hn & Ht & Hc & _ & Hr). apply (wf_obj 2). rewrite !Forall_app. split_and!.
  - by repeat constructor.
  - unfold omit_int. case_match; [constructor|]. apply Forall_singleton. split; [done|constructor].
  - unfold omit_string. case_match; [constructor|]. apply Forall_singleton. split; [done|by constructor].
  - destruct (rs_Records r) as [|a l] eqn:E; [constructor|]. apply Forall_singleton. split; [done|].
    apply (wf_arr 1). apply Forall_fmap. rewrite <- E in *. eapply Forall_impl; [exact Hr|].
    intros ar. apply pd_wf_record_json.
Qed.

Lemma wf_rrsets_json l : Forall rrset_ok l → wf_json 4 (rrsets_json l).
Proof.
  intros H. apply (wf_arr 3), Forall_fmap. eapply Forall_impl; [exact H|]. intros r. apply wf_rrset_json.
Qed.

Lemma pd_dec_record_json r : dec_record zero_record (record_json r) = Some r.
Proof. by destruct r. Qed.

Lemma dec_rrset_json r : rrset_ok r → dec_rrset zero_rrset (rrset_json r) = Some r.
Proof.
  destruct r as [n t ttl ch recs]. intros (_ & _ & _ & Ht & _). simpl in Ht.
  unfold dec_rrset, dec_struct, rrset_json. cbn [rs_Name rs_Type rs_TTL rs_ChangeType rs_Records].
  set (F := λ k a j, _).
  rewrite (dec_members_app F _ (mkRRset n t 0 "" [])) by done.
  rewrite (dec_members_app F _ (mkRRset n t ttl "" [])).
  2:{ unfold omit_int. destruct (ttl =? 0)%Z eqn:E; [by apply Z.eqb_eq in E as ->|].
      change (dec_members F _ _) with
        (a ← (b ← dec_int 0%Z (JInt ttl); Some (mkRRset n t b "" [])); Some a).
      by rewrite dec_int_JInt. }
  rewrite (dec_members_app F _ (mkRRset n t ttl ch [])).
  2:{ unfold omit_string. destruct (ch == "") eqn:E; [by apply String.eqb_eq in E as ->|done]. }
  destruct recs as [|a recs]; [done|].
  change (dec_members F _ _) with
    (a' ← (b ← dec_all zero_record dec_record (map record_json (a :: recs)); Some (mkRRset n t ttl ch b)); Some a').
  rewrite dec_all_map; [done|]. apply Forall_true. intros x. apply pd_dec_record_json.
Qed.

Lemma dec_rrsets_json l : Forall rrset_ok l → dec_list zero_rrset dec_rrset [] (rrsets_json l) = Some l.
Proof.
  intros H. apply dec_all_map. eapply Forall_impl; [exact H|]. intros r. apply dec_rrset_json.
Qed.

Lemma zone_list_denotes m : denotes (zone_list m) m.
Proof.
  unfold zone_list. split.
  - rewrite map_map. rewrite (map_ext _ fst); [apply NoDup_fst_map_to_list|]. by intros [[n t] [ttl l]].
  - intros [n t] [ttl l]. rewrite <- elem_of_map_to_list. split.
    + intros Hin. exists (mkRRset n t ttl "" l). split; [|done].
      apply list_elem_of_fmap. by exists ((n, t), (ttl, l)).
    + intros (r & ([[n' t'] [ttl' l']] & -> & Hin)%list_elem_of_fmap & [= -> ->] & [= -> ->]). done.
Qed.

Lemma memory_get m :
  Forall rrset_ok (zone_list m) →
  Unmarshal dec_zone (mkZone "" []) (print (zone_json m)) = inl (mkZone "" (zone_list m)).
Proof.
  intros H. rewrite (Unmarshal_print _ _ 5); [|apply (wf_obj 4)|done].
  - change (dec_zone _ (zone_json m)) with
      (z ← (b ← dec_list zero_rrset dec_rrset [] (rrsets_json (zone_list m)); Some (mkZone "" b)); Some z).
    by rewrite dec_rrsets_json.
  - repeat constructor; try done. by apply wf_rrsets_json.
Qed.

Lemma memory_patch rrs :
  Forall rrset_ok rrs → Unmarshal dec_patch [] (print (patch_json rrs)) = inl rrs.
Proof.
  intros H. rewrite (Unmarshal_print _ _ 5); [|apply (wf_obj 4)|done].
  - change (dec_patch _ (patch_json rrs)) with
      (z ← (b ← dec_list zero_rrset dec_rrset [] (rrsets_json rrs); Some b); Some z).
    by rewrite dec_rrsets_json.
  - repeat constructor; try done. by apply wf_rrsets_json.
Qed.

(** It is a server as the provider expects one. *)
Lemma pd_memory_server c zone :
  @PowerDNSServer zone_map (memory_http (cl_baseURL c ++s zonePath c zone)) no_json_errors c zone id.
Proof.
  split; intros w.
  - intros r w'. cbn [http_Do memory_http]. unfold server_do. cbn [rq_URL rq_Method api_request].
    rewrite String.eqb_refl. cbn [negb]. change ("GET" == "GET") with true. cbn iota.
    case_decide as Hok; intros [= <- <-]; (split; [reflexivity|]); intros resp body z Hr.
    + injection Hr as <-. intros _ Hb. apply ReadBody_answer in Hb as ->.
      intros Hz. pose proof (memory_get w Hok) as Hm. injection (eq_trans (eq_sym Hm) Hz) as <-. split; [apply zone_list_denotes|exact Hok].
    + by injection Hr as <-.
  - intros rrs r w' Hok. cbn [http_Do memory_http]. unfold server_do.
    change (rq_URL _) with (cl_baseURL c ++s zonePath c zone). change (rq_Method _) with "PATCH".
    rewrite String.eqb_refl. cbn [negb]. change ("PATCH" == "GET") with false. cbn iota.
    change (rq_Body _) with (print (patch_json rrs)). rewrite (memory_patch rrs Hok). intros [= <- <-].
    split; [right; reflexivity|intros; reflexivity].
Qed.

(** ** Scenario: a name with a record that is served and one that is not *)

Definition demo : PProvider :=
  mkPProvider "pdns" "example.com" "localhost" 300 (NewClient "http://ns1:8081/" "key" "localhost").

#[local] Instance demo_http : HttpClient zone_map :=
  memory_http (cl_baseURL (pp_client demo) ++s zonePath (pp_client demo) (pp_zone demo)).
#[local] Instance demo_server : PowerDNSServer (pp_client demo) (pp_zone demo) id :=
  pd_memory_server _ _.

Definition demo_zone : zone_map :=
  {[("app.example.com.", "A") := (60%Z, [mkApiRecord "192.0.2.1" false; mkApiRecord "192.0.2.9" true])]}.

Definition a_record (target : string) : DNSRecord :=
  mkRecord "app.example.com" RecordTypeA target 120 "" None None ∅.

Definition srv_record : DNSRecord :=
  mkRecord "_http._tcp.example.com" RecordTypeSRV "app.example.com" 0 "" (Some (mkSRVData 10 5 8080)) None ∅.

Example demo_runs :
  let w1 := (pp_Create demo (a_record "192.0.2.2") demo_zone).2 in
  let w2 := (pp_Update demo (a_record "192.0.2.1") (a_record "192.0.2.9") w1).2 in
  let w3 := (pp_Delete demo (a_record "192.0.2.2") w2).2 in
  (map (map snd ∘ map_to_list) [w1; w2; w3] : list (list (Z * list apiRecord))) =
  [[(120%Z, [mkApiRecord "192.0.2.1" false; mkApiRecord "192.0.2.9" true; mkApiRecord "192.0.2.2" false])];
   [(120%Z, [mkApiRecord "192.0.2.9" false; mkApiRecord "192.0.2.2" false])];
   [(120%Z, [mkApiRecord "192.0.2.9" false])]].
Proof. by vm_compute. Qed.

(** A TTL of 0 passes validation, and is left out of the document. *)
Example ttl_zero_omitted :
  (Config_Validate (mkConfig "http://ns1:8081" "key" "example.com" "localhost" 0),
   print (rrset_json (mkRRset "a." "A" 0 "REPLACE" [])))
  = (None, "{" ++s dq "name" ++s ":" ++s dq "a." ++s "," ++s dq "type" ++s ":" ++s dq "A" ++s ","
           ++s dq "changetype" ++s ":" ++s dq "REPLACE" ++s "}").
Proof. by vm_compute. Qed.

Lemma demo_ttl : (0 ≤ pp_ttl demo < 2 ^ 63)%Z.
Proof. split; [discriminate|reflexivity]. Defined.

Lemma input_ok_1 t : ascii_text t → input_ok (a_record t).
Proof. intros H. split_and!; [done|done|]. by intros c [= <-]. Defined.

Lemma decode_recordContent_witness :
  recordContent srv_record = inl "10 5 8080 app.example.com." ∧
  decodeContent RecordTypeSRV "10 5 8080 app.example.com." = inl ("app.example.com", Some (mkSRVData 10 5 8080)).
Proof.
  split; [vm_compute; reflexivity|].
  apply (decode_recordContent srv_record "10 5 8080 app.example.com."); [vm_compute; reflexivity|].
  split_and!; [done|done|]. intros _. split_and!; [done|done|]. by intros s [= <-].
Defined.

Lemma powerdns_refines_witness :
  let o := OpUpdate (a_record "192.0.2.1") (a_record "192.0.2.9") in
  let w' := (run_op demo o demo_zone).2 in
  (run_op demo o demo_zone).1 = inl tt ∧ zone_step o demo_zone w'.
Proof.
  intros o w'. assert ((run_op demo o demo_zone).1 = inl tt) as E by (vm_compute; reflexivity).
  split; [exact E|].
  destruct (powerdns_refines demo id demo_ttl o demo_zone (run_op demo o demo_zone).1 w')
    as [_ H].
  - split; apply input_ok_1; reflexivity.
  - unfold w'. apply surjective_pairing.
  - exact (H E).
Defined.

Lemma created_is_listed_witness :
  let w' := (pp_Create demo (a_record "192.0.2.2") demo_zone).2 in
  ∃ l r', (pp_List demo w').1 = inl l ∧ r' ∈ l ∧
    r_Hostname r' = "app.example.com" ∧ r_Target r' = "192.0.2.2".
Proof.
  intros w'.
  assert ((pp_Create demo (a_record "192.0.2.2") demo_zone).1 = inl tt) as Hc by (vm_compute; reflexivity).
  destruct (runs_inl (pp_List demo w').1) as [l Hl]; [vm_compute; reflexivity|].
  destruct (created_is_listed demo id demo_ttl (a_record "192.0.2.2") demo_zone w' (pp_List demo w').2 l)
    as (r' & Hin & Hh & _ & Ht & _).
  - apply input_ok_1. reflexivity.
  - split_and!; intros; discriminate.
  - exact (pair_inl _ _ _ Hc).
  - exact (pair_inl _ _ _ Hl).
  - exists l, r'. split; [exact Hl|]. split; [exact Hin|]. split; [exact Hh|exact Ht].
Defined.
