(* ===== verification/Cloudflare.v ===== *)
(** * The Cloudflare provider (providers/cloudflare)

    The client of the API and the provider's operations.  The ID of the zone
    is looked up once and kept, with the error of a lookup that failed.  The
    server is reached through [HttpClient]; logging is left out.  Not
    modelled: the constructor [NewFromMap], which the program does not call. *)
From S2P Require Import Prelude GoStrings GoMaps Errors ProviderTypes Effects Registry.
From S2P Require Import DnsConfig IO Http Json Dnsmasq.
From Stdlib Require Import ZArith.

(** ** Data (client.go) *)

Definition DefaultAPIEndpoint : string := "https://api.cloudflare.com/client/v4".

Record apiError := mkApiError { ae_Code : Z; ae_Message : string }.

(** The messages have the shape of the errors. *)
Record apiResponse := mkApiResponse {
  ar_Success : bool;
  ar_Errors : list apiError;
  ar_Messages : list apiError;
  ar_Result : option json
}.

Record zoneResult := mkZoneResult { zr_ID : string; zr_Name : string; zr_Status : string }.

Record srvRecordData := mkSrvRecordData {
  sd_Priority : Z;
  sd_Weight : Z;
  sd_Port : Z;
  sd_Target : string;
  sd_Service : string;
  sd_Proto : string;
  sd_Name : string
}.

Record dnsRecord := mkDnsRecord {
  cr_ID : string;
  cr_Type : string;
  cr_Name : string;
  cr_Content : string;
  cr_TTL : Z;
  cr_Proxied : bool;
  cr_ZoneID : string;
  cr_Data : nilable srvRecordData
}.

Record createRecordRequest := mkCreateRequest {
  rq_Type : string;
  rq_Name : string;
  rq_Content : string;
  rq_TTL : Z;
  rq_Proxied : bool;
  rq_Data : nilable srvRecordData
}.

Definition zero_srv : srvRecordData := mkSrvRecordData 0 0 0 "" "" "" "".
Definition zero_record : dnsRecord := mkDnsRecord "" "" "" "" 0 false "" None.

Definition dec_error : decoder apiError :=
  dec_struct
    [mk_field "code" ae_Code (λ v e, mkApiError v (ae_Message e)) dec_int;
     mk_field "message" ae_Message (λ v e, mkApiError (ae_Code e) v) dec_string].

Definition dec_response : decoder apiResponse :=
  dec_struct
    [mk_field "success" ar_Success (λ v r, mkApiResponse v (ar_Errors r) (ar_Messages r) (ar_Result r)) dec_bool;
     mk_field "errors" ar_Errors (λ v r, mkApiResponse (ar_Success r) v (ar_Messages r) (ar_Result r))
       (dec_list (mkApiError 0 "") dec_error);
     mk_field "messages" ar_Messages (λ v r, mkApiResponse (ar_Success r) (ar_Errors r) v (ar_Result r))
       (dec_list (mkApiError 0 "") dec_error);
     mk_field "result" ar_Result (λ v r, mkApiResponse (ar_Success r) (ar_Errors r) (ar_Messages r) v) dec_any].

Definition dec_zone : decoder zoneResult :=
  dec_struct
    [mk_field "id" zr_ID (λ v z, mkZoneResult v (zr_Name z) (zr_Status z)) dec_string;
     mk_field "name" zr_Name (λ v z, mkZoneResult (zr_ID z) v (zr_Status z)) dec_string;
     mk_field "status" zr_Status (λ v z, mkZoneResult (zr_ID z) (zr_Name z) v) dec_string].

Definition dec_srv : decoder srvRecordData :=
  dec_struct
    [mk_field "priority" sd_Priority (λ v d, mkSrvRecordData v (sd_Weight d) (sd_Port d) (sd_Target d) (sd_Service d) (sd_Proto d) (sd_Name d)) dec_uint16;
     mk_field "weight" sd_Weight (λ v d, mkSrvRecordData (sd_Priority d) v (sd_Port d) (sd_Target d) (sd_Service d) (sd_Proto d) (sd_Name d)) dec_uint16;
     mk_field "port" sd_Port (λ v d, mkSrvRecordData (sd_Priority d) (sd_Weight d) v (sd_Target d) (sd_Service d) (sd_Proto d) (sd_Name d)) dec_uint16;
     mk_field "target" sd_Target (λ v d, mkSrvRecordData (sd_Priority d) (sd_Weight d) (sd_Port d) v (sd_Service d) (sd_Proto d) (sd_Name d)) dec_string;
     mk_field "service" sd_Service (λ v d, mkSrvRecordData (sd_Priority d) (sd_Weight d) (sd_Port d) (sd_Target d) v (sd_Proto d) (sd_Name d)) dec_string;
     mk_field "proto" sd_Proto (λ v d, mkSrvRecordData (sd_Priority d) (sd_Weight d) (sd_Port d) (sd_Target d) (sd_Service d) v (sd_Name d)) dec_string;
     mk_field "name" sd_Name (λ v d, mkSrvRecordData (sd_Priority d) (sd_Weight d) (sd_Port d) (sd_Target d) (sd_Service d) (sd_Proto d) v) dec_string].

Definition dec_record : decoder dnsRecord :=
  dec_struct
    [mk_field "id" cr_ID (λ v r, mkDnsRecord v (cr_Type r) (cr_Name r) (cr_Content r) (cr_TTL r) (cr_Proxied r) (cr_ZoneID r) (cr_Data r)) dec_string;
     mk_field "type" cr_Type (λ v r, mkDnsRecord (cr_ID r) v (cr_Name r) (cr_Content r) (cr_TTL r) (cr_Proxied r) (cr_ZoneID r) (cr_Data r)) dec_string;
     mk_field "name" cr_Name (λ v r, mkDnsRecord (cr_ID r) (cr_Type r) v (cr_Content r) (cr_TTL r) (cr_Proxied r) (cr_ZoneID r) (cr_Data r)) dec_string;
     mk_field "content" cr_Content (λ v r, mkDnsRecord (cr_ID r) (cr_Type r) (cr_Name r) v (cr_TTL r) (cr_Proxied r) (cr_ZoneID r) (cr_Data r)) dec_string;
     mk_field "ttl" cr_TTL (λ v r, mkDnsRecord (cr_ID r) (cr_Type r) (cr_Name r) (cr_Content r) v (cr_Proxied r) (cr_ZoneID r) (cr_Data r)) dec_int;
     mk_field "proxied" cr_Proxied (λ v r, mkDnsRecord (cr_ID r) (cr_Type r) (cr_Name r) (cr_Content r) (cr_TTL r) v (cr_ZoneID r) (cr_Data r)) dec_bool;
     mk_field "zone_id" cr_ZoneID (λ v r, mkDnsRecord (cr_ID r) (cr_Type r) (cr_Name r) (cr_Content r) (cr_TTL r) (cr_Proxied r) v (cr_Data r)) dec_string;
     mk_field "data" cr_Data (λ v r, mkDnsRecord (cr_ID r) (cr_Type r) (cr_Name r) (cr_Content r) (cr_TTL r) (cr_Proxied r) (cr_ZoneID r) v)
       (dec_ptr zero_srv dec_srv)].

Definition srv_json (d : srvRecordData) : json :=
  JObj ([("priority", JInt (sd_Priority d)); ("weight", JInt (sd_Weight d)); ("port", JInt (sd_Port d));
         ("target", JStr (sd_Target d))]
        ++ omit_string "service" (sd_Service d) ++ omit_string "proto" (sd_Proto d)
        ++ omit_string "name" (sd_Name d)).

Definition request_json (r : createRecordRequest) : json :=
  JObj ([("type", JStr (rq_Type r)); ("name", JStr (rq_Name r))]
        ++ omit_string "content" (rq_Content r)
        ++ [("ttl", JInt (rq_TTL r)); ("proxied", JBool (rq_Proxied r))]
        ++ omit_nil "data" (srv_json <$> rq_Data r)).

(** ** The client (client.go) *)

Record Client := mkClient { cl_apiEndpoint : string; cl_token : string }.

(** [NewClient] with the endpoint of the option [WithAPIEndpoint], if given. *)
Definition NewClient (token : string) (endpoint : option string) : Client :=
  mkClient (default DefaultAPIEndpoint endpoint) token.

Definition api_request (c : Client) (method path body : string) : HTTPRequest :=
  mkRequest method (cl_apiEndpoint c ++s path)
    [("Authorization", "Bearer " ++s cl_token c); ("Content-Type", "application/json")] body.

Definition api_error_text (e : apiError) : error :=
  ENew ("API error: " ++s ae_Message e ++s " (code: " ++s itoa (ae_Code e) ++s ")").

Definition records_path (zoneID : string) : string := "/zones/" ++s zoneID ++s "/dns_records".
Definition record_path (zoneID recordID : string) : string := records_path zoneID ++s "/" ++s recordID.
Definition find_path (zoneID recordType name : string) : string :=
  records_path zoneID ++s "?" ++s Encode {["type" := recordType; "name" := name]}.

Section Client.
Context {W : Type} `{HttpClient W} `{JsonErrors} (c : Client).

(** The error of an answer that is not one of the two hundreds. *)
Definition status_error (status : Z) (body : string) : error :=
  match Unmarshal dec_response (mkApiResponse false [] [] None) body with
  | inl (mkApiResponse _ (e :: _) _ _) =>
      if (ae_Code e =? 81053)%Z || (ae_Code e =? 81058)%Z then ESentinel ErrConflict
      else if (ae_Code e =? 81057)%Z
              || (Contains (ToLower (ae_Message e)) "cname" && Contains (ToLower (ae_Message e)) "cannot")
           then ESentinel ErrTypeConflict
      else api_error_text e
  | _ => ENew ("unexpected status code " ++s itoa status ++s ": " ++s body)
  end.

Definition doRequest (method path body : string) : IO W apiResponse :=
  match http_NewRequest method (cl_apiEndpoint c ++s path) with
  | Some err => io_fail (EWrapf "creating request: " err)
  | None =>
      resp ← io_wrap (EWrapf "executing request: ") (http_Do (api_request c method path body));
      respBody ← io_wrap (EWrapf "reading response body: ") (io_lift (ReadBody resp 0));
      if (StatusCode resp <? 200)%Z || (300 <=? StatusCode resp)%Z
      then io_fail (status_error (StatusCode resp) respBody)
      else
        a ← io_wrap (EWrapf "parsing response JSON: ")
              (io_lift (Unmarshal dec_response (mkApiResponse false [] [] None) respBody));
        if negb (ar_Success a) then
          match ar_Errors a with
          | e :: _ => io_fail (api_error_text e)
          | [] => io_fail (ENew "API request failed with unknown error")
          end
        else mret a
  end.

Definition client_Ping : IO W unit :=
  _ ← io_wrap (EWrapf "ping failed: ") (doRequest "GET" "/user/tokens/verify" ""); mret tt.

(** [json.Unmarshal(resp.Result, &records)]; without a result there is no text. *)
Definition unmarshal_result {A} (zero : A) (d : decoder A) (a : apiResponse) : list A + error :=
  match ar_Result a ≫= dec_list zero d [] with
  | Some l => inl l
  | None => inr (json_error (default "" (print <$> ar_Result a)))
  end.

(** The loop of [GetZoneID] over the names of the domain's ancestors, the top
    one left out: the first that is a zone, errors or not. *)
Fixpoint find_zone (parts : list string) : IO W (option string) :=
  match parts with
  | [] | [_] => mret None
  | _ :: rest =>
      let params : gmap string string := {["name" := Join "." parts; "status" := "active"]} in
      resp ← io_try (doRequest "GET" ("/zones?" ++s Encode params) "");
      match resp with
      | inr _ => find_zone rest
      | inl resp =>
          match unmarshal_result (mkZoneResult "" "" "") dec_zone resp with
          | inl (z :: _) => mret (Some (zr_ID z))
          | _ => find_zone rest
          end
      end
  end.

Definition GetZoneID (domain : string) : IO W string :=
  z ← find_zone (Split "." domain);
  match z with
  | Some id => mret id
  | None => io_fail (ENew ("no zone found for domain " ++s domain))
  end.

Definition ListRecords (zoneID recordType : string) : IO W (list dnsRecord) :=
  let params : gmap string string := {["type" := recordType; "per_page" := "100"]} in
  resp ← io_wrap (EWrapf "listing records: ")
           (doRequest "GET" (records_path zoneID ++s "?" ++s Encode params) "");
  io_wrap (EWrapf "parsing records response: ") (io_lift (unmarshal_result zero_record dec_record resp)).

Definition CreateRecord (zoneID recordType name content : string) (ttl : Z) (proxied : bool) : IO W unit :=
  _ ← io_wrap (EWrapf "creating record: ")
        (doRequest "POST" (records_path zoneID)
           (print (request_json (mkCreateRequest recordType name content ttl proxied None))));
  mret tt.

Definition CreateSRVRecord (zoneID name : string) (srv : SRVData) (target : string) (ttl : Z) : IO W unit :=
  let data := mkSrvRecordData (srv_Priority srv) (srv_Weight srv) (srv_Port srv) target "" "" "" in
  _ ← io_wrap (EWrapf "creating SRV record: ")
        (doRequest "POST" (records_path zoneID)
           (print (request_json (mkCreateRequest "SRV" name "" ttl false (Some data)))));
  mret tt.

Definition DeleteRecord (zoneID recordID : string) : IO W unit :=
  _ ← io_wrap (EWrapf "deleting record: ") (doRequest "DELETE" (record_path zoneID recordID) "");
  mret tt.

Definition UpdateRecord (zoneID recordID recordType name content : string) (ttl : Z) (proxied : bool)
  : IO W unit :=
  _ ← io_wrap (EWrapf "updating record: ")
        (doRequest "PATCH" (record_path zoneID recordID)
           (print (request_json (mkCreateRequest recordType name content ttl proxied None))));
  mret tt.

Definition FindRecord (zoneID recordType name : string) : IO W (nilable dnsRecord) :=
  resp ← io_wrap (EWrapf "finding record: ") (doRequest "GET" (find_path zoneID recordType name) "");
  records ← io_wrap (EWrapf "parsing records response: ")
              (io_lift (unmarshal_result zero_record dec_record resp));
  mret (head records).
End Client.

(** ** Configuration (config.go) *)

Definition DefaultTTL : Z := 300.

Record Config := mkConfig {
  cfg_Token : string;
  cfg_ZoneID : string;
  cfg_Zone : string;
  cfg_TTL : Z;
  cfg_Proxied : bool
}.

Definition Config_Validate (c : Config) : option error :=
  let ttl := cfg_TTL c in
  let errs :=
    (if cfg_Token c == "" then ["TOKEN is required"] else []) ++
    (if (cfg_ZoneID c == "") && (cfg_Zone c == "") then ["ZONE_ID or ZONE is required"] else []) ++
    (if (ttl <? 0)%Z then ["TTL must be non-negative"] else []) ++
    (if (0 <? ttl)%Z && (ttl <? 60)%Z && negb (ttl =? 1)%Z
     then ["TTL must be at least 60 seconds (or 1 for automatic)"] else []) in
  if (0 <? length errs)%nat
  then Some (ENew ("cloudflare config validation failed: " ++s Join "; " errs)) else None.

Definition parseBool (s : string) : bool :=
  let s := ToLower (TrimSpace s) in
  (s == "true") || (s == "1") || (s == "yes") || (s == "on").

(** The two loaders, which differ in where a setting is looked up; [secret] is
    for those that may be in a file. *)
Definition load_config (get secret : string → string) (instanceName : string) : Config + error :=
  match int_setting "TTL" (get "TTL") DefaultTTL with
  | inr err => inr err
  | inl ttl =>
      let cfg := mkConfig (secret "TOKEN") (get "ZONE_ID") (get "ZONE") ttl
                   (if get "PROXIED" != "" then parseBool (get "PROXIED") else true) in
      match Config_Validate cfg with
      | Some err => inr (EWrapf ("configuration for " ++s instanceName ++s ": ") err)
      | None => inl cfg
      end
  end.

Definition LoadConfigFromMap (instanceName : string) (m : gmap string string) : Config + error :=
  load_config (setting m) (setting m) instanceName.

(** [getEnvOrFile] and [envPrefix] are those of the dnsmasq provider, text for
    text. *)
Definition LoadConfig (Getenv : string → string) (ReadSecret : string → string + error)
    (instanceName : string) : Config + error :=
  let prefix := envPrefix instanceName in
  load_config (λ key, Getenv (prefix ++s key))
    (λ key, getEnvOrFile Getenv ReadSecret (prefix ++s key) (prefix ++s key ++s "_FILE"))
    instanceName.

(** ** The provider (provider.go) *)

(** The fields that do not change. *)
Record CProvider := mkCProvider {
  cp_name : string;
  cp_zone : string;
  cp_ttl : Z;
  cp_proxied : bool;
  cp_client : Client
}.

(** Those that do: the zone's ID, whether it was looked up, and the error. *)
Record ZoneState := mkZoneState {
  zs_zoneID : string;
  zs_once : bool;
  zs_err : option error
}.

Definition cp_Capabilities : Capabilities :=
  mkCapabilities true true
    [RecordTypeA; RecordTypeAAAA; RecordTypeCNAME; RecordTypeSRV; RecordTypeTXT].

Definition cp_Identity (p : CProvider) (s : ZoneState) : ProviderIdentity :=
  mkIdentity "cloudflare" "" (if zs_zoneID s == "" then cp_zone p else zs_zoneID s).

Definition resolveProxied (p : CProvider) (record : DNSRecord) : bool :=
  if (r_Type record == RecordTypeTXT) || (r_Type record == RecordTypeSRV) then false
  else match r_Metadata record !! "proxied" with
       | Some v => parseBool v
       | None => cp_proxied p
       end.

Definition proxiedMetadata (proxied : bool) : gmap string string :=
  {["proxied" := (if proxied then "true" else "false")]}.

(** The TTL that is sent: 1 stands for automatic. *)
Definition effective_ttl (p : CProvider) (record : DNSRecord) : Z :=
  let ttl := if (r_TTL record <=? 0)%Z then cp_ttl p else r_TTL record in
  if resolveProxied p record && (ttl <? 60)%Z then 1 else ttl.

(** A record of the API as [List] gives it, by the type it was asked for. *)
Definition listed (t : RecordType) (r : dnsRecord) : DNSRecord :=
  if t == RecordTypeTXT then mkRecord (cr_Name r) t (cr_Content r) (cr_TTL r) (cr_ID r) None None ∅
  else if t == RecordTypeSRV then
    match cr_Data r with
    | Some d => mkRecord (cr_Name r) t (sd_Target d) (cr_TTL r) (cr_ID r)
                  (Some (mkSRVData (sd_Priority d) (sd_Weight d) (sd_Port d))) None ∅
    | None => mkRecord (cr_Name r) t (cr_Content r) (cr_TTL r) (cr_ID r) None None ∅
    end
  else mkRecord (cr_Name r) t (cr_Content r) (cr_TTL r) (cr_ID r) None None (proxiedMetadata (cr_Proxied r)).

Section Provider.
Context {W : Type} `{HttpClient W} `{JsonErrors} (p : CProvider).
Implicit Types (A : Type).

#[local] Notation COp := (IO (W * ZoneState)).

Definition ZoneID : COp string :=
  s ← get_obj;
  if zs_zoneID s != "" then mret (zs_zoneID s)
  else
    _ ← (if zs_once s then mret tt
         else r ← io_try (net (GetZoneID (cp_client p) (cp_zone p)));
              put_obj (match r with
                       | inl id => mkZoneState id true None
                       | inr err => mkZoneState "" true (Some err)
                       end));
    s ← get_obj;
    match zs_err s with
    | Some err => io_fail err
    | None => mret (zs_zoneID s)
    end.

Definition with_zone {A} (k : string → COp A) : COp A :=
  zoneID ← io_wrap (EWrapf "getting zone ID: ") ZoneID; k zoneID.

Definition cp_Ping : COp unit := net (client_Ping (cp_client p)).

Definition list_type (zoneID : string) (t : RecordType) : COp (list DNSRecord) :=
  l ← io_wrap (EWrapf ("listing " ++s t ++s " records: ")) (net (ListRecords (cp_client p) zoneID t));
  mret (map (listed t) l).

Definition cp_List : COp (list DNSRecord) := with_zone (λ zoneID,
  a ← list_type zoneID RecordTypeA;
  aaaa ← list_type zoneID RecordTypeAAAA;
  cname ← list_type zoneID RecordTypeCNAME;
  txt ← list_type zoneID RecordTypeTXT;
  srv ← list_type zoneID RecordTypeSRV;
  mret (a ++ aaaa ++ cname ++ txt ++ srv)).

Definition cp_Create (record : DNSRecord) : COp unit := with_zone (λ zoneID,
  let t := r_Type record in
  let ttl := effective_ttl p record in
  if t == RecordTypeSRV then
    match r_SRV record with
    | None => io_fail (ENew "creating SRV record: SRV data is required")
    | Some srv =>
        io_wrap (EWrapf "creating SRV record: ")
          (net (CreateSRVRecord (cp_client p) zoneID (r_Hostname record) srv (r_Target record) ttl))
    end
  else
    io_wrap (EWrapf ("creating " ++s t ++s " record: "))
      (net (CreateRecord (cp_client p) zoneID t (r_Hostname record) (r_Target record) ttl
              (resolveProxied p record)))).

Definition find (zoneID : string) (record : DNSRecord) : COp (nilable dnsRecord) :=
  io_wrap (EWrapf "finding record: ")
    (net (FindRecord (cp_client p) zoneID (r_Type record) (r_Hostname record))).

Definition cp_Delete (record : DNSRecord) : COp unit := with_zone (λ zoneID,
  apiRecord ← find zoneID record;
  match apiRecord with
  | None => mret tt
  | Some r =>
      io_wrap (EWrapf ("deleting " ++s r_Type record ++s " record: "))
        (net (DeleteRecord (cp_client p) zoneID (cr_ID r)))
  end).

Definition cp_Update (existing desired : DNSRecord) : COp unit := with_zone (λ zoneID,
  apiRecord ← find zoneID existing;
  match apiRecord with
  | None => io_fail (ESentinel ErrNotFound)
  | Some r =>
      let t := r_Type desired in
      let ttl := effective_ttl p desired in
      if (t == RecordTypeA) || (t == RecordTypeAAAA) || (t == RecordTypeCNAME) || (t == RecordTypeTXT) then
        io_wrap (EWrapf ("updating " ++s t ++s " record: "))
          (net (UpdateRecord (cp_client p) zoneID (cr_ID r) t (r_Hostname desired) (r_Target desired)
                  ttl (resolveProxied p desired)))
      else if t == RecordTypeSRV then
        match r_SRV existing, r_SRV desired with
        | Some _, Some srv =>
            _ ← io_wrap (EWrapf "deleting old SRV record for update: ")
                  (net (DeleteRecord (cp_client p) zoneID (cr_ID r)));
            io_wrap (EWrapf "creating new SRV record for update: ")
              (net (CreateSRVRecord (cp_client p) zoneID (r_Hostname desired) srv (r_Target desired) ttl))
        | _, _ => io_fail (ENew "updating SRV record: SRV data is required")
        end
      else io_fail (ENew ("unsupported record type: " ++s t))
  end).

(** The provider whose state is object [id].  The interface has one identity
    for each provider: the one at its creation, [s0]. *)
Definition cloudflare_provider (id : nat) (s0 : ZoneState) : Provider (OWorld W ZoneState) := {|
  prov_Name := cp_name p;
  prov_Type := "cloudflare";
  prov_Ping := io_error (run_at id cp_Ping);
  prov_Capabilities := cp_Capabilities;
  prov_List := run_at id cp_List;
  prov_Create := λ r, io_error (run_at id (cp_Create r));
  prov_Delete := λ r, io_error (run_at id (cp_Delete r));
  prov_Update := Some (λ e d, io_error (run_at id (cp_Update e d)));
  prov_Identity := Some (cp_Identity p s0);
  prov_Close := None
|}.
End Provider.

Definition New (name : string) (config : nilable Config) : CProvider * ZoneState + error :=
  match config with
  | None => inr (ENew "config is required")
  | Some config =>
      match Config_Validate config with
      | Some err => inr err
      | None =>
          inl (mkCProvider name (cfg_Zone config) (cfg_TTL config) (cfg_Proxied config)
                 (NewClient (cfg_Token config) None),
               mkZoneState (cfg_ZoneID config) false None)
      end
  end.

(** The HTTP client made of the TLS settings is the [HttpClient] at hand. *)
Definition Factory {W} `{HttpClient W} `{JsonErrors} : Registry.Factory (OWorld W ZoneState) := λ cfg w,
  match LoadConfigFromMap (fc_Name cfg) (fc_ProviderConfig cfg) with
  | inr err => (inr err, w)
  | inl c =>
      match New (fc_Name cfg) (Some c) with
      | inr err => (inr err, w)
      | inl (p, s) => (id ← alloc s; mret (cloudflare_provider p id s)) w
      end
  end.
