(* ===== verification/CloudflareSpec.v ===== *)
(** * What the Cloudflare provider promises

    The lookup of the zone happens once; the operations change one record of a
    server that stores records by ID: the first of the name and type. *)
From S2P Require Import Prelude GoStrings GoMaps Errors ProviderTypes Effects Registry.
From S2P Require Import DnsConfig IO Http Json HttpProps Cloudflare.
From Stdlib Require Import ZArith NArith.

(** ** The zone's ID *)

Section Zone.
Context {W : Type} `{HttpClient W} `{JsonErrors} (p : CProvider).

Lemma ZoneID_run w s :
  ZoneID p (w, s) =
  if zs_zoneID s != "" then (inl (zs_zoneID s), (w, s))
  else if zs_once s then
    (match zs_err s with Some e => inr e | None => inl (zs_zoneID s) end, (w, s))
  else
    match GetZoneID (cp_client p) (cp_zone p) w with
    | (inl id, w1) => (inl id, (w1, mkZoneState id true None))
    | (inr e, w1) => (inr e, (w1, mkZoneState "" true (Some e)))
    end.
Proof.
  unfold ZoneID, get_obj, put_obj, io_try, net, mbind, IO_bind. cbv beta iota. cbn [snd fst].
  destruct (zs_zoneID s != ""); [done|]. destruct (zs_once s).
  - simpl. by destruct (zs_err s).
  - cbn [fst snd]. by destruct (GetZoneID _ _ w) as [[id|e] w1].
Qed.

(** Whatever the first call gives, every later one gives too, and sends no
    request. *)
Theorem ZoneID_once w s r w' s' :
  ZoneID p (w, s) = (r, (w', s')) → ∀ w2, ZoneID p (w2, s') = (r, (w2, s')).
Proof.
  intros Hr w2. rewrite ZoneID_run in *. destruct (zs_zoneID s != "") eqn:Ez.
  { injection Hr as <- <- <-. by rewrite Ez. }
  destruct (zs_once s) eqn:Eo.
  { injection Hr as <- <- <-. by rewrite Ez, Eo. }
  destruct (GetZoneID _ _ w) as [[id|e] w1]; injection Hr as <- <- <-; simpl; [by destruct (id != "")|done].
Qed.
End Zone.

(** ** The server

    A zone is a list of records, told apart by their IDs. *)

Definition rec_named (t n : string) (r : dnsRecord) : bool := (cr_Type r == t) && (cr_Name r == n).

Definition ids (l : list dnsRecord) : list string := map cr_ID l.

(** How a server keeps what is sent for a record, which it may write in another
    way: the content, the TTL (of a record that is proxied its own), and the data of
    an SRV record; the first argument is the record that is changed, if any. *)
Definition keeping : Type := nilable dnsRecord → createRecordRequest → dnsRecord → Prop.

(** The record a request makes. *)
Definition made_of (kept : keeping) (zone : string) (old : nilable dnsRecord) (q : createRecordRequest)
    (y : dnsRecord) : Prop :=
  cr_Type y = rq_Type q ∧ cr_Name y = rq_Name q ∧ cr_Proxied y = rq_Proxied q ∧ cr_ZoneID y = zone ∧
  kept old q y.

Definition without (id : string) (l : list dnsRecord) : list dnsRecord :=
  List.filter (λ r, cr_ID r != id) l.

(** What the requests do. *)
Definition posted (kept : keeping) (zone : string) (q : createRecordRequest) (l l' : list dnsRecord) : Prop :=
  ∃ y, (cr_ID y ∉ ids l) ∧ made_of kept zone None q y ∧ l' = l ++ [y].
Definition patched (kept : keeping) (zone id : string) (q : createRecordRequest) (l l' : list dnsRecord) : Prop :=
  ∃ f, (∀ x, x ∈ l → cr_ID x = id → cr_ID (f x) = id ∧ made_of kept zone (Some x) q (f x)) ∧
    l' = map (λ r, if cr_ID r == id then f r else r) l.
Definition deleted (id : string) (l l' : list dnsRecord) : Prop := l' = without id l.

Definition int_ok (z : Z) : Prop := (0 ≤ z < 2 ^ 63)%Z.

Definition srv_ok (d : srvRecordData) : Prop :=
  (0 ≤ sd_Priority d < 2 ^ 16)%Z ∧ (0 ≤ sd_Weight d < 2 ^ 16)%Z ∧ (0 ≤ sd_Port d < 2 ^ 16)%Z ∧
  ascii_text (sd_Target d) ∧ ascii_text (sd_Service d) ∧ ascii_text (sd_Proto d) ∧ ascii_text (sd_Name d).

(** Requests in ASCII with numbers of their width. *)
Definition request_ok (q : createRecordRequest) : Prop :=
  ascii_text (rq_Type q) ∧ ascii_text (rq_Name q) ∧ ascii_text (rq_Content q) ∧ int_ok (rq_TTL q) ∧
  match rq_Data q with Some d => srv_ok d | None => True end.

(** The API's documents and URLs. *)
Definition opt_member (k s : string) : list (string * json) := if s == "" then [] else [(k, JStr s)].
Definition data_document (d : srvRecordData) : json :=
  JObj ([("priority", JInt (sd_Priority d)); ("weight", JInt (sd_Weight d)); ("port", JInt (sd_Port d));
         ("target", JStr (sd_Target d))]
        ++ opt_member "service" (sd_Service d) ++ opt_member "proto" (sd_Proto d) ++ opt_member "name" (sd_Name d)).
Definition document (q : createRecordRequest) : json :=
  JObj ([("type", JStr (rq_Type q)); ("name", JStr (rq_Name q))] ++ opt_member "content" (rq_Content q)
        ++ [("ttl", JInt (rq_TTL q)); ("proxied", JBool (rq_Proxied q))]
        ++ match rq_Data q with Some d => [("data", data_document d)] | None => [] end).
Definition api_url (c : Client) (zone rest : string) : string :=
  cl_apiEndpoint c ++s "/zones/" ++s zone ++s "/dns_records" ++s rest.

(** What the API promises of the zone: reading changes nothing; a search by type
    and name answers the first page of the records found, which is not empty
    unless there are none; a change accepted is made. *)
Class CloudflareServer {W} `{HttpClient W} `{JsonErrors} (c : Client) (zone : string)
    (kept : keeping) (view : W → list dnsRecord) := {
  ch_find t n rq w res w' :
    Http.rq_Method rq = "GET" →
    rq_URL rq = api_url c zone ("?name=" ++s QueryEscape n ++s "&type=" ++s QueryEscape t) →
    http_Do rq w = (res, w') →
    view w' = view w ∧
    ∀ resp a l, res = inl resp → is_2xx (StatusCode resp) = true → BodyErr resp = None →
      Unmarshal dec_response (mkApiResponse false [] [] None) (Body resp) = inl a → ar_Success a = true →
      unmarshal_result zero_record dec_record a = inl l →
      ∃ rest, List.filter (rec_named t n) (view w) = l ++ rest ∧ (l = [] → rest = []);
  ch_post q rq : request_ok q →
    Http.rq_Method rq = "POST" → rq_URL rq = api_url c zone "" → rq_Body rq = print (document q) →
    effect view (posted kept zone q) rq;
  ch_delete id rq :
    Http.rq_Method rq = "DELETE" → rq_URL rq = api_url c zone ("/" ++s id) → effect view (deleted id) rq;
  ch_patch id q rq : request_ok q →
    Http.rq_Method rq = "PATCH" → rq_URL rq = api_url c zone ("/" ++s id) → rq_Body rq = print (document q) →
    effect view (patched kept zone id q) rq
}.

(** *** What the operations do *)

Inductive cf_op :=
| CfCreate (r : DNSRecord)
| CfDelete (r : DNSRecord)
| CfUpdate (existing desired : DNSRecord).

(** The request that a record makes. *)
Definition request_of (p : CProvider) (r : DNSRecord) : createRecordRequest :=
  if r_Type r == RecordTypeSRV then
    mkCreateRequest "SRV" (r_Hostname r) "" (effective_ttl p r) false
      ((λ s, mkSrvRecordData (srv_Priority s) (srv_Weight s) (srv_Port s) (r_Target r) "" "" "") <$> r_SRV r)
  else mkCreateRequest (r_Type r) (r_Hostname r) (r_Target r) (effective_ttl p r) (resolveProxied p r) None.

(** The record that a deletion and an update take: the first of the name and
    type, whatever its content. *)
Definition victim (r : DNSRecord) (l : list dnsRecord) : option dnsRecord :=
  List.find (rec_named (r_Type r) (r_Hostname r)) l.

(** The last rule: an update of an SRV record is a deletion, then a creation. *)
Inductive cf_step (kept : keeping) (p : CProvider) (zone : string)
  : cf_op → list dnsRecord → list dnsRecord → Prop :=
| cf_create r l l' : posted kept zone (request_of p r) l l' → cf_step kept p zone (CfCreate r) l l'
| cf_delete_none r l : victim r l = None → cf_step kept p zone (CfDelete r) l l
| cf_delete r x l : victim r l = Some x → cf_step kept p zone (CfDelete r) l (without (cr_ID x) l)
| cf_update e d x l l' :
    victim e l = Some x → r_Type d ≠ RecordTypeSRV → patched kept zone (cr_ID x) (request_of p d) l l' →
    cf_step kept p zone (CfUpdate e d) l l'
| cf_update_srv e d x l l' :
    victim e l = Some x → r_Type d = RecordTypeSRV →
    posted kept zone (request_of p d) (without (cr_ID x) l) l' → cf_step kept p zone (CfUpdate e d) l l'.

(** What a failed operation may leave: nothing, its change, or of an SRV
    update the deletion alone. *)
Definition cf_failed (kept : keeping) (p : CProvider) (zone : string) (o : cf_op) (l l' : list dnsRecord) : Prop :=
  l' = l ∨ cf_step kept p zone o l l' ∨
  ∃ e d x, o = CfUpdate e d ∧ r_Type d = RecordTypeSRV ∧ victim e l = Some x ∧ l' = without (cr_ID x) l.

Definition cf_run {W} `{HttpClient W} `{JsonErrors} (p : CProvider) (o : cf_op)
  : IO (W * ZoneState) unit :=
  match o with
  | CfCreate r => cp_Create p r
  | CfDelete r => cp_Delete p r
  | CfUpdate e d => cp_Update p e d
  end.

Definition cf_op_ok (p : CProvider) (o : cf_op) : Prop :=
  match o with
  | CfCreate r | CfUpdate _ r => request_ok (request_of p r)
  | CfDelete _ => True
  end.

(** The provider's paths and documents are the API's. *)
Lemma request_document q : request_json q = document q.
Proof. unfold request_json, document, omit_nil. by destruct (rq_Data q). Qed.

Lemma query_text (t n : string) :
  Encode {["type" := t; "name" := n]} = "name=" ++s QueryEscape n ++s "&type=" ++s QueryEscape t.
Proof. unfold Encode. by vm_compute. Qed.

(** A request, in the terms of its answer. *)
Lemma cf_doRequest_answer {W} `{HttpClient W} `{JsonErrors} c m path body w r w' :
  doRequest c m path body w = (r, w') →
  (w' = w ∧ ∃ e, r = inr e) ∨
  ∃ res, http_Do (api_request c m path body) w = (res, w') ∧
    ∀ a, r = inl a → ∃ resp, res = inl resp ∧ is_2xx (StatusCode resp) = true ∧ BodyErr resp = None ∧
      Unmarshal dec_response (mkApiResponse false [] [] None) (Body resp) = inl a ∧ ar_Success a = true.
Proof.
  unfold doRequest. destruct (http_NewRequest _ _) as [e|]; [intros [= <- <-]; left; by eauto|].
  rewrite io_bind_run, io_wrap_run. destruct (http_Do _ w) as [[resp|e] w1]; simpl;
    [|intros [= <- <-]; right; by eexists].
  rewrite io_bind_run, io_wrap_run. unfold io_lift, ReadBody.
  destruct (_ <? Z.of_nat _)%Z; [intros [= <- <-]; right; by eexists|].
  destruct (BodyErr resp) as [e|] eqn:Eb; [intros [= <- <-]; right; by eexists|].
  destruct (_ || _) eqn:Es; [intros [= <- <-]; right; by eexists|]. rewrite io_bind_run, io_wrap_run.
  destruct (Unmarshal _ _ _) as [a|e] eqn:Eu; [|intros [= <- <-]; right; by eexists].
  assert (is_2xx (StatusCode resp) = true) as H2.
  { apply orb_false_iff in Es as [E1 E2]. unfold is_2xx. apply andb_true_iff. split.
    - apply Z.leb_le. by apply Z.ltb_ge in E1.
    - apply Z.ltb_lt. by apply Z.leb_gt in E2. }
  destruct (ar_Success a) eqn:Ea; simpl.
  - intros [= <- <-]. right. exists (inl resp). split; [done|]. intros a' [= <-]. by exists resp.
  - destruct (ar_Errors a); intros [= <- <-]; right; by eexists.
Qed.

Section Refinement.
Context {W : Type} `{HttpClient W} `{JsonErrors} (p : CProvider) (zone : string).
Context (kept : keeping) (view : W → list dnsRecord) `{!CloudflareServer (cp_client p) zone kept view}.
#[local] Abbreviation c := (cp_client p).

(** The state of the provider: the zone's ID is known. *)
Definition known (s : ZoneState) : Prop := zs_zoneID s = zone ∧ zone ≠ "".

Lemma with_zone_run {A} (k : string → IO (W * ZoneState) A) w s :
  known s → with_zone p k (w, s) = k zone (w, s).
Proof using Type.
  intros [Hs Hne]. unfold with_zone. rewrite io_bind_run, io_wrap_run, ZoneID_run, Hs.
  by destruct (String.eqb_spec zone "").
Qed.

Lemma net_wrap_run {A} f (m : IO W A) w (s : ZoneState) :
  io_wrap f (net m) (w, s) =
  (match (m w).1 with inl a => inl a | inr e => inr (f e) end, ((m w).2, s)).
Proof using Type. rewrite io_wrap_run, net_run. by destruct (m w).1. Qed.

(** What the server promises of the provider's requests. *)
Lemma doRequest_effect R m path body w r w' :
  effect view R (api_request c m path body) → doRequest c m path body w = (r, w') →
  (view w' = view w ∨ R (view w) (view w')) ∧ ∀ a, r = inl a → R (view w) (view w').
Proof using Type.
  intros He E. destruct (cf_doRequest_answer _ _ _ _ _ _ _ E) as [[-> [e ->]]|(res & Hd & Ha)]; [by split; [left|]|].
  destruct (He _ _ _ Hd) as [Hor H2]. split; [done|]. intros a ->.
  destruct (Ha a eq_refl) as (resp & -> & Hok & _). by eapply H2.
Qed.

Lemma cs_post w q r w' :
  request_ok q → doRequest c "POST" (records_path zone) (print (request_json q)) w = (r, w') →
  (view w' = view w ∨ posted kept zone q (view w) (view w')) ∧
  ∀ a, r = inl a → posted kept zone q (view w) (view w').
Proof using CloudflareServer0.
  intros Hq. apply doRequest_effect. rewrite request_document. apply ch_post; [done|done| |done].
  unfold api_url. by rewrite app_empty_r.
Qed.

Lemma cs_delete w id r w' :
  doRequest c "DELETE" (record_path zone id) "" w = (r, w') →
  (view w' = view w ∨ view w' = without id (view w)) ∧ ∀ a, r = inl a → view w' = without id (view w).
Proof using CloudflareServer0.
  apply (doRequest_effect (deleted id)). apply ch_delete; [done|].
  cbn [rq_URL api_request]. unfold api_url, record_path, records_path. by rewrite !app_assoc_s.
Qed.

Lemma cs_patch w id q r w' :
  request_ok q → doRequest c "PATCH" (record_path zone id) (print (request_json q)) w = (r, w') →
  (view w' = view w ∨ patched kept zone id q (view w) (view w')) ∧
  ∀ a, r = inl a → patched kept zone id q (view w) (view w').
Proof using CloudflareServer0.
  intros Hq. apply doRequest_effect. rewrite request_document. apply ch_patch; [done|done| |done].
  cbn [rq_URL api_request]. unfold api_url, record_path, records_path. by rewrite !app_assoc_s.
Qed.

Lemma find_head {A} (b : A → bool) l : List.find b l = head (List.filter b l).
Proof using Type. induction l as [|x l IH]; [done|]. simpl. by destruct (b x). Qed.

Lemma FindRecord_view t n w r w' :
  FindRecord c zone t n w = (r, w') →
  view w' = view w ∧ ∀ o, r = inl o → o = List.find (rec_named t n) (view w).
Proof using CloudflareServer0.
  unfold FindRecord. rewrite io_bind_run, io_wrap_run.
  destruct (doRequest _ _ _ _ w) as [r1 w1] eqn:E.
  destruct (cf_doRequest_answer _ _ _ _ _ _ _ E) as [[-> [e ->]]|(res & Hd & Ha)]; [by intros [= <- <-]|].
  apply (ch_find t n) in Hd as [Hv Hf]; [|done|].
  2:{ cbn [rq_URL api_request]. unfold api_url, find_path, records_path. by rewrite query_text, !app_assoc_s. }
  destruct r1 as [a|e]; [|by intros [= <- <-]]. rewrite io_bind_run, io_wrap_run. unfold io_lift.
  destruct (unmarshal_result _ _ a) as [l|e] eqn:El; intros [= <- <-]; [|done].
  split; [done|]. intros o [= <-]. destruct (Ha a eq_refl) as (resp & -> & H2 & Hb & Hu & Hs).
  destruct (Hf resp a l eq_refl H2 Hb Hu Hs El) as (rest & Hl & Hnil).
  rewrite find_head, Hl. destruct l; [by rewrite Hnil|done].
Qed.

(** A request whose answer is dropped, wrapped by the client and the provider. *)
Lemma dropped_run f g (m : IO W apiResponse) w (s : ZoneState) r w' (P : Prop) (Q : Prop) :
  (∀ r0 w1, m w = (r0, w1) → w1 = w'.1 → Q ∧ ∀ a, r0 = inl a → P) →
  io_wrap f (net (_ ← io_wrap g m; mret tt)) (w, s) = (r, w') → Q ∧ (r = inl tt → P).
Proof using Type.
  intros Hm. rewrite net_wrap_run, io_bind_run, io_wrap_run.
  destruct (m w) as [[a|e] w1] eqn:E; simpl; intros [= <- <-];
    destruct (Hm _ _ eq_refl eq_refl) as [HQ HP]; (split; [done|]); [|done].
  intros _. by eapply HP.
Qed.

Lemma create_run r w s res w' :
  request_ok (request_of p r) → known s → cp_Create p r (w, s) = (res, w') →
  (view w'.1 = view w ∨ cf_step kept p zone (CfCreate r) (view w) (view w'.1)) ∧
  (res = inl tt → cf_step kept p zone (CfCreate r) (view w) (view w'.1)).
Proof using CloudflareServer0.
  intros Hq Hs. unfold cp_Create. rewrite with_zone_run by done.
  assert (∀ r0 w1, doRequest c "POST" (records_path zone) (print (request_json (request_of p r))) w = (r0, w1) →
            w1 = w'.1 →
            (view w'.1 = view w ∨ cf_step kept p zone (CfCreate r) (view w) (view w'.1)) ∧
            ∀ a, r0 = inl a → cf_step kept p zone (CfCreate r) (view w) (view w'.1)) as Hpost.
  { intros r0 w1 E <-. destruct (cs_post _ _ _ _ Hq E) as [Hv Hok]. split.
    - destruct Hv as [Hv|Hv]; [by left|right]. by constructor.
    - intros a Ha. constructor. by apply (Hok a). }
  unfold request_of in Hpost. destruct (r_Type r == RecordTypeSRV); [|by apply dropped_run].
  destruct (r_SRV r) as [srv|]; [by apply dropped_run|]. intros [= <- <-]. by split; [left|].
Qed.

(** Looking the record up, and what follows. *)
Lemma find_then r w (s : ZoneState) res w' (k : nilable dnsRecord → IO (W * ZoneState) unit) (Q : Prop) :
  (apiRecord ← find p zone r; k apiRecord) (w, s) = (res, w') →
  (∀ e w1, res = inr e → w' = (w1, s) → view w1 = view w → Q) →
  (∀ w1, view w1 = view w → k (victim r (view w)) (w1, s) = (res, w') → Q) → Q.
Proof using CloudflareServer0.
  unfold find. rewrite io_bind_run, net_wrap_run.
  destruct (FindRecord _ _ _ _ w) as [r1 w1] eqn:E. apply FindRecord_view in E as [Hv Hf].
  simpl. destruct r1 as [o|e].
  - intros Hk _ H2. apply (H2 w1 Hv). unfold victim. by rewrite <- (Hf o eq_refl).
  - intros [= <- <-] H1 _. by eapply H1.
Qed.

Lemma delete_by_id id w r0 w1 w' :
  doRequest c "DELETE" (record_path zone id) "" w = (r0, w1) → w1 = w' →
  (view w' = view w ∨ view w' = without id (view w)) ∧
  ∀ a, r0 = inl a → view w' = without id (view w).
Proof using CloudflareServer0. intros E <-. by apply cs_delete in E. Qed.

Lemma delete_run r w s res w' :
  known s → cp_Delete p r (w, s) = (res, w') →
  (view w'.1 = view w ∨ cf_step kept p zone (CfDelete r) (view w) (view w'.1)) ∧
  (res = inl tt → cf_step kept p zone (CfDelete r) (view w) (view w'.1)).
Proof using CloudflareServer0.
  intros Hs. unfold cp_Delete. rewrite with_zone_run by done. intros Hr.
  eapply find_then; [exact Hr| |].
  - intros e w1 -> -> Hv. by split; [left|].
  - intros w1 Hv. destruct (victim r (view w)) as [x|] eqn:Ev.
    + intros Hk. unfold DeleteRecord in Hk. revert Hk. apply dropped_run. intros r0 w2 E Ew.
      destruct (delete_by_id _ _ _ _ _ E Ew) as [Hd Hok]. rewrite Hv in *. split.
      * destruct Hd as [Hd|Hd]; [by left|right]. rewrite Hd. by constructor.
      * intros a Ha. rewrite (Hok a Ha). by constructor.
    + intros [= <- <-]. simpl. rewrite Hv. split; [by left|]. intros _. by constructor.
Qed.

Lemma update_run e d w s res w' :
  request_ok (request_of p d) → known s → cp_Update p e d (w, s) = (res, w') →
  cf_failed kept p zone (CfUpdate e d) (view w) (view w'.1) ∧
  (res = inl tt → cf_step kept p zone (CfUpdate e d) (view w) (view w'.1)).
Proof using CloudflareServer0.
  intros Hq Hs. unfold cp_Update. rewrite with_zone_run by done. intros Hr.
  eapply find_then; [exact Hr| |].
  { intros err w1 -> -> Hv. split; [by left|done]. }
  intros w1 Hv. destruct (victim e (view w)) as [x|] eqn:Ev.
  2:{ intros [= <- <-]. split; [by left|done]. }
  destruct ((r_Type d == RecordTypeA) || _ || _ || _) eqn:Et.
  - assert (r_Type d ≠ RecordTypeSRV) as Hsrv.
    { intros E. rewrite E in Et. done. }
    assert (request_of p d = mkCreateRequest (r_Type d) (r_Hostname d) (r_Target d) (effective_ttl p d)
              (resolveProxied p d) None) as Eq.
    { unfold request_of. by destruct (String.eqb_spec (r_Type d) RecordTypeSRV). }
    rewrite Eq in Hq. intros Hk. unfold UpdateRecord in Hk. revert Hk. apply dropped_run.
    intros r0 w2 E <-. destruct (cs_patch _ _ _ _ _ Hq E) as [Hd Hok]. rewrite Hv in *. rewrite <- Eq in *.
    split.
    + destruct Hd as [Hd|Hd]; [by left|right; left]. by eapply cf_update.
    + intros a Ha. eapply cf_update; [done|done|]. by apply (Hok a).
  - destruct (String.eqb_spec (r_Type d) RecordTypeSRV) as [Hsrv|Hsrv].
    2:{ intros [= <- <-]. split; [by left|done]. }
    destruct (r_SRV e) as [se|]; [|intros [= <- <-]; split; [by left|done]].
    destruct (r_SRV d) as [sd|] eqn:Esd; [|intros [= <- <-]; split; [by left|done]].
    rewrite io_bind_run. destruct (io_wrap _ (net (DeleteRecord _ _ _)) (w1, s)) as [r1 w2] eqn:Ed.
    assert ((view w2.1 = view w ∨ view w2.1 = without (cr_ID x) (view w)) ∧
            (r1 = inl tt → view w2.1 = without (cr_ID x) (view w))) as [Hd1 Hd2].
    { revert Ed. unfold DeleteRecord. apply dropped_run. intros r0 w3 E Ew.
      rewrite <- Hv. exact (delete_by_id _ _ _ _ _ E Ew). }
    destruct r1 as [[]|err].
    2:{ intros [= <- <-]. split; [|done]. destruct Hd1 as [Hd|Hd]; [by left|].
        right; right. by exists e, d, x. }
    specialize (Hd2 eq_refl). destruct w2 as [w2 s2]. simpl in Hd2.
    assert (request_of p d = mkCreateRequest "SRV" (r_Hostname d) "" (effective_ttl p d) false
              (Some (mkSrvRecordData (srv_Priority sd) (srv_Weight sd) (srv_Port sd) (r_Target d) "" "" ""))) as Eq.
    { unfold request_of. by rewrite Hsrv, Esd. }
    rewrite Eq in Hq. unfold CreateSRVRecord. apply dropped_run. intros r0 w3 E <-.
    destruct (cs_post _ _ _ _ Hq E) as [Hp Hok]. rewrite Hd2 in *. rewrite <- Eq in *. split.
    + destruct Hp as [Hp|Hp].
      * right; right. by exists e, d, x.
      * right; left. by eapply cf_update_srv.
    + intros a Ha. eapply cf_update_srv; [done|done|]. by apply (Hok a).
Qed.

(** C21. With the zone known, however the server writes contents and TTLs: an
    operation that succeeds takes its step (creates, deletes or changes one
    record, the first of the name and type); one that fails leaves the
    records, the step, or of an SRV update the deletion. *)
Theorem cloudflare_refines o w s res w' :
  cf_op_ok p o → known s → cf_run p o (w, s) = (res, w') →
  cf_failed kept p zone o (view w) (view w'.1) ∧
  (res = inl tt → cf_step kept p zone o (view w) (view w'.1)).
Proof using CloudflareServer0.
  destruct o as [r|r|e d]; simpl; intros Ho Hs Hr.
  - destruct (create_run _ _ _ _ _ Ho Hs Hr) as [[?|?] ?]; split; auto; [by left|right; by left].
  - destruct (delete_run _ _ _ _ _ Hs Hr) as [[?|?] ?]; split; auto; [by left|right; by left].
  - by eapply update_run.
Qed.
End Refinement.

(** ** A server in memory

    It holds the records of one zone, and gives the proxied ones its own TTL; a document it does not read, or cannot
    write, is an error of the server. *)
Definition record_ok (r : dnsRecord) : Prop :=
  ascii_text (cr_ID r) ∧ ascii_text (cr_Type r) ∧ ascii_text (cr_Name r) ∧ ascii_text (cr_Content r) ∧
  int_ok (cr_TTL r) ∧ ascii_text (cr_ZoneID r) ∧
  match cr_Data r with Some d => srv_ok d | None => True end.

#[local] Instance record_ok_dec r : Decision (record_ok r).
Proof. unfold record_ok, srv_ok, int_ok, ascii_text. destruct (cr_Data r); apply _. Defined.

(** How it keeps what it is sent. *)
Definition server_ttl (q : createRecordRequest) : Z := if rq_Proxied q then 1%Z else rq_TTL q.
Definition stored (zone id : string) (q : createRecordRequest) : dnsRecord :=
  mkDnsRecord id (rq_Type q) (rq_Name q) (rq_Content q) (server_ttl q) (rq_Proxied q) zone (rq_Data q).
Definition patch_record (zone : string) (q : createRecordRequest) (r : dnsRecord) : dnsRecord :=
  mkDnsRecord (cr_ID r) (rq_Type q) (rq_Name q)
    (if rq_Content q == "" then cr_Content r else rq_Content q)
    (server_ttl q) (rq_Proxied q) zone (cr_Data r).
Definition server_kept : keeping := λ old q y,
  cr_TTL y = server_ttl q ∧
  match old with
  | None => cr_Content y = rq_Content q ∧ cr_Data y = rq_Data q
  | Some x => cr_Content y = (if rq_Content q == "" then cr_Content x else rq_Content q) ∧ cr_Data y = cr_Data x
  end.

Definition record_json (r : dnsRecord) : json :=
  JObj ([("id", JStr (cr_ID r)); ("type", JStr (cr_Type r)); ("name", JStr (cr_Name r));
         ("content", JStr (cr_Content r)); ("ttl", JInt (cr_TTL r)); ("proxied", JBool (cr_Proxied r));
         ("zone_id", JStr (cr_ZoneID r))] ++ omit_nil "data" (srv_json <$> cr_Data r)).

Definition success_json (result : json) : json :=
  JObj [("success", JBool true); ("errors", JArr []); ("messages", JArr []); ("result", result)].

Definition dec_request : decoder createRecordRequest :=
  dec_struct
    [mk_field "type" rq_Type (λ v q, mkCreateRequest v (rq_Name q) (rq_Content q) (rq_TTL q) (rq_Proxied q) (rq_Data q)) dec_string;
     mk_field "name" rq_Name (λ v q, mkCreateRequest (rq_Type q) v (rq_Content q) (rq_TTL q) (rq_Proxied q) (rq_Data q)) dec_string;
     mk_field "content" rq_Content (λ v q, mkCreateRequest (rq_Type q) (rq_Name q) v (rq_TTL q) (rq_Proxied q) (rq_Data q)) dec_string;
     mk_field "ttl" rq_TTL (λ v q, mkCreateRequest (rq_Type q) (rq_Name q) (rq_Content q) v (rq_Proxied q) (rq_Data q)) dec_int;
     mk_field "proxied" rq_Proxied (λ v q, mkCreateRequest (rq_Type q) (rq_Name q) (rq_Content q) (rq_TTL q) v (rq_Data q)) dec_bool;
     mk_field "data" rq_Data (λ v q, mkCreateRequest (rq_Type q) (rq_Name q) (rq_Content q) (rq_TTL q) (rq_Proxied q) v)
       (dec_ptr zero_srv dec_srv)].

Definition zero_request : createRecordRequest := mkCreateRequest "" "" "" 0 false None.

(** Longer than every ID. *)
Definition fresh_id (l : list dnsRecord) : string := "r" ++s Join "" (ids l).

Definition done_answer (l : list dnsRecord) : HTTPResponse :=
  if decide (Forall record_ok l) then answer 200 (print (success_json (JArr (map record_json l))))
  else answer 500 "".

Definition server_do (c : Client) (zone : string) (rq : HTTPRequest) (l : list dnsRecord)
  : HTTPResponse * list dnsRecord :=
  let base := cl_apiEndpoint c in
  let is_record r := rq_URL rq == base ++s record_path zone (cr_ID r) in
  if Http.rq_Method rq == "GET" then
    (done_answer (List.filter (λ r, rq_URL rq == base ++s find_path zone (cr_Type r) (cr_Name r)) l), l)
  else if Http.rq_Method rq == "DELETE" then
    (done_answer [], List.filter (λ r, negb (is_record r)) l)
  else
    match Unmarshal (H := no_json_errors) dec_request zero_request (rq_Body rq) with
    | inr _ => (answer 400 "", l)
    | inl q =>
        if Http.rq_Method rq == "POST" then (done_answer [], l ++ [stored zone (fresh_id l) q])
        else (done_answer [], map (λ r, if is_record r then patch_record zone q r else r) l)
    end.

Definition memory_http (c : Client) (zone : string) : HttpClient (list dnsRecord) := {|
  http_NewRequest _ _ := None;
  http_Do rq l := let '(a, l') := server_do c zone rq l in (inl a, l')
|}.

(** What is written is read. *)
Lemma dec_uint16_JInt old z : (0 ≤ z < 2 ^ 16)%Z → dec_uint16 old (JInt z) = Some z.
Proof. intros H. by apply ParseUint_itoa. Qed.

Lemma wf_omit_string n k s : ascii_text k → ascii_text s →
  Forall (λ kv, ascii_text kv.1 ∧ wf_json n kv.2) (omit_string k s).
Proof. intros. unfold omit_string. case_match; [constructor|]. apply Forall_singleton. split; [done|by constructor]. Qed.

Lemma wf_srv_json d : srv_ok d → wf_json 1 (srv_json d).
Proof.
  intros (_ & _ & _ & Ht & Hs & Hp & Hn). apply (wf_obj 0). rewrite !Forall_app.
  split_and!; try by apply wf_omit_string. repeat constructor; done.
Qed.

Lemma dec_omit_string {A} (fields : list (field A)) k s a b rest :
  (λ k a j, match find_field fields k with Some d => d a j | None => Some a end) k a (JStr s) = Some b →
  (s = "" → a = b) →
  dec_members (λ k a j, match find_field fields k with Some d => d a j | None => Some a end) a
    (omit_string k s ++ rest)
  = dec_members (λ k a j, match find_field fields k with Some d => d a j | None => Some a end) b rest.
Proof.
  intros H1 H2. apply dec_members_app. unfold omit_string.
  destruct (String.eqb_spec s "") as [->|]; [by rewrite H2|]. simpl. by rewrite H1.
Qed.

Lemma dec_srv_json d : srv_ok d → dec_srv zero_srv (srv_json d) = Some d.
Proof.
  destruct d as [pr we po t s pro n]. intros (H1 & H2 & H3 & _). simpl in H1, H2, H3.
  unfold dec_srv, dec_struct, srv_json. cbv beta iota delta [sd_Priority sd_Weight sd_Port sd_Target sd_Service sd_Proto sd_Name].
  rewrite (dec_members_app _ _ (mkSrvRecordData pr we po t "" "" "")).
  2:{ unfold JInt. simpl. rewrite !ParseUint_itoa by done. done. }
  rewrite <- (app_nil_r (omit_string "name" n)).
  rewrite (dec_omit_string _ _ _ _ (mkSrvRecordData pr we po t s "" "")); [|done|by intros ->].
  rewrite (dec_omit_string _ _ _ _ (mkSrvRecordData pr we po t s pro "")); [|done|by intros ->].
  rewrite (dec_omit_string _ _ _ _ (mkSrvRecordData pr we po t s pro n)); [done|done|by intros ->].
Qed.

Lemma dec_ptr_srv old d : srv_ok d → old = None → dec_ptr zero_srv dec_srv old (srv_json d) = Some (Some d).
Proof.
  intros Hd ->. change (dec_ptr zero_srv dec_srv None (srv_json d)) with (Some <$> dec_srv zero_srv (srv_json d)).
  by rewrite dec_srv_json.
Qed.

Lemma wf_omit_data n d : match d with Some d => srv_ok d | None => True end → (1 <= n)%N →
  Forall (λ kv, ascii_text kv.1 ∧ wf_json 1 kv.2) (omit_nil "data" (srv_json <$> d)).
Proof.
  intros Hd _. destruct d as [d|]; [|constructor]. apply Forall_singleton. split; [done|by apply wf_srv_json].
Qed.

Lemma wf_request_json q : request_ok q → wf_json 2 (request_json q).
Proof.
  intros (Ht & Hn & Hc & _ & Hd). apply (wf_obj 1). rewrite !Forall_app. split_and!.
  - repeat constructor; done.
  - by apply wf_omit_string.
  - repeat constructor; done.
  - by apply (wf_omit_data 1).
Qed.

Lemma cf_wf_record_json r : record_ok r → wf_json 2 (record_json r).
Proof.
  intros (Hi & Ht & Hn & Hc & _ & Hz & Hd). apply (wf_obj 1). rewrite !Forall_app. split.
  - repeat constructor; done.
  - by apply (wf_omit_data 1).
Qed.

Lemma dec_request_json q : request_ok q → dec_request zero_request (request_json q) = Some q.
Proof.
  destruct q as [t n c ttl px d]. intros (_ & _ & _ & Ht & Hd). simpl in Ht, Hd.
  unfold dec_request, dec_struct, request_json. cbn [rq_Type rq_Name rq_Content rq_TTL rq_Proxied rq_Data].
  set (F := λ k a j, _).
  rewrite (dec_members_app F _ (mkCreateRequest t n "" 0 false None)) by done.
  rewrite (dec_members_app F _ (mkCreateRequest t n c 0 false None)).
  2:{ unfold omit_string. by destruct (String.eqb_spec c "") as [->|]. }
  rewrite (dec_members_app F _ (mkCreateRequest t n c ttl px None)).
  2:{ change (dec_members F _ _) with
        (a ← (b ← dec_int 0%Z (JInt ttl); Some (mkCreateRequest t n c b false None));
         dec_members F a [("proxied", JBool px)]).
      by rewrite dec_int_JInt. }
  destruct d as [d|]; [|done].
  change (dec_members F _ _) with
    (a ← (b ← dec_ptr zero_srv dec_srv None (srv_json d); Some (mkCreateRequest t n c ttl px b)); Some a).
  by rewrite dec_ptr_srv.
Qed.

Lemma cf_dec_record_json r : record_ok r → dec_record zero_record (record_json r) = Some r.
Proof.
  destruct r as [i t n c ttl px z d]. intros (_ & _ & _ & _ & Ht & _ & Hd). simpl in Ht, Hd.
  unfold dec_record, dec_struct, record_json.
  cbn [cr_ID cr_Type cr_Name cr_Content cr_TTL cr_Proxied cr_ZoneID cr_Data].
  set (F := λ k a j, _).
  rewrite (dec_members_app F _ (mkDnsRecord i t n c ttl px z None)).
  2:{ change (dec_members F _ _) with
        (a ← (b ← dec_int 0%Z (JInt ttl); Some (mkDnsRecord i t n c b false "" None));
         dec_members F a [("proxied", JBool px); ("zone_id", JStr z)]).
      by rewrite dec_int_JInt. }
  destruct d as [d|]; [|done].
  change (dec_members F _ _) with
    (a ← (b ← dec_ptr zero_srv dec_srv None (srv_json d); Some (mkDnsRecord i t n c ttl px z b)); Some a).
  by rewrite dec_ptr_srv.
Qed.

Lemma wf_success l : Forall record_ok l → wf_json 4 (success_json (JArr (map record_json l))).
Proof.
  intros Hl.
  assert (wf_json 3 (JArr (map record_json l))) as Hr.
  { apply (wf_arr 2), Forall_fmap. eapply Forall_impl; [exact Hl|]. intros r. apply cf_wf_record_json. }
  assert (wf_json 3 (JArr [])) as Hn by by apply (wf_arr 2).
  apply (wf_obj 3). apply Forall_cons. split; [split; [done|constructor]|]. by repeat (apply Forall_cons; split; [by split|]).
Qed.

Lemma find_path_inj z t n t' n' : find_path z t n = find_path z t' n' ↔ t = t' ∧ n = n'.
Proof.
  split; [|by intros [-> ->]]. unfold find_path. intros H%app_inj_prefix%app_inj_prefix.
  assert (∀ t n, Encode {["type" := t; "name" := n]}
            = "name=" ++s QueryEscape n ++s String "&" ("type=" ++s QueryEscape t)) as He.
  { intros. unfold Encode. by vm_compute. }
  rewrite !He in H. apply app_inj_prefix in H.
  pose proof (Cut_app "&" _ ("type=" ++s QueryEscape t) (QueryEscape_no_amp n)) as H1.
  rewrite H, Cut_app in H1 by apply QueryEscape_no_amp. injection H1 as H1 H2.
  apply QueryEscape_inj in H1. by apply QueryEscape_inj in H2.
Qed.

Section Memory.
Context (c : Client) (zone : string).
#[local] Existing Instance no_json_errors.
#[local] Instance server_http : HttpClient (list dnsRecord) := memory_http c zone.

Lemma eqb_iff (x y : string) (b : bool) : (x = y ↔ b = true) → (x == y) = b.
Proof. intros H. destruct (String.eqb_spec x y), b; naive_solver. Qed.

Lemma find_url t n r :
  (cl_apiEndpoint c ++s find_path zone t n == cl_apiEndpoint c ++s find_path zone (cr_Type r) (cr_Name r))
  = rec_named t n r.
Proof.
  apply eqb_iff. unfold rec_named. rewrite andb_true_iff, !String.eqb_eq. split.
  - intros [-> ->]%app_inj_prefix%find_path_inj. done.
  - by intros [-> ->].
Qed.

Lemma cf_record_url id r :
  (cl_apiEndpoint c ++s record_path zone id == cl_apiEndpoint c ++s record_path zone (cr_ID r))
  = (cr_ID r == id).
Proof.
  apply eqb_iff. rewrite String.eqb_eq. split; [|by intros ->].
  unfold record_path. by intros ->%app_inj_prefix%app_inj_prefix%app_inj_prefix.
Qed.

Lemma fresh_id_fresh l : fresh_id l ∉ ids l.
Proof.
  assert (∀ i, i ∈ ids l → String.length i < String.length (fresh_id l)) as H.
  { unfold fresh_id. rewrite app_cons, app_empty_l. simpl. intros i Hi.
    apply Contains_Join with (sp := "") in Hi. apply Contains_spec in Hi as (a & b & ->).
    rewrite !length_app_s. lia. }
  intros Hin. by apply H, Nat.lt_irrefl in Hin.
Qed.

Lemma Unmarshal_success l :
  Forall record_ok l →
  Unmarshal dec_response (mkApiResponse false [] [] None) (print (success_json (JArr (map record_json l))))
  = inl (mkApiResponse true [] [] (Some (JArr (map record_json l)))).
Proof. intros Hl. by rewrite (Unmarshal_print _ _ 4); [|by apply wf_success|]. Qed.

Lemma cf_memory_effect rq (R : list dnsRecord → list dnsRecord → Prop) :
  (∀ l, R l (server_do c zone rq l).2) → effect id R rq.
Proof.
  intros HR l r l'. unfold http_Do, server_http, memory_http. specialize (HR l).
  destruct (server_do c zone rq l) as [a l1]. intros [= <- <-]. simpl in HR. split; [by right|done].
Qed.

(** The API's URLs in the provider's terms. *)
Lemma api_find_url t n :
  api_url c zone ("?name=" ++s QueryEscape n ++s "&type=" ++s QueryEscape t) = cl_apiEndpoint c ++s find_path zone t n.
Proof. unfold api_url, find_path, records_path. by rewrite query_text, !app_assoc_s. Qed.
Lemma api_record_url i : api_url c zone ("/" ++s i) = cl_apiEndpoint c ++s record_path zone i.
Proof. unfold api_url, record_path, records_path. by rewrite !app_assoc_s. Qed.

Lemma server_find t n rq l a l' :
  Http.rq_Method rq = "GET" → rq_URL rq = cl_apiEndpoint c ++s find_path zone t n →
  is_2xx (StatusCode (server_do c zone rq l).1) = true →
  Unmarshal dec_response (mkApiResponse false [] [] None) (Body (server_do c zone rq l).1) = inl a →
  unmarshal_result zero_record dec_record a = inl l' → l' = List.filter (rec_named t n) l.
Proof.
  intros Hm Hu. unfold server_do. rewrite Hm, Hu. change ("GET" == "GET") with true. cbn iota. cbn [fst].
  rewrite (List.filter_ext _ (rec_named t n)) by (intros x; apply find_url).
  unfold done_answer. case_decide as Hok; [|done]. intros _. cbn [Body answer].
  rewrite (Unmarshal_success _ Hok). intros [= <-].
  unfold unmarshal_result. cbn [ar_Result mbind option_bind dec_list].
  rewrite dec_all_map; [by intros [= <-]|].
  eapply Forall_impl; [exact Hok|]. intros x. apply cf_dec_record_json.
Qed.

Lemma server_reads q rq : request_ok q → rq_Body rq = print (document q) →
  Unmarshal dec_request zero_request (rq_Body rq) = inl q.
Proof.
  intros Hq ->. rewrite <- request_document.
  by rewrite (Unmarshal_print _ _ 2), dec_request_json by (done || by apply wf_request_json).
Qed.

(** It is a server as the provider expects one. *)
Lemma cf_memory_server : CloudflareServer c zone server_kept id.
Proof.
  split.
  - intros t n rq w res w' Hm Hu E. rewrite api_find_url in Hu. unfold http_Do, server_http, memory_http in E.
    pose proof (server_find t n rq w) as Hf.
    assert ((server_do c zone rq w).2 = w) as Hw by (unfold server_do; by rewrite Hm).
    destruct (server_do c zone rq w) as [resp0 w1]. simpl in Hw, Hf. subst w1. injection E as <- <-. split; [done|].
    intros resp a l [= <-] H2 _ Ha _ Hl. exists []. rewrite app_nil_r.
    split; [|done]. symmetry. by eapply Hf.
  - intros q rq Hq Hm Hu Hb. apply cf_memory_effect. intros l. unfold server_do.
    rewrite (server_reads q), Hm by done. change ("POST" == "GET") with false. change ("POST" == "DELETE") with false.
    change ("POST" == "POST") with true. cbn iota. cbn [snd].
    exists (stored zone (fresh_id l) q). split; [apply fresh_id_fresh|]. by split_and!.
  - intros i rq Hm Hu. apply cf_memory_effect. intros l. rewrite api_record_url in Hu. unfold server_do.
    rewrite Hm, Hu. change ("DELETE" == "GET") with false. change ("DELETE" == "DELETE") with true. cbn iota. cbn [snd].
    unfold deleted, without. apply List.filter_ext. intros x. by rewrite cf_record_url.
  - intros i q rq Hq Hm Hu Hb. apply cf_memory_effect. intros l. rewrite api_record_url in Hu. unfold server_do.
    rewrite (server_reads q), Hm, Hu by done. change ("PATCH" == "GET") with false. change ("PATCH" == "DELETE") with false.
    change ("PATCH" == "POST") with false. cbn iota. cbn [snd].
    exists (patch_record zone q). split; [by intros x _ <-|].
    apply map_ext. intros x. by rewrite cf_record_url.
Qed.
End Memory.

(** ** Scenario: two records of one name and type *)

Definition demo : CProvider := mkCProvider "cf" "example.com" 300 true (NewClient "token" None).
Definition demo_state : ZoneState := mkZoneState "z1" false None.

#[local] Existing Instance no_json_errors.
#[local] Instance demo_http : HttpClient (list dnsRecord) := memory_http (cp_client demo) "z1".
#[local] Instance demo_server : CloudflareServer (cp_client demo) "z1" server_kept id := cf_memory_server _ _.

Definition demo_records : list dnsRecord :=
  [mkDnsRecord "r1" "A" "app.example.com" "192.0.2.1" 1 true "z1" None;
   mkDnsRecord "r2" "A" "app.example.com" "192.0.2.2" 1 true "z1" None].

Definition a_record (target : string) : DNSRecord :=
  mkRecord "app.example.com" RecordTypeA target 120 "" None None ∅.

(** The record that goes is not the one that was named. *)
Lemma cloudflare_refines_witness :
  let o := CfDelete (a_record "192.0.2.2") in
  let w' := (cf_run demo o (demo_records, demo_state)).2.1 in
  cf_step server_kept demo "z1" o demo_records w' ∧ map cr_Content w' = ["192.0.2.2"].
Proof.
  intros o w'. split; [|vm_compute; reflexivity].
  assert ((cf_run demo o (demo_records, demo_state)).1 = inl tt) as E by (vm_compute; reflexivity).
  destruct (cloudflare_refines demo "z1" server_kept id o demo_records demo_state
              (cf_run demo o (demo_records, demo_state)).1 (cf_run demo o (demo_records, demo_state)).2)
    as [_ H].
  - exact I.
  - split; [reflexivity|discriminate].
  - apply surjective_pairing.
  - exact (H E).
Defined.

(** A zone that is not found at first is never found: the second call sends no
    request. *)
Definition offline : HttpClient (list dnsRecord) := {|
  http_NewRequest _ _ := None;
  http_Do _ l := (inr (ENew "connection refused"), l)
|}.

Lemma ZoneID_once_witness :
  let s0 := mkZoneState "" false None in
  let s1 := (ZoneID (H := offline) demo (demo_records, s0)).2.2 in
  zs_once s1 = true ∧
  ∀ l, ZoneID (H := offline) demo (l, s1) = (inr (ENew "no zone found for domain example.com"), (l, s1)).
Proof.
  intros s0 s1. split; [vm_compute; reflexivity|].
  apply (ZoneID_once (H := offline) demo demo_records s0 _ demo_records). vm_compute. reflexivity.
Defined.

(** The identity is the zone's name until its ID is known. *)
Example identity_changes :
  (cp_Identity demo (mkZoneState "" false None), cp_Identity demo demo_state)
  = (mkIdentity "cloudflare" "" "example.com", mkIdentity "cloudflare" "" "z1").
Proof. done. Qed.
