(* ===== verification/AdGuard.v ===== *)
(** * The AdGuard Home provider (providers/adguard)

    Rewrites of AdGuard Home as records: the client of the HTTP API and the
    provider's operations.  Logging is left out. *)
From S2P Require Import Prelude GoStrings NetIP Errors ProviderTypes Effects Registry.
From S2P Require Import DnsConfig IO Http Json Url Dnsmasq.
From Stdlib Require Import ZArith.

(** ** Data (client.go) *)

Record rewriteEntry := mkRewrite {
  rw_Domain : string;
  rw_Answer : string;
  rw_Enabled : nilable bool
}.

#[export] Instance rewriteEntry_eq_dec : EqDecision rewriteEntry.
Proof. solve_decision. Defined.

Record serverStatus := mkStatus {
  st_Version : string;
  st_Running : bool;
  st_ProtectionEnabled : bool
}.

Definition zero_rewrite : rewriteEntry := mkRewrite "" "" None.

Definition dec_rewrite : decoder rewriteEntry :=
  dec_struct
    [mk_field "domain" rw_Domain (λ v r, mkRewrite v (rw_Answer r) (rw_Enabled r)) dec_string;
     mk_field "answer" rw_Answer (λ v r, mkRewrite (rw_Domain r) v (rw_Enabled r)) dec_string;
     mk_field "enabled" rw_Enabled (λ v r, mkRewrite (rw_Domain r) (rw_Answer r) v) (dec_ptr false dec_bool)].

Definition dec_status : decoder serverStatus :=
  dec_struct
    [mk_field "version" st_Version (λ v s, mkStatus v (st_Running s) (st_ProtectionEnabled s)) dec_string;
     mk_field "running" st_Running (λ v s, mkStatus (st_Version s) v (st_ProtectionEnabled s)) dec_bool;
     mk_field "protection_enabled" st_ProtectionEnabled (λ v s, mkStatus (st_Version s) (st_Running s) v) dec_bool].

Definition rewrite_json (e : rewriteEntry) : json :=
  JObj ([("domain", JStr (rw_Domain e)); ("answer", JStr (rw_Answer e))]
        ++ omit_nil "enabled" (JBool <$> rw_Enabled e)).

(** [rewriteUpdate] *)
Definition update_json (target update : rewriteEntry) : json :=
  JObj [("target", rewrite_json target); ("update", rewrite_json update)].

(** ** The client (client.go) *)

Record Client := mkClient { cl_baseURL : string; cl_username : string; cl_password : string }.

Definition api_request (c : Client) (method path body : string) : HTTPRequest :=
  mkRequest method (cl_baseURL c ++s "/control" ++s path)
    [BasicAuth (cl_username c) (cl_password c); ("Content-Type", "application/json")] body.

Section Client.
Context {W : Type} `{HttpClient W} `{JsonErrors} (c : Client).

Definition doRequest (method path body : string) : IO W (string * Z) :=
  match http_NewRequest method (cl_baseURL c ++s "/control" ++s path) with
  | Some err => io_fail (EWrapf "creating request: " err)
  | None =>
      resp ← io_wrap (EWrapf "executing request: ") (http_Do (api_request c method path body));
      respBody ← io_wrap (EWrapf "reading response body: ") (io_lift (ReadBody resp 0));
      mret (respBody, StatusCode resp)
  end.

(** The body of an answer 200, and the errors of the others. *)
Definition expect_ok (r : string * Z) : IO W string :=
  let '(body, statusCode) := r in
  if (statusCode =? StatusUnauthorized)%Z || (statusCode =? StatusForbidden)%Z
  then io_fail (ESentinel ErrUnauthorized)
  else if negb (statusCode =? StatusOK)%Z
  then io_fail (ENew ("unexpected status " ++s itoa statusCode ++s ": " ++s body))
  else mret body.

Definition client_Ping : IO W unit :=
  r ← io_wrap (EWrapf "ping failed: ") (doRequest "GET" "/status" "");
  body ← expect_ok r;
  status ← io_wrap (EWrapf "parsing status response: ")
             (io_lift (Unmarshal dec_status (mkStatus "" false false) body));
  if negb (st_Running status) then io_fail (ESentinel ErrProviderUnavailable) else mret tt.

Definition client_List : IO W (list rewriteEntry) :=
  r ← io_wrap (EWrapf "listing rewrites: ") (doRequest "GET" "/rewrite/list" "");
  body ← expect_ok r;
  io_wrap (EWrapf "parsing rewrite list: ")
    (io_lift (Unmarshal (dec_list zero_rewrite dec_rewrite) [] body)).

Definition client_Create (entry : rewriteEntry) : IO W unit :=
  r ← io_wrap (EWrapf "creating rewrite: ")
        (doRequest "POST" "/rewrite/add" (print (rewrite_json entry)));
  _ ← expect_ok r; mret tt.

Definition client_Delete (entry : rewriteEntry) : IO W unit :=
  r ← io_wrap (EWrapf "deleting rewrite: ")
        (doRequest "POST" "/rewrite/delete" (print (rewrite_json entry)));
  _ ← expect_ok r; mret tt.

Definition client_Update (target update : rewriteEntry) : IO W unit :=
  r ← io_wrap (EWrapf "updating rewrite: ")
        (doRequest "PUT" "/rewrite/update" (print (update_json target update)));
  _ ← expect_ok r; mret tt.
End Client.

(** ** Configuration (config.go) *)

Definition DefaultTTL : Z := 300.

Record Config := mkConfig {
  cfg_URL : string;
  cfg_Username : string;
  cfg_Password : string;
  cfg_Zone : string;
  cfg_TTL : Z
}.

Definition url_errors (s : string) : list string :=
  if s == "" then ["URL is required"]
  else
    match url_Parse s with
    | inr err => ["invalid URL: " ++s Error err]
    | inl parsed =>
        if (u_Scheme parsed != "http") && (u_Scheme parsed != "https")
        then ["URL must start with http:// or https://"]
        else if u_User parsed then ["URL must not contain embedded credentials"] else []
    end.

Definition Config_Validate (c : Config) : option error :=
  let errs :=
    url_errors (cfg_URL c) ++
    (if cfg_Username c == "" then ["USERNAME is required"] else []) ++
    (if cfg_Password c == "" then ["PASSWORD is required"] else []) ++
    (if (cfg_TTL c <? 0)%Z then ["TTL must be non-negative"] else []) in
  if (0 <? length errs)%nat
  then Some (ENew ("adguard config validation failed: " ++s Join "; " errs)) else None.

(** The two loaders, which differ in where a setting is looked up; [secret] is
    for those that may be in a file. *)
Definition load_config (get secret : string → string) (instanceName : string) : Config + error :=
  match int_setting "TTL" (get "TTL") DefaultTTL with
  | inr err => inr err
  | inl ttl =>
      let cfg := mkConfig (get "URL") (get "USERNAME") (secret "PASSWORD") (get "ZONE") ttl in
      match Config_Validate cfg with
      | Some err => inr (EWrapf ("configuration for " ++s instanceName ++s ": ") err)
      | None => inl cfg
      end
  end.

(** [getMapValue] of the key in lower case: as it is, in upper case, in lower
    case. *)
Definition getMapValue (m : gmap string string) (key : string) : string :=
  match m !! key with
  | Some v => v
  | None =>
      match m !! ToUpper key with
      | Some v => v
      | None => default "" (m !! ToLower key)
      end
  end.

Definition LoadConfigFromMap (name : string) (m : gmap string string) : Config + error :=
  load_config (λ key, getMapValue m (ToLower key)) (λ key, getMapValue m (ToLower key)) name.

Section Environment.
Context (Getenv : string → string) (ReadSecret : string → string + error).

(** The variable comes first, here.  The prefix is that of the dnsmasq
    provider. *)
Definition getEnvOrFile (envKey fileKey : string) : string :=
  if Getenv envKey != "" then Getenv envKey
  else if Getenv fileKey != "" then
    match ReadSecret (Getenv fileKey) with
    | inr _ => ""
    | inl data => TrimSpace data
    end
  else "".

Definition LoadConfig (instanceName : string) : Config + error :=
  let prefix := envPrefix instanceName in
  load_config (λ key, Getenv (prefix ++s key))
    (λ key, getEnvOrFile (prefix ++s key) (prefix ++s key ++s "_FILE")) instanceName.
End Environment.

(** ** The provider (provider.go, factory.go) *)

Record AProvider := mkAProvider {
  ap_name : string;
  ap_url : string;
  ap_zone : string;
  ap_ttl : Z;
  ap_client : Client
}.

Definition ap_Capabilities : Capabilities :=
  mkCapabilities false true [RecordTypeA; RecordTypeAAAA; RecordTypeCNAME].

Definition ap_Identity (p : AProvider) : ProviderIdentity :=
  mkIdentity "adguard" (ap_url p) (ap_zone p).

Definition classifyAnswer (answer : string) : RecordType :=
  match ParseIP answer with
  | Some ip => match To4 ip with Some _ => RecordTypeA | None => RecordTypeAAAA end
  | None => if answer == "" then "" else RecordTypeCNAME
  end.

(** The body of the loop of [List]. *)
Definition listed (p : AProvider) (e : rewriteEntry) : option DNSRecord :=
  if match rw_Enabled e with Some false => true | _ => false end then None
  else
    let recordType := classifyAnswer (rw_Answer e) in
    if recordType == "" then None
    else if (ap_zone p != "") && negb (HasSuffix (rw_Domain e) ("." ++s ap_zone p))
            && (rw_Domain e != ap_zone p) then None
    else Some (mkRecord (rw_Domain e) recordType (rw_Answer e) (ap_ttl p)
                 (rw_Domain e ++s ":" ++s rw_Answer e) None None ∅).

Definition entry_of (r : DNSRecord) : rewriteEntry := mkRewrite (r_Hostname r) (r_Target r) None.

Section Provider.
Context {W : Type} `{HttpClient W} `{JsonErrors} (p : AProvider).

Definition ap_Ping : IO W unit := client_Ping (ap_client p).

Definition ap_List : IO W (list DNSRecord) :=
  entries ← io_wrap (EWrapf "listing records: ") (client_List (ap_client p));
  mret (omap (listed p) entries).

(** What [Create] and [Delete] do with the types: nothing for TXT, an error
    for those that rewrites do not have. *)
Definition supported (record : DNSRecord) (op : IO W unit) : IO W unit :=
  let t := r_Type record in
  if (t == RecordTypeA) || (t == RecordTypeAAAA) || (t == RecordTypeCNAME) then op
  else if t == RecordTypeTXT then mret tt
  else io_fail (ENew (t ++s " records not supported by AdGuard Home provider")).

Definition arrow (record : DNSRecord) : string := r_Hostname record ++s " -> " ++s r_Target record ++s ": ".

Definition ap_Create (record : DNSRecord) : IO W unit :=
  supported record
    (io_wrap (EWrapf ("creating record " ++s arrow record)) (client_Create (ap_client p) (entry_of record))).

Definition ap_Delete (record : DNSRecord) : IO W unit :=
  supported record
    (io_wrap (EWrapf ("deleting record " ++s arrow record)) (client_Delete (ap_client p) (entry_of record))).

Definition ap_Update (existing desired : DNSRecord) : IO W unit :=
  io_wrap (EWrapf ("updating record " ++s arrow desired))
    (client_Update (ap_client p) (entry_of existing) (entry_of desired)).

Definition adguard_provider : Provider W := {|
  prov_Name := ap_name p;
  prov_Type := "adguard";
  prov_Ping := io_error ap_Ping;
  prov_Capabilities := ap_Capabilities;
  prov_List := ap_List;
  prov_Create := λ r, io_error (ap_Create r);
  prov_Delete := λ r, io_error (ap_Delete r);
  prov_Update := Some (λ e d, io_error (ap_Update e d));
  prov_Identity := Some (ap_Identity p);
  prov_Close := None
|}.
End Provider.

Definition New (name : string) (config : nilable Config) : AProvider + error :=
  match config with
  | None => inr (ENew "config is required")
  | Some config =>
      match Config_Validate config with
      | Some err => inr err
      | None =>
          inl (mkAProvider name (cfg_URL config) (cfg_Zone config) (cfg_TTL config)
                 (mkClient (cfg_URL config) (cfg_Username config) (cfg_Password config)))
      end
  end.

(** The HTTP client made of the TLS settings is the [HttpClient] at hand. *)
Definition Factory {W} `{HttpClient W} `{JsonErrors} : Registry.Factory W := λ cfg w,
  match LoadConfigFromMap (fc_Name cfg) (fc_ProviderConfig cfg) with
  | inr err => (inr err, w)
  | inl c =>
      match New (fc_Name cfg) (Some c) with
      | inr err => (inr err, w)
      | inl p => (inl (adguard_provider p), w)
      end
  end.
