(* ===== verification/AdGuardSpec.v ===== *)
(** * What the AdGuard Home provider promises

    Types are read off the answers, and the operations against a server that
    stores rewrites. *)
From S2P Require Import Prelude GoStrings GoMaps NetIP Errors ProviderTypes Effects Registry.
From S2P Require Import DnsConfig IO Http Json HttpProps AdGuard.
From Stdlib Require Import ZArith NArith.

(** ** The server *)

Definition entry_ok (e : rewriteEntry) : Prop := ascii_text (rw_Domain e) ∧ ascii_text (rw_Answer e).

Definition same_rule (d e : rewriteEntry) : bool :=
  (rw_Domain d == rw_Domain e) && (rw_Answer d == rw_Answer e).

(** How the server may write what it is sent: the domain in small letters, an
    address in another form, a name in other letters; the rule is not
    disabled. *)
Definition same_answer (a b : string) : Prop :=
  b = a ∨ (∃ ip, ParseIP a = Some ip ∧ ParseIP b = Some ip) ∨
  (ParseIP a = None ∧ ParseIP b = None ∧ ToLower b = ToLower a).
Definition kept (d a : string) (e : rewriteEntry) : Prop :=
  rw_Domain e ∈ [d; ToLower d] ∧ same_answer a (rw_Answer e) ∧ rw_Enabled e ≠ Some false.

(** What the requests do. *)
Definition added (d a : string) (l l' : list rewriteEntry) : Prop := ∃ e, kept d a e ∧ l' = l ++ [e].
Definition removed (d a : string) (l l' : list rewriteEntry) : Prop :=
  l' = List.filter (λ x, negb (same_rule x (mkRewrite d a None))) l.
Definition updated (d a d' a' : string) (l l' : list rewriteEntry) : Prop :=
  ∃ f, (∀ x, x ∈ l → same_rule x (mkRewrite d a None) = true → kept d' a' (f x)) ∧
    l' = map (λ x, if same_rule x (mkRewrite d a None) then f x else x) l.

(** The API's documents and URLs. *)
Definition document (d a : string) : json := JObj [("domain", JStr d); ("answer", JStr a)].
Definition rewrite_url (c : Client) (rest : string) : string := cl_baseURL c ++s "/control/rewrite/" ++s rest.

(** What the API promises: the rules are listed as they are kept; a change
    accepted is made. *)
Class AdGuardServer {W} `{HttpClient W} `{JsonErrors} (c : Client) (view : W → list rewriteEntry) := {
  ah_list rq w res w' :
    rq_Method rq = "GET" → rq_URL rq = rewrite_url c "list" → http_Do rq w = (res, w') →
    view w' = view w ∧
    ∀ resp l, res = inl resp → StatusCode resp = 200%Z → BodyErr resp = None →
      Unmarshal (dec_list zero_rewrite dec_rewrite) [] (Body resp) = inl l → l = view w;
  ah_add d a rq : ascii_text d → ascii_text a →
    rq_Method rq = "POST" → rq_URL rq = rewrite_url c "add" → rq_Body rq = print (document d a) →
    effect view (added d a) rq;
  ah_delete d a rq : ascii_text d → ascii_text a →
    rq_Method rq = "POST" → rq_URL rq = rewrite_url c "delete" → rq_Body rq = print (document d a) →
    effect view (removed d a) rq;
  ah_update d a d' a' rq : ascii_text d → ascii_text a → ascii_text d' → ascii_text a' →
    rq_Method rq = "PUT" → rq_URL rq = rewrite_url c "update" →
    rq_Body rq = print (JObj [("target", document d a); ("update", document d' a')]) →
    effect view (updated d a d' a') rq
}.

(** ** Records and rewrites *)

(** The answers of each type: an address of four bytes in decimal, a text that
    Go reads as an address of the other family, and a name. *)
Inductive stands_for : RecordType → string → Prop :=
| sf_address4 l : length l = 4 → Forall is_byte l → stands_for "A" (Join "." (map itoa l))
| sf_address6 a ip : ParseIP a = Some ip → take 12 ip ≠ v4_prefix → stands_for "AAAA" a
| sf_name a : a ≠ "" → ParseIP a = None → stands_for "CNAME" a.

(** The names of a zone; of no zone in particular, all. *)
Definition in_zone (zone h : string) : Prop := zone = "" ∨ h = zone ∨ ∃ a, h = a ++s "." ++s zone.

Lemma stands_for_classified t a b : stands_for t a → same_answer a b → classifyAnswer b = t ∧ t ≠ "" ∧ t ≠ RecordTypeTXT.
Proof.
  intros Ht Hs. assert (a ≠ "" ∧ classifyAnswer a = t ∧ t ≠ "" ∧ t ≠ RecordTypeTXT) as (Hne & <- & Ht' & Hx).
  { unfold classifyAnswer. destruct Ht as [l Hl Hb|a ip Hp Hv|a Hne Hp].
    - change (Join "." (map itoa l)) with (dotted l). pose proof (ParseIP_dotted l Hl Hb) as Hp.
      rewrite Hp, To4_app. split_and!; try done. intros E. by rewrite E in Hp.
    - rewrite Hp. unfold To4. rewrite bool_decide_eq_false_2 by done. split_and!; try done. by intros ->.
    - rewrite Hp. apply String.eqb_neq in Hne as E. rewrite E. done. }
  split; [|done]. unfold classifyAnswer. destruct Hs as [->|[(ip & -> & ->)|(-> & -> & Hl)]]; [done..|].
  destruct (String.eqb_spec b "") as [->|_].
  - by destruct a.
  - apply String.eqb_neq in Hne. by rewrite Hne.
Qed.

Lemma listed_kept p t d a e :
  stands_for t a → kept d a e → (∀ h, h ∈ [d; ToLower d] → in_zone (ap_zone p) h) →
  ∃ r, listed p e = Some r ∧ r_Hostname r ∈ [d; ToLower d] ∧ r_Type r = t ∧ same_answer a (r_Target r) ∧
       r_TTL r = ap_ttl p.
Proof.
  intros Ht (Hd & Ha & He) Hz. destruct (stands_for_classified _ _ _ Ht Ha) as (Hc & Hne & _).
  specialize (Hz _ Hd). unfold listed. rewrite Hc.
  assert (match rw_Enabled e with Some false => true | _ => false end = false) as ->
    by (by destruct (rw_Enabled e) as [[]|]).
  destruct (String.eqb_spec t "") as [|_]; [done|].
  destruct ((ap_zone p != "") && _ && _) eqn:E; [|eexists; by split_and!].
  exfalso. repeat (apply andb_true_iff in E as [E ?]). bool_to_prop. destruct Hz as [Hz|[Hz|[b Hz]]]; try congruence.
  rewrite Hz in *. by rewrite HasSuffix_app in *.
Qed.

(** ** The operations *)

Inductive ag_op :=
| AgCreate (r : DNSRecord)
| AgDelete (r : DNSRecord)
| AgUpdate (existing desired : DNSRecord).

Definition ag_run {W} `{HttpClient W} `{JsonErrors} (p : AProvider) (o : ag_op) : IO W unit :=
  match o with
  | AgCreate r => ap_Create p r
  | AgDelete r => ap_Delete p r
  | AgUpdate e d => ap_Update p e d
  end.

(** The change of the rules; a TXT record makes none. *)
Definition ag_effect (o : ag_op) (l l' : list rewriteEntry) : Prop :=
  match o with
  | AgCreate r => if r_Type r == RecordTypeTXT then l' = l else added (r_Hostname r) (r_Target r) l l'
  | AgDelete r => if r_Type r == RecordTypeTXT then l' = l else removed (r_Hostname r) (r_Target r) l l'
  | AgUpdate e d => updated (r_Hostname e) (r_Target e) (r_Hostname d) (r_Target d) l l'
  end.

Definition ag_op_ok (o : ag_op) : Prop :=
  match o with
  | AgCreate r | AgDelete r => entry_ok (entry_of r)
  | AgUpdate e d => entry_ok (entry_of e) ∧ entry_ok (entry_of d)
  end.

Section Refinement.
Context {W : Type} `{HttpClient W} `{JsonErrors} (p : AProvider).
Context (view : W → list rewriteEntry) `{!AdGuardServer (ap_client p) view}.
#[local] Abbreviation c := (ap_client p).

Lemma expect_ok_run r (w : W) :
  (∃ body, expect_ok r w = (inl body, w) ∧ r = (body, StatusOK)) ∨ ∃ e, expect_ok r w = (inr e, w).
Proof using Type.
  destruct r as [body st]. unfold expect_ok. destruct (_ || _); [by right; eexists|].
  destruct (st =? StatusOK)%Z eqn:E; [|by right; eexists].
  apply Z.eqb_eq in E as ->. left. by exists body.
Qed.

(** A request, in the terms of its answer. *)
Lemma doRequest_answer m path body (w : W) r w' :
  doRequest c m path body w = (r, w') →
  (w' = w ∧ ∃ e, r = inr e) ∨
  ∃ res, http_Do (api_request c m path body) w = (res, w') ∧
    ∀ b st, r = inl (b, st) → ∃ resp, res = inl resp ∧ StatusCode resp = st ∧ BodyErr resp = None ∧ Body resp = b.
Proof using Type.
  unfold doRequest. destruct (http_NewRequest _ _) as [e|]; [intros [= <- <-]; left; by eauto|].
  rewrite io_bind_run, io_wrap_run. destruct (http_Do _ w) as [[resp|e] w1]; simpl;
    [|intros [= <- <-]; right; by eexists].
  rewrite io_bind_run, io_wrap_run. unfold io_lift, ReadBody.
  destruct (_ <? Z.of_nat _)%Z; [intros [= <- <-]; right; by eexists|].
  destruct (BodyErr resp) as [e|] eqn:Eb; intros [= <- <-]; right; [by eexists|].
  exists (inl resp). split; [done|]. intros b st [= <- <-]. by exists resp.
Qed.

(** A request whose answer is checked and dropped, wrapped twice. *)
Lemma checked f g m path body w res w' (R : list rewriteEntry → list rewriteEntry → Prop) :
  io_wrap f (r ← io_wrap g (doRequest c m path body); _ ← expect_ok r; mret tt) w = (res, w') →
  effect view R (api_request c m path body) →
  (view w' = view w ∨ R (view w) (view w')) ∧ (res = inl tt → R (view w) (view w')).
Proof using Type.
  rewrite io_wrap_run, io_bind_run, io_wrap_run. intros E He.
  destruct (doRequest c m path body w) as [r w1] eqn:Ed.
  destruct (doRequest_answer _ _ _ _ _ _ Ed) as [[-> [e ->]]|(res0 & Hdo & Ha)].
  { injection E as <- <-. by split; [left|]. }
  destruct (He _ _ _ Hdo) as [Hor H2]. destruct r as [r|e]; [|injection E as <- <-; by split].
  rewrite io_bind_run in E. destruct (expect_ok_run r w1) as [(b & Hr & ->)|[e Hr]]; rewrite Hr in E;
    injection E as <- <-; split; try done. intros _.
  destruct (Ha _ _ eq_refl) as (resp & -> & Hst & _). eapply H2; [done|]. by rewrite Hst.
Qed.

Lemma supported_run r (op : IO W unit) w res w' :
  supported r op w = (res, w') →
  op w = (res, w') ∧ r_Type r ≠ RecordTypeTXT ∨
  w' = w ∧ (res = inl tt → r_Type r = RecordTypeTXT).
Proof using Type.
  unfold supported. destruct (_ || _) eqn:E.
  - intros Hr. left. split; [done|]. intros Ht. by rewrite Ht in E.
  - destruct (String.eqb_spec (r_Type r) RecordTypeTXT); intros [= <- <-]; by right.
Qed.

(** A change that succeeds is made; one that fails is made or not. *)
Theorem adguard_refines o w res w' :
  ag_op_ok o → ag_run p o w = (res, w') →
  (view w' = view w ∨ ag_effect o (view w) (view w')) ∧
  (res = inl tt → ag_effect o (view w) (view w')).
Proof using AdGuardServer0.
  destruct o as [r|r|e d]; simpl; intros Ho Hr.
  - apply supported_run in Hr as [[Hr Ht]|[-> Ht]].
    + destruct (String.eqb_spec (r_Type r) RecordTypeTXT); [done|]. eapply checked; [exact Hr|].
      by apply ah_add; try apply Ho.
    + split; [by left|]. intros Hok. by rewrite (Ht Hok).
  - apply supported_run in Hr as [[Hr Ht]|[-> Ht]].
    + destruct (String.eqb_spec (r_Type r) RecordTypeTXT); [done|]. eapply checked; [exact Hr|].
      by apply ah_delete; try apply Ho.
    + split; [by left|]. intros Hok. by rewrite (Ht Hok).
  - destruct Ho as [He Hd]. eapply checked; [exact Hr|]. apply ah_update; try apply He; try apply Hd; done.
Qed.

Lemma ap_List_view w l w' : ap_List p w = (inl l, w') → l = omap (listed p) (view w).
Proof using AdGuardServer0.
  unfold ap_List, client_List. rewrite io_bind_run, io_wrap_run, io_bind_run, io_wrap_run.
  destruct (doRequest c _ _ _ w) as [[r|e] w1] eqn:E; [|done]. rewrite io_bind_run.
  destruct (doRequest_answer _ _ _ _ _ _ E) as [[_ [e He]]|(res & Hd & Ha)]; [done|].
  apply ah_list in Hd as [_ Hl]; [|done..].
  destruct (expect_ok_run r w1) as [(body & -> & ->)|[e ->]]; [|done].
  rewrite io_wrap_run. unfold io_lift. destruct (Unmarshal _ _ body) as [l1|e] eqn:Eu; [|done].
  destruct (Ha _ _ eq_refl) as (resp & -> & Hst & Hb & <-).
  intros [= <- _]. by rewrite (Hl _ _ eq_refl Hst Hb Eu).
Qed.

(** C24. An A, AAAA or CNAME record of the zone, whose target is an address of its
    family or a name, is listed once it is created: under its name, which the
    server may put in small letters, with its type and the same target. *)
Theorem adguard_created_listed r w1 w2 w3 l :
  ascii_text (r_Hostname r) → ascii_text (r_Target r) → stands_for (r_Type r) (r_Target r) →
  (∀ h, h ∈ [r_Hostname r; ToLower (r_Hostname r)] → in_zone (ap_zone p) h) →
  ap_Create p r w1 = (inl tt, w2) → ap_List p w2 = (inl l, w3) →
  ∃ r', r' ∈ l ∧ r_Hostname r' ∈ [r_Hostname r; ToLower (r_Hostname r)] ∧ r_Type r' = r_Type r ∧
        same_answer (r_Target r) (r_Target r').
Proof using AdGuardServer0.
  intros Hd Ha Hs Hz Hc ->%ap_List_view.
  apply (adguard_refines (AgCreate r)) in Hc as [_ Hv]; [|by split]. specialize (Hv eq_refl). simpl in Hv.
  destruct (stands_for_classified _ _ (r_Target r) Hs) as (_ & _ & Ht); [by left|].
  apply String.eqb_neq in Ht. rewrite Ht in Hv. destruct Hv as (e & He & Hv).
  destruct (listed_kept _ _ _ _ _ Hs He Hz) as (r' & Hl & Hh & Hty & Htg & _).
  exists r'. split_and!; try done. apply list_elem_of_omap. exists e.
  rewrite Hv. split; [|done]. apply elem_of_app. right. by apply list_elem_of_singleton.
Qed.
End Refinement.

(** ** A server in memory

    It writes domains in small letters; a document it does not read, or cannot
    write, is an error of the server. *)
#[local] Existing Instance no_json_errors.
#[local] Instance entry_ok_dec e : Decision (entry_ok e).
Proof. unfold entry_ok, ascii_text. apply _. Defined.

Definition list_answer (l : list rewriteEntry) : HTTPResponse :=
  if decide (Forall entry_ok l) then answer 200 (print (JArr (map rewrite_json l))) else answer 500 "".

Definition dec_update : decoder (rewriteEntry * rewriteEntry) :=
  dec_struct
    [mk_field "target" fst (λ v u, (v, u.2)) dec_rewrite;
     mk_field "update" snd (λ v u, (u.1, v)) dec_rewrite].

Definition server_rule (e : rewriteEntry) : rewriteEntry :=
  mkRewrite (ToLower (rw_Domain e)) (rw_Answer e) (Some true).

Definition server_do (base : string) (rq : HTTPRequest) (l : list rewriteEntry)
  : HTTPResponse * list rewriteEntry :=
  let at_ path := rq_URL rq == base ++s "/control" ++s path in
  if rq_Method rq == "GET" then (list_answer l, l)
  else if rq_Method rq == "PUT" then
    match Unmarshal dec_update (zero_rewrite, zero_rewrite) (rq_Body rq) with
    | inl (t, u) => (answer 200 "", map (λ x, if same_rule x t then server_rule u else x) l)
    | inr _ => (answer 400 "", l)
    end
  else
    match Unmarshal dec_rewrite zero_rewrite (rq_Body rq) with
    | inr _ => (answer 400 "", l)
    | inl e =>
        if at_ "/rewrite/add" then (answer 200 "", l ++ [server_rule e])
        else (answer 200 "", List.filter (λ x, negb (same_rule x e)) l)
    end.

Definition memory_http (base : string) : HttpClient (list rewriteEntry) := {|
  http_NewRequest _ _ := None;
  http_Do rq l := let '(a, l') := server_do base rq l in (inl a, l')
|}.

Lemma wf_rewrite_json e : entry_ok e → wf_json 1 (rewrite_json e).
Proof.
  intros [Hd Ha]. apply (wf_obj 0). rewrite Forall_app. split; [repeat constructor; done|].
  destruct (rw_Enabled e); [|constructor]. repeat constructor; done.
Qed.

Lemma dec_rewrite_json e : dec_rewrite zero_rewrite (rewrite_json e) = Some e.
Proof. by destruct e as [d a [[]|]]. Qed.

Section Memory.
Context (c : Client).
#[local] Instance server_http : HttpClient (list rewriteEntry) := memory_http (cl_baseURL c).

Lemma Unmarshal_rewrite e :
  entry_ok e → Unmarshal dec_rewrite zero_rewrite (print (rewrite_json e)) = inl e.
Proof. intros He. rewrite (Unmarshal_print _ _ 1), dec_rewrite_json; [done|by apply wf_rewrite_json|done]. Qed.

Lemma Unmarshal_update t u :
  entry_ok t → entry_ok u →
  Unmarshal dec_update (zero_rewrite, zero_rewrite) (print (update_json t u)) = inl (t, u).
Proof.
  intros Ht Hu. rewrite (Unmarshal_print _ _ 2); [|apply (wf_obj 1)|done].
  - destruct t as [d a [[]|]], u as [d' a' [[]|]]; reflexivity.
  - apply Forall_cons. split; [split; [done|by apply wf_rewrite_json]|].
    apply Forall_singleton. split; [done|by apply wf_rewrite_json].
Qed.

Lemma Unmarshal_list l :
  Forall entry_ok l →
  Unmarshal (dec_list zero_rewrite dec_rewrite) [] (print (JArr (map rewrite_json l))) = inl l.
Proof.
  intros Hl. rewrite (Unmarshal_print _ _ 2); [|apply (wf_arr 1)|done].
  - cbn [dec_list]. rewrite dec_all_map; [done|]. apply Forall_true. apply dec_rewrite_json.
  - apply Forall_fmap. eapply Forall_impl; [exact Hl|]. intros e. apply wf_rewrite_json.
Qed.

Lemma server_kept d a o : kept d a (server_rule (mkRewrite d a o)).
Proof. split_and!; [right; by left|by left|done]. Qed.

Lemma ag_memory_effect rq (R : list rewriteEntry → list rewriteEntry → Prop) :
  (∀ l, R l (server_do (cl_baseURL c) rq l).2) → effect id R rq.
Proof.
  intros HR l r l'. unfold http_Do, server_http, memory_http. specialize (HR l).
  destruct (server_do _ rq l) as [a l1]. intros [= <- <-]. simpl in HR. split; [by right|done].
Qed.

Lemma at_add :
  (cl_baseURL c ++s "/control/rewrite/delete" == cl_baseURL c ++s "/control/rewrite/add") = false.
Proof. apply String.eqb_neq. by intros H%app_inj_prefix. Qed.

(** It is a server as the provider expects one. *)
Lemma ag_memory_server : AdGuardServer c id.
Proof.
  split.
  - intros rq w res w' Hm Hu. unfold http_Do, server_http, memory_http, server_do. rewrite Hm.
    change ("GET" == "GET") with true. cbn iota. intros [= <- <-]. split; [done|].
    intros resp l [= <-] Hst _. unfold list_answer in *. case_decide as Hok; [|done]. cbn [Body answer].
    rewrite Unmarshal_list by done. by intros [= <-].
  - intros d a rq Hd Ha Hm Hu Hb. apply ag_memory_effect. intros l. unfold server_do. rewrite Hm, Hb, Hu.
    change ("POST" == "GET") with false. change ("POST" == "PUT") with false. cbn iota.
    change (document d a) with (rewrite_json (mkRewrite d a None)). rewrite Unmarshal_rewrite by done.
    unfold rewrite_url. change ("/control/rewrite/" ++s "add") with ("/control" ++s "/rewrite/add").
    rewrite String.eqb_refl. exists (server_rule (mkRewrite d a None)). split; [apply server_kept|done].
  - intros d a rq Hd Ha Hm Hu Hb. apply ag_memory_effect. intros l. unfold server_do. rewrite Hm, Hb, Hu.
    change ("POST" == "GET") with false. change ("POST" == "PUT") with false. cbn iota.
    change (document d a) with (rewrite_json (mkRewrite d a None)). rewrite Unmarshal_rewrite by done.
    unfold rewrite_url. change ("/control" ++s "/rewrite/add") with ("/control/rewrite/add").
    change ("/control/rewrite/" ++s "delete") with ("/control/rewrite/delete"). by rewrite at_add.
  - intros d a d' a' rq Hd Ha Hd' Ha' Hm Hu Hb. apply ag_memory_effect. intros l. unfold server_do. rewrite Hm, Hb.
    change ("PUT" == "GET") with false. change ("PUT" == "PUT") with true. cbn iota.
    change (JObj [("target", document d a); ("update", document d' a')])
      with (update_json (mkRewrite d a None) (mkRewrite d' a' None)).
    rewrite Unmarshal_update by done. exists (λ _, server_rule (mkRewrite d' a' None)).
    split; [intros; apply server_kept|done].
Qed.
End Memory.

(** ** Scenario *)

Definition demo : AProvider :=
  mkAProvider "ag" "http://adguard:3000" "home.example" 300 (mkClient "http://adguard:3000" "admin" "pw").

#[local] Instance demo_http : HttpClient (list rewriteEntry) := memory_http (cl_baseURL (ap_client demo)).
#[local] Instance demo_server : AdGuardServer (ap_client demo) id := ag_memory_server _.

Definition demo_rules : list rewriteEntry :=
  [mkRewrite "nas.home.example" "192.0.2.7" None; mkRewrite "*.ads.example" "" (Some false)].

Lemma adguard_refines_witness :
  let o := AgDelete (mkRecord "nas.home.example" RecordTypeA "192.0.2.7" 0 "" None None ∅) in
  (ag_run demo o demo_rules).2 = [mkRewrite "*.ads.example" "" (Some false)].
Proof.
  intros o. assert ((ag_run demo o demo_rules).1 = inl tt) as E by (vm_compute; reflexivity).
  destruct (adguard_refines demo id o demo_rules (inl tt) (ag_run demo o demo_rules).2) as [_ H].
  - split; reflexivity.
  - exact (pair_inl _ _ _ E).
  - exact (H eq_refl).
Defined.

Lemma adguard_created_listed_witness :
  let r := mkRecord "App.home.example" RecordTypeAAAA "2001:db8::1" 120 "" None None ∅ in
  let w' := (ap_Create demo r demo_rules).2 in
  ∃ l r', (ap_List demo w').1 = inl l ∧ r' ∈ l ∧
    r_Hostname r' ∈ ["App.home.example"; "app.home.example"] ∧ r_Type r' = RecordTypeAAAA ∧
    same_answer "2001:db8::1" (r_Target r').
Proof.
  intros r w'.
  assert ((ap_Create demo r demo_rules).1 = inl tt) as Hc by (vm_compute; reflexivity).
  destruct (runs_inl (ap_List demo w').1) as [l Hl]; [vm_compute; reflexivity|].
  destruct (adguard_created_listed demo id r demo_rules w' (ap_List demo w').2 l)
    as (r' & Hin & Hh & Ht & Hg).
  - reflexivity.
  - reflexivity.
  - eapply sf_address6; [vm_compute; reflexivity|]. vm_compute. discriminate.
  - intros h Hh. right; right. apply elem_of_cons in Hh as [->|Hh%list_elem_of_singleton].
    + exists "App". reflexivity.
    + exists "app". rewrite Hh. vm_compute. reflexivity.
  - exact (pair_inl _ _ _ Hc).
  - exact (pair_inl _ _ _ Hl).
  - exists l, r'. split; [exact Hl|]. split; [exact Hin|]. split; [exact Hh|]. split; [exact Ht|exact Hg].
Defined.

(** A zone in capitals does not hold the names that the server puts in small
    letters: what is created is never listed. *)
Example zone_in_capitals :
  let p := mkAProvider "ag" "http://adguard:3000" "Home.example" 300 (ap_client demo) in
  let r := mkRecord "app.Home.example" RecordTypeA "192.0.2.9" 0 "" None None ∅ in
  (ap_List p (ap_Create p r []).2).1 = inl [].
Proof. by vm_compute. Qed.

(** An address of the other family is listed under its own type. *)
Example type_is_the_answers :
  (listed demo (entry_of (mkRecord "app.home.example" RecordTypeA "2001:db8::1" 0 "" None None ∅)))
  = Some (mkRecord "app.home.example" RecordTypeAAAA "2001:db8::1" 300 "app.home.example:2001:db8::1" None None ∅).
Proof. by vm_compute. Qed.
