(* ===== verification/Webhook.v ===== *)
(** * The webhook provider (providers/webhook)

    Records by way of an HTTP service of the operator's: the client, which
    tries again when the service is busy, and the provider's operations.
    Waiting belongs to the world, as does the end of the context; logging is
    left out.  Not modelled: the constructors [NewFromMap] and [NewFromEnv]
    (with [LoadConfig]), which the program does not call. *)
From S2P Require Import Prelude GoStrings GoTime NetIP Errors ProviderTypes Effects Registry.
From S2P Require Import DnsRecord DnsConfig IO Http Json Dnsmasq.
From Stdlib Require Import ZArith.

(** ** Data (client.go) *)

Record RecordRequest := mkRecordRequest {
  q_Hostname : string;
  q_Type : string;
  q_Value : string;
  q_TTL : Z;
  q_SRV : nilable SRVData
}.

Record RecordResponse := mkRecordResponse {
  a_Hostname : string;
  a_Type : string;
  a_Value : string;
  a_TTL : Z;
  a_ID : string;
  a_SRV : nilable SRVData
}.

Record UpdateRequest := mkUpdateRequest {
  u_Hostname : string;
  u_Type : string;
  u_OldValue : string;
  u_NewValue : string;
  u_TTL : Z;
  u_SRV : nilable SRVData;
  u_OldSRV : nilable SRVData
}.

Definition zero_srv : SRVData := mkSRVData 0 0 0.
Definition zero_response : RecordResponse := mkRecordResponse "" "" "" 0 "" None.

Definition dec_srv : decoder SRVData :=
  dec_struct
    [mk_field "priority" srv_Priority (λ v s, mkSRVData v (srv_Weight s) (srv_Port s)) dec_uint16;
     mk_field "weight" srv_Weight (λ v s, mkSRVData (srv_Priority s) v (srv_Port s)) dec_uint16;
     mk_field "port" srv_Port (λ v s, mkSRVData (srv_Priority s) (srv_Weight s) v) dec_uint16].

Definition dec_response : decoder RecordResponse :=
  dec_struct
    [mk_field "hostname" a_Hostname (λ v r, mkRecordResponse v (a_Type r) (a_Value r) (a_TTL r) (a_ID r) (a_SRV r)) dec_string;
     mk_field "type" a_Type (λ v r, mkRecordResponse (a_Hostname r) v (a_Value r) (a_TTL r) (a_ID r) (a_SRV r)) dec_string;
     mk_field "value" a_Value (λ v r, mkRecordResponse (a_Hostname r) (a_Type r) v (a_TTL r) (a_ID r) (a_SRV r)) dec_string;
     mk_field "ttl" a_TTL (λ v r, mkRecordResponse (a_Hostname r) (a_Type r) (a_Value r) v (a_ID r) (a_SRV r)) dec_int;
     mk_field "id" a_ID (λ v r, mkRecordResponse (a_Hostname r) (a_Type r) (a_Value r) (a_TTL r) v (a_SRV r)) dec_string;
     mk_field "srv" a_SRV (λ v r, mkRecordResponse (a_Hostname r) (a_Type r) (a_Value r) (a_TTL r) (a_ID r) v)
       (dec_ptr zero_srv dec_srv)].

(** [ErrorResponse]: the text, the message and the code. *)
Definition dec_error : decoder (string * string * Z) :=
  dec_struct
    [mk_field "error" (λ e, e.1.1) (λ v e, (v, e.1.2, e.2)) dec_string;
     mk_field "message" (λ e, e.1.2) (λ v e, (e.1.1, v, e.2)) dec_string;
     mk_field "code" snd (λ v e, (e.1, v)) dec_int].

Definition srv_json (s : SRVData) : json :=
  JObj [("priority", JInt (srv_Priority s)); ("weight", JInt (srv_Weight s)); ("port", JInt (srv_Port s))].

Definition request_json (q : RecordRequest) : json :=
  JObj ([("hostname", JStr (q_Hostname q)); ("type", JStr (q_Type q)); ("value", JStr (q_Value q));
         ("ttl", JInt (q_TTL q))] ++ omit_nil "srv" (srv_json <$> q_SRV q)).

(** [DeleteRequest] *)
Definition delete_json (hostname recordType : string) : json :=
  JObj (("hostname", JStr hostname) :: omit_string "type" recordType).

Definition update_json (u : UpdateRequest) : json :=
  JObj ([("hostname", JStr (u_Hostname u)); ("type", JStr (u_Type u)); ("old_value", JStr (u_OldValue u));
         ("new_value", JStr (u_NewValue u)); ("ttl", JInt (u_TTL u))]
        ++ omit_nil "srv" (srv_json <$> u_SRV u) ++ omit_nil "old_srv" (srv_json <$> u_OldSRV u)).

(** ** The client (client.go) *)

Definition DefaultTimeout : Z := 30 * Second.
Definition DefaultRetries : Z := 3.
Definition DefaultRetryDelay : Z := Second.

Record Client := mkClient {
  cl_baseURL : string;
  cl_authHeader : string;
  cl_authToken : string;
  cl_retries : Z;
  cl_retryDelay : Z
}.

(** [NewClient] with the options [WithRetries] and [WithRetryDelay]. *)
Definition NewClient (baseURL authHeader authToken : string) (retries retryDelay : Z) : Client :=
  mkClient (TrimSuffix baseURL "/") authHeader authToken
    (if (0 <=? retries)%Z then retries else DefaultRetries)
    (if (0 <=? retryDelay)%Z then retryDelay else DefaultRetryDelay).

Definition isRetryable (statusCode : Z) : bool :=
  (statusCode =? 429)%Z || (statusCode =? 502)%Z || (statusCode =? 503)%Z || (statusCode =? 504)%Z.

(** Waiting for a timer; an error when the context ends first. *)
Class RetryTimer (W : Type) := retry_wait : Z → IO W unit.

(** [c.retryDelay * time.Duration(1<<(attempt-1))], in 64 bits. *)
Definition backoff (c : Client) (attempt : Z) : Z :=
  wrap64 (cl_retryDelay c * wrap64 (2 ^ (attempt - 1))).

Definition api_request (c : Client) (method path body : string) : HTTPRequest :=
  mkRequest method (cl_baseURL c ++s path)
    ([("Content-Type", "application/json"); ("Accept", "application/json")]
     ++ (if (cl_authHeader c != "") && (cl_authToken c != "")
         then [(cl_authHeader c, cl_authToken c)] else [])) body.

Section Client.
Context {W : Type} `{HttpClient W} `{JsonErrors} `{RetryTimer W} (c : Client).

(** The loop of [doRequest] from an attempt on; [fuel] is the number of
    attempts left. *)
Fixpoint attempts (fuel : nat) (attempt : Z) (method path body : string) (lastErr : error)
  : IO W (HTTPResponse * string) :=
  match fuel with
  | O => io_fail (EWrapf "max retries exceeded: " lastErr)
  | S fuel =>
      _ ← (if (0 <? attempt)%Z then retry_wait (backoff c attempt) else mret tt);
      match http_NewRequest method (cl_baseURL c ++s path) with
      | Some err => io_fail (EWrapf "creating request: " err)
      | None =>
          let again := attempts fuel (attempt + 1) method path body in
          r ← io_try (http_Do (api_request c method path body));
          match r with
          | inr err => again (EWrapf "executing request: " err)
          | inl resp =>
              match ReadBody resp 0 with
              | inr err => again (EWrapf "reading response body: " err)
              | inl respBody =>
                  if isRetryable (StatusCode resp) && (attempt <? cl_retries c)%Z
                  then again (ENew ("server returned " ++s itoa (StatusCode resp)))
                  else mret (resp, respBody)
              end
          end
      end
  end.

Definition doRequest (method path body : string) : IO W (HTTPResponse * string) :=
  attempts (Z.to_nat (cl_retries c + 1)) 0 method path body (ENew "%!w(<nil>)").

Definition client_Ping : IO W unit :=
  r ← io_wrap (EWrapf "ping failed: ") (doRequest "GET" "/ping" "");
  if negb (StatusCode r.1 =? StatusOK)%Z
  then io_fail (ENew ("ping failed: unexpected status " ++s itoa (StatusCode r.1)))
  else mret tt.

(** The error of an answer with another status: the service's own text, if it
    gives one. *)
Definition status_error (op : string) (r : HTTPResponse * string) : error :=
  let unexpected := ENew (op ++s " failed: unexpected status " ++s itoa (StatusCode r.1)) in
  match Unmarshal dec_error ("", "", 0%Z) r.2 with
  | inl e => if e.1.1 != "" then ENew (op ++s " failed: " ++s e.1.1) else unexpected
  | inr _ => unexpected
  end.

(** A request whose answer has one of the statuses. *)
Definition expect (op : string) (ok : list Z) (method path body : string) : IO W string :=
  r ← io_wrap (EWrapf (op ++s " failed: ")) (doRequest method path body);
  if existsb (Z.eqb (StatusCode r.1)) ok then mret r.2 else io_fail (status_error op r).

Definition client_List : IO W (list RecordResponse) :=
  body ← expect "list" [StatusOK] "GET" "/list" "";
  io_wrap (EWrapf "parsing list response: ")
    (io_lift (Unmarshal (dec_list zero_response dec_response) [] body)).

Definition client_Create (hostname recordType value : string) (ttl : Z) : IO W unit :=
  _ ← expect "create" [StatusOK; StatusCreated; StatusNoContent] "POST" "/create"
        (print (request_json (mkRecordRequest hostname recordType value ttl None)));
  mret tt.

Definition client_CreateSRV (hostname : string) (srv : SRVData) (target : string) (ttl : Z) : IO W unit :=
  _ ← expect "create SRV" [StatusOK; StatusCreated; StatusNoContent] "POST" "/create"
        (print (request_json (mkRecordRequest hostname "SRV" target ttl (Some srv))));
  mret tt.

Definition client_Delete (hostname recordType : string) : IO W unit :=
  _ ← expect "delete" [StatusOK; StatusNoContent; StatusNotFound] "DELETE" "/delete"
        (print (delete_json hostname recordType));
  mret tt.

Definition client_Update (hostname recordType oldValue newValue : string) (ttl : Z) : IO W unit :=
  _ ← expect "update" [StatusOK; StatusNoContent] "PUT" "/update"
        (print (update_json (mkUpdateRequest hostname recordType oldValue newValue ttl None None)));
  mret tt.

Definition client_UpdateSRV (hostname : string) (old : SRVData) (oldTarget : string)
    (new : SRVData) (newTarget : string) (ttl : Z) : IO W unit :=
  _ ← expect "update SRV" [StatusOK; StatusNoContent] "PUT" "/update"
        (print (update_json (mkUpdateRequest hostname "SRV" oldTarget newTarget ttl (Some new) (Some old))));
  mret tt.
End Client.

(** ** Configuration (config.go) *)

Record Config := mkConfig {
  cfg_URL : string;
  cfg_Timeout : Z;
  cfg_AuthHeader : string;
  cfg_AuthToken : string;
  cfg_Retries : Z;
  cfg_RetryDelay : Z
}.

Definition Config_Validate (c : Config) : option error :=
  let errs :=
    (if cfg_URL c == "" then ["URL is required"]
     else if negb (HasPrefix (cfg_URL c) "http://") && negb (HasPrefix (cfg_URL c) "https://")
          then ["URL must start with http:// or https://"] else []) ++
    (if (cfg_AuthHeader c != "") && (cfg_AuthToken c == "")
     then ["AUTH_TOKEN is required when AUTH_HEADER is set"] else []) ++
    (if (cfg_Timeout c <? 0)%Z then ["TIMEOUT must be non-negative"] else []) ++
    (if (cfg_Retries c <? 0)%Z then ["RETRIES must be non-negative"] else []) ++
    (if (cfg_RetryDelay c <? 0)%Z then ["RETRY_DELAY must be non-negative"] else []) in
  if (0 <? length errs)%nat
  then Some (ENew ("webhook config validation failed: " ++s Join "; " errs)) else None.

(** A setting that parses, or the default. *)
Definition or_default {A} (parse : string → option A) (s : string) (dflt : A) : A :=
  if s != "" then default dflt (parse s) else dflt.

(** Settings that do not parse are dropped. *)
Definition LoadConfigFromMap (instanceName : string) (m : gmap string string) : Config + error :=
  let get := setting m in
  let cfg := mkConfig (get "URL")
    (or_default ParseDuration (get "TIMEOUT") DefaultTimeout)
    (get "AUTH_HEADER") (get "AUTH_TOKEN")
    (or_default Atoi (get "RETRIES") DefaultRetries)
    (or_default ParseDuration (get "RETRY_DELAY") DefaultRetryDelay) in
  match Config_Validate cfg with
  | Some err => inr (EWrapf ("configuration for " ++s instanceName ++s ": ") err)
  | None => inl cfg
  end.

(** ** The provider (provider.go, factory.go) *)

Record WProvider := mkWProvider { wp_name : string; wp_url : string; wp_client : Client }.

Definition wp_Capabilities : Capabilities :=
  mkCapabilities true true
    [RecordTypeA; RecordTypeAAAA; RecordTypeCNAME; RecordTypeSRV; RecordTypeTXT].

Definition wp_Identity (p : WProvider) : ProviderIdentity := mkIdentity "webhook" (wp_url p) "".

(** The body of the loop of [List]. *)
Definition listed (r : RecordResponse) : option DNSRecord :=
  let t := a_Type r in
  if (t == "A") || (t == "AAAA") || (t == "CNAME") || (t == "TXT") || (t == "SRV") then
    Some (mkRecord (a_Hostname r) t (a_Value r) (a_TTL r) (a_ID r)
            (if t == RecordTypeSRV then a_SRV r else None) None ∅)
  else None.

Section Provider.
Context {W : Type} `{HttpClient W} `{JsonErrors} `{RetryTimer W} (p : WProvider).

Definition wp_Ping : IO W unit := client_Ping (wp_client p).

Definition wp_List : IO W (list DNSRecord) :=
  webhookRecords ← io_wrap (EWrapf "listing records: ") (client_List (wp_client p));
  mret (omap listed webhookRecords).

Definition wp_Create (record : DNSRecord) : IO W unit :=
  let t := r_Type record in
  let wrap := io_wrap (EWrapf ("creating " ++s t ++s " record: ")) in
  if t == RecordTypeSRV then
    match r_SRV record with
    | None => io_fail (ENew "creating SRV record: SRV data is required")
    | Some srv =>
        wrap (client_CreateSRV (wp_client p) (r_Hostname record) srv (r_Target record) (r_TTL record))
    end
  else wrap (client_Create (wp_client p) (r_Hostname record) t (r_Target record) (r_TTL record)).

Definition wp_Delete (record : DNSRecord) : IO W unit :=
  io_wrap (EWrapf ("deleting " ++s r_Type record ++s " record: "))
    (client_Delete (wp_client p) (r_Hostname record) (r_Type record)).

Definition wp_Update (existing desired : DNSRecord) : IO W unit :=
  let t := r_Type desired in
  let wrap := io_wrap (EWrapf ("updating " ++s t ++s " record: ")) in
  if t == RecordTypeSRV then
    match r_SRV desired, r_SRV existing with
    | Some new, Some old =>
        wrap (client_UpdateSRV (wp_client p) (r_Hostname desired) old (r_Target existing)
                new (r_Target desired) (r_TTL desired))
    | _, _ =>
        io_fail (ENew "updating SRV record: SRV data is required for both existing and desired records")
    end
  else wrap (client_Update (wp_client p) (r_Hostname desired) t (r_Target existing) (r_Target desired)
               (r_TTL desired)).

Definition webhook_provider : Provider W := {|
  prov_Name := wp_name p;
  prov_Type := "webhook";
  prov_Ping := io_error wp_Ping;
  prov_Capabilities := wp_Capabilities;
  prov_List := wp_List;
  prov_Create := λ r, io_error (wp_Create r);
  prov_Delete := λ r, io_error (wp_Delete r);
  prov_Update := Some (λ e d, io_error (wp_Update e d));
  prov_Identity := Some (wp_Identity p);
  prov_Close := None
|}.
End Provider.

(** The timeout is that of the client given as an option: the setting goes to
    a client that is thrown away. *)
Definition New (name : string) (config : nilable Config) : WProvider + error :=
  match config with
  | None => inr (ENew "config is required")
  | Some config =>
      match Config_Validate config with
      | Some err => inr err
      | None =>
          inl (mkWProvider name (cfg_URL config)
                 (NewClient (cfg_URL config) (cfg_AuthHeader config) (cfg_AuthToken config)
                    (cfg_Retries config) (cfg_RetryDelay config)))
      end
  end.

(** The HTTP client made of the TLS settings is the [HttpClient] at hand. *)
Definition Factory {W} `{HttpClient W} `{JsonErrors} `{RetryTimer W} : Registry.Factory W := λ cfg w,
  match LoadConfigFromMap (fc_Name cfg) (fc_ProviderConfig cfg) with
  | inr err => (inr err, w)
  | inl c =>
      match New (fc_Name cfg) (Some c) with
      | inr err => (inr err, w)
      | inl p => (inl (webhook_provider p), w)
      end
  end.
