(* ===== verification/WebhookSpec.v ===== *)
(** * What the webhook client promises

    How often a request is sent, and how long it waits in between. *)
From S2P Require Import Prelude GoStrings GoTime GoMaps Errors ProviderTypes Effects Registry.
From S2P Require Import DnsRecord DnsConfig IO Http Json HttpProps Webhook.
From Stdlib Require Import ZArith.

(** A world that counts the requests. *)
Class Counted {W} `{HttpClient W} `{RetryTimer W} (sent : W → nat) := {
  sent_do rq w : sent (http_Do rq w).2 = S (sent w);
  sent_wait d w : sent (retry_wait d w).2 = sent w
}.

Section Attempts.
Context {W : Type} `{HttpClient W} `{JsonErrors} `{RetryTimer W} (c : Client).
Context (sent : W → nat) `{!Counted sent}.

(** The ways a request can end without all its attempts: the URL is refused,
    or the context ends while it waits. *)
Definition cut_short (method path : string) : Prop :=
  http_NewRequest method (cl_baseURL c ++s path) ≠ None ∨
  ∃ d w e, (retry_wait d w).1 = inr e.

Definition attempts_end (fuel : nat) (method path : string) (w : W)
    (r : HTTPResponse * string + error) (w' : W) : Prop :=
  sent w ≤ sent w' ≤ sent w + fuel ∧
  (∀ resp body, r = inl (resp, body) →
     isRetryable (StatusCode resp) = true → sent w' = sent w + fuel) ∧
  (∀ e, r = inr e → sent w' = sent w + fuel ∨ cut_short method path).

Lemma attempts_spec fuel attempt method path body e0 w r w' :
  (0 ≤ attempt)%Z → (attempt + Z.of_nat fuel = cl_retries c + 1)%Z →
  attempts c fuel attempt method path body e0 w = (r, w') → attempts_end fuel method path w r w'.
Proof using Counted0.
  revert attempt e0 w. induction fuel as [|fuel IH]; intros attempt e0 w Ha Hf Hr.
  { injection Hr as <- <-. repeat split; [lia|lia|done|]. intros e _. left. lia. }
  cbn [attempts] in Hr. rewrite io_bind_run in Hr.
  set (m := if (0 <? attempt)%Z then _ else _) in Hr.
  assert (sent (m w).2 = sent w ∧ (∀ e, (m w).1 = inr e → cut_short method path)) as [Hm1 Hm2].
  { unfold m. destruct (0 <? attempt)%Z; [|done]. split; [apply sent_wait|].
    intros e He. right. eauto. }
  destruct (m w) as [[[]|e] w1]; simpl in Hm1, Hm2.
  2:{ injection Hr as <- <-. repeat split; [lia|lia|done|]. intros e1 _. right. by eapply Hm2. }
  destruct (http_NewRequest method (cl_baseURL c ++s path)) as [err|] eqn:En.
  { injection Hr as <- <-. repeat split; [lia|lia|done|]. intros e1 _. right. left. by rewrite En. }
  rewrite io_bind_run in Hr. unfold io_try in Hr.
  pose proof (sent_do (api_request c method path body) w1) as Hs.
  destruct (http_Do _ w1) as [r1 w2]. simpl in Hs.
  assert (∀ e, attempts c fuel (attempt + 1) method path body e w2 = (r, w') →
            attempts_end (S fuel) method path w r w') as Hagain.
  { intros e Hr'. destruct (IH (attempt + 1)%Z e w2 ltac:(lia) ltac:(lia) Hr') as (Hb & Hi & He). split; [lia|]. split.
    - intros resp b Hrb Hrt. rewrite (Hi _ _ Hrb Hrt). lia.
    - intros e1 He1. destruct (He _ He1) as [?|?]; [left; lia|by right]. }
  destruct r1 as [resp|err]; [|by eapply Hagain].
  destruct (ReadBody resp 0) as [b|err]; [|by eapply Hagain].
  destruct (isRetryable (StatusCode resp) && _) eqn:Et; [by eapply Hagain|].
  injection Hr as <- <-. repeat split; [lia|lia| |done].
  intros resp' b' [= <- <-] Hrt. rewrite Hrt in Et. simpl in Et. apply Z.ltb_ge in Et.
  assert (fuel = 0) by lia. lia.
Qed.

(** C26. A request is sent once at least when it is sent at all, and at most once
    more than the retries; an answer that calls for another try is given only
    when there is none left, and so is an error, unless the URL is refused or
    the context ends. *)
Theorem doRequest_attempts method path body w r w' :
  (0 ≤ cl_retries c)%Z → doRequest c method path body w = (r, w') →
  sent w ≤ sent w' ≤ sent w + Z.to_nat (cl_retries c + 1) ∧
  (∀ resp b, r = inl (resp, b) → isRetryable (StatusCode resp) = true →
     sent w' = sent w + Z.to_nat (cl_retries c + 1)) ∧
  (∀ e, r = inr e → sent w' = sent w + Z.to_nat (cl_retries c + 1) ∨ cut_short method path).
Proof using Counted0. intros Hc Hr. eapply attempts_spec; [| |exact Hr]; lia. Qed.
End Attempts.

(** ** Waiting *)

Lemma wrap64_small n : (- 2 ^ 63 ≤ n < 2 ^ 63)%Z → wrap64 n = n.
Proof. intros Hn. unfold wrap64. rewrite Z.mod_small; lia. Qed.

(** The delay doubles, as long as it is a number of 64 bits. *)
Lemma backoff_doubles c k :
  (0 < cl_retryDelay c)%Z → (1 ≤ k)%Z → (cl_retryDelay c * 2 ^ (k - 1) < 2 ^ 63)%Z →
  backoff c k = (cl_retryDelay c * 2 ^ (k - 1))%Z.
Proof.
  intros Hd Hk Hb. unfold backoff. pose proof (Z.pow_pos_nonneg 2 (k - 1) ltac:(lia) ltac:(lia)) as Hp.
  rewrite (wrap64_small (2 ^ (k - 1))) by nia. apply wrap64_small. nia.
Qed.

(** With the default delay the 35th wait is negative, which is no wait. *)
Example backoff_overflows :
  (map (backoff (NewClient "http://h" "" "" 40 DefaultRetryDelay)) [1; 2; 3; 34; 35]
   = [1000000000; 2000000000; 4000000000; 8589934592000000000; -1266874889709551616])%Z.
Proof. by vm_compute. Qed.

(** ** Scenario: a service that is busy twice *)

Record Busy := mkBusy { bz_answers : list Z; bz_sent : nat; bz_waits : list Z }.

#[local] Instance busy_http : HttpClient Busy := {|
  http_NewRequest _ _ := None;
  http_Do _ w := (match bz_answers w with
                  | [] => inr (ENew "connection refused")
                  | st :: _ => inl (answer st "")
                  end, mkBusy (tail (bz_answers w)) (S (bz_sent w)) (bz_waits w))
|}.
#[local] Instance busy_timer : RetryTimer Busy := λ d w,
  (inl tt, mkBusy (bz_answers w) (bz_sent w) (bz_waits w ++ [d])).
#[local] Existing Instance no_json_errors.

Lemma busy_counted : Counted bz_sent.
Proof. by split. Qed.

Definition demo : Client := NewClient "http://dns-hook:8080/" "X-Key" "secret" 3 Second.

(** It is created at the third try; with nothing but busy answers the client
    gives up after four. *)
Lemma doRequest_attempts_witness :
  let w' := (client_Delete demo "app.example.com" "A" (mkBusy [503%Z; 429%Z; 204%Z] 0 [])).2 in
  let r := doRequest demo "GET" "/ping" "" (mkBusy (replicate 9 503%Z) 0 []) in
  bz_sent w' = 3 ∧ bz_waits w' = [Second; (2 * Second)%Z] ∧ bz_sent r.2 = 4.
Proof.
  intros w' r. split; [vm_compute; reflexivity|]. split; [vm_compute; reflexivity|].
  assert (∃ resp b, r.1 = inl (resp, b) ∧ isRetryable (StatusCode resp) = true) as (resp & b & Hr & Ht).
  { eexists _, _. vm_compute. split; reflexivity. }
  assert (0 ≤ cl_retries demo)%Z as H0 by (vm_compute; discriminate).
  destruct (@doRequest_attempts Busy busy_http busy_timer demo bz_sent busy_counted "GET" "/ping" ""
              (mkBusy (replicate 9 503%Z) 0 []) r.1 r.2 H0 (surjective_pairing _)) as (_ & H & _).
  exact (H _ _ Hr Ht).
Defined.
