(* ===== verification/Technitium.v ===== *)
(** * The Technitium provider (providers/technitium)

    The client of the HTTP API, the provider's operations, and the HTTPS
    records that go with addresses and aliases.  The server is reached through
    [HttpClient]; logging is left out.  Not modelled: [ConfigError], which
    nothing makes, and [parseSvcParams], which nothing calls. *)
From S2P Require Import Prelude GoStrings GoMaps Errors ProviderTypes Effects Registry.
From S2P Require Import DnsConfig IO Http Json Url Dnsmasq AdGuard.
From Stdlib Require Import ZArith.

(** ** Data (client.go) *)

Record apiRData := mkRData {
  rd_IPAddress : string;
  rd_CName : string;
  rd_Text : string;
  rd_Priority : Z;
  rd_Weight : Z;
  rd_Port : Z;
  rd_SrvTarget : string;
  rd_SvcPriority : Z;
  rd_SvcTargetName : string;
  rd_SvcParams : string
}.

Record apiRecord := mkApiRecord {
  tr_Name : string;
  tr_Type : string;
  tr_TTL : Z;
  tr_RData : apiRData;
  tr_Disabled : bool
}.

Record apiResponse := mkApiResponse {
  ar_Status : string;
  ar_ErrorMessage : string;
  ar_Response : option json
}.

Definition zero_rdata : apiRData := mkRData "" "" "" 0 0 0 "" 0 "" "".
Definition zero_record : apiRecord := mkApiRecord "" "" 0 zero_rdata false.

(** [svcParamsValue.UnmarshalJSON]: a text, or an object whose members are
    texts and lists of texts; the other members are left out. *)
Definition svc_part (k : string) (v : json) : option string :=
  match dec_string "" v with
  | Some s => Some (k ++s "|" ++s s)
  | None => (λ l, k ++s "|" ++s Join "," l) <$> dec_list "" dec_string [] v
  end.
Definition dec_svcParams : decoder string := λ _ j,
  match dec_string "" j with
  | Some s => Some s
  | None =>
      match dec_map JNull (λ _ v, Some v) ∅ j with
      | Some obj =>
          Some (Join " " (omap (λ k, obj !! k ≫= svc_part k)
                            (sort_Strings (map fst (map_to_list obj)))))
      | None => None
      end
  end.

Definition dec_rdata : decoder apiRData :=
  dec_struct
    [mk_field "ipAddress" rd_IPAddress (λ v r, mkRData v (rd_CName r) (rd_Text r) (rd_Priority r) (rd_Weight r) (rd_Port r) (rd_SrvTarget r) (rd_SvcPriority r) (rd_SvcTargetName r) (rd_SvcParams r)) dec_string;
     mk_field "cname" rd_CName (λ v r, mkRData (rd_IPAddress r) v (rd_Text r) (rd_Priority r) (rd_Weight r) (rd_Port r) (rd_SrvTarget r) (rd_SvcPriority r) (rd_SvcTargetName r) (rd_SvcParams r)) dec_string;
     mk_field "text" rd_Text (λ v r, mkRData (rd_IPAddress r) (rd_CName r) v (rd_Priority r) (rd_Weight r) (rd_Port r) (rd_SrvTarget r) (rd_SvcPriority r) (rd_SvcTargetName r) (rd_SvcParams r)) dec_string;
     mk_field "priority" rd_Priority (λ v r, mkRData (rd_IPAddress r) (rd_CName r) (rd_Text r) v (rd_Weight r) (rd_Port r) (rd_SrvTarget r) (rd_SvcPriority r) (rd_SvcTargetName r) (rd_SvcParams r)) dec_int;
     mk_field "weight" rd_Weight (λ v r, mkRData (rd_IPAddress r) (rd_CName r) (rd_Text r) (rd_Priority r) v (rd_Port r) (rd_SrvTarget r) (rd_SvcPriority r) (rd_SvcTargetName r) (rd_SvcParams r)) dec_int;
     mk_field "port" rd_Port (λ v r, mkRData (rd_IPAddress r) (rd_CName r) (rd_Text r) (rd_Priority r) (rd_Weight r) v (rd_SrvTarget r) (rd_SvcPriority r) (rd_SvcTargetName r) (rd_SvcParams r)) dec_int;
     mk_field "target" rd_SrvTarget (λ v r, mkRData (rd_IPAddress r) (rd_CName r) (rd_Text r) (rd_Priority r) (rd_Weight r) (rd_Port r) v (rd_SvcPriority r) (rd_SvcTargetName r) (rd_SvcParams r)) dec_string;
     mk_field "svcPriority" rd_SvcPriority (λ v r, mkRData (rd_IPAddress r) (rd_CName r) (rd_Text r) (rd_Priority r) (rd_Weight r) (rd_Port r) (rd_SrvTarget r) v (rd_SvcTargetName r) (rd_SvcParams r)) dec_int;
     mk_field "svcTargetName" rd_SvcTargetName (λ v r, mkRData (rd_IPAddress r) (rd_CName r) (rd_Text r) (rd_Priority r) (rd_Weight r) (rd_Port r) (rd_SrvTarget r) (rd_SvcPriority r) v (rd_SvcParams r)) dec_string;
     mk_field "svcParams" rd_SvcParams (λ v r, mkRData (rd_IPAddress r) (rd_CName r) (rd_Text r) (rd_Priority r) (rd_Weight r) (rd_Port r) (rd_SrvTarget r) (rd_SvcPriority r) (rd_SvcTargetName r) v) dec_svcParams].

Definition dec_record : decoder apiRecord :=
  dec_struct
    [mk_field "name" tr_Name (λ v r, mkApiRecord v (tr_Type r) (tr_TTL r) (tr_RData r) (tr_Disabled r)) dec_string;
     mk_field "type" tr_Type (λ v r, mkApiRecord (tr_Name r) v (tr_TTL r) (tr_RData r) (tr_Disabled r)) dec_string;
     mk_field "ttl" tr_TTL (λ v r, mkApiRecord (tr_Name r) (tr_Type r) v (tr_RData r) (tr_Disabled r)) dec_int;
     mk_field "rData" tr_RData (λ v r, mkApiRecord (tr_Name r) (tr_Type r) (tr_TTL r) v (tr_Disabled r)) dec_rdata;
     mk_field "disabled" tr_Disabled (λ v r, mkApiRecord (tr_Name r) (tr_Type r) (tr_TTL r) (tr_RData r) v) dec_bool].

Definition dec_response : decoder apiResponse :=
  dec_struct
    [mk_field "status" ar_Status (λ v r, mkApiResponse v (ar_ErrorMessage r) (ar_Response r)) dec_string;
     mk_field "errorMessage" ar_ErrorMessage (λ v r, mkApiResponse (ar_Status r) v (ar_Response r)) dec_string;
     mk_field "response" ar_Response (λ v r, mkApiResponse (ar_Status r) (ar_ErrorMessage r) v) dec_any].

(** [zoneInfo]: name, type, disabled *)
Definition dec_zone : decoder (string * string * bool) :=
  dec_struct
    [mk_field "name" (λ z, z.1.1) (λ v z, (v, z.1.2, z.2)) dec_string;
     mk_field "type" (λ z, z.1.2) (λ v z, (z.1.1, v, z.2)) dec_string;
     mk_field "disabled" snd (λ v z, (z.1, v)) dec_bool].

(** [zoneRecordsResponse]: the zone, the name and the records; listing a zone
    reads the same without the name. *)
Definition zoneRecords : Type := (string * string * bool) * string * list apiRecord.
Definition zero_zoneRecords : zoneRecords := (("", "", false), "", []).
Definition dec_zoneRecords : decoder zoneRecords :=
  dec_struct
    [mk_field "zone" (λ r, r.1.1) (λ v r, (v, r.1.2, r.2)) dec_zone;
     mk_field "name" (λ r, r.1.2) (λ v r, (r.1.1, v, r.2)) dec_string;
     mk_field "records" snd (λ v r, (r.1, v)) (dec_list zero_record dec_record)].
Definition dec_listZone : decoder zoneRecords :=
  dec_struct
    [mk_field "zone" (λ r, r.1.1) (λ v r, (v, r.1.2, r.2)) dec_zone;
     mk_field "records" snd (λ v r, (r.1, v)) (dec_list zero_record dec_record)].

(** ** The client (client.go) *)

Record Client := mkClient { cl_baseURL : string; cl_token : string }.

Definition addEndpoint : string := "/api/zones/records/add".
Definition deleteEndpoint : string := "/api/zones/records/delete".
Definition updateEndpoint : string := "/api/zones/records/update".
Definition getEndpoint : string := "/api/zones/records/get".

(** The parameters of the requests: one value for each key. *)
Definition Params := gmap string string.

Definition request_url (c : Client) (endpoint : string) (params : Params) : string :=
  cl_baseURL c ++s endpoint ++s "?" ++s Encode (<["token" := cl_token c]> params).

Definition api_request (c : Client) (endpoint : string) (params : Params) : HTTPRequest :=
  mkRequest "GET" (request_url c endpoint params) [] "".

(** What identifies a record of a type. *)
Definition record_params (zone hostname t : string) (more : list (string * string)) : Params :=
  list_to_map ([("zone", zone); ("domain", hostname); ("type", t)] ++ more).
Definition address_params (ip : string) : list (string * string) := [("ipAddress", ip)].
Definition srv_params (priority weight port : Z) (target : string) : list (string * string) :=
  [("priority", itoa priority); ("weight", itoa weight); ("port", itoa port); ("target", target)].
Definition https_params (svcPriority : Z) (svcTargetName svcParams : string) : list (string * string) :=
  [("svcPriority", itoa svcPriority); ("svcTargetName", svcTargetName); ("svcParams", svcParams)].
Definition with_ttl (ttl : Z) (l : list (string * string)) : list (string * string) :=
  l ++ [("ttl", itoa ttl)].

Section Client.
Context {W : Type} `{HttpClient W} `{JsonErrors} (c : Client).

(** The error of an answer whose status is [error]. *)
Definition api_error (msg : string) : error :=
  let errLower := ToLower msg in
  let prefix := "API error: " ++s msg in
  if Contains errLower "record already exists" || Contains errLower "identical record"
  then EWrapf (prefix ++s ": ") (ESentinel ErrConflict)
  else if Contains errLower "cname record cannot"
  then EWrapf (prefix ++s ": ") (ESentinel ErrTypeConflict)
  else ENew prefix.

Definition doRequest (endpoint : string) (params : Params) : IO W apiResponse :=
  match http_NewRequest "GET" (request_url c endpoint params) with
  | Some err => io_fail (EWrapf "creating request: " err)
  | None =>
      resp ← io_wrap (EWrapf "executing request: ") (http_Do (api_request c endpoint params));
      body ← io_wrap (EWrapf "reading response body: ") (io_lift (ReadBody resp 0));
      if negb (StatusCode resp =? StatusOK)%Z
      then io_fail (ENew ("unexpected status code " ++s itoa (StatusCode resp) ++s ": " ++s body))
      else
        apiResp ← io_wrap (EWrapf "parsing response JSON: ")
                    (io_lift (Unmarshal dec_response (mkApiResponse "" "" None) body));
        if ar_Status apiResp == "error" then io_fail (api_error (ar_ErrorMessage apiResp))
        else mret apiResp
  end.

Definition client_Ping : IO W unit :=
  _ ← io_wrap (EWrapf "ping failed: ") (doRequest "/api/user/session/get" ∅); mret tt.

(** The requests that change a record, each with the verb of its error. *)
Definition change (endpoint verb zone hostname t : string) (more : list (string * string)) : IO W unit :=
  _ ← io_wrap (EWrapf (verb ++s " " ++s t ++s " record for " ++s hostname ++s ": "))
        (doRequest endpoint (record_params zone hostname t more));
  mret tt.
Definition add := change addEndpoint "adding".
Definition delete_ := change deleteEndpoint "deleting".
Definition update := change updateEndpoint "updating".

Definition AddARecord (zone hostname ip : string) (ttl : Z) : IO W unit :=
  add zone hostname "A" (with_ttl ttl (address_params ip)).
Definition AddAAAARecord (zone hostname ip : string) (ttl : Z) : IO W unit :=
  add zone hostname "AAAA" (with_ttl ttl (address_params ip)).
Definition AddCNAMERecord (zone hostname target : string) (ttl : Z) : IO W unit :=
  add zone hostname "CNAME" (with_ttl ttl [("cname", target)]).
Definition AddTXTRecord (zone hostname text : string) (ttl : Z) : IO W unit :=
  add zone hostname "TXT" (with_ttl ttl [("text", text)]).
Definition AddSRVRecord (zone hostname : string) (priority weight port : Z) (target : string) (ttl : Z) : IO W unit :=
  add zone hostname "SRV" (with_ttl ttl (srv_params priority weight port target)).
Definition AddHTTPSRecord (zone hostname : string) (svcPriority : Z) (svcTargetName svcParams : string) (ttl : Z)
  : IO W unit :=
  add zone hostname "HTTPS" (with_ttl ttl (https_params svcPriority svcTargetName svcParams)).

Definition DeleteARecord (zone hostname ip : string) : IO W unit :=
  delete_ zone hostname "A" (address_params ip).
Definition DeleteAAAARecord (zone hostname ip : string) : IO W unit :=
  delete_ zone hostname "AAAA" (address_params ip).
Definition DeleteCNAMERecord (zone hostname target : string) : IO W unit :=
  delete_ zone hostname "CNAME" [("cname", target)].
Definition DeleteTXTRecord (zone hostname text : string) : IO W unit :=
  delete_ zone hostname "TXT" [("text", text)].
Definition DeleteSRVRecord (zone hostname : string) (priority weight port : Z) (target : string) : IO W unit :=
  delete_ zone hostname "SRV" (srv_params priority weight port target).
Definition DeleteHTTPSRecord (zone hostname : string) (svcPriority : Z) (svcTargetName svcParams : string) : IO W unit :=
  delete_ zone hostname "HTTPS" (https_params svcPriority svcTargetName svcParams).

Definition UpdateARecord (zone hostname oldIP newIP : string) (ttl : Z) : IO W unit :=
  update zone hostname "A" (with_ttl ttl (address_params oldIP ++ [("newIpAddress", newIP)])).
Definition UpdateAAAARecord (zone hostname oldIP newIP : string) (ttl : Z) : IO W unit :=
  update zone hostname "AAAA" (with_ttl ttl (address_params oldIP ++ [("newIpAddress", newIP)])).
Definition UpdateCNAMERecord (zone hostname oldTarget newTarget : string) (ttl : Z) : IO W unit :=
  update zone hostname "CNAME" (with_ttl ttl [("cname", newTarget)]).

(** [json.Unmarshal(apiResp.Response, &result)]; without one there is no text. *)
Definition unmarshal_response (d : decoder zoneRecords) (a : apiResponse) : zoneRecords + error :=
  match ar_Response a ≫= d zero_zoneRecords with
  | Some r => inl r
  | None => inr (json_error (default "" (print <$> ar_Response a)))
  end.

Definition get_params (zone hostname : string) : Params := {["zone" := zone; "domain" := hostname]}.

Definition GetRecords (zone hostname : string) : IO W (list apiRecord) :=
  apiResp ← io_wrap (EWrapf ("getting records for " ++s hostname ++s ": "))
              (doRequest getEndpoint (get_params zone hostname));
  r ← io_wrap (EWrapf "parsing records response: ") (io_lift (unmarshal_response dec_zoneRecords apiResp));
  mret r.2.

Definition ListZoneRecords (zone : string) : IO W (list apiRecord) :=
  apiResp ← io_wrap (EWrapf ("listing zone " ++s zone ++s ": "))
              (doRequest getEndpoint (<["listZone" := "true"]> (get_params zone zone)));
  r ← io_wrap (EWrapf "parsing zone records response: ") (io_lift (unmarshal_response dec_listZone apiResp));
  mret r.2.
End Client.

(** ** Configuration (config.go) *)

Definition DefaultTTL : Z := 300.
Definition DefaultHTTPSALPN : string := "h2".

Record Config := mkConfig {
  cfg_URL : string;
  cfg_Token : string;
  cfg_Zone : string;
  cfg_TTL : Z;
  cfg_AutoHTTPSRecords : bool;
  cfg_AutoHTTPSALPN : string
}.

(** The URL is checked as AdGuard Home's is, text for text. *)
Definition Config_Validate (c : Config) : option error :=
  let errs :=
    url_errors (cfg_URL c) ++
    (if cfg_Token c == "" then ["TOKEN is required"] else []) ++
    (if cfg_Zone c == "" then ["ZONE is required"] else []) ++
    (if (cfg_TTL c <? 0)%Z then ["TTL must be non-negative"] else []) in
  if (0 <? length errs)%nat
  then Some (ENew ("technitium config validation failed: " ++s Join "; " errs)) else None.

(** The two loaders, which differ in where a setting is looked up; [secret] is
    for those that may be in a file. *)
Definition load_config (get secret : string → string) (instanceName : string) : Config + error :=
  match int_setting "TTL" (get "TTL") DefaultTTL with
  | inr err => inr err
  | inl ttl =>
      let autoHTTPS := get "AUTO_HTTPS_RECORDS" in
      let alpn := get "AUTO_HTTPS_ALPN" in
      let cfg := mkConfig (get "URL") (secret "TOKEN") (get "ZONE") ttl
                   (if autoHTTPS != "" then EqualFold autoHTTPS "true" || (autoHTTPS == "1") else true)
                   (if alpn != "" then alpn else DefaultHTTPSALPN) in
      match Config_Validate cfg with
      | Some err => inr (EWrapf ("configuration for " ++s instanceName ++s ": ") err)
      | None => inl cfg
      end
  end.

Definition LoadConfigFromMap (instanceName : string) (m : gmap string string) : Config + error :=
  load_config (setting m) (setting m) instanceName.

(** [getEnvOrFile] and [envPrefix] are those of the dnsmasq provider, text for
    text. *)
Definition LoadConfig (Getenv : string → string) (ReadSecret : string → string + error)
    (instanceName : string) : Config + error :=
  let prefix := envPrefix instanceName in
  load_config (λ key, Getenv (prefix ++s key))
    (λ key, Dnsmasq.getEnvOrFile Getenv ReadSecret (prefix ++s key) (prefix ++s key ++s "_FILE"))
    instanceName.

(** ** The provider (provider.go, companion.go) *)

Record TProvider := mkTProvider {
  tp_name : string;
  tp_url : string;
  tp_zone : string;
  tp_ttl : Z;
  tp_autoHTTPSRecords : bool;
  tp_autoHTTPSALPN : string;
  tp_client : Client
}.

Definition tp_Capabilities : Capabilities :=
  mkCapabilities true true
    [RecordTypeA; RecordTypeAAAA; RecordTypeCNAME; RecordTypeSRV; RecordTypeTXT; RecordTypeHTTPS].

Definition tp_Identity (p : TProvider) : ProviderIdentity :=
  mkIdentity "technitium" (tp_url p) (tp_zone p).

(** [uint16(min(max(0, n), math.MaxUint16))] *)
Definition clamp16 (n : Z) : Z := Z.min (Z.max 0 n) 65535.

Definition extractALPN (svcParams : string) : string :=
  let alpn param :=
    match Cut "|" param with
    | Some (k, v) => if k == "alpn" then Some v else None
    | None => None
    end in
  default "" (head (omap alpn (Split " " svcParams))).

Definition buildSvcParams (alpn : string) : string := if alpn == "" then "" else "alpn|" ++s alpn.

(** The body of the loop of [List]. *)
Definition listed (r : apiRecord) : option DNSRecord :=
  let t := tr_Type r in
  let d := tr_RData r in
  let id more := tr_Name r ++s ":" ++s t ++s ":" ++s more in
  let plain target := Some (mkRecord (tr_Name r) t target (tr_TTL r) (id target) None None ∅) in
  if (t == "A") || (t == "AAAA") then plain (rd_IPAddress d)
  else if t == "CNAME" then plain (rd_CName d)
  else if t == "TXT" then plain (rd_Text d)
  else if t == "SRV" then
    Some (mkRecord (tr_Name r) t (rd_SrvTarget d) (tr_TTL r)
            (id (itoa (rd_Priority d) ++s ":" ++s itoa (rd_Weight d) ++s ":" ++s itoa (rd_Port d) ++s ":"
                 ++s rd_SrvTarget d))
            (Some (mkSRVData (clamp16 (rd_Priority d)) (clamp16 (rd_Weight d)) (clamp16 (rd_Port d)))) None ∅)
  else if t == "HTTPS" then
    Some (mkRecord (tr_Name r) t (rd_SvcTargetName d) (tr_TTL r)
            (id (itoa (rd_SvcPriority d) ++s ":" ++s rd_SvcTargetName d ++s ":" ++s rd_SvcParams d))
            None
            (Some (mkHTTPSData (clamp16 (rd_SvcPriority d)) (rd_SvcTargetName d)
                     (extractALPN (rd_SvcParams d)))) ∅)
  else None.

Definition companionHTTPSSvcPriority : Z := 1.
Definition companionHTTPSTargetName : string := ".".

Definition needsCompanionHTTPS (t : RecordType) : bool :=
  (t == RecordTypeA) || (t == RecordTypeAAAA) || (t == RecordTypeCNAME).

Section Provider.
Context {W : Type} `{HttpClient W} `{JsonErrors} (p : TProvider).
#[local] Abbreviation c := (tp_client p).
#[local] Abbreviation zone := (tp_zone p).

Definition tp_Ping : IO W unit := client_Ping c.

Definition tp_List : IO W (list DNSRecord) :=
  apiRecords ← io_wrap (EWrapf "listing records: ") (ListZoneRecords c zone);
  mret (omap listed apiRecords).

Definition hasHTTPSRecord (hostname : string) : IO W bool :=
  records ← io_wrap (EWrapf ("checking HTTPS records for " ++s hostname ++s ": ")) (GetRecords c zone hostname);
  mret (existsb (λ r, tr_Type r == "HTTPS") records).

Definition createCompanionHTTPS (hostname : string) (t : RecordType) (ttl : Z) : IO W unit :=
  if negb (tp_autoHTTPSRecords p) then mret tt
  else if negb (needsCompanionHTTPS t) then mret tt
  else
    exists_ ← io_try (hasHTTPSRecord hostname);
    match exists_ with
    | inr _ | inl true => mret tt
    | inl false =>
        let svcParams := buildSvcParams (tp_autoHTTPSALPN p) in
        io_catch (AddHTTPSRecord c zone hostname companionHTTPSSvcPriority companionHTTPSTargetName svcParams ttl)
          (λ err,
            if Contains (Error err) "record already exists" || Contains (Error err) "Identical record"
            then mret tt
            else io_fail (EWrapf ("creating companion HTTPS record for " ++s hostname ++s ": ") err))
    end.

Definition deleteCompanionHTTPS (hostname : string) (t : RecordType) : IO W unit :=
  if negb (tp_autoHTTPSRecords p) then mret tt
  else if negb (needsCompanionHTTPS t) then mret tt
  else
    let svcParams := buildSvcParams (tp_autoHTTPSALPN p) in
    io_wrap (EWrapf ("deleting companion HTTPS record for " ++s hostname ++s ": "))
      (DeleteHTTPSRecord c zone hostname companionHTTPSSvcPriority companionHTTPSTargetName svcParams).

Definition record_ttl (record : DNSRecord) : Z :=
  if (r_TTL record <=? 0)%Z then tp_ttl p else r_TTL record.

(** The switch of [Create]. *)
Definition create_record (record : DNSRecord) (ttl : Z) : IO W unit :=
  let t := r_Type record in
  let h := r_Hostname record in
  let wrap := io_wrap (EWrapf ("creating " ++s t ++s " record: ")) in
  if t == RecordTypeA then wrap (AddARecord c zone h (r_Target record) ttl)
  else if t == RecordTypeAAAA then wrap (AddAAAARecord c zone h (r_Target record) ttl)
  else if t == RecordTypeCNAME then wrap (AddCNAMERecord c zone h (r_Target record) ttl)
  else if t == RecordTypeTXT then wrap (AddTXTRecord c zone h (r_Target record) ttl)
  else if t == RecordTypeSRV then
    match r_SRV record with
    | None => io_fail (ENew "creating SRV record: SRV data is required")
    | Some s => wrap (AddSRVRecord c zone h (srv_Priority s) (srv_Weight s) (srv_Port s) (r_Target record) ttl)
    end
  else if t == RecordTypeHTTPS then
    match r_HTTPS record with
    | None => io_fail (ENew "creating HTTPS record: HTTPS data is required")
    | Some s => wrap (AddHTTPSRecord c zone h (https_Priority s) (https_TargetName s)
                        (buildSvcParams (https_ALPN s)) ttl)
    end
  else io_fail (ENew ("unsupported record type: " ++s t)).

Definition tp_Create (record : DNSRecord) : IO W unit :=
  let ttl := record_ttl record in
  _ ← create_record record ttl;
  io_ignore (createCompanionHTTPS (r_Hostname record) (r_Type record) ttl).

(** The switch of [Delete]. *)
Definition delete_record (record : DNSRecord) : IO W unit :=
  let t := r_Type record in
  let h := r_Hostname record in
  let wrap := io_wrap (EWrapf ("deleting " ++s t ++s " record: ")) in
  if t == RecordTypeA then wrap (DeleteARecord c zone h (r_Target record))
  else if t == RecordTypeAAAA then wrap (DeleteAAAARecord c zone h (r_Target record))
  else if t == RecordTypeCNAME then wrap (DeleteCNAMERecord c zone h (r_Target record))
  else if t == RecordTypeTXT then wrap (DeleteTXTRecord c zone h (r_Target record))
  else if t == RecordTypeSRV then
    match r_SRV record with
    | None => io_fail (ENew "deleting SRV record: SRV data is required")
    | Some s => wrap (DeleteSRVRecord c zone h (srv_Priority s) (srv_Weight s) (srv_Port s) (r_Target record))
    end
  else if t == RecordTypeHTTPS then
    match r_HTTPS record with
    | None => io_fail (ENew "deleting HTTPS record: HTTPS data is required")
    | Some s => wrap (DeleteHTTPSRecord c zone h (https_Priority s) (https_TargetName s)
                        (buildSvcParams (https_ALPN s)))
    end
  else io_fail (ENew ("unsupported record type: " ++s t)).

Definition tp_Delete (record : DNSRecord) : IO W unit :=
  _ ← delete_record record;
  io_ignore (deleteCompanionHTTPS (r_Hostname record) (r_Type record)).

Definition tp_Update (existing desired : DNSRecord) : IO W unit :=
  let ttl := record_ttl desired in
  let t := r_Type desired in
  let h := r_Hostname existing in
  let wrap := io_wrap (EWrapf ("updating " ++s t ++s " record: ")) in
  let replace (del new : IO W unit) :=
    _ ← io_wrap (EWrapf ("deleting old " ++s t ++s " record for update: ")) del;
    io_wrap (EWrapf ("creating new " ++s t ++s " record for update: ")) new in
  if t == RecordTypeA then wrap (UpdateARecord c zone h (r_Target existing) (r_Target desired) ttl)
  else if t == RecordTypeAAAA then wrap (UpdateAAAARecord c zone h (r_Target existing) (r_Target desired) ttl)
  else if t == RecordTypeCNAME then wrap (UpdateCNAMERecord c zone h (r_Target existing) (r_Target desired) ttl)
  else if t == RecordTypeSRV then
    match r_SRV existing, r_SRV desired with
    | Some s, Some s' =>
        replace (DeleteSRVRecord c zone h (srv_Priority s) (srv_Weight s) (srv_Port s) (r_Target existing))
          (AddSRVRecord c zone (r_Hostname desired) (srv_Priority s') (srv_Weight s') (srv_Port s')
             (r_Target desired) ttl)
    | _, _ => io_fail (ENew "updating SRV record: SRV data is required")
    end
  else if t == RecordTypeHTTPS then
    match r_HTTPS existing, r_HTTPS desired with
    | Some s, Some s' =>
        replace (DeleteHTTPSRecord c zone h (https_Priority s) (https_TargetName s) (buildSvcParams (https_ALPN s)))
          (AddHTTPSRecord c zone (r_Hostname desired) (https_Priority s') (https_TargetName s')
             (buildSvcParams (https_ALPN s')) ttl)
    | _, _ => io_fail (ENew "updating HTTPS record: HTTPS data is required")
    end
  else if t == RecordTypeTXT then
    replace (DeleteTXTRecord c zone h (r_Target existing))
      (AddTXTRecord c zone (r_Hostname desired) (r_Target desired) ttl)
  else io_fail (ENew ("unsupported record type: " ++s t)).

Definition technitium_provider : Provider W := {|
  prov_Name := tp_name p;
  prov_Type := "technitium";
  prov_Ping := io_error tp_Ping;
  prov_Capabilities := tp_Capabilities;
  prov_List := tp_List;
  prov_Create := λ r, io_error (tp_Create r);
  prov_Delete := λ r, io_error (tp_Delete r);
  prov_Update := Some (λ e d, io_error (tp_Update e d));
  prov_Identity := Some (tp_Identity p);
  prov_Close := None
|}.
End Provider.

(** [New], the constructor for direct use, and [NewWithHTTPClient], that of the
    factory, which leaves the field [url] empty. *)
Definition newProvider (url : Config → string) (name : string) (config : nilable Config) : TProvider + error :=
  match config with
  | None => inr (ENew "config is required")
  | Some config =>
      match Config_Validate config with
      | Some err => inr err
      | None =>
          inl (mkTProvider name (url config) (cfg_Zone config) (cfg_TTL config)
                 (cfg_AutoHTTPSRecords config) (cfg_AutoHTTPSALPN config)
                 (mkClient (cfg_URL config) (cfg_Token config)))
      end
  end.
Definition New : string → nilable Config → TProvider + error := newProvider cfg_URL.
Definition NewWithHTTPClient : string → nilable Config → TProvider + error := newProvider (λ _, "").

(** The HTTP client made of the TLS settings is the [HttpClient] at hand. *)
Definition Factory {W} `{HttpClient W} `{JsonErrors} : Registry.Factory W := λ cfg w,
  match LoadConfigFromMap (fc_Name cfg) (fc_ProviderConfig cfg) with
  | inr err => (inr err, w)
  | inl c =>
      match NewWithHTTPClient (fc_Name cfg) (Some c) with
      | inr err => (inr err, w)
      | inl p => (inl (technitium_provider p), w)
      end
  end.
