(* ===== verification/TechnitiumSpec.v ===== *)
(** * What the Technitium provider promises

    The requests that creating a record sends, what counts as a success, and
    the identity of the instances that the factory makes. *)
From S2P Require Import Prelude GoStrings GoMaps Errors ProviderTypes Matcher Effects Instance MemProvider Registry.
From S2P Require Import Actions DnsConfig IO Http Json HttpProps Technitium.
From Stdlib Require Import ZArith.

(** ** Success *)

Section Success.
Context {W : Type} `{HttpClient W} `{JsonErrors} (c : Client).

(** Every answer 200 with a status other than [error] is a success of a
    change: a token that is refused, too. *)
Theorem any_other_status_succeeds endpoint verb zone hostname t more w resp w' body a :
  http_NewRequest "GET" (request_url c endpoint (record_params zone hostname t more)) = None →
  http_Do (api_request c endpoint (record_params zone hostname t more)) w = (inl resp, w') →
  StatusCode resp = StatusOK → ReadBody resp 0 = inl body →
  Unmarshal dec_response (mkApiResponse "" "" None) body = inl a → ar_Status a ≠ "error" →
  change c endpoint verb zone hostname t more w = (inl tt, w').
Proof.
  intros Hn Hd Hs Hb Hu Ha. unfold change. rewrite io_bind_run, io_wrap_run.
  unfold doRequest. rewrite Hn, io_bind_run, io_wrap_run, Hd, io_bind_run, io_wrap_run.
  unfold io_lift. rewrite Hb, Hs. simpl. rewrite io_bind_run, io_wrap_run, Hu.
  by destruct (String.eqb_spec (ar_Status a) "error").
Qed.
End Success.

(** ** The requests of a creation *)

Section Requests.
Context {W : Type} `{HttpClient W} `{JsonErrors} (p : TProvider).
Context (trace : W → list HTTPRequest) `{!Traced trace}.

(** A request of the API: everything is in the query, the token first of all. *)
Definition call (path : string) (params : list (string * string)) : HTTPRequest :=
  mkRequest "GET"
    (cl_baseURL (tp_client p) ++s "/api/zones/records/" ++s path ++s "?" ++s
     Encode (list_to_map (("token", cl_token (tp_client p)) :: ("zone", tp_zone p) :: params)))
    [] "".

(** What identifies a record of its type, as the API names it; nothing when
    data are missing or the type is another. *)
Definition svc_params (alpn : string) : string := if alpn == "" then "" else "alpn|" ++s alpn.
Definition record_data (r : DNSRecord) : option (list (string * string)) :=
  let t := r_Type r in
  if (t == "A") || (t == "AAAA") then Some [("ipAddress", r_Target r)]
  else if t == "CNAME" then Some [("cname", r_Target r)]
  else if t == "TXT" then Some [("text", r_Target r)]
  else if t == "SRV" then
    s ← r_SRV r;
    Some [("priority", itoa (srv_Priority s)); ("weight", itoa (srv_Weight s));
          ("port", itoa (srv_Port s)); ("target", r_Target r)]
  else if t == "HTTPS" then
    s ← r_HTTPS r;
    Some [("svcPriority", itoa (https_Priority s)); ("svcTargetName", https_TargetName s);
          ("svcParams", svc_params (https_ALPN s))]
  else None.

(** The TTL of the record, or of the provider when it has none. *)
Definition ttl_of (r : DNSRecord) : Z := if (r_TTL r <=? 0)%Z then tp_ttl p else r_TTL r.

Definition add_call (hostname t : string) (data : list (string * string)) (ttl : Z) : HTTPRequest :=
  call "add" ([("domain", hostname); ("type", t)] ++ data ++ [("ttl", itoa ttl)]).
Definition create_call (r : DNSRecord) : option HTTPRequest :=
  (λ data, add_call (r_Hostname r) (r_Type r) data (ttl_of r)) <$> record_data r.
Definition lookup_call (r : DNSRecord) : HTTPRequest := call "get" [("domain", r_Hostname r)].
Definition companion_call (r : DNSRecord) : HTTPRequest :=
  add_call (r_Hostname r) "HTTPS"
    [("svcPriority", "1"); ("svcTargetName", "."); ("svcParams", svc_params (tp_autoHTTPSALPN p))] (ttl_of r).

(** An answer that is taken: it has the status 200, and its document a status
    other than [error]. *)
Definition taken (resp : HTTPResponse) : option apiResponse :=
  if (StatusCode resp =? 200)%Z then
    match ReadBody resp 0 with
    | inr _ => None
    | inl body =>
        match Unmarshal dec_response (mkApiResponse "" "" None) body with
        | inr _ => None
        | inl doc => if ar_Status doc == "error" then None else Some doc
        end
    end
  else None.

(** The document lists the records of a name, and none of type HTTPS. *)
Definition listing (doc : apiResponse) : option zoneRecords :=
  match ar_Response doc with Some j => dec_zoneRecords zero_zoneRecords j | None => None end.
Definition without_https (doc : apiResponse) : bool :=
  match listing doc with
  | Some (_, records) => forallb (λ r, tr_Type r != "HTTPS") records
  | None => false
  end.

(** An HTTPS record goes with addresses and aliases, where that is configured. *)
Definition with_companion (r : DNSRecord) : bool :=
  tp_autoHTTPSRecords p && existsb (String.eqb (r_Type r)) ["A"; "AAAA"; "CNAME"].

Lemma doRequest_exchanges endpoint params rq w :
  api_request (tp_client p) endpoint params = rq →
  exchanges (doRequest (tp_client p) endpoint params w) (exchange taken rq w) eq.
Proof using Type.
  intros <-. unfold exchanges, doRequest, exchange. change (rq_Method (api_request _ _ _)) with "GET".
  change (rq_URL (api_request ?c ?e ?q)) with (request_url c e q).
  destruct (http_NewRequest _ _); [done|]. rewrite io_bind_run, io_wrap_run.
  destruct (http_Do _ w) as [[resp|e] w1]; [|done]. simpl. rewrite io_bind_run, io_wrap_run. unfold io_lift.
  unfold taken, StatusOK. destruct (ReadBody resp 0) as [body|e]; [|by destruct (_ =? _)%Z].
  destruct (_ =? _)%Z; [|done]. cbn [negb]. rewrite io_bind_run, io_wrap_run.
  destruct (Unmarshal _ _ _) as [doc|]; [|done]. by destruct (ar_Status doc == "error").
Qed.

Lemma change_exchanges endpoint verb h t more rq w :
  api_request (tp_client p) endpoint (record_params (tp_zone p) h t more) = rq →
  exchanges (change (tp_client p) endpoint verb (tp_zone p) h t more w) (exchange taken rq w) (λ _ _, True).
Proof using Type.
  intros Hrq. eapply bind_exchanges; [by apply wrap_exchanges, doRequest_exchanges|]. by intros; exists tt.
Qed.

Lemma create_record_exchanges r w :
  match create_call r with
  | Some rq => exchanges (create_record p r (record_ttl p r) w) (exchange taken rq w) (λ _ _, True)
  | None => ∃ e, create_record p r (record_ttl p r) w = (inr e, w)
  end.
Proof using Type.
  unfold create_record, create_call, record_data,
    RecordTypeA, RecordTypeAAAA, RecordTypeCNAME, RecordTypeTXT, RecordTypeSRV, RecordTypeHTTPS. cbv zeta.
  destruct (String.eqb_spec (r_Type r) "A") as [->|_]; [by apply wrap_exchanges, change_exchanges|].
  destruct (String.eqb_spec (r_Type r) "AAAA") as [->|_]; [by apply wrap_exchanges, change_exchanges|].
  destruct (String.eqb_spec (r_Type r) "CNAME") as [->|_]; [by apply wrap_exchanges, change_exchanges|].
  destruct (String.eqb_spec (r_Type r) "TXT") as [->|_]; [by apply wrap_exchanges, change_exchanges|].
  destruct (String.eqb_spec (r_Type r) "SRV") as [->|_].
  { destruct (r_SRV r); [by apply wrap_exchanges, change_exchanges|simpl; by eexists]. }
  destruct (String.eqb_spec (r_Type r) "HTTPS") as [->|_]; [|simpl; by eexists].
  destruct (r_HTTPS r); [by apply wrap_exchanges, change_exchanges|simpl; by eexists].
Qed.

Lemma hasHTTPSRecord_exchange r w :
  (hasHTTPSRecord p (r_Hostname r) w).2 = (exchange taken (lookup_call r) w).2 ∧
  ((hasHTTPSRecord p (r_Hostname r) w).1 = inl false ↔
   (∃ doc, (exchange taken (lookup_call r) w).1 = Some doc ∧ without_https doc = true)).
Proof using Type.
  unfold hasHTTPSRecord. rewrite io_bind_run, io_wrap_run. unfold GetRecords. rewrite io_bind_run.
  set (m := io_wrap _ _).
  assert (exchanges (m w) (exchange taken (lookup_call r) w) eq) as Hm
    by (apply wrap_exchanges, doRequest_exchanges; reflexivity).
  revert Hm. unfold exchanges. destruct (m w) as [[a|e] w1]; simpl; intros [-> Ha];
    destruct (exchange taken (lookup_call r) w) as [[doc|] w2]; simpl in Ha |- *; try done; [subst doc|].
  - rewrite io_bind_run, io_wrap_run. unfold io_lift, unmarshal_response.
    change (ar_Response a ≫= dec_zoneRecords zero_zoneRecords) with (listing a).
    destruct (listing a) as [[x l]|] eqn:E; simpl.
    + split; [done|]. transitivity (existsb (λ r, tr_Type r == "HTTPS") l = false).
      { split; [by intros [= ->]|by intros ->]. }
      assert (without_https a = negb (existsb (λ r, tr_Type r == "HTTPS") l)) as Hwo.
      { unfold without_https. rewrite E. clear. induction l as [|y l IH]; [done|]. simpl. rewrite IH.
        by destruct (tr_Type y == "HTTPS"). }
      rewrite <- negb_true_iff, <- Hwo. split; [by exists a|]. by intros (? & [= <-] & ?).
    + split; [done|]. split; [done|]. intros (? & [= <-] & Hw). unfold without_https in Hw. by rewrite E in Hw.
  - split; [done|]. split; [done|]. by intros (? & ? & ?).
Qed.

Lemma companion_trace r w :
  trace (createCompanionHTTPS p (r_Hostname r) (r_Type r) (record_ttl p r) w).2 = trace w ++
    (if with_companion r then
       sent (lookup_call r) ++
       (if from_option without_https false (exchange taken (lookup_call r) w).1 then sent (companion_call r) else [])
     else []).
Proof using Traced0.
  unfold createCompanionHTTPS, with_companion. destruct (tp_autoHTTPSRecords p); [|simpl; by rewrite app_nil_r].
  change (needsCompanionHTTPS (r_Type r)) with
    ((r_Type r == "A") || (r_Type r == "AAAA") || (r_Type r == "CNAME")).
  assert (existsb (String.eqb (r_Type r)) ["A"; "AAAA"; "CNAME"] =
          (r_Type r == "A") || (r_Type r == "AAAA") || (r_Type r == "CNAME")) as ->.
  { simpl. by rewrite orb_false_r, orb_assoc. }
  destruct (_ || _); [|simpl; by rewrite app_nil_r]. cbn [negb andb].
  rewrite io_bind_run. unfold io_try. cbv beta.
  destruct (hasHTTPSRecord_exchange r w) as [Hw Hf]. pose proof (exchange_trace trace taken (lookup_call r) w) as Ht.
  rewrite <- Hw in Ht. destruct (hasHTTPSRecord p (r_Hostname r) w) as [res w1]. simpl in Hf, Ht.
  assert (from_option without_https false (exchange taken (lookup_call r) w).1 = true ↔ res = inl false) as Hb.
  { rewrite Hf. destruct (exchange taken (lookup_call r) w).1 as [doc|]; simpl; [|naive_solver].
    split; [by exists doc|by intros (? & [= <-] & ?)]. }
  destruct res as [[]|e].
  - destruct (from_option _ _ _); [discriminate (proj1 Hb eq_refl)|]. simpl. by rewrite Ht, app_nil_r.
  - rewrite (proj2 Hb eq_refl), app_assoc, <- Ht. rewrite io_catch_run. unfold AddHTTPSRecord, add.
    pose proof (change_exchanges addEndpoint "adding" (r_Hostname r) "HTTPS"
      (with_ttl (record_ttl p r) (https_params companionHTTPSSvcPriority companionHTTPSTargetName
         (buildSvcParams (tp_autoHTTPSALPN p)))) (companion_call r) w1 eq_refl) as [Hc _].
    rewrite <- (exchange_trace trace taken), <- Hc.
    destruct (change _ _ _ _ _ _ _ w1) as [[u|err] w2]; simpl; [done|]. by destruct (_ || _).
  - destruct (from_option _ _ _); [discriminate (proj1 Hb eq_refl)|]. simpl. by rewrite Ht, app_nil_r.
Qed.

(** C25. Creating a record sends one GET request to /api/zones/records/add
    whose query holds the token, the zone, the name, the type, the data of the
    type and the TTL; it succeeds exactly when the answer has the status 200
    and a document whose status is not [error].  Then, for an address or an
    alias and where companions are configured, the name is looked up, and an
    HTTPS record of priority 1 and target [.] is added if that answer lists
    records and none of type HTTPS; what becomes of it has no part in the
    result.  A record without its data, or of another type, is an error and
    sends nothing; nor does a request whose URL does not parse. *)
Theorem Create_requests r w res w' :
  tp_Create p r w = (res, w') →
  match create_call r with
  | None => (∃ e, res = inr e) ∧ w' = w
  | Some rq =>
      let '(doc, w1) := exchange taken rq w in
      (res = inl tt ↔ doc ≠ None) ∧
      trace w' = trace w ++ sent rq ++
        (if negb (bool_decide (doc = None)) && with_companion r then
           sent (lookup_call r) ++
           (if from_option without_https false (exchange taken (lookup_call r) w1).1
            then sent (companion_call r) else [])
         else [])
  end.
Proof using Traced0.
  unfold tp_Create. rewrite io_bind_run. pose proof (create_record_exchanges r w) as Hr.
  destruct (create_call r) as [rq|].
  2:{ destruct Hr as [e ->]. intros [= <- <-]. by split; [exists e|]. }
  pose proof (exchange_trace trace taken rq w) as Ht. destruct Hr as [Hw Hr].
  destruct (create_record p r (record_ttl p r) w) as [[[]|e] w1], (exchange taken rq w) as [[doc|] w2];
    simpl in Hw, Hr, Ht; subst w2; try done.
  - intros Hc. unfold io_ignore in Hc. rewrite io_catch_run in Hc.
    pose proof (companion_trace r w1) as Hct.
    assert (negb (bool_decide (Some doc = None)) = true) as -> by done. cbn [andb].
    destruct (createCompanionHTTPS _ _ _ _ w1) as [[[]|e] w2]; simpl in Hct; injection Hc as <- <-;
      (split; [done|]); by rewrite Hct, Ht, <- app_assoc.
  - intros [= <- <-]. split; [naive_solver|]. simpl. by rewrite Ht, app_nil_r.
Qed.
End Requests.

(** ** Identity *)

Section Identity.
Context `{RegexpEngine} {W : Type} `{HttpClient W} `{JsonErrors}.

Lemma Technitium_Factory_identity cfg w (pr : Provider W) w' :
  Factory cfg w = (inl pr, w') →
  IdentityOf pr = mkIdentity "technitium" "" (setting (fc_ProviderConfig cfg) "ZONE").
Proof.
  unfold Factory. destruct (LoadConfigFromMap _ _) as [cc|] eqn:E; [|done].
  assert (cfg_Zone cc = setting (fc_ProviderConfig cfg) "ZONE") as Hz.
  { unfold LoadConfigFromMap, load_config in E. repeat case_match; by simplify_eq/=. }
  unfold NewWithHTTPClient, newProvider. destruct (Config_Validate cc); [done|].
  intros [= <- _]. by rewrite <- Hz.
Qed.

(** Instances made by the factory are taken for one backend when their zones
    agree, whatever their URLs: of two such instances with one record type,
    only the first is ever written to. *)
Theorem technitium_one_writer cfg1 cfg2 w1 w2 w1' w2' (p1 p2 : Provider W) iid1 iid2 m1 m2 :
  Factory (factoryConfig cfg1) w1 = (inl p1, w1') →
  Factory (factoryConfig cfg2) w2 = (inl p2, w2') →
  setting (ic_ProviderConfig cfg1) "ZONE" = setting (ic_ProviderConfig cfg2) "ZONE" →
  ic_RecordType cfg1 = ic_RecordType cfg2 →
  selectWriters [] [newInstance cfg1 iid1 p1 m1; newInstance cfg2 iid2 p2 m2]
    = [newInstance cfg1 iid1 p1 m1].
Proof.
  intros E1%Technitium_Factory_identity E2%Technitium_Factory_identity Hz Ht. simpl in E1, E2.
  assert (writeKey (newInstance cfg1 iid1 p1 m1) = writeKey (newInstance cfg2 iid2 p2 m2)) as Hk.
  { unfold writeKey. simpl. by rewrite E1, E2, Hz, Ht. }
  simpl. rewrite Hk. by rewrite bool_decide_true.
Qed.
End Identity.

(** ** Scenario: a server that answers every request alike *)

#[local] Existing Instance fixed_http.
#[local] Existing Instance no_json_errors.
#[local] Existing Instance glob_engine.

Definition demo_settings (url : string) : gmap string string :=
  {[ "URL" := url; "TOKEN" := "secret"; "ZONE" := "example.com" ]}.
Definition demo_config (name url : string) : ProviderInstanceConfig :=
  mkInstanceConfig name "technitium" RecordTypeA "192.0.2.1" 300 ModeManaged ["*.example.com"] [] [] [] ∅
    (demo_settings url).
Definition demo_provider : TProvider :=
  mkTProvider "tn" "" "example.com" 300 true "h2" (mkClient "http://dns:5380" "secret").
Definition app_record : DNSRecord := mkRecord "app.example.com" RecordTypeA "192.0.2.1" 0 "" None None ∅.

(** A refused token. *)
Definition refused : Fixed := mkFixed "{'status':'invalid-token','errorMessage':'Invalid token'}" [].
Lemma any_other_status_succeeds_witness :
  (AddARecord (tp_client demo_provider) "example.com" "app.example.com" "192.0.2.1" 300
     (mkFixed (quoted (fx_body refused)) [])).1 = inl tt.
Proof.
  set (w := mkFixed (quoted (fx_body refused)) []).
  unfold AddARecord, add.
  rewrite (any_other_status_succeeds (tp_client demo_provider) addEndpoint "adding" "example.com"
             "app.example.com" "A" (with_ttl 300 (address_params "192.0.2.1")) w
             (answer 200 (fx_body w)) (http_Do (api_request (tp_client demo_provider) addEndpoint
                (record_params "example.com" "app.example.com" "A" (with_ttl 300 (address_params "192.0.2.1")))) w).2
             (fx_body w) (mkApiResponse "invalid-token" "Invalid token" None));
    [reflexivity|reflexivity|reflexivity|reflexivity|vm_compute; reflexivity|vm_compute; reflexivity|discriminate].
Defined.

(** The look-up finds no record, so the HTTPS record is added. *)
Definition empty_zone : Fixed := mkFixed (quoted "{'status':'ok','response':{'records':[]}}") [].

Lemma Create_requests_witness :
  map rq_URL (fx_trace (tp_Create demo_provider app_record empty_zone).2) =
    ["http://dns:5380/api/zones/records/add?domain=app.example.com&ipAddress=192.0.2.1&token=secret&ttl=300&type=A&zone=example.com";
     "http://dns:5380/api/zones/records/get?domain=app.example.com&token=secret&zone=example.com";
     "http://dns:5380/api/zones/records/add?domain=app.example.com&svcParams=alpn%7Ch2&svcPriority=1&svcTargetName=.&token=secret&ttl=300&type=HTTPS&zone=example.com"].
Proof.
  pose proof (@Create_requests Fixed fixed_http no_json_errors demo_provider fx_trace fixed_traced
                app_record empty_zone _ _ (surjective_pairing _)) as H.
  destruct H as [_ H]. rewrite H. vm_compute. reflexivity.
Defined.

Lemma technitium_one_writer_witness :
  ∃ p1 p2 : Provider Fixed,
    Factory (factoryConfig (demo_config "inside" "http://10.0.0.53:5380")) refused = (inl p1, refused) ∧
    Factory (factoryConfig (demo_config "outside" "http://203.0.113.53:5380")) refused = (inl p2, refused) ∧
    let i1 := newInstance (demo_config "inside" "http://10.0.0.53:5380") "" p1 (mem_matcher ["*.example.com"]) in
    let i2 := newInstance (demo_config "outside" "http://203.0.113.53:5380") "" p2 (mem_matcher ["*.example.com"]) in
    selectWriters [] [i1; i2] = [i1].
Proof.
  eexists _, _. split; [reflexivity|]. split; [reflexivity|]. intros i1 i2.
  exact (technitium_one_writer (demo_config "inside" "http://10.0.0.53:5380")
           (demo_config "outside" "http://203.0.113.53:5380") refused refused refused refused _ _ "" ""
           (mem_matcher ["*.example.com"]) (mem_matcher ["*.example.com"]) eq_refl eq_refl eq_refl eq_refl).
Defined.
