(* ===== verification/Ovh.v ===== *)
(** * The OVH provider (providers/ovh)

    The client of OVHcloud's API, whose requests are signed with the server's
    time, and the provider's operations: each changes the staged zone and then
    has it published.  The server is reached through [HttpClient], the time of
    day is [Clock]; logging is left out.  Not modelled: the constructors
    [NewFromEnv] and [NewFromMap], which the program does not call. *)
From S2P Require Import Prelude GoStrings GoTime GoMaps Errors ProviderTypes Effects Registry.
From S2P Require Import DnsConfig IO Http Json Sha Dnsmasq.
From Stdlib Require Import ZArith.

(** ** Data (client.go) *)

Record ovhRecord := mkOvhRecord {
  or_ID : Z;
  or_Zone : string;
  or_SubDomain : string;
  or_FieldType : string;
  or_Target : string;
  or_TTL : Z
}.

Record recordCreateRequest := mkCreateRequest {
  cq_FieldType : string;
  cq_SubDomain : string;
  cq_Target : string;
  cq_TTL : Z
}.

Record recordUpdateRequest := mkUpdateRequest {
  uq_SubDomain : string;
  uq_Target : string;
  uq_TTL : Z
}.

Definition zero_record : ovhRecord := mkOvhRecord 0 "" "" "" "" 0.
Definition dec_record : decoder ovhRecord :=
  dec_struct
    [mk_field "id" or_ID (λ v r, mkOvhRecord v (or_Zone r) (or_SubDomain r) (or_FieldType r) (or_Target r) (or_TTL r)) dec_int;
     mk_field "zone" or_Zone (λ v r, mkOvhRecord (or_ID r) v (or_SubDomain r) (or_FieldType r) (or_Target r) (or_TTL r)) dec_string;
     mk_field "subDomain" or_SubDomain (λ v r, mkOvhRecord (or_ID r) (or_Zone r) v (or_FieldType r) (or_Target r) (or_TTL r)) dec_string;
     mk_field "fieldType" or_FieldType (λ v r, mkOvhRecord (or_ID r) (or_Zone r) (or_SubDomain r) v (or_Target r) (or_TTL r)) dec_string;
     mk_field "target" or_Target (λ v r, mkOvhRecord (or_ID r) (or_Zone r) (or_SubDomain r) (or_FieldType r) v (or_TTL r)) dec_string;
     mk_field "ttl" or_TTL (λ v r, mkOvhRecord (or_ID r) (or_Zone r) (or_SubDomain r) (or_FieldType r) (or_Target r) v) dec_int].

(** [apiError]: message, errorCode, httpCode *)
Definition dec_api_error : decoder (string * string * string) :=
  dec_struct
    [mk_field "message" (λ e, e.1.1) (λ v e, (v, e.1.2, e.2)) dec_string;
     mk_field "errorCode" (λ e, e.1.2) (λ v e, (e.1.1, v, e.2)) dec_string;
     mk_field "httpCode" snd (λ v e, (e.1, v)) dec_string].

Definition create_json (q : recordCreateRequest) : json :=
  JObj ([("fieldType", JStr (cq_FieldType q)); ("subDomain", JStr (cq_SubDomain q)); ("target", JStr (cq_Target q))]
        ++ omit_int "ttl" (cq_TTL q)).
Definition update_json (q : recordUpdateRequest) : json :=
  JObj ([("subDomain", JStr (uq_SubDomain q)); ("target", JStr (uq_Target q))] ++ omit_int "ttl" (uq_TTL q)).

(** ** The client (client.go) *)

(** The fields that do not change. *)
Record Client := mkClient {
  cl_baseURL : string;
  cl_appKey : string;
  cl_appSecret : string;
  cl_consumerKey : string
}.

(** Those that do: whether the server's time was asked for, how far it is
    ahead, and the error. *)
Record TimeState := mkTimeState {
  ts_once : bool;
  ts_delta : Z;
  ts_err : option error
}.
Definition new_time : TimeState := mkTimeState false 0 None.

Definition NewClient (baseURL appKey appSecret consumerKey : string) : Client :=
  mkClient (trim_right (Ascii.eqb "/") baseURL) appKey appSecret consumerKey.

(** The signature of a request. *)
Definition sign (c : Client) (method fullURL body : string) (timestamp : Z) : string :=
  "$1$" ++s hex (sha1 (cl_appSecret c ++s "+" ++s cl_consumerKey c ++s "+" ++s method ++s "+" ++s fullURL
                       ++s "+" ++s body ++s "+" ++s itoa timestamp)).

Definition signed_headers (c : Client) (method fullURL body : string) (timestamp : Z) : list (string * string) :=
  [("X-Ovh-Application", cl_appKey c); ("X-Ovh-Consumer", cl_consumerKey c);
   ("X-Ovh-Timestamp", itoa timestamp); ("X-Ovh-Signature", sign c method fullURL body timestamp)]
  ++ (if body == "" then [] else [("Content-Type", "application/json")]).

Definition time_request (c : Client) : HTTPRequest := mkRequest "GET" (cl_baseURL c ++s "/auth/time") [] "".
Definition signed_request (c : Client) (method path body : string) (timestamp : Z) : HTTPRequest :=
  let fullURL := cl_baseURL c ++s path in
  mkRequest method fullURL (signed_headers c method fullURL body timestamp) body.

(** The error of [strconv.ParseInt(s, 10, 64)], whose values are those of
    [Atoi]. *)
Definition parse_int_error (s : string) : error :=
  let t := unsigned_part s in
  let range := negb (t == "") && (str_forallb is_digit t || uint64_overflow 0 t) in
  ENew ("strconv.ParseInt: parsing " ++s Quote s ++s ": " ++s
        (if range then "value out of range" else "invalid syntax")).

Definition zone_path (zone : string) : string := "/domain/zone/" ++s PathEscape zone.
Definition records_path (zone : string) : string := zone_path zone ++s "/record".
Definition record_path (zone : string) (id : Z) : string := records_path zone ++s "/" ++s itoa id.
Definition refresh_path (zone : string) : string := zone_path zone ++s "/refresh".

Definition list_params (fieldType subDomain : string) : gmap string string :=
  list_to_map ((if fieldType != "" then [("fieldType", fieldType)] else [])
               ++ (if subDomain != "" then [("subDomain", subDomain)] else [])).
Definition list_path (zone fieldType subDomain : string) : string :=
  let q := Encode (list_params fieldType subDomain) in
  records_path zone ++s (if q != "" then "?" ++s q else "").

Section Client.
Context {W : Type} `{HttpClient W} `{JsonErrors} `{Clock W} (c : Client).
#[local] Notation TOp := (IO (W * TimeState)).

(** [nowFunc]: the time in seconds. *)
Definition nowFunc : IO W Z := λ w, let '(t, w') := now w in (inl (t / time_Second)%Z, w').

(** What the server's clock and ours differ by. *)
Definition fetch_delta : IO W Z :=
  let url := cl_baseURL c ++s "/auth/time" in
  match http_NewRequest "GET" url with
  | Some err => io_fail (EWrapf "creating time request: " err)
  | None =>
      resp ← io_wrap (EWrapf "fetching server time: ") (http_Do (time_request c));
      body ← io_wrap (EWrapf "reading server time: ") (io_lift (ReadBody resp 0));
      if negb (is_2xx (StatusCode resp))
      then io_fail (ENew ("fetching server time: unexpected status " ++s itoa (StatusCode resp) ++s ": " ++s body))
      else
        let text := TrimSpace body in
        match Atoi text with
        | None => io_fail (EWrapf ("parsing server time " ++s Quote body ++s ": ") (parse_int_error text))
        | Some serverTime => t ← nowFunc; mret (wrap64 (serverTime - t))
        end
  end.

Definition getTimeDelta : TOp Z :=
  s ← get_obj;
  _ ← (if ts_once s then mret tt
       else r ← io_try (net fetch_delta);
            put_obj (match r with
                     | inl delta => mkTimeState true delta None
                     | inr err => mkTimeState true 0 (Some err)
                     end));
  s ← get_obj;
  match ts_err s with
  | Some err => io_fail err
  | None => mret (ts_delta s)
  end.

(** A request that is signed with the time it is made at. *)
Definition send (delta : Z) (method path body : string) : IO W string :=
  t ← nowFunc;
  match http_NewRequest method (cl_baseURL c ++s path) with
  | Some err => io_fail (EWrapf "creating request: " err)
  | None =>
      resp ← io_wrap (EWrapf "executing request: ")
               (http_Do (signed_request c method path body (wrap64 (t + delta))));
      respBody ← io_wrap (EWrapf "reading response body: ") (io_lift (ReadBody resp 0));
      if negb (is_2xx (StatusCode resp)) then
        match Unmarshal dec_api_error ("", "", "") respBody with
        | inl (message, _, _) =>
            if message != "" then io_fail (ENew ("API error (status " ++s itoa (StatusCode resp) ++s "): " ++s message))
            else io_fail (ENew ("unexpected status code " ++s itoa (StatusCode resp) ++s ": " ++s respBody))
        | inr _ => io_fail (ENew ("unexpected status code " ++s itoa (StatusCode resp) ++s ": " ++s respBody))
        end
      else mret respBody
  end.

Definition doRequest (method path body : string) : TOp string :=
  delta ← getTimeDelta; net (send delta method path body).

(** A request whose answer is dropped. *)
Definition command (verb method path body : string) : TOp unit :=
  _ ← io_wrap (EWrapf verb) (doRequest method path body); mret tt.

Definition client_Ping (zone : string) : TOp unit :=
  command "ping failed: " "GET" (zone_path zone ++s "/soa") "".

Definition ListRecordIDs (zone fieldType subDomain : string) : TOp (list Z) :=
  body ← io_wrap (EWrapf "listing record IDs: ") (doRequest "GET" (list_path zone fieldType subDomain) "");
  io_wrap (EWrapf "parsing record IDs: ") (io_lift (Unmarshal (dec_list 0%Z dec_int) [] body)).

Definition GetRecord (zone : string) (id : Z) : TOp ovhRecord :=
  body ← io_wrap (EWrapf ("getting record " ++s itoa id ++s ": ")) (doRequest "GET" (record_path zone id) "");
  io_wrap (EWrapf ("parsing record " ++s itoa id ++s ": ")) (io_lift (Unmarshal dec_record zero_record body)).

Definition CreateRecord (zone fieldType subDomain target : string) (ttl : Z) : TOp ovhRecord :=
  body ← io_wrap (EWrapf "creating record: ")
           (doRequest "POST" (records_path zone)
              (print (create_json (mkCreateRequest fieldType subDomain target ttl))));
  io_wrap (EWrapf "parsing created record: ") (io_lift (Unmarshal dec_record zero_record body)).

Definition UpdateRecord (zone : string) (id : Z) (subDomain target : string) (ttl : Z) : TOp unit :=
  command ("updating record " ++s itoa id ++s ": ") "PUT" (record_path zone id)
    (print (update_json (mkUpdateRequest subDomain target ttl))).

Definition DeleteRecord (zone : string) (id : Z) : TOp unit :=
  command ("deleting record " ++s itoa id ++s ": ") "DELETE" (record_path zone id) "".

Definition RefreshZone (zone : string) : TOp unit :=
  command "refreshing zone: " "POST" (refresh_path zone) "".
End Client.

(** ** Configuration (config.go) *)

Definition DefaultTTL : Z := 3600.
Definition DefaultEndpoint : string := "ovh-eu".

Definition endpoints : gmap string string :=
  {["ovh-eu" := "https://eu.api.ovh.com/1.0";
    "ovh-ca" := "https://ca.api.ovh.com/1.0";
    "ovh-us" := "https://api.us.ovhcloud.com/1.0";
    "kimsufi-eu" := "https://eu.api.kimsufi.com/1.0";
    "kimsufi-ca" := "https://ca.api.kimsufi.com/1.0";
    "soyoustart-eu" := "https://eu.api.soyoustart.com/1.0";
    "soyoustart-ca" := "https://ca.api.soyoustart.com/1.0"]}.

Record Config := mkConfig {
  cfg_ApplicationKey : string;
  cfg_ApplicationSecret : string;
  cfg_ConsumerKey : string;
  cfg_Endpoint : string;
  cfg_Zone : string;
  cfg_TTL : Z
}.

Definition EndpointURL (c : Config) : string := default "" (endpoints !! cfg_Endpoint c).

Definition validEndpoints : string := Join ", " (sort_Strings (map fst (map_to_list endpoints))).

Definition Config_Validate (c : Config) : option error :=
  let ttl := cfg_TTL c in
  let errs :=
    (if cfg_ApplicationKey c == "" then ["APPLICATION_KEY is required"] else []) ++
    (if cfg_ApplicationSecret c == "" then ["APPLICATION_SECRET is required"] else []) ++
    (if cfg_ConsumerKey c == "" then ["CONSUMER_KEY is required"] else []) ++
    (if cfg_Zone c == "" then ["ZONE is required"] else []) ++
    (if cfg_Endpoint c == "" then ["ENDPOINT is required"]
     else match endpoints !! cfg_Endpoint c with
          | Some _ => []
          | None => ["ENDPOINT " ++s Quote (cfg_Endpoint c) ++s " is not a known OVH region (valid: "
                     ++s validEndpoints ++s ")"]
          end) ++
    (if (ttl <? 0)%Z then ["TTL must be non-negative"] else []) ++
    (if (0 <? ttl)%Z && (ttl <? 60)%Z then ["TTL must be at least 60 seconds (or 0 for the zone default)"] else []) in
  if (0 <? length errs)%nat then Some (ENew ("ovh config validation failed: " ++s Join "; " errs)) else None.

(** The two loaders, which differ in where a setting is looked up; [secret] is
    for those that may be in a file. *)
Definition load_config (get secret : string → string) (instanceName : string) : Config + error :=
  match int_setting "TTL" (get "TTL") DefaultTTL with
  | inr err => inr err
  | inl ttl =>
      let cfg := mkConfig (secret "APPLICATION_KEY") (secret "APPLICATION_SECRET") (secret "CONSUMER_KEY")
                   (if get "ENDPOINT" != "" then get "ENDPOINT" else DefaultEndpoint) (get "ZONE") ttl in
      match Config_Validate cfg with
      | Some err => inr (EWrapf ("configuration for " ++s instanceName ++s ": ") err)
      | None => inl cfg
      end
  end.

Definition LoadConfigFromMap (instanceName : string) (m : gmap string string) : Config + error :=
  load_config (setting m) (setting m) instanceName.

(** [getEnvOrFile] and [envPrefix] are those of the dnsmasq provider, text for
    text. *)
Definition LoadConfig (Getenv : string → string) (ReadSecret : string → string + error)
    (instanceName : string) : Config + error :=
  let prefix := envPrefix instanceName in
  load_config (λ key, Getenv (prefix ++s key))
    (λ key, getEnvOrFile Getenv ReadSecret (prefix ++s key) (prefix ++s key ++s "_FILE"))
    instanceName.

(** ** The provider (provider.go) *)

Record OProvider := mkOProvider {
  op_name : string;
  op_zone : string;
  op_endpoint : string;
  op_ttl : Z;
  op_client : Client
}.

Definition op_Capabilities : Capabilities :=
  mkCapabilities true true
    [RecordTypeA; RecordTypeAAAA; RecordTypeCNAME; RecordTypeSRV; RecordTypeTXT].

Definition op_Identity (p : OProvider) : ProviderIdentity :=
  mkIdentity "ovh" (op_endpoint p) (op_zone p).

Definition supportedFieldTypes : list string := ["A"; "AAAA"; "CNAME"; "TXT"; "SRV"].

(** [strings.Fields] of the target, and its numbers. *)
Definition parseSRVTarget (s : string) : option (SRVData * string) :=
  match Fields s with
  | [f0; f1; f2; f3] =>
      match ParseUint 16 f0, ParseUint 16 f1, ParseUint 16 f2 with
      | Some priority, Some weight, Some port => Some (mkSRVData priority weight port, f3)
      | _, _, _ => None
      end
  | _ => None
  end.

Definition quote_mark : string := String (ascii_of_nat 34) "".
Definition unquoteTXT (s : string) : string :=
  if (2 <=? String.length s)%nat && HasPrefix s quote_mark && HasSuffix s quote_mark
  then str_take (String.length s - 2) (str_drop 1 s) else s.

Definition toOVHTarget (record : DNSRecord) : string + error :=
  if r_Type record == RecordTypeSRV then
    match r_SRV record with
    | None => inr (ENew "creating SRV record: SRV data is required")
    | Some s =>
        inl (itoa (srv_Priority s) ++s " " ++s itoa (srv_Weight s) ++s " " ++s itoa (srv_Port s) ++s " "
             ++s r_Target record)
    end
  else inl (r_Target record).

Section Names.
Context (p : OProvider).

Definition effectiveTTL (recordTTL : Z) : Z := if (0 <? recordTTL)%Z then recordTTL else op_ttl p.

Definition toSubDomain (hostname : string) : string :=
  let host := TrimSuffix hostname "." in
  let zone := TrimSuffix (op_zone p) "." in
  if host == zone then ""
  else
    let suffix := "." ++s zone in
    if HasSuffix host suffix then TrimSuffix host suffix else host.

Definition toFQDN (subDomain : string) : string :=
  let zone := TrimSuffix (op_zone p) "." in
  if subDomain == "" then zone else subDomain ++s "." ++s zone.

Definition toProviderRecord (rec : ovhRecord) : DNSRecord :=
  let t := or_FieldType rec in
  let out target srv := mkRecord (toFQDN (or_SubDomain rec)) t target (or_TTL rec) (itoa (or_ID rec)) srv None ∅ in
  if t == RecordTypeSRV then
    match parseSRVTarget (or_Target rec) with
    | Some (srv, target) => out target (Some srv)
    | None => out (or_Target rec) None
    end
  else if t == RecordTypeTXT then out (unquoteTXT (or_Target rec)) None
  else out (or_Target rec) None.
End Names.

Section Provider.
Context {W : Type} `{HttpClient W} `{JsonErrors} `{Clock W} (p : OProvider).
Implicit Types (A : Type).
#[local] Notation TOp := (IO (W * TimeState)).
#[local] Abbreviation c := (op_client p).
#[local] Abbreviation zone := (op_zone p).

Definition op_Ping : TOp unit := client_Ping c zone.

Fixpoint get_all (fieldType : string) (ids : list Z) : TOp (list DNSRecord) :=
  match ids with
  | [] => mret []
  | id :: ids =>
      rec ← io_wrap (EWrapf ("getting " ++s fieldType ++s " record " ++s itoa id ++s ": ")) (GetRecord c zone id);
      l ← get_all fieldType ids;
      mret (toProviderRecord p rec :: l)
  end.

Fixpoint list_types (types : list string) : TOp (list DNSRecord) :=
  match types with
  | [] => mret []
  | t :: types =>
      ids ← io_wrap (EWrapf ("listing " ++s t ++s " record IDs: ")) (ListRecordIDs c zone t "");
      l ← get_all t ids;
      l' ← list_types types;
      mret (l ++ l')
  end.

Definition op_List : TOp (list DNSRecord) := list_types supportedFieldTypes.

Definition refresh (after : string) : TOp unit :=
  io_wrap (EWrapf ("refreshing zone after " ++s after ++s ": ")) (RefreshZone c zone).

Definition op_Create (record : DNSRecord) : TOp unit :=
  let ttl := effectiveTTL p (r_TTL record) in
  let subDomain := toSubDomain p (r_Hostname record) in
  target ← io_lift (toOVHTarget record);
  _ ← io_wrap (EWrapf ("creating " ++s r_Type record ++s " record: "))
        (CreateRecord c zone (r_Type record) subDomain target ttl);
  refresh "create".

(** The loop of [findRecord]: the first record with the target. *)
Fixpoint find_target (wantTarget : string) (ids : list Z) : TOp (nilable ovhRecord) :=
  match ids with
  | [] => mret None
  | id :: ids =>
      rec ← io_wrap (EWrapf ("getting record " ++s itoa id ++s ": ")) (GetRecord c zone id);
      if or_Target rec == wantTarget then mret (Some rec) else find_target wantTarget ids
  end.

Definition get_first (id : Z) : TOp (nilable ovhRecord) := rec ← GetRecord c zone id; mret (Some rec).

Definition findRecord (record : DNSRecord) : TOp (nilable ovhRecord) :=
  let subDomain := toSubDomain p (r_Hostname record) in
  ids ← io_wrap (EWrapf "finding record: ") (ListRecordIDs c zone (r_Type record) subDomain);
  match ids with
  | [] => mret None
  | first :: rest =>
      let wantTarget := match toOVHTarget record with inl t => t | inr _ => "" end in
      if (length rest =? 0)%nat || (wantTarget == "") then get_first first
      else
        found ← find_target wantTarget ids;
        match found with
        | Some rec => mret (Some rec)
        | None => get_first first
        end
  end.

Definition op_Delete (record : DNSRecord) : TOp unit :=
  rec ← findRecord record;
  match rec with
  | None => mret tt
  | Some rec =>
      _ ← io_wrap (EWrapf ("deleting " ++s r_Type record ++s " record: ")) (DeleteRecord c zone (or_ID rec));
      refresh "delete"
  end.

Definition op_Update (existing desired : DNSRecord) : TOp unit :=
  rec ← findRecord existing;
  match rec with
  | None => io_fail (ESentinel ErrNotFound)
  | Some rec =>
      let ttl := effectiveTTL p (r_TTL desired) in
      let subDomain := toSubDomain p (r_Hostname desired) in
      target ← io_lift (toOVHTarget desired);
      _ ← io_wrap (EWrapf ("updating " ++s r_Type desired ++s " record: "))
            (UpdateRecord c zone (or_ID rec) subDomain target ttl);
      refresh "update"
  end.

(** The provider whose client's state is object [id]. *)
Definition ovh_provider (id : nat) : Provider (OWorld W TimeState) := {|
  prov_Name := op_name p;
  prov_Type := "ovh";
  prov_Ping := io_error (run_at id op_Ping);
  prov_Capabilities := op_Capabilities;
  prov_List := run_at id op_List;
  prov_Create := λ r, io_error (run_at id (op_Create r));
  prov_Delete := λ r, io_error (run_at id (op_Delete r));
  prov_Update := Some (λ e d, io_error (run_at id (op_Update e d)));
  prov_Identity := Some (op_Identity p);
  prov_Close := None
|}.
End Provider.

Definition New (name : string) (config : nilable Config) : OProvider + error :=
  match config with
  | None => inr (ENew "config is required")
  | Some config =>
      match Config_Validate config with
      | Some err => inr err
      | None =>
          inl (mkOProvider name (cfg_Zone config) (cfg_Endpoint config) (cfg_TTL config)
                 (NewClient (EndpointURL config) (cfg_ApplicationKey config) (cfg_ApplicationSecret config)
                    (cfg_ConsumerKey config)))
      end
  end.

(** The HTTP client made of the TLS settings is the [HttpClient] at hand. *)
Definition Factory {W} `{HttpClient W} `{JsonErrors} `{Clock W} : Registry.Factory (OWorld W TimeState) := λ cfg w,
  match LoadConfigFromMap (fc_Name cfg) (fc_ProviderConfig cfg) with
  | inr err => (inr err, w)
  | inl c =>
      match New (fc_Name cfg) (Some c) with
      | inr err => (inr err, w)
      | inl p => (id ← alloc new_time; mret (ovh_provider p id)) w
      end
  end.
