(* ===== verification/OvhSpec.v ===== *)
(** * What the OVH provider promises

    Its requests are signed, the server's time is asked for once, and a change
    that succeeds is published; records are found by name, type and target. *)
From S2P Require Import Prelude GoStrings GoTime GoMaps Errors ProviderTypes Effects Registry.
From S2P Require Import DnsConfig Catalog IO Http Json HttpProps Sha Ovh.
From Stdlib Require Import ZArith.

(** ** Signatures *)

(** A request signed over its own method, URL and body with the time it
    states, which is that of a clock the server is [delta] seconds ahead of. *)
Definition signed {W} `{Clock W} (c : Client) (delta : Z) (rq : HTTPRequest) : Prop :=
  ∃ (w : W) (t : Z), t = wrap64 ((now w).1 / 1000000000 + delta) ∧
    rq_Headers rq =
      [("X-Ovh-Application", cl_appKey c); ("X-Ovh-Consumer", cl_consumerKey c);
       ("X-Ovh-Timestamp", itoa t);
       ("X-Ovh-Signature",
        "$1$" ++s hex (sha1 (cl_appSecret c ++s "+" ++s cl_consumerKey c ++s "+" ++s rq_Method rq ++s "+" ++s
                             rq_URL rq ++s "+" ++s rq_Body rq ++s "+" ++s itoa t)))]
      ++ (if rq_Body rq == "" then [] else [("Content-Type", "application/json")]).

(** The request for the server's time. *)
Definition time_asked (c : Client) : HTTPRequest := mkRequest "GET" (cl_baseURL c ++s "/auth/time") [] "".

Section Signed.
Context {W : Type} `{HttpClient W} `{JsonErrors} `{Clock W} (c : Client).
Context (trace : W → list HTTPRequest) `{!Traced trace}.
Context (Hclock : ∀ w, trace (now w).2 = trace w).
#[local] Notation TOp := (IO (W * TimeState)).

(** What an operation adds to the trace: signed requests, and before them the
    one for the time if it was not made yet. *)
Definition adds (s s' : TimeState) (l : list HTTPRequest) : Prop :=
  ∃ l1 l2, l = l1 ++ l2 ∧ Forall (signed (W:=W) c (ts_delta s')) l2 ∧
    (l1 = [] ∨ l1 = [time_asked c] ∧ ts_once s = false ∧ ts_once s' = true) ∧
    (ts_once s = true → s' = s) ∧
    (ts_once s' = false ∨ is_Some (ts_err s') → l2 = []) ∧
    (ts_once s = false → ts_once s' = true → ts_err s' = None → l1 = [time_asked c]).

Definition sends {A} (m : TOp A) : Prop := ∀ w s,
  ∃ l, trace (m (w, s)).2.1 = trace w ++ l ∧ adds s (m (w, s)).2.2 l.

Lemma adds_refl s : adds s s [].
Proof using Type. exists [], []. split_and!; [done|constructor|by left|done|done|congruence]. Qed.

Lemma adds_trans s1 s2 s3 l1 l2 : adds s1 s2 l1 → adds s2 s3 l2 → adds s1 s3 (l1 ++ l2).
Proof using Type.
  intros (a1 & b1 & -> & Hb1 & Ha1 & Hm1 & He1 & Hf1) (a2 & b2 & -> & Hb2 & Ha2 & Hm2 & He2 & Hf2).
  destruct (ts_once s2) eqn:E2.
  - rewrite (Hm2 eq_refl) in *. destruct Ha2 as [->|(_ & ? & _)]; [|congruence].
    exists a1, (b1 ++ b2). split_and!; [by rewrite <- !app_assoc|by apply Forall_app| |done| |].
    + destruct Ha1 as [->|(-> & Hs & _)]; [by left|right]. by split_and!.
    + intros [?|He]; [congruence|]. by rewrite He1, He2 by (by right).
    + auto.
  - rewrite He1 by (by left). destruct Ha1 as [->|(_ & _ & ?)]; [|congruence].
    assert (ts_once s1 = false) as E1.
    { destruct (ts_once s1) eqn:E; [|done]. rewrite (Hm1 eq_refl) in E2. congruence. }
    exists a2, b2. split_and!; [done|done| |congruence|done|auto].
    destruct Ha2 as [->|(-> & _ & ?)]; [by left|right]. by split_and!.
Qed.

Lemma sends_ret {A} (a : A) : sends (mret a).
Proof using Type. intros w s. exists []. rewrite app_nil_r. split; [done|apply adds_refl]. Qed.
Lemma sends_lift {A} (r : A + error) : sends (io_lift r).
Proof using Type. intros w s. exists []. rewrite app_nil_r. split; [done|apply adds_refl]. Qed.

Lemma sends_bind {A B} (m : TOp A) (k : A → TOp B) : sends m → (∀ a, sends (k a)) → sends (m ≫= k).
Proof using Type.
  intros Hm Hk w s. rewrite io_bind_run. destruct (Hm w s) as (l & Hl & Ha).
  destruct (m (w, s)) as [[a|e] [w1 s1]]; simpl in *; [|by exists l].
  destruct (Hk a w1 s1) as (l' & Hl' & Ha'). exists (l ++ l'). split; [by rewrite Hl', Hl, app_assoc|].
  by eapply adds_trans.
Qed.

Lemma sends_wrap {A} f (m : TOp A) : sends m → sends (io_wrap f m).
Proof using Type. intros Hm w s. rewrite io_wrap_run. specialize (Hm w s). by destruct (m (w, s)) as [[]]. Qed.

Lemma send_trace d method path body w :
  ∃ l, trace (send c d method path body w).2 = trace w ++ l ∧ Forall (signed (W:=W) c d) l.
Proof using Traced0 Hclock.
  unfold send. rewrite io_bind_run. unfold nowFunc. pose proof (Hclock w) as Hw.
  destruct (now w) as [t w1] eqn:Et. simpl in *. rewrite <- Hw. destruct (http_NewRequest _ _).
  { exists []. by rewrite app_nil_r. }
  set (rq := signed_request _ _ _ _ _). exists [rq]. rewrite io_bind_run, io_wrap_run, <- (traced rq w1).
  split; [|apply Forall_singleton; exists w; eexists; rewrite Et; by split].
  destruct (http_Do rq w1) as [[resp|e] w2]; [|done]. simpl. rewrite io_bind_run, io_wrap_run. unfold io_lift.
  destruct (ReadBody resp 0); [|done]. destruct (is_2xx _); [done|]. simpl.
  destruct (Unmarshal _ _ _) as [[[m ?] ?]|]; [|done]. by destruct (m != "").
Qed.

Lemma fetch_trace w :
  trace (fetch_delta c w).2 = trace w ++ [time_asked c] ∨
  trace (fetch_delta c w).2 = trace w ∧ ∃ e, (fetch_delta c w).1 = inr e.
Proof using Traced0 Hclock.
  unfold fetch_delta. destruct (http_NewRequest _ _); [right; split; [done|by eexists]|left].
  rewrite io_bind_run, io_wrap_run. change (time_asked c) with (time_request c).
  rewrite <- (traced (time_request c) w).
  destruct (http_Do _ w) as [[resp|e] w1]; [|done]. simpl. rewrite io_bind_run, io_wrap_run. unfold io_lift.
  destruct (ReadBody resp 0) as [b|]; [|done]. destruct (is_2xx _); [|done]. simpl.
  destruct (Atoi _); [|done]. rewrite io_bind_run. unfold nowFunc. rewrite <- (Hclock w1). by destruct (now w1).
Qed.

Lemma getTimeDelta_run w s :
  getTimeDelta c (w, s) =
    if ts_once s then (match ts_err s with Some e => inr e | None => inl (ts_delta s) end, (w, s))
    else match fetch_delta c w with
         | (inl d, w1) => (inl d, (w1, mkTimeState true d None))
         | (inr e, w1) => (inr e, (w1, mkTimeState true 0 (Some e)))
         end.
Proof using Type.
  unfold getTimeDelta, get_obj, put_obj, io_try, net, mbind, IO_bind. cbv beta iota. cbn [snd fst].
  destruct (ts_once s); [simpl; by destruct (ts_err s)|]. cbn [fst snd].
  by destruct (fetch_delta c w) as [[d|e] w1].
Qed.

Lemma sends_getTimeDelta w s :
  (∃ l, trace (getTimeDelta c (w, s)).2.1 = trace w ++ l ∧ adds s (getTimeDelta c (w, s)).2.2 l) ∧
  ∀ d, (getTimeDelta c (w, s)).1 = inl d →
    ts_once (getTimeDelta c (w, s)).2.2 = true ∧ ts_err (getTimeDelta c (w, s)).2.2 = None ∧
    ts_delta (getTimeDelta c (w, s)).2.2 = d.
Proof using Traced0 Hclock.
  rewrite getTimeDelta_run. destruct (ts_once s) eqn:Es.
  { split; [|simpl; intros d; destruct (ts_err s); by intros [= <-]].
    exists []. rewrite app_nil_r. split; [done|apply adds_refl]. }
  pose proof (fetch_trace w) as Hf.
  destruct (fetch_delta c w) as [[d|e] w1]; simpl in *; (split; [|by intros d' [= <-]]).
  - destruct Hf as [Hw|[_ [e He]]]; [|done]. exists [time_asked c]. split; [done|].
    exists [time_asked c], []. split_and!; try done; [by right|congruence].
  - destruct Hf as [Hw|[Hw _]].
    + exists [time_asked c]. split; [done|]. exists [time_asked c], []. split_and!; try done; [by right|congruence].
    + exists []. rewrite app_nil_r. split; [done|].
      exists [], []. split_and!; try done; [by left|congruence].
Qed.

Lemma sends_doRequest method path body : sends (doRequest c method path body).
Proof using Traced0 Hclock.
  intros w s. unfold doRequest. rewrite io_bind_run.
  destruct (sends_getTimeDelta w s) as [(l & Hl & Ha) Ho].
  destruct (getTimeDelta c (w, s)) as [[d|e] [w1 s1]]; simpl in *; [|by exists l].
  destruct (Ho d eq_refl) as (Ho1 & He1 & <-).
  rewrite net_run. simpl. destruct (send_trace (ts_delta s1) method path body w1) as (l' & Hl' & Hs).
  exists (l ++ l'). split; [by rewrite Hl', Hl, app_assoc|].
  eapply adds_trans; [exact Ha|]. exists [], l'. split_and!; try done; [by left| |congruence].
  intros [?|[? ?]]; congruence.
Qed.

Lemma sends_command verb method path body : sends (command c verb method path body).
Proof using Traced0 Hclock. apply sends_bind; [apply sends_wrap, sends_doRequest|intros; apply sends_ret]. Qed.
End Signed.

(** What the provider can be asked to do. *)
Inductive ovh_call :=
| OvhPing
| OvhList
| OvhCreate (r : DNSRecord)
| OvhDelete (r : DNSRecord)
| OvhUpdate (existing desired : DNSRecord).

Section Calls.
Context {W : Type} `{HttpClient W} `{JsonErrors} `{Clock W} (p : OProvider).
Context (trace : W → list HTTPRequest) `{!Traced trace}.
Context (Hclock : ∀ w, trace (now w).2 = trace w).
#[local] Notation TOp := (IO (W * TimeState)).
#[local] Abbreviation c := (op_client p).
#[local] Abbreviation sends := (sends c trace).

Definition discard {A} (m : TOp A) : TOp unit := _ ← m; mret tt.

Definition ovh_run (o : ovh_call) : TOp unit :=
  match o with
  | OvhPing => op_Ping p
  | OvhList => discard (op_List p)
  | OvhCreate r => op_Create p r
  | OvhDelete r => op_Delete p r
  | OvhUpdate e d => op_Update p e d
  end.

#[local] Ltac sends_tac :=
  repeat first [ apply sends_ret | apply sends_lift | apply sends_wrap
               | apply sends_doRequest; done | apply sends_command; done
               | apply sends_bind; [|intros ?] | assumption ].

Lemma sends_GetRecord id : sends (GetRecord c (op_zone p) id).
Proof using Traced0 Hclock. unfold GetRecord. sends_tac. Qed.
Lemma sends_ListRecordIDs t s : sends (ListRecordIDs c (op_zone p) t s).
Proof using Traced0 Hclock. unfold ListRecordIDs. sends_tac. Qed.

Lemma sends_get_all t ids : sends (get_all p t ids).
Proof using Traced0 Hclock.
  induction ids as [|id ids IH]; simpl; [apply sends_ret|].
  apply sends_bind; [apply sends_wrap, sends_GetRecord|intros r]. sends_tac.
Qed.

Lemma sends_list_types types : sends (list_types p types).
Proof using Traced0 Hclock.
  induction types as [|t types IH]; simpl; [apply sends_ret|].
  apply sends_bind; [apply sends_wrap, sends_ListRecordIDs|intros ids].
  apply sends_bind; [apply sends_get_all|intros l]. sends_tac.
Qed.

Lemma sends_find_target want ids : sends (find_target p want ids).
Proof using Traced0 Hclock.
  induction ids as [|id ids IH]; simpl; [apply sends_ret|].
  apply sends_bind; [apply sends_wrap, sends_GetRecord|intros r]. case_match; [apply sends_ret|done].
Qed.

Lemma sends_get_first id : sends (get_first p id).
Proof using Traced0 Hclock. unfold get_first. apply sends_bind; [apply sends_GetRecord|intros; apply sends_ret]. Qed.

Lemma sends_findRecord r : sends (findRecord p r).
Proof using Traced0 Hclock.
  unfold findRecord. apply sends_bind; [apply sends_wrap, sends_ListRecordIDs|intros [|i ids]]; [apply sends_ret|].
  case_match; [apply sends_get_first|].
  apply sends_bind; [apply sends_find_target|intros [x|]]; [apply sends_ret|apply sends_get_first].
Qed.

End Calls.

(** ** The server

    A zone has the records that are staged and those that are served. *)

Definition Zones : Type := list ovhRecord * list ovhRecord.

Definition ids (l : list ovhRecord) : list Z := map or_ID l.

(** An empty filter lets everything through. *)
Definition listed_by (t s : string) (r : ovhRecord) : bool :=
  ((t == "") || (or_FieldType r == t)) && ((s == "") || (or_SubDomain r == s)).

(** How a server keeps the target and the TTL sent for a record of a type
    (the API may write a target in another way, a text in quotes say, and
    chooses a TTL when none is sent). *)
Definition keeping : Type := string → string → Z → string → Z → Prop.

(** The record a request stores. *)
Definition made_of (kept : keeping) (zone : string) (q : recordCreateRequest) (x : ovhRecord) : Prop :=
  or_Zone x = zone ∧ or_SubDomain x = cq_SubDomain q ∧ or_FieldType x = cq_FieldType q ∧
  kept (cq_FieldType q) (cq_Target q) (cq_TTL q) (or_Target x) (or_TTL x).

Definition without (id : Z) (l : list ovhRecord) : list ovhRecord :=
  List.filter (λ r, negb (or_ID r =? id)%Z) l.

Definition change_record (sub target : string) (ttl : Z) (r : ovhRecord) : ovhRecord :=
  mkOvhRecord (or_ID r) (or_Zone r) sub (or_FieldType r) target ttl.
Definition changed (id : Z) (sub : string) (f : ovhRecord → string * Z) (l : list ovhRecord) : list ovhRecord :=
  map (λ r, if (or_ID r =? id)%Z then change_record sub (f r).1 (f r).2 r else r) l.

Definition int_ok (z : Z) : Prop := (0 ≤ z < 2 ^ 63)%Z.
Definition create_ok (q : recordCreateRequest) : Prop :=
  ascii_text (cq_FieldType q) ∧ ascii_text (cq_SubDomain q) ∧ ascii_text (cq_Target q) ∧ int_ok (cq_TTL q).
Definition update_ok (q : recordUpdateRequest) : Prop :=
  ascii_text (uq_SubDomain q) ∧ ascii_text (uq_Target q) ∧ int_ok (uq_TTL q).

(** What a change does to the staged records. *)
Definition posted (kept : keeping) (zone : string) (q : recordCreateRequest) (v v' : Zones) : Prop :=
  ∃ x, (or_ID x ∉ ids v.1) ∧ made_of kept zone q x ∧ v' = (v.1 ++ [x], v.2).
Definition put (kept : keeping) (id : Z) (q : recordUpdateRequest) (v v' : Zones) : Prop :=
  ∃ f, (∀ x, x ∈ v.1 → or_ID x = id → kept (or_FieldType x) (uq_Target q) (uq_TTL q) (f x).1 (f x).2) ∧
    v' = (changed id (uq_SubDomain q) f v.1, v.2).
Definition deleted (id : Z) (v v' : Zones) : Prop := v' = (without id v.1, v.2).
Definition published (v v' : Zones) : Prop := v' = (v.1, v.1).

(** The staged records are told apart by their IDs. *)
Definition distinct (v : Zones) : Prop := NoDup (ids v.1).

(** A request that fails has been carried out or not. *)
Definition does {W A} (view : W → Zones) (R : Zones → Zones → Prop) (m : IO W A) : Prop := ∀ w r w',
  m w = (r, w') → (view w' = view w ∨ R (view w) (view w')) ∧ ∀ a, r = inl a → R (view w) (view w').

(** The API's documents and URLs. *)
Definition create_document (q : recordCreateRequest) : json :=
  JObj ([("fieldType", JStr (cq_FieldType q)); ("subDomain", JStr (cq_SubDomain q));
         ("target", JStr (cq_Target q))] ++ (if (cq_TTL q =? 0)%Z then [] else [("ttl", JInt (cq_TTL q))])).
Definition update_document (q : recordUpdateRequest) : json :=
  JObj ([("subDomain", JStr (uq_SubDomain q)); ("target", JStr (uq_Target q))]
        ++ (if (uq_TTL q =? 0)%Z then [] else [("ttl", JInt (uq_TTL q))])).

Definition api_url (c : Client) (zone rest : string) : string :=
  cl_baseURL c ++s "/domain/zone/" ++s PathEscape zone ++s rest.

Definition field_query (t : string) : string := "fieldType=" ++s QueryEscape t.
Definition sub_query (s : string) : string := "subDomain=" ++s QueryEscape s.
Definition ids_query (t s : string) : string :=
  if t == "" then if s == "" then "" else "?" ++s sub_query s
  else if s == "" then "?" ++s field_query t else "?" ++s field_query t ++s String "&" (sub_query s).

(** What the API promises of the zone: reading changes nothing; the IDs of the
    staged records that pass the filters are listed; a record is answered
    under its ID; a change accepted is staged, and a refresh serves what is
    staged. *)
Class OvhServer {W} `{HttpClient W} `{JsonErrors} `{Clock W} (c : Client) (zone : string)
    (kept : keeping) (view : W → Zones) := {
  oh_clock w : view (now w).2 = view w;
  oh_get rq w : rq_Method rq = "GET" → view (http_Do rq w).2 = view w;
  oh_ids t s rq w resp w' l :
    rq_Method rq = "GET" → rq_URL rq = api_url c zone ("/record" ++s ids_query t s) →
    http_Do rq w = (inl resp, w') → is_2xx (StatusCode resp) = true → BodyErr resp = None →
    Unmarshal (dec_list 0%Z dec_int) [] (Body resp) = inl l →
    l = ids (List.filter (listed_by t s) (view w).1);
  oh_record id rq w resp w' x :
    rq_Method rq = "GET" → rq_URL rq = api_url c zone ("/record/" ++s itoa id) →
    http_Do rq w = (inl resp, w') → is_2xx (StatusCode resp) = true → BodyErr resp = None →
    Unmarshal dec_record zero_record (Body resp) = inl x → x ∈ (view w).1 ∧ or_ID x = id;
  oh_post q rq : create_ok q →
    rq_Method rq = "POST" → rq_URL rq = api_url c zone "/record" → rq_Body rq = print (create_document q) →
    effect view (posted kept zone q) rq;
  oh_put id q rq : update_ok q →
    rq_Method rq = "PUT" → rq_URL rq = api_url c zone ("/record/" ++s itoa id) →
    rq_Body rq = print (update_document q) → effect view (put kept id q) rq;
  oh_delete id rq :
    rq_Method rq = "DELETE" → rq_URL rq = api_url c zone ("/record/" ++s itoa id) →
    effect view (deleted id) rq;
  oh_refresh rq :
    rq_Method rq = "POST" → rq_URL rq = api_url c zone "/refresh" → effect view published rq
}.

(** *** What the operations do *)

(** The record that a deletion and an update take: of those of the name and
    type the first with the target, else the first. *)
Definition victim (p : OProvider) (r : DNSRecord) (l : list ovhRecord) : option ovhRecord :=
  let want := match toOVHTarget r with inl t => t | inr _ => "" end in
  match List.filter (listed_by (r_Type r) (toSubDomain p (r_Hostname r))) l with
  | [] => None
  | [x] => Some x
  | (x :: _) as m =>
      if want == "" then Some x else Some (default x (List.find (λ y, or_Target y == want) m))
  end.

Definition create_request (p : OProvider) (r : DNSRecord) (target : string) : recordCreateRequest :=
  mkCreateRequest (r_Type r) (toSubDomain p (r_Hostname r)) target (effectiveTTL p (r_TTL r)).
Definition update_request (p : OProvider) (r : DNSRecord) (target : string) : recordUpdateRequest :=
  mkUpdateRequest (toSubDomain p (r_Hostname r)) target (effectiveTTL p (r_TTL r)).

(** The change of the staged records that a call stands for. *)
Inductive ovh_step (kept : keeping) (p : OProvider) : ovh_call → Zones → Zones → Prop :=
| step_create r target v v' :
    toOVHTarget r = inl target → posted kept (op_zone p) (create_request p r target) v v' →
    ovh_step kept p (OvhCreate r) v v'
| step_delete r x v v' :
    victim p r v.1 = Some x → deleted (or_ID x) v v' → ovh_step kept p (OvhDelete r) v v'
| step_update e d x target v v' :
    victim p e v.1 = Some x → toOVHTarget d = inl target → put kept (or_ID x) (update_request p d target) v v' →
    ovh_step kept p (OvhUpdate e d) v v'.

(** What a success means: the change is made and served; deleting what is not
    there, listing and pinging change nothing. *)
Definition ovh_done (kept : keeping) (p : OProvider) (o : ovh_call) (v v' : Zones) : Prop :=
  match o with
  | OvhPing | OvhList => v' = v
  | OvhDelete r =>
      (victim p r v.1 = None ∧ v' = v) ∨ ∃ v1, ovh_step kept p o v v1 ∧ published v1 v'
  | _ => ∃ v1, ovh_step kept p o v v1 ∧ published v1 v'
  end.

(** What a failure may leave: nothing, the staged change, or all of it. *)
Definition ovh_partial (kept : keeping) (p : OProvider) (o : ovh_call) (v v' : Zones) : Prop :=
  v' = v ∨ ovh_step kept p o v v' ∨ ∃ v1, ovh_step kept p o v v1 ∧ published v1 v'.

Definition call_ok (p : OProvider) (o : ovh_call) : Prop :=
  match o with
  | OvhCreate r => ∀ target, toOVHTarget r = inl target → create_ok (create_request p r target)
  | OvhUpdate _ r => ∀ target, toOVHTarget r = inl target → update_ok (update_request p r target)
  | _ => True
  end.

Lemma NoDup_map_filter {A B} (f : A → B) (b : A → bool) l :
  NoDup (map f l) → NoDup (map f (List.filter b l)).
Proof.
  induction l as [|x l IH]; simpl; [done|]. intros [Hx Hl]%NoDup_cons. destruct (b x); [|by apply IH].
  simpl. apply NoDup_cons. split; [|by apply IH]. intros Hin. apply Hx.
  apply list_elem_of_In, in_map_iff in Hin as (y & <- & [Hy _]%List.filter_In).
  apply list_elem_of_In, in_map_iff. by exists y.
Qed.

(** The IDs stay distinct. *)
Lemma step_distinct kept p o v v' : ovh_step kept p o v v' → distinct v → distinct v'.
Proof.
  unfold distinct, ids. intros Hs Hd. destruct Hs as [r target v v' _ Hp|r x v v' _ ->|e d x target v v' _ _ Hp].
  - destruct Hp as (x & Hx & _ & ->). simpl. rewrite map_app. apply NoDup_app. split_and!; [done| |apply NoDup_singleton].
    intros i Hi Hi'. apply list_elem_of_singleton in Hi' as ->. by apply Hx.
  - simpl. unfold without. by apply NoDup_map_filter.
  - destruct Hp as (f & _ & ->). simpl. unfold changed. rewrite map_map.
    by rewrite (map_ext _ or_ID) by (intros r; by destruct (_ =? _)%Z).
Qed.

(** But for the zone's own name, only records of the name and type are taken. *)
Lemma victim_own_name p r l x :
  victim p r l = Some x → r_Type r ≠ "" → toSubDomain p (r_Hostname r) ≠ "" →
  x ∈ l ∧ or_FieldType x = r_Type r ∧ or_SubDomain x = toSubDomain p (r_Hostname r).
Proof.
  intros Hv Ht Hs.
  assert (x ∈ List.filter (listed_by (r_Type r) (toSubDomain p (r_Hostname r))) l) as Hx.
  { unfold victim in Hv. destruct (List.filter _ l) as [|a [|b m]]; [done| |].
    - injection Hv as ->. by apply list_elem_of_singleton.
    - set (want := match toOVHTarget r with inl t => t | inr _ => "" end) in Hv.
      destruct (want == ""); [injection Hv as <-; by left|].
      destruct (List.find (λ y, or_Target y == want) (a :: b :: m)) as [y|] eqn:E.
      + apply List.find_some in E as [E _]. injection Hv as <-. by apply list_elem_of_In.
      + injection Hv as <-. by left. }
  apply list_elem_of_In, List.filter_In in Hx as [Hx Hb]. unfold listed_by in Hb.
  apply String.eqb_neq in Ht, Hs. rewrite Ht, Hs in Hb. simpl in Hb.
  apply andb_true_iff in Hb as [H1%String.eqb_eq H2%String.eqb_eq].
  split; [by apply list_elem_of_In|done].
Qed.

(** The provider's paths and documents are the API's. *)
Lemma list_path_cases zone t s : list_path zone t s = records_path zone ++s ids_query t s.
Proof.
  unfold list_path, list_params, ids_query. f_equal.
  destruct (t == ""), (s == ""); by vm_compute.
Qed.

Lemma create_json_document q : create_json q = create_document q.
Proof. unfold create_json, create_document, omit_int. by destruct (_ =? _)%Z. Qed.
Lemma update_json_document q : update_json q = update_document q.
Proof. unfold update_json, update_document, omit_int. by destruct (_ =? _)%Z. Qed.

Lemma signed_url c m path body d : rq_URL (signed_request c m path body d) = cl_baseURL c ++s path.
Proof. done. Qed.

Section Refinement.
Context {W : Type} `{HttpClient W} `{JsonErrors} `{Clock W} (p : OProvider).
Context (kept : keeping) (view : W → Zones) `{!OvhServer (op_client p) (op_zone p) kept view}.
#[local] Notation TOp := (IO (W * TimeState)).
#[local] Abbreviation c := (op_client p).
#[local] Abbreviation zone := (op_zone p).

(** A signed request, in the terms of its answer. *)
Lemma send_run d method path body w r w' :
  send c d method path body w = (r, w') →
  ∃ w0 t, view w0 = view w ∧
    let rq := signed_request c method path body t in
    (view w' = view w0 ∧ ∃ e, r = inr e) ∨
    ∃ res, http_Do rq w0 = (res, w') ∧
      ∀ b, r = inl b → ∃ resp, res = inl resp ∧ is_2xx (StatusCode resp) = true ∧
                               BodyErr resp = None ∧ Body resp = b.
Proof using OvhServer0.
  unfold send, nowFunc. rewrite io_bind_run. pose proof (oh_clock w) as Hw.
  destruct (now w) as [t w0]. cbv beta iota. simpl in Hw. intros E.
  exists w0, (wrap64 (t / time_Second + d)). split; [done|].
  destruct (http_NewRequest _ _) as [e|]; [left; injection E as <- <-; eauto|right].
  rewrite io_bind_run, io_wrap_run in E. set (rq := signed_request _ _ _ _ _) in *. cbv zeta.
  destruct (http_Do rq w0) as [[resp|e] w2] eqn:Ed; [|injection E as <- <-; by eexists].
  rewrite io_bind_run, io_wrap_run in E. unfold io_lift, ReadBody in E.
  destruct (_ <? Z.of_nat _)%Z; [injection E as <- <-; by eexists|].
  destruct (BodyErr resp) as [e|] eqn:Eb; [injection E as <- <-; by eexists|].
  destruct (is_2xx (StatusCode resp)) eqn:E2; simpl in E.
  - injection E as <- <-. exists (inl resp). split; [done|]. intros b [= <-]. by exists resp.
  - assert (∃ e, r = inr e ∧ w' = w2) as (e & -> & ->); [|by exists (inl resp)].
    destruct (Unmarshal _ _ _) as [[[msg ?] ?]|]; [destruct (msg != "")|]; injection E as <- <-; by eexists.
Qed.

(** What the server promises of the provider's requests. *)
Lemma os_get d path w : view (send c d "GET" path "" w).2 = view w.
Proof using OvhServer0.
  destruct (send c d _ _ _ w) as [r w'] eqn:E.
  destruct (send_run _ _ _ _ _ _ _ E) as (w0 & t & <- & [[Hv _]|(res & Hd & _)]); [done|].
  simpl. pose proof (oh_get (signed_request c "GET" path "" t) w0 eq_refl) as Hg. by rewrite Hd in Hg.
Qed.

Lemma os_ids d t s w b w' l :
  send c d "GET" (list_path zone t s) "" w = (inl b, w') → Unmarshal (dec_list 0%Z dec_int) [] b = inl l →
  l = ids (List.filter (listed_by t s) (view w).1).
Proof using OvhServer0.
  intros E Hl. destruct (send_run _ _ _ _ _ _ _ E) as (w0 & ts & <- & [[_ [e He]]|(res & Hd & Hb)]); [done|].
  destruct (Hb b eq_refl) as (resp & -> & H2xx & Herr & <-).
  eapply oh_ids; [..|exact Hd|exact H2xx|exact Herr|exact Hl]; [done|].
  rewrite signed_url, list_path_cases. unfold api_url, records_path, zone_path. by rewrite !app_assoc_s.
Qed.

Lemma os_record d id w b w' x :
  send c d "GET" (record_path zone id) "" w = (inl b, w') → Unmarshal dec_record zero_record b = inl x →
  x ∈ (view w).1 ∧ or_ID x = id.
Proof using OvhServer0.
  intros E Hx. destruct (send_run _ _ _ _ _ _ _ E) as (w0 & ts & <- & [[_ [e He]]|(res & Hd & Hb)]); [done|].
  destruct (Hb b eq_refl) as (resp & -> & H2xx & Herr & <-).
  eapply oh_record; [..|exact Hd|exact H2xx|exact Herr|exact Hx]; [done|].
  rewrite signed_url. unfold api_url, record_path, records_path, zone_path. by rewrite !app_assoc_s.
Qed.

Lemma send_effect R d method path body :
  (∀ t, effect view R (signed_request c method path body t)) → does view R (send c d method path body).
Proof using OvhServer0.
  intros He w r w' E. destruct (send_run _ _ _ _ _ _ _ E) as (w0 & t & <- & [[-> [e ->]]|(res & Hd & Hb)]); [by split; [left|]|].
  destruct (He t w0 _ _ Hd) as [Hor H2]. split; [done|]. intros b ->.
  destruct (Hb b eq_refl) as (resp & -> & H2xx & _). by eapply H2.
Qed.

Lemma os_post d q : create_ok q →
  does view (posted kept zone q) (send c d "POST" (records_path zone) (print (create_json q))).
Proof using OvhServer0.
  intros Hq. apply send_effect. intros t. apply oh_post; [done|done| |].
  - rewrite signed_url. unfold api_url, records_path, zone_path. by rewrite !app_assoc_s.
  - cbn [rq_Body signed_request]. by rewrite create_json_document.
Qed.

Lemma os_put d id q : update_ok q →
  does view (put kept id q) (send c d "PUT" (record_path zone id) (print (update_json q))).
Proof using OvhServer0.
  intros Hq. apply send_effect. intros t. apply oh_put; [done|done| |].
  - rewrite signed_url. unfold api_url, record_path, records_path, zone_path. by rewrite !app_assoc_s.
  - cbn [rq_Body signed_request]. by rewrite update_json_document.
Qed.

Lemma os_delete d id : does view (deleted id) (send c d "DELETE" (record_path zone id) "").
Proof using OvhServer0.
  apply send_effect. intros t. apply oh_delete; [done|].
  rewrite signed_url. unfold api_url, record_path, records_path, zone_path. by rewrite !app_assoc_s.
Qed.

Lemma os_refresh d : does view published (send c d "POST" (refresh_path zone) "").
Proof using OvhServer0.
  apply send_effect. intros t. apply oh_refresh; [done|].
  rewrite signed_url. unfold api_url, refresh_path, zone_path. by rewrite !app_assoc_s.
Qed.

(** Operations that change nothing. *)
Definition quiet {A} (m : TOp A) : Prop := io_keeps (view ∘ fst) m.

Lemma fetch_delta_quiet w : view (fetch_delta c w).2 = view w.
Proof using OvhServer0.
  unfold fetch_delta. destruct (http_NewRequest _ _); [done|].
  rewrite io_bind_run, io_wrap_run, <- (oh_get (time_request c) w eq_refl).
  destruct (http_Do _ w) as [[resp|e] w1]; [|done]. simpl. rewrite io_bind_run, io_wrap_run. unfold io_lift.
  destruct (ReadBody resp 0) as [b|]; [|done]. destruct (is_2xx _); [|done]. simpl.
  destruct (Atoi _); [|done]. rewrite io_bind_run. unfold nowFunc. rewrite <- (oh_clock w1). by destruct (now w1).
Qed.

Lemma getTimeDelta_quiet : quiet (getTimeDelta c).
Proof using OvhServer0.
  intros [w s]. rewrite getTimeDelta_run. destruct (ts_once s); [done|].
  pose proof (fetch_delta_quiet w) as Hf. by destruct (fetch_delta c w) as [[d|e] w1].
Qed.

(** A request of which the server says what it does. *)
Lemma doRequest_does R method path body :
  (∀ d, does view R (send c d method path body)) → does (view ∘ fst) R (doRequest c method path body).
Proof using OvhServer0.
  intros Hd w r w'. unfold doRequest. rewrite io_bind_run. pose proof (getTimeDelta_quiet w) as Hq.
  destruct (getTimeDelta c w) as [[d|e] w1]; simpl in Hq.
  - destruct w1 as [w1 s1]. rewrite net_run. intros [= <- <-]. simpl in *. rewrite <- Hq.
    apply (Hd d w1 _ _ (surjective_pairing _)).
  - intros [= <- <-]. split; [by left|done].
Qed.

Lemma command_does R verb method path body :
  (∀ d, does view R (send c d method path body)) → does (view ∘ fst) R (command c verb method path body).
Proof using OvhServer0.
  intros Hd w r w'. unfold command. rewrite io_bind_run, io_wrap_run.
  destruct (doRequest c method path body w) as [[b|e] w1] eqn:E;
    apply doRequest_does with (R := R) in E as [Hp Hs]; try done;
    intros [= <- <-]; (split; [done|]); [|done]. intros _ _. by eapply Hs.
Qed.

Lemma get_quiet path : quiet (doRequest c "GET" path "").
Proof using OvhServer0.
  apply io_keeps_bind; [apply getTimeDelta_quiet|]. intros d [w s]. rewrite net_run. exact (os_get d path w).
Qed.

Lemma ListRecordIDs_run t s w r w' :
  ListRecordIDs c zone t s w = (r, w') →
  view w'.1 = view w.1 ∧ ∀ l, r = inl l → l = ids (List.filter (listed_by t s) (view w.1).1).
Proof using OvhServer0.
  unfold ListRecordIDs, doRequest. rewrite io_bind_run, io_wrap_run, io_bind_run.
  pose proof (getTimeDelta_quiet w) as Hq.
  destruct (getTimeDelta c w) as [[d|e] [w1 s1]]; simpl in Hq; [|by intros [= <- <-]].
  rewrite net_run. simpl. pose proof (os_get d (list_path zone t s) w1) as Hg.
  destruct (send c d _ _ _ w1) as [[b|e] w2] eqn:E; simpl in *; [|intros [= <- <-]; split; [simpl; congruence|done]].
  rewrite io_wrap_run. unfold io_lift.
  destruct (Unmarshal _ _ b) as [l|e] eqn:El; intros [= <- <-]; (split; [simpl; congruence|]); [|done].
  intros ? [= <-]. rewrite <- Hq. by eapply os_ids.
Qed.

Lemma GetRecord_run id w r w' :
  GetRecord c zone id w = (r, w') →
  view w'.1 = view w.1 ∧ ∀ x, r = inl x → x ∈ (view w.1).1 ∧ or_ID x = id.
Proof using OvhServer0.
  unfold GetRecord, doRequest. rewrite io_bind_run, io_wrap_run, io_bind_run.
  pose proof (getTimeDelta_quiet w) as Hq.
  destruct (getTimeDelta c w) as [[d|e] [w1 s1]]; simpl in Hq; [|by intros [= <- <-]].
  rewrite net_run. simpl. pose proof (os_get d (record_path zone id) w1) as Hg.
  destruct (send c d _ _ _ w1) as [[b|e] w2] eqn:E; simpl in *; [|intros [= <- <-]; split; [simpl; congruence|done]].
  rewrite io_wrap_run. unfold io_lift.
  destruct (Unmarshal _ _ b) as [x|e] eqn:El; intros [= <- <-]; (split; [simpl; congruence|]); [|done].
  intros ? [= <-]. rewrite <- Hq. by eapply os_record.
Qed.

(** A record that is there is the one that is got. *)
Lemma GetRecord_elem y w r w' :
  distinct (view w.1) → y ∈ (view w.1).1 → GetRecord c zone (or_ID y) w = (r, w') → view w'.1 = view w.1 ∧ ∀ x, r = inl x → x = y.
Proof using OvhServer0.
  intros Hnd Hy [Hv Hx]%GetRecord_run. split; [done|]. intros x [Hin Hid]%Hx.
  apply list_elem_of_lookup in Hin as [i Hi]. apply list_elem_of_lookup in Hy as [j Hj].
  assert (i = j) as ->.
  { eapply (NoDup_lookup (ids (view w.1).1)); [exact Hnd| |]; unfold ids; rewrite list_lookup_fmap.
    - by rewrite Hi.
    - rewrite Hj. simpl. by rewrite Hid. }
  congruence.
Qed.

Lemma find_target_run want m w r w' :
  distinct (view w.1) →
  (∀ y, y ∈ m → y ∈ (view w.1).1) → find_target p want (ids m) w = (r, w') →
  view w'.1 = view w.1 ∧ ∀ o, r = inl o → o = List.find (λ y, or_Target y == want) m.
Proof using OvhServer0.
  revert w. induction m as [|y m IH]; intros w Hnd Hm; simpl; [intros [= <- <-]; split; [done|by intros o [= <-]]|].
  rewrite io_bind_run, io_wrap_run.
  destruct (GetRecord c zone (or_ID y) w) as [[x|e] w1] eqn:E;
    apply GetRecord_elem in E as [Hv Hx]; try done; try (apply Hm; by left); [|by intros [= <- <-]].
  rewrite (Hx x eq_refl). destruct (or_Target y == want).
  - intros [= <- <-]. split; [done|by intros o [= <-]].
  - rewrite <- Hv. apply IH; [by rewrite Hv|]. intros z Hz. rewrite Hv. apply Hm. by right.
Qed.

Lemma get_first_run y w r w' :
  distinct (view w.1) → y ∈ (view w.1).1 → get_first p (or_ID y) w = (r, w') → view w'.1 = view w.1 ∧ ∀ o, r = inl o → o = Some y.
Proof using OvhServer0.
  intros Hnd Hy. unfold get_first. rewrite io_bind_run.
  destruct (GetRecord c zone (or_ID y) w) as [[x|e] w1] eqn:E; apply GetRecord_elem in E as [Hv Hx]; try done;
    intros [= <- <-]; (split; [done|]); [|done]. intros o [= <-]. by rewrite (Hx x eq_refl).
Qed.

Lemma findRecord_run rec w r w' :
  distinct (view w.1) → findRecord p rec w = (r, w') → view w'.1 = view w.1 ∧ ∀ o, r = inl o → o = victim p rec (view w.1).1.
Proof using OvhServer0.
  intros Hnd. unfold findRecord, victim. rewrite io_bind_run, io_wrap_run.
  destruct (ListRecordIDs _ _ _ _ w) as [[l|e] w1] eqn:E; apply ListRecordIDs_run in E as [Hv Hl];
    [|by intros [= <- <-]].
  rewrite (Hl l eq_refl). clear Hl.
  assert (∀ y, y ∈ List.filter (listed_by (r_Type rec) (toSubDomain p (r_Hostname rec))) (view w.1).1 →
            y ∈ (view w1.1).1) as Hin.
  { intros y [Hy _]%list_elem_of_In%List.filter_In. rewrite Hv. by apply list_elem_of_In. }
  destruct (List.filter _ _) as [|x m]; unfold ids; cbn [map];
    [intros [= <- <-]; split; [done|by intros o [= <-]]|].
  set (want := match toOVHTarget rec with inl t => t | inr _ => "" end).
  assert (∀ r w', get_first p (or_ID x) w1 = (r, w') → view w'.1 = view w.1 ∧ ∀ o, r = inl o → o = Some x) as Hfirst.
  { intros r0 w2 E. apply get_first_run in E; [|by rewrite Hv|apply Hin; by left]. by rewrite Hv in E. }
  destruct m as [|y m]; [exact (Hfirst r w')|]. cbn [map length Nat.eqb orb].
  destruct (want == ""); [exact (Hfirst r w')|].
  rewrite io_bind_run.
  destruct (find_target p want _ w1) as [[o|e] w2] eqn:E;
    apply (find_target_run want (x :: y :: m)) in E as [Hv2 Ho]; try done; try (by rewrite Hv);
    [|intros [= <- <-]; by rewrite Hv2, Hv].
  rewrite <- (Ho o eq_refl). destruct o as [z|]; simpl.
  - intros [= <- <-]. split; [congruence|by intros o [= <-]].
  - intros E. apply get_first_run in E as [Hv3 Ho3]; [split; [congruence|done]|by rewrite Hv2, Hv|].
    rewrite Hv2. apply Hin. by left.
Qed.

Lemma does_wrap {A} R f (m : TOp A) : does (view ∘ fst) R m → does (view ∘ fst) R (io_wrap f m).
Proof using Type.
  intros Hm w r w'. rewrite io_wrap_run. destruct (m w) as [[a|e] w1] eqn:E; apply Hm in E as [Hv Ha];
    intros [= <- <-]; (split; [done|]); [|done]. intros ? [= <-]. by eapply Ha.
Qed.

Lemma CreateRecord_does t sub target ttl :
  create_ok (mkCreateRequest t sub target ttl) →
  does (view ∘ fst) (posted kept zone (mkCreateRequest t sub target ttl)) (CreateRecord c zone t sub target ttl).
Proof using OvhServer0.
  intros Hok w r w'. unfold CreateRecord. rewrite io_bind_run, io_wrap_run.
  destruct (doRequest c _ _ _ w) as [[b|e] w1] eqn:E;
    apply (doRequest_does (posted kept zone (mkCreateRequest t sub target ttl))) in E as [Hv Hb];
    try (intros d; by apply os_post); [|by intros [= <- <-]].
  specialize (Hb b eq_refl). rewrite io_wrap_run. unfold io_lift.
  destruct (Unmarshal _ _ b); intros [= <- <-]; split; auto.
Qed.

(** A change, and then the publication. *)
Lemma then_refresh {A} R (m : TOp A) after w r w' :
  does (view ∘ fst) R m → (_ ← m; refresh p after) w = (r, w') →
  (view w'.1 = view w.1 ∨ R (view w.1) (view w'.1) ∨ ∃ v1, R (view w.1) v1 ∧ published v1 (view w'.1)) ∧
  (r = inl tt → ∃ v1, R (view w.1) v1 ∧ published v1 (view w'.1)).
Proof using OvhServer0.
  intros Hm. rewrite io_bind_run. destruct (m w) as [[a|e] w1] eqn:E; apply Hm in E as [Hv Ha]; simpl in *.
  - specialize (Ha a eq_refl). intros E. unfold refresh, RefreshZone in E.
    apply (does_wrap published) in E as [Hp Hd]; [|apply command_does; intros; apply os_refresh].
    simpl in *. split.
    + destruct Hp as [->|Hp]; [right; by left|right; right]. eauto.
    + intros ->. exists (view w1.1). split; [done|]. by eapply Hd.
  - intros [= <- <-]. split; [|done]. destruct Hv; auto.
Qed.

Lemma get_all_quiet t l : quiet (get_all p t l).
Proof using OvhServer0.
  induction l as [|id l IH]; simpl; [apply io_keeps_ret|].
  apply io_keeps_bind; [apply io_keeps_wrap|intros r].
  - intros w. by destruct (GetRecord_run id w _ _ (surjective_pairing _)).
  - apply io_keeps_bind; [done|intros; apply io_keeps_ret].
Qed.

Lemma list_types_quiet types : quiet (list_types p types).
Proof using OvhServer0.
  induction types as [|t types IH]; simpl; [apply io_keeps_ret|].
  apply io_keeps_bind; [apply io_keeps_wrap|intros l].
  - intros w. by destruct (ListRecordIDs_run t "" w _ _ (surjective_pairing _)).
  - apply io_keeps_bind; [apply get_all_quiet|intros l1].
    apply io_keeps_bind; [done|intros; apply io_keeps_ret].
Qed.

(** What follows the look-up of a record. *)
Lemma ovh_find_then rec w r w' (k : nilable ovhRecord → TOp unit) (Q : Prop) :
  distinct (view w.1) →
  (x ← findRecord p rec; k x) w = (r, w') →
  (∀ e, r = inr e → view w'.1 = view w.1 → Q) →
  (∀ w1, view w1.1 = view w.1 → k (victim p rec (view w.1).1) w1 = (r, w') → Q) → Q.
Proof using OvhServer0.
  intros Hnd. rewrite io_bind_run.
  destruct (findRecord p rec w) as [[o|e] w1] eqn:E; apply findRecord_run in E as [Hv Ho]; try done.
  - intros Hk _ H2. apply (H2 w1 Hv). by rewrite <- (Ho o eq_refl).
  - intros [= <- <-] Hq _. by eapply Hq.
Qed.

Lemma lift_step R o v v' (ok : Prop) :
  (∀ v1, R v v1 → ovh_step kept p o v v1) →
  (v' = v ∨ R v v' ∨ ∃ v1, R v v1 ∧ published v1 v') ∧ (ok → ∃ v1, R v v1 ∧ published v1 v') →
  ovh_partial kept p o v v' ∧ (ok → ∃ v1, ovh_step kept p o v v1 ∧ published v1 v').
Proof using Type.
  intros Hs [Hp Hd]. split.
  - destruct Hp as [Hp|[Hp|(v1 & Hp & Hq)]]; [by left|right; left; auto|right; right; eauto].
  - intros (v1 & Hv1 & Hq)%Hd. eauto.
Qed.

Lemma create_refines r w res w' :
  call_ok p (OvhCreate r) → op_Create p r w = (res, w') →
  ovh_partial kept p (OvhCreate r) (view w.1) (view w'.1) ∧
  (res = inl tt → ovh_done kept p (OvhCreate r) (view w.1) (view w'.1)).
Proof using OvhServer0.
  intros Hok. unfold op_Create. rewrite io_bind_run. unfold io_lift.
  destruct (toOVHTarget r) as [target|e] eqn:Et; [|intros [= <- <-]; split; [by left|done]].
  intros E. eapply then_refresh in E; [|apply does_wrap, CreateRecord_does, (Hok target Et)].
  eapply lift_step; [|exact E]. intros. by econstructor.
Qed.

Lemma delete_refines r w res w' :
  distinct (view w.1) →
  op_Delete p r w = (res, w') →
  ovh_partial kept p (OvhDelete r) (view w.1) (view w'.1) ∧
  (res = inl tt → ovh_done kept p (OvhDelete r) (view w.1) (view w'.1)).
Proof using OvhServer0.
  intros Hnd. unfold op_Delete. intros E. eapply ovh_find_then; [exact Hnd|exact E| |].
  - intros e -> Hv. split; [by left|done].
  - clear E. intros w1 Hv E. destruct (victim p r (view w.1).1) as [x|] eqn:Ex.
    + eapply (then_refresh (deleted (or_ID x))) in E;
        [|apply does_wrap, command_does; intros; apply os_delete].
      rewrite Hv in E. apply (lift_step _ (OvhDelete r)) in E as [Hp Hd]; [|intros; by econstructor].
      split; [done|]. intros Hr. right. by apply Hd.
    + injection E as <- <-. split; [by left|]. intros _. by left.
Qed.

Lemma update_refines e d w res w' :
  distinct (view w.1) →
  call_ok p (OvhUpdate e d) → op_Update p e d w = (res, w') →
  ovh_partial kept p (OvhUpdate e d) (view w.1) (view w'.1) ∧
  (res = inl tt → ovh_done kept p (OvhUpdate e d) (view w.1) (view w'.1)).
Proof using OvhServer0.
  intros Hnd Hok. unfold op_Update. intros E. eapply ovh_find_then; [exact Hnd|exact E| |].
  - intros err -> Hv. split; [by left|done].
  - clear E. intros w1 Hv E. destruct (victim p e (view w.1).1) as [x|] eqn:Ex;
      [|injection E as <- <-; split; [by left|done]].
    rewrite io_bind_run in E. unfold io_lift in E.
    destruct (toOVHTarget d) as [target|err] eqn:Et; [|injection E as <- <-; split; [by left|done]].
    eapply (then_refresh (put kept (or_ID x) (update_request p d target))) in E;
      [|apply does_wrap, command_does; intros; by apply os_put, Hok].
    rewrite Hv in E.
    eapply lift_step; [|exact E]. intros. by econstructor.
Qed.

(** C22. A change that succeeds is made to one record and is served; one that fails
    leaves all as it was, the change staged, or the change served. *)
Theorem ovh_refines o w res w' :
  distinct (view w.1) → call_ok p o → ovh_run p o w = (res, w') →
  ovh_partial kept p o (view w.1) (view w'.1) ∧ (res = inl tt → ovh_done kept p o (view w.1) (view w'.1)).
Proof using OvhServer0.
  destruct o as [| |r|r|e d]; simpl; intros Hnd Hok E.
  - assert (view w'.1 = view w.1) as Hv.
    { pose proof (io_keeps_bind (view ∘ fst) (io_wrap (EWrapf "ping failed: ")
        (doRequest c "GET" (zone_path zone ++s "/soa") "")) (λ _, mret tt)
        (io_keeps_wrap _ _ _ (get_quiet _)) (λ _, io_keeps_ret _ _) w) as Hk.
      change (view (op_Ping p w).2.1 = view w.1) in Hk. by rewrite E in Hk. }
    split; [by left|done].
  - assert (view w'.1 = view w.1) as Hv.
    { pose proof (io_keeps_bind (view ∘ fst) (op_List p) (λ _, mret tt)
        (list_types_quiet _) (λ _, io_keeps_ret _ _) w) as Hk.
      change (view (discard (op_List p) w).2.1 = view w.1) in Hk. by rewrite E in Hk. }
    split; [by left|done].
  - by apply create_refines.
  - by apply delete_refines.
  - by apply update_refines.
Qed.
End Refinement.

(** ** Records and back *)

(** A name of the zone comes back as it was, but for a final dot. *)
Lemma toFQDN_toSubDomain p h :
  let host := TrimSuffix h "." in
  let zone := TrimSuffix (op_zone p) "." in
  host = zone ∨ (∃ a, a ≠ "" ∧ host = a ++s "." ++s zone) → toFQDN p (toSubDomain p h) = host.
Proof.
  intros host zone Hz. unfold toSubDomain, toFQDN. fold host zone.
  destruct (String.eqb_spec host zone) as [->|Hne]; [done|].
  destruct Hz as [|(a & Ha & ->)]; [done|]. rewrite HasSuffix_app, TrimSuffix_app.
  by apply String.eqb_neq in Ha as ->.
Qed.

Definition srv_ok (s : SRVData) : Prop :=
  (0 ≤ srv_Priority s < 2 ^ 16)%Z ∧ (0 ≤ srv_Weight s < 2 ^ 16)%Z ∧ (0 ≤ srv_Port s < 2 ^ 16)%Z.

Lemma parseSRVTarget_text s target :
  srv_ok s → clean_name target →
  parseSRVTarget (itoa (srv_Priority s) ++s " " ++s itoa (srv_Weight s) ++s " " ++s itoa (srv_Port s) ++s " "
                  ++s target) = Some (s, target).
Proof.
  intros (H1 & H2 & H3) Ht. unfold parseSRVTarget.
  assert (Fields (itoa (srv_Priority s) ++s " " ++s itoa (srv_Weight s) ++s " " ++s itoa (srv_Port s) ++s " "
            ++s target) = [itoa (srv_Priority s); itoa (srv_Weight s); itoa (srv_Port s); target]) as ->.
  { apply (Fields_Join [_; _; _; _]). repeat constructor; auto using itoa_nonempty, itoa_plain; apply Ht. }
  rewrite !ParseUint_itoa by done. by destruct s.
Qed.

(** What a record needs to have a text of its own: of an SRV record numbers of
    16 bits and a target without white space, of a TXT record a value that is
    not in quotes. *)
Definition textual (r : DNSRecord) : Prop :=
  if r_Type r == RecordTypeSRV then
    match r_SRV r with Some s => srv_ok s ∧ clean_name (r_Target r) | None => False end
  else r_SRV r = None ∧ (r_Type r = RecordTypeTXT → unquoteTXT (r_Target r) = r_Target r).

Lemma unquoteTXT_quoted t : unquoteTXT (quote_mark ++s t ++s quote_mark) = t.
Proof.
  unfold unquoteTXT. rewrite HasPrefix_app.
  assert (HasSuffix (quote_mark ++s t ++s quote_mark) quote_mark = true) as ->.
  { rewrite <- app_assoc_s. apply HasSuffix_app. }
  rewrite !length_app_s.
  assert (str_drop 1 (quote_mark ++s t ++s quote_mark) = t ++s quote_mark) as -> by done.
  change (String.length quote_mark) with 1. replace (2 <=? _)%nat with true by (symmetry; apply Nat.leb_le; lia).
  cbn [andb]. replace (1 + (String.length t + 1) - 2) with (String.length t) by lia. apply str_take_app.
Qed.

(** A server that keeps targets as they are, but for texts, which it may put in
    quotes. *)
Definition may_quote : keeping := λ t target ttl target' ttl',
  (target' = target ∨ t = RecordTypeTXT ∧ target' = quote_mark ++s target ++s quote_mark) ∧
  (ttl ≠ 0%Z → ttl' = ttl).

(** A record of the zone that is created is listed as it was, with its TTL or
    the provider's, and its new ID. *)
Theorem ovh_record_roundtrip p r target x :
  textual r → r_HTTPS r = None → r_Metadata r = ∅ →
  (let host := r_Hostname r in let zone := TrimSuffix (op_zone p) "." in
   TrimSuffix host "." = host ∧ (host = zone ∨ ∃ a, a ≠ "" ∧ host = a ++s "." ++s zone)) →
  toOVHTarget r = inl target → made_of may_quote (op_zone p) (create_request p r target) x →
  toProviderRecord p x =
    mkRecord (r_Hostname r) (r_Type r) (r_Target r) (or_TTL x) (itoa (or_ID x)) (r_SRV r) (r_HTTPS r) (r_Metadata r) ∧
  (effectiveTTL p (r_TTL r) ≠ 0%Z → or_TTL x = effectiveTTL p (r_TTL r)).
Proof.
  intros Ht Hh Hm [Hdot Hz] Et (_ & Hsub & Hty & Htg & Httl). simpl in *. split; [|done].
  unfold toProviderRecord. rewrite Hty, Hsub, Hh, Hm.
  rewrite toFQDN_toSubDomain by by rewrite Hdot. rewrite Hdot. unfold toOVHTarget in Et. unfold textual in Ht.
  destruct (String.eqb_spec (r_Type r) RecordTypeSRV) as [Es|_].
  - destruct (r_SRV r) as [s|]; [|done]. destruct Ht as [Hs Hc]. injection Et as <-.
    destruct Htg as [->|[Htxt _]]; [by rewrite parseSRVTarget_text|by rewrite Es in Htxt].
  - injection Et as <-. destruct Ht as [-> Hq].
    destruct (String.eqb_spec (r_Type r) RecordTypeTXT) as [E|Hne].
    + destruct Htg as [->|[_ ->]]; [by rewrite Hq|by rewrite unquoteTXT_quoted].
    + by destruct Htg as [->|[? _]].
Qed.

(** ** A server in memory

    It writes targets by [store].  Its clock stands still; a document it does not read, or cannot write, is an
    error of the server. *)
Definition record_ok (r : ovhRecord) : Prop :=
  int_ok (or_ID r) ∧ ascii_text (or_Zone r) ∧ ascii_text (or_SubDomain r) ∧ ascii_text (or_FieldType r) ∧
  ascii_text (or_Target r) ∧ int_ok (or_TTL r).

#[local] Instance record_ok_dec r : Decision (record_ok r).
Proof. unfold record_ok, int_ok, ascii_text. apply _. Defined.

Definition record_json (r : ovhRecord) : json :=
  JObj [("id", JInt (or_ID r)); ("zone", JStr (or_Zone r)); ("subDomain", JStr (or_SubDomain r));
        ("fieldType", JStr (or_FieldType r)); ("target", JStr (or_Target r)); ("ttl", JInt (or_TTL r))].

Definition zero_create : recordCreateRequest := mkCreateRequest "" "" "" 0.
Definition dec_create : decoder recordCreateRequest :=
  dec_struct
    [mk_field "fieldType" cq_FieldType (λ v q, mkCreateRequest v (cq_SubDomain q) (cq_Target q) (cq_TTL q)) dec_string;
     mk_field "subDomain" cq_SubDomain (λ v q, mkCreateRequest (cq_FieldType q) v (cq_Target q) (cq_TTL q)) dec_string;
     mk_field "target" cq_Target (λ v q, mkCreateRequest (cq_FieldType q) (cq_SubDomain q) v (cq_TTL q)) dec_string;
     mk_field "ttl" cq_TTL (λ v q, mkCreateRequest (cq_FieldType q) (cq_SubDomain q) (cq_Target q) v) dec_int].
Definition zero_update : recordUpdateRequest := mkUpdateRequest "" "" 0.
Definition dec_update : decoder recordUpdateRequest :=
  dec_struct
    [mk_field "subDomain" uq_SubDomain (λ v q, mkUpdateRequest v (uq_Target q) (uq_TTL q)) dec_string;
     mk_field "target" uq_Target (λ v q, mkUpdateRequest (uq_SubDomain q) v (uq_TTL q)) dec_string;
     mk_field "ttl" uq_TTL (λ v q, mkUpdateRequest (uq_SubDomain q) (uq_Target q) v) dec_int].

Definition fresh_id (l : list ovhRecord) : Z := (1 + fold_right Z.max 0 (ids l))%Z.

Definition created (store : string → string → string) (zone : string) (q : recordCreateRequest)
    (l : list ovhRecord) : ovhRecord :=
  mkOvhRecord (fresh_id l) zone (cq_SubDomain q) (cq_FieldType q) (store (cq_FieldType q) (cq_Target q)) (cq_TTL q).
Definition kept_by (store : string → string → string) : keeping := λ t target ttl target' ttl',
  target' = store t target ∧ ttl' = ttl.
Definition as_sent (t target : string) : string := target.
Definition in_quotes (t target : string) : string :=
  if t == RecordTypeTXT then quote_mark ++s target ++s quote_mark else target.

Definition record_answer (r : ovhRecord) : HTTPResponse :=
  if decide (record_ok r) then answer 200 (print (record_json r)) else answer 500 "".
Definition ids_answer (l : list ovhRecord) : HTTPResponse :=
  if decide (Forall record_ok l) then answer 200 (print (JArr (map (λ r, JInt (or_ID r)) l))) else answer 500 "".

(** The filters under which a record is listed. *)
Definition filters (r : ovhRecord) : list (string * string) :=
  [(or_FieldType r, or_SubDomain r); (or_FieldType r, ""); ("", or_SubDomain r); ("", "")].

Section Server.
Context (c : Client) (zone : string) (store : string → string → string).
#[local] Existing Instance no_json_errors.

Definition at_ (rq : HTTPRequest) (path : string) : bool := rq_URL rq == cl_baseURL c ++s path.
Definition is_listed (rq : HTTPRequest) (r : ovhRecord) : bool :=
  existsb (λ f, at_ rq (list_path zone f.1 f.2)) (filters r).
Definition is_record (rq : HTTPRequest) (r : ovhRecord) : bool := at_ rq (record_path zone (or_ID r)).

Definition server_do (rq : HTTPRequest) (v : Zones) : HTTPResponse * Zones :=
  if rq_Method rq == "GET" then
    (if at_ rq "/auth/time" then answer 200 "1700000000"
     else match List.find (is_record rq) v.1 with
          | Some r => record_answer r
          | None => ids_answer (List.filter (is_listed rq) v.1)
          end, v)
  else if rq_Method rq == "POST" then
    if at_ rq (refresh_path zone) then (answer 200 "null", (v.1, v.1))
    else match Unmarshal dec_create zero_create (rq_Body rq) with
         | inl q => (record_answer (created store zone q v.1), (v.1 ++ [created store zone q v.1], v.2))
         | inr _ => (answer 400 "", v)
         end
  else if rq_Method rq == "PUT" then
    match Unmarshal dec_update zero_update (rq_Body rq) with
    | inl q => (answer 200 "null",
                (map (λ r, if is_record rq r then change_record (uq_SubDomain q) (store (or_FieldType r) (uq_Target q)) (uq_TTL q) r else r) v.1,
                 v.2))
    | inr _ => (answer 400 "", v)
    end
  else (answer 200 "null", (List.filter (λ r, negb (is_record rq r)) v.1, v.2)).

Definition memory_http : HttpClient Zones := {|
  http_NewRequest _ _ := None;
  http_Do rq v := let '(a, v') := server_do rq v in (inl a, v')
|}.
#[local] Instance still_clock : Clock Zones := λ v, (0%Z, v).
#[local] Instance server_http : HttpClient Zones := memory_http.

(** *** Its URLs *)

Lemma at_api rq path path' : rq_URL rq = cl_baseURL c ++s path → at_ rq path' = (path == path').
Proof.
  intros Hu. unfold at_. rewrite Hu. destruct (String.eqb_spec path path') as [->|Hne]; [by apply String.eqb_eq|].
  apply String.eqb_neq. by intros ?%app_inj_prefix.
Qed.

Lemma itoa_inj a b : itoa a = itoa b → a = b.
Proof. intros H. by apply (inj (pretty (A:=Z))) in H. Qed.

Lemma record_path_inj a b : record_path zone a = record_path zone b ↔ a = b.
Proof. split; [|by intros ->]. unfold record_path. by intros H%app_inj_prefix%app_inj_prefix%itoa_inj. Qed.

Lemma field_query_plain t : str_contains_byte "&" (field_query t) = false.
Proof. unfold field_query. by rewrite str_contains_byte_app, QueryEscape_no_amp. Qed.

Lemma field_query_inj t t' : field_query t = field_query t' → t = t'.
Proof. unfold field_query. by intros H%app_inj_prefix%QueryEscape_inj. Qed.
Lemma sub_query_inj t t' : sub_query t = sub_query t' → t = t'.
Proof. unfold sub_query. by intros H%app_inj_prefix%QueryEscape_inj. Qed.

Lemma field_query_amp t t' u : field_query t ≠ field_query t' ++s String "&" u.
Proof.
  intros E%(f_equal (str_contains_byte "&")). rewrite field_query_plain in E.
  rewrite str_contains_byte_app, field_query_plain in E. simpl in E. done.
Qed.

Lemma list_path_inj t s t' s' : list_path zone t s = list_path zone t' s' ↔ t = t' ∧ s = s'.
Proof.
  split; [|by intros [-> ->]]. rewrite !list_path_cases. unfold ids_query. intros E%app_inj_prefix. revert E.
  destruct (String.eqb_spec t "") as [->|Ht], (String.eqb_spec s "") as [->|Hs],
    (String.eqb_spec t' "") as [->|Ht'], (String.eqb_spec s' "") as [->|Hs']; try done.
  - by intros ->%app_inj_prefix%sub_query_inj.
  - by intros ->%app_inj_prefix%field_query_inj.
  - by intros []%app_inj_prefix%field_query_amp.
  - by intros E%app_inj_prefix%eq_sym%field_query_amp.
  - intros E%app_inj_prefix.
    pose proof (Cut_app "&" _ (sub_query s) (field_query_plain t)) as Hc.
    rewrite E, Cut_app in Hc by apply field_query_plain. injection Hc as Ht1 Hs1.
    rewrite !app_empty_l in Ht1, Hs1. by apply QueryEscape_inj in Ht1 as ->, Hs1 as ->.
Qed.

(** No listing is a record, and neither is the time. *)
Lemma list_not_record t s id : list_path zone t s ≠ record_path zone id.
Proof.
  rewrite list_path_cases. unfold record_path, ids_query. intros E%app_inj_prefix. revert E.
  by destruct (t == ""), (s == "").
Qed.

Lemma is_listed_spec rq t s r :
  rq_URL rq = cl_baseURL c ++s list_path zone t s → is_listed rq r = listed_by t s r.
Proof.
  intros Hu. unfold is_listed, filters. cbn [existsb fst snd]. rewrite !(at_api rq _ _ Hu).
  assert (∀ t' s', (list_path zone t s == list_path zone t' s') = (t == t') && (s == s')) as He.
  { intros t' s'. destruct (String.eqb_spec (list_path zone t s) (list_path zone t' s')) as [[-> ->]%list_path_inj|Hne].
    - by rewrite !String.eqb_refl.
    - destruct (String.eqb_spec t t') as [->|], (String.eqb_spec s s') as [->|]; done. }
  rewrite !He. unfold listed_by.
  destruct (String.eqb_spec t "") as [->|], (String.eqb_spec s "") as [->|]; cbn [orb andb];
    rewrite ?(String.eqb_sym t), ?(String.eqb_sym s), ?orb_false_r, ?orb_true_r; try done.
  all: repeat match goal with |- context [String.eqb ?a ?b] => destruct (String.eqb_spec a b); subst; simpl; try done end.
  by rewrite orb_true_r.
Qed.

Lemma is_record_spec rq id r :
  rq_URL rq = cl_baseURL c ++s record_path zone id → is_record rq r = (or_ID r =? id)%Z.
Proof.
  intros Hu. unfold is_record. rewrite (at_api rq _ _ Hu).
  destruct (Z.eqb_spec (or_ID r) id) as [->|Hne]; [apply String.eqb_refl|].
  apply String.eqb_neq. intros E%record_path_inj. congruence.
Qed.

(** *** Its documents *)

Lemma dec_ids l :
  Forall record_ok l → dec_list 0%Z dec_int [] (JArr (map (λ r, JInt (or_ID r)) l)) = Some (ids l).
Proof.
  intros Hl. cbn [dec_list]. unfold ids. induction Hl as [|r l (Hi & _) _ IH]; [done|].
  cbn [map dec_all]. unfold int_ok in Hi. rewrite dec_int_JInt by done. by rewrite IH.
Qed.

Lemma dec_record_json_ovh r : record_ok r → dec_record zero_record (record_json r) = Some r.
Proof.
  destruct r as [i z sb t tg ttl]. intros (Hi & _ & _ & _ & _ & Ht). simpl in Hi, Ht.
  unfold dec_record, dec_struct, record_json. cbn [or_ID or_Zone or_SubDomain or_FieldType or_Target or_TTL].
  set (F := λ k a j, _).
  change (dec_members F _ _) with
    (a ← (b ← dec_int 0%Z (JInt i); Some (mkOvhRecord b "" "" "" "" 0));
     dec_members F a [("zone", JStr z); ("subDomain", JStr sb); ("fieldType", JStr t); ("target", JStr tg); ("ttl", JInt ttl)]).
  rewrite dec_int_JInt by done. cbn [mbind option_bind].
  change (dec_members F _ _) with (a ← (b ← dec_int 0%Z (JInt ttl); Some (mkOvhRecord i z sb t tg b)); Some a).
  by rewrite dec_int_JInt.
Qed.

Lemma wf_record_ovh r : record_ok r → wf_json 1 (record_json r).
Proof. intros (_ & Hz & Hs & Ht & Hg & _). apply (wf_obj 0). repeat constructor; done. Qed.

Lemma wf_ids l : wf_json 1 (JArr (map (λ r, JInt (or_ID r)) l)).
Proof. apply (wf_arr 0), Forall_fmap, Forall_true. intros r. constructor. Qed.

Lemma ovh_Unmarshal_create q : create_ok q → Unmarshal dec_create zero_create (print (create_document q)) = inl q.
Proof.
  destruct q as [t sb tg ttl]. intros (Ht & Hs & Hg & Hi). simpl in Ht, Hs, Hg, Hi.
  rewrite (Unmarshal_print _ _ 1); [| |done].
  - unfold dec_create, dec_struct, create_document. cbn [cq_FieldType cq_SubDomain cq_Target cq_TTL].
    destruct (Z.eqb_spec ttl 0) as [->|_]; [done|]. set (F := λ k a j, _).
    change (dec_members F _ _) with (a ← (b ← dec_int 0%Z (JInt ttl); Some (mkCreateRequest t sb tg b)); Some a).
    by rewrite dec_int_JInt.
  - apply (wf_obj 0). cbn [cq_FieldType cq_SubDomain cq_Target cq_TTL].
    destruct (ttl =? 0)%Z; repeat constructor; done.
Qed.

Lemma ovh_Unmarshal_update q : update_ok q → Unmarshal dec_update zero_update (print (update_document q)) = inl q.
Proof.
  destruct q as [sb tg ttl]. intros (Hs & Hg & Hi). simpl in Hs, Hg, Hi.
  rewrite (Unmarshal_print _ _ 1); [| |done].
  - unfold dec_update, dec_struct, update_document. cbn [uq_SubDomain uq_Target uq_TTL].
    destruct (Z.eqb_spec ttl 0) as [->|_]; [done|]. set (F := λ k a j, _).
    change (dec_members F _ _) with (a ← (b ← dec_int 0%Z (JInt ttl); Some (mkUpdateRequest sb tg b)); Some a).
    by rewrite dec_int_JInt.
  - apply (wf_obj 0). cbn [uq_SubDomain uq_Target uq_TTL].
    destruct (ttl =? 0)%Z; repeat constructor; done.
Qed.

Lemma fresh_id_new l : fresh_id l ∉ ids l.
Proof.
  assert (∀ i, i ∈ ids l → (i < fresh_id l)%Z) as Hlt.
  { unfold fresh_id. intros i. induction (ids l) as [|j m IH]; [by intros ?%elem_of_nil|]. simpl.
    intros [->|Hi]%elem_of_cons; [lia|]. specialize (IH Hi). lia. }
  intros Hin%Hlt. lia.
Qed.

(** The API's URLs in the provider's terms. *)
Lemma ids_url t s : api_url c zone ("/record" ++s ids_query t s) = cl_baseURL c ++s list_path zone t s.
Proof. unfold api_url. rewrite list_path_cases. unfold records_path, zone_path. by rewrite !app_assoc_s. Qed.
Lemma record_url i : api_url c zone ("/record/" ++s itoa i) = cl_baseURL c ++s record_path zone i.
Proof. unfold api_url, record_path, records_path, zone_path. by rewrite !app_assoc_s. Qed.

(** Comparisons of texts that are known. *)
Ltac eval_method :=
  repeat match goal with
         | |- context [String.eqb ?a ?b] =>
             let v := eval vm_compute in (String.eqb a b) in
             lazymatch v with true => idtac | false => idtac end;
             change (String.eqb a b) with v
         end; cbv iota.

(** A read is answered, and changes nothing. *)
Lemma server_get rq v : rq_Method rq = "GET" → (server_do rq v).2 = v.
Proof. intros Hm. unfold server_do. by rewrite Hm. Qed.

Lemma server_ids t s rq v l :
  rq_Method rq = "GET" → rq_URL rq = cl_baseURL c ++s list_path zone t s →
  is_2xx (StatusCode (server_do rq v).1) = true →
  Unmarshal (dec_list 0%Z dec_int) [] (Body (server_do rq v).1) = inl l →
  l = ids (List.filter (listed_by t s) v.1).
Proof.
  intros Hm Hurl. unfold server_do. rewrite Hm, (at_api _ _ _ Hurl). eval_method.
  destruct (List.find _ _) as [x|] eqn:Ef.
  { apply List.find_some in Ef as [_ Hx]. unfold is_record in Hx. rewrite (at_api _ _ _ Hurl) in Hx.
    by apply String.eqb_eq, list_not_record in Hx. }
  cbn [fst]. rewrite (List.filter_ext _ _ (λ r, is_listed_spec rq t s r Hurl)).
  unfold ids_answer. case_decide as Hok; [|done]. cbn [Body answer]. intros _.
  rewrite (Unmarshal_print _ _ 1), dec_ids by (done || apply wf_ids). by intros [= <-].
Qed.

Lemma server_record i rq v x :
  rq_Method rq = "GET" → rq_URL rq = cl_baseURL c ++s record_path zone i →
  is_2xx (StatusCode (server_do rq v).1) = true →
  Unmarshal dec_record zero_record (Body (server_do rq v).1) = inl x → x ∈ v.1 ∧ or_ID x = i.
Proof.
  intros Hm Hurl. unfold server_do. rewrite Hm, (at_api _ _ _ Hurl). eval_method.
  cbn [fst]. destruct (List.find _ _) as [y|] eqn:Ef.
  - apply List.find_some in Ef as [Hin Hx]. rewrite (is_record_spec _ _ _ Hurl) in Hx. apply Z.eqb_eq in Hx.
    unfold record_answer. case_decide as Hok; [|done]. cbn [Body answer]. intros _.
    rewrite (Unmarshal_print _ _ 1), dec_record_json_ovh by (done || by apply wf_record_ovh).
    intros [= <-]. split; [by apply list_elem_of_In|done].
  - assert (List.filter (is_listed rq) v.1 = []) as ->.
    { apply filter_nil. intros y _. unfold is_listed. apply not_true_iff_false. rewrite existsb_exists.
      intros (f & _ & Hf). rewrite (at_api _ _ _ Hurl) in Hf. by apply String.eqb_eq, eq_sym, list_not_record in Hf. }
    unfold ids_answer. case_decide; [|done]. intros _. by vm_compute.
Qed.

Lemma memory_effect rq (R : Zones → Zones → Prop) :
  (∀ v, R v (server_do rq v).2) → effect id R rq.
Proof.
  intros HR v r v'. unfold http_Do, server_http, memory_http. specialize (HR v).
  destruct (server_do rq v) as [a v1]. intros [= <- <-]. simpl in HR. split; [by right|done].
Qed.

Lemma server_post q rq v :
  create_ok q → rq_Method rq = "POST" → rq_URL rq = api_url c zone "/record" →
  rq_Body rq = print (create_document q) →
  (server_do rq v).2 = (v.1 ++ [created store zone q v.1], v.2).
Proof.
  intros Hq Hm Hurl Hb. unfold server_do. rewrite Hm, Hb. eval_method.
  unfold api_url in Hurl. rewrite (at_api rq ("/domain/zone/" ++s PathEscape zone ++s "/record")) by done.
  assert ((("/domain/zone/" ++s PathEscape zone ++s "/record" : string) == refresh_path zone) = false) as ->.
  { apply String.eqb_neq. unfold refresh_path, zone_path. rewrite app_assoc_s.
    by intros ?%app_inj_prefix%app_inj_prefix. }
  by rewrite ovh_Unmarshal_create.
Qed.

(** It is a server as the provider expects one. *)
Lemma ov_memory_server : OvhServer c zone (kept_by store) id.
Proof.
  split.
  - done.
  - intros rq v Hm. unfold http_Do, server_http, memory_http.
    pose proof (server_get rq v Hm) as Hg. by destruct (server_do rq v).
  - intros t s rq v resp v' l Hm Hurl E H2 _. rewrite ids_url in Hurl.
    unfold http_Do, server_http, memory_http in E.
    pose proof (server_ids t s rq v l Hm Hurl) as Hl. destruct (server_do rq v). injection E as -> ->. by apply Hl.
  - intros i rq v resp v' x Hm Hurl E H2 _. rewrite record_url in Hurl.
    unfold http_Do, server_http, memory_http in E.
    pose proof (server_record i rq v x Hm Hurl) as Hl. destruct (server_do rq v). injection E as -> ->. by apply Hl.
  - intros q rq Hq Hm Hurl Hb. apply memory_effect. intros v. rewrite (server_post q) by done.
    exists (created store zone q v.1). split; [apply fresh_id_new|]. by split_and!.
  - intros i q rq Hq Hm Hurl Hb. apply memory_effect. intros v. rewrite record_url in Hurl.
    unfold server_do. rewrite Hm, Hb, ovh_Unmarshal_update by done. eval_method. cbn [snd].
    exists (λ r, (store (or_FieldType r) (uq_Target q), uq_TTL q)). split; [by split|].
    unfold changed. f_equal. apply map_ext. intros y. by rewrite (is_record_spec _ _ _ Hurl).
  - intros i rq Hm Hurl. apply memory_effect. intros v. rewrite record_url in Hurl.
    unfold server_do, deleted, without. rewrite Hm. eval_method. cbn [snd].
    f_equal. apply List.filter_ext. intros y. by rewrite (is_record_spec _ _ _ Hurl).
  - intros rq Hm Hurl. apply memory_effect. intros v. unfold server_do. rewrite Hm. eval_method.
    unfold at_, refresh_path, zone_path. unfold api_url in Hurl.
    rewrite Hurl, app_assoc_s, String.eqb_refl. done.
Qed.
End Server.

(** ** Scenarios *)

Definition demo : OProvider :=
  mkOProvider "ovh" "example.com" "ovh-eu" 3600 (NewClient "https://eu.api.ovh.com/1.0" "app" "secret" "consumer").
Definition host_record (id : Z) (sub target : string) : ovhRecord :=
  mkOvhRecord id "example.com" sub "A" target 3600.
Definition demo_zone (l : list ovhRecord) : Zones := (l, l).
Definition address (host target : string) : DNSRecord := mkRecord host RecordTypeA target 0 "" None None ∅.

Section Demo.
#[local] Existing Instance no_json_errors.
#[local] Instance demo_http : HttpClient Zones := memory_http (op_client demo) "example.com" as_sent.
#[local] Existing Instance still_clock.
#[local] Instance demo_server : OvhServer (op_client demo) (op_zone demo) (kept_by as_sent) id :=
  ov_memory_server _ _ _.

(** The zone's own name is the empty name in its zone, which lets every name
    through the filter: deleting its address deletes that of another name. *)
Lemma ovh_refines_witness :
  let v := demo_zone [host_record 1 "app" "192.0.2.1"; host_record 2 "" "192.0.2.1"] in
  let o := OvhDelete (address "example.com" "192.0.2.1") in
  let r := ovh_run demo o (v, new_time) in
  ovh_done (kept_by as_sent) demo o v r.2.1 ∧ r.2.1 = demo_zone [host_record 2 "" "192.0.2.1"].
Proof.
  intros v o r. split; [|vm_compute; reflexivity].
  assert (r.1 = inl tt) as E by (vm_compute; reflexivity).
  destruct (ovh_refines demo (kept_by as_sent) id o (v, new_time) r.1 r.2) as [_ Hd].
  - apply (bool_decide_unpack _). vm_compute. exact I.
  - exact I.
  - apply surjective_pairing.
  - exact (Hd E).
Defined.

(** Among records of one name and type the target decides. *)
Example target_decides :
  (ovh_run demo (OvhDelete (address "app.example.com" "192.0.2.2"))
     (demo_zone [host_record 1 "app" "192.0.2.1"; host_record 2 "app" "192.0.2.2"], new_time)).2.1
  = demo_zone [host_record 1 "app" "192.0.2.1"].
Proof. by vm_compute. Qed.

(** On a server that writes texts in quotes no target of a text is found: of two
    texts of a name, the first is deleted whichever is meant. *)
Example quoted_text_mixed_up :
  let text (t : string) := mkRecord "app.example.com" RecordTypeTXT t 0 "" None None ∅ in
  let run o v := (ovh_run (H := memory_http (op_client demo) "example.com" in_quotes) demo o (v, new_time)).2.1 in
  let v := run (OvhCreate (text "b")) (run (OvhCreate (text "a")) (demo_zone [])) in
  (map or_Target v.1, map or_Target (run (OvhDelete (text "b")) v).1)
  = ([quote_mark ++s "a" ++s quote_mark; quote_mark ++s "b" ++s quote_mark], [quote_mark ++s "b" ++s quote_mark]).
Proof. by vm_compute. Qed.

(** A publication that fails is not made up for: the second deletion finds no
    record, says that all is done, and the name is still served. *)
Definition no_refresh : HttpClient Zones := {|
  http_NewRequest _ _ := None;
  http_Do rq v :=
    if HasSuffix (rq_URL rq) "/refresh" then (inr (ENew "connection reset"), v)
    else @http_Do _ demo_http rq v
|}.

Example deletion_not_served :
  let o := OvhDelete (address "app.example.com" "192.0.2.1") in
  let v := demo_zone [host_record 1 "app" "192.0.2.1"] in
  let r1 := ovh_run (H := no_refresh) demo o (v, new_time) in
  let r2 := ovh_run demo o r1.2 in
  (match r1.1 with inl _ => false | inr _ => true end, r1.2.1, r2.1, r2.2.1)
  = (true, ([], v.2), inl tt, ([], v.2)).
Proof. by vm_compute. Qed.
End Demo.

(** An SRV record below the zone's name. *)
Lemma ovh_record_roundtrip_witness :
  let r := mkRecord "_sip._tcp.example.com" RecordTypeSRV "pbx.example.com" 600 "" (Some (mkSRVData 10 60 5060)) None ∅ in
  toOVHTarget r = inl "10 60 5060 pbx.example.com" ∧
  toProviderRecord demo (mkOvhRecord 7 "example.com" "_sip._tcp" "SRV" "10 60 5060 pbx.example.com" 600)
  = mkRecord "_sip._tcp.example.com" RecordTypeSRV "pbx.example.com" 600 "7" (Some (mkSRVData 10 60 5060)) None ∅.
Proof.
  intros r. split; [vm_compute; reflexivity|].
  destruct (ovh_record_roundtrip demo r "10 60 5060 pbx.example.com"
              (mkOvhRecord 7 "example.com" "_sip._tcp" "SRV" "10 60 5060 pbx.example.com" 600)) as [H _].
  - split; [unfold srv_ok; simpl; lia|]. by split.
  - reflexivity.
  - reflexivity.
  - split; [vm_compute; reflexivity|]. right. exists "_sip._tcp". split; [discriminate|reflexivity].
  - vm_compute. reflexivity.
  - split_and!; [reflexivity..|]. split; [left; reflexivity|intros _; reflexivity].
  - exact H.
Defined.

(** *** The requests *)

Section Recorded.
#[local] Existing Instance no_json_errors.

(** Every answer is the time; the world keeps the requests. *)
#[local] Instance recorded_http : HttpClient (list HTTPRequest) := {|
  http_NewRequest _ _ := None;
  http_Do rq l := (inl (answer 200 "1700000000"), l ++ [rq])
|}.
#[local] Instance recorded_clock : Clock (list HTTPRequest) := λ l, (1699999990 * time_Second, l)%Z.

Lemma recorded_traced : Traced (λ l : list HTTPRequest, l).
Proof. by intros rq l. Qed.

End Recorded.
