(* ===== verification/Pihole.v ===== *)
(** * The Pi-hole provider (providers/pihole)

    The clients of the two versions of Pi-hole's API, the probe that tells
    them apart, and the provider, which in file mode hands everything to the
    dnsmasq provider.  The server is reached through [HttpClient], the time of
    day is [Clock]; logging is left out.  Not modelled: the constructors
    [NewFromEnv] and [NewFromMap], which the program does not call. *)
From S2P Require Import Prelude GoStrings GoTime GoMaps NetIP Errors ProviderTypes Effects Registry.
From S2P Require Import DnsConfig IO Http Json Url Sha Dnsmasq.
From S2P Require AdGuard.
From Stdlib Require Import ZArith.

(** ** Records and clients (client.go, client_interface.go) *)

Record piholeRecord := mkPiholeRecord {
  ph_Hostname : string;
  ph_Type : RecordType;
  ph_Target : string
}.

(** The session of a client of version 6; the others have none. *)
Record Session := mkSession { ss_sid : string; ss_expires : Z }.
Definition new_session : Session := mkSession "" 0.

(** The interface [DNSClient]. *)
Record DNSClient (W : Type) := mkDNSClient {
  dc_List : IO (W * Session) (list piholeRecord);
  dc_Create : piholeRecord → IO (W * Session) unit;
  dc_Delete : piholeRecord → IO (W * Session) unit
}.
Arguments mkDNSClient {W} _ _ _.
Arguments dc_List {W} _.
Arguments dc_Create {W} _ _.
Arguments dc_Delete {W} _ _.

(** ** Version 5 (client.go) *)

Definition DefaultAPIPath : string := "/admin/api.php".

Record APIClient := mkAPIClient { ac_baseURL : string; ac_password : string; ac_zone : string }.
Definition NewAPIClient (baseURL password zone : string) : APIClient :=
  mkAPIClient (trim_right (Ascii.eqb "/") baseURL) password zone.

Definition hashPassword (c : APIClient) : string := hex (sum256 (sum256 (text_bytes (ac_password c)))).

Definition buildURL (c : APIClient) (params : gmap string string) : string :=
  ac_baseURL c ++s DefaultAPIPath ++s "?" ++s Encode (<["auth" := hashPassword c]> params).

Definition dec_pairs : decoder (list (list string)) :=
  dec_struct [mk_field "data" id (λ v _, v) (dec_list [] (dec_list "" dec_string))].
(** success, message *)
Definition dec_result : decoder (bool * string) :=
  dec_struct [mk_field "success" fst (λ v r, (v, r.2)) dec_bool;
              mk_field "message" snd (λ v r, (r.1, v)) dec_string].

Definition customdns_entry (entry : list string) : option piholeRecord :=
  match entry with
  | ip :: hostname :: _ =>
      match ParseIP ip with
      | None => None
      | Some parsedIP =>
          Some (mkPiholeRecord hostname
                  (match To4 parsedIP with Some _ => RecordTypeA | None => RecordTypeAAAA end) ip)
      end
  | _ => None
  end.
Definition cname_entry (entry : list string) : option piholeRecord :=
  match entry with
  | hostname :: target :: _ => Some (mkPiholeRecord hostname RecordTypeCNAME target)
  | _ => None
  end.

Definition in_zone (zone : string) (r : piholeRecord) : bool :=
  HasSuffix (ph_Hostname r) ("." ++s zone) || (ph_Hostname r == zone).

(** The parameters of the requests. *)
Definition dns_params (action : string) (r : piholeRecord) : gmap string string :=
  {["customdns" := ""; "action" := action; "ip" := ph_Target r; "domain" := ph_Hostname r]}.
Definition cname_params (action : string) (r : piholeRecord) : gmap string string :=
  {["customcname" := ""; "action" := action; "domain" := ph_Hostname r; "target" := ph_Target r]}.
Definition get_params (key : string) : gmap string string := {[key := ""; "action" := "get"]}.

(** The messages that are no errors of an addition and of a deletion. *)
Definition exists_message (msg : string) : bool := Contains msg "already exists".
Definition missing_message (msg : string) : bool :=
  Contains msg "not found" || Contains msg "does not exist".

Section V5.
Context {W : Type} `{HttpClient W} `{JsonErrors} (c : APIClient).

Definition v5_send (params : gmap string string) : IO W HTTPResponse :=
  match http_NewRequest "GET" (buildURL c params) with
  | Some err => io_fail (EWrapf "creating request: " err)
  | None => io_wrap (EWrapf "executing request: ") (http_Do (mkRequest "GET" (buildURL c params) [] ""))
  end.

Definition v5_Ping : IO W unit :=
  match http_NewRequest "GET" (buildURL c {["summary" := ""]}) with
  | Some err => io_fail (EWrapf "creating request: " err)
  | None =>
      resp ← io_wrap (EWrapf "connecting to Pi-hole: ")
               (http_Do (mkRequest "GET" (buildURL c {["summary" := ""]}) [] ""));
      if negb (StatusCode resp =? StatusOK)%Z
      then let body := match ReadBody resp 0 with inl b => b | inr _ => "" end in
           io_fail (ENew ("pi-hole returned status " ++s itoa (StatusCode resp) ++s ": " ++s body))
      else mret tt
  end.

(** [listCustomDNS] and [listCNAME], which differ in the parameter and in what
    an entry stands for. *)
Definition list_entries (key : string) (entry : list string → option piholeRecord) : IO W (list piholeRecord) :=
  resp ← v5_send (get_params key);
  body ← io_wrap (EWrapf "reading response: ") (io_lift (ReadBody resp 0));
  if negb (StatusCode resp =? StatusOK)%Z
  then io_fail (ENew ("API returned status " ++s itoa (StatusCode resp) ++s ": " ++s body))
  else
    data ← io_wrap (EWrapf "parsing response: ") (io_lift (Unmarshal dec_pairs [] body));
    mret (omap entry data).
Definition listCustomDNS : IO W (list piholeRecord) := list_entries "customdns" customdns_entry.
Definition listCNAME : IO W (list piholeRecord) := list_entries "customcname" cname_entry.

Definition v5_List : IO W (list piholeRecord) :=
  aRecords ← io_wrap (EWrapf "listing custom DNS: ") listCustomDNS;
  cnameRecords ← io_wrap (EWrapf "listing CNAME: ") listCNAME;
  let records := aRecords ++ cnameRecords in
  mret (if ac_zone c != "" then List.filter (in_zone (ac_zone c)) records else records).

(** The four changes, which differ in the parameters and in the messages that
    count as a success. *)
Definition v5_change (fine : string → bool) (params : gmap string string) : IO W unit :=
  resp ← v5_send params;
  body ← io_wrap (EWrapf "reading response: ") (io_lift (ReadBody resp 0));
  match Unmarshal dec_result (false, "") body with
  | inr err =>
      if (StatusCode resp =? StatusOK)%Z then mret tt else io_fail (EWrapf "parsing response: " err)
  | inl (success, message) =>
      if success || fine message then mret tt else io_fail (ENew ("API error: " ++s message))
  end.
Definition createCustomDNS (r : piholeRecord) : IO W unit := v5_change exists_message (dns_params "add" r).
Definition createCNAME (r : piholeRecord) : IO W unit := v5_change exists_message (cname_params "add" r).
Definition deleteCustomDNS (r : piholeRecord) : IO W unit := v5_change missing_message (dns_params "delete" r).
Definition deleteCNAME (r : piholeRecord) : IO W unit := v5_change missing_message (cname_params "delete" r).

(** The switch on the type of [Create] and [Delete], the same for both
    versions. *)
Definition by_type {A} (r : piholeRecord) (address alias : A) (other : error → A) : A :=
  let t := ph_Type r in
  if (t == RecordTypeA) || (t == RecordTypeAAAA) then address
  else if t == RecordTypeCNAME then alias
  else other (ENew ("unsupported record type: " ++s t)).

Definition v5_Create (r : piholeRecord) : IO W unit := by_type r (createCustomDNS r) (createCNAME r) io_fail.
Definition v5_Delete (r : piholeRecord) : IO W unit := by_type r (deleteCustomDNS r) (deleteCNAME r) io_fail.

Definition v5_client : DNSClient W :=
  mkDNSClient (net v5_List) (λ r, net (v5_Create r)) (λ r, net (v5_Delete r)).
End V5.

(** ** Version 6 (client_v6.go) *)

Record V6APIClient := mkV6APIClient { v6_baseURL : string; v6_password : string; v6_zone : string }.
Definition NewV6APIClient (baseURL password zone : string) : V6APIClient :=
  mkV6APIClient (TrimSuffix baseURL "/") password zone.

Record sessionResponse := mkSessionResponse {
  sr_Valid : bool;
  sr_SID : string;
  sr_CSRF : string;
  sr_Validity : Z;
  sr_Message : string
}.
Definition zero_session : sessionResponse := mkSessionResponse false "" "" 0 "".
Definition dec_session : decoder sessionResponse :=
  dec_struct
    [mk_field "valid" sr_Valid (λ v s, mkSessionResponse v (sr_SID s) (sr_CSRF s) (sr_Validity s) (sr_Message s)) dec_bool;
     mk_field "sid" sr_SID (λ v s, mkSessionResponse (sr_Valid s) v (sr_CSRF s) (sr_Validity s) (sr_Message s)) dec_string;
     mk_field "csrf" sr_CSRF (λ v s, mkSessionResponse (sr_Valid s) (sr_SID s) v (sr_Validity s) (sr_Message s)) dec_string;
     mk_field "validity" sr_Validity (λ v s, mkSessionResponse (sr_Valid s) (sr_SID s) (sr_CSRF s) v (sr_Message s)) dec_int;
     mk_field "message" sr_Message (λ v s, mkSessionResponse (sr_Valid s) (sr_SID s) (sr_CSRF s) (sr_Validity s) v) dec_string].
Definition dec_auth : decoder sessionResponse := dec_struct [mk_field "session" id (λ v _, v) dec_session].

(** config.dns.hosts and config.dns.cnameRecords *)
Definition dec_dns : decoder (list string * list string) :=
  dec_struct [mk_field "hosts" fst (λ v r, (v, r.2)) (dec_list "" dec_string);
              mk_field "cnameRecords" snd (λ v r, (r.1, v)) (dec_list "" dec_string)].
Definition dec_config : decoder (list string * list string) :=
  dec_struct [mk_field "config" id (λ v _, v) (dec_struct [mk_field "dns" id (λ v _, v) dec_dns])].

Definition parseHostEntry (entry : string) : list piholeRecord :=
  match Fields entry with
  | (ip :: _ :: _) as parts =>
      let t := match ParseIP ip with
               | Some _ => if Contains ip ":" then RecordTypeAAAA else RecordTypeA
               | None => RecordTypeA
               end in
      map (λ hostname, mkPiholeRecord hostname t ip) (tail parts)
  | _ => []
  end.

Definition parseCNAMEEntry (entry : string) : option piholeRecord :=
  match Split "," entry with
  | alias :: target :: _ => Some (mkPiholeRecord (TrimSpace alias) RecordTypeCNAME (TrimSpace target))
  | _ => None
  end.

Definition host_value (r : piholeRecord) : string := ph_Target r ++s " " ++s ph_Hostname r.
Definition cname_value (r : piholeRecord) : string := ph_Hostname r ++s "," ++s ph_Target r.
Definition hosts_path (r : piholeRecord) : string := "/api/config/dns/hosts/" ++s PathEscape (host_value r).
Definition cnames_path (r : piholeRecord) : string :=
  "/api/config/dns/cnameRecords/" ++s PathEscape (cname_value r).

(** What the text of an error has to hold to count as a success. *)
Definition exists_error (err : error) : bool :=
  Contains (Error err) "already exists" || Contains (Error err) "duplicate".
Definition missing_error (err : error) : bool :=
  Contains (Error err) "not found" || Contains (Error err) "does not exist" || Contains (Error err) "404".

(** The time a session lasts: half a minute less than it is valid, and at least
    that. *)
Definition session_validity (validity : Z) : Z :=
  let v := wrap64 (wrap64 (validity - 30) * time_Second) in
  if (v <? 30 * time_Second)%Z then 30 * time_Second else v.

Section V6.
Context {W : Type} `{HttpClient W} `{JsonErrors} `{Clock W} (c : V6APIClient).
#[local] Notation SOp := (IO (W * Session)).

Definition io_now : IO W Z := λ w, let '(t, w') := now w in (inl t, w').

Definition auth_request : HTTPRequest :=
  mkRequest "POST" (v6_baseURL c ++s "/api/auth")
    [("Content-Type", "application/json"); ("Accept", "application/json")]
    (print (JObj [("password", JStr (v6_password c))])).

(** The part of [authenticate] that asks for a session. *)
Definition new_sid : IO W Session :=
  match http_NewRequest "POST" (v6_baseURL c ++s "/api/auth") with
  | Some err => io_fail (EWrapf "creating auth request: " err)
  | None =>
      resp ← io_wrap (EWrapf "executing auth request: ") (http_Do auth_request);
      respBody ← io_wrap (EWrapf "reading auth response: ") (io_lift (ReadBody resp 0));
      if negb (StatusCode resp =? StatusOK)%Z
      then io_fail (ENew ("auth failed with status " ++s itoa (StatusCode resp) ++s ": " ++s respBody))
      else
        session ← io_wrap (EWrapf "parsing auth response: ") (io_lift (Unmarshal dec_auth zero_session respBody));
        if negb (sr_Valid session) then
          let msg := if sr_Message session == "" then "invalid credentials" else sr_Message session in
          io_fail (ENew ("authentication failed: " ++s msg))
        else
          t ← io_now;
          mret (mkSession (sr_SID session) (t + session_validity (sr_Validity session)))
  end.

Definition authenticate : SOp unit :=
  s ← get_obj;
  fresh ← (if ss_sid s != "" then t ← net io_now; mret (t <? ss_expires s)%Z else mret false);
  if fresh : bool then mret tt
  else s' ← net new_sid; put_obj s'.

Definition getSID : SOp string := _ ← authenticate; s ← get_obj; mret (ss_sid s).

Definition v6_request (method path sid : string) (reqBody : option json) : HTTPRequest :=
  mkRequest method (v6_baseURL c ++s path)
    ([("X-FTL-SID", sid); ("Accept", "application/json")]
     ++ match reqBody with Some _ => [("Content-Type", "application/json")] | None => [] end)
    (match reqBody with Some j => print j | None => "" end).

Definition doRequest (method path : string) (reqBody : option json) : SOp string :=
  sid ← io_wrap (EWrapf "getting session: ") getSID;
  match http_NewRequest method (v6_baseURL c ++s path) with
  | Some err => io_fail (EWrapf "creating request: " err)
  | None =>
      resp ← io_wrap (EWrapf "executing request: ") (net (http_Do (v6_request method path sid reqBody)));
      respBody ← io_wrap (EWrapf "reading response: ") (io_lift (ReadBody resp 0));
      if (StatusCode resp =? StatusUnauthorized)%Z
      then _ ← put_obj new_session; io_fail (ENew "session expired, retry required")
      else if negb (is_2xx (StatusCode resp))
      then io_fail (ENew ("API error (status " ++s itoa (StatusCode resp) ++s "): " ++s respBody))
      else mret respBody
  end.

Definition v6_List : SOp (list piholeRecord) :=
  body ← io_wrap (EWrapf "fetching config: ") (doRequest "GET" "/api/config/dns" None);
  r ← io_wrap (EWrapf "parsing config: ") (io_lift (Unmarshal dec_config ([], []) body));
  mret (concat (map parseHostEntry r.1) ++ omap parseCNAMEEntry r.2).

(** The four changes, which differ in the path and in the errors that count as
    a success. *)
Definition v6_change (fine : error → bool) (what method path : string) : SOp unit :=
  io_catch (_ ← doRequest method path None; mret tt)
    (λ err, if fine err then mret tt else io_fail (EWrapf what err)).
Definition createHostEntry (r : piholeRecord) : SOp unit :=
  v6_change exists_error "creating host entry: " "PUT" (hosts_path r).
Definition createCNAMEEntry (r : piholeRecord) : SOp unit :=
  v6_change exists_error "creating CNAME entry: " "PUT" (cnames_path r).
Definition deleteHostEntry (r : piholeRecord) : SOp unit :=
  v6_change missing_error "deleting host entry: " "DELETE" (hosts_path r).
Definition deleteCNAMEEntry (r : piholeRecord) : SOp unit :=
  v6_change missing_error "deleting CNAME entry: " "DELETE" (cnames_path r).

Definition v6_Create (r : piholeRecord) : SOp unit :=
  by_type r (createHostEntry r) (createCNAMEEntry r) io_fail.
Definition v6_Delete (r : piholeRecord) : SOp unit :=
  by_type r (deleteHostEntry r) (deleteCNAMEEntry r) io_fail.

Definition v6_client : DNSClient W := mkDNSClient v6_List v6_Create v6_Delete.
End V6.

(** ** The probe (version.go) *)

Inductive APIVersion := APIVersionUnknown | APIVersionV5 | APIVersionV6.
Definition APIVersion_String (v : APIVersion) : string :=
  match v with APIVersionV5 => "v5" | APIVersionV6 => "v6" | APIVersionUnknown => "unknown" end.

(** Whether a JSON number has a float64: its parts (digits before and after the
    point, and the exponent) against the largest one and a half step. *)
Definition digit_run (s : string) : string * string :=
  let fix go s :=
    match s with
    | String c t => if is_digit c then let '(a, b) := go t in (String c a, b) else ("", s)
    | EmptyString => ("", "")
    end in go s.
Definition digits_value (s : string) : Z := default 0%Z (digits_val 0 s).
Definition float64_limit : Z := 2 ^ 1024 - 2 ^ 970.
Definition has_float64 (lit : string) : bool :=
  let unsigned := match lit with String "-" t => t | _ => lit end in
  let '(int, rest) := digit_run unsigned in
  let '(frac, rest) := match rest with String "." t => digit_run t | _ => ("", rest) end in
  let exponent :=
    match rest with
    | String _ (String "-" e) => (- digits_value e)%Z
    | String _ (String "+" e) | String _ e => digits_value e
    | EmptyString => 0%Z
    end in
  let m := digits_value (int ++s frac) in
  let e := (exponent - Z.of_nat (String.length frac))%Z in
  if (0 <=? e)%Z then (m * 10 ^ e <? float64_limit)%Z else (m <? float64_limit * 10 ^ (- e))%Z.
Definition dec_float64 : decoder unit := λ old j,
  match j with JNum lit => if has_float64 lit then Some tt else None | JNull => Some old | _ => None end.

(** dns, https_port, took *)
Definition dec_login : decoder (bool * Z * unit) :=
  dec_struct [mk_field "dns" (λ r, r.1.1) (λ v r, (v, r.1.2, r.2)) dec_bool;
              mk_field "https_port" (λ r, r.1.2) (λ v r, (r.1.1, v, r.2)) dec_int;
              mk_field "took" snd (λ v r, (r.1, v)) dec_float64].
Definition dec_version : decoder Z := dec_struct [mk_field "version" id (λ v _, v) dec_int].

Section Detector.
Context {W : Type} `{HttpClient W} `{JsonErrors} (url : string).

(** [NewVersionDetector] *)
Definition detector_url : string := TrimSuffix url "/".

(** The text of an answer 200. *)
Definition probe (path : string) (headers : list (string * string)) : IO W string :=
  match http_NewRequest "GET" (detector_url ++s path) with
  | Some err => io_fail (EWrapf "creating request: " err)
  | None =>
      resp ← io_wrap (EWrapf "executing request: ") (http_Do (mkRequest "GET" (detector_url ++s path) headers ""));
      if negb (StatusCode resp =? StatusOK)%Z
      then io_fail (ENew ("unexpected status: " ++s itoa (StatusCode resp)))
      else io_wrap (EWrapf "reading response: ") (io_lift (Http.ReadAll resp))
  end.

Definition tryV6 : IO W string :=
  body ← probe "/api/info/login" [("Accept", "application/json")];
  r ← io_wrap (EWrapf "parsing response: ") (io_lift (Unmarshal dec_login (false, 0%Z, tt) body));
  if (r.1.2 =? 0)%Z then io_fail (ENew "unexpected response structure") else mret "v6".

Definition tryV5 : IO W string :=
  body ← probe "/admin/api.php?version" [];
  match Unmarshal dec_version 0%Z body with
  | inr err =>
      let version := TrimSpace body in
      if (version != "") && (version != "[]") then mret version
      else io_fail (EWrapf "parsing response: " err)
  | inl v => if (v =? 0)%Z then io_fail (ENew "no version in response") else mret (itoa v)
  end.

Definition Detect : IO W (APIVersion * string) :=
  v6 ← io_try tryV6;
  match v6 with
  | inl version => mret (APIVersionV6, version)
  | inr _ =>
      v5 ← io_try tryV5;
      match v5 with
      | inl version => mret (APIVersionV5, version)
      | inr _ => io_fail (ENew "unable to detect Pi-hole version: both v5 and v6 probes failed")
      end
  end.
End Detector.

(** ** Configuration (config.go) *)

Definition ModeAPI : string := "api".
Definition ModeFile : string := "file".
Definition DefaultTTL : Z := 300.
Definition DefaultConfigDir : string := "/etc/pihole".
Definition DefaultConfigFile : string := "custom.list".
Definition DefaultReloadCommand : string := "pihole restartdns reload-lists".

Record Config := mkConfig {
  cfg_Mode : string;
  cfg_URL : string;
  cfg_Password : string;
  cfg_APIVersion : string;
  cfg_ConfigDir : string;
  cfg_ConfigFile : string;
  cfg_ReloadCommand : string;
  cfg_Zone : string;
  cfg_TTL : Z
}.

(** [Validate] first sets the mode when there is none. *)
Definition with_mode (c : Config) : Config :=
  if cfg_Mode c == "" then
    mkConfig ModeAPI (cfg_URL c) (cfg_Password c) (cfg_APIVersion c) (cfg_ConfigDir c) (cfg_ConfigFile c)
      (cfg_ReloadCommand c) (cfg_Zone c) (cfg_TTL c)
  else c.

Definition mode_errors (c : Config) : list string :=
  let version := cfg_APIVersion c in
  let v := ToLower version in
  if cfg_Mode c == ModeAPI then
    (if cfg_URL c == "" then ["URL is required for API mode"] else AdGuard.url_errors (cfg_URL c)) ++
    (if cfg_Password c == "" then ["PASSWORD is required for API mode"] else []) ++
    (if (version != "") && (version != "auto") && (v != "v5") && (v != "v6")
     then ["invalid API_VERSION " ++s Quote version ++s ": must be 'v5', 'v6', or 'auto'"] else [])
  else if cfg_Mode c == ModeFile then
    (if cfg_ConfigDir c == "" then ["CONFIG_DIR is required for file mode"] else []) ++
    (if cfg_ConfigFile c == "" then ["CONFIG_FILE is required for file mode"] else []) ++
    (if cfg_ReloadCommand c == "" then ["RELOAD_COMMAND is required for file mode"] else [])
  else ["invalid MODE " ++s Quote (cfg_Mode c) ++s ": must be 'api' or 'file'"].

Definition Config_Validate (c : Config) : Config + error :=
  let c := with_mode c in
  let errs := mode_errors c ++ (if (cfg_TTL c <? 0)%Z then ["TTL must be non-negative"] else []) in
  if (0 <? length errs)%nat
  then inr (ENew ("pihole config validation failed: " ++s Join "; " errs)) else inl c.

Definition Config_ConfigFilePath (c : Config) : string := cfg_ConfigDir c ++s "/" ++s cfg_ConfigFile c.

(** The two loaders, which differ in where a setting is looked up; [secret] is
    for the password. *)
Definition load_config (get secret : string → string) (instanceName : string) : Config + error :=
  let get_default key dflt := if get key != "" then get key else dflt in
  let modeStr := if get "ACCESS_MODE" == "" then get_default "MODE" ModeAPI else get "ACCESS_MODE" in
  match int_setting "TTL" (get "TTL") DefaultTTL with
  | inr err => inr err
  | inl ttl =>
      let cfg := mkConfig (ToLower modeStr) (get "URL") (secret "PASSWORD") (get_default "API_VERSION" "auto")
                   (get_default "CONFIG_DIR" DefaultConfigDir) (get_default "CONFIG_FILE" DefaultConfigFile)
                   (get_default "RELOAD_COMMAND" DefaultReloadCommand) (get "ZONE") ttl in
      match Config_Validate cfg with
      | inr err => inr (EWrapf ("configuration for " ++s instanceName ++s ": ") err)
      | inl cfg => inl cfg
      end
  end.

(** [getMapValue] of the key in lower case: as it is, then in upper case. *)
Definition getMapValue (m : gmap string string) (key : string) : string :=
  match m !! key with
  | Some v => v
  | None => default "" (m !! ToUpper key)
  end.

Definition LoadConfigFromMap (name : string) (m : gmap string string) : Config + error :=
  load_config (λ key, getMapValue m (ToLower key)) (λ key, getMapValue m (ToLower key)) name.

(** The variable comes before the file, as in the AdGuard Home provider; the
    prefix is that of the dnsmasq provider. *)
Definition LoadConfig (Getenv : string → string) (ReadSecret : string → string + error)
    (instanceName : string) : Config + error :=
  let prefix := envPrefix instanceName in
  load_config (λ key, Getenv (prefix ++s key))
    (λ key, AdGuard.getEnvOrFile Getenv ReadSecret (prefix ++s key) (prefix ++s key ++s "_FILE"))
    instanceName.

(** ** The provider (provider.go) *)

Record PiProvider (W : Type) := mkPiProvider {
  pp_name : string;
  pp_url : string;
  pp_configPath : string;
  pp_zone : string;
  pp_ttl : Z;
  pp_mode : string;
  pp_apiVersion : APIVersion;
  pp_dnsClient : nilable (DNSClient W);
  pp_fileProvider : nilable DProvider
}.
Arguments mkPiProvider {W} _ _ _ _ _ _ _ _ _.
Arguments pp_name {W} _.
Arguments pp_url {W} _.
Arguments pp_configPath {W} _.
Arguments pp_zone {W} _.
Arguments pp_ttl {W} _.
Arguments pp_mode {W} _.
Arguments pp_apiVersion {W} _.
Arguments pp_dnsClient {W} _.
Arguments pp_fileProvider {W} _.

Definition toPihole (r : DNSRecord) : piholeRecord := mkPiholeRecord (r_Hostname r) (r_Type r) (r_Target r).

Section Provider.
Context {W : Type} `{FileSystem W} `{CommandRunner W} (p : PiProvider W).
#[local] Notation SOp := (IO (W * Session)).

Definition pp_Identity : ProviderIdentity :=
  mkIdentity "pihole" (if pp_mode p == ModeFile then "file:" ++s pp_configPath p else pp_url p) (pp_zone p).

Definition pp_Capabilities : Capabilities :=
  if pp_mode p == ModeAPI then mkCapabilities true true [RecordTypeA; RecordTypeCNAME]
  else if pp_mode p == ModeFile then mkCapabilities false false [RecordTypeA; RecordTypeCNAME]
  else mkCapabilities false false [RecordTypeA].

(** The switch on the mode; the client and the file provider are there when the
    mode asks for them. *)
Definition nil_pointer : error := ENew "nil pointer dereference".
Definition by_mode {A} (api : DNSClient W → SOp A) (file : DProvider → IO W A) : SOp A :=
  if pp_mode p == ModeAPI then
    match pp_dnsClient p with Some c => api c | None => io_fail nil_pointer end
  else if pp_mode p == ModeFile then
    match pp_fileProvider p with Some fp => net (file fp) | None => io_fail nil_pointer end
  else io_fail (ENew ("unknown mode: " ++s pp_mode p)).

Definition pp_Ping : SOp unit :=
  by_mode (λ c, _ ← dc_List c; mret tt) (λ fp, dp_Ping fp).

Definition fromPihole (r : piholeRecord) : DNSRecord :=
  mkRecord (ph_Hostname r) (ph_Type r) (ph_Target r) (pp_ttl p)
    (ph_Hostname r ++s ":" ++s ph_Type r ++s ":" ++s ph_Target r) None None ∅.

Definition listAPI (c : DNSClient W) : SOp (list DNSRecord) :=
  l ← io_wrap (EWrapf "listing records: ") (dc_List c); mret (map fromPihole l).
Definition pp_List : SOp (list DNSRecord) := by_mode listAPI (λ fp, dp_List fp).

Definition createAPI (record : DNSRecord) (c : DNSClient W) : SOp unit :=
  io_wrap (EWrapf ("creating " ++s r_Type record ++s " record: ")) (dc_Create c (toPihole record)).

Definition pp_Create (record : DNSRecord) : SOp unit :=
  let t := r_Type record in
  if (t == RecordTypeA) || (t == RecordTypeAAAA) || (t == RecordTypeCNAME) then
    by_mode (createAPI record) (λ fp, dp_Create fp record)
  else if t == RecordTypeTXT then mret tt
  else if t == RecordTypeSRV then io_fail (ENew "SRV records not supported by Pi-hole provider")
  else io_fail (ENew ("unsupported record type: " ++s t)).

Definition deleteAPI (record : DNSRecord) (c : DNSClient W) : SOp unit :=
  io_wrap (EWrapf ("deleting " ++s r_Type record ++s " record: ")) (dc_Delete c (toPihole record)).

Definition pp_Delete (record : DNSRecord) : SOp unit :=
  if r_Type record == RecordTypeTXT then mret tt
  else by_mode (deleteAPI record) (λ fp, dp_Delete fp record).

(** The provider whose client's session is object [id]. *)
Definition pihole_provider (id : nat) : Provider (OWorld W Session) := {|
  prov_Name := pp_name p;
  prov_Type := "pihole";
  prov_Ping := io_error (run_at id pp_Ping);
  prov_Capabilities := pp_Capabilities;
  prov_List := run_at id pp_List;
  prov_Create := λ r, io_error (run_at id (pp_Create r));
  prov_Delete := λ r, io_error (run_at id (pp_Delete r));
  prov_Update := None;
  prov_Identity := Some pp_Identity;
  prov_Close := None
|}.
End Provider.

Section Factory.
Context {W : Type} `{HttpClient W} `{JsonErrors} `{Clock W} `{FileSystem W} `{CommandRunner W}.

(** A configured version, or the one that is found. *)
Definition resolveAPIVersion (config : Config) : IO W APIVersion :=
  let v := ToLower (cfg_APIVersion config) in
  let configured := (cfg_APIVersion config != "") && (cfg_APIVersion config != "auto") in
  if configured && (v == "v5") then mret APIVersionV5
  else if configured && (v == "v6") then mret APIVersionV6
  else r ← Detect (cfg_URL config); mret r.1.

(** The client of an API version. *)
Definition api_client (config : Config) (v : APIVersion) : nilable (DNSClient W) :=
  match v with
  | APIVersionV5 => Some (v5_client (NewAPIClient (cfg_URL config) (cfg_Password config) (cfg_Zone config)))
  | APIVersionV6 => Some (v6_client (NewV6APIClient (cfg_URL config) (cfg_Password config) (cfg_Zone config)))
  | APIVersionUnknown => None
  end.

Definition dnsmasq_config (c : Config) : Dnsmasq.Config :=
  Dnsmasq.mkConfig (cfg_ConfigDir c) (cfg_ConfigFile c) (cfg_ReloadCommand c) (cfg_Zone c) (cfg_TTL c)
    "" 0 "" "" "" "" false.

Definition New (name : string) (config : nilable Config) : IO W (PiProvider W) :=
  match config with
  | None => io_fail (ENew "config is required")
  | Some config =>
      match Config_Validate config with
      | inr err => io_fail err
      | inl config =>
          let make := mkPiProvider name (cfg_URL config) (Config_ConfigFilePath config) (cfg_Zone config)
                        (cfg_TTL config) (cfg_Mode config) in
          if cfg_Mode config == ModeAPI then
            v ← io_wrap (EWrapf "determining Pi-hole API version: ") (resolveAPIVersion config);
            match api_client config v with
            | Some c => mret (make v (Some c) None)
            | None => io_fail (ENew ("unsupported API version: " ++s APIVersion_String v))
            end
          else if cfg_Mode config == ModeFile then
            match Dnsmasq.Config_Validate (dnsmasq_config config) with
            | Some err => io_fail (EWrapf "creating dnsmasq provider for file mode: " err)
            | None => mret (make APIVersionUnknown None (Some (newProvider name (dnsmasq_config config))))
            end
          else mret (make APIVersionUnknown None None)
      end
  end.

(** The HTTP client made of the TLS settings is the [HttpClient] at hand. *)
Definition Factory : Registry.Factory (OWorld W Session) := λ cfg w,
  match LoadConfigFromMap (fc_Name cfg) (fc_ProviderConfig cfg) with
  | inr err => (inr err, w)
  | inl c =>
      let '(r, w1) := New (fc_Name cfg) (Some c) (ow_net w) in
      let w := mkOW w1 (ow_objs w) in
      match r with
      | inr err => (inr err, w)
      | inl p => (id ← alloc new_session; mret (pihole_provider p id)) w
      end
  end.
End Factory.
