(* ===== verification/PiholeSpec.v ===== *)
(** * What the Pi-hole provider promises

    The entries of version 6 read back what was written; what the API mode does
    with the ownership markers that it claims to support, and what that means
    for the cleanup of orphans; and two failures that count as successes. *)
From S2P Require Import Prelude GoStrings GoTime GoMaps NetIP Errors ProviderTypes Matcher Effects.
From S2P Require Import Instance MemProvider Registry Result Cache Actions Orphan.
From S2P Require Import SourceRegistry Catalog DnsConfig IO Http Json HttpProps Dnsmasq GoStrings Pihole.
From Stdlib Require Import ZArith.

(** ** The entries of version 6 *)

(** An address entry that was written is read as the record. *)
Theorem host_entry_roundtrip h t ip :
  clean_name h → clean_name ip →
  t = (if bool_decide (is_Some (ParseIP ip)) && Contains ip ":" then RecordTypeAAAA else RecordTypeA) →
  parseHostEntry (host_value (mkPiholeRecord h t ip)) = [mkPiholeRecord h t ip].
Proof.
  intros Hh Hip ->. unfold parseHostEntry, host_value. cbn [ph_Target ph_Hostname].
  change (ip ++s " " ++s h) with (Join " " [ip; h]). rewrite Fields_Join by (apply Forall_cons; split; [|apply Forall_singleton]; done).
  cbn [tail map]. do 2 f_equal. by destruct (ParseIP ip).
Qed.

(** And so is an alias, if no comma is in it. *)
Theorem cname_entry_roundtrip h target :
  plain h → plain target → str_contains_byte "," h = false → str_contains_byte "," target = false →
  parseCNAMEEntry (cname_value (mkPiholeRecord h RecordTypeCNAME target))
  = Some (mkPiholeRecord h RecordTypeCNAME target).
Proof.
  intros Hh Ht Hc Hc'. unfold parseCNAMEEntry, cname_value. cbn [ph_Target ph_Hostname].
  change ("," ++s target) with (String "," target). rewrite Split_app by done.
  rewrite Split_single by done. by rewrite !TrimSpace_plain.
Qed.

(** ** No TXT record is listed *)

Section Types.
Context {W : Type} `{HttpClient W} `{JsonErrors} `{Clock W}.

Definition no_txt (l : list piholeRecord) : Prop := Forall (λ r, ph_Type r ≠ RecordTypeTXT) l.

Lemma omap_no_txt {A} (f : A → option piholeRecord) l :
  (∀ a r, f a = Some r → ph_Type r ≠ RecordTypeTXT) → no_txt (omap f l).
Proof.
  intros Hf. apply Forall_forall. intros r (a & _ & Ha)%list_elem_of_omap. exact (Hf a r Ha).
Qed.

Lemma customdns_type e r : customdns_entry e = Some r → ph_Type r ≠ RecordTypeTXT.
Proof.
  unfold customdns_entry. destruct e as [|ip [|h e]]; try done.
  destruct (ParseIP ip) as [a|]; [|done]. intros [= <-]. simpl. by destruct (To4 a).
Qed.
Lemma cname_type e r : cname_entry e = Some r → ph_Type r ≠ RecordTypeTXT.
Proof. unfold cname_entry. destruct e as [|h [|t e]]; try done. by intros [= <-]. Qed.
Lemma host_types e : no_txt (parseHostEntry e).
Proof.
  unfold parseHostEntry. destruct (Fields e) as [|ip [|h l]]; try constructor;
    [|apply Forall_fmap, Forall_true; intros ?]; simpl; by destruct (ParseIP ip), (Contains ip ":").
Qed.
Lemma alias_type e r : parseCNAMEEntry e = Some r → ph_Type r ≠ RecordTypeTXT.
Proof. unfold parseCNAMEEntry. destruct (Split "," e) as [|h [|t l]]; try done. by intros [= <-]. Qed.

Lemma wrap_inl {X A} f (m : IO X A) w a w' : io_wrap f m w = (inl a, w') → m w = (inl a, w').
Proof. rewrite io_wrap_run. by destruct (m w) as [[]]. Qed.

Lemma list_entries_types c key entry :
  (∀ e r, entry e = Some r → ph_Type r ≠ RecordTypeTXT) →
  io_ok (λ l _, no_txt l) (list_entries c key entry).
Proof.
  intros He. apply io_ok_bind. intros resp. apply io_ok_bind. intros body.
  destruct (negb _); [by apply io_ok_fail|]. apply io_ok_bind. intros data w l w' [= <- _].
  by apply omap_no_txt.
Qed.

Lemma v5_List_types c : io_ok (λ l _, no_txt l) (v5_List c).
Proof.
  intros w l w' (a & w1 & Ha & (b & w2 & Hb & [= <- _])%io_bind_inl)%io_bind_inl.
  apply wrap_inl, list_entries_types in Ha; [|apply customdns_type].
  apply wrap_inl, list_entries_types in Hb; [|apply cname_type].
  assert (no_txt (a ++ b)) as Hab by (by apply Forall_app).
  destruct (_ != _); [|done]. apply Forall_forall. intros r [Hr _]%elem_of_list_filter.
  exact (proj1 (Forall_forall _ _) Hab r Hr).
Qed.

Lemma v6_List_types c : io_ok (λ l _, no_txt l) (v6_List c).
Proof.
  apply io_ok_bind. intros body. apply io_ok_bind. intros r w l w' [= <- _].
  apply Forall_app. split; [|apply omap_no_txt, alias_type].
  apply Forall_concat, Forall_fmap, Forall_true. apply host_types.
Qed.

Lemma api_client_types config v c :
  api_client config v = Some c → io_ok (λ l _, no_txt l) (dc_List c).
Proof.
  destruct v; [done| |]; intros [= <-]; [|apply v6_List_types].
  intros [w s] l [w' s']. cbn [dc_List v5_client]. rewrite net_run. intros [= E _ _].
  exact (v5_List_types _ w l _ (pair_inl _ _ _ E)).
Qed.
End Types.

(** ** What the factory makes *)

Section Made.
Context {W : Type} `{HttpClient W} `{JsonErrors} `{Clock W} `{FileSystem W} `{CommandRunner W}.

Lemma New_client name config w p w1 :
  New name (Some config) w = (inl p, w1) → pp_mode p = ModeAPI →
  ∃ c, pp_dnsClient p = Some c ∧ io_ok (λ l _, no_txt l) (dc_List c).
Proof.
  unfold New. destruct (Config_Validate config) as [cf|e]; [|done].
  destruct (String.eqb_spec (cfg_Mode cf) ModeAPI) as [_|Hm].
  - intros (v & w2 & _ & E)%io_bind_inl _. destruct (api_client cf v) as [c|] eqn:Ec; [|done].
    injection E as <- _. exists c. split; [done|exact (api_client_types _ _ _ Ec)].
  - destruct (cfg_Mode cf == ModeFile); [destruct (Dnsmasq.Config_Validate _); [done|]|];
      intros [= <- _]; done.
Qed.

Lemma Factory_made cfg w prov w1 :
  Factory cfg w = (inl prov, w1) →
  ∃ p, prov = pihole_provider p (length (ow_objs w)) ∧ length (ow_objs w1) = S (length (ow_objs w)) ∧
    (pp_mode p = ModeAPI → ∃ c, pp_dnsClient p = Some c ∧ io_ok (λ l _, no_txt l) (dc_List c)).
Proof.
  unfold Factory. destruct (LoadConfigFromMap _ _) as [cf|]; [|done].
  destruct (New _ _ _) as [[p|] w2] eqn:En; [|done]. intros [= <- <-]. exists p.
  split; [done|]. split; [simpl; by rewrite length_app, Nat.add_1_r|]. exact (New_client _ _ _ _ _ En).
Qed.

(** Only the API mode claims TXT records. *)
Lemma claims_txt (p : PiProvider W) :
  SupportsOwnershipTXT (pp_Capabilities p) = true → pp_mode p = ModeAPI.
Proof.
  unfold pp_Capabilities. destruct (String.eqb_spec (pp_mode p) ModeAPI); [done|].
  by destruct (pp_mode p == ModeFile).
Qed.

Lemma lists_no_txt (p : PiProvider W) id c w l w' :
  pp_mode p = ModeAPI → pp_dnsClient p = Some c → io_ok (λ l _, no_txt l) (dc_List c) →
  Effects.prov_List (pihole_provider p id) w = (inl l, w') →
  Forall (λ r, r_Type r ≠ RecordTypeTXT) l.
Proof.
  intros Hm Hc Hok. cbn [Effects.prov_List pihole_provider]. unfold run_at.
  destruct (ow_objs w !! id) as [s|]; [|done].
  unfold pp_List, by_mode. rewrite Hm, String.eqb_refl, Hc.
  destruct (listAPI p c (ow_net w, s)) as [r [w2 s2]] eqn:E. intros [= -> _].
  apply io_bind_inl in E as (pl & [w3 s3] & Hpl%wrap_inl & [= <- _ _]).
  apply Forall_fmap. eapply Forall_impl; [exact (Hok _ _ _ Hpl)|done].
Qed.

(** *** Ownership markers *)

(** The marker of a hostname is written without a request: the world stays as
    it is, whatever it is, and no error is given. *)
Theorem marker_is_not_written `{RegexpEngine} {L : Type} cfg w prov w1
    (inst : ProviderInstance (OWorld W Session)) h md (s : St (OWorld W Session) L) :
  Factory cfg w = (inl prov, w1) → pi_Provider inst = prov →
  length (ow_objs w1) ≤ length (ow_objs (st_world s)) →
  CreateOwnershipRecord inst h md s
  = (Some None, mkSt (st_world s)
       (st_calls s ++ [CallCreate (pi_Name inst) (OwnershipRecord h (pi_TTL inst) (pi_InstanceID inst) md)])
       (st_local s)).
Proof.
  intros (p & -> & Hlen & _)%Factory_made Hp Hle. unfold CreateOwnershipRecord, Instance.prov_create, call, pi_Name.
  rewrite Hp. unfold bind. cbn [Effects.prov_Create pihole_provider]. unfold io_error, run_at.
  destruct (lookup_lt_is_Some_2 (ow_objs (st_world s)) (length (ow_objs w))) as [x Hx]; [lia|].
  rewrite Hx. unfold pp_Create. cbn [r_Type OwnershipRecord]. simpl.
  rewrite list_insert_id by done. by destruct s as [[n o] cs l].
Qed.
End Made.

(** ** Orphans in managed mode *)

Section Orphans.
Context {W R : Type} `{HttpClient W} `{JsonErrors} `{Clock W} `{FileSystem W} `{CommandRunner W}.
Context `{RegexpEngine} `{MapOrder} `{!ProviderDirectory (OWorld W Session) R}.
Context (rc : Reconciler (OWorld W Session) R).
Implicit Types (inst : ProviderInstance (OWorld W Session)) (cache : nilable recordCache).

(** What a cache holds of an instance: a list that its provider gave, or
    nothing. *)
Definition cache_of_lists inst cache : Prop :=
  ∀ c, cache = Some c →
    providerIndex c (pi_Name inst) = None ∨
    ∃ w l w', Effects.prov_List (pi_Provider inst) w = (inl l, w') ∧ caches c (pi_Name inst) l.

(** C20. On Pi-hole's API managed cleanup never deletes anything: whatever the server
    answers, an orphan gives one skipped action, and nothing but a listing is
    asked of the provider, although the provider says that it supports
    ownership markers. *)
Theorem pihole_orphans_kept cfg w prov w1 inst h cache s :
  Factory cfg w = (inl prov, w1) → pi_Provider inst = prov →
  SupportsOwnershipTXT (Effects.prov_Capabilities prov) = true →
  modeOf inst = ModeManaged → cf_OwnershipTracking (rc_config rc) = true →
  cache_of_lists inst cache →
  ∃ msg calls s',
    deleteOrphanForProvider rc h inst cache s
    = (Some [instAction ActionSkip StatusSkipped msg h inst], s') ∧
    st_calls s' = st_calls s ++ calls ∧ Forall (λ c, c = CallList (pi_Name inst)) calls.
Proof.
  intros (p & -> & _ & Hc)%Factory_made Hp Htxt Hmode Htr Hcache.
  assert (pp_mode p = ModeAPI) as Hm by (by apply claims_txt).
  destruct (Hc Hm) as (c & Hcl & Hok).
  unfold deleteOrphanForProvider. fold (modeOf inst). rewrite Hmode, Htr, Hp, Htxt. simpl.
  unfold deleteManagedForProvider, checkOwnership. destruct cache as [ch|].
  - assert (hasOwnershipRecord ch (pi_Name inst) h (cf_InstanceID (rc_config rc)) = false) as ->.
    { destruct (Hcache ch eq_refl) as [Hn|(w0 & l & w0' & Hl & Hch)]; [unfold hasOwnershipRecord; by rewrite Hn|].
      apply not_true_is_false. intros (r & Hr & _ & Ht & _)%(hasOwnershipRecord_caches _ _ _ Hch).
      rewrite Hp in Hl. pose proof (lists_no_txt _ _ _ _ _ _ Hm Hcl Hok Hl) as HF.
      exact (proj1 (Forall_forall _ _) HF r Hr Ht). }
    eexists _, [], s. split; [done|]. by rewrite app_nil_r.
  - unfold HasOwnershipRecord, Instance.prov_list, call, bind. rewrite Hp.
    destruct (Effects.prov_List (pihole_provider p (length (ow_objs w))) (st_world s)) as [[l|e] w2] eqn:El; simpl.
    + pose proof (lists_no_txt _ _ _ _ _ _ Hm Hcl Hok El) as HF.
      assert (existsb (λ r, (r_Hostname r == OwnershipRecordName h) && (r_Type r == RecordTypeTXT)
        && MatchesOwnership (r_Target r) (pi_InstanceID inst)) l = false) as ->.
      { clear El. induction HF as [|r l Hr _ IH]; [done|]. simpl. rewrite IH, orb_false_r.
        destruct (String.eqb_spec (r_Type r) RecordTypeTXT); [done|]. by rewrite andb_false_r. }
      eexists _, [_], _. split; [done|]. split; [done|]. apply Forall_singleton. unfold pi_Name. by rewrite Hp.
    + eexists _, [_], _. split; [done|]. split; [done|]. apply Forall_singleton. unfold pi_Name. by rewrite Hp.
Qed.
End Orphans.

(** ** Failures that count as successes *)

Lemma PathEscape_app s t : PathEscape (s ++s t) = PathEscape s ++s PathEscape t.
Proof.
  induction s as [|c s IH]; [done|]. unfold PathEscape in *. rewrite app_cons. cbn [escape_with].
  by rewrite IH, app_assoc_s.
Qed.

Section Failures.
Context {W : Type} `{HttpClient W} `{JsonErrors} `{Clock W}.

(** A [404] in the hostname is one in the path of the request. *)
Lemma path_404 h a b t :
  Contains h "404" = true →
  Contains (hosts_path (mkPiholeRecord h t a)) "404" = true ∧
  Contains (cnames_path (mkPiholeRecord h t b)) "404" = true.
Proof using Type.
  intros (x & y & ->)%Contains_spec. unfold hosts_path, cnames_path, host_value, cname_value.
  cbn [ph_Hostname ph_Target]. rewrite !PathEscape_app.
  split; apply Contains_spec.
  - exists ("/api/config/dns/hosts/" ++s PathEscape a ++s PathEscape " " ++s PathEscape x), (PathEscape y).
    by rewrite !app_assoc_s.
  - exists ("/api/config/dns/cnameRecords/" ++s PathEscape x), (PathEscape y ++s PathEscape "," ++s PathEscape b).
    by rewrite !app_assoc_s.
Qed.

(** The path that the deletion of a record sends. *)
Definition delete_path (r : piholeRecord) : string :=
  if ph_Type r == RecordTypeCNAME then cnames_path r else hosts_path r.

(** A deletion that does not reach the server is a success when [404] is in
    the hostname, since the error of the HTTP client names the URL. *)
Theorem unreachable_is_deleted c r w s w1 s1 err w2 :
  ph_Type r ∈ [RecordTypeA; RecordTypeAAAA; RecordTypeCNAME] → Contains (ph_Hostname r) "404" = true →
  authenticate c (w, s) = (inl tt, (w1, s1)) →
  http_NewRequest "DELETE" (v6_baseURL c ++s delete_path r) = None →
  http_Do (v6_request c "DELETE" (delete_path r) (ss_sid s1) None) w1 = (inr err, w2) →
  Contains (Error err) (v6_baseURL c ++s delete_path r) = true →
  v6_Delete c r (w, s) = (inl tt, (w2, s1)).
Proof.
  intros Ht Hh Ha Hn Hd He.
  assert (∀ what, v6_change c missing_error what "DELETE" (delete_path r) (w, s) = (inl tt, (w2, s1))) as Hc.
  { intros what. unfold v6_change. rewrite io_catch_run, io_bind_run. unfold doRequest.
    rewrite io_bind_run, io_wrap_run. unfold getSID. rewrite io_bind_run, Ha, io_bind_run.
    cbn [get_obj snd]. cbv iota beta. unfold mret at 1, IO_ret. rewrite Hn, io_bind_run, io_wrap_run.
    rewrite net_run. cbn [snd fst]. rewrite Hd. cbn [fst snd io_fail].
    assert (missing_error (EWrapf "executing request: " err) = true) as ->; [|done].
    unfold missing_error. apply orb_true_iff. right. cbn [Error].
    apply Contains_spec in He as (x & y & ->). destruct r as [h t ip]. cbn [ph_Hostname] in Hh.
    assert (Contains (delete_path (mkPiholeRecord h t ip)) "404" = true) as Hp.
    { destruct (path_404 h ip ip t Hh). unfold delete_path. by destruct (_ == _). }
    eapply Contains_trans; [|exact Hp]. apply Contains_spec.
    exists ("executing request: " ++s x ++s v6_baseURL c), y. by rewrite !app_assoc_s. }
  destruct r as [h t ip]. unfold v6_Delete, by_type. cbn [ph_Type] in *.
  unfold delete_path, deleteHostEntry, deleteCNAMEEntry in *. cbn [ph_Type] in Hc.
  set_unfold in Ht. destruct Ht as [->|[->|[->|[]]]]; apply Hc.
Qed.

(** Any answer 200 of version 5 that cannot be read is a success. *)
Theorem unreadable_is_success c fine params w resp w' body err :
  http_NewRequest "GET" (buildURL c params) = None →
  http_Do (mkRequest "GET" (buildURL c params) [] "") w = (inl resp, w') →
  StatusCode resp = StatusOK → ReadBody resp 0 = inl body →
  Unmarshal dec_result (false, "") body = inr err →
  v5_change c fine params w = (inl tt, w').
Proof.
  intros Hn Hd Hs Hb Hu. unfold v5_change, v5_send. rewrite io_bind_run, Hn, io_wrap_run, Hd.
  rewrite io_bind_run, io_wrap_run. unfold io_lift. by rewrite Hb, Hu, Hs.
Qed.
End Failures.

(** ** Scenarios *)

#[local] Existing Instance glob_engine.
#[local] Existing Instance key_order.

#[local] Existing Instance no_json_errors.

(** The world is what the requests are answered, but those for aliases;
    nothing, when the server is not reached. *)
#[local] Instance said_http : HttpClient string := {|
  http_NewRequest _ _ := None;
  http_Do rq w :=
    (if w == "" then inr (ENew (rq_Method rq ++s " " ++s rq_URL rq ++s ": connection refused"))
     else inl (answer 200 (if Contains (rq_URL rq) "customcname" then "{}" else w)), w)
|}.
#[local] Instance said_clock : Clock string := λ w, (0%Z, w).
#[local] Instance no_files : FileSystem string := {|
  ReadFile _ := io_fail (ENew "no files");
  WriteFile _ _ := io_fail (ENew "no files");
  Stat _ := io_fail (ENew "no files");
  MkdirAll _ := io_fail (ENew "no files");
  os_IsNotExist _ := false
|}.
#[local] Instance no_commands : CommandRunner string := λ _, io_fail (ENew "no commands").

Definition demo_config : FactoryConfig :=
  mkFactoryConfig "pi" {[ "URL" := "http://pi.hole"; "PASSWORD" := "secret"; "API_VERSION" := "v5" ]}
    (mkHTTPConfig None false).

(** A server that lists the record of the orphan. *)
Definition one_record : string := quoted "{'data':[['192.0.2.7','old.example.com']]}".
Definition before : OWorld string Session := mkOW one_record [].
Definition after : OWorld string Session := mkOW one_record [new_session].
Definition demo_provider : PiProvider string :=
  mkPiProvider "pi" "http://pi.hole" "/etc/pihole/custom.list" "" 300 ModeAPI APIVersionV5
    (Some (v5_client (NewAPIClient "http://pi.hole" "secret" ""))) None.
Definition demo_instance : ProviderInstance (OWorld string Session) :=
  mkInstance (pihole_provider demo_provider 0) (mem_matcher ["*.example.com"]) RecordTypeA "192.0.2.7" None
    300 ModeManaged "" ∅ (pp_Identity demo_provider).
Definition demo_reconciler : Reconciler (OWorld string Session) (Registry (OWorld string Session)) :=
  mkReconciler [] (registers []) NewRegistry DefaultConfig true false.
Definition demo_state : St (OWorld string Session) RState := mkSt after [] (mkRState ∅ ∅ None).

Lemma demo_made : Factory demo_config before = (inl (pihole_provider demo_provider 0), after).
Proof. reflexivity. Qed.

Lemma pihole_orphans_kept_witness :
  (Effects.prov_List (pi_Provider demo_instance) after).1
    = inl [mkRecord "old.example.com" RecordTypeA "192.0.2.7" 300 "old.example.com:A:192.0.2.7" None None ∅] ∧
  ∃ msg calls s',
    deleteOrphanForProvider demo_reconciler "old.example.com" demo_instance None demo_state
    = (Some [instAction ActionSkip StatusSkipped msg "old.example.com" demo_instance], s') ∧
    st_calls s' = [] ++ calls ∧ Forall (λ c, c = CallList "pi") calls.
Proof.
  split; [vm_compute; reflexivity|].
  apply (pihole_orphans_kept demo_reconciler demo_config before (pihole_provider demo_provider 0) after
           demo_instance "old.example.com" None demo_state demo_made eq_refl eq_refl eq_refl eq_refl).
  intros c [=].
Defined.

Lemma marker_is_not_written_witness :
  (CreateOwnershipRecord demo_instance "app.example.com" ∅ demo_state).1 = Some None ∧
  st_world (CreateOwnershipRecord demo_instance "app.example.com" ∅ demo_state).2 = after.
Proof.
  rewrite (marker_is_not_written demo_config before (pihole_provider demo_provider 0) after demo_instance
             "app.example.com" ∅ demo_state demo_made eq_refl (le_n _)).
  split; reflexivity.
Defined.

(** A record of a server of version 6 that cannot be reached. *)
Definition page404 : piholeRecord := mkPiholeRecord "page404.example.com" RecordTypeA "192.0.2.7".
Definition demo_v6 : V6APIClient := NewV6APIClient "http://pi.hole" "secret" "".
Definition session : Session := mkSession "sid" 10.

Lemma unreachable_is_deleted_witness : v6_Delete demo_v6 page404 ("", session) = (inl tt, ("", session)).
Proof.
  apply (unreachable_is_deleted demo_v6 page404 "" session "" session
           (ENew ("DELETE " ++s "http://pi.hole" ++s hosts_path page404 ++s ": connection refused")) "");
    [left|reflexivity..|vm_compute; reflexivity].
Defined.

(** A wrong password. *)
Lemma unreadable_is_success_witness :
  createCustomDNS (NewAPIClient "http://pi.hole" "wrong" "") page404 "[]" = (inl tt, "[]").
Proof.
  apply (unreadable_is_success (NewAPIClient "http://pi.hole" "wrong" "") exists_message
           (dns_params "add" page404) "[]" (answer 200 "[]") "[]" "[]" (ENew "invalid JSON"));
    [reflexivity|reflexivity|reflexivity|reflexivity|vm_compute; reflexivity].
Defined.

Lemma host_entry_roundtrip_witness :
  parseHostEntry (host_value (mkPiholeRecord "nas.example.com" RecordTypeAAAA "2001:db8::7"))
  = [mkPiholeRecord "nas.example.com" RecordTypeAAAA "2001:db8::7"].
Proof. apply host_entry_roundtrip; [by split|by split|vm_compute; reflexivity]. Defined.

Lemma cname_entry_roundtrip_witness :
  parseCNAMEEntry (cname_value (mkPiholeRecord "www.example.com" RecordTypeCNAME "nas.example.com"))
  = Some (mkPiholeRecord "www.example.com" RecordTypeCNAME "nas.example.com").
Proof. apply cname_entry_roundtrip; reflexivity. Defined.
