(* ===== verification/Opnsense.v ===== *)
(** * The OPNsense provider (providers/opnsense)

    Host overrides of OPNsense's two resolvers as records: the client of the
    REST API, the engines that know the paths and documents of a resolver, and
    the provider's operations.  Logging is left out. *)
From S2P Require Import Prelude GoStrings GoMaps NetIP Errors ProviderTypes Effects Registry.
From S2P Require Import DnsConfig IO Http Json Dnsmasq.
From S2P Require AdGuard.
From Stdlib Require Import ZArith.

(** ** The client (client.go) *)

Record Client := mkClient { cl_baseURL : string; cl_apiKey : string; cl_apiSecret : string }.
Definition NewClient (baseURL apiKey apiSecret : string) : Client :=
  mkClient (trim_right (Ascii.eqb "/") baseURL) apiKey apiSecret.

Definition api_request (c : Client) (path : string) (body : nilable string) : HTTPRequest :=
  mkRequest "POST" (cl_baseURL c ++s path)
    ([BasicAuth (cl_apiKey c) (cl_apiSecret c); ("Accept", "application/json")]
     ++ match body with Some _ => [("Content-Type", "application/json")] | None => [] end)
    (default "" body).

Definition do {W} `{HttpClient W} (c : Client) (path : string) (body : nilable string) : IO W (string * Z) :=
  match http_NewRequest "POST" (cl_baseURL c ++s path) with
  | Some err => io_fail (EWrapf "build request: " err)
  | None =>
      resp ← io_wrap (EWrapf "executing request: ") (http_Do (api_request c path body));
      respBody ← io_wrap (EWrapf "reading response body: ") (io_lift (ReadBody resp 0));
      mret (respBody, StatusCode resp)
  end.

Definition mapStatusError (status : Z) (body : string) : option error :=
  let detail := "opnsense returned " ++s itoa status ++s ": " ++s truncate body 200 in
  if (status =? StatusUnauthorized)%Z || (status =? StatusForbidden)%Z then Some (ESentinel ErrUnauthorized)
  else if (status =? StatusNotFound)%Z then Some (ESentinel ErrNotFound)
  else if (500 <=? status)%Z then Some (ESuffix (ESentinel ErrProviderUnavailable) (": " ++s detail))
  else if (400 <=? status)%Z then Some (ENew detail)
  else None.

Record resultEnvelope := mkEnvelope { en_Result : string; en_UUID : string; en_Validations : gmap string string }.
Definition dec_envelope : decoder resultEnvelope :=
  dec_struct
    [mk_field "result" en_Result (λ v e, mkEnvelope v (en_UUID e) (en_Validations e)) dec_string;
     mk_field "uuid" en_UUID (λ v e, mkEnvelope (en_Result e) v (en_Validations e)) dec_string;
     mk_field "validations" en_Validations (λ v e, mkEnvelope (en_Result e) (en_UUID e) v) (dec_map "" dec_string)].

Definition formatValidations `{MapOrder} (v : gmap string string) : string :=
  Join "; " (map (λ '(k, msg), k ++s ": " ++s msg) (range v)).

Definition parseMutationResponse `{JsonErrors} `{MapOrder} (body : string) : unit + error :=
  match Unmarshal dec_envelope (mkEnvelope "" "" ∅) body with
  | inr err =>
      inr (EWrapf "decoding opnsense response: " (ESuffix err (" (body: " ++s truncate body 200 ++s ")")))
  | inl env =>
      let result := ToLower (en_Result env) in
      if (result == "saved") || (result == "deleted") || (result == "ok") then inl tt
      else if (result == "failed") || (result == "") then
        if (0 <? size (en_Validations env))%nat
        then inr (ENew ("opnsense rejected request: " ++s formatValidations (en_Validations env)))
        else inr (ENew ("opnsense request failed: " ++s truncate body 200))
      else inr (ENew ("opnsense returned unexpected result " ++s Quote (en_Result env)))
  end.

Definition newSearchRequest : string :=
  print (JObj [("current", JInt 1); ("rowCount", JInt (-1)); ("searchPhrase", JStr "")]).

(** ** The engines (engine.go, engine_unbound.go, engine_dnsmasq.go) *)

Record hostRecord := mkHostRecord {
  hr_UUID : string;
  hr_Hostname : string;
  hr_Domain : string;
  hr_Type : string;
  hr_Target : string;
  hr_Description : string;
  hr_Enabled : bool
}.

#[export] Instance hostRecord_eq_dec : EqDecision hostRecord.
Proof. solve_decision. Defined.

(** The interface [engine]. *)
Record engine := mkEngine {
  eg_Name : string;
  eg_SearchPath : string;
  eg_AddPath : string;
  eg_DelPath : string → string;
  eg_ReconfigurePath : string;
  eg_EncodeAddPayload : hostRecord → string + error;
  eg_DecodeSearchResponse : string → list hostRecord + error
}.

Definition EngineUnbound : string := "unbound".
Definition EngineDnsmasq : string := "dnsmasq".

Definition enabled_text (rec : hostRecord) : string := if hr_Enabled rec then "1" else "0".

(** A row of either engine: the texts of its fields, in the order of
    [row_fields]: uuid, enabled, hostname, domain, rr, server, description. *)
Record row := mkRow {
  rw_UUID : string;
  rw_Enabled : string;
  rw_Hostname : string;
  rw_Domain : string;
  rw_RR : string;
  rw_Server : string;
  rw_Description : string
}.
Definition zero_row : row := mkRow "" "" "" "" "" "" "".

(** The fields that the engines name alike, and the others under the names
    given; Dnsmasq has no [rr]. *)
Definition row_fields (host ip descr : string) : list (field row) :=
  [mk_field "uuid" rw_UUID
     (λ v r, mkRow v (rw_Enabled r) (rw_Hostname r) (rw_Domain r) (rw_RR r) (rw_Server r) (rw_Description r)) dec_string;
   mk_field "enabled" rw_Enabled
     (λ v r, mkRow (rw_UUID r) v (rw_Hostname r) (rw_Domain r) (rw_RR r) (rw_Server r) (rw_Description r)) dec_string;
   mk_field host rw_Hostname
     (λ v r, mkRow (rw_UUID r) (rw_Enabled r) v (rw_Domain r) (rw_RR r) (rw_Server r) (rw_Description r)) dec_string;
   mk_field "domain" rw_Domain
     (λ v r, mkRow (rw_UUID r) (rw_Enabled r) (rw_Hostname r) v (rw_RR r) (rw_Server r) (rw_Description r)) dec_string;
   mk_field ip rw_Server
     (λ v r, mkRow (rw_UUID r) (rw_Enabled r) (rw_Hostname r) (rw_Domain r) (rw_RR r) v (rw_Description r)) dec_string;
   mk_field descr rw_Description
     (λ v r, mkRow (rw_UUID r) (rw_Enabled r) (rw_Hostname r) (rw_Domain r) (rw_RR r) (rw_Server r) v) dec_string].
Definition rr_field : field row :=
  mk_field "rr" rw_RR
    (λ v r, mkRow (rw_UUID r) (rw_Enabled r) (rw_Hostname r) (rw_Domain r) v (rw_Server r) (rw_Description r)) dec_string.

Definition dec_rows (fields : list (field row)) : decoder (list row) :=
  dec_struct [mk_field "rows" id (λ v _, v) (dec_list zero_row (dec_struct fields))].

Definition row_record (type : row → string) (r : row) : hostRecord :=
  mkHostRecord (rw_UUID r) (rw_Hostname r) (rw_Domain r) (type r) (rw_Server r) (rw_Description r)
    (rw_Enabled r == "1").

(** *** Unbound *)

Definition unbound_json (rec : hostRecord) : json :=
  JObj [("host", JObj [("enabled", JStr (enabled_text rec)); ("hostname", JStr (hr_Hostname rec));
                       ("domain", JStr (hr_Domain rec)); ("rr", JStr (hr_Type rec));
                       ("server", JStr (hr_Target rec)); ("description", JStr (hr_Description rec))])].

Definition unbound_type (r : row) : string :=
  let rrType := TrimSpace (rw_RR r) in
  ToUpper (match Cut " " rrType with Some (first, _) => first | None => rrType end).

Definition unbound_fields : list (field row) := rr_field :: row_fields "hostname" "server" "description".

Definition unboundEngine `{JsonErrors} : engine := {|
  eg_Name := EngineUnbound;
  eg_SearchPath := "/api/unbound/settings/searchHostOverride";
  eg_AddPath := "/api/unbound/settings/addHostOverride";
  eg_DelPath := λ uuid, "/api/unbound/settings/delHostOverride/" ++s uuid;
  eg_ReconfigurePath := "/api/unbound/service/reconfigure";
  eg_EncodeAddPayload := λ rec, inl (print (unbound_json rec));
  eg_DecodeSearchResponse := λ body,
    match Unmarshal (dec_rows unbound_fields) [] body with
    | inr err => inr (EWrapf "decoding unbound search response: " err)
    | inl rows => inl (map (row_record unbound_type) rows)
    end
|}.

(** *** Dnsmasq *)

Definition dnsmasq_json (rec : hostRecord) : json :=
  JObj [("host", JObj [("enabled", JStr (enabled_text rec)); ("host", JStr (hr_Hostname rec));
                       ("domain", JStr (hr_Domain rec)); ("ip", JStr (hr_Target rec));
                       ("descr", JStr (hr_Description rec))])].

Definition dnsmasq_type (r : row) : string :=
  match ParseIP (TrimSpace (rw_Server r)) with
  | Some ip => match To4 ip with None => "AAAA" | Some _ => "A" end
  | None => "A"
  end.

Definition dnsmasqEngine `{JsonErrors} : engine := {|
  eg_Name := EngineDnsmasq;
  eg_SearchPath := "/api/dnsmasq/settings/searchHost";
  eg_AddPath := "/api/dnsmasq/settings/addHost";
  eg_DelPath := λ uuid, "/api/dnsmasq/settings/delHost/" ++s uuid;
  eg_ReconfigurePath := "/api/dnsmasq/service/reconfigure";
  eg_EncodeAddPayload := λ rec,
    match ParseIP (hr_Target rec) with
    | None => inr (ENew ("dnsmasq engine requires an IP target, got " ++s Quote (hr_Target rec)))
    | Some _ => inl (print (dnsmasq_json rec))
    end;
  eg_DecodeSearchResponse := λ body,
    match Unmarshal (dec_rows (row_fields "host" "ip" "descr")) [] body with
    | inr err => inr (EWrapf "decoding dnsmasq search response: " err)
    | inl rows => inl (map (row_record dnsmasq_type) rows)
    end
|}.

Definition newEngine `{JsonErrors} (e : string) : engine :=
  if e == EngineDnsmasq then dnsmasqEngine else unboundEngine.

(** ** Configuration (config.go) *)

Definition ReconfigureModePerWrite : string := "per_write".
Definition ReconfigureModeNever : string := "never".
Definition DefaultTTL : Z := 300.

Record Config := mkConfig {
  cfg_URL : string;
  cfg_APIKey : string;
  cfg_APISecret : string;
  cfg_Engine : string;
  cfg_Zone : string;
  cfg_TTL : Z;
  cfg_ReconfigureMode : string
}.

Definition engine_errors (e : string) : list string :=
  if (e == EngineUnbound) || (e == EngineDnsmasq) then []
  else if e == "" then ["ENGINE is required (unbound or dnsmasq)"]
  else ["ENGINE must be " ++s Quote EngineUnbound ++s " or " ++s Quote EngineDnsmasq ++s ", got " ++s Quote e].

Definition reconfigure_errors (m : string) : list string :=
  if (m == ReconfigureModePerWrite) || (m == ReconfigureModeNever) then []
  else ["RECONFIGURE_MODE must be " ++s Quote ReconfigureModePerWrite ++s " or "
        ++s Quote ReconfigureModeNever ++s ", got " ++s Quote m].

Definition Config_Validate (c : Config) : option error :=
  let errs :=
    AdGuard.url_errors (cfg_URL c) ++
    (if cfg_APIKey c == "" then ["API_KEY is required"] else []) ++
    (if cfg_APISecret c == "" then ["API_SECRET is required"] else []) ++
    engine_errors (cfg_Engine c) ++
    reconfigure_errors (cfg_ReconfigureMode c) ++
    (if (cfg_TTL c <? 0)%Z then ["TTL must be non-negative"] else []) in
  if (0 <? length errs)%nat
  then Some (ENew ("opnsense config validation failed: " ++s Join "; " errs)) else None.

Definition engineFromString (s : string) : string :=
  let t := ToLower (TrimSpace s) in
  if (t == "") || (t == EngineUnbound) then EngineUnbound
  else if t == EngineDnsmasq then EngineDnsmasq else s.

Definition reconfigureModeFromString (s : string) : string :=
  let t := ToLower (TrimSpace s) in
  if (t == "") || (t == ReconfigureModePerWrite) then ReconfigureModePerWrite
  else if t == ReconfigureModeNever then ReconfigureModeNever else s.

(** The two loaders, which differ in where a setting is looked up; [secret] is
    for those that may be in a file. *)
Definition load_config (get secret : string → string) (instanceName : string) : Config + error :=
  match int_setting "TTL" (get "TTL") DefaultTTL with
  | inr err => inr err
  | inl ttl =>
      let cfg := mkConfig (get "URL") (secret "API_KEY") (secret "API_SECRET") (engineFromString (get "ENGINE"))
                   (get "ZONE") ttl (reconfigureModeFromString (get "RECONFIGURE_MODE")) in
      match Config_Validate cfg with
      | Some err => inr (EWrapf ("configuration for " ++s instanceName ++s ": ") err)
      | None => inl cfg
      end
  end.

(** As it is, in upper case, in lower case. *)
Definition getMapValue (m : gmap string string) (key : string) : string :=
  match m !! key with
  | Some v => v
  | None =>
      match m !! ToUpper key with
      | Some v => v
      | None => default "" (m !! ToLower key)
      end
  end.

Definition LoadConfigFromMap (name : string) (m : gmap string string) : Config + error :=
  load_config (getMapValue m) (getMapValue m) name.

(** The variable comes before the file, as in the AdGuard Home provider; the
    prefix is that of the dnsmasq provider. *)
Definition LoadConfig (Getenv : string → string) (ReadSecret : string → string + error)
    (instanceName : string) : Config + error :=
  let prefix := envPrefix instanceName in
  load_config (λ key, Getenv (prefix ++s key))
    (λ key, AdGuard.getEnvOrFile Getenv ReadSecret (prefix ++s key) (prefix ++s key ++s "_FILE"))
    instanceName.

(** ** Ownership (ownership.go) *)

Definition ownershipPrefix : string := "dnsweaver:".
Definition ownershipDescription (instanceName : string) : string := ownershipPrefix ++s instanceName.
Definition isOwnedBy (description : string) : bool := HasPrefix (TrimSpace description) ownershipPrefix.
Definition ownedByInstance (description instanceName : string) : bool :=
  let trimmed := TrimSpace description in
  if negb (HasPrefix trimmed ownershipPrefix) then false
  else
    let rest := str_drop (String.length ownershipPrefix) trimmed in
    (rest == instanceName)
    || existsb (λ sep, HasPrefix rest (instanceName ++s String sep ""))
         [" "%char; "|"%char; ascii_of_nat 9; ascii_of_nat 10].

(** ** The provider (provider.go, factory.go) *)

(** A name without its final dot, in lower case. *)
Definition fold_name (s : string) : string := TrimSuffix (ToLower (TrimSpace s)) ".".

Definition joinFQDN (hostname domain : string) : string :=
  let hostname := fold_name hostname in
  let domain := fold_name domain in
  if (hostname == "") && (domain == "") then ""
  else if hostname == "" then domain
  else if domain == "" then hostname
  else hostname ++s "." ++s domain.

Definition splitFQDN (fqdn : string) : option (string * string) :=
  match Cut "." (fold_name fqdn) with
  | Some (hostname, domain) => if (hostname == "") || (domain == "") then None else Some (hostname, domain)
  | None => None
  end.

Definition inZone (fqdn zone : string) : bool :=
  let fqdn := TrimSuffix (ToLower fqdn) "." in
  let zone := TrimSuffix (ToLower zone) "." in
  (fqdn == zone) || HasSuffix fqdn ("." ++s zone).

Definition recordTypeFromString (s : string) : option RecordType :=
  let t := ToUpper (TrimSpace s) in
  if t == "A" then Some RecordTypeA else if t == "AAAA" then Some RecordTypeAAAA else None.

Record OProvider := mkOProvider {
  op_name : string;
  op_url : string;
  op_zone : string;
  op_ttl : Z;
  op_engine : engine;
  op_mode : string;
  op_client : Client
}.

Definition op_Identity (p : OProvider) : ProviderIdentity :=
  mkIdentity ("opnsense/" ++s eg_Name (op_engine p)) (op_url p) (op_zone p).
Definition op_Capabilities : Capabilities := mkCapabilities false false [RecordTypeA; RecordTypeAAAA].

(** The body of the loop of [List]. *)
Definition listed (p : OProvider) (r : hostRecord) : option DNSRecord :=
  if negb (isOwnedBy (hr_Description r)) then None
  else
    let fqdn := joinFQDN (hr_Hostname r) (hr_Domain r) in
    if (op_zone p != "") && negb (inZone fqdn (op_zone p)) then None
    else
      rt ← recordTypeFromString (hr_Type r);
      Some (mkRecord fqdn rt (hr_Target r) (op_ttl p) (hr_UUID r) None None ∅).

(** What [findUUID] looks for. *)
Definition wanted (p : OProvider) (record : DNSRecord) (r : hostRecord) : bool :=
  let targetFQDN := TrimSuffix (ToLower (r_Hostname record)) "." in
  ownedByInstance (hr_Description r) (op_name p)
  && EqualFold (joinFQDN (hr_Hostname r) (hr_Domain r)) targetFQDN
  && EqualFold (hr_Type r) (r_Type record)
  && ((r_Target record == "") || EqualFold (hr_Target r) (r_Target record)).

Section Provider.
Context {W : Type} `{HttpClient W} `{JsonErrors} `{MapOrder} (p : OProvider).
#[local] Abbreviation eg := (op_engine p).

(** A request whose status is no error: the text of its answer. *)
Definition request (f : error → error) (path : string) (body : nilable string) : IO W string :=
  r ← io_wrap f (do (op_client p) path body);
  match mapStatusError r.2 r.1 with
  | Some err => io_fail err
  | None => mret r.1
  end.

Definition op_Ping : IO W unit :=
  body ← request (EBoth (ESentinel ErrProviderUnavailable)) (eg_SearchPath eg) (Some newSearchRequest);
  match eg_DecodeSearchResponse eg body with
  | inr err =>
      io_fail (EWrapf ("opnsense reachable but " ++s eg_Name eg ++s " search response is unparseable (is the "
                       ++s eg_Name eg ++s " module enabled?): ") err)
  | inl _ => mret tt
  end.

(** The search of [List] and [findUUID]. *)
Definition search (f : error → error) : IO W (list hostRecord) :=
  body ← request f (eg_SearchPath eg) (Some newSearchRequest);
  io_lift (eg_DecodeSearchResponse eg body).

Definition op_List : IO W (list DNSRecord) :=
  rows ← search (EWrapf "listing records: ");
  mret (omap (listed p) rows).

Definition findUUID (record : DNSRecord) : IO W string :=
  rows ← search (EWrapf ("searching for " ++s r_Hostname record ++s ": "));
  mret (match List.find (wanted p record) rows with Some r => hr_UUID r | None => "" end).

Definition maybeReconfigure : IO W unit :=
  if op_mode p != ReconfigureModePerWrite then mret tt
  else io_wrap (EWrapf "reconfigure: ") (_ ← request id (eg_ReconfigurePath eg) None; mret tt).

(** A change, and the reload that goes with it; [doing] and [done] are the
    words for it. *)
Definition mutate (doing done : string) (record : DNSRecord) (path : string) (body : nilable string) : IO W unit :=
  let f := EWrapf (doing ++s " record " ++s r_Hostname record ++s ": ") in
  text ← request f path body;
  _ ← io_wrap f (io_lift (parseMutationResponse text));
  io_wrap (EWrapf ("record " ++s r_Hostname record ++s " " ++s done ++s " but reconfigure failed: "))
    maybeReconfigure.

Definition new_host (record : DNSRecord) (hostname domain : string) : hostRecord :=
  mkHostRecord "" hostname domain (r_Type record) (r_Target record) (ownershipDescription (op_name p)) true.

Definition op_Create (record : DNSRecord) : IO W unit :=
  let t := r_Type record in
  if t == RecordTypeTXT then mret tt
  else if negb ((t == RecordTypeA) || (t == RecordTypeAAAA))
  then io_fail (ENew (t ++s " records are not supported by the opnsense provider (v1: A/AAAA only)"))
  else
    match ParseIP (r_Target record) with
    | None =>
        io_fail (ENew ("opnsense provider requires an IP target for " ++s t ++s ", got " ++s Quote (r_Target record)))
    | Some _ =>
        match splitFQDN (r_Hostname record) with
        | None =>
            io_fail (ENew ("hostname " ++s Quote (r_Hostname record)
                           ++s " must be a fully qualified name with at least one dot"))
        | Some (hostname, domain) =>
            payload ← io_wrap (EWrapf "encoding add payload: ")
                        (io_lift (eg_EncodeAddPayload eg (new_host record hostname domain)));
            mutate "creating" "created" record (eg_AddPath eg) (Some payload)
        end
    end.

Definition op_Delete (record : DNSRecord) : IO W unit :=
  let t := r_Type record in
  if t == RecordTypeTXT then mret tt
  else if negb ((t == RecordTypeA) || (t == RecordTypeAAAA))
  then io_fail (ENew (t ++s " records are not supported by the opnsense provider"))
  else
    uuid ← (if r_ProviderID record == "" then findUUID record else mret (r_ProviderID record));
    if uuid == "" then io_fail (ESentinel ErrNotFound)
    else mutate "deleting" "deleted" record (eg_DelPath eg uuid) None.

Definition opnsense_provider : Provider W := {|
  prov_Name := op_name p;
  prov_Type := "opnsense";
  prov_Ping := io_error op_Ping;
  prov_Capabilities := op_Capabilities;
  prov_List := op_List;
  prov_Create := λ r, io_error (op_Create r);
  prov_Delete := λ r, io_error (op_Delete r);
  prov_Update := None;
  prov_Identity := Some (op_Identity p);
  prov_Close := None
|}.
End Provider.

Definition New `{JsonErrors} (name : string) (cfg : nilable Config) : OProvider + error :=
  match cfg with
  | None => inr (ENew "config is required")
  | Some cfg =>
      match Config_Validate cfg with
      | Some err => inr err
      | None =>
          inl (mkOProvider name (cfg_URL cfg) (cfg_Zone cfg) (cfg_TTL cfg) (newEngine (cfg_Engine cfg))
                 (cfg_ReconfigureMode cfg) (NewClient (cfg_URL cfg) (cfg_APIKey cfg) (cfg_APISecret cfg)))
      end
  end.

(** The HTTP client made of the TLS settings is the [HttpClient] at hand. *)
Definition Factory {W} `{HttpClient W} `{JsonErrors} `{MapOrder} : Registry.Factory W := λ cfg w,
  match LoadConfigFromMap (fc_Name cfg) (fc_ProviderConfig cfg) with
  | inr err => (inr err, w)
  | inl c =>
      match New (fc_Name cfg) (Some c) with
      | inr err => (inr err, w)
      | inl p => (inl (opnsense_provider p), w)
      end
  end.
