(* ===== verification/Pfsense.v ===== *)
(** * The pfSense provider (providers/pfsense)

    Host overrides of pfSense's two resolvers as records: the client of the
    REST API of pfSense-pkg-RESTAPI, and the provider's operations, which keep
    several addresses in one override where the resolver allows it.  What is
    written as in the OPNsense provider is taken from there.  Logging is left
    out. *)
From S2P Require Import Prelude GoStrings NetIP Errors ProviderTypes Effects Registry.
From S2P Require Import DnsConfig IO Http Json Dnsmasq.
From S2P Require AdGuard Opnsense.
From Stdlib Require Import ZArith.

(** ** Resolvers (engine.go) *)

Definition EngineUnbound : string := "unbound".
Definition EngineDnsmasq : string := "dnsmasq".

Record resolver := mkResolver {
  rs_name : string;
  rs_single : string;
  rs_plural : string;
  rs_apply : string;
  rs_multiIP : bool
}.

Definition resolverFor (e : string) : resolver :=
  if e == EngineDnsmasq then
    mkResolver EngineDnsmasq "/api/v2/services/dns_forwarder/host_override"
      "/api/v2/services/dns_forwarder/host_overrides" "/api/v2/services/dns_forwarder/apply" false
  else
    mkResolver EngineUnbound "/api/v2/services/dns_resolver/host_override"
      "/api/v2/services/dns_resolver/host_overrides" "/api/v2/services/dns_resolver/apply" true.

(** ** Overrides (hostoverride.go, ownership.go) *)

Record hostOverride := mkOverride {
  ho_ID : string;
  ho_Host : string;
  ho_Domain : string;
  ho_IPs : list string;
  ho_Descr : string
}.

#[export] Instance hostOverride_eq_dec : EqDecision hostOverride.
Proof. solve_decision. Defined.

Definition same_ip (ip existing : string) : bool := EqualFold (TrimSpace existing) (TrimSpace ip).
Definition containsIP (h : hostOverride) (ip : string) : bool := existsb (same_ip ip) (ho_IPs h).
Definition withoutIP (h : hostOverride) (ip : string) : list string :=
  List.filter (λ existing, negb (same_ip ip existing)) (ho_IPs h).
Definition with_ips (h : hostOverride) (ips : list string) (descr : string) : hostOverride :=
  mkOverride (ho_ID h) (ho_Host h) (ho_Domain h) ips descr.

Definition recordTypeForIP (ip : string) : option RecordType :=
  match ParseIP (TrimSpace ip) with
  | None => None
  | Some parsed => Some (match To4 parsed with Some _ => RecordTypeA | None => RecordTypeAAAA end)
  end.

Definition joinFQDN : string → string → string := Opnsense.joinFQDN.
Definition splitFQDN : string → option (string * string) := Opnsense.splitFQDN.
Definition inZone (fqdn zone : string) : bool :=
  let fqdn := Opnsense.fold_name fqdn in
  let zone := Opnsense.fold_name zone in
  if zone == "" then true else (fqdn == zone) || HasSuffix fqdn ("." ++s zone).

Definition ownershipDescription : string → string := Opnsense.ownershipDescription.
Definition isOwnedBy : string → bool := Opnsense.isOwnedBy.
Definition ownedByInstance : string → string → bool := Opnsense.ownedByInstance.

(** ** The client (client.go) *)

Record client := mkClient { cl_baseURL : string; cl_apiKey : string; cl_res : resolver }.
Definition newClient (baseURL apiKey : string) (res : resolver) : client :=
  mkClient (trim_right (Ascii.eqb "/") baseURL) apiKey res.

(** [json.Number]: a number, or a text that is one. *)
Definition dec_number : decoder string := λ old j,
  match j with
  | JNum lit => Some lit
  | JStr s => match number s with Some (_, EmptyString) => Some s | _ => None end
  | JNull => Some old
  | _ => None
  end.

Record envelope := mkEnvelope {
  ev_Code : Z;
  ev_Status : string;
  ev_ResponseID : string;
  ev_Message : string;
  ev_Data : option json
}.
Definition zero_envelope : envelope := mkEnvelope 0 "" "" "" None.
Definition dec_envelope : decoder envelope :=
  dec_struct
    [mk_field "code" ev_Code (λ v e, mkEnvelope v (ev_Status e) (ev_ResponseID e) (ev_Message e) (ev_Data e)) dec_int;
     mk_field "status" ev_Status (λ v e, mkEnvelope (ev_Code e) v (ev_ResponseID e) (ev_Message e) (ev_Data e)) dec_string;
     mk_field "response_id" ev_ResponseID (λ v e, mkEnvelope (ev_Code e) (ev_Status e) v (ev_Message e) (ev_Data e)) dec_string;
     mk_field "message" ev_Message (λ v e, mkEnvelope (ev_Code e) (ev_Status e) (ev_ResponseID e) v (ev_Data e)) dec_string;
     mk_field "data" ev_Data (λ v e, mkEnvelope (ev_Code e) (ev_Status e) (ev_ResponseID e) (ev_Message e) v) dec_any].

(** The message that decoding leaves, also when another field has the wrong
    kind: decoding goes on behind such a field, and nothing is decoded of a
    text that is no JSON. *)
Definition left_message (body : string) : string :=
  match parse body with
  | Some (JObj l) =>
      fold_left (λ m kv, if EqualFold "message" kv.1 then match kv.2 with JStr s => s | _ => m end else m) l ""
  | _ => ""
  end.

Record wireOverride := mkWire {
  wo_ID : string;
  wo_Host : string;
  wo_Domain : string;
  wo_IP : option json;
  wo_Descr : string
}.
Definition zero_wire : wireOverride := mkWire "" "" "" None "".
Definition dec_wire : decoder wireOverride :=
  dec_struct
    [mk_field "id" wo_ID (λ v w, mkWire v (wo_Host w) (wo_Domain w) (wo_IP w) (wo_Descr w)) dec_number;
     mk_field "host" wo_Host (λ v w, mkWire (wo_ID w) v (wo_Domain w) (wo_IP w) (wo_Descr w)) dec_string;
     mk_field "domain" wo_Domain (λ v w, mkWire (wo_ID w) (wo_Host w) v (wo_IP w) (wo_Descr w)) dec_string;
     mk_field "ip" wo_IP (λ v w, mkWire (wo_ID w) (wo_Host w) (wo_Domain w) v (wo_Descr w)) dec_any;
     mk_field "descr" wo_Descr (λ v w, mkWire (wo_ID w) (wo_Host w) (wo_Domain w) (wo_IP w) v) dec_string].

Definition decodeIPs (raw : option json) : list string :=
  match raw with
  | None => []
  | Some j =>
      match dec_list "" dec_string [] j with
      | Some l => l
      | None => match dec_string "" j with Some single => if single != "" then [single] else [] | None => [] end
      end
  end.

Definition override_of (w : wireOverride) : hostOverride :=
  mkOverride (TrimSpace (wo_ID w)) (wo_Host w) (wo_Domain w) (decodeIPs (wo_IP w)) (wo_Descr w).

(** A map of the language is written with its keys in order. *)
Definition encodePayload (c : client) (ho : hostOverride) (withID : bool) : json + error :=
  match ho_IPs ho with
  | [] => inr (ENew ("host override " ++s ho_Host ho ++s "." ++s ho_Domain ho ++s " has no IP targets"))
  | ip :: rest =>
      let payload ip :=
        JObj ([("descr", JStr (ho_Descr ho)); ("domain", JStr (ho_Domain ho)); ("host", JStr (ho_Host ho))]
              ++ (if withID then [("id", JStr (ho_ID ho))] else []) ++ [("ip", ip)]) in
      if rs_multiIP (cl_res c) then inl (payload (JArr (map JStr (ho_IPs ho))))
      else if (0 <? length rest)%nat then
        inr (ENew ("the " ++s rs_name (cl_res c) ++s " engine (DNS Forwarder) stores one IP per host override, got "
                   ++s itoa (Z.of_nat (length (ho_IPs ho))) ++s " for " ++s ho_Host ho ++s "." ++s ho_Domain ho
                   ++s "; use the unbound engine for dual-stack"))
      else inl (payload (JStr ip))
  end.

Definition mapStatusError (status : Z) (message body : string) : option error :=
  let detail := if TrimSpace message == "" then truncate body 200 else TrimSpace message in
  let text := "pfsense returned " ++s itoa status ++s ": " ++s detail in
  if is_2xx status then None
  else if (status =? StatusUnauthorized)%Z || (status =? StatusForbidden)%Z then Some (ESentinel ErrUnauthorized)
  else if (status =? StatusNotFound)%Z then Some (ESentinel ErrNotFound)
  else if (500 <=? status)%Z then Some (ESuffix (ESentinel ErrProviderUnavailable) (": " ++s text))
  else Some (ENew text).

Definition request_url (c : client) (path rawQuery : string) : string :=
  cl_baseURL c ++s path ++s (if rawQuery != "" then "?" ++s rawQuery else "").
Definition api_request (c : client) (method path rawQuery : string) (body : nilable json) : HTTPRequest :=
  mkRequest method (request_url c path rawQuery)
    ([("X-API-Key", cl_apiKey c); ("Accept", "application/json")]
     ++ match body with Some _ => [("Content-Type", "application/json")] | None => [] end)
    (match body with Some j => print j | None => "" end).

Section Client.
Context {W : Type} `{HttpClient W} `{JsonErrors} (c : client).

(** The data of an answer of the two hundreds. *)
Definition do (method path rawQuery : string) (body : nilable json) : IO W (option json) :=
  match http_NewRequest method (request_url c path rawQuery) with
  | Some err => io_fail (EWrapf "build request: " err)
  | None =>
      resp ← io_wrap (EBoth (ESentinel ErrProviderUnavailable)) (http_Do (api_request c method path rawQuery body));
      respBody ← io_wrap (EWrapf "reading response body: ") (io_lift (ReadBody resp 0));
      match mapStatusError (StatusCode resp) (left_message respBody) respBody with
      | Some err => io_fail err
      | None =>
          match Unmarshal dec_envelope zero_envelope respBody with
          | inr err =>
              io_fail (EWrapf "decoding pfsense response: "
                         (ESuffix err (" (body: " ++s truncate respBody 200 ++s ")")))
          | inl env => mret (ev_Data env)
          end
      end
  end.

(** The rows of the data; the text of the error is that of the data. *)
Definition client_list : IO W (list hostOverride) :=
  data ← do "GET" (rs_plural (cl_res c)) "" None;
  match data with
  | None => mret []
  | Some j =>
      match dec_list zero_wire dec_wire [] j with
      | None => io_fail (EWrapf "decoding pfsense host override list: " (json_error (print j)))
      | Some rows => mret (map override_of rows)
      end
  end.

Definition client_create (ho : hostOverride) : IO W unit :=
  payload ← io_lift (encodePayload c ho false);
  _ ← do "POST" (rs_single (cl_res c)) "" (Some payload); mret tt.

Definition client_update (ho : hostOverride) : IO W unit :=
  if ho_ID ho == "" then io_fail (ENew "update requires a host override id")
  else
    payload ← io_lift (encodePayload c ho true);
    _ ← do "PATCH" (rs_single (cl_res c)) "" (Some payload); mret tt.

Definition client_remove (id : string) : IO W unit :=
  if id == "" then io_fail (ENew "remove requires a host override id")
  else _ ← do "DELETE" (rs_single (cl_res c)) (Encode {["id" := id]}) None; mret tt.

Definition client_apply : IO W unit :=
  _ ← do "POST" (rs_apply (cl_res c)) "" (Some (JObj [])); mret tt.
End Client.

(** ** Configuration (config.go) *)

Definition ReconfigureModePerWrite : string := "per_write".
Definition ReconfigureModeNever : string := "never".
Definition DefaultTTL : Z := 300.

Record Config := mkConfig {
  cfg_URL : string;
  cfg_APIKey : string;
  cfg_Engine : string;
  cfg_Zone : string;
  cfg_TTL : Z;
  cfg_ReconfigureMode : string
}.

Definition Config_Validate (c : Config) : option error :=
  let errs :=
    AdGuard.url_errors (cfg_URL c) ++
    (if cfg_APIKey c == "" then ["API_KEY is required"] else []) ++
    Opnsense.engine_errors (cfg_Engine c) ++
    Opnsense.reconfigure_errors (cfg_ReconfigureMode c) ++
    (if (cfg_TTL c <? 0)%Z then ["TTL must be non-negative"] else []) in
  if (0 <? length errs)%nat
  then Some (ENew ("pfsense config validation failed: " ++s Join "; " errs)) else None.

Definition engineFromString : string → string := Opnsense.engineFromString.
Definition reconfigureModeFromString : string → string := Opnsense.reconfigureModeFromString.

(** The two loaders, which differ in where a setting is looked up; [secret] is
    for the one that may be in a file. *)
Definition load_config (get secret : string → string) (instanceName : string) : Config + error :=
  match int_setting "TTL" (get "TTL") DefaultTTL with
  | inr err => inr err
  | inl ttl =>
      let cfg := mkConfig (get "URL") (secret "API_KEY") (engineFromString (get "ENGINE"))
                   (get "ZONE") ttl (reconfigureModeFromString (get "RECONFIGURE_MODE")) in
      match Config_Validate cfg with
      | Some err => inr (EWrapf ("configuration for " ++s instanceName ++s ": ") err)
      | None => inl cfg
      end
  end.

Definition getMapValue : gmap string string → string → string := Opnsense.getMapValue.

Definition LoadConfigFromMap (name : string) (m : gmap string string) : Config + error :=
  load_config (getMapValue m) (getMapValue m) name.

(** The prefix is that of the dnsmasq provider. *)
Definition LoadConfig (Getenv : string → string) (ReadSecret : string → string + error)
    (instanceName : string) : Config + error :=
  let prefix := envPrefix instanceName in
  load_config (λ key, Getenv (prefix ++s key))
    (λ key, AdGuard.getEnvOrFile Getenv ReadSecret (prefix ++s key) (prefix ++s key ++s "_FILE"))
    instanceName.

(** ** The provider (provider.go, factory.go) *)

Record FProvider := mkFProvider {
  fp_name : string;
  fp_url : string;
  fp_zone : string;
  fp_ttl : Z;
  fp_mode : string;
  fp_client : client
}.

(** The field [res] of the provider is that of its client. *)
Definition fp_res (p : FProvider) : resolver := cl_res (fp_client p).

Definition fp_Identity (p : FProvider) : ProviderIdentity :=
  mkIdentity ("pfsense/" ++s rs_name (fp_res p)) (fp_url p) (fp_zone p).
Definition fp_Capabilities : Capabilities := mkCapabilities false false [RecordTypeA; RecordTypeAAAA].

(** The body of the loop of [List]: a record for each address. *)
Definition listed (p : FProvider) (ho : hostOverride) : list DNSRecord :=
  if negb (isOwnedBy (ho_Descr ho)) then []
  else
    let fqdn := joinFQDN (ho_Host ho) (ho_Domain ho) in
    if (fp_zone p != "") && negb (inZone fqdn (fp_zone p)) then []
    else omap (λ ip, rt ← recordTypeForIP ip; Some (mkRecord fqdn rt ip (fp_ttl p) (ho_ID ho) None None ∅)) (ho_IPs ho).

Section Provider.
Context {W : Type} `{HttpClient W} `{JsonErrors} (p : FProvider).
#[local] Abbreviation c := (fp_client p).

Definition fp_Ping : IO W unit :=
  io_catch (_ ← client_list c; mret tt)
    (λ err,
       if errors_Is err ErrNotFound then
         io_fail (ESuffix (ESentinel ErrProviderUnavailable)
           (": pfsense reachable but the " ++s rs_name (fp_res p)
            ++s " host-override endpoint was not found (is the REST API package installed and the "
            ++s rs_name (fp_res p) ++s " resolver enabled?)"))
       else io_fail err).

Definition fp_List : IO W (list DNSRecord) :=
  overrides ← io_wrap (EWrapf "listing records: ") (client_list c);
  mret (concat (map (listed p) overrides)).

Definition findOverride (host domain : string) : IO W (option hostOverride) :=
  overrides ← client_list c;
  mret (List.find (λ ho, joinFQDN (ho_Host ho) (ho_Domain ho) == joinFQDN host domain) overrides).

Definition maybeApply : IO W unit :=
  if fp_mode p != ReconfigureModePerWrite then mret tt else client_apply c.

(** A change wrapped in the words for it, and the reload that goes with it. *)
Definition mutate (doing done : string) (record : DNSRecord) (change : IO W unit) : IO W unit :=
  _ ← io_wrap (EWrapf (doing ++s " record " ++s r_Hostname record ++s ": ")) change;
  io_wrap (EWrapf ("record " ++s r_Hostname record ++s " " ++s done ++s " but apply failed: ")) maybeApply.

Definition not_qualified (record : DNSRecord) : error :=
  ENew ("hostname " ++s Quote (r_Hostname record) ++s " must be a fully qualified name with at least one dot").

(** The switch of [Create] on what was found. *)
Definition create_on (record : DNSRecord) (host domain : string) (found : option hostOverride) : IO W unit :=
  match found with
  | Some existing =>
      if negb (isOwnedBy (ho_Descr existing)) then
        io_fail (ENew ("refusing to modify host override " ++s r_Hostname record
          ++s ": it exists on pfsense but is not managed by dnsweaver (description "
          ++s Quote (ho_Descr existing) ++s ")"))
      else if containsIP existing (r_Target record) then mret tt
      else if negb (rs_multiIP (fp_res p)) then
        io_fail (ENew ("the dnsmasq engine (DNS Forwarder) stores one IP per host override; "
          ++s r_Hostname record ++s " already resolves to " ++s fmt_slice (ho_IPs existing)
          ++s ". Use the unbound engine for dual-stack (A+AAAA)"))
      else
        mutate "creating" "created" record
          (client_update c (with_ips existing (ho_IPs existing ++ [r_Target record])
                              (ownershipDescription (fp_name p))))
  | None =>
      mutate "creating" "created" record
        (client_create c (mkOverride "" host domain [r_Target record] (ownershipDescription (fp_name p))))
  end.

Definition fp_Create (record : DNSRecord) : IO W unit :=
  let t := r_Type record in
  if t == RecordTypeTXT then mret tt
  else if negb ((t == RecordTypeA) || (t == RecordTypeAAAA))
  then io_fail (ENew (t ++s " records are not supported by the pfsense provider (v1: A/AAAA only)"))
  else
    match ParseIP (r_Target record) with
    | None =>
        io_fail (ENew ("pfsense provider requires an IP target for " ++s t ++s ", got " ++s Quote (r_Target record)))
    | Some _ =>
        match splitFQDN (r_Hostname record) with
        | None => io_fail (not_qualified record)
        | Some (host, domain) =>
            found ← io_wrap (EWrapf ("creating record " ++s r_Hostname record ++s ": ")) (findOverride host domain);
            create_on record host domain found
        end
    end.

(** What is done with what [Delete] found. *)
Definition delete_on (record : DNSRecord) (found : option hostOverride) : IO W unit :=
  match found with
  | None => io_fail (ESentinel ErrNotFound)
  | Some existing =>
      let target := r_Target record in
      if negb (ownedByInstance (ho_Descr existing) (fp_name p)) then io_fail (ESentinel ErrNotFound)
      else if (target != "") && negb (containsIP existing target) then io_fail (ESentinel ErrNotFound)
      else
        let remaining := withoutIP existing target in
        mutate "deleting" "deleted" record
          (if rs_multiIP (fp_res p) && (target != "") && (0 <? length remaining)%nat
           then client_update c (with_ips existing remaining (ho_Descr existing))
           else client_remove c (ho_ID existing))
  end.

Definition fp_Delete (record : DNSRecord) : IO W unit :=
  let t := r_Type record in
  if t == RecordTypeTXT then mret tt
  else if negb ((t == RecordTypeA) || (t == RecordTypeAAAA))
  then io_fail (ENew (t ++s " records are not supported by the pfsense provider"))
  else
    match splitFQDN (r_Hostname record) with
    | None => io_fail (not_qualified record)
    | Some (host, domain) =>
        found ← io_wrap (EWrapf ("deleting record " ++s r_Hostname record ++s ": ")) (findOverride host domain);
        delete_on record found
    end.

Definition pfsense_provider : Provider W := {|
  prov_Name := fp_name p;
  prov_Type := "pfsense";
  prov_Ping := io_error fp_Ping;
  prov_Capabilities := fp_Capabilities;
  prov_List := fp_List;
  prov_Create := λ r, io_error (fp_Create r);
  prov_Delete := λ r, io_error (fp_Delete r);
  prov_Update := None;
  prov_Identity := Some (fp_Identity p);
  prov_Close := None
|}.
End Provider.

Definition New (name : string) (cfg : nilable Config) : FProvider + error :=
  match cfg with
  | None => inr (ENew "config is required")
  | Some cfg =>
      match Config_Validate cfg with
      | Some err => inr err
      | None =>
          inl (mkFProvider name (cfg_URL cfg) (cfg_Zone cfg) (cfg_TTL cfg) (cfg_ReconfigureMode cfg)
                 (newClient (cfg_URL cfg) (cfg_APIKey cfg) (resolverFor (cfg_Engine cfg))))
      end
  end.

(** The HTTP client made of the TLS settings is the [HttpClient] at hand. *)
Definition Factory {W} `{HttpClient W} `{JsonErrors} : Registry.Factory W := λ cfg w,
  match LoadConfigFromMap (fc_Name cfg) (fc_ProviderConfig cfg) with
  | inr err => (inr err, w)
  | inl c =>
      match New (fc_Name cfg) (Some c) with
      | inr err => (inr err, w)
      | inl p => (inl (pfsense_provider p), w)
      end
  end.
