(* ===== verification/FirewallSpec.v ===== *)
(** * What the pfSense and OPNsense providers promise

    The requests that an operation sends, whatever the server answers: a host
    override that is not the program's is never changed, every change is
    followed by the reload that makes it effective, and records are read back
    under the name they were written with. *)
From S2P Require Import Prelude GoStrings GoMaps NetIP Errors ProviderTypes Effects Registry.
From S2P Require Import IO Http Json HttpProps Pfsense.
From S2P Require Opnsense.
From Stdlib Require Import ZArith.

(** ** Names *)

Lemma fold_name_plain s : plain s → Opnsense.fold_name s = TrimSuffix (ToLower s) ".".
Proof. intros Hs. unfold Opnsense.fold_name. by rewrite TrimSpace_plain. Qed.

Lemma plain_ToLower s : plain s → plain (ToLower s).
Proof.
  unfold plain, ToLower. induction s as [|c s IH]; [done|]. simpl. intros [Hc Hs]%andb_true_iff.
  rewrite IH, andb_true_r by done.
  pose proof (all_bytes_spec (λ c, negb (negb (is_space c)) || negb (is_space (lower_byte c)))
    ltac:(by vm_compute) c) as H. cbv beta in H. by rewrite Hc in H.
Qed.

Lemma fold_name_fixed s : plain s → ToLower s = s → HasSuffix s "." = false → Opnsense.fold_name s = s.
Proof. intros Hp Hl Hs. rewrite fold_name_plain, Hl by done. by apply TrimSuffix_id. Qed.

Lemma ToLower_app_inv s t : ToLower (s ++s t) = s ++s t → ToLower s = s ∧ ToLower t = t.
Proof.
  unfold ToLower. induction s as [|c s IH]; [done|]. rewrite app_cons. simpl. intros [= Hc Ht].
  destruct (IH Ht) as [Hs ?]. split; [by f_equal|done].
Qed.

Lemma no_dot_suffix s : str_contains_byte "." s = false → HasSuffix s "." = false.
Proof.
  intros Hs. destruct (HasSuffix s ".") eqn:E; [|done]. apply HasSuffix_spec in E as [p ->].
  rewrite str_contains_byte_app in Hs. by apply orb_false_iff in Hs as [_ ?].
Qed.

Lemma suffix_app s t u : HasSuffix t u = true → HasSuffix (s ++s t) u = true.
Proof. intros [p ->]%HasSuffix_spec. apply HasSuffix_spec. exists (s ++s p). by rewrite app_assoc_s. Qed.

Lemma fold_name_clean s :
  plain s → plain (Opnsense.fold_name s) ∧ ToLower (Opnsense.fold_name s) = Opnsense.fold_name s.
Proof.
  intros Hp. rewrite fold_name_plain by done. split.
  - pose proof (plain_ToLower _ Hp) as Hq.
    destruct (TrimSuffix_cases (ToLower s) ".") as [(p & E & ->)|[_ ->]]; [|done].
    rewrite E in Hq. by apply plain_app in Hq as [Hq _].
  - by rewrite ToLower_TrimSuffix_dot, ToLower_idem.
Qed.

(** A name that is taken apart for the server and put together again is itself,
    in lower case and without its final dot. *)
Theorem join_split fqdn h d :
  plain fqdn → HasSuffix (TrimSuffix (ToLower fqdn) ".") "." = false → splitFQDN fqdn = Some (h, d) →
  joinFQDN h d = TrimSuffix (ToLower fqdn) ".".
Proof.
  intros Hp. rewrite <- fold_name_plain by done. intros Hdot.
  destruct (fold_name_clean _ Hp) as [Hfp Hfl].
  unfold splitFQDN, Opnsense.splitFQDN, joinFQDN, Opnsense.joinFQDN.
  destruct (Cut "." (Opnsense.fold_name fqdn)) as [[h' d']|] eqn:E; [|done].
  apply Cut_spec in E as [E Hh]. destruct (String.eqb_spec h' "") as [|Hne]; [done|].
  destruct (String.eqb_spec d' "") as [|Hne']; [done|]. intros [= -> ->].
  rewrite E in Hfp, Hfl, Hdot |- *. change (String "." d) with ("." ++s d) in *.
  apply plain_app in Hfp as [Hph [_ Hpd]%plain_app].
  apply ToLower_app_inv in Hfl as [Hlh [_ Hld]%ToLower_app_inv].
  assert (HasSuffix d "." = false) as Hd.
  { destruct (HasSuffix d ".") eqn:Ed; [|done]. rewrite suffix_app in Hdot; [done|]. by apply suffix_app. }
  rewrite !fold_name_fixed by auto using no_dot_suffix.
  destruct (String.eqb_spec h ""), (String.eqb_spec d ""); done.
Qed.

(** ** The requests of pfSense's provider *)

(** A name as it is compared, and the name that a host and a domain make. *)
Definition folded (s : string) : string := TrimSuffix (ToLower (TrimSpace s)) ".".
Definition name_of (host domain : string) : string :=
  Join "." (List.filter (λ s, s != "") [folded host; folded domain]).

Lemma joinFQDN_name h d : joinFQDN h d = name_of h d.
Proof.
  unfold joinFQDN, Opnsense.joinFQDN, name_of. change Opnsense.fold_name with folded. simpl.
  by destruct (folded h == ""), (folded d == "").
Qed.

(** A name that has a first label and something behind it. *)
Definition splits (name h d : string) : Prop :=
  folded name = h ++s "." ++s d ∧ str_contains_byte "." h = false ∧ h ≠ "" ∧ d ≠ "".

Lemma splitFQDN_splits name h d : splitFQDN name = Some (h, d) ↔ splits name h d.
Proof.
  unfold splitFQDN, Opnsense.splitFQDN, splits. change Opnsense.fold_name with folded.
  destruct (Cut "." (folded name)) as [[h' d']|] eqn:E.
  - apply Cut_spec in E as [-> Hh].
    destruct (String.eqb_spec h' "") as [->|Hne]; simpl orb; cbv iota.
    { split; [done|]. intros (E & Hc & Hne & _). destruct h as [|c h]; [done|].
      injection E as <- E. simpl in Hc. done. }
    destruct (String.eqb_spec d' "") as [->|Hne'].
    { split; [done|]. intros (E & Hc & _ & Hd).
      pose proof (Cut_app _ _ "" Hh) as E1. pose proof (Cut_app _ _ d Hc) as E2.
      rewrite E in E1. change ("." ++s d) with (String "." d) in E1. rewrite E1 in E2. by injection E2 as _ <-. }
    split; [by intros [= <- <-]|]. intros (E & Hc & _ & _).
    pose proof (Cut_app _ _ d' Hh) as E1. pose proof (Cut_app _ _ d Hc) as E2.
    rewrite E in E1. change ("." ++s d) with (String "." d) in E1. rewrite E1 in E2. by injection E2 as <- <-.
  - split; [done|]. intros (E' & Hc & _). apply Cut_None in E. rewrite E', str_contains_byte_app in E.
    by apply orb_false_iff in E as [_ ?].
Qed.

(** The mark of the program, and that of an instance, at the start of a
    description. *)
Definition marked (descr : string) : Prop := ∃ t, TrimSpace descr = "dnsweaver:" ++s t.
Definition marked_by (inst descr : string) : Prop :=
  TrimSpace descr = "dnsweaver:" ++s inst ∨
  ∃ sep t, sep ∈ [" "%char; "|"%char; ascii_of_nat 9; ascii_of_nat 10] ∧
    TrimSpace descr = "dnsweaver:" ++s inst ++s String sep t.

Lemma isOwnedBy_marked descr : isOwnedBy descr = true ↔ marked descr.
Proof. apply HasPrefix_spec. Qed.

Lemma ownedByInstance_marked descr inst : ownedByInstance descr inst = true ↔ marked_by inst descr.
Proof.
  unfold ownedByInstance, Opnsense.ownedByInstance, marked_by, Opnsense.ownershipPrefix. cbv zeta.
  destruct (HasPrefix (TrimSpace descr) "dnsweaver:") eqn:E; cbn [negb].
  2:{ split; [done|]. intros [E'|(sep & t & _ & E')]; rewrite E' in E; by rewrite HasPrefix_app in E. }
  apply HasPrefix_inv in E. set (r := str_drop _ (TrimSpace descr)) in *. rewrite E.
  rewrite orb_true_iff, String.eqb_eq, existsb_exists. split.
  - intros [-> |(sep & Hs & Hp)]; [by left|right]. apply HasPrefix_spec in Hp as [t Ht].
    exists sep, t. split; [by apply list_elem_of_In|]. by rewrite Ht, app_assoc_s.
  - intros [Hr|(sep & t & Hs & Hr)]; [left; by apply app_inj_prefix in Hr|right].
    exists sep. split; [by apply list_elem_of_In|]. apply app_inj_prefix in Hr as ->.
    apply HasPrefix_spec. exists t. by rewrite app_assoc_s.
Qed.

(** An address of an override, up to case and space. *)
Definition is_address (ip s : string) : bool := EqualFold (TrimSpace s) (TrimSpace ip).

Section PfSense.
Context {W : Type} `{HttpClient W} `{JsonErrors} (p : FProvider).
#[local] Abbreviation c := (fp_client p).

(** A request of the API, with its query and its document. *)
Definition call (method path query : string) (doc : option json) : HTTPRequest :=
  mkRequest method (cl_baseURL c ++s path ++s query)
    ([("X-API-Key", cl_apiKey c); ("Accept", "application/json")]
     ++ match doc with Some _ => [("Content-Type", "application/json")] | None => [] end)
    (match doc with Some j => print j | None => "" end).

Definition list_call : HTTPRequest := call "GET" (rs_plural (fp_res p)) "" None.
Definition apply_call : HTTPRequest := call "POST" (rs_apply (fp_res p)) "" (Some (JObj [])).

(** The document of an override, with its identifier if it has one already:
    the resolver takes a list of addresses or only one. *)
Definition document (id : option string) (host domain : string) (ips : list string) (descr : string) : json :=
  JObj ([("descr", JStr descr); ("domain", JStr domain); ("host", JStr host)]
        ++ match id with Some i => [("id", JStr i)] | None => [] end
        ++ [("ip", if rs_multiIP (fp_res p) then JArr (map JStr ips) else JStr (default "" (head ips)))]).
Definition post_call (doc : json) : HTTPRequest := call "POST" (rs_single (fp_res p)) "" (Some doc).
Definition patch_call (doc : json) : HTTPRequest := call "PATCH" (rs_single (fp_res p)) "" (Some doc).
Definition delete_call (id : string) : HTTPRequest :=
  call "DELETE" (rs_single (fp_res p)) ("?id=" ++s QueryEscape id) None.

(** What is taken of an answer: the data of an envelope with a status of the
    two hundreds, and the overrides that are its rows. *)
Definition data_of (resp : HTTPResponse) : option (option json) :=
  if is_2xx (StatusCode resp) then
    match ReadBody resp 0 with
    | inr _ => None
    | inl body =>
        match Unmarshal dec_envelope zero_envelope body with inl env => Some (ev_Data env) | inr _ => None end
    end
  else None.
Definition rows_of (data : option json) : option (list hostOverride) :=
  match data with
  | None => Some []
  | Some j =>
      map (λ row, mkOverride (TrimSpace (wo_ID row)) (wo_Host row) (wo_Domain row) (decodeIPs (wo_IP row)) (wo_Descr row))
        <$> dec_list zero_wire dec_wire [] j
  end.
Definition overrides_of (resp : HTTPResponse) : option (list hostOverride) := data_of resp ≫= rows_of.

(** The override of a name: the first that was listed. *)
Definition the_override (l : list hostOverride) (name : string) : option hostOverride :=
  List.find (λ x, name_of (ho_Host x) (ho_Domain x) == name) l.

(** Records that an operation can be for. *)
Definition supported (record : DNSRecord) (del : bool) : Prop :=
  (r_Type record = "A" ∨ r_Type record = "AAAA") ∧
  (del = false → ParseIP (r_Target record) ≠ None) ∧
  ∃ h d, splits (r_Hostname record) h d.

(** Create finds the address in the override, which has the mark of the program. *)
Definition already (record : DNSRecord) (del : bool) (l : list hostOverride) : Prop :=
  del = false ∧ ∃ h d x, splits (r_Hostname record) h d ∧ the_override l (name_of h d) = Some x ∧
    marked (ho_Descr x) ∧ existsb (is_address (r_Target record)) (ho_IPs x) = true.

(** The change that an operation makes on what was listed: a new override for
    a name that has none; an address more in an override that has the mark of
    the program; an address less in one that has the mark of the instance,
    which goes with its last address. *)
Inductive permitted (record : DNSRecord) (l : list hostOverride) : bool → HTTPRequest → Prop :=
| permit_add h d :
    splits (r_Hostname record) h d → the_override l (name_of h d) = None →
    permitted record l false
      (post_call (document None h d [r_Target record] ("dnsweaver:" ++s fp_name p)))
| permit_extend x h d :
    splits (r_Hostname record) h d → the_override l (name_of h d) = Some x →
    marked (ho_Descr x) → existsb (is_address (r_Target record)) (ho_IPs x) = false →
    rs_multiIP (fp_res p) = true → ho_ID x ≠ "" →
    permitted record l false
      (patch_call (document (Some (ho_ID x)) (ho_Host x) (ho_Domain x) (ho_IPs x ++ [r_Target record])
                     ("dnsweaver:" ++s fp_name p)))
| permit_shrink x h d ips :
    splits (r_Hostname record) h d → the_override l (name_of h d) = Some x →
    marked_by (fp_name p) (ho_Descr x) → existsb (is_address (r_Target record)) (ho_IPs x) = true →
    rs_multiIP (fp_res p) = true → r_Target record ≠ "" →
    ips = List.filter (λ s, negb (is_address (r_Target record) s)) (ho_IPs x) → ips ≠ [] → ho_ID x ≠ "" →
    permitted record l true
      (patch_call (document (Some (ho_ID x)) (ho_Host x) (ho_Domain x) ips (ho_Descr x)))
| permit_drop x h d :
    splits (r_Hostname record) h d → the_override l (name_of h d) = Some x →
    marked_by (fp_name p) (ho_Descr x) → ho_ID x ≠ "" →
    (r_Target record = "" ∨
     existsb (is_address (r_Target record)) (ho_IPs x) = true ∧
     (rs_multiIP (fp_res p) = false ∨
      List.filter (λ s, negb (is_address (r_Target record) s)) (ho_IPs x) = [])) →
    permitted record l true (delete_call (ho_ID x)).

(** A change and the reload, unless that is turned off. *)
Definition changed (rq : HTTPRequest) (w1 : W) (res : unit + error) (w' : W) : Prop :=
  let '(a, w2) := exchange data_of rq w1 in
  if negb (bool_decide (a = None)) && (fp_mode p == "per_write") then
    let '(b, w3) := exchange data_of apply_call w2 in w' = w3 ∧ (res = inl tt ↔ b ≠ None)
  else w' = w2 ∧ (res = inl tt ↔ a ≠ None).

(** How an operation ends: at once, after the listing, or after a change. *)
Definition ends (record : DNSRecord) (del : bool) (w : W) (res : unit + error) (w' : W) : Prop :=
  (¬ supported record del ∧ w' = w ∧ (res = inl tt ↔ r_Type record = "TXT")) ∨
  supported record del ∧
  let '(rows, w1) := exchange overrides_of list_call w in
  (w' = w1 ∧ (∀ l rq, rows = Some l → ¬ permitted record l del rq) ∧
   (res = inl tt ↔ ∃ l, rows = Some l ∧ already record del l)) ∨
  ∃ l rq, rows = Some l ∧ permitted record l del rq ∧ changed rq w1 res w'.

Lemma do_exchanges m path q query b w :
  (if q != "" then "?" ++s q else "") = query →
  exchanges (do c m path q b w) (exchange data_of (call m path query b) w) eq.
Proof using Type.
  intros <-. unfold exchanges, do, exchange, call. change (rq_Method (mkRequest ?a _ _ _)) with a.
  change (rq_URL (mkRequest _ ?a _ _)) with a. unfold request_url.
  destruct (http_NewRequest _ _); [done|]. rewrite io_bind_run, io_wrap_run.
  change (mkRequest m (cl_baseURL c ++s path ++s _) _ _) with (api_request c m path q b).
  destruct (http_Do _ w) as [[resp|e] w1]; [|done]. simpl. rewrite io_bind_run, io_wrap_run. unfold io_lift.
  unfold data_of, mapStatusError. cbv zeta. destruct (ReadBody resp 0) as [body|e]; [|by destruct (is_2xx _)].
  destruct (is_2xx _); [by destruct (Unmarshal _ _ body)|].
  by destruct (_ || _), (StatusCode resp =? StatusNotFound)%Z, (500 <=? StatusCode resp)%Z.
Qed.

Lemma call_exchanges m path b w :
  exchanges ((_ ← do c m path "" b; mret tt) w : (unit + error) * W) (exchange data_of (call m path "" b) w) (λ _ _, True).
Proof using Type. eapply bind_exchanges; [by apply do_exchanges|]. by intros; exists tt. Qed.

Lemma list_exchanges w : exchanges (client_list c w) (exchange overrides_of list_call w) eq.
Proof using Type.
  unfold client_list. pose proof (do_exchanges "GET" (rs_plural (cl_res c)) "" "" None w eq_refl) as Hd.
  change (call "GET" (rs_plural (cl_res c)) "" None) with list_call in Hd. unfold exchanges in *. rewrite io_bind_run. unfold exchange, overrides_of in *.
  destruct (http_NewRequest _ _) as [e0|].
  { destruct (do _ _ _ _ _ w) as [[a|e] w1]; simpl in *; by destruct Hd as [-> ?]. }
  destruct (http_Do list_call w) as [[resp|e'] w2].
  2:{ destruct (do _ _ _ _ _ w) as [[a|e] w1]; simpl in *; by destruct Hd as [-> ?]. }
  destruct (data_of resp) as [data|]; destruct (do _ _ _ _ _ w) as [[a|e] w1]; simpl in *;
    destruct Hd as [-> Hd]; try done.
  subst a. destruct data as [j|]; [|done]. simpl. by destruct (dec_list _ _ _ j).
Qed.

Lemma Encode_one k v : Encode {[k := v]} = QueryEscape k ++s "=" ++s QueryEscape v.
Proof using Type. unfold Encode. rewrite map_to_list_singleton. simpl. by rewrite lookup_singleton_eq. Qed.

(** The three requests that change something. *)
Lemma create_exchanges host domain ip descr w :
  exchanges (client_create c (mkOverride "" host domain [ip] descr) w)
    (exchange data_of (post_call (document None host domain [ip] descr)) w) (λ _ _, True).
Proof using Type.
  unfold client_create. rewrite io_bind_run. unfold io_lift, encodePayload, post_call, document, fp_res. simpl.
  destruct (rs_multiIP (cl_res c)); apply call_exchanges.
Qed.

Lemma update_exchanges x ips descr w :
  ho_ID x ≠ "" → ips ≠ [] → rs_multiIP (fp_res p) = true →
  exchanges (client_update c (with_ips x ips descr) w)
    (exchange data_of (patch_call (document (Some (ho_ID x)) (ho_Host x) (ho_Domain x) ips descr)) w) (λ _ _, True).
Proof using Type.
  intros Hid Hips Hm. unfold client_update. simpl. apply String.eqb_neq in Hid. rewrite Hid. rewrite io_bind_run.
  unfold fp_res in Hm. unfold io_lift, encodePayload, patch_call, document, fp_res. simpl. rewrite Hm.
  destruct ips; [done|]. apply call_exchanges.
Qed.

Lemma remove_exchanges id w :
  id ≠ "" → exchanges (client_remove c id w) (exchange data_of (delete_call id) w) (λ _ _, True).
Proof using Type.
  intros Hid%String.eqb_neq. unfold client_remove. rewrite Hid.
  eapply bind_exchanges; [|by intros; exists tt]. apply do_exchanges. by rewrite Encode_one.
Qed.

(** Without an identifier nothing is sent. *)
Lemma update_unsent x ips descr w : ho_ID x = "" → ∃ e, client_update c (with_ips x ips descr) w = (inr e, w).
Proof using Type. intros Hid. unfold client_update. simpl. rewrite Hid. by eexists. Qed.
Lemma remove_unsent w : ∃ e, client_remove c "" w = (inr e, w).
Proof using Type. by eexists. Qed.

Lemma mutate_changed doing dn record m rq w res w' :
  exchanges (m w) (exchange data_of rq w) (λ _ _, True) →
  mutate p doing dn record m w = (res, w') → changed rq w res w'.
Proof using Type.
  unfold mutate, changed, exchanges. rewrite io_bind_run, io_wrap_run.
  destruct (m w) as [[[]|e] w1], (exchange data_of rq w) as [[a|] w2]; simpl; intros [-> Hm]; try done.
  2:{ by intros [= <- <-]. }
  rewrite io_wrap_run. unfold maybeApply, ReconfigureModePerWrite. destruct (fp_mode p == "per_write"); cbn [negb].
  - unfold client_apply. pose proof (call_exchanges "POST" (rs_apply (cl_res c)) (Some (JObj [])) w2) as Ha.
    change (call "POST" (rs_apply (cl_res c)) "" (Some (JObj []))) with apply_call in Ha. unfold exchanges in Ha.
    destruct ((_ ← do _ _ _ _ _; _) w2) as [[[]|e] w3], (exchange data_of apply_call w2) as [[b|] w4];
      simpl in Ha; destruct Ha as [-> ?]; try done; by intros [= <- <-].
  - by intros [= <- <-].
Qed.

Lemma mutate_unsent doing dn record m w e res w' :
  m w = (inr e, w) → mutate p doing dn record m w = (res, w') → w' = w ∧ res ≠ inl tt.
Proof using Type. intros Hm. unfold mutate. rewrite io_bind_run, io_wrap_run, Hm. by intros [= <- <-]. Qed.

Lemma find_named h d l :
  List.find (λ ho, joinFQDN (ho_Host ho) (ho_Domain ho) == joinFQDN h d) l = the_override l (name_of h d).
Proof using Type.
  unfold the_override. rewrite (joinFQDN_name h d).
  induction l as [|x l IH]; [done|]. simpl. rewrite joinFQDN_name. by rewrite IH.
Qed.

Lemma findOverride_run h d w :
  findOverride p h d w =
    match client_list c w with
    | (inl l, w1) => (inl (the_override l (name_of h d)), w1)
    | (inr e, w1) => (inr e, w1)
    end.
Proof using Type.
  unfold findOverride. rewrite io_bind_run. destruct (client_list c w) as [[l|] w1]; [|done].
  by rewrite find_named.
Qed.

(** The listing and what follows it. *)
Lemma listed_first (k : option hostOverride → IO W unit) f h d w res w' :
  (found ← io_wrap f (findOverride p h d); k found) w = (res, w') →
  match exchange overrides_of list_call w with
  | (None, w1) => w' = w1 ∧ res ≠ inl tt
  | (Some l, w1) => k (the_override l (name_of h d)) w1 = (res, w')
  end.
Proof using Type.
  rewrite io_bind_run, io_wrap_run, findOverride_run. pose proof (list_exchanges w) as [Hw Hl].
  destruct (client_list c w) as [[l|e] w1], (exchange overrides_of list_call w) as [[l'|] w2];
    simpl in Hw, Hl; subst; try done. by intros [= <- <-].
Qed.

Lemma splits_same name h d h' d' : splits name h d → splits name h' d' → h = h' ∧ d = d'.
Proof using Type. intros E%splitFQDN_splits E'%splitFQDN_splits. rewrite E in E'. by injection E'. Qed.

(** With an override that leaves nothing to permit. *)
Lemma unpermitted record l (del : bool) h d found :
  splits (r_Hostname record) h d → the_override l (name_of h d) = Some found →
  (if del then ¬ marked_by (fp_name p) (ho_Descr found) ∨ ho_ID found = "" ∨
               (r_Target record ≠ "" ∧ existsb (is_address (r_Target record)) (ho_IPs found) = false)
   else ¬ marked (ho_Descr found) ∨ ho_ID found = "" ∨ rs_multiIP (fp_res p) = false ∨
        existsb (is_address (r_Target record)) (ho_IPs found) = true) →
  ∀ rq, ¬ permitted record l del rq.
Proof using Type.
  intros Hs Hf Hno rq Hp. revert Hno.
  destruct Hp as [h' d' Hs' Hf'|x h' d' Hs' Hf' Hm He Hmu Hid|x h' d' ips Hs' Hf' Hm He Hmu Ht Hips Hne Hid
                 |x h' d' Hs' Hf' Hm Hid Ht];
    destruct (splits_same _ _ _ _ _ Hs Hs') as [<- <-]; rewrite Hf in Hf'; simplify_eq.
  - intros [?|[?|[?|?]]]; congruence.
  - intros [?|[?|[? ?]]]; congruence.
  - intros [?|[?|[? ?]]]; [congruence..|]. destruct Ht as [|[? _]]; congruence.
Qed.

Lemma create_on_ends record h d l w1 res w' :
  splits (r_Hostname record) h d → create_on p record h d (the_override l (name_of h d)) w1 = (res, w') →
  (w' = w1 ∧ (∀ rq, ¬ permitted record l false rq) ∧ (res = inl tt ↔ already record false l)) ∨
  ∃ rq, permitted record l false rq ∧ changed rq w1 res w'.
Proof using Type.
  intros Hs. unfold create_on. destruct (the_override l (name_of h d)) as [x|] eqn:Ef.
  2:{ intros Hm. right. eexists. split; [by apply permit_add|]. eapply mutate_changed; [|exact Hm]. apply create_exchanges. }
  assert (∀ P : Prop, (marked (ho_Descr x) ∧ existsb (is_address (r_Target record)) (ho_IPs x) = true ↔ P) →
            (already record false l ↔ P)) as Hal.
  { intros P <-. split; [|by intros []; split; [done|exists h, d, x]].
    intros (_ & h' & d' & x' & Hs' & Hf' & ?). destruct (splits_same _ _ _ _ _ Hs Hs') as [<- <-].
    rewrite Ef in Hf'. by simplify_eq. }
  change (containsIP x (r_Target record)) with (existsb (is_address (r_Target record)) (ho_IPs x)).
  destruct (isOwnedBy (ho_Descr x)) eqn:Eo; cbn [negb].
  2:{ intros [= <- <-]. assert (¬ marked (ho_Descr x)) as Hno by (rewrite <- isOwnedBy_marked; by rewrite Eo).
      left. split; [done|]. split; [by eapply unpermitted; [done..|left]|]. rewrite (Hal False); naive_solver. }
  apply isOwnedBy_marked in Eo. destruct (existsb _ (ho_IPs x)) eqn:Ec.
  { intros [= <- <-]. left. split; [done|]. split; [by eapply unpermitted; [done..|right; right; right]|].
    by rewrite (Hal True). }
  assert (already record false l ↔ False) as Hno by (apply Hal; naive_solver).
  destruct (rs_multiIP (fp_res p)) eqn:Em; cbn [negb].
  2:{ intros [= <- <-]. left. split; [done|]. split; [by eapply unpermitted; [done..|right; right; left]|].
      by rewrite Hno. }
  intros Hm. destruct (decide (ho_ID x = "")) as [Hid|Hid].
  - destruct (update_unsent x (ho_IPs x ++ [r_Target record]) (ownershipDescription (fp_name p)) w1 Hid) as [e He].
    destruct (mutate_unsent _ _ _ _ _ _ _ _ He Hm) as [-> Hr].
    left. split; [done|]. split; [by eapply unpermitted; [done..|right; left]|]. rewrite Hno. naive_solver.
  - right. eexists. split; [by eapply permit_extend|]. eapply mutate_changed; [|exact Hm].
    apply update_exchanges; [done| |done]. by destruct (ho_IPs x).
Qed.

Lemma delete_on_ends record h d l w1 res w' :
  splits (r_Hostname record) h d → delete_on p record (the_override l (name_of h d)) w1 = (res, w') →
  (w' = w1 ∧ (∀ rq, ¬ permitted record l true rq) ∧ res ≠ inl tt) ∨
  ∃ rq, permitted record l true rq ∧ changed rq w1 res w'.
Proof using Type.
  intros Hs. unfold delete_on. destruct (the_override l (name_of h d)) as [x|] eqn:Ef.
  2:{ intros [= <- <-]. left. split_and!; [done| |done]. intros rq Hp. inversion Hp; subst;
        by match goal with Hs' : splits _ ?h' ?d' |- _ => destruct (splits_same _ _ _ _ _ Hs Hs'); simplify_eq end. }
  change (containsIP x (r_Target record)) with (existsb (is_address (r_Target record)) (ho_IPs x)).
  change (withoutIP x (r_Target record)) with
    (List.filter (λ s, negb (is_address (r_Target record) s)) (ho_IPs x)).
  destruct (ownedByInstance (ho_Descr x) (fp_name p)) eqn:Eo; cbn [negb].
  2:{ intros [= <- <-]. left. split_and!; [done| |done]. eapply unpermitted; [done..|left].
      rewrite <- ownedByInstance_marked. by rewrite Eo. }
  apply ownedByInstance_marked in Eo.
  destruct ((r_Target record != "") && negb (existsb _ _)) eqn:Ec.
  { intros [= <- <-]. left. split_and!; [done| |done]. eapply unpermitted; [done..|right; right].
    apply andb_true_iff in Ec as [E1 E2]. bool_to_prop. by destruct (existsb _ _). }
  cbv zeta. destruct (decide (ho_ID x = "")) as [Hid|Hid].
  { intros Hm. left.
    assert (∀ b : bool, ∃ e, (if b then client_update c
                (with_ips x (List.filter (λ s, negb (is_address (r_Target record) s)) (ho_IPs x)) (ho_Descr x))
              else client_remove c (ho_ID x)) w1 = (inr e, w1)) as Hun.
    { intros []; [by apply update_unsent|rewrite Hid; apply remove_unsent]. }
    match type of Hm with context [if ?b then client_update _ _ else _] => destruct (Hun b) as [e He] end.
    destruct (mutate_unsent _ _ _ _ _ _ _ _ He Hm) as [-> Hr].
    split_and!; [done| |done]. by eapply unpermitted; [done..|right; left]. }
  intros Hm. right. destruct (rs_multiIP (fp_res p) && (r_Target record != "") && _) eqn:Em.
  - apply andb_true_iff in Em as [[Em Ht]%andb_true_iff Hlen]. rewrite Ht in Ec. cbn [andb] in Ec.
    assert (List.filter (λ s, negb (is_address (r_Target record) s)) (ho_IPs x) ≠ []) as Hne
      by (by intros E; rewrite E in Hlen).
    eexists. split; [|eapply mutate_changed; [|exact Hm]; by apply update_exchanges].
    eapply permit_shrink; try done; [by apply negb_false_iff in Ec|by bool_to_prop].
  - eexists. split; [|eapply mutate_changed; [|exact Hm]; by apply remove_exchanges].
    eapply permit_drop; try done. destruct (String.eqb_spec (r_Target record) "") as [|_]; [by left|right].
    cbn [negb andb] in Ec, Em. split; [by apply negb_false_iff in Ec|].
    destruct (rs_multiIP (fp_res p)); [right|by left]. cbn [andb] in Em. by destruct (List.filter _ _).
Qed.

Lemma type_of record :
  r_Type record ≠ RecordTypeTXT →
  negb ((r_Type record == RecordTypeA) || (r_Type record == RecordTypeAAAA)) = true ∧
    ¬ (r_Type record = "A" ∨ r_Type record = "AAAA") ∨
  negb ((r_Type record == RecordTypeA) || (r_Type record == RecordTypeAAAA)) = false ∧
    (r_Type record = "A" ∨ r_Type record = "AAAA").
Proof using Type.
  intros _. destruct (String.eqb_spec (r_Type record) RecordTypeA), (String.eqb_spec (r_Type record) RecordTypeAAAA);
    simpl; naive_solver.
Qed.

(** C30. An override that has not the program's mark is never changed, and one
    without the mark of the instance loses nothing.  An operation on a TXT
    record succeeds at once, and one on a record that is no address of a name
    with two labels is an error at once.  Otherwise the overrides are listed;
    then either nothing is permitted, and the operation succeeds just when it
    was to create an address that an override of the program has; or one
    permitted change is sent: its request is written out, with the identifier
    of the override that was listed, its remaining addresses and the mark.  The
    reload follows if the change was taken, and the operation succeeds when
    what was sent was taken. *)
Theorem pfsense_requests record (del : bool) w res w' :
  (if del then fp_Delete p record else fp_Create p record) w = (res, w') → ends record del w res w'.
Proof using Type.
  unfold ends, supported. intros Hrun.
  destruct (decide (r_Type record = RecordTypeTXT)) as [Ht|Ht].
  { left. split; [rewrite Ht; naive_solver|]. unfold fp_Create, fp_Delete in Hrun. rewrite Ht in Hrun.
    destruct del; by injection Hrun as <- <-. }
  assert ((r_Type record == RecordTypeTXT) = false) as Htb by (by apply String.eqb_neq).
  assert (∀ e : error, (inr e : unit + error) = inl tt ↔ r_Type record = "TXT") as Herr by (by split).
  unfold fp_Create, fp_Delete in Hrun. rewrite Htb in Hrun.
  destruct (type_of record Ht) as [[Hn Hna]|[Hn Hty]]; rewrite Hn in Hrun.
  { left. destruct del; injection Hrun as <- <-; naive_solver. }
  destruct del; [|destruct (ParseIP (r_Target record)) as [ip|] eqn:Eip; [|injection Hrun as <- <-; left; naive_solver]];
    destruct (splitFQDN (r_Hostname record)) as [[h d]|] eqn:Es;
    try (injection Hrun as <- <-; left; split; [|by split]; intros (_ & _ & h & d & Hs%splitFQDN_splits); by rewrite Es in Hs);
    apply splitFQDN_splits in Es; apply listed_first in Hrun; right; (split; [naive_solver|]);
    destruct (exchange overrides_of list_call w) as [[l|] w1].
  - destruct (delete_on_ends _ _ _ _ _ _ _ Es Hrun) as [(-> & Hp & Hr)|(rq & Hp & Hc)]; [left|right; by exists l, rq].
    split_and!; [done|by intros ? rq [= <-]|]. split; [done|]. by intros (? & _ & ? & _).
  - destruct Hrun as [-> Hr]. left. split_and!; [done..|]. naive_solver.
  - destruct (create_on_ends _ _ _ _ _ _ _ Es Hrun) as [(-> & Hp & Hr)|(rq & Hp & Hc)]; [left|right; by exists l, rq].
    split_and!; [done|by intros ? rq [= <-]|]. rewrite Hr. split; [by exists l|]. by intros (? & [= <-] & ?).
  - destruct Hrun as [-> Hr]. left. split_and!; [done..|]. naive_solver.
Qed.
End PfSense.

(** *** What is listed: the addresses of the program's overrides in the zone *)
Theorem pfsense_listed p ho r :
  r ∈ listed p ho ↔
    isOwnedBy (ho_Descr ho) = true ∧
    (fp_zone p = "" ∨ inZone (joinFQDN (ho_Host ho) (ho_Domain ho)) (fp_zone p) = true) ∧
    ∃ ip t, ip ∈ ho_IPs ho ∧ recordTypeForIP ip = Some t ∧
      r = mkRecord (joinFQDN (ho_Host ho) (ho_Domain ho)) t ip (fp_ttl p) (ho_ID ho) None None ∅.
Proof.
  unfold listed. destruct (isOwnedBy _); cbn [negb]; [|split; [by intros ?%not_elem_of_nil|by intros [[=] _]]].
  destruct ((fp_zone p != "") && negb (inZone _ _)) eqn:Ez.
  { split; [by intros ?%not_elem_of_nil|]. intros (_ & Hz & _).
    apply andb_true_iff in Ez as [E1 E2]. bool_to_prop. by destruct Hz as [?|Hz]; [|rewrite Hz in E2]. }
  rewrite list_elem_of_omap. split.
  - intros (ip & Hip & Hr). split; [done|]. split.
    { destruct (String.eqb_spec (fp_zone p) "") as [|_]; [by left|right]. simpl in Ez. by apply negb_false_iff in Ez. }
    destruct (recordTypeForIP ip) as [t|] eqn:Et; [|done]. exists ip, t. by injection Hr as <-.
  - intros (_ & _ & ip & t & Hip & Ht & ->). exists ip. by rewrite Ht.
Qed.

(** ** The requests of OPNsense's provider *)

Section OpnSense.
Context {W : Type} `{HttpClient W} `{JsonErrors} `{MapOrder} (p : Opnsense.OProvider).
Context (trace : W → list HTTPRequest) `{!Traced trace}.
#[local] Abbreviation c := (Opnsense.op_client p).
#[local] Abbreviation eg := (Opnsense.op_engine p).
#[local] Abbreviation post := (Opnsense.api_request c).

Definition search_request : HTTPRequest := post (Opnsense.eg_SearchPath eg) (Some Opnsense.newSearchRequest).
Definition reconfigure : list HTTPRequest :=
  if Opnsense.op_mode p == Opnsense.ReconfigureModePerWrite
  then sent (post (Opnsense.eg_ReconfigurePath eg) None) else [].

Lemma opn_request_trace f path body w :
  trace (Opnsense.request p f path body w).2 = trace w ++ sent (post path body).
Proof using Traced0.
  unfold Opnsense.request, Opnsense.do, sent. rewrite io_bind_run, io_wrap_run. simpl.
  destruct (http_NewRequest _ _); [by rewrite app_nil_r|]. rewrite io_bind_run, io_wrap_run.
  rewrite <- (traced (post path body) w).
  destruct (http_Do _ w) as [[resp|e] w1]; [|done]. rewrite io_bind_run, io_wrap_run. unfold io_lift.
  destruct (ReadBody resp 0) as [text|]; [|done]. simpl. by destruct (Opnsense.mapStatusError _ _).
Qed.

Lemma opn_search_trace f w : trace (Opnsense.search p f w).2 = trace w ++ sent search_request.
Proof using Traced0.
  unfold Opnsense.search. rewrite io_bind_run. unfold search_request. rewrite <- (opn_request_trace f).
  by destruct (Opnsense.request _ _ _ _ w) as [[]].
Qed.

(** A change that succeeds is followed by the reload. *)
Lemma opn_mutate_trace doing dn r path body w res w' :
  Opnsense.mutate p doing dn r path body w = (res, w') →
  ∃ rl, trace w' = trace w ++ sent (post path body) ++ rl ∧ (rl = [] ∨ rl = reconfigure) ∧
    (res = inl tt → rl = reconfigure).
Proof using Traced0.
  unfold Opnsense.mutate. cbv zeta. rewrite io_bind_run. set (f := EWrapf _).
  pose proof (opn_request_trace f path body w) as Hr.
  destruct (Opnsense.request p f path body w) as [[text|e] w1]; simpl in Hr.
  2:{ intros [= <- <-]. exists []. rewrite app_nil_r. split_and!; [done|by left|done]. }
  rewrite io_bind_run, io_wrap_run. unfold io_lift.
  destruct (Opnsense.parseMutationResponse text) as [[]|e].
  2:{ intros [= <- <-]. exists []. rewrite app_nil_r. split_and!; [done|by left|done]. }
  rewrite io_wrap_run. unfold Opnsense.maybeReconfigure, reconfigure.
  destruct (Opnsense.op_mode p == Opnsense.ReconfigureModePerWrite); cbn [negb].
  - rewrite io_wrap_run, io_bind_run.
    pose proof (opn_request_trace id (Opnsense.eg_ReconfigurePath eg) None w1) as Hc.
    destruct (Opnsense.request p id _ None w1) as [[t|e] w2]; simpl in Hc; intros [= <- <-];
      exists (sent (post (Opnsense.eg_ReconfigurePath eg) None)); rewrite Hc, Hr, <- app_assoc; by auto.
  - intros [= <- <-]. exists []. rewrite app_nil_r. by auto.
Qed.

(** Creating a record adds an override that is marked, and nothing else. *)
Theorem opnsense_Create_requests r w res w' :
  Opnsense.op_Create p r w = (res, w') →
  (w' = w ∧ (res = inl tt → r_Type r = RecordTypeTXT)) ∨
  ∃ h d payload rl,
    splitFQDN (r_Hostname r) = Some (h, d) ∧
    Opnsense.eg_EncodeAddPayload eg (Opnsense.new_host p r h d) = inl payload ∧
    trace w' = trace w ++ sent (post (Opnsense.eg_AddPath eg) (Some payload)) ++ rl ∧
    (rl = [] ∨ rl = reconfigure) ∧ (res = inl tt → rl = reconfigure).
Proof using Traced0.
  unfold Opnsense.op_Create. destruct (String.eqb_spec (r_Type r) RecordTypeTXT) as [Ht|_].
  { intros [= <- <-]. by left. }
  destruct (negb _); [intros [= <- <-]; by left|].
  destruct (ParseIP _) as [ip|]; [|intros [= <- <-]; by left].
  change splitFQDN with Opnsense.splitFQDN.
  destruct (Opnsense.splitFQDN (r_Hostname r)) as [[h d]|]; [|intros [= <- <-]; by left].
  rewrite io_bind_run, io_wrap_run. unfold io_lift.
  destruct (Opnsense.eg_EncodeAddPayload eg _) as [payload|e] eqn:Ep; [|intros [= <- <-]; by left].
  intros Hm. right. destruct (opn_mutate_trace _ _ _ _ _ _ _ _ Hm) as (rl & Hrl & Hor & Hok).
  by exists h, d, payload, rl.
Qed.

(** An override that [findUUID] may give: of this instance, and for the record. *)
Definition own_row (r : DNSRecord) (w : W) (uuid : string) : Prop :=
  ∃ f rows w1 x, Opnsense.search p f w = (inl rows, w1) ∧ x ∈ rows ∧ uuid = Opnsense.hr_UUID x ∧
    marked_by (Opnsense.op_name p) (Opnsense.hr_Description x) ∧
    EqualFold (joinFQDN (Opnsense.hr_Hostname x) (Opnsense.hr_Domain x))
      (TrimSuffix (ToLower (r_Hostname r)) ".") = true ∧
    EqualFold (Opnsense.hr_Type x) (r_Type r) = true ∧
    (r_Target r = "" ∨ EqualFold (Opnsense.hr_Target x) (r_Target r) = true).

(** Deleting a record without an identifier deletes an override of this
    instance that the search gave for the name, type and target, and with one
    the override that it names; nothing else is deleted. *)
Theorem opnsense_Delete_requests r w res w' :
  Opnsense.op_Delete p r w = (res, w') →
  (w' = w ∧ (res = inl tt → r_Type r = RecordTypeTXT)) ∨
  (trace w' = trace w ++ sent search_request ∧ res ≠ inl tt) ∨
  ∃ uuid searched rl,
    trace w' = trace w ++ searched ++ sent (post (Opnsense.eg_DelPath eg uuid) None) ++ rl ∧
    (rl = [] ∨ rl = reconfigure) ∧ (res = inl tt → rl = reconfigure) ∧
    (searched = [] ∧ uuid = r_ProviderID r ∨
     searched = sent search_request ∧ r_ProviderID r = "" ∧ own_row r w uuid).
Proof using Traced0.
  unfold Opnsense.op_Delete. destruct (String.eqb_spec (r_Type r) RecordTypeTXT) as [Ht|_].
  { intros [= <- <-]. by left. }
  destruct (negb _); [intros [= <- <-]; by left|]. rewrite io_bind_run.
  destruct (String.eqb_spec (r_ProviderID r) "") as [Hid|Hid].
  2:{ change ((mret (r_ProviderID r) : IO W string) w) with (@inl string error (r_ProviderID r), w). cbv iota beta.
      destruct (String.eqb_spec (r_ProviderID r) "") as [|_]; [done|].
      intros Hm. right; right. destruct (opn_mutate_trace _ _ _ _ _ _ _ _ Hm) as (rl & Hrl & Hor & Hok).
      exists (r_ProviderID r), [], rl. split_and!; [done..|by left]. }
  unfold Opnsense.findUUID. rewrite io_bind_run. set (f := EWrapf _).
  pose proof (opn_search_trace f w) as Hs.
  destruct (Opnsense.search p f w) as [[rows|e] w1] eqn:Es; simpl in Hs.
  2:{ intros [= <- <-]. right; left. by split. }
  change ((mret ?x : IO W string) w1) with (@inl string error x, w1). cbv iota beta.
  destruct (List.find (Opnsense.wanted p r) rows) as [x|] eqn:Ef.
  2:{ intros [= <- <-]. right; left. by split. }
  destruct (String.eqb_spec (Opnsense.hr_UUID x) "") as [_|_].
  { intros [= <- <-]. right; left. by split. }
  intros Hm. right; right. destruct (opn_mutate_trace _ _ _ _ _ _ _ _ Hm) as (rl & Hrl & Hor & Hok).
  exists (Opnsense.hr_UUID x), (sent search_request), rl.
  split_and!; [by rewrite Hrl, Hs, <- app_assoc|done|done|]. right. split_and!; [done|done|].
  apply List.find_some in Ef as [Hin Hw]. unfold Opnsense.wanted in Hw.
  apply andb_true_iff in Hw as [[[Ho Hn]%andb_true_iff Ht]%andb_true_iff Hg].
  exists f, rows, w1, x. split_and!; try done; [by apply list_elem_of_In|by apply ownedByInstance_marked|].
  apply orb_true_iff in Hg as [Hg|Hg]; [left; by apply String.eqb_eq|by right].
Qed.
End OpnSense.

(** ** Scenarios *)

#[local] Existing Instance fixed_http.
#[local] Existing Instance no_json_errors.
#[local] Existing Instance key_order.

Definition pf : FProvider :=
  mkFProvider "pf" "https://pfsense" "home.example" 300 ReconfigureModePerWrite
    (newClient "https://pfsense/" "key" (resolverFor EngineUnbound)).
Definition pf_lists (descr : string) : Fixed :=
  mkFixed (quoted ("{'code':200,'status':'ok','data':[{'id':0,'host':'nas','domain':'home.example','ip':['192.0.2.7'],'descr':'"
                   ++s descr ++s "'}]}")) [].
Definition nas (t : RecordType) (ip : string) : DNSRecord := mkRecord "nas.home.example" t ip 300 "" None None ∅.

(** A second address: the listing, the change of the override, the reload. *)
Lemma pfsense_requests_witness :
  let r := fp_Create pf (nas RecordTypeAAAA "2001:db8::7") (pf_lists "dnsweaver:pf") in
  r.1 = inl tt ∧
  map (λ rq, (rq_Method rq, rq_URL rq)) (fx_trace r.2) =
    [("GET", "https://pfsense/api/v2/services/dns_resolver/host_overrides");
     ("PATCH", "https://pfsense/api/v2/services/dns_resolver/host_override");
     ("POST", "https://pfsense/api/v2/services/dns_resolver/apply")] ∧
  ends pf (nas RecordTypeAAAA "2001:db8::7") false (pf_lists "dnsweaver:pf") r.1 r.2.
Proof.
  intros r. split; [vm_compute; reflexivity|]. split; [vm_compute; reflexivity|].
  exact (@pfsense_requests Fixed fixed_http no_json_errors pf
           (nas RecordTypeAAAA "2001:db8::7") false (pf_lists "dnsweaver:pf") _ _ (surjective_pairing _)).
Defined.

(** An override that somebody else made is left alone. *)
Example foreign_kept :
  let r := fp_Create pf (nas RecordTypeAAAA "2001:db8::7") (pf_lists "printer room") in
  match r.1 with inl _ => false | inr _ => true end = true ∧ fx_trace r.2 = [list_call pf].
Proof. split; vm_compute; reflexivity. Qed.

(** An address that is there is a success without a reload: one that failed is
    not made up for. *)
Example failed_reload_stays :
  let r := fp_Create pf (nas RecordTypeA "192.0.2.7") (pf_lists "dnsweaver:pf") in
  r.1 = inl tt ∧ fx_trace r.2 = [list_call pf].
Proof. split; vm_compute; reflexivity. Qed.

(** An override of another instance is taken over, and that instance then finds
    its own address no longer. *)
Example taken_over :
  let r := fp_Create pf (nas RecordTypeAAAA "2001:db8::7") (pf_lists "dnsweaver:other") in
  r.1 = inl tt ∧
  existsb (λ rq, Contains (rq_Body rq) "dnsweaver:pf") (fx_trace r.2) = true ∧
  (fp_Delete (mkFProvider "other" "https://pfsense" "home.example" 300 ReconfigureModePerWrite (fp_client pf))
     (nas RecordTypeA "192.0.2.7") (pf_lists "dnsweaver:pf")).1 = inr (ESentinel ErrNotFound).
Proof. split_and!; vm_compute; reflexivity. Qed.

Lemma join_split_witness : joinFQDN "nas" "home.example" = "nas.home.example".
Proof. apply (join_split "NAS.Home.example." "nas" "home.example"); vm_compute; reflexivity. Defined.

Definition opn : Opnsense.OProvider :=
  Opnsense.mkOProvider "fw" "https://opnsense" "" 300 Opnsense.dnsmasqEngine "per_write"
    (Opnsense.NewClient "https://opnsense" "key" "secret").
Definition opn_rows : Fixed :=
  mkFixed (quoted "{'result':'deleted','rows':[{'uuid':'u1','enabled':'1','host':'nas','domain':'home.example','ip':'192.0.2.7','descr':'printer room'},{'uuid':'u2','enabled':'1','host':'NAS','domain':'home.example','ip':'192.0.2.7','descr':'dnsweaver:fw'}]}") [].

Lemma opnsense_Delete_requests_witness :
  let r := Opnsense.op_Delete opn (nas RecordTypeA "192.0.2.7") opn_rows in
  r.1 = inl tt ∧
  map rq_URL (fx_trace r.2) =
    ["https://opnsense/api/dnsmasq/settings/searchHost"; "https://opnsense/api/dnsmasq/settings/delHost/u2";
     "https://opnsense/api/dnsmasq/service/reconfigure"] ∧
  ((r.2 = opn_rows ∧ (r.1 = inl tt → RecordTypeA = RecordTypeTXT)) ∨
   (fx_trace r.2 = sent (search_request opn) ∧ r.1 ≠ inl tt) ∨
   ∃ uuid searched rl,
     fx_trace r.2 = searched ++ sent (Opnsense.api_request (Opnsense.op_client opn) ("/api/dnsmasq/settings/delHost/" ++s uuid) None) ++ rl ∧
     (rl = [] ∨ rl = reconfigure opn) ∧ (r.1 = inl tt → rl = reconfigure opn) ∧
     (searched = [] ∧ uuid = "" ∨
      searched = sent (search_request opn) ∧ "" = "" ∧ own_row opn (nas RecordTypeA "192.0.2.7") opn_rows uuid)).
Proof.
  intros r. split; [vm_compute; reflexivity|]. split; [vm_compute; reflexivity|].
  exact (@opnsense_Delete_requests Fixed fixed_http no_json_errors key_order opn fx_trace fixed_traced
           (nas RecordTypeA "192.0.2.7") opn_rows _ _ (surjective_pairing _)).
Defined.
