(* ===== verification/Main.v ===== *)
(** * The main program (cmd/dnsweaver/main.go)

    The listers that [run] makes of a configuration, and the guard through
    which the watchers, the timer and the refreshers ask for reconciliations.
    Logging is left out, and what main.go only hands on to libraries. *)
From S2P Require Import Prelude GoStrings Errors ProviderTypes GoTime GoMaps Workload IO Http Json.
From S2P Require Import SourceRegistry ConfigGlobal ConfigLoad Docker Guests Kubernetes.
From Stdlib Require Import ZArith.

(** ** Settings of the listers (setup.go) *)

Definition parseLogLevel (level : string) : string :=
  if level == "debug" then "DEBUG"
  else if (level == "warn") || (level == "warning") then "WARN"
  else if level == "error" then "ERROR"
  else "INFO".

Definition buildK8sConfig (cfg : ConfigLoad.Config) : Kubernetes.Config :=
  let k := gc_K8s (Global cfg) in
  Kubernetes.mkConfig (K8sKubeconfig k)
    (if K8sNamespaces k != "" then map TrimSpace (Split "," (K8sNamespaces k)) else [])
    (K8sWatchIngress k) (K8sWatchIngressRoute k) (K8sWatchHTTPRoute k) (K8sWatchServices k)
    (K8sLabelSelector k) (K8sAnnotationFilter k) (Kubernetes.DebounceInterval Kubernetes.DefaultConfig).

(** The projects that the Incus clients are made for, one client for each: the
    name, and whether the client watches all of them. *)
Definition incus_scopes (cfg : ConfigLoad.Config) : list (string * bool) :=
  if Config_IncusAllProjects cfg then [("", true)]
  else if (0 <? length (Config_IncusProjects cfg))%nat
       then map (λ p, (p, false)) (Config_IncusProjects cfg)
  else [(IncusProject (gc_Incus (Global cfg)), false)].

Definition proxmox_adapter (cfg : ConfigLoad.Config) : Proxmox.AdapterConfig :=
  let p := gc_Proxmox (Global cfg) in
  Proxmox.NewWorkloadListerAdapter
    (Proxmox.mkAdapterConfig (ProxmoxNodeFilter p) (ProxmoxTagFilter p) (ProxmoxStateFilter p)
       (ProxmoxInterfaceTagPrefix p) (ProxmoxAllowedInterfaces p)).

Section Listers.
Context {W : Type} `{DockerAPI W} `{KubeAPI W} `{UnstructuredAPI} `{HttpClient W} `{JsonErrors} `{MapOrder}.

(** The enrolment of a client certificate, and the clients of the Kubernetes
    API, which may fail. *)
Context (EnsureClientCert NewClients : IO W unit).

Fixpoint incus_clients (cfg : ConfigLoad.Config) (scopes : list (string * bool))
  : list Incus.Client + error :=
  match scopes with
  | [] => inl []
  | (project, all) :: scopes =>
      let i := gc_Incus (Global cfg) in
      match Incus.NewClient (IncusURL i) (IncusSocketPath i) project all with
      | inr e => inr (EWrapf "creating incus client: " e)
      | inl c => match incus_clients cfg scopes with inl cs => inl (c :: cs) | r => r end
      end
  end.

Definition proxmox_listers (cfg : ConfigLoad.Config) : list (Lister W) + error :=
  if UseProxmox cfg then
    let p := gc_Proxmox (Global cfg) in
    match Proxmox.NewClient (ProxmoxURL p) (ProxmoxTokenID p) (ProxmoxTokenSecret p) with
    | inr e => inr (EWrapf "creating proxmox client: " e)
    | inl c => inl [Proxmox.lister c (proxmox_adapter cfg)]
    end
  else inl [].

Definition incus_listers (cfg : ConfigLoad.Config) : IO W (list (Lister W)) :=
  if UseIncus cfg then
    _ ← (if IncusURL (gc_Incus (Global cfg)) != ""
         then io_wrap (EWrapf "resolving incus client certificate: ") EnsureClientCert
         else mret tt);
    cs ← io_lift (incus_clients cfg (incus_scopes cfg));
    mret (map (λ c, Incus.lister c
                 (Incus.NewWorkloadListerAdapter (IncusStateFilter (gc_Incus (Global cfg))))) cs)
  else mret [].

Definition kubernetes_listers (cfg : ConfigLoad.Config) (k8s : Kubernetes.Watcher) : IO W (list (Lister W)) :=
  if UseKubernetes cfg then
    _ ← io_wrap (EWrapf "creating kubernetes clients: ") NewClients;
    mret [Kubernetes.lister k8s]
  else mret [].

Definition no_listers : string :=
  "no workload listers or discovery sources configured: set DNSWEAVER_PLATFORM to docker, kubernetes, or both; set DNSWEAVER_PROXMOX_URL for Proxmox VE; set DNSWEAVER_INCUS_URL/DNSWEAVER_INCUS_SOCKET_PATH for Incus; or, when running standalone (DNSWEAVER_PLATFORM=none), configure a file-discovery source such as DNSWEAVER_SOURCE_TRAEFIK_FILE_PATHS".

(** The listers of a configuration.  The Docker client is there when the
    platform asks for one; [k8s] is the Kubernetes watcher, as it is when the
    lister is asked. *)
Definition build_listers (cfg : ConfigLoad.Config) (docker : nilable Docker.Client)
    (k8s : Kubernetes.Watcher) (discoverable : nat) : IO W (list (Lister W)) :=
  let dockers := match docker with Some c => [Docker.WorkloadListerAdapter c] | None => [] end in
  kubes ← kubernetes_listers cfg k8s;
  proxmoxes ← io_lift (proxmox_listers cfg);
  incuses ← incus_listers cfg;
  let listers := dockers ++ kubes ++ proxmoxes ++ incuses in
  if (length listers =? 0)%nat && (discoverable =? 0)%nat then io_fail (ENew no_listers)
  else mret listers.
End Listers.

(** ** The guard of the reconciliations

    [triggerReconcile] takes the lock and runs a pass, or leaves a mark for the
    one who holds it.  A step is what one goroutine does at once; between the
    failed [TryLock] and the mark others may act. *)
Inductive phase := Idle | FirstPass | AfterFirst | CatchUp | Leaving.

Record Trigger := mkTrigger {
  tg_phase : phase;
  (** [reconcilePending] *)
  tg_pending : bool;
  (** callers that found the lock taken and have not left their mark *)
  tg_late : nat;
  (** calls so far, and those that came before the last pass began *)
  tg_calls : nat;
  tg_covered : nat;
  tg_passes : nat
}.

Definition NewTrigger : Trigger := mkTrigger Idle false 0 0 0 0.

Inductive trigger_event := TCall | TMark | TPassEnds | TSwap | TUnlock.

(** One step, when it can be taken. *)
Definition trigger_step (s : Trigger) (e : trigger_event) : option Trigger :=
  let calls := tg_calls s in
  match e, tg_phase s with
  | TCall, Idle =>
      Some (mkTrigger FirstPass (tg_pending s) (tg_late s) (S calls) (S calls) (S (tg_passes s)))
  | TCall, p => Some (mkTrigger p (tg_pending s) (S (tg_late s)) (S calls) (tg_covered s) (tg_passes s))
  | TMark, p =>
      match tg_late s with
      | S late => Some (mkTrigger p true late calls (tg_covered s) (tg_passes s))
      | O => None
      end
  | TPassEnds, FirstPass =>
      Some (mkTrigger AfterFirst (tg_pending s) (tg_late s) calls (tg_covered s) (tg_passes s))
  | TPassEnds, CatchUp =>
      Some (mkTrigger Leaving (tg_pending s) (tg_late s) calls (tg_covered s) (tg_passes s))
  | TSwap, AfterFirst =>
      if tg_pending s
      then Some (mkTrigger CatchUp false (tg_late s) calls calls (S (tg_passes s)))
      else Some (mkTrigger Leaving false (tg_late s) calls (tg_covered s) (tg_passes s))
  | TUnlock, Leaving =>
      Some (mkTrigger Idle (tg_pending s) (tg_late s) calls (tg_covered s) (tg_passes s))
  | _, _ => None
  end.

Fixpoint trigger_run (s : Trigger) (es : list trigger_event) : option Trigger :=
  match es with
  | [] => Some s
  | e :: es => s ← trigger_step s e; trigger_run s es
  end.

(** What holds whatever the interleaving; a pass that may still be followed by
    a second one counts twice. *)
Definition trigger_inv (s : Trigger) : Prop :=
  tg_covered s ≤ tg_calls s ∧
  tg_passes s + (match tg_phase s with FirstPass | AfterFirst => 1 | _ => 0 end) ≤ 2 * tg_calls s ∧
  (tg_covered s < tg_calls s → tg_pending s = true ∨ 0 < tg_late s).

Lemma trigger_step_inv s e s' : trigger_step s e = Some s' → trigger_inv s → trigger_inv s'.
Proof.
  unfold trigger_inv. destruct s as [p pending late calls covered passes].
  destruct e, p; simpl; try done; try (destruct pending); try (destruct late; [done|]);
    intros [= <-]; simpl; intros (H1 & H2 & H3); (split_and!; [lia..|]); intros Hlt;
    try (left; reflexivity); try lia; try (right; lia); apply H3; lia.
Qed.

Lemma trigger_run_inv s es s' : trigger_run s es = Some s' → trigger_inv s → trigger_inv s'.
Proof.
  revert s. induction es as [|e es IH]; intros s; simpl; [by intros [= ->]|].
  destruct (trigger_step s e) as [s1|] eqn:E; [|done]. simpl. intros Hr Hs.
  by eapply IH, trigger_step_inv.
Qed.

(** C27. No request is forgotten.  However the requests of the watchers, the timer
    and the refreshers interleave: after a request that no pass has followed,
    the mark is there or about to be; a mark that is there when the first pass
    is over gets a second pass at once; and when the lock is free the next
    request starts a pass that serves all that came before.  Each request
    costs two passes at most. *)
Theorem no_trigger_forgotten es s :
  trigger_run NewTrigger es = Some s →
  tg_passes s ≤ 2 * tg_calls s ∧
  (tg_covered s < tg_calls s → tg_pending s = true ∨ 0 < tg_late s) ∧
  (tg_phase s = AfterFirst → tg_pending s = true →
     ∃ s', trigger_step s TSwap = Some s' ∧ tg_phase s' = CatchUp ∧ tg_covered s' = tg_calls s') ∧
  (tg_phase s = Idle →
     ∃ s', trigger_step s TCall = Some s' ∧ tg_phase s' = FirstPass ∧ tg_covered s' = tg_calls s').
Proof.
  intros Hr. apply trigger_run_inv in Hr as (H1 & H2 & H3); [|unfold trigger_inv; simpl; lia].
  destruct s as [p pending late calls covered passes]; simpl in *.
  split_and!; [lia|done|intros -> ->|intros ->]; by eexists.
Qed.

(** Two requests at once: when the first pass is over, the mark gets the second. *)
Lemma no_trigger_forgotten_witness :
  ∃ s, trigger_run NewTrigger [TCall; TCall; TMark; TPassEnds] = Some s ∧
    tg_passes s ≤ 2 * tg_calls s ∧
    ∃ s', trigger_step s TSwap = Some s' ∧ tg_phase s' = CatchUp ∧ tg_covered s' = tg_calls s'.
Proof.
  eexists. split; [reflexivity|].
  destruct (no_trigger_forgotten [TCall; TCall; TMark; TPassEnds] _ eq_refl) as (H1 & _ & H3 & _).
  split; [exact H1|exact (H3 eq_refl eq_refl)].
Defined.

(** A request during the second pass is not served when it ends: its mark
    waits for another request (the timer, if there is one). *)
Example late_request_waits :
  match trigger_run NewTrigger [TCall; TCall; TMark; TPassEnds; TSwap; TCall; TMark; TPassEnds; TUnlock] with
  | Some s => tg_phase s = Idle ∧ tg_pending s = true ∧ tg_covered s < tg_calls s
  | None => False
  end.
Proof. simpl. split_and!; [done..|lia]. Qed.

(** ** The listers follow the configuration *)

Section ListerLaws.
Context {W : Type} `{DockerAPI W} `{KubeAPI W} `{UnstructuredAPI} `{HttpClient W} `{JsonErrors} `{MapOrder}.
Implicit Types (cfg : ConfigLoad.Config).

Lemma incus_clients_inl cfg scopes cs :
  incus_clients cfg scopes = inl cs → map (λ c, (Incus.project c, Incus.allProjects c)) cs = scopes.
Proof.
  revert cs. induction scopes as [|[project all] scopes IH]; intros cs; simpl; [by intros [= <-]|].
  unfold Incus.NewClient. destruct (_ && _); [done|]. destruct (_ && _); [done|].
  destruct (incus_clients cfg scopes) as [cs'|e]; [|done]. intros [= <-]. simpl. by rewrite (IH cs').
Qed.

Lemma incus_scopes_length cfg : 0 < length (incus_scopes cfg).
Proof.
  unfold incus_scopes. destruct (Config_IncusAllProjects cfg); [simpl; lia|].
  destruct (Config_IncusProjects cfg); simpl; lia.
Qed.

Lemma proxmox_listers_inl cfg ls :
  proxmox_listers cfg = inl ls → map lst_Platform ls = if UseProxmox cfg then [PlatformProxmox] else [].
Proof.
  unfold proxmox_listers. destruct (UseProxmox cfg); [|by intros [= <-]].
  destruct (Proxmox.NewClient _ _ _); [|done]. by intros [= <-].
Qed.

Lemma incus_listers_inl (ensure : IO W unit) cfg w ls w' :
  incus_listers ensure cfg w = (inl ls, w') →
  map lst_Platform ls = if UseIncus cfg then replicate (length (incus_scopes cfg)) PlatformIncus else [].
Proof.
  unfold incus_listers. destruct (UseIncus cfg); [|by intros [= <- _]].
  intros ([] & w1 & _ & (cs & w2 & Hcs & E)%io_bind_inl)%io_bind_inl.
  injection E as <- _. unfold io_lift in Hcs. injection Hcs as Hcs _. apply incus_clients_inl in Hcs.
  rewrite <- Hcs, length_map. clear Hcs. induction cs as [|c cs IH]; simpl; [done|by rewrite IH].
Qed.

(** What the start hands to the reconciler: a lister for Docker when there is a
    client, one for Kubernetes when the platform asks for it, one for Proxmox
    when it has a URL, and for Incus one for each project (or one for all of
    them), in this order; none at all only when some source discovers its
    hostnames itself. *)
Theorem build_listers_spec (ensure clients : IO W unit) cfg docker k8s discoverable w ls w' :
  build_listers ensure clients cfg docker k8s discoverable w = (inl ls, w') →
  map lst_Platform ls =
    (if docker is Some _ then [PlatformDocker] else []) ++
    (if UseKubernetes cfg then [PlatformKubernetes] else []) ++
    (if UseProxmox cfg then [PlatformProxmox] else []) ++
    (if UseIncus cfg then replicate (length (incus_scopes cfg)) PlatformIncus else []) ∧
  (ls = [] → 0 < discoverable).
Proof.
  unfold build_listers.
  intros (kx & w0 & Hkx & (px & w1 & Hpx & (ix & w2 & Hix%incus_listers_inl & Hr)%io_bind_inl)%io_bind_inl)%io_bind_inl.
  assert (map lst_Platform kx = if UseKubernetes cfg then [PlatformKubernetes] else []) as Hk.
  { revert Hkx. unfold kubernetes_listers. destruct (UseKubernetes cfg); [|by intros [= <- _]].
    by intros (? & ? & _ & [= <- _])%io_bind_inl. }
  unfold io_lift in Hpx. injection Hpx as Hpx%proxmox_listers_inl ->.
  destruct (_ && _) eqn:E; [done|]. injection Hr as <- _. split.
  - rewrite !map_app, Hk, Hpx, Hix. by destruct docker.
  - intros Hn. rewrite Hn in E. simpl in E. apply Nat.eqb_neq in E. lia.
Qed.
End ListerLaws.
