(* ===== verification/PlatformScenarios.v ===== *)
(** * The sources, listers and watchers on concrete platforms

    A Docker daemon that comes up late, a Proxmox cluster with canned answers,
    a burst of events, a Kubernetes cluster with a namespace filter, and the
    sources under the reconciler's extraction: the hypotheses of the theorems
    can hold. *)
From S2P Require Import Prelude GoStrings GoTime Errors NetIP GoMaps Workload Hostname ProviderTypes.
From S2P Require Import IO Http Json SourceRegistry SourcePlatforms Docker Guests GuestProps.
From S2P Require Import SourceTraefik Effects Reconcile Kubernetes KubeProps Watcher Workload.
From S2P Require SourceNative.
From Stdlib Require Import ZArith.

(** ** A daemon that answers after a second; the world is the time *)

Definition swarm_service : SwarmService := mkSwarmService "s1" "web" {["a" := "b"]}.

#[local] Instance late_daemon : DockerAPI Z := {|
  docker_New _ t := (inl tt, t);
  docker_Close t := t;
  docker_Ping t := (inl tt, t);
  docker_Info t := (if (t <? time_Second)%Z then inr (ENew "connection refused")
                    else inl (mkSwarmInfo "active" true), t);
  docker_ServiceList t := (inl [swarm_service], t);
  docker_ContainerList _ t := (inl [], t);
  docker_ServiceInspect _ t := (inl swarm_service, t);
  docker_ContainerInspect _ t := (inr (ENew "no such container"), t);
  docker_wait d t := (inl tt, t + Z.max 0 d)%Z
|}.
#[local] Instance late_clock : Clock Z := λ t, (t, t).
#[local] Instance late_laws : DockerClockLaws Z.
Proof. refine {| clock_time (t : Z) := t |}; intros; simpl; lia. Defined.

Lemma docker_lister_spec_witness :
  ∃ c w' swarm,
    NewClient "10s" 23 "" (parseDockerMode "auto") true (10 * time_Second) 0%Z = Some (inl c, w') ∧
    ("auto" = "swarm" → swarm = true) ∧ ("auto" = "standalone" → swarm = false) ∧
    lst_ListWorkloads (WorkloadListerAdapter c) w' =
      if swarm : bool then (inl (map service_workload [swarm_service]), w') else (inl [], w').
Proof.
  destruct (NewClient "10s" 23 "" (parseDockerMode "auto") true (10 * time_Second) 0%Z)
    as [[[c|e] w']|] eqn:E; [|by vm_compute in E..].
  destruct (docker_lister_spec _ _ _ _ _ _ _ _ _ E) as (swarm & H1 & H2 & Hl).
  exists c, w', swarm. split_and!; [done..|]. rewrite Hl. by destruct swarm.
Defined.

Definition late_client : Client := mkClient ModeAuto "" "" true (10 * time_Second).

(** The daemon is there at the third attempt, after pauses of half a second and
    of one. *)
Lemma connectWithRetry_ends_witness :
  ∃ r w', connectWithRetry "10s" 23 late_client 0%Z = Some (r, w') ∧
          r = inl (set_detectedMode ModeSwarm late_client) ∧ w' = 1500000000%Z ∧
          connect_course "10s" late_client 0%Z r w'.
Proof.
  destruct (connectWithRetry_ends "10s" 23 late_client 0%Z) as (r & w' & Hr & Hc);
    [by left|by apply Nat.leb_le|].
  exists r, w'. assert (Hr2 := Hr). vm_compute in Hr2. injection Hr2 as <- <-.
  split; [exact Hr|]. split; [reflexivity|]. split; [reflexivity|exact Hc].
Defined.

(** ** A cluster with one container and one machine *)

Definition answers (url : string) : HTTPResponse :=
  if url == "https://pve/api2/json/cluster/resources?type=vm" then
    mkResponse 200 (print (JObj [("data", JArr [
      JObj [("vmid", JInt 101); ("name", JStr "web.example.com"); ("node", JStr "n1");
            ("type", JStr "lxc"); ("status", JStr "running"); ("tags", JStr "dns;prod")]])])) None
  else if url == "https://pve/api2/json/nodes/n1/lxc/101/config" then
    mkResponse 200 (print (JObj [("data", JObj [("net0", JStr "name=eth0,ip=10.0.0.5/24")])])) None
  else mkResponse 404 "" None.

#[local] Instance cluster : HttpClient unit := {|
  http_NewRequest _ _ := None;
  http_Do rq w := (inl (answers (rq_URL rq)), w)
|}.
#[local] Instance plain_errors : JsonErrors := λ _, ENew "invalid JSON".
#[local] Existing Instance key_order.

Definition cluster_client : Proxmox.Client := Proxmox.mkClient "https://pve" "PVEAPIToken=t=s".
Definition cluster_config : Proxmox.AdapterConfig :=
  Proxmox.NewWorkloadListerAdapter (Proxmox.mkAdapterConfig "" "dns" "" "" []).

Lemma guest_record_routable_witness :
  ∃ wl h hints r,
    Proxmox.ListWorkloads cluster_client cluster_config tt = (inl [wl], tt) ∧
    SourcePlatforms.Proxmox.Extract (SourcePlatforms.Proxmox.New "" "" "") wl = inl [h] ∧
    h_RecordHints h = Some hints ∧ hint_Target hints = "10.0.0.5" ∧
    hint_Type hints = "A" ∧ own_address tt cluster_client r "10.0.0.5" ∧ reachable "10.0.0.5".
Proof.
  assert (∃ wl h hints,
    Proxmox.ListWorkloads cluster_client cluster_config tt = (inl [wl], tt) ∧
    SourcePlatforms.Proxmox.Extract (SourcePlatforms.Proxmox.New "" "" "") wl = inl [h] ∧
    h_RecordHints h = Some hints ∧ hint_Target hints = "10.0.0.5") as (wl & h & hints & Hl & Hx & Hh & Ht)
    by (eexists _, _, _; repeat (split; [by vm_compute|]); by vm_compute).
  destruct (guest_record_routable cluster_client cluster_config tt tt [wl] wl
            (SourcePlatforms.Proxmox.New "" "" "") [h] h hints Hl ltac:(by left) Hx ltac:(by left) Hh)
    as (rs & r & _ & _ & _ & _ & Hty & Ho & Hr).
  rewrite Ht in Ho, Hr.
  exact (ex_intro _ wl (ex_intro _ h (ex_intro _ hints (ex_intro _ r
    (conj Hl (conj Hx (conj Hh (conj Ht (conj Hty (conj Ho Hr)))))))))).
Defined.

Lemma nonRoutable_exact_witness :
  isNonRoutableIP (dotted [198; 19; 0; 1]%Z) = true ↔ reserved_v4 198 19 0 1.
Proof. by apply nonRoutable_exact. Defined.

(** ** Three events within the interval *)

Lemma burst_reconciles_once_witness :
  let w := Start (NewWatcher 0) in
  ∃ w1 w2,
    run 2 w (deliveries 0 [5; 6; 7]%Z) = Some w1 ∧ wt_reconciles w1 = [] ∧
    run 2 w1 [EPass 9] = Some w2 ∧ wt_reconciles w2 = [9]%Z ∧ wt_debounce w2 = None.
Proof. apply (burst_reconciles_once 2 0 5 [6; 7]%Z (Start (NewWatcher 0))); simpl; [lia|by left|done|lia|lia]. Defined.

Lemma event_served_witness :
  let es := [EStart; EPass 5; EDeliver 0; EPass 9; EDeliver 0]%nat in
  ∃ w, run 2 (NewWatcher 0) es = Some w ∧ wt_reconciles w = [7]%Z ∧ served 2 (Some 9%Z) w.
Proof.
  intros es. destruct (run 2 (NewWatcher 0) es) as [w|] eqn:E; [|by vm_compute in E].
  exists w. split_and!; [done|by vm_compute in E; injection E as <-|].
  change (Some 9%Z) with (tracked 2 (NewWatcher 0) es None). apply (event_served 2 0); [lia|done].
Defined.

(** ** A Kubernetes cluster *)

Definition meta_of (namespace name : string) : ObjectMeta :=
  mkObjectMeta ("uid-" ++s name) namespace name "1" ∅ {["team" := "a=b"]}.

Definition shop : Ingress := mkIngress (meta_of "prod" "shop") ["shop.example.com"; ""] [["www.example.com"]].
Definition route : Unstructured :=
  mkUnstructured (meta_of "prod" "api")
    (JObj [("spec", JObj [("routes", JArr [JObj [("match", JStr "Host(`api.example.com`)")]])])]).

#[local] Instance nested : UnstructuredAPI := {|
  NestedMap j path :=
    fold_left (λ acc k, m ← acc; j ← m !! k; as_map j) path (as_map j);
  NestedStringSlice _ _ := None
|}.

#[local] Instance traefik_cluster : KubeAPI unit := {|
  kube_ServerGroups w := (inl ["apps"; "traefik.io"], w);
  kube_AddEventHandler _ w := (inl tt, w);
  kube_Sync w := w;
  kube_Selector := string;
  kube_Everything := "";
  kube_Parse s := inl s;
  kube_Ingresses _ _ := inl [shop; mkIngress (meta_of "dev" "shop") ["dev.example.com"] []];
  kube_Services _ _ := inl [];
  kube_Dynamic group _ _ := inl (if group == "traefik.io" then [Some route; None] else [])
|}.

Definition prod_only : Config := mkConfig "" ["prod"] true true true false "" "team=a=b" 0.

Lemma kubernetes_lister_spec_witness :
  ∃ k ws,
    Kubernetes.Start (NewKubeWatcher prod_only) tt = ((None, k), tt) ∧ ListWorkloads k tt = inl ws ∧
    map w_Hostnames ws = [["shop.example.com"; "www.example.com"]; ["api.example.com"]] ∧
    ∀ wl, wl ∈ ws ↔ ∃ m, resource prod_only (kube_Everything (W:=unit)) tt tt m wl ∧ matchesFilters prod_only m = true.
Proof.
  eexists _, _. repeat (split; [by vm_compute|]).
  eapply (kubernetes_lister_spec prod_only (kube_Everything (W:=unit)) tt _ tt tt); by vm_compute.
Defined.

(** ** Sources *)

Definition container (labels : gmap string string) : Workload :=
  mkWorkload "1" "app" "" labels ∅ PlatformDocker "container" [] ∅.

(** ** Native labels *)

Definition srv_record : SourceNative.Extraction :=
  SourceNative.mkExtraction "_minecraft._tcp.example.com" "mc" "SRV" "mc.example.com" "internal-dns" 600
    (Some (SourceNative.mkSRVData 25565 10 100)) {[ "proxied" := "false"; "note" := "x y" ]}.

Lemma srv_record_ok : SourceNative.record_ok srv_record.
Proof.
  split; try (repeat split; done).
  - intros srv [= <-]. repeat split; done.
  - apply map_Forall_insert_2; [repeat split; done|]. apply map_Forall_singleton. repeat split; done.
Qed.

Lemma record_labels_roundtrip_witness :
  @SourceNative.ExtractHostnames key_order (SourceNative.record_labels srv_record) = [srv_record].
Proof. apply (SourceNative.record_labels_roundtrip (H:=key_order)). exact srv_record_ok. Defined.

Definition two_targets : gmap string string :=
  {[ "dnsweaver.records.a.hostname" := "app.example.com"; "dnsweaver.records.a.target" := "10.0.0.1";
     "dnsweaver.records.b.hostname" := "app.example.com"; "dnsweaver.records.b.target" := "10.0.0.2" ]}.

(** Reads which field a label hits. *)
Ltac read_hit Hhit Hh :=
  match type of Hh with
  | Is_true (SourceNative.hits ?n ?f ?k) =>
      let r := eval vm_compute in (SourceNative.namedRecord k) in
      match r with Some (?n', ?f') => destruct (Hhit k n f n' f' eq_refl Hh) as [? ?] end
  end.

Lemma two_targets_distinct : SourceNative.distinct_fields two_targets.
Proof.
  intros k1 k2 name field [v1 H1] [v2 H2] Hh1 Hh2.
  assert (∀ k v, two_targets !! k = Some v →
    k ∈ ["dnsweaver.records.a.hostname"; "dnsweaver.records.a.target";
         "dnsweaver.records.b.hostname"; "dnsweaver.records.b.target"]) as Hk.
  { intros k v Hk. unfold two_targets in Hk. rewrite !lookup_insert_Some, lookup_singleton_Some in Hk.
    rewrite !elem_of_cons. destruct Hk as [[<- _]|[_ [[<- _]|[_ [[<- _]|[_ [<- _]]]]]]]; tauto. }
  apply Hk in H1, H2. rewrite !elem_of_cons, elem_of_nil in H1, H2.
  assert (∀ k n f n' f', SourceNative.namedRecord k = Some (n', f') → SourceNative.hits n f k →
    n = n' ∧ f = ToLower f') as Hhit.
  { intros k n f n' f' E Hh. unfold SourceNative.hits in Hh. rewrite E in Hh.
    apply Is_true_true, andb_true_iff in Hh as [->%String.eqb_eq Hf%String.eqb_eq]. by split. }
  destruct H1 as [->|[->|[->|[->|[]]]]]; read_hit Hhit Hh1;
    destruct H2 as [->|[->|[->|[->|[]]]]]; try done; read_hit Hhit Hh2; subst; discriminate.
Qed.

Lemma ExtractHostnames_order_witness :
  @SourceNative.ExtractHostnames key_order two_targets
  ≡ₚ @SourceNative.ExtractHostnames (SourceNative.reverse_order key_order) two_targets.
Proof.
  apply (SourceNative.ExtractHostnames_order key_order (SourceNative.reverse_order key_order)).
  exact two_targets_distinct.
Defined.

Lemma extraction_wellformed_witness :
  let e := SourceNative.simple {[ "dnsweaver.hostname" := "a.example.com"; "dnsweaver.ttl" := "-5" ]}
             "a.example.com" in
  SourceNative.ex_Hostname e ≠ "" ∧ (0 ≤ SourceNative.ex_TTL e < 2 ^ 63)%Z.
Proof.
  intros e.
  destruct (SourceNative.extraction_wellformed (H:=key_order)
    {[ "dnsweaver.hostname" := "a.example.com"; "dnsweaver.ttl" := "-5" ]} e) as (H1 & H2 & _).
  - assert (@SourceNative.ExtractHostnames key_order
      {[ "dnsweaver.hostname" := "a.example.com"; "dnsweaver.ttl" := "-5" ]} = [e]) as ->
      by (vm_compute; reflexivity).
    by apply list_elem_of_singleton.
  - split; [exact H1|exact H2].
Defined.

(** ** Two records for one name

    What the reconciler keeps of a workload for a name, with the native
    source under an iteration order. *)
Definition kept (o : MapOrder) (w : Workload) (name : string) : option string :=
  let registry := (Register (W:=unit) (@SourceNative.dnsweaver o unit) NewSourceRegistry).2 in
  let ex := extractWorkload registry (mkExtraction ∅ ∅ 0 0) w in
  (ex_discovered ex !! name) ≫= λ h, (h_RecordHints h) ≫= λ hints, Some (hint_Target hints).

(** Of two named records for one hostname the reconciler keeps the one that the
    iteration over the label map gives first, so the target that is published
    can change from one cycle to the next with nothing changed. *)
Theorem two_records_one_name :
  ∃ o1 o2 : MapOrder,
    kept o1 (container two_targets) "app.example.com" = Some "10.0.0.1" ∧
    kept o2 (container two_targets) "app.example.com" = Some "10.0.0.2".
Proof.
  exists key_order, (SourceNative.reverse_order key_order). split; vm_compute; reflexivity.
Qed.

(** ** Guests *)

Definition vm : Workload :=
  mkWorkload "100" "web" "" ∅ ∅ PlatformProxmox "vm" []
    {[ "ip" := "192.0.2.7"; "node" := "pve"; "vmid" := "100"; "tags" := "prod;dns+www" ]}.

Lemma proxmox_spec_witness :
  let p := SourcePlatforms.Proxmox.New ".home.example.com" "" "dns" in
  ∃ hs, SourcePlatforms.Proxmox.Extract p vm = inl hs ∧
    ∃ h, hs = [h] ∧ h_Name h = "www.home.example.com".
Proof.
  intros p. eexists. split; [vm_compute; reflexivity|].
  destruct (SourcePlatforms.proxmox_spec p vm _ (eq_refl : SourcePlatforms.Proxmox.Extract p vm = inl _))
    as [[H _]|(h & H & _ & _ & Hn & _)].
  - vm_compute in H. discriminate H.
  - exists h. split; [exact H|]. vm_compute in Hn. by injection Hn.
Defined.
